(* ===== verification/_CoqProject ===== *)
-Q . S2P
Prelude.v
Errors.v
Uuid.v
Utf8.v
Strconv.v
Base64.v
Types.v
SendCheck.v
Groups.v
GroupMembers.v
GroupSettings.v
GroupChange.v
GroupCommit.v
Protowire.v
GroupInvite.v
Trace.v
GroupAccept.v
GroupJoin.v
PollReduce.v
Recipients.v
SendFlow.v
Content.v
FilePath.v
Attachments.v
AppSend.v
Resolve.v
AppWrite.v
AppStories.v
Directory.v
AppGroups.v
Wire.v
InboxStore.v
InboxEvents.v
PollStore.v
InboxClient.v
InboxApp.v
InboxWait.v
PollShow.v
Reconnect.v
Convert.v
StoreCounters.v
ClientSend.v
Accounts.v
PinList.v
Identity.v
IdentityStore.v
IdentityTrust.v
IdentityClient.v
AppIdentities.v
IdentityDecisions.v
IdentityDemo.v
Receive.v
Confirm.v
McpTools.v
Blocked.v
Profile.v
Sync.v
Downloads.v
McpInbox.v
McpHook.v
FileSys.v
Registry.v
FileLogic.v
Imports.v
ImportSafety.v
ImportRecovery.v
RegistryOps.v
ImportCrash.v
ImportBuild.v
ImportDemo.v
