(* ===== verification/Prelude.v ===== *)
(** * A model of go-signal in Rocq

    go-signal is a Signal client: a command line, an MCP server and an HTTP daemon over one
    application layer ([internal/app]), which talks to a client facade ([internal/signal]) whose
    implementation calls the signalmeow library and keeps its own data in a SQLite database
    ([internal/store]). This development models the logic that decides what is sent, what is
    stored and what a caller is told, and proves it correct. It is a shallow embedding: pure Go
    functions are functions, Go errors are values, and stateful code is in a state-and-error monad.

    ** Conventions

    - [(T, error)] is [result err T] ([Errors.v]); an error result alone is [option err]. Errors are
      modelled as far as [errors.Is] sees them, and texts only where the code promises them.
    - [io W E A] (this file) is a function from a world to a result and a world: a failing
      operation keeps the effects it had.
    - Integers are [Z]. Wrap-around is written out where the code can reach it ([to_uint64] for
      timestamps, [to_int64] in [GroupChange.v], [wrap64] for durations, the [uint32] revision
      that the code checks against [MaxUint32]).
    - Strings are byte strings ([Utf8.v] decodes them); times are nanoseconds since 1970, the zero
      [time.Time] is a value of its own.
    - Code that is not in the repository is a class of operations: [UuidLib] (google/uuid, with its
      documented laws [UuidLaws]), [ImageLib], [LinkLib], [Protowire], [Encoding], [PollEncoding] and
      [StoreEncoding] (image decoders, protobuf, encoding/json, hashing), [GroupBackend], [AcceptOps],
      [JoinOps] and [CancelOps] (signalmeow and the server), [SignalTables] and the key functions of
      [IdentityTrust.v] (libsignal), [SignalPb], [ConvertLib], [FieldWire],
      [ContactStore], [SyncEnv], [DownloadEnv], [ProfileLib], [ProfileEnv] and [Signalmeow] (the message library and server), [Files] and [MediaLib] (the operating system and media decoders) and
      [Client] (the facade, for the application layer). What a remote
      party answers is arbitrary; where it can change between calls it depends on the calls so
      far or on the world.

    ** The parts

    - Foundations. [Prelude.v]: results, the monad and its triples, sorting, deduplication, lists.
      [Errors.v]; [Uuid.v]; [Utf8.v] ([unicode/utf8], [strings]); [Strconv.v]; [Base64.v]; [Types.v]
      (the structs and the [Event] sum of types.go, events.go and their neighbours).
    - Outgoing messages. [SendCheck.v] is [SendRequest.Check] of send.go with styles.go, poll_check.go,
      pin_check.go, sticker.go and stories_send.go. [Recipients.v] (recipient.go, policy.go) parses and
      resolves recipient arguments and checks the allowlist. [SendFlow.v] (send.go, receipts.go,
      viewed_receipts.go of internal/app) connects, resolves, checks, builds and sends; its
      requests are those [SendCheck.v] validates, and the ghost fields of [App] log them.
      [Content.v] (content.go, styles.go) parses mention placeholders, message references and style
      arguments; [FilePath.v] ([path/filepath]) and [Attachments.v] (content.go) read attached files.
      [AppSend.v] is [Send] with the content it builds; [AppWrite.v] (react.go, polls.go, pins.go) and
      [AppStories.v] (stories_send.go, stories_private.go) the other operations that write. They use the
      facade through [Client] and [WriteClient] and its laws [ClientLaws], [WriteLaws] and [StoryLaws];
      [Resolve.v] (meow_resolve.go, username.go) implements the law of [Resolve].
      [Directory.v] (names.go, contacts.go, groups.go) keeps names, lists and blocks contacts and finds groups
      and chats; [AppGroups.v] (groups*.go of internal/app) has every group command on top of it and asks
      the facade through [GroupClient]. [Downloads.v] (download.go, sticker_download.go, stories.go) saves received files.
      [PollShow.v] (poll_show.go) shows a poll on top of the inbox and [PollReduce.v]; [AppIdentities.v] (identities.go, sync.go) has the commands for
      identity keys and syncing.
    - The MCP server. [Confirm.v] (internal/mcp/confirm.go) asks the user to confirm calls, as a step relation of
      calls that run at the same time; [McpTools.v] (write.go, polls.go) are the tools that send.
      [McpInbox.v] (mcp/inbox.go) has the tools and resources that read, [McpHook.v] (hook.go, server.go, http.go) the program
      that runs for new messages.
    - The wire. [Wire.v] (meow_send.go, meow_poll.go, meow_pin.go, meow_styles.go) builds the data message of
      a request; [Convert.v] (convert.go, convert_mentions.go, convert_stories.go and the reading halves of
      meow_poll.go, meow_pin.go) turns what signalmeow receives into events. signalpb's messages are records.
    - The client. [ClientSend.v] (meow_send.go, meow_chat_timers.go, meow_receipt.go, meow_stories_send.go,
      meow_attachments.go) uploads, sends and reports what signalmeow answered, and learns chat timers into the
      table of [StoreCounters.v]; it uses [Wire.v] and logs its calls with [Trace.v]. [Receive.v] (meow.go) is
      signalmeow's event handler on top of [Convert.v], [InboxClient.v], [StoreCounters.v] and [IdentityTrust.v].
      [Blocked.v] (meow_contacts.go, store/contacts.go) lists contacts and blocks users by sending the whole blocked
      list, with the table of overrides that contact storage does not have yet. [Profile.v] (profile*.go, meow_profile.go)
      reads, encrypts and updates the own profile.
    - Groups. [Groups.v] (groups.go) has the state; [GroupMembers.v] (groups_remove.go, groups_roles.go,
      groups_bans.go, groups_add.go, groups_create.go) and [GroupSettings.v] (groups_update.go,
      groups_avatar.go, groups_link.go) compute the group after a change. [GroupChange.v]
      (meow_groups*.go) converts the server's group and builds the change to send;
      [GroupCommit.v] (changeGroupOnce, updateGroupAndFetchOnce) commits it with one PATCH;
      [GroupAccept.v] (groups_accept.go, meow_groups_accept.go) accepts an invitation.
      [GroupInvite.v] (groupinvite/parser.go, on [Protowire.v]) reads invite links; [GroupJoin.v]
      (groups_join.go, meow_groups_join.go and the files of cancelling) joins by link and cancels a
      request. The three share [Trace.v], the monad that logs the calls of an operation.
    - Identities. [Identity.v] (identity.go, fingerprints) has trust levels and safety numbers;
      [IdentityStore.v] (store/identities.go, identity_sync.go, storage_identity.go) the three tables;
      [IdentityTrust.v] (meow_identity.go) answers libsignal and observes keys; [IdentityClient.v]
      (meow_identity*.go) takes the decisions of the user, of linked devices and of contact storage
      and sends the queue; [IdentityDecisions.v] says what they do, [IdentityDemo.v] has the witnesses.
    - Accounts on disk. [FileSys.v] is a tree of files with locks on which every call may fail and the
      process may stop before any of them, [FileLogic.v] its program logic; [Registry.v]
      (store/accounts.go, registry.go, recovery.go) keeps accounts.json and recovers, [Imports.v]
      (imports.go) builds and publishes an account. [RegistryOps.v], [ImportBuild.v],
      [ImportSafety.v], [ImportRecovery.v] and [ImportCrash.v] hold the theorems, [ImportDemo.v] the
      witnesses.
    - Polls. [PollReduce.v] (poll_reduce.go, poll_projection.go) folds observations into a poll's
      state; [PollStore.v] (store/poll_projections.go, meow_poll_projection.go) keeps evidence and
      projections in one transaction and calls the former through its [reduce] argument.
    - The inbox. [InboxStore.v] (store/inbox.go) is the table; [InboxEvents.v] (signal/inbox.go) encodes
      events into its rows; [InboxClient.v] (meow_inbox.go) offers both as the class [InboxBackend]
      and proves the laws [InboxLaws]; [InboxApp.v] (app/inbox.go) receives, pages and marks read and
      is verified against the laws only; [InboxWait.v] (app/inbox.go) waits while it receives. [PinList.v] (app/pin_list.go) reduces an inbox snapshot to
      the pinned messages.
    - Around them. [Reconnect.v] (reconnect.go): the supervisor of the connection as a state machine
      over the choices of its environment. [StoreCounters.v] (poll_counters.go, chat_timers.go):
      vote counters and versioned timers. [Accounts.v] (select.go, sync.go); [Sync.v] (meow_sync.go) on top of [Blocked.v].

    ** What is shown

    - Sending ([SendCheck.v], [SendFlow.v], [Recipients.v]): a request that passes the check has one kind
      of content; styles are accepted exactly when they cover whole runes of the UTF-16 body; a
      failed send sent nothing, and a send makes one request for the users and one per group, to
      deduplicated and allowed targets, with a fresh timestamp; recipient arguments read back.
    - Preparing a message ([Content.v], [Attachments.v]): exactly the placeholders of users become
      mentions, each at the UTF-16 offset of its placeholder character and nothing else of the text
      changes; what a style argument or message reference is read as prints back to it; with a
      directory, no file outside it is attached.
    - Saving ([Downloads.v]): whatever a sender names a file, it is saved under a plain, short, visible name in the directory given; no
      file that exists is changed, and every result is a new file with exactly the bytes downloaded.
    - Writing ([AppSend.v] to [AppStories.v]): whatever is asked and answered, every request the
      application hands to the client passes the client's own check (an edit may meet a clock that went
      back); a pin only goes to groups in which we may pin, a vote carries the counter reserved for it,
      a story goes to exactly its audience; a recipient resolves to a real account or not at all.
    - Groups of the application ([AppGroups.v]): whatever is asked and answered, at most one call reaches the
      facade, about the group and the users that were named, checked before; secrets stay out of errors.
    - Confirmation ([Confirm.v], [McpTools.v]): a call of a write tool goes ahead only with the user's acceptance
      of a question for the same tool and arguments, once and within ten minutes, however calls interleave;
      nothing is sent without it. (That the recipients are resolved again afterwards is a finding.)
    - The client ([Wire.v], [Convert.v], [ClientSend.v], [Receive.v]): a message that is sent is read by every
      receiver as the event its request means, except that a reaction loses the author of its target (a
      finding); each recipient gets it once, with the timer of that chat, and a result. Timers that were
      learned are sent. Polls, votes and pins that are reported have passed their checks. Exactly the
      events of acknowledged envelopes are handed over, once and in order.
    - Blocking ([Blocked.v]): nothing is sent unless contact storage was read completely; the list sent has exactly
      the users whom storage, the privacy guards, the overrides still in force and the request itself block, and all groups of
      storage; overrides are recorded after sending only, and settling drops one only when storage has superseded it or it expired.
    - Syncing ([Sync.v]): stages are reported in order, and a sync without an error is complete: everything of the storage service
      was found in the store, and block overrides were settled against exactly what was fetched.
    - The own profile ([Profile.v]): what an update writes reads back as exactly the profile that was proposed, with everything else kept;
      it writes at most once, and an update without an error was verified by a second read under the same key.
    - Group state ([Groups.v], [GroupMembers.v], [GroupSettings.v]): each operation changes exactly
      what it names, needs the permissions it should, keeps an administrator and moves the revision
      by one exactly when something changes, never past its last value.
    - Refinement ([GroupChange.v]): the function [asked] reads a change as instructions on the group;
      for removals, bans, roles and leaving, the change sent gives the group that was computed.
    - Protocol safety ([GroupCommit.v], [GroupAccept.v], [GroupJoin.v]): over all answers of the server,
      at most one PATCH, acceptance, join or cancellation is submitted, "committed", "accepted" and
      "verified" are reported only with the evidence for them, and an ambiguous failure is
      reported as uncertain. An invite link that a group gives out reads back ([GroupInvite.v]).
    - Trust ([IdentityTrust.v] to [IdentityDecisions.v]): a key is trusted on first use only, observing
      keys never raises trust, a decision changes exactly the user and key it names, contact
      storage never overrides an unsent local decision, the queue sends what is in force and loses
      nothing newer, and the tables stay well-formed under every sequence of these steps.
    - Crash safety ([ImportCrash.v], [RegistryOps.v], [ImportBuild.v]): whatever fails and wherever
      the process stops, a published import is there completely or not at all, and the next
      operation that is not interrupted succeeds and says which.
    - Polls ([PollReduce.v], [PollStore.v]): the reduction never panics, keeps the latest vote of each
      voter and counts exactly those; a projection run is all or nothing and leaves every
      projection equal to the reduction of its evidence; what is shown of a poll is the reduction of exactly the newest entries
      of its chat up to the limit ([PollShow.v]).
    - Inbox ([InboxStore.v] to [InboxApp.v], [PinList.v]): each SQL statement against a list
      specification; IDs grow strictly for ever, so cursors work: paging returns every selected
      entry once and ends; marking read covers only what a sent receipt covers; the receive loop
      stores what it should in order and stops where it should; however it is interleaved with a client
      that waits, the client misses neither an entry nor a wakeup ([InboxWait.v]).
    - Reading over MCP ([McpInbox.v], [McpHook.v]): the URI of a chat reads back as its key, whatever bytes that has,
      and its resource has the newest entries of exactly that chat; the program runs in order, at most
      once per message, and only for incoming messages of allowed chats. (The overflow of a timeout is a finding.)
    - Reconnecting ([Reconnect.v]): invariants of every reachable state, the exact number of attempts
      before giving up, the exact delays and the absence of overflow.
    - Store and accounts ([StoreCounters.v], [Accounts.v]): counters never repeat, timers only move
      forward and merging is idempotent, the account chosen is the first that is named.

    Every theorem with a hypothesis comes with a witness at the end of its file: the theorem applied
    to a concrete input (definitions whose names start with [demo]).

    ** Bounds and fuel

    - [PollStore.seed_batches] reads the inbox in batches; its fuel is one more than the rows, and
      [seedPolls_all] shows that this reads them all.
    - [InboxApp.read_pages] is a client that follows cursors; [read_pages_complete] shows that more
      pages than selected entries are never needed.
    - [Strconv.format_digits] writes at most twenty digits, enough for 64 bits.
    - [Reconnect.double_until] is called with the number of attempts, as the Go loop is.
    - [ClientSend.legacy_group_loop], [IdentityTrust.field_loop] and [GroupInvite.contents_loop] consume at least a byte each time; their fuel
      is the length of the input.
    - [ImportCrash.restarts] is any number of interrupted operations after a crash.
    All other recursion is structural.

    ** What is not modelled

    Failing connections of the database in the inbox and poll tables (the identity tables have them),
    and canceled contexts, except where a component treats them as an answer ([AcceptOps], [JoinOps],
    [CancelOps], [Reconnect.v], [uploadAvatarChange]); mutexes and goroutines other than
    those of [InboxWait.v], [McpHook.v], [Confirm.v] and [Reconnect.v]; logging. Power failures that lose unsynced data (the process stops, the file system
    does not), file permissions, the retries of a held registry lock and the platform check of
    [BeginImport]. Calls into libsignal and signalmeow. Not yet modelled: creating and
    renaming groups on the server, devices, sticker packs, the command line,
    the daemon, the tools of the MCP server that only list, and all rendering of output. *)

From stdpp Require Export base tactics list strings gmap sets option numbers sorting.
From Stdlib Require Export ZArith Lia.

#[global] Open Scope Z_scope.

(** ** Booleans of the Go code *)

Declare Scope go_scope.
Delimit Scope go_scope with go.

(** [x == y] is Go's [==] on comparable values. *)
Notation "x == y" := (bool_decide (x = y)) (at level 70, no associativity) : go_scope.
Notation "x != y" := (negb (bool_decide (x = y))) (at level 70, no associativity) : go_scope.

#[global] Open Scope go_scope.

(** ** Results

    A Go function that returns [(T, error)] is modelled by [result E T]. Errors are a
    parameter here; [Errors.v] instantiates it. *)

Inductive result (E A : Type) : Type :=
  | Ok (a : A)
  | Err (e : E).
Arguments Ok {E A} a.
Arguments Err {E A} e.

#[global] Instance result_ret {E} : MRet (result E) := fun A a => Ok a.
#[global] Instance result_bind {E} : MBind (result E) :=
  fun A B f m => match m with Ok a => f a | Err e => Err e end.

Definition is_ok {E A} (r : result E A) : bool := match r with Ok _ => true | Err _ => false end.

(** Continue with [k] when a check returned no error (a nil [error]). *)
Definition check_then {E A} (e : option E) (k : result E A) : result E A :=
  match e with None => k | Some e => Err e end.

(** A check followed by another check: the first error wins. *)
Definition check_seq {E} (e k : option E) : option E :=
  match e with None => k | Some e => Some e end.

Notation "'do!' e ; k" := (check_then e k) (at level 100, e at level 99, right associativity) : go_scope.
Notation "e ;! k" := (check_seq e k) (at level 100, right associativity) : go_scope.

Lemma bind_Ok {E A B} (m : result E A) (f : A -> result E B) b :
  mbind f m = Ok b <-> exists a, m = Ok a /\ f a = Ok b.
Proof. destruct m; cbn; naive_solver. Qed.

Lemma check_then_Ok {E A} (e : option E) (k : result E A) a :
  check_then e k = Ok a <-> e = None /\ k = Ok a.
Proof. destruct e; cbn; naive_solver. Qed.

Lemma check_seq_None {E} (e k : option E) : check_seq e k = None <-> e = None /\ k = None.
Proof. destruct e; cbn; naive_solver. Qed.

(** ** State and errors: operations against a world [W] (a client, a store, a clock) *)

Definition io (W E A : Type) : Type := W -> result E A * W.

Definition io_ret {W E A} (a : A) : io W E A := fun w => (Ok a, w).
Definition io_err {W E A} (e : E) : io W E A := fun w => (Err e, w).
Definition io_of {W E A} (r : result E A) : io W E A := fun w => (r, w).
Definition io_bind {W E A B} (m : io W E A) (f : A -> io W E B) : io W E B :=
  fun w => match m w with
           | (Ok a, w') => f a w'
           | (Err e, w') => (Err e, w')
           end.
(** Run [m] and keep its error as a value: Go code that inspects [err] itself. *)
Definition io_try {W E A} (m : io W E A) : io W E (result E A) :=
  fun w => let (r, w') := m w in (Ok r, w').

Notation "'let*' x := m 'in' k" := (io_bind m (fun x => k))
  (at level 200, x binder, m at level 100, k at level 200, right associativity) : go_scope.

Lemma io_bind_Ok {W E A B} (m : io W E A) (f : A -> io W E B) w b w' :
  io_bind m f w = (Ok b, w') <-> exists a w1, m w = (Ok a, w1) /\ f a w1 = (Ok b, w').
Proof. unfold io_bind. destruct (m w) as [[a|e] w1]; naive_solver. Qed.

(** Partial-correctness triples for such operations: from [P], a result satisfies [Q], and a
    failure leaves a world satisfying [R]. The operations are total functions, so a triple says
    what every run does. *)
Definition triple {W E A} (P : W -> Prop) (m : io W E A) (Q : A -> W -> Prop) (R : W -> Prop) : Prop :=
  forall w, P w -> match m w with (Ok a, w') => Q a w' | (Err _, w') => R w' end.

Section triples.
Context {W E : Type}.

Lemma triple_ret {A} (P : W -> Prop) (a : A) (Q : A -> W -> Prop) R :
  (forall w, P w -> Q a w) -> triple (E:=E) P (io_ret a) Q R.
Proof. intros H w Hw. by apply H. Qed.

Lemma triple_err {A} (P : W -> Prop) (e : E) (Q : A -> W -> Prop) (R : W -> Prop) :
  (forall w, P w -> R w) -> triple P (io_err e) Q R.
Proof. intros H w Hw. by apply H. Qed.

Lemma triple_of {A} (P : W -> Prop) (r : result E A) (Q : A -> W -> Prop) (R : W -> Prop) :
  (forall w a, P w -> r = Ok a -> Q a w) -> (forall w, P w -> R w) -> triple P (io_of r) Q R.
Proof. intros HQ HR w Hw. cbn. destruct r; [by apply HQ|by apply HR]. Qed.

Lemma triple_bind {A B} (P : W -> Prop) (m : io W E A) (f : A -> io W E B) (Q' : A -> W -> Prop) Q R :
  triple P m Q' R -> (forall a, triple (Q' a) (f a) Q R) -> triple P (io_bind m f) Q R.
Proof.
  intros Hm Hf w Hw. unfold io_bind. specialize (Hm w Hw). destruct (m w) as [[a|e] w1]; [|done].
  by apply Hf.
Qed.

Lemma triple_try {A} (P : W -> Prop) (m : io W E A) (Q : A -> W -> Prop) (R R' : W -> Prop) :
  triple P m Q R -> triple P (io_try m) (fun r w => match r with Ok a => Q a w | Err _ => R w end) R'.
Proof. intros Hm w Hw. unfold io_try. specialize (Hm w Hw). by destruct (m w) as [[a|e] w1]. Qed.

Lemma triple_weaken {A} (P P' : W -> Prop) (m : io W E A) (Q Q' : A -> W -> Prop) (R R' : W -> Prop) :
  triple P' m Q' R' -> (forall w, P w -> P' w) -> (forall a w, Q' a w -> Q a w) -> (forall w, R' w -> R w) ->
  triple P m Q R.
Proof.
  intros Hm HP HQ HR w Hw. specialize (Hm w (HP w Hw)). destruct (m w) as [[a|e] w1]; auto.
Qed.
End triples.

(** ** Tactics *)

(** Split boolean connectives and [bool_decide]s of the hypotheses and the goal into
    propositions. *)
Ltac bool_hyps :=
  repeat match goal with
  | H : negb _ = true |- _ => apply negb_true_iff in H
  | H : negb _ = false |- _ => apply negb_false_iff in H
  | H : andb _ _ = true |- _ => apply andb_true_iff in H as [? ?]
  | H : orb _ _ = false |- _ => apply orb_false_iff in H as [? ?]
  | H : bool_decide _ = true |- _ => apply bool_decide_eq_true_1 in H
  | H : bool_decide _ = false |- _ => apply bool_decide_eq_false_1 in H
  | H : (_ <? _)%Z = true |- _ => apply Z.ltb_lt in H
  | H : (_ <? _)%Z = false |- _ => apply Z.ltb_ge in H
  | H : (_ <=? _)%Z = true |- _ => apply Z.leb_le in H
  | H : (_ <=? _)%Z = false |- _ => apply Z.leb_gt in H
  | H : (_ =? _)%Z = true |- _ => apply Z.eqb_eq in H
  | H : (_ =? _)%Z = false |- _ => apply Z.eqb_neq in H
  end.

(** Case analysis on the tests of the [if]s and [match]es in the goal or in [H]. *)
Ltac split_if :=
  match goal with
  | |- context [if ?b then _ else _] => destruct b eqn:?
  end.
Ltac split_if_in H :=
  match type of H with
  | context [if ?b then _ else _] => destruct b eqn:?
  end.

(** The common end of a branch: a contradiction between constructors or booleans. *)
Ltac branch := bool_hyps; simplify_eq/=; try done; auto.

(** ** Stable sorting

    [slices.SortStableFunc] is a stable sort; [slices.SortFunc] gives some sorted permutation,
    which is this one whenever the keys are pairwise different. *)

Section sort.
Context {A : Type} (leb : A -> A -> bool).

Fixpoint sort_insert (x : A) (l : list A) : list A :=
  match l with
  | [] => [x]
  | y :: l' => if leb x y then x :: l else y :: sort_insert x l'
  end.

Definition sort_by (l : list A) : list A := foldr sort_insert [] l.

Lemma sort_insert_perm x l : sort_insert x l ≡ₚ x :: l.
Proof.
  induction l as [|y l IH]; cbn; [done|].
  destruct (leb x y); [done|]. rewrite IH. constructor.
Qed.

Lemma sort_by_perm l : sort_by l ≡ₚ l.
Proof. induction l as [|x l IH]; cbn; [done|]. by rewrite sort_insert_perm, IH. Qed.

Context (Htotal : forall x y, leb x y = false -> leb y x = true).

Lemma sort_insert_sorted x l :
  Sorted (fun a b => leb a b = true) l -> Sorted (fun a b => leb a b = true) (sort_insert x l).
Proof.
  induction l as [|y l IH]; intros Hs; cbn; [by repeat constructor|].
  destruct (leb x y) eqn:Hxy; [constructor; [done|by constructor]|].
  inversion Hs as [|? ? Hs' Hhd]; subst. constructor; [by apply IH|].
  destruct l as [|z l]; cbn; [constructor; by apply Htotal|].
  destruct (leb x z); constructor; [by apply Htotal|by inversion Hhd].
Qed.

Lemma sort_by_sorted l : Sorted (fun a b => leb a b = true) (sort_by l).
Proof. induction l; cbn; [constructor|by apply sort_insert_sorted]. Qed.

(** Stability: the elements that satisfy [P] keep their order if [P] only holds of
    elements that are equivalent in the order. *)
Lemma sort_insert_stable (P : A -> Prop) `{!forall x, Decision (P x)} x l :
  (forall a b, P a -> P b -> leb a b = true) ->
  filter P (sort_insert x l) = filter P (x :: l).
Proof.
  intros HP. induction l as [|y l IH]; cbn; [done|].
  destruct (leb x y) eqn:Hxy; [done|].
  rewrite filter_cons, IH, !filter_cons.
  repeat case_decide; try done.
  rewrite (HP x y) in Hxy; done.
Qed.

Lemma sort_by_stable (P : A -> Prop) `{!forall x, Decision (P x)} l :
  (forall a b, P a -> P b -> leb a b = true) -> filter P (sort_by l) = filter P l.
Proof.
  intros HP. unfold sort_by. induction l as [|x l IH]; cbn; [done|].
  rewrite sort_insert_stable by done. rewrite !filter_cons. by rewrite IH.
Qed.
End sort.

(** ** Ordered deduplication: the [seen] map and [append] loops of the code *)

Section dedup.
Context {A K : Type} `{Countable K} (key : A -> K).

Fixpoint dedup_from (seen : gset K) (l : list A) : list A :=
  match l with
  | [] => []
  | x :: l' =>
      if bool_decide (key x ∈ seen) then dedup_from seen l'
      else x :: dedup_from ({[key x]} ∪ seen) l'
  end.

Definition dedup_by (l : list A) : list A := dedup_from ∅ l.

Lemma dedup_from_sublist seen l : dedup_from seen l `sublist_of` l.
Proof.
  revert seen. induction l as [|x l IH]; intros seen; cbn; [constructor|].
  case_bool_decide; by constructor.
Qed.

Lemma dedup_from_fresh seen l x : x ∈ dedup_from seen l -> key x ∉ seen.
Proof.
  revert seen. induction l as [|y l IH]; intros seen; cbn; [by rewrite elem_of_nil|].
  case_bool_decide; [apply IH|]. rewrite elem_of_cons. intros [->|Hx]; [done|].
  specialize (IH _ Hx). set_solver.
Qed.

Lemma dedup_from_NoDup seen l : NoDup (key <$> dedup_from seen l).
Proof.
  revert seen. induction l as [|x l IH]; intros seen; cbn; [constructor|].
  case_bool_decide; [apply IH|]. cbn. constructor; [|apply IH].
  intros (y & Hy & Hin)%list_elem_of_fmap. apply dedup_from_fresh in Hin. set_solver.
Qed.

Lemma dedup_from_complete seen l k :
  k ∈ key <$> l -> k ∉ seen -> k ∈ key <$> dedup_from seen l.
Proof.
  revert seen. induction l as [|x l IH]; intros seen; cbn; [done|].
  rewrite elem_of_cons. intros Hk Hns. case_bool_decide as Hx.
  - apply IH; [|done]. destruct Hk as [->|]; [done|done].
  - cbn. rewrite elem_of_cons. destruct (decide (k = key x)) as [->|Hne]; [by left|].
    right. apply IH; [naive_solver|set_solver].
Qed.

Lemma dedup_by_keys l k : k ∈ key <$> dedup_by l <-> k ∈ key <$> l.
Proof.
  split; [|intros; apply dedup_from_complete; set_solver].
  intros (x & -> & Hx)%list_elem_of_fmap. apply list_elem_of_fmap. exists x. split; [done|].
  eapply elem_of_sublist; [exact Hx|apply dedup_from_sublist].
Qed.

Lemma dedup_by_NoDup l : NoDup (key <$> dedup_by l).
Proof. apply dedup_from_NoDup. Qed.

Lemma dedup_from_snoc seen l x :
  dedup_from seen (l ++ [x])
  = dedup_from seen l ++ (if decide (key x ∈ seen \/ key x ∈ key <$> l) then [] else [x]).
Proof.
  revert seen. induction l as [|y l IH]; intros seen; cbn.
  - destruct (bool_decide (key x ∈ seen)) eqn:E; [apply bool_decide_eq_true_1 in E|apply bool_decide_eq_false_1 in E].
    + by rewrite decide_True by by left.
    + rewrite decide_False; [done|]. by intros [?|?%elem_of_nil].
  - assert (Hk : forall seen' : gset K, (key x ∈ seen \/ key x = key y <-> key x ∈ seen') ->
      (if decide (key x ∈ seen' \/ key x ∈ key <$> l) then [] else [x])
      = (if decide (key x ∈ seen \/ key x ∈ key y :: (key <$> l)) then [] else [x])).
    { intros seen' Hs. apply decide_ext. rewrite elem_of_cons. tauto. }
    case_bool_decide as Hy; rewrite IH.
    + rewrite (Hk seen); [done|]. split; [|by left]. by intros [?| ->].
    + rewrite (Hk ({[key y]} ∪ seen)); [done|]. rewrite elem_of_union, elem_of_singleton. tauto.
Qed.

(** Appending keeps the element only if its key is new. *)
Lemma dedup_by_snoc l x :
  dedup_by (l ++ [x]) = if decide (key x ∈ key <$> l) then dedup_by l else dedup_by l ++ [x].
Proof.
  unfold dedup_by. rewrite dedup_from_snoc. destruct (decide (key x ∈ key <$> l)).
  - rewrite decide_True by by right. by rewrite app_nil_r.
  - rewrite decide_False; [done|]. set_solver.
Qed.
End dedup.

Lemma filter_fmap {A B} (f : A -> B) (P : B -> Prop) `{!forall x, Decision (P x)} (l : list A) :
  filter P (f <$> l) = f <$> filter (fun x => P (f x)) l.
Proof.
  induction l as [|x l IH]; [done|]. cbn [fmap list_fmap]. rewrite !filter_cons.
  destruct (decide (P (f x))); cbn; by rewrite <- IH.
Qed.

(** ** Lengths and strings *)

(** Go's [len] as an integer. *)
Definition len {A} (l : list A) : Z := Z.of_nat (length l).
Definition slen (s : string) : Z := Z.of_nat (String.length s).

Lemma len_nonneg {A} (l : list A) : 0 <= len l.
Proof. unfold len. lia. Qed.

Lemma len_zero {A} (l : list A) : len l = 0 <-> l = [].
Proof. unfold len. destruct l; cbn; split; intros; done || lia. Qed.

(** [strings.Compare a b <= 0]: byte-wise lexicographic order. *)
Lemma string_leb_total s t : String.leb s t = false -> String.leb t s = true.
Proof. intros H. destruct (String.leb_total s t) as [E|E]; congruence. Qed.

(** ** Lists *)

Lemma Sorted_weaken {A} (R R' : A -> A -> Prop) l : (forall a b, R a b -> R' a b) -> Sorted R l -> Sorted R' l.
Proof. intros HR. induction 1 as [|a l Hs IH Hd]; constructor; [done|]. destruct Hd; constructor; auto. Qed.

Lemma forallb_guard {A} (b : bool) (c : A) (p : A -> bool) :
  forallb p (if b then [c] else []) = true <-> (b = true -> p c = true).
Proof. destruct b; cbn; rewrite ?andb_true_r; naive_solver. Qed.

Lemma drop_sublist {A} n (l : list A) : drop n l `sublist_of` l.
Proof. rewrite <- (take_drop n l) at 2. by apply sublist_inserts_l. Qed.

Lemma take_sublist {A} n (l : list A) : take n l `sublist_of` l.
Proof. rewrite <- (take_drop n l) at 2. by apply sublist_inserts_r. Qed.

Lemma filter_none {A} (P : A -> Prop) `{!forall x, Decision (P x)} (l : list A) :
  (forall x, x ∈ l -> ~ P x) -> filter P l = [].
Proof. intros Hn. apply elem_of_nil_inv. intros x [Hp Hx]%list_elem_of_filter. by apply (Hn x). Qed.

Lemma filter_all {A} (P : A -> Prop) `{!forall x, Decision (P x)} (l : list A) :
  (forall x, x ∈ l -> P x) -> filter P l = l.
Proof.
  induction l as [|x l IH]; intros Ha; [done|]. rewrite filter_cons, decide_True by (apply Ha; by left).
  f_equal. apply IH. intros y Hy. apply Ha. by right.
Qed.

Lemma omap_all_some {A B} (f : A -> option B) (P : A -> B -> Prop) l :
  (forall x, x ∈ l -> exists y, f x = Some y /\ P x y) -> Forall2 P l (omap f l).
Proof.
  induction l as [|x l IH]; intros H; cbn; [constructor|].
  destruct (H x) as (y & E & Hy); [by left|]. rewrite E. constructor; [done|]. apply IH. intros z Hz. apply H. by right.
Qed.

Lemma len_filter_split {A} (p q : A -> bool) (l : list A) :
  len (filter (fun x => p x || q x = true) l)
  = len (filter (fun x => p x = true) l) + len (filter (fun x => negb (p x) && q x = true) l).
Proof.
  unfold len. induction l as [|x l IH]; [done|]. rewrite !filter_cons.
  destruct (p x), (q x); cbn; repeat case_decide; cbn in *; try done; lia.
Qed.

Lemma len_filter_negb {A} (p : A -> bool) (l : list A) :
  len (filter (fun x => p x = true) l) + len (filter (fun x => p x = false) l) = len l.
Proof.
  unfold len. induction l as [|x l IH]; [done|]. rewrite !filter_cons.
  destruct (p x); cbn; repeat case_decide; cbn in *; try done; lia.
Qed.

(** The maximum of a [uint32] and the size of the unsigned types. *)
Definition MaxUint32 : Z := 4294967295.
Definition MaxInt64 : Z := 9223372036854775807.
Definition MaxUint64 : Z := 18446744073709551615.

Definition is_uint32 (n : Z) : Prop := 0 <= n <= MaxUint32.
Definition is_uint64 (n : Z) : Prop := 0 <= n <= MaxUint64.

(** The conversion to [uint64], and the result of its arithmetic. *)
Definition to_uint64 (n : Z) : Z := n mod (MaxUint64 + 1).

Lemma to_uint64_id n : is_uint64 n -> to_uint64 n = n.
Proof. unfold is_uint64, to_uint64, MaxUint64. intros H. apply Z.mod_small. lia. Qed.

(** The result of arithmetic on an [int64], such as a duration in nanoseconds. *)
Definition wrap64 (n : Z) : Z := (n + (MaxInt64 + 1)) mod (MaxUint64 + 1) - (MaxInt64 + 1).
Lemma wrap64_id n : - MaxInt64 - 1 <= n <= MaxInt64 -> wrap64 n = n.
Proof. intros H. unfold wrap64, MaxInt64, MaxUint64 in *. rewrite Z.mod_small; lia. Qed.

(** ** Hints *)

Create HintDb go.
#[export] Hint Resolve len_nonneg string_leb_total dedup_by_NoDup : go.
#[export] Hint Rewrite @bind_Ok @check_then_Ok @check_seq_None : go.
