(* ===== verification/Errors.v ===== *)
(** * Errors

    Go's [error] values as far as [errors.Is] sees them. A sentinel is one of the package
    variables [Err...]; [Wrap] is [fmt.Errorf] with [%w] verbs or [errors.Join]: it keeps the
    wrapped errors and forgets the text around them. [Message] is one of the code's own error
    types whose text is part of its contract: [Error()] is the text and [Unwrap] the cause.
    [Opaque] is an error of other code, identified by a tag. A nil error is [None]. *)

From S2P Require Import Prelude.

Inductive sentinel :=
  (* internal/signal/account.go *)
  | ErrNotLinked | ErrAccountNotFound | ErrDeviceUnlinked | ErrNotConnected | ErrAlreadyConnected
  | ErrClosed | ErrNotOnSignal | ErrUnresolvable | ErrUnknownGroup | ErrInvalidSendRequest
  | ErrInvalidContent | ErrInvalidReceipt
  (* internal/signal: select.go, reconnect.go, inbox.go, sync.go *)
  | ErrAccountRequired | ErrInvalidAccount | ErrConnectionFailed | ErrNotStorable | ErrSyncIncomplete
  (* internal/signal: poll*.go, pin_check.go, styles.go, sticker.go, stories_send.go *)
  | ErrInvalidPoll | ErrPollVoteExhausted | ErrInvalidPin | ErrInvalidStyle | ErrInvalidSticker
  | ErrInvalidStory
  (* internal/signal: groups*.go *)
  | errInvalidGroupChangeResponse | ErrNotAMember | ErrLastAdmin | ErrInvalidPromotion
  | ErrGroupChanged | ErrInvalidGroupTitle | ErrGroupPermission | ErrInvalidGroupMember
  | ErrInvalidGroupUpdate | ErrGroupUpdateUncertain | ErrInvalidGroupLinkUpdate
  | ErrGroupInvitationNotFound | ErrInvalidGroupInviteLink | ErrGroupLinkInactive
  | ErrGroupTerminated | ErrGroupInvitationRequiresAcceptance
  (* internal/signal: identity.go, meow_identity*.go, sync.go *)
  | ErrUntrustedIdentity | ErrUnknownIdentity | ErrSafetyNumberMismatch | ErrInvalidSafetyNumber
  | errIdentityTrustChanged | errInvalidIdentitySync | ErrStorageNotStored
  (* internal/app *)
  | ErrInvalidRecipient | ErrRecipientNotAllowed | ErrInvalidCursor | ErrUnknownEntry
  | ErrNoAttachment | ErrNotAMessage | ErrEmptyMessage | ErrNoRecipients | ErrSendFailed
  | ErrInvalidEdit | errNoResult | ErrInvalidTarget | ErrInvalidQuote | ErrInvalidEmoji
  | errBadTimestamp | ErrAttachmentTooLarge | ErrNotAFile | ErrOutsideAttachDir
  | ErrNotAUser | ErrAmbiguousGroup | ErrNotADir | ErrFileExists
  (* internal/signal: sending, resolving, downloads, stickers, contacts, stories *)
  | ErrUnknownAttachment | ErrSyncFailed | signal_ErrSendFailed | errInvalidNumber | errServerStatus
  | ErrInvalidUsername | ErrAttachmentNotFound | ErrAttachmentInvalid | ErrStickerNotFound
  | ErrStickerTooLarge | ErrUnknownContact | ErrStoryAudienceUnavailable | ErrStorageKeyUnknown
  | ErrBlockedListIncomplete | ErrInvalidProfile | ErrInvalidProfileUpdate | ErrProfileKeyUnavailable
  | ErrProfileKeyChanged | ErrProfileV2Unsupported | ErrProfileRejected | ErrProfileVerification
  | errStorageKeyForms | errIdentityVerificationPending
  (* internal/mcp, internal/daemon *)
  | errNoAttachDir | errMessageRef | errNoChat | errNoDownloadDir | errMediaType | errInvalidRequest
  | ErrNoToken | ErrNotConfirmed | errNoElicitation | errConfirmMismatch
  (* github.com/cwbudde/mautrix-signal/pkg/signalmeow, compared by identity *)
  | meow_ContactManifestMismatchError | meow_ConflictError | meow_AuthorizationFailedError
  | meow_NotFoundError | meow_GroupPatchNotAcceptedError | meow_RateLimitError
  | meow_ErrStoryNotMember | meow_ErrAttachmentNotFound | meow_ErrInvalidDigest | meow_ErrInvalidMAC | libsignal_UntrustedIdentity
  | meow_DeprecatedVersionError | meow_ErrGroupMasterKeyNotFound
  | meow_ErrGroupAcceptanceUncertain | meow_ErrGroupAcceptanceInvalid | meow_ErrGroupAcceptanceTerminated
  | meow_ErrGroupJoinUncertain | meow_ErrGroupJoinTerminated | meow_ErrGroupJoinInactive
  | meow_ErrGroupCancellationUncertain | meow_ErrGroupCancellationInvalid | meow_ErrGroupCancellationTerminated
  (* context, io/fs, internal/store *)
  | ContextCanceled | fs_ErrNotExist | errInvalidChatTimerACI | ErrAccountsVersion | errWouldBlock
  | errNothingToRecover | errEvidence | ErrImportCollision | ErrRecoveryRequired | ErrImportUnsupported
  | errImportState | errNotLoggedIn | ErrRegistryBusy.

#[export] Instance sentinel_eq_dec : EqDecision sentinel.
Proof. solve_decision. Defined.

Inductive err :=
  | Sent (s : sentinel)
  | Opaque (tag : string)
  | Wrap (causes : list err)
  | Message (text : string) (cause : err).

(** Go's [error]: nil or an error value. *)
Notation error := (option err).
Notation res := (result err).

(** [errors.Is]. *)
Fixpoint errIs (e : err) (s : sentinel) {struct e} : bool :=
  match e with
  | Sent s' => bool_decide (s' = s)
  | Opaque _ => false
  | Wrap causes => (fix any (l : list err) : bool :=
                      match l with
                      | [] => false
                      | c :: l' => errIs c s || any l'
                      end) causes
  | Message _ c => errIs c s
  end.

(** [fmt.Errorf("%w: ...", s)]. *)
Definition errorf (s : sentinel) : err := Wrap [Sent s].

(** [errors.Join]: nil when nothing is joined. *)
Definition errorsJoin (errs : list err) : error :=
  match errs with [] => None | _ => Some (Wrap errs) end.

Lemma errIs_Wrap cs s : errIs (Wrap cs) s = existsb (fun c => errIs c s) cs.
Proof. induction cs as [|c cs IH]; cbn in *; [done|]. by rewrite <- IH. Qed.

Lemma errIs_errorf s s' : errIs (errorf s) s' = bool_decide (s = s').
Proof. cbn. by rewrite orb_false_r. Qed.

Lemma errorsJoin_None errs : errorsJoin errs = None <-> errs = [].
Proof. by destruct errs. Qed.

(** The error of a result, if it failed with [s]. *)
Definition fails_with {A} (r : res A) (s : sentinel) : Prop :=
  exists e, r = Err e /\ errIs e s = true.

Definition checks_with (e : error) (s : sentinel) : Prop :=
  exists e', e = Some e' /\ errIs e' s = true.

Lemma fails_with_errorf {A} s : fails_with (@Err err A (errorf s)) s.
Proof. eexists. split; [done|]. rewrite errIs_errorf. by apply bool_decide_eq_true_2. Qed.

Lemma fails_with_Sent {A} s : fails_with (@Err err A (Sent s)) s.
Proof. eexists. split; [done|]. cbn. by apply bool_decide_eq_true_2. Qed.

#[export] Hint Resolve fails_with_errorf fails_with_Sent : go.
#[export] Hint Rewrite @errIs_errorf @errorsJoin_None : go.
