(* ===== verification/Uuid.v ===== *)
(** * UUIDs: the interface to github.com/google/uuid

    The repository calls [uuid.Parse], [UUID.String] and compares with [uuid.Nil]; the package
    is not part of the repository, so it is a class that every definition using it takes as an
    argument. [UuidLaws] states the documented behaviour the theorems rely on. [DemoUuid] is a
    concrete instance, used by the witnesses only. *)

From S2P Require Import Prelude.

Class UuidLib := {
  uuid : Type;
  uuid_eq_dec :: EqDecision uuid;
  uuid_countable :: Countable uuid;
  uuid_nil : uuid;
  uuid_parse : string -> option uuid;
  uuid_string : uuid -> string;
}.

(** A character of the canonical form: a lower-case hexadecimal digit or a dash. *)
Definition uuid_char (a : Ascii.ascii) : bool :=
  let n := Ascii.N_of_ascii a in
  ((48 <=? n)%N && (n <=? 57)%N) || ((97 <=? n)%N && (n <=? 102)%N) || (n =? 45)%N.

Fixpoint string_chars (f : Ascii.ascii -> bool) (s : string) : bool :=
  match s with EmptyString => true | String a t => f a && string_chars f t end.

(** Documented: [String] returns the canonical 36-byte form of hexadecimal digits and dashes,
    which [Parse] reads back; the empty string is no UUID. *)
Class UuidLaws (U : UuidLib) : Prop := {
  uuid_parse_string : forall u : uuid, uuid_parse (uuid_string u) = Some u;
  uuid_string_length : forall u : uuid, String.length (uuid_string u) = 36%nat;
  uuid_string_chars : forall u : uuid, string_chars uuid_char (uuid_string u) = true;
  uuid_parse_empty : uuid_parse "" = None;
}.

Section laws.
Context {U : UuidLib} {UL : UuidLaws U}.

#[export] Instance uuid_string_inj : Inj (=) (=) uuid_string.
Proof.
  intros u v H. apply (f_equal uuid_parse) in H. rewrite !uuid_parse_string in H. by simplify_eq.
Qed.

Lemma uuid_string_nonempty u : uuid_string u <> ""%string.
Proof. intros H. pose proof (uuid_string_length u) as L. by rewrite H in L. Qed.
End laws.

#[export] Hint Resolve uuid_string_nonempty : go.

(** ** A concrete instance *)

Module DemoUuid.
(** The canonical form: 36 bytes, lower-case hexadecimal with dashes at 8, 13, 18 and 23. *)
Definition lower (a : Ascii.ascii) : Ascii.ascii :=
  let n := Ascii.N_of_ascii a in
  if ((65 <=? n)%N && (n <=? 90)%N) then Ascii.ascii_of_N (n + 32) else a.

Fixpoint lower_string (s : string) : string :=
  match s with EmptyString => EmptyString | String a t => String (lower a) (lower_string t) end.

Definition hex_digit (a : Ascii.ascii) : bool :=
  let n := Ascii.N_of_ascii a in
  ((48 <=? n)%N && (n <=? 57)%N) || ((97 <=? n)%N && (n <=? 102)%N).

Definition dash_at (i : nat) : bool := bool_decide (i ∈ [8; 13; 18; 23]%nat).

Fixpoint canonical_from (i : nat) (s : string) : bool :=
  match s with
  | EmptyString => bool_decide (i = 36%nat)
  | String a t =>
      (if dash_at i then bool_decide (a = Ascii.ascii_of_N 45) else hex_digit a) && canonical_from (S i) t
  end.

Definition canonical (s : string) : bool := canonical_from 0 s.

Lemma lower_hex a : hex_digit a = true -> lower a = a.
Proof. by destruct a as [[] [] [] [] [] [] [] []]. Qed.

Lemma lower_canonical_from s i : canonical_from i s = true -> lower_string s = s.
Proof.
  revert i. induction s as [|a s IH]; intros i; cbn; [done|].
  rewrite andb_true_iff. intros [Ha Hs]. f_equal; [|by apply (IH (S i))].
  destruct (dash_at i); [bool_hyps; by subst|by apply lower_hex].
Qed.

Lemma canonical_from_length s i : canonical_from i s = true -> (i + String.length s = 36)%nat.
Proof.
  revert i. induction s as [|a s IH]; intros i; cbn; [intros; bool_hyps; lia|].
  rewrite andb_true_iff. intros [_ Hs]. apply IH in Hs. lia.
Qed.

Lemma hex_char a : hex_digit a = true -> uuid_char a = true.
Proof. by destruct a as [[] [] [] [] [] [] [] []]. Qed.

Lemma canonical_from_chars s i : canonical_from i s = true -> string_chars uuid_char s = true.
Proof.
  revert i. induction s as [|a s IH]; intros i; cbn; [done|].
  rewrite !andb_true_iff. intros [Ha Hs]. split; [|by apply (IH (S i))].
  destruct (dash_at i); [bool_hyps; by subst|by apply hex_char].
Qed.

Definition t : Type := { s : string | Is_true (canonical s) }.

Definition parse (s : string) : option t :=
  match decide (Is_true (canonical (lower_string s))) with
  | left H => Some (lower_string s ↾ H)
  | right _ => None
  end.

#[export] Instance lib : UuidLib := {|
  uuid := t;
  uuid_nil := "00000000-0000-0000-0000-000000000000" ↾ I;
  uuid_parse := parse;
  uuid_string := proj1_sig;
|}.

#[export] Instance laws : UuidLaws lib.
Proof.
  split.
  - intros [s Hs]; cbn. unfold parse.
    assert (E : lower_string s = s).
    { apply (lower_canonical_from s 0). by apply Is_true_eq_true in Hs. }
    case_decide as Hd; [|by rewrite E in Hd].
    f_equal. apply (sig_eq_pi _). cbn. exact E.
  - intros [s Hs]; cbn. apply Is_true_eq_true, canonical_from_length in Hs. lia.
  - intros [s Hs]; cbn. by eapply canonical_from_chars, Is_true_eq_true.
  - done.
Qed.
End DemoUuid.
