(* ===== verification/Utf8.v ===== *)
(** * Strings: UTF-8, UTF-16, white space and case folding

    Go strings are byte strings; here a byte is an [ascii] and a string a Standard Library
    [string]. This file models what the repository uses of [unicode/utf8], [unicode/utf16],
    [strings] and [unicode]: decoding (as [range] over a string and [[]rune(s)] do, invalid
    bytes giving U+FFFD), [utf8.ValidString], the UTF-16 length, [strings.TrimSpace],
    [strings.EqualFold] against ASCII and a few cutting functions. *)

From S2P Require Import Prelude.

Definition byte_of (a : Ascii.ascii) : Z := Z.of_N (Ascii.N_of_ascii a).
Definition ascii_of (b : Z) : Ascii.ascii := Ascii.ascii_of_N (Z.to_N b).

Definition RuneError : Z := 65533.

Definition in_range (lo hi b : Z) : bool := (lo <=? b) && (b <=? hi).

(** The second byte's range for a first byte of a two, three or four byte sequence. *)
Definition second3 (b0 b1 : Z) : bool :=
  if b0 =? 224 then in_range 160 191 b1
  else if b0 =? 237 then in_range 128 159 b1
  else in_range 128 191 b1.
Definition second4 (b0 b1 : Z) : bool :=
  if b0 =? 240 then in_range 144 191 b1
  else if b0 =? 244 then in_range 128 143 b1
  else in_range 128 191 b1.
Definition cont (b : Z) : bool := in_range 128 191 b.

(** One decoded rune with its bytes; [valid] is false for an invalid byte. *)
Record chunk := mkChunk { ch_rune : Z; ch_text : string; ch_valid : bool }.

Definition rune2 (b0 b1 : Z) : Z := (b0 - 192) * 64 + (b1 - 128).
Definition rune3 (b0 b1 b2 : Z) : Z := ((b0 - 224) * 64 + (b1 - 128)) * 64 + (b2 - 128).
Definition rune4 (b0 b1 b2 b3 : Z) : Z :=
  (((b0 - 240) * 64 + (b1 - 128)) * 64 + (b2 - 128)) * 64 + (b3 - 128).

Definition bad (a : Ascii.ascii) : chunk := mkChunk RuneError (String a EmptyString) false.

Fixpoint decode (s : string) : list chunk :=
  match s with
  | EmptyString => []
  | String a0 t0 =>
      let b0 := byte_of a0 in
      if b0 <? 128 then mkChunk b0 (String a0 EmptyString) true :: decode t0
      else match t0 with
      | EmptyString => [bad a0]
      | String a1 t1 =>
          let b1 := byte_of a1 in
          if in_range 194 223 b0 then
            if cont b1 then
              mkChunk (rune2 b0 b1) (String a0 (String a1 EmptyString)) true :: decode t1
            else bad a0 :: decode t0
          else match t1 with
          | EmptyString => bad a0 :: decode t0
          | String a2 t2 =>
              let b2 := byte_of a2 in
              if in_range 224 239 b0 then
                if second3 b0 b1 && cont b2 then
                  mkChunk (rune3 b0 b1 b2) (String a0 (String a1 (String a2 EmptyString))) true
                    :: decode t2
                else bad a0 :: decode t0
              else match t2 with
              | EmptyString => bad a0 :: decode t0
              | String a3 t3 =>
                  let b3 := byte_of a3 in
                  if in_range 240 244 b0 && second4 b0 b1 && cont b2 && cont b3 then
                    mkChunk (rune4 b0 b1 b2 b3)
                      (String a0 (String a1 (String a2 (String a3 EmptyString)))) true :: decode t3
                  else bad a0 :: decode t0
              end
          end
      end
  end.

(** [[]rune(s)], [utf8.ValidString], [utf8.RuneCountInString]. *)
Definition runes (s : string) : list Z := ch_rune <$> decode s.
Definition ValidString (s : string) : bool := forallb ch_valid (decode s).

(** [utf16.RuneLen] of a decoded rune, and [len(utf16.Encode([]rune(s)))]. *)
Definition RuneLen (r : Z) : Z :=
  if in_range 0 55295 r || in_range 57344 65535 r then 1
  else if in_range 65536 1114111 r then 2 else -1.
Definition utf16_units (rs : list Z) : Z := foldr (fun r n => (if in_range 65536 1114111 r then 2 else 1) + n) 0 rs.
Definition utf16_len (s : string) : Z := utf16_units (runes s).

(** [unicode.IsSpace]. *)
Definition IsSpace (r : Z) : bool :=
  in_range 9 13 r || (r =? 32) || (r =? 133) || (r =? 160) || (r =? 5760) || in_range 8192 8202 r
  || (r =? 8232) || (r =? 8233) || (r =? 8239) || (r =? 8287) || (r =? 12288).

Fixpoint drop_while {A} (f : A -> bool) (l : list A) : list A :=
  match l with
  | [] => []
  | x :: l' => if f x then drop_while f l' else l
  end.

Definition trim {A} (f : A -> bool) (l : list A) : list A :=
  reverse (drop_while f (reverse (drop_while f l))).

Definition text_of (cs : list chunk) : string := foldr (fun c s => (ch_text c ++ s)%string) ""%string cs.

(** [strings.TrimSpace]. *)
Definition TrimSpace (s : string) : string := text_of (trim (fun c => IsSpace (ch_rune c)) (decode s)).

(** [strings.TrimSpace(s) == ""]: no rune but white space. *)
Definition is_blank (s : string) : bool := TrimSpace s == ""%string.

(** [strings.EqualFold(s, t)] for an ASCII [t]: the simple foldings of ASCII letters are the
    other case, U+017F (long s) and U+212A (Kelvin sign). *)
Definition fold_rune (r : Z) : Z :=
  if in_range 65 90 r then r + 32
  else if r =? 383 then 115
  else if r =? 8490 then 107
  else r.
Definition EqualFold (s t : string) : bool := (fold_rune <$> runes s) == (fold_rune <$> runes t).

(** [strings.HasPrefix], [strings.TrimPrefix], [strings.CutPrefix]. *)
Fixpoint cut_prefix (p s : string) : option string :=
  match p, s with
  | EmptyString, _ => Some s
  | String a p', String b s' => if bool_decide (a = b) then cut_prefix p' s' else None
  | String _ _, EmptyString => None
  end.
Definition HasPrefix (s p : string) : bool := bool_decide (is_Some (cut_prefix p s)).
Definition TrimPrefix (s p : string) : string := default s (cut_prefix p s).

(** [strings.Cut(s, sep)] for a one-byte separator: before, after, found. *)
Fixpoint cut_byte (s : string) (sep : Ascii.ascii) : option (string * string) :=
  match s with
  | EmptyString => None
  | String a t =>
      if bool_decide (a = sep) then Some (EmptyString, t)
      else match cut_byte t sep with
           | Some (x, y) => Some (String a x, y)
           | None => None
           end
  end.

(** [strings.LastIndexByte] as the pair around the last [sep]. *)
Fixpoint cut_last (s : string) (sep : Ascii.ascii) : option (string * string) :=
  match s with
  | EmptyString => None
  | String a t =>
      match cut_last t sep with
      | Some (x, y) => Some (String a x, y)
      | None => if bool_decide (a = sep) then Some (EmptyString, t) else None
      end
  end.

Fixpoint string_forallb (f : Ascii.ascii -> bool) (s : string) : bool :=
  match s with EmptyString => true | String a t => f a && string_forallb f t end.

(** ** Lemmas *)

Lemma string_len_ind (P : string -> Prop) :
  (forall s, (forall t, (String.length t < String.length s)%nat -> P t) -> P s) -> forall s, P s.
Proof.
  intros H s. remember (String.length s) as n eqn:Hn. revert s Hn.
  induction (lt_wf n) as [n _ IH]. intros s ->. apply H. intros t Ht. by eapply IH.
Qed.

(** The cases of one step of [decode]; the recursive calls stay folded. *)
Ltac decode_cases s :=
  let a0 := fresh "a0" in let t0 := fresh "t0" in
  destruct s as [|a0 t0]; cbn [decode]; [|
    repeat (first
      [ match goal with
        | |- context [match ?t with EmptyString => _ | String _ _ => _ end] => destruct t eqn:?
        end
      | match goal with
        | |- context [if ?b then _ else _] => destruct b eqn:?
        end ]; cbv beta zeta match); subst ].

Lemma string_app_cons a s t : (String a s ++ t)%string = String a (s ++ t).
Proof. done. Qed.
Lemma string_app_nil t : ("" ++ t)%string = t.
Proof. done. Qed.
#[export] Hint Rewrite string_app_cons string_app_nil : go.
Lemma string_app_assoc (s t u : string) : ((s ++ t) ++ u)%string = (s ++ t ++ u)%string.
Proof. induction s as [|a s IH]; [done|]. rewrite !string_app_cons. by rewrite IH. Qed.
Lemma string_app_empty (s : string) : (s ++ "")%string = s.
Proof. induction s as [|a s IH]; [done|]. rewrite string_app_cons. by rewrite IH. Qed.
Lemma slen_app (s t : string) : slen (s ++ t) = slen s + slen t.
Proof. unfold slen. induction s as [|a s IH]; [done|]. rewrite string_app_cons. cbn. lia. Qed.

Lemma substring_app_left (s t : string) : String.substring 0 (String.length s) (s ++ t) = s.
Proof. induction s as [|a s IH]; [by destruct t|]. rewrite string_app_cons. cbn. by rewrite IH. Qed.
Lemma substring_app_right (s t : string) : String.substring (String.length s) (String.length (s ++ t) - String.length s) (s ++ t) = t.
Proof.
  induction s as [|a s IH]; [|done]. rewrite string_app_nil. change (String.length "") with O. rewrite Nat.sub_0_r.
  induction t as [|b t IHt]; [done|]. cbn. by rewrite IHt.
Qed.
Lemma string_length_app (s t : string) : String.length (s ++ t) = (String.length s + String.length t)%nat.
Proof. induction s as [|a s IH]; [done|]. rewrite string_app_cons. cbn. by rewrite IH. Qed.

Lemma text_of_cons c cs : text_of (c :: cs) = (ch_text c ++ text_of cs)%string.
Proof. done. Qed.

(** Decoding loses no byte. *)
Lemma decode_text s : text_of (decode s) = s.
Proof.
  induction s as [s IH] using string_len_ind.
  decode_cases s; [done|..];
    rewrite text_of_cons, ?IH by (cbn; lia); cbn [ch_text bad text_of foldr]; by autorewrite with go.
Qed.

Lemma drop_while_nil {A} (f : A -> bool) l : drop_while f l = [] <-> forallb f l = true.
Proof.
  induction l as [|x l IH]; cbn; [done|].
  destruct (f x); cbn; [exact IH|by split].
Qed.

Lemma drop_while_head {A} (f : A -> bool) l x l' : drop_while f l = x :: l' -> f x = false.
Proof.
  induction l as [|y l IH]; cbn; [done|].
  destruct (f y) eqn:E; [exact IH|]. by intros [= -> ->].
Qed.

Lemma trim_nil {A} (f : A -> bool) l : trim f l = [] <-> forallb f l = true.
Proof.
  unfold trim. split.
  - intros H. apply (f_equal reverse) in H. rewrite reverse_involutive in H.
    apply drop_while_nil in H. destruct (drop_while f l) as [|x l'] eqn:E.
    + by apply drop_while_nil.
    + rewrite forallb_forall in H. apply drop_while_head in E.
      rewrite H in E; [done|]. apply list_elem_of_In, elem_of_reverse. by left.
  - intros H. apply drop_while_nil in H. by rewrite H.
Qed.

Lemma ch_text_nonempty s c : c ∈ decode s -> ch_text c <> ""%string.
Proof.
  induction s as [s IH] using string_len_ind.
  decode_cases s; [by rewrite elem_of_nil|..];
    rewrite elem_of_cons, ?elem_of_nil; (intros [->|Hc]; [done|]); try done; (eapply IH; [|exact Hc]; cbn; lia).
Qed.

Lemma trim_sublist {A} (f : A -> bool) l x : x ∈ trim f l -> x ∈ l.
Proof.
  assert (D : forall l', x ∈ drop_while f l' -> x ∈ l').
  { induction l' as [|y l' IH]; cbn; [done|]. destruct (f y); [|done].
    intros. right. by apply IH. }
  unfold trim. rewrite elem_of_reverse. intros H%D. rewrite elem_of_reverse in H. by apply D.
Qed.

(** A string is blank when it has no rune but white space. *)
Lemma is_blank_spec s : is_blank s = forallb (fun c => IsSpace (ch_rune c)) (decode s).
Proof.
  unfold is_blank, TrimSpace. apply eq_bool_prop_intro. rewrite bool_decide_spec.
  rewrite Is_true_true. rewrite <- trim_nil. split; [|by intros ->].
  destruct (trim _ _) as [|c cs] eqn:E; [done|]. cbn. intros H. exfalso.
  apply (ch_text_nonempty s c).
  - eapply trim_sublist. rewrite E. by left.
  - by destruct (ch_text c).
Qed.

Lemma cut_prefix_app p s : cut_prefix p (p ++ s) = Some s.
Proof.
  induction p as [|a p IH]; [done|]. rewrite string_app_cons. cbn. by rewrite bool_decide_eq_true_2.
Qed.

Lemma cut_prefix_Some p s t : cut_prefix p s = Some t <-> s = (p ++ t)%string.
Proof.
  split; [|intros ->; apply cut_prefix_app]. revert s. induction p as [|a p IH]; intros s; cbn.
  - by intros [= ->].
  - destruct s as [|b s]; [done|]. case_bool_decide; [|done]. subst. intros H.
    rewrite string_app_cons. f_equal. by apply IH.
Qed.

Lemma HasPrefix_app p s : HasPrefix (p ++ s) p = true.
Proof. unfold HasPrefix. rewrite cut_prefix_app. by apply bool_decide_eq_true_2. Qed.

Lemma TrimPrefix_app p s : TrimPrefix (p ++ s) p = s.
Proof. unfold TrimPrefix. by rewrite cut_prefix_app. Qed.

Lemma utf16_units_nonneg rs : 0 <= utf16_units rs.
Proof. induction rs as [|r rs IH]; [cbn; lia|]. cbn [utf16_units foldr]. fold (utf16_units rs). destruct (in_range _ _ r); lia. Qed.

(** Every decoded rune is a Unicode scalar value, so [utf16.RuneLen] is its UTF-16 length. *)
Definition rune_units (r : Z) : Z := if in_range 65536 1114111 r then 2 else 1.

Definition is_scalar (r : Z) : bool := in_range 0 55295 r || in_range 57344 1114111 r.

Lemma byte_of_bound a : 0 <= byte_of a < 256.
Proof. unfold byte_of. pose proof (Ascii.N_ascii_bounded a). lia. Qed.

Lemma decode_scalar s c : c ∈ decode s -> is_scalar (ch_rune c) = true.
Proof.
  induction s as [s IH] using string_len_ind.
  decode_cases s; [by rewrite elem_of_nil|..];
    rewrite elem_of_cons, ?elem_of_nil; intros Hc;
    (destruct Hc as [->|Hc]; [|try done; (eapply IH; [|exact Hc]; cbn; lia)]);
    try done; cbn [ch_rune];
    repeat match goal with H : (_ && _) = true |- _ => apply andb_true_iff in H as [? ?] end;
    unfold is_scalar, rune2, rune3, rune4, second3, second4, cont, in_range in *;
    repeat match goal with a : Ascii.ascii |- _ =>
      lazymatch goal with _ : 0 <= byte_of a < 256 |- _ => fail | _ => pose proof (byte_of_bound a) end end;
    repeat match goal with H : context [if ?b then _ else _] |- _ => destruct b eqn:? end;
    lia.
Qed.

Lemma RuneLen_scalar r : is_scalar r = true -> RuneLen r = rune_units r.
Proof.
  unfold is_scalar, RuneLen, rune_units, in_range. intros H.
  repeat case_match; lia.
Qed.

Lemma rune_units_pos r : 1 <= rune_units r <= 2.
Proof. unfold rune_units. case_match; lia. Qed.

Lemma utf16_units_cons r rs : utf16_units (r :: rs) = rune_units r + utf16_units rs.
Proof. done. Qed.

Lemma utf16_units_app rs rs' : utf16_units (rs ++ rs') = utf16_units rs + utf16_units rs'.
Proof. induction rs as [|r rs IH]; [done|]. cbn [app]. rewrite !utf16_units_cons, IH. lia. Qed.

Lemma utf16_units_pos rs : rs <> [] -> 0 < utf16_units rs.
Proof.
  destruct rs as [|r rs]; [done|]. intros _. rewrite utf16_units_cons.
  pose proof (rune_units_pos r). pose proof (utf16_units_nonneg rs). lia.
Qed.

(** ** Trimming *)

(** One step of decoding: the first rune depends on its own bytes only, as far as they are there. *)
Lemma decode_step s : s <> ""%string ->
  exists c s', decode s = c :: decode s' /\ s = (ch_text c ++ s')%string
    /\ forall p q, s' = (p ++ q)%string -> decode (ch_text c ++ p) = c :: decode p.
Proof.
  destruct s as [|a0 t0]; [done|]. intros _. cbn [decode].
  repeat (first
    [ match goal with |- context [match ?t with EmptyString => _ | String _ _ => _ end] => destruct t eqn:? end
    | match goal with |- context [if ?b then _ else _] => destruct b eqn:? end ]; cbv beta zeta match); subst;
    (first [eexists _, _; split; [reflexivity|] | eexists _, ""%string; split; [reflexivity|]]; split; [reflexivity|]); intros p q Hp; cbn [ch_text bad] in *;
    rewrite ?string_app_cons, ?string_app_nil; cbn [decode];
    repeat match goal with
    | H : String _ _ = (?p ++ _)%string |- _ => destruct p; [clear H|rewrite string_app_cons in H; injection H as <- H]
    | H : ""%string = (?p ++ _)%string |- _ => destruct p; [clear H|done]
    end; cbn [decode];
    repeat match goal with H : ?b = true |- context [?b] => rewrite H | H : ?b = false |- context [?b] => rewrite H end; done.
Qed.

(** A text that cannot continue a rune decodes on its own. *)
Definition starts_rune (s : string) : bool :=
  match s with EmptyString => true | String a _ => negb (cont (byte_of a)) end.

Lemma second_cont b0 b1 : cont b1 = false -> second3 b0 b1 = false /\ second4 b0 b1 = false.
Proof.
  unfold cont, second3, second4, in_range. intros H. split; (destruct (b0 =? _); [lia|destruct (b0 =? _); [lia|exact H]]).
Qed.

Lemma decode_app s t : starts_rune t = true -> decode (s ++ t) = decode s ++ decode t.
Proof.
  intros Ht. induction s as [s IH] using string_len_ind. destruct s as [|a0 s]; [done|].
  assert (IHs : forall u, (String.length u <= String.length s)%nat -> decode (u ++ t) = decode u ++ decode t)
    by (intros u Hu; apply IH; cbn; lia).
  clear IH. rewrite string_app_cons. cbn [decode]. destruct (byte_of a0 <? 128); [by rewrite (IHs s)|].
  destruct t as [|b1 t]; [by rewrite string_app_empty, app_nil_r|].
  cbn [starts_rune] in Ht. apply negb_true_iff in Ht. destruct (second_cont (byte_of a0) _ Ht) as [H3 H4].
  destruct s as [|a1 [|a2 [|a3 s]]]; rewrite ?string_app_cons, ?string_app_nil; cbv iota beta zeta.
  - rewrite Ht, H3, H4, andb_false_r. cbn [andb]. destruct (in_range 194 223 _); [done|].
    destruct t as [|b2 t]; [done|]. destruct (in_range 224 239 _); [done|]. by destruct t.
  - assert (I1 : decode (String a1 (String b1 t)) = decode (String a1 "") ++ decode (String b1 t)) by (apply (IHs (String a1 "")); cbn; lia).
    rewrite Ht, !andb_false_r. destruct (in_range 194 223 _); [destruct (cont (byte_of a1)); [done|by rewrite I1]|].
    destruct (in_range 224 239 _); [by rewrite I1|]. destruct t; by rewrite I1.
  - assert (I1 : decode (String a1 (String a2 (String b1 t))) = decode (String a1 (String a2 "")) ++ decode (String b1 t))
      by (apply (IHs (String a1 (String a2 ""))); cbn; lia).
    assert (I2 : decode (String a2 (String b1 t)) = decode (String a2 "") ++ decode (String b1 t)) by (apply (IHs (String a2 "")); cbn; lia).
    rewrite Ht, !andb_false_r, I1, I2.
    destruct (in_range 194 223 _); [by destruct (cont (byte_of a1))|]. by destruct (in_range 224 239 _); [destruct (_ && _)|].
  - pose proof (IHs (String a1 (String a2 (String a3 s))) ltac:(cbn; lia)) as I1.
    pose proof (IHs (String a2 (String a3 s)) ltac:(cbn; lia)) as I2. pose proof (IHs (String a3 s) ltac:(cbn; lia)) as I3.
    pose proof (IHs s ltac:(cbn; lia)) as I4.
    change (String a1 (String a2 (String a3 s)) ++ String b1 t)%string with (String a1 (String a2 (String a3 (s ++ String b1 t)))) in I1.
    change (String a2 (String a3 s) ++ String b1 t)%string with (String a2 (String a3 (s ++ String b1 t))) in I2.
    change (String a3 s ++ String b1 t)%string with (String a3 (s ++ String b1 t)) in I3.
    change ((String a1 (String a2 (String a3 s)) ++ String b1 t)%string) with (String a1 (String a2 (String a3 (s ++ String b1 t)))).
    cbv iota beta zeta. rewrite I1, I2, I3, I4.
    destruct (in_range 194 223 _); [by destruct (cont (byte_of a1))|].
    destruct (in_range 224 239 _); [by destruct (_ && _)|]. by destruct (_ && _ && _ && _).
Qed.

Lemma decode_prefix s cs ds : decode s = cs ++ ds -> decode (text_of cs) = cs.
Proof.
  revert s. induction cs as [|c cs IH]; intros s H; [done|].
  destruct (decide (s = ""%string)) as [->|Hs]; [done|].
  destruct (decode_step s Hs) as (c' & s' & Hd & _ & Hp). rewrite Hd in H. injection H as -> H.
  rewrite text_of_cons, (Hp _ (text_of ds)).
  - f_equal. by eapply IH.
  - rewrite <- (decode_text s'), H. clear. induction cs as [|c cs IH]; [done|]. cbn [app].
    rewrite !text_of_cons, IH. clear IH. generalize (ch_text c) as w. induction w as [|a w IH]; [done|].
    rewrite !string_app_cons. by f_equal.
Qed.

Lemma decode_suffix s cs ds : decode s = cs ++ ds -> decode (text_of ds) = ds.
Proof.
  revert s. induction cs as [|c cs IH]; intros s H.
  - cbn in H. subst ds. by rewrite decode_text.
  - destruct (decide (s = ""%string)) as [->|Hs]; [done|].
    destruct (decode_step s Hs) as (c' & s' & Hd & _). rewrite Hd in H. injection H as _ H. by eapply IH.
Qed.

Lemma drop_while_suffix {A} (f : A -> bool) l : exists ys, l = ys ++ drop_while f l.
Proof.
  induction l as [|x l [ys IH]]; [by exists []|]. cbn. destruct (f x); [|by exists []].
  exists (x :: ys). cbn. by rewrite <- IH.
Qed.

Lemma drop_while_id {A} (f : A -> bool) l : (forall x l', l = x :: l' -> f x = false) -> drop_while f l = l.
Proof. destruct l as [|x l]; [done|]. intros H. cbn. by rewrite (H x l). Qed.

Lemma trim_infix {A} (f : A -> bool) l : exists ys zs, l = ys ++ trim f l ++ zs.
Proof.
  destruct (drop_while_suffix f l) as [ys Hy]. destruct (drop_while_suffix f (reverse (drop_while f l))) as [zs Hz].
  exists ys, (reverse zs). unfold trim. rewrite <- reverse_app, <- Hz, reverse_involutive. exact Hy.
Qed.

Lemma trim_trim {A} (f : A -> bool) l : trim f (trim f l) = trim f l.
Proof.
  unfold trim at 1. rewrite (drop_while_id f (trim f l)).
  - unfold trim. rewrite reverse_involutive. rewrite (drop_while_id f (drop_while f _)); [done|].
    intros x l'. apply drop_while_head.
  - intros x l' E. destruct (drop_while_suffix f (reverse (drop_while f l))) as [zs Hz].
    apply (f_equal reverse) in Hz. rewrite reverse_involutive, reverse_app in Hz. fold (trim f l) in Hz.
    rewrite E in Hz. cbn in Hz. by apply drop_while_head in Hz.
Qed.

Lemma TrimSpace_TrimSpace s : TrimSpace (TrimSpace s) = TrimSpace s.
Proof.
  unfold TrimSpace at 1. set (f := fun c => IsSpace (ch_rune c)).
  destruct (trim_infix f (decode s)) as (ys & zs & H).
  assert (Hd : decode (text_of (trim f (decode s) ++ zs)) = trim f (decode s) ++ zs) by (by eapply decode_suffix).
  apply decode_prefix in Hd. unfold TrimSpace. fold f. rewrite Hd. by rewrite trim_trim.
Qed.

(** Visible ASCII: decoding is byte by byte and there is nothing to trim. *)
Definition visible (a : Ascii.ascii) : bool := in_range 33 126 (byte_of a).

Lemma decode_visible s : string_forallb visible s = true ->
  forallb (fun c => negb (IsSpace (ch_rune c))) (decode s) = true /\ length (decode s) = String.length s.
Proof.
  induction s as [|a s IH]; [done|]. cbn [string_forallb]. intros [Ha Hs]%andb_true_iff.
  destruct (IH Hs) as [IH1 IH2]. unfold visible, in_range in Ha. cbn [decode].
  replace (byte_of a <? 128) with true by lia. cbn [forallb length ch_rune]. rewrite IH1, IH2. split; [|done].
  unfold IsSpace, in_range. lia.
Qed.

Lemma TrimSpace_visible s : string_forallb visible s = true -> TrimSpace s = s.
Proof.
  intros [Hf _]%decode_visible. unfold TrimSpace. rewrite <- (decode_text s) at 2. f_equal.
  rewrite forallb_forall in Hf. set (f := fun c => IsSpace (ch_rune c)).
  assert (Hid : forall l, (forall x, x ∈ l -> f x = false) -> drop_while f l = l).
  { intros l Hl. apply drop_while_id. intros x l' ->. apply Hl. by left. }
  assert (Hn : forall x, x ∈ decode s -> f x = false).
  { intros x Hx%list_elem_of_In%Hf. by apply negb_true_iff in Hx. }
  unfold trim. rewrite (Hid (decode s)) by done. rewrite Hid; [apply reverse_involutive|].
  intros x. rewrite elem_of_reverse. apply Hn.
Qed.

Lemma string_forallb_app f s t : string_forallb f (s ++ t) = string_forallb f s && string_forallb f t.
Proof. induction s as [|a s IH]; [done|]. rewrite string_app_cons. cbn. by rewrite IH, andb_assoc. Qed.
