(* ===== verification/Strconv.v ===== *)
(** * strconv: decimal numbers

    [strconv.ParseUint(s, 10, 64)], [strconv.ParseInt(s, 10, 64)], [FormatUint] and [FormatInt].
    A syntax or range error is [None]. *)

From S2P Require Import Prelude Utf8.

Definition digit_of (a : Ascii.ascii) : option Z :=
  let b := byte_of a in if in_range 48 57 b then Some (b - 48) else None.
Definition char_of_digit (d : Z) : Ascii.ascii := ascii_of (48 + d).

Fixpoint parse_digits (s : string) (acc : Z) : option Z :=
  match s with
  | EmptyString => Some acc
  | String a t => d ← digit_of a; parse_digits t (acc * 10 + d)
  end.

Definition ParseUint (s : string) : option Z :=
  match s with
  | EmptyString => None
  | _ => n ← parse_digits s 0; if n <=? MaxUint64 then Some n else None
  end.

Definition ParseInt (s : string) : option Z :=
  match s with
  | EmptyString => None
  | String a t =>
      let b := byte_of a in
      let neg := b =? 45 in
      un ← ParseUint (if (b =? 43) || neg then t else s);
      if neg then if un <=? MaxInt64 + 1 then Some (- un) else None
      else if un <=? MaxInt64 then Some un else None
  end.

Fixpoint format_digits (fuel : nat) (n : Z) (acc : string) : string :=
  match fuel with
  | O => acc
  | S fuel =>
      let acc := String (char_of_digit (n mod 10)) acc in
      if n <? 10 then acc else format_digits fuel (n / 10) acc
  end.

(** Twenty digits hold every [uint64]. *)
Definition FormatUint (n : Z) : string := format_digits 20 n EmptyString.
Definition FormatInt (n : Z) : string :=
  if n <? 0 then String (ascii_of 45) (FormatUint (- n)) else FormatUint n.

Lemma digit_of_char d : 0 <= d < 10 -> digit_of (char_of_digit d) = Some d.
Proof.
  intros H. assert (d ∈ [0;1;2;3;4;5;6;7;8;9]) as Hd.
  { rewrite !elem_of_cons. lia. }
  repeat (rewrite elem_of_cons in Hd; destruct Hd as [->|Hd]; [reflexivity|]).
  by rewrite elem_of_nil in Hd.
Qed.

Lemma parse_format_digits fuel n acc :
  (0 < fuel)%nat -> 0 <= n < 10 ^ Z.of_nat fuel ->
  parse_digits (format_digits fuel n acc) 0 = parse_digits acc n.
Proof.
  revert n acc. induction fuel as [|fuel IH]; intros n acc Hf Hn; [lia|]. cbn [format_digits].
  destruct (Z.ltb_spec n 10) as [Hlt|Hge].
  - cbn. rewrite Z.mod_small by lia. rewrite digit_of_char by lia. done.
  - assert (0 < fuel)%nat. { destruct fuel; [|lia]. cbn in Hn. lia. }
    rewrite IH; [|done|].
    + cbn. rewrite digit_of_char by (apply Z.mod_pos_bound; lia). cbn. f_equal.
      pose proof (Z.div_mod n 10). lia.
    + rewrite Nat2Z.inj_succ, Z.pow_succ_r in Hn by lia. split; [apply Z.div_pos; lia|].
      apply Z.div_lt_upper_bound; lia.
Qed.

Lemma format_digits_nonempty fuel n acc : (0 < fuel)%nat -> format_digits fuel n acc <> ""%string.
Proof.
  revert n acc. induction fuel as [|fuel IH]; intros n acc Hf; [lia|]. cbn.
  destruct (n <? 10); [done|]. destruct fuel; [done|]. apply IH. lia.
Qed.

Lemma ParseUint_FormatUint n : is_uint64 n -> ParseUint (FormatUint n) = Some n.
Proof.
  intros Hn. unfold is_uint64, MaxUint64 in Hn. unfold ParseUint, FormatUint.
  destruct (format_digits 20 n "") as [|a s] eqn:E; [by apply format_digits_nonempty in E; lia|].
  rewrite <- E, parse_format_digits by (cbn; lia). cbn.
  unfold MaxUint64. by rewrite (proj2 (Z.leb_le _ _)) by lia.
Qed.

Lemma FormatUint_inj n m : is_uint64 n -> is_uint64 m -> FormatUint n = FormatUint m -> n = m.
Proof. intros Hn Hm H. apply ParseUint_FormatUint in Hn, Hm. congruence. Qed.

Lemma format_digits_head fuel n acc :
  (0 < fuel)%nat -> 0 <= n -> exists d s, format_digits fuel n acc = String (char_of_digit d) s /\ 0 <= d < 10.
Proof.
  revert n acc. induction fuel as [|fuel IH]; intros n acc Hf Hn; [lia|]. cbn [format_digits].
  assert (0 <= n mod 10 < 10) by (apply Z.mod_pos_bound; lia).
  destruct (n <? 10); [by eexists _, _|]. destruct fuel as [|fuel]; [by eexists _, _|].
  apply IH; [lia|]. apply Z.div_pos; lia.
Qed.

Lemma char_of_digit_no_sign d : 0 <= d < 10 ->
  (byte_of (char_of_digit d) =? 43) = false /\ (byte_of (char_of_digit d) =? 45) = false.
Proof.
  intros H. pose proof (digit_of_char d H) as E. unfold digit_of, in_range in E.
  split; apply Z.eqb_neq; intros Hb; rewrite Hb in E; discriminate.
Qed.

Lemma ParseInt_FormatInt n : 0 <= n <= MaxInt64 -> ParseInt (FormatInt n) = Some n.
Proof.
  intros Hn. unfold FormatInt. rewrite (proj2 (Z.ltb_ge _ _)) by lia.
  assert (Hu : is_uint64 n) by (unfold is_uint64, MaxUint64, MaxInt64 in *; lia).
  apply ParseUint_FormatUint in Hu. unfold FormatUint in *.
  destruct (format_digits_head 20 n "") as (d & s & E & Hd); [lia..|].
  rewrite E in *. unfold ParseInt.
  destruct (char_of_digit_no_sign d Hd) as [-> ->]. cbn [orb]. rewrite Hu.
  cbn [mbind option_bind]. by rewrite (proj2 (Z.leb_le _ _)) by lia.
Qed.

#[export] Hint Rewrite ParseUint_FormatUint ParseInt_FormatInt : go.

(** [hex.EncodeToString]. *)
Definition hex_char (n : Z) : Ascii.ascii := ascii_of (if n <? 10 then 48 + n else 87 + n).
Fixpoint hex_EncodeToString (s : string) : string :=
  match s with
  | EmptyString => EmptyString
  | String a t => String (hex_char (byte_of a / 16)) (String (hex_char (byte_of a mod 16)) (hex_EncodeToString t))
  end.
