(* ===== verification/Base64.v ===== *)
(** * encoding/base64

    The four encodings the repository uses: standard and URL alphabets, padded or raw, with
    [Strict] for invite links. The decoder skips CR and LF, wants a padded input to fill its last
    quantum and, when strict, the unused bits of the last quantum to be zero. Byte strings are
    [string]s, as everywhere. *)

From S2P Require Import Prelude Utf8.

Record encoding := mkEncoding { url : bool; padded : bool; strict : bool }.

Definition StdEncoding : encoding := mkEncoding false true false.
Definition RawStdEncoding : encoding := mkEncoding false false false.
Definition URLEncoding : encoding := mkEncoding true true false.
Definition RawURLEncoding : encoding := mkEncoding true false false.
Definition Strict (e : encoding) : encoding := mkEncoding (url e) (padded e) true.

Definition padChar : Ascii.ascii := ascii_of 61.

(** The alphabet: sextet to character and back. *)
Definition char64 (e : encoding) (n : Z) : Ascii.ascii :=
  ascii_of (if n <? 26 then 65 + n
            else if n <? 52 then 71 + n
            else if n <? 62 then n - 4
            else if n =? 62 then (if url e then 45 else 43)
            else (if url e then 95 else 47)).

Definition val64 (e : encoding) (a : Ascii.ascii) : option Z :=
  let b := byte_of a in
  if in_range 65 90 b then Some (b - 65)
  else if in_range 97 122 b then Some (b - 71)
  else if in_range 48 57 b then Some (b + 4)
  else if b =? (if url e then 45 else 43) then Some 62
  else if b =? (if url e then 95 else 47) then Some 63
  else None.

Fixpoint pad_tail (e : encoding) (n : nat) : string :=
  match n with
  | O => ""
  | S n => if padded e then String padChar (pad_tail e n) else ""
  end.

Fixpoint encode64 (e : encoding) (s : string) : string :=
  match s with
  | EmptyString => ""
  | String x (String y (String z t)) =>
      let '(a, b, c) := (byte_of x, byte_of y, byte_of z) in
      String (char64 e (a / 4)) (String (char64 e (a mod 4 * 16 + b / 16))
        (String (char64 e (b mod 16 * 4 + c / 64)) (String (char64 e (c mod 64)) (encode64 e t))))
  | String x (String y EmptyString) =>
      let '(a, b) := (byte_of x, byte_of y) in
      String (char64 e (a / 4)) (String (char64 e (a mod 4 * 16 + b / 16))
        (String (char64 e (b mod 16 * 4)) (pad_tail e 1)))
  | String x EmptyString =>
      let a := byte_of x in
      String (char64 e (a / 4)) (String (char64 e (a mod 4 * 16)) (pad_tail e 2))
  end.

(** The last quantum, of two or three characters. *)
Definition quantum2 (e : encoding) (w x : Ascii.ascii) : option string :=
  a ← val64 e w; b ← val64 e x;
  if strict e && (b mod 16 != 0) then None
  else Some (String (ascii_of (a * 4 + b / 16)) EmptyString).
Definition quantum3 (e : encoding) (w x y : Ascii.ascii) : option string :=
  a ← val64 e w; b ← val64 e x; c ← val64 e y;
  if strict e && (c mod 4 != 0) then None
  else Some (String (ascii_of (a * 4 + b / 16))
               (String (ascii_of (b mod 16 * 16 + c / 4)) EmptyString)).

Fixpoint decode_quanta (e : encoding) (s : string) : option string :=
  match s with
  | EmptyString => Some ""%string
  | String w (String x (String y (String z t))) =>
      if padded e && bool_decide (z = padChar) then
        match t with
        | EmptyString =>
            if bool_decide (y = padChar) then quantum2 e w x else quantum3 e w x y
        | _ => None
        end
      else
        a ← val64 e w; b ← val64 e x; c ← val64 e y; d ← val64 e z;
        rest ← decode_quanta e t;
        Some (String (ascii_of (a * 4 + b / 16))
               (String (ascii_of (b mod 16 * 16 + c / 4))
                 (String (ascii_of (c mod 4 * 64 + d)) rest)))
  | String w (String x (String y EmptyString)) =>
      if padded e then None else quantum3 e w x y
  | String w (String x EmptyString) =>
      if padded e then None else quantum2 e w x
  | String w EmptyString => None
  end.

Fixpoint skip_newlines (s : string) : string :=
  match s with
  | EmptyString => EmptyString
  | String a t =>
      let b := byte_of a in
      if (b =? 10) || (b =? 13) then skip_newlines t else String a (skip_newlines t)
  end.

(** [DecodeString] and [EncodeToString]; a [CorruptInputError] is [None]. *)
Definition DecodeString (e : encoding) (s : string) : option string := decode_quanta e (skip_newlines s).
Definition EncodeToString (e : encoding) (s : string) : string := encode64 e s.

(** ** Round trip *)

Lemma byte_of_range a : 0 <= byte_of a < 256.
Proof. unfold byte_of. pose proof (Ascii.N_ascii_bounded a). lia. Qed.

Lemma ascii_of_byte a : ascii_of (byte_of a) = a.
Proof. unfold ascii_of, byte_of. rewrite N2Z.id. apply Ascii.ascii_N_embedding. Qed.

Lemma byte_of_ascii n : 0 <= n < 256 -> byte_of (ascii_of n) = n.
Proof. intros H. unfold ascii_of, byte_of. rewrite Ascii.N_ascii_embedding; lia. Qed.

Definition sextets : list Z := Z.of_nat <$> seq 0 64.

Lemma sextet_elem n : 0 <= n < 64 -> n ∈ sextets.
Proof.
  intros H. apply list_elem_of_fmap. exists (Z.to_nat n).
  rewrite elem_of_seq. lia.
Qed.

Definition sextet_ok (e : encoding) (n : Z) : bool :=
  bool_decide (val64 e (char64 e n) = Some n) && (char64 e n != padChar)
  && negb (byte_of (char64 e n) =? 10) && negb (byte_of (char64 e n) =? 13).

Lemma sextets_ok e : forallb (sextet_ok e) sextets = true.
Proof. destruct e as [[] p s]; reflexivity. Qed.

Lemma char64_ok e n : 0 <= n < 64 ->
  val64 e (char64 e n) = Some n /\ char64 e n <> padChar
  /\ (byte_of (char64 e n) =? 10) || (byte_of (char64 e n) =? 13) = false.
Proof.
  intros H%sextet_elem. pose proof (sextets_ok e) as Hok. rewrite forallb_forall in Hok.
  rewrite list_elem_of_In in H. apply Hok in H. unfold sextet_ok in H.
  repeat rewrite andb_true_iff in H. destruct H as [[[H1 H2] H3] H4].
  apply bool_decide_eq_true_1 in H1. rewrite negb_true_iff in H2, H3, H4.
  apply bool_decide_eq_false_1 in H2. by rewrite H3, H4.
Qed.

Lemma val64_char64 e n : 0 <= n < 64 -> val64 e (char64 e n) = Some n.
Proof. intros H. by apply (char64_ok e) in H as (-> & _). Qed.

Lemma skip_char64 e n s : 0 <= n < 64 ->
  skip_newlines (String (char64 e n) s) = String (char64 e n) (skip_newlines s).
Proof. intros H. apply (char64_ok e) in H as (_ & _ & H). cbn [skip_newlines]. by rewrite H. Qed.

Lemma skip_pad e n : skip_newlines (pad_tail e n) = pad_tail e n.
Proof.
  induction n as [|n IH]; cbn; [done|]. destruct (padded e); [|done]. cbn. by rewrite IH.
Qed.

(** The arithmetic of one quantum. *)
Ltac sextet := unfold byte_of in *; Z.to_euclidean_division_equations; lia.

(** Three bytes as four sextets, for a strong induction by threes. *)
Lemma string_3_ind (P : string -> Prop) :
  P ""%string -> (forall x, P (String x EmptyString)) ->
  (forall x y, P (String x (String y EmptyString))) ->
  (forall x y z t, P t -> P (String x (String y (String z t)))) -> forall s, P s.
Proof.
  intros H0 H1 H2 H3 s. induction s as [s IH] using string_len_ind.
  destruct s as [|x [|y [|z t]]]; auto. apply H3, IH. cbn. lia.
Qed.

Lemma skip_encode e s : skip_newlines (encode64 e s) = encode64 e s.
Proof.
  induction s as [|x|x y|x y z t IH] using string_3_ind; [done|..];
    pose proof (byte_of_range x); try pose proof (byte_of_range y); try pose proof (byte_of_range z);
    cbn [encode64]; cbv zeta; repeat rewrite skip_char64 by sextet; by rewrite ?skip_pad, ?IH.
Qed.

Lemma char64_no_pad e n : 0 <= n < 64 -> bool_decide (char64 e n = padChar) = false.
Proof. intros H. apply (char64_ok e) in H as (_ & H & _). by apply bool_decide_eq_false_2. Qed.

Ltac quantum := repeat rewrite val64_char64 by sextet; cbn [mbind option_bind].

Lemma decode_encode_quanta e s : decode_quanta e (encode64 e s) = Some s.
Proof.
  induction s as [|x|x y|x y z t IH] using string_3_ind; [done|..];
    pose proof (byte_of_range x); try pose proof (byte_of_range y); try pose proof (byte_of_range z);
    cbn [encode64 pad_tail]; cbv zeta.
  - destruct (padded e) eqn:Hp; cbn -[val64 char64 ascii_of Z.div Z.modulo]; rewrite Hp; cbn -[val64 char64 ascii_of Z.div Z.modulo];
      unfold quantum2; quantum;
      rewrite Z_mod_mult, bool_decide_eq_true_2 by done; rewrite andb_false_r;
      replace (byte_of x / 4 * 4 + byte_of x mod 4 * 16 / 16) with (byte_of x) by sextet;
      by rewrite ascii_of_byte.
  - destruct (padded e) eqn:Hp; cbn -[val64 char64 ascii_of Z.div Z.modulo]; rewrite Hp; cbn -[val64 char64 ascii_of Z.div Z.modulo];
      rewrite ?char64_no_pad by sextet; unfold quantum3; quantum;
      rewrite Z_mod_mult, bool_decide_eq_true_2 by done; rewrite andb_false_r;
      replace (byte_of x / 4 * 4 + (byte_of x mod 4 * 16 + byte_of y / 16) / 16) with (byte_of x) by sextet;
      replace ((byte_of x mod 4 * 16 + byte_of y / 16) mod 16 * 16 + byte_of y mod 16 * 4 / 4)
        with (byte_of y) by sextet;
      by rewrite !ascii_of_byte.
  - cbn -[val64 char64 ascii_of Z.div Z.modulo encode64]. rewrite char64_no_pad, andb_false_r by sextet.
    quantum. rewrite IH. cbn [mbind option_bind].
    replace (byte_of x / 4 * 4 + (byte_of x mod 4 * 16 + byte_of y / 16) / 16) with (byte_of x) by sextet.
    replace ((byte_of x mod 4 * 16 + byte_of y / 16) mod 16 * 16 + (byte_of y mod 16 * 4 + byte_of z / 64) / 4)
      with (byte_of y) by sextet.
    replace ((byte_of y mod 16 * 4 + byte_of z / 64) mod 4 * 64 + byte_of z mod 64) with (byte_of z) by sextet.
    by rewrite !ascii_of_byte.
Qed.

(** Every encoding, strict or not, reads back what it writes. *)
Lemma DecodeString_EncodeToString e s : DecodeString e (EncodeToString e s) = Some s.
Proof. unfold DecodeString, EncodeToString. rewrite skip_encode. apply decode_encode_quanta. Qed.

Lemma EncodeToString_inj e s t : EncodeToString e s = EncodeToString e t -> s = t.
Proof. intros H. apply (f_equal (DecodeString e)) in H. rewrite !DecodeString_EncodeToString in H. by simplify_eq. Qed.

Lemma EncodeToString_empty e s : EncodeToString e s = ""%string <-> s = ""%string.
Proof. split; [|by intros ->]. destruct s as [|x [|y [|z t]]]; done. Qed.

#[export] Hint Rewrite DecodeString_EncodeToString : go.

(** Encoded text is visible ASCII. *)
Lemma char64_visible e n : 0 <= n < 64 -> visible (char64 e n) = true.
Proof. intros H. unfold visible, in_range, char64. rewrite byte_of_ascii; destruct (url e); repeat case_match; lia. Qed.

Lemma encode_visible e s : string_forallb visible (EncodeToString e s) = true.
Proof.
  unfold EncodeToString. assert (Hp : forall n, string_forallb visible (pad_tail e n) = true).
  { induction n as [|n IH]; [done|]. cbn [pad_tail]. by destruct (padded e). }
  induction s as [|x|x y|x y z t IH] using string_3_ind; [done|..];
    pose proof (byte_of_range x); try pose proof (byte_of_range y); try pose proof (byte_of_range z);
    cbn [encode64]; cbv beta iota zeta; cbn [string_forallb]; rewrite !char64_visible by sextet; cbn [andb]; auto.
Qed.

(** Encoded text without padding is made of the alphabet. *)
Lemma encode_alphabet e (f : Ascii.ascii -> bool) s :
  padded e = false -> forallb (fun n => f (char64 e n)) sextets = true -> string_forallb f (EncodeToString e s) = true.
Proof.
  intros Hp Hf. unfold EncodeToString. rewrite forallb_forall in Hf.
  assert (Hc : forall n, 0 <= n < 64 -> f (char64 e n) = true) by (intros n Hn; by apply Hf, list_elem_of_In, sextet_elem).
  assert (Hpad : forall n, pad_tail e n = ""%string) by (intros [|n]; cbn; by rewrite ?Hp).
  induction s as [|x|x y|x y z t IH] using string_3_ind; [done|..];
    pose proof (byte_of_range x); try pose proof (byte_of_range y); try pose proof (byte_of_range z);
    cbn [encode64]; cbv beta iota zeta; rewrite ?Hpad; cbn [string_forallb]; rewrite !Hc by sextet; cbn [andb]; auto.
Qed.

(** Four characters for three bytes. *)
Lemma encode_size e s : slen (EncodeToString e s) <= 2 * slen s + 4.
Proof.
  unfold EncodeToString, slen.
  assert (Hp : forall n, (String.length (pad_tail e n) <= n)%nat) by (induction n as [|n IH]; cbn; [done|]; destruct (padded e); cbn; lia).
  pose proof (Hp 1%nat). pose proof (Hp 2%nat).
  induction s as [|x|x y|x y z t IH] using string_3_ind; cbn [encode64 String.length]; cbv beta iota zeta; cbn [String.length]; lia.
Qed.

Lemma encode_Strict e s : EncodeToString (Strict e) s = EncodeToString e s.
Proof.
  unfold EncodeToString. induction s as [|x|x y|x y z t IH] using string_3_ind; [done|reflexivity|reflexivity|].
  cbn [encode64]. cbv zeta. rewrite IH. reflexivity.
Qed.
