(* ===== verification/Types.v ===== *)
(** * Data of internal/signal: users, chats, events and requests

    The structs of types.go, events.go, poll.go, pin.go, stories.go and groups.go as records, the
    [Event] interface (a closed sum type in the code) as an inductive type. Pointers that mean
    "absent" are [option]s; an event pointer itself is never nil. Integers are [Z] within the
    range of their Go type, times are nanoseconds since the Unix epoch. *)

From S2P Require Import Prelude Errors.

(** ** Times *)

Notation time := Z (only parsing).
(** The zero [time.Time], January 1 of year 1, and [IsZero]. *)
Definition zero_time : time := -62135596800000000000.
Definition IsZeroTime (t : time) : bool := t =? zero_time.
(** [t.UnixMilli()] and [time.UnixMilli(ms)]. *)
Definition UnixMilli (t : time) : Z := t / 1000000.
Definition of_UnixMilli (ms : Z) : time := ms * 1000000.
Definition Second : Z := 1000000000.

(** ** Users and chats (types.go) *)

Record Recipient := mkRecipient { ACI : string; PNI : string; Number : string; Username : string }.

Definition zeroRecipient : Recipient := mkRecipient "" "" "" "".
Definition ofACI (aci : string) : Recipient := mkRecipient aci "" "" "".
Definition ofPNI (pni : string) : Recipient := mkRecipient "" pni "" "".

#[export] Instance Recipient_eq_dec : EqDecision Recipient.
Proof. solve_decision. Defined.

(** [Recipient.String]. *)
Definition Recipient_String (r : Recipient) : string :=
  if ACI r != "" then ACI r
  else if PNI r != "" then "PNI:" ++ PNI r
  else if Number r != "" then Number r
  else if Username r != "" then "@" ++ Username r
  else "".

Definition Recipient_IsZero (r : Recipient) : bool := r == zeroRecipient.

Record Chat := mkChat { GroupID : string; ChatRecipient : Recipient }.

Definition zeroChat : Chat := mkChat "" zeroRecipient.

#[export] Instance Chat_eq_dec : EqDecision Chat.
Proof. solve_decision. Defined.

Definition Chat_IsGroup (c : Chat) : bool := GroupID c != "".

(** [Chat.Key] (inbox.go). *)
Definition Chat_Key (c : Chat) : string :=
  if Chat_IsGroup c then "group:" ++ GroupID c else Recipient_String (ChatRecipient c).

(** [Account] (account.go). *)
Record Account := mkAccount {
  acc_Number : string; acc_ACI : string; acc_PNI : string; acc_DeviceID : Z;
  acc_DeviceName : string; acc_LinkedAt : time; acc_LastSync : time; acc_UnlinkedAt : time }.

Definition Account_Unlinked (a : Account) : bool := negb (IsZeroTime (acc_UnlinkedAt a)).

(** ** Message parts *)

Record Mention := mkMention { men_Start : Z; men_Length : Z; men_Recipient : Recipient }.

Record RemoteAttachment := mkRemote {
  CDNNumber : Z; CDNID : Z; CDNKey : string; rem_Key : string; rem_Digest : string }.

Record Attachment := mkAttachment {
  att_ContentType : string; att_Filename : string; att_Size : Z; att_Caption : string;
  att_Remote : RemoteAttachment }.

Record Quote := mkQuote {
  quo_Author : Recipient; quo_Timestamp : Z; quo_Text : string; quo_Mentions : list Mention }.

Record Sticker := mkSticker {
  stk_PackID : string; stk_PackKey : string; stk_StickerID : Z; stk_Emoji : string;
  stk_Image : option Attachment }.

(** poll.go *)
Record Poll := mkPoll { Question : string; Options : list string; AllowMultiple : bool }.

Record OutgoingPollVote := mkPollVote {
  vote_TargetAuthor : Recipient; vote_TargetTimestamp : Z; OptionIndexes : list Z; VoteCount : Z }.

Record OutgoingPollClose := mkPollClose { close_TargetTimestamp : Z }.

(** pin.go *)
Record OutgoingPin := mkPin {
  pin_TargetAuthor : Recipient; pin_TargetTimestamp : Z; DurationSeconds : Z; Forever : bool }.

Record OutgoingUnpin := mkUnpin { unpin_TargetAuthor : Recipient; unpin_TargetTimestamp : Z }.

(** stories.go; [Positions] are the bits of the float32 values. *)
Record StoryGradient := mkGradient {
  StartColor : option Z; EndColor : option Z; Angle : option Z; Colors : list Z; Positions : list Z }.
Record StoryPreview := mkPreview {
  pre_URL : string; pre_Title : string; pre_Description : string; pre_Date : Z;
  pre_Image : option Attachment }.
Record StoryText := mkStoryText {
  sto_Text : string; sto_Style : string; ForegroundColor : option Z; TextBackgroundColor : option Z;
  BackgroundColor : option Z; Gradient : option StoryGradient; Preview : option StoryPreview }.

(** ** Events (events.go) *)

Record Envelope := mkEnvelope {
  env_Sender : Recipient; env_Chat : Chat; env_Timestamp : Z; env_ServerTimestamp : Z;
  env_Sync : bool }.

Record MessageContent := mkMessage {
  msg_Body : string; msg_Mentions : list Mention; msg_Attachments : list Attachment;
  msg_Sticker : option Sticker; msg_Poll : option Poll; msg_Quote : option Quote;
  msg_ViewOnce : bool; msg_Unsupported : list string }.

Inductive ReceiptType := ReceiptNone | ReceiptDelivery | ReceiptRead | ReceiptViewed.

Record ReadMark := mkReadMark { mark_Sender : Recipient; mark_Timestamp : Z }.

(** [ConnectionState]: zero (no state yet) and the five named states. *)
Inductive ConnectionState :=
  | StateNone | StateConnected | StateDisconnected | StateLoggedOut | StateError | StateFailed.

#[export] Instance ConnectionState_eq_dec : EqDecision ConnectionState.
Proof. solve_decision. Defined.

Inductive Event :=
  | EvMessage (env : Envelope) (m : MessageContent)
  | EvStory (env : Envelope) (allowsReplies : bool) (file : option Attachment)
      (text : option StoryText) (mentions : list Mention)
  | EvEdit (env : Envelope) (target : Z) (body : string) (mentions : list Mention)
  | EvDelete (env : Envelope) (target : Z)
  | EvReaction (env : Envelope) (emoji : string) (remove : bool) (author : Recipient) (target : Z)
  | EvTyping (env : Envelope) (started : bool)
  | EvReceipt (sender : Recipient) (typ : ReceiptType) (timestamps : list Z)
  | EvReadSync (timestamp : Z) (messages : list ReadMark)
  | EvUnsupported (env : Envelope) (typ : string)
  | EvDecryptionFailure (sender : Recipient) (timestamp : Z) (cause : error)
  | EvIdentityChanged (rcpt : Recipient) (oldFingerprint newFingerprint : string) (at_ : time)
  | EvQueueEmpty
  | EvConnection (state : ConnectionState) (cause : error)
  | EvPollVote (env : Envelope) (v : OutgoingPollVote)
  | EvPollClose (env : Envelope) (c : OutgoingPollClose)
  | EvPin (env : Envelope) (p : OutgoingPin)
  | EvUnpin (env : Envelope) (u : OutgoingUnpin).

(** ** Requests (types.go) *)

Inductive Style := StyleBold | StyleItalic | StyleSpoiler | StyleStrikethrough | StyleMonospace
  | StyleOther (name : string).

Record TextStyle := mkTextStyle { sty_Start : Z; sty_Length : Z; sty_Style : Style }.

Record StickerReference := mkStickerRef { ref_PackID : string; ref_PackKey : string; ref_StickerID : Z }.

Record UploadedAttachment := mkUploaded {
  upl_ID : string; upl_ContentType : string; upl_Filename : string; upl_Size : Z }.

Record OutgoingSticker := mkOutSticker {
  out_Reference : StickerReference; out_Emoji : string; out_Image : UploadedAttachment }.

Record OutgoingStory := mkOutStory {
  DistributionListID : string; story_Text : string; story_File : option UploadedAttachment;
  story_AllowsReplies : bool }.

Record OutgoingReaction := mkReaction {
  rea_Emoji : string; rea_Remove : bool; rea_TargetAuthor : Recipient; rea_TargetTimestamp : Z }.

Record SendRequest := mkSendRequest {
  req_Recipients : list Recipient; req_GroupID : string; req_Body : string; req_Timestamp : Z;
  req_EditTarget : Z; req_Attachments : list UploadedAttachment; req_Sticker : option OutgoingSticker;
  req_Story : option OutgoingStory; req_PollCreate : option Poll;
  req_PollVote : option OutgoingPollVote; req_PollClose : option OutgoingPollClose;
  req_Pin : option OutgoingPin; req_Unpin : option OutgoingUnpin; req_Quote : option Quote;
  req_Mentions : list Mention; req_Styles : list TextStyle; req_Reaction : option OutgoingReaction;
  req_DeleteTarget : Z }.

(** The zero [SendRequest]. *)
Definition zeroSendRequest : SendRequest :=
  mkSendRequest [] "" "" 0 0 [] None None None None None None None None [] [] None 0.

Record RecipientResult := mkRcptResult { rr_Recipient : Recipient; rr_Unidentified : bool; rr_Err : error }.

Record SignalSendResult := mkSigResult {
  sr_Timestamp : Z; sr_Results : list RecipientResult; sr_SyncErr : error }.

(** ** Basic facts *)

Lemma Recipient_IsZero_true r : Recipient_IsZero r = true <-> r = zeroRecipient.
Proof. unfold Recipient_IsZero. by rewrite bool_decide_eq_true. Qed.

Lemma Recipient_String_ACI r : ACI r <> ""%string -> Recipient_String r = ACI r.
Proof. intros H. unfold Recipient_String. by rewrite bool_decide_eq_false_2. Qed.

Lemma Chat_IsGroup_true c : Chat_IsGroup c = true <-> GroupID c <> ""%string.
Proof. unfold Chat_IsGroup. by rewrite negb_true_iff, bool_decide_eq_false. Qed.

Lemma UnixMilli_of_UnixMilli ms : UnixMilli (of_UnixMilli ms) = ms.
Proof. unfold UnixMilli, of_UnixMilli. by rewrite Z.div_mul. Qed.
