(* ===== verification/SendCheck.v ===== *)
(** * Validation of outgoing messages

    [SendRequest.Check] (send.go) and what it calls: text styles (styles.go), polls
    (poll_check.go), pins (pin_check.go), stickers (sticker.go) and stories (stories_send.go),
    and the vote counter request of poll_counters.go. A check returns an [error]: [None] is
    Go's nil. *)

From S2P Require Import Prelude Errors Uuid Utf8 Base64 Types.

(** ** Text styles (styles.go) *)

Definition Style_valid (s : Style) : bool :=
  match s with
  | StyleBold | StyleItalic | StyleSpoiler | StyleStrikethrough | StyleMonospace => true
  | StyleOther _ => false
  end.

(** The offsets, in UTF-16 units, at which a rune of the body starts or ends. *)
Fixpoint boundaries_from (units : Z) (rs : list Z) : gset Z :=
  match rs with
  | [] => ∅
  | r :: rs' => let units' := units + RuneLen r in {[units']} ∪ boundaries_from units' rs'
  end.
Definition style_boundaries (body : string) : gset Z := {[0]} ∪ boundaries_from 0 (runes body).

Definition check_style (boundaries : gset Z) (style : TextStyle) : error :=
  if negb (Style_valid (sty_Style style)) then Some (errorf ErrInvalidStyle)
  else
    let end_ := sty_Start style + sty_Length style in
    if (sty_Length style =? 0) || negb (bool_decide (sty_Start style ∈ boundaries))
       || negb (bool_decide (end_ ∈ boundaries))
    then Some (errorf ErrInvalidStyle) else None.

Fixpoint first_error {A} (f : A -> error) (l : list A) : error :=
  match l with
  | [] => None
  | x :: l' => f x ;! first_error f l'
  end.

Definition CheckTextStyles (body : string) (styles : list TextStyle) : error :=
  if len styles =? 0 then None
  else if negb (ValidString body) then Some (errorf ErrInvalidStyle)
  else first_error (check_style (style_boundaries body)) styles.

(** ** Requests: which content is there *)

Definition is_set {A} (o : option A) : bool := bool_decide (is_Some o).

Definition hasContent (req : SendRequest) : bool :=
  (req_Body req != ""%string) || (0 <? len (req_Attachments req)) || is_set (req_Quote req)
  || (0 <? len (req_Mentions req)) || (0 <? len (req_Styles req)).

Definition hasPoll (req : SendRequest) : bool :=
  is_set (req_PollCreate req) || is_set (req_PollVote req) || is_set (req_PollClose req).

Definition hasPin (req : SendRequest) : bool := is_set (req_Pin req) || is_set (req_Unpin req).

Definition pollHasContent (req : SendRequest) : bool :=
  hasContent req || is_set (req_Sticker req) || is_set (req_Reaction req)
  || negb (req_DeleteTarget req =? 0) || negb (req_EditTarget req =? 0).

(** ** Polls (poll_check.go) *)

Definition pollTextLimit : Z := 100.
Definition pollMaxOptions : Z := 10.
Definition pollMinOptions : Z := 2.

Definition pollText (text : string) (limit : Z) : bool :=
  ValidString text && (TrimSpace text != ""%string) && (utf16_len text <=? limit).

Definition Poll_check (p : Poll) (questionLimit : Z) : error :=
  if negb (pollText (Question p) questionLimit) || (len (Options p) <? pollMinOptions)
     || (pollMaxOptions <? len (Options p))
  then Some (Sent ErrInvalidPoll)
  else first_error (fun option => if negb (pollText option pollTextLimit)
                                  then Some (Sent ErrInvalidPoll) else None) (Options p).

Definition Poll_Check (p : Poll) : error := Poll_check p pollTextLimit.

(** Option indexes are below the limit and pairwise different. *)
Fixpoint check_indexes (seen : gset Z) (indexes : list Z) : error :=
  match indexes with
  | [] => None
  | i :: rest =>
      if (pollMaxOptions <=? i) || bool_decide (i ∈ seen) then Some (Sent ErrInvalidPoll)
      else check_indexes ({[i]} ∪ seen) rest
  end.

Section checks.
Context {U : UuidLib}.

(** [uuid.Parse] succeeded with a UUID other than the nil one. *)
Definition nonnil_uuid (s : string) : bool :=
  match uuid_parse s with Some id => id != uuid_nil | None => false end.

(** ... and [s] is its canonical form. *)
Definition canonical_uuid (s : string) : bool :=
  match uuid_parse s with
  | Some id => (id != uuid_nil) && (uuid_string id == s)
  | None => false
  end.

Definition OutgoingPollVote_check (v : OutgoingPollVote) : error :=
  if negb (nonnil_uuid (ACI (vote_TargetAuthor v))) || (vote_TargetTimestamp v =? 0)
  then Some (Sent ErrInvalidPoll)
  else check_indexes ∅ (OptionIndexes v).

Definition OutgoingPollVote_Check (v : OutgoingPollVote) : error :=
  if VoteCount v =? 0 then Some (Sent ErrInvalidPoll) else OutgoingPollVote_check v.

Definition OutgoingPollClose_Check (p : OutgoingPollClose) : error :=
  if close_TargetTimestamp p =? 0 then Some (Sent ErrInvalidPoll) else None.

Definition pollGroupIDSize : Z := 32.

Definition validPollGroup (groupID : string) : bool :=
  match DecodeString StdEncoding groupID with
  | Some raw => (slen raw =? pollGroupIDSize) && (EncodeToString StdEncoding raw == groupID)
  | None => false
  end.

Definition validPollChat (req : SendRequest) : bool :=
  if req_GroupID req != ""%string then
    (len (req_Recipients req) =? 0) && validPollGroup (req_GroupID req)
  else match req_Recipients req with
       | [r] => canonical_uuid (ACI r)
       | _ => false
       end.

Definition checkPoll (req : SendRequest) : error :=
  if negb (validPollChat req) || pollHasContent req then Some (Sent ErrInvalidPoll)
  else
    let count := (if is_set (req_PollCreate req) then 1 else 0)
                 + (if is_set (req_PollVote req) then 1 else 0)
                 + (if is_set (req_PollClose req) then 1 else 0) in
    if negb (count =? 1) then Some (Sent ErrInvalidPoll)
    else match req_PollCreate req, req_PollVote req, req_PollClose req with
         | Some p, _, _ => Poll_Check p
         | None, Some v, _ => OutgoingPollVote_Check v
         | None, None, Some c => OutgoingPollClose_Check c
         | None, None, None => None
         end.

(** ** Pins (pin_check.go) *)

Definition OutgoingUnpin_Check (p : OutgoingUnpin) : error :=
  if negb (nonnil_uuid (ACI (unpin_TargetAuthor p))) || (unpin_TargetTimestamp p =? 0)
  then Some (Sent ErrInvalidPin) else None.

Definition OutgoingPin_Check (p : OutgoingPin) : error :=
  if Bool.eqb (0 <? DurationSeconds p) (Forever p) then Some (Sent ErrInvalidPin)
  else OutgoingUnpin_Check (mkUnpin (pin_TargetAuthor p) (pin_TargetTimestamp p)).

Definition checkPin (req : SendRequest) : error :=
  if (is_set (req_Pin req) && is_set (req_Unpin req)) || pollHasContent req || hasPoll req
  then Some (Sent ErrInvalidPin)
  else match req_Pin req, req_Unpin req with
       | Some p, _ => OutgoingPin_Check p
       | None, Some u => OutgoingUnpin_Check u
       | None, None => None
       end.

(** ** Stickers (sticker.go): canonical lower-case hexadecimal pack ID and 32-byte key.
    [strings.ToLower] only matters on ASCII here: any other byte fails [hex.DecodeString]. *)

Definition hex_value (a : Ascii.ascii) : option Z :=
  let b := byte_of a in
  if in_range 48 57 b then Some (b - 48)
  else if in_range 97 102 b then Some (b - 87)
  else if in_range 65 70 b then Some (b - 55)
  else None.

Fixpoint hex_DecodeString (s : string) : option string :=
  match s with
  | EmptyString => Some ""%string
  | String _ EmptyString => None
  | String a (String b t) =>
      h ← hex_value a; l ← hex_value b; rest ← hex_DecodeString t;
      Some (String (ascii_of (h * 16 + l)) rest)
  end.

Definition is_upper (a : Ascii.ascii) : bool := in_range 65 90 (byte_of a).

Definition StickerReference_Check (ref : StickerReference) : error :=
  if negb (slen (ref_PackID ref) =? 32) || negb (slen (ref_PackKey ref) =? 32)
     || negb (string_forallb (fun a => negb (is_upper a)) (ref_PackID ref))
  then Some (Sent ErrInvalidSticker)
  else match hex_DecodeString (ref_PackID ref) with
       | None => Some (Sent ErrInvalidSticker)
       | Some _ => None
       end.

Definition checkSticker (req : SendRequest) (s : OutgoingSticker) : error :=
  if hasContent req || is_set (req_Reaction req) || negb (req_DeleteTarget req =? 0)
     || negb (req_EditTarget req =? 0)
  then Some (Sent ErrInvalidSticker)
  else StickerReference_Check (out_Reference s).

(** ** Stories (stories_send.go) *)

Definition StoryMediaType (contentType : string) : bool :=
  HasPrefix contentType "image/" || HasPrefix contentType "video/".

Definition storyRecipient (r : Recipient) : bool := canonical_uuid (ACI r) && (PNI r == ""%string).

Definition privateStoryAudience (req : SendRequest) (story : OutgoingStory) : bool :=
  match uuid_parse (DistributionListID story) with
  | None => false
  | Some id =>
      (uuid_string id == DistributionListID story) && (req_GroupID req == ""%string)
      && negb (len (req_Recipients req) =? 0) && forallb storyRecipient (req_Recipients req)
  end.

Definition storyAudience (req : SendRequest) (story : OutgoingStory) : bool :=
  if DistributionListID story != ""%string then privateStoryAudience req story
  else match DecodeString StdEncoding (req_GroupID req) with
       | Some id => (slen id =? 32) && (EncodeToString StdEncoding id == req_GroupID req)
                    && (len (req_Recipients req) =? 0)
       | None => false
       end.

Definition storyOnly (req : SendRequest) : bool :=
  negb (hasContent req) && negb (is_set (req_Sticker req)) && negb (hasPoll req)
  && negb (hasPin req) && negb (is_set (req_Reaction req)) && (req_DeleteTarget req =? 0)
  && (req_EditTarget req =? 0).

Definition OutgoingStory_check (story : OutgoingStory) : error :=
  match story_File story with
  | None => if TrimSpace (story_Text story) == ""%string then Some (Sent ErrInvalidStory) else None
  | Some file =>
      if (story_Text story != ""%string) || (upl_ID file == ""%string)
         || negb (StoryMediaType (upl_ContentType file))
      then Some (Sent ErrInvalidStory) else None
  end.

Definition checkStory (req : SendRequest) (story : OutgoingStory) : error :=
  if negb (storyAudience req story) || negb (storyOnly req) then Some (Sent ErrInvalidStory)
  else OutgoingStory_check story.

(** ** Edits and reactions (send.go) *)

Definition checkEdit (req : SendRequest) : error :=
  if is_set (req_Reaction req) || negb (req_DeleteTarget req =? 0)
     || (TrimSpace (req_Body req) == ""%string)
  then Some (errorf ErrInvalidContent)
  else if negb (req_Timestamp req =? 0) && (req_Timestamp req <=? req_EditTarget req)
  then Some (errorf ErrInvalidContent)
  else None.

Definition checkReaction (req : SendRequest) (reaction : OutgoingReaction) : error :=
  if hasContent req || negb (req_DeleteTarget req =? 0) then Some (errorf ErrInvalidContent)
  else if rea_Emoji reaction == ""%string then Some (errorf ErrInvalidContent)
  else if rea_TargetTimestamp reaction =? 0 then Some (errorf ErrInvalidContent)
  else if ACI (rea_TargetAuthor reaction) == ""%string then Some (errorf ErrUnresolvable)
  else None.

(** [SendRequest.Check]. *)
Definition Check (req : SendRequest) : error :=
  match req_Story req with
  | Some story => checkStory req story
  | None =>
      if Bool.eqb (req_GroupID req == ""%string) (len (req_Recipients req) =? 0)
      then Some (Sent ErrInvalidSendRequest)
      else
        CheckTextStyles (req_Body req) (req_Styles req) ;!
        (if hasPin req then checkPin req
         else if hasPoll req then checkPoll req
         else match req_Sticker req with
              | Some s => checkSticker req s
              | None =>
                  if negb (req_EditTarget req =? 0) then checkEdit req
                  else match req_Reaction req with
                       | Some reaction => checkReaction req reaction
                       | None =>
                           if negb (req_DeleteTarget req =? 0) then
                             if hasContent req then Some (errorf ErrInvalidContent) else None
                           else None
                       end
              end)
  end.

(** ** Vote counters and poll references (poll_counters.go, poll_projection.go) *)

Record PollVoteCounterRequest := mkCounterReq {
  ctr_Chat : Chat; ctr_Author : Recipient; ctr_Timestamp : Z; ctr_Explicit : Z }.

Definition PollVoteCounterRequest_Check (req : PollVoteCounterRequest) : error :=
  if negb (canonical_uuid (ACI (ctr_Author req))) then Some (Sent ErrInvalidPoll)
  else
    let vote := mkPollVote (ctr_Author req) (ctr_Timestamp req) [] 1 in
    let recipients := if negb (Chat_IsGroup (ctr_Chat req)) then [ChatRecipient (ctr_Chat req)] else [] in
    Check (mkSendRequest recipients (GroupID (ctr_Chat req)) "" 0 0 [] None None None (Some vote)
             None None None None [] [] None 0).

Definition OwnPollVoteCounter (evt : Event) (ownACI : string) : option PollVoteCounterRequest :=
  match evt with
  | EvPollVote env vote =>
      if negb (env_Sync env) || (ACI (env_Sender env) != ownACI)
         || is_set (OutgoingPollVote_Check vote)
      then None
      else
        let req := mkCounterReq (env_Chat env) (vote_TargetAuthor vote)
                     (vote_TargetTimestamp vote) (VoteCount vote) in
        if is_set (PollVoteCounterRequest_Check req) then None else Some req
  | _ => None
  end.
End checks.

(** ** Lemmas *)

Lemma first_error_None {A} (f : A -> error) l : first_error f l = None <-> Forall (fun x => f x = None) l.
Proof.
  induction l as [|x l IH]; cbn; [by split; [constructor|]|].
  by rewrite check_seq_None, IH, Forall_cons.
Qed.

Lemma check_indexes_None seen l :
  check_indexes seen l = None <->
  NoDup l /\ Forall (fun i => i < pollMaxOptions) l /\ (forall i, i ∈ l -> i ∉ seen).
Proof.
  revert seen. induction l as [|i l IH]; intros seen; cbn [check_indexes].
  { split; [|done]. intros _. split_and!; [constructor|constructor|by intros ? ?%elem_of_nil]. }
  rewrite NoDup_cons, Forall_cons.
  destruct (Z.leb_spec pollMaxOptions i) as [Hi|Hi]; cbn [orb]; [split; [done|]; lia|].
  case_bool_decide as Hs.
  { split; [done|]. intros (_ & _ & H). exfalso. eapply H; [by left|done]. }
  rewrite IH. split.
  - intros (Hnd & Hb & Hf). split_and!; try done.
    + intros Hin. apply Hf in Hin. set_solver.
    + intros j [->|Hj]%elem_of_cons; [done|]. apply Hf in Hj. set_solver.
  - intros ((Hni & Hnd) & (_ & Hb) & Hf). split_and!; try done.
    intros j Hj. rewrite elem_of_union, elem_of_singleton. intros [->|Hin]; [done|].
    eapply Hf; [by right|done].
Qed.

Lemma is_set_Some {A} (a : A) : is_set (Some a) = true.
Proof. by apply bool_decide_eq_true_2. Qed.
Lemma is_set_None {A} : is_set (@None A) = false.
Proof. by apply bool_decide_eq_false_2, is_Some_None. Qed.
#[export] Hint Rewrite @is_set_Some @is_set_None : go.

Lemma boundaries_from_spec u rs x :
  Forall (fun r => is_scalar r = true) rs ->
  x ∈ boundaries_from u rs <->
  exists pre post, pre <> [] /\ rs = pre ++ post /\ x = u + utf16_units pre.
Proof.
  intros Hs. revert u. induction Hs as [|r rs Hr _ IH]; intros u; cbn [boundaries_from].
  { rewrite elem_of_empty. split; [done|]. intros ([|? ?] & ? & ? & ? & _); done. }
  rewrite RuneLen_scalar by done. rewrite elem_of_union, elem_of_singleton, IH. split.
  - intros [->|(pre & post & Hne & -> & ->)].
    + exists [r], rs. split_and!; [done|done|]. rewrite utf16_units_cons. cbn. lia.
    + exists (r :: pre), post. split_and!; [done|done|]. rewrite utf16_units_cons. lia.
  - intros (pre & post & Hne & Heq & ->). destruct pre as [|r' pre]; [done|].
    cbn in Heq. injection Heq as -> ->. rewrite utf16_units_cons. destruct pre as [|r'' pre].
    + left. cbn. lia.
    + right. exists (r'' :: pre), post. split_and!; [done|done|lia].
Qed.

Lemma style_boundaries_spec body x :
  x ∈ style_boundaries body <-> exists pre post, runes body = pre ++ post /\ x = utf16_units pre.
Proof.
  unfold style_boundaries. rewrite elem_of_union, elem_of_singleton, boundaries_from_spec.
  - split.
    + intros [->|(pre & post & _ & H & ->)]; [by exists [], (runes body)|].
      exists pre, post. split; [done|lia].
    + intros (pre & post & H & ->). destruct pre as [|r pre]; [by left|].
      right. exists (r :: pre), post. split_and!; [done|done|lia].
  - apply Forall_forall. intros r (c & -> & Hc)%list_elem_of_fmap. by eapply decode_scalar.
Qed.

Lemma prefix_of_units (l pre pre' post post' : list Z) :
  l = pre ++ post -> l = pre' ++ post' -> utf16_units pre < utf16_units pre' ->
  exists mid, mid <> [] /\ pre' = pre ++ mid.
Proof.
  intros H1 H2 Hlt.
  destruct (prefix_weak_total pre pre' l) as [[mid ->]|[mid ->]]; [by exists post|by exists post'|..].
  - exists mid. split; [|done]. intros ->. rewrite app_nil_r in Hlt. lia.
  - rewrite utf16_units_app in Hlt. pose proof (utf16_units_nonneg mid). lia.
Qed.

(** What a style has to be: a supported format over a nonempty run of whole runes. *)
Definition style_covers (rs : list Z) (st : TextStyle) : Prop :=
  Style_valid (sty_Style st) = true /\
  exists pre mid post, rs = pre ++ mid ++ post /\ mid <> []
    /\ utf16_units pre = sty_Start st /\ utf16_units mid = sty_Length st.

Definition style_range (st : TextStyle) : Prop := is_uint32 (sty_Start st) /\ is_uint32 (sty_Length st).

Lemma check_style_None body st : style_range st ->
  check_style (style_boundaries body) st = None <-> style_covers (runes body) st.
Proof.
  intros [Hs Hl]. unfold check_style, style_covers.
  destruct (Style_valid (sty_Style st)); cbn [negb]; [|split; [done|by intros [? _]]].
  destruct (Z.eqb_spec (sty_Length st) 0) as [H0|H0]; cbn [orb].
  { split; [done|]. intros (_ & pre & mid & post & _ & Hne & _ & Hm).
    apply utf16_units_pos in Hne. lia. }
  case_bool_decide as Hb1; cbn [negb orb]; [case_bool_decide as Hb2; cbn [negb]|].
  - split; [|done]. intros _. split; [done|].
    apply style_boundaries_spec in Hb1 as (pre & post & E1 & Hp).
    apply style_boundaries_spec in Hb2 as (pre' & post' & E2 & Hend).
    destruct (prefix_of_units _ _ _ _ _ E1 E2) as (mid & Hne & ->); [unfold is_uint32 in Hl; lia|].
    rewrite utf16_units_app in Hend. exists pre, mid, post'. rewrite app_assoc. split_and!; auto; lia.
  - split; [done|]. intros (_ & pre & mid & post & E & Hne & Hp & Hm). destruct Hb2.
    apply style_boundaries_spec. exists (pre ++ mid), post.
    rewrite utf16_units_app, Hp, Hm, <- app_assoc. done.
  - split; [done|]. intros (_ & pre & mid & post & E & Hne & Hp & Hm). destruct Hb1.
    apply style_boundaries_spec. by exists pre, (mid ++ post).
Qed.

Section check_facts.
Context {U : UuidLib}.

(** The standalone kinds of content a request can carry. *)
Definition kinds (req : SendRequest) : list bool :=
  [ is_set (req_Story req); is_set (req_Pin req); is_set (req_Unpin req);
    is_set (req_PollCreate req); is_set (req_PollVote req); is_set (req_PollClose req);
    is_set (req_Sticker req); is_set (req_Reaction req); negb (req_DeleteTarget req =? 0) ].

Definition count_true (l : list bool) : Z := foldr (fun (b : bool) (n : Z) => (if b then 1 else 0) + n) 0 l.

Lemma pollHasContent_false req : pollHasContent req = false ->
  hasContent req = false /\ is_set (req_Sticker req) = false /\ is_set (req_Reaction req) = false
  /\ req_DeleteTarget req = 0 /\ req_EditTarget req = 0.
Proof. unfold pollHasContent. rewrite !orb_false_iff, !negb_false_iff, !Z.eqb_eq. tauto. Qed.

Lemma hasPoll_false req : hasPoll req = false ->
  is_set (req_PollCreate req) = false /\ is_set (req_PollVote req) = false
  /\ is_set (req_PollClose req) = false.
Proof. unfold hasPoll. rewrite !orb_false_iff. tauto. Qed.

Lemma hasPin_false req : hasPin req = false ->
  is_set (req_Pin req) = false /\ is_set (req_Unpin req) = false.
Proof. unfold hasPin. by rewrite orb_false_iff. Qed.

Lemma storyOnly_true req : storyOnly req = true ->
  hasContent req = false /\ is_set (req_Sticker req) = false /\ hasPoll req = false
  /\ hasPin req = false /\ is_set (req_Reaction req) = false
  /\ req_DeleteTarget req = 0 /\ req_EditTarget req = 0.
Proof. unfold storyOnly. rewrite !andb_true_iff, !negb_true_iff, !Z.eqb_eq. tauto. Qed.

Lemma checkPin_None req : checkPin req = None ->
  is_set (req_Pin req) && is_set (req_Unpin req) = false /\ pollHasContent req = false
  /\ hasPoll req = false.
Proof.
  unfold checkPin. destruct (_ || _) eqn:E; [done|].
  by rewrite !orb_false_iff in E; destruct E as [[? ?] ?].
Qed.

Lemma checkPoll_None req : checkPoll req = None ->
  validPollChat req = true /\ pollHasContent req = false /\
  count_true [is_set (req_PollCreate req); is_set (req_PollVote req); is_set (req_PollClose req)] = 1.
Proof.
  unfold checkPoll. destruct (_ || _) eqn:E; [done|]. rewrite orb_false_iff, negb_false_iff in E.
  destruct E as [-> ->]. cbn [count_true foldr].
  destruct (is_set (req_PollCreate req)), (is_set (req_PollVote req)), (is_set (req_PollClose req)); done.
Qed.

(** The ways a request without a story passes [Check]. *)
Lemma Check_None_cases req : Check req = None -> req_Story req = None ->
  (hasPin req = true /\ checkPin req = None)
  \/ (hasPin req = false /\ hasPoll req = true /\ checkPoll req = None)
  \/ (hasPin req = false /\ hasPoll req = false /\
      ((exists s, req_Sticker req = Some s /\ checkSticker req s = None)
       \/ (req_Sticker req = None /\ req_EditTarget req <> 0 /\ checkEdit req = None)
       \/ (exists r, req_Sticker req = None /\ req_EditTarget req = 0 /\ req_Reaction req = Some r
                     /\ checkReaction req r = None)
       \/ (req_Sticker req = None /\ req_EditTarget req = 0 /\ req_Reaction req = None
           /\ (req_DeleteTarget req <> 0 -> hasContent req = false)))).
Proof.
  unfold Check. intros H Hs. rewrite Hs in H. revert H. destruct (Bool.eqb _ _); [done|].
  rewrite check_seq_None. intros [_ H].
  destruct (hasPin req); [by left|right]. destruct (hasPoll req); [by left|right]. split_and!; try done.
  destruct (req_Sticker req) as [s|]; [left; by exists s|right].
  destruct (Z.eqb_spec (req_EditTarget req) 0) as [He|He]; cbn [negb] in H; [right|left; done].
  destruct (req_Reaction req) as [r|]; [left; by exists r|right]. split_and!; try done.
  intros Hd. apply Z.eqb_neq in Hd. rewrite Hd in H. cbn in H. by destruct (hasContent req).
Qed.

(** A request that passes [SendRequest.Check] carries at most one standalone kind of
    content (story, pin, unpin, poll creation, vote or closure, sticker, reaction, remote
    delete), an edit none of them, and ordinary content (text, attachments, quote, mentions,
    styles) comes with none of them. *)
Theorem Check_one_kind req : Check req = None ->
  count_true (kinds req) <= 1
  /\ (req_EditTarget req <> 0 -> count_true (kinds req) = 0)
  /\ (hasContent req = true -> count_true (kinds req) = 0).
Proof.
  intros H. unfold kinds. cbn [count_true foldr].
  destruct (req_Story req) as [story|] eqn:Hs.
  { unfold Check in H. rewrite Hs in H. unfold checkStory in H.
    destruct (_ || _) eqn:E; [done|]. rewrite orb_false_iff, !negb_false_iff in E.
    destruct E as [_ (-> & -> & (-> & -> & ->)%hasPoll_false & (-> & ->)%hasPin_false & -> & -> & ->)%storyOnly_true].
    by autorewrite with go. }
  rewrite is_set_None. destruct (Check_None_cases req H Hs) as [[Hp Hc]|[(Hp & Hpo & Hc)|(Hp & Hpo & Hr)]].
  - apply checkPin_None in Hc as (Hb & (-> & -> & -> & -> & ->)%pollHasContent_false
      & (-> & -> & ->)%hasPoll_false).
    by destruct (is_set (req_Pin req)), (is_set (req_Unpin req)).
  - apply hasPin_false in Hp as [-> ->].
    apply checkPoll_None in Hc as (_ & (-> & -> & -> & -> & ->)%pollHasContent_false & Hn).
    cbn [count_true foldr] in Hn. cbn [negb Z.eqb]. lia.
  - apply hasPin_false in Hp as [-> ->]. apply hasPoll_false in Hpo as (-> & -> & ->).
    destruct Hr as [(s & -> & Hc)|[(-> & He & Hc)|[(r & -> & He & -> & Hc)|(-> & -> & -> & Hc)]]];
      autorewrite with go.
    + unfold checkSticker in Hc. destruct (_ || _) eqn:E; [done|].
      rewrite !orb_false_iff, !negb_false_iff, !Z.eqb_eq in E.
      destruct E as [[[-> ->] ->] ->]. done.
    + unfold checkEdit in Hc. destruct (_ || _) eqn:E; [done|].
      rewrite !orb_false_iff, !negb_false_iff, !Z.eqb_eq in E. destruct E as [[-> ->] _]. done.
    + unfold checkReaction in Hc. destruct (_ || _) eqn:E; [done|].
      rewrite !orb_false_iff, !negb_false_iff, !Z.eqb_eq in E. by destruct E as [-> ->].
    + destruct (Z.eqb_spec (req_DeleteTarget req) 0) as [Hd|Hd]; [done|].
      rewrite Hc by done. done.
Qed.

(** ** Votes *)

(** The reference conditions on an outgoing vote: an explicit positive counter, a real author
    and timestamp, and pairwise different option indexes below the limit. *)
Definition vote_ok (v : OutgoingPollVote) : Prop :=
  VoteCount v <> 0 /\ nonnil_uuid (ACI (vote_TargetAuthor v)) = true
  /\ vote_TargetTimestamp v <> 0 /\ NoDup (OptionIndexes v)
  /\ Forall (fun i => i < pollMaxOptions) (OptionIndexes v).

Lemma OutgoingPollVote_check_None v :
  OutgoingPollVote_check v = None <->
  nonnil_uuid (ACI (vote_TargetAuthor v)) = true /\ vote_TargetTimestamp v <> 0
  /\ NoDup (OptionIndexes v) /\ Forall (fun i => i < pollMaxOptions) (OptionIndexes v).
Proof.
  unfold OutgoingPollVote_check. destruct (nonnil_uuid _); cbn [negb orb]; [|naive_solver].
  destruct (Z.eqb_spec (vote_TargetTimestamp v) 0); [naive_solver|].
  rewrite check_indexes_None. set_solver.
Qed.

Lemma OutgoingPollVote_Check_None v : OutgoingPollVote_Check v = None <-> vote_ok v.
Proof.
  unfold OutgoingPollVote_Check, vote_ok.
  destruct (Z.eqb_spec (VoteCount v) 0); [naive_solver|].
  rewrite OutgoingPollVote_check_None. naive_solver.
Qed.

(** The destination of a poll operation: one canonical group ID of 32 bytes, or one canonical
    ACI. *)
Definition poll_destination (req : SendRequest) : Prop :=
  (exists raw, req_GroupID req = EncodeToString StdEncoding raw /\ slen raw = 32
               /\ req_Recipients req = [])
  \/ (exists r, req_GroupID req = ""%string /\ req_Recipients req = [r]
                /\ canonical_uuid (ACI r) = true).

Lemma validPollGroup_true g :
  validPollGroup g = true <-> exists raw, g = EncodeToString StdEncoding raw /\ slen raw = 32.
Proof.
  unfold validPollGroup. split.
  - destruct (DecodeString _ g) as [raw|] eqn:E; [|done].
    rewrite andb_true_iff, Z.eqb_eq, bool_decide_eq_true. intros [Hl <-]. by exists raw.
  - intros (raw & -> & Hl). rewrite DecodeString_EncodeToString, Hl.
    by apply andb_true_iff; split; [|apply bool_decide_eq_true_2].
Qed.

Lemma validPollChat_true req : validPollChat req = true <-> poll_destination req.
Proof.
  unfold validPollChat, poll_destination. case_bool_decide as Hg; cbn [negb].
  - split.
    + destruct (req_Recipients req) as [|r [|]]; try done. intros Hr. right. by exists r.
    + intros [(raw & Hraw & Hl & _)|(r & _ & -> & Hr)]; [|done].
      rewrite Hg in Hraw. symmetry in Hraw. apply EncodeToString_empty in Hraw. by subst.
  - rewrite andb_true_iff, Z.eqb_eq, len_zero, validPollGroup_true. naive_solver.
Qed.

(** A request whose only content is a poll vote passes [SendRequest.Check] exactly when it
    goes to one canonical group or user and the vote is well formed: every branch of the
    dispatch is equivalent to these reference conditions. *)
Theorem Check_vote_spec (req : SendRequest) v :
  req = mkSendRequest (req_Recipients req) (req_GroupID req) "" (req_Timestamp req) 0 [] None None
          None (Some v) None None None None [] [] None 0 ->
  Check req = None <-> poll_destination req /\ vote_ok v.
Proof.
  intros E. rewrite <- validPollChat_true, <- OutgoingPollVote_Check_None.
  assert (Hc : pollHasContent req = false) by (rewrite E; reflexivity).
  assert (Hp : checkPoll req = if validPollChat req then OutgoingPollVote_Check v
                               else Some (Sent ErrInvalidPoll)).
  { unfold checkPoll. rewrite Hc. destruct (validPollChat req); [|done]. by rewrite E. }
  assert (Hck : Check req = if Bool.eqb (req_GroupID req == ""%string) (len (req_Recipients req) =? 0)
                            then Some (Sent ErrInvalidSendRequest) else checkPoll req).
  { unfold Check at 1. by rewrite E. }
  rewrite Hck, Hp. unfold validPollChat. case_bool_decide as Hg; cbn [negb].
  - destruct (req_Recipients req) as [|r [|r' l]]; cbn; [naive_solver| |].
    + destruct (canonical_uuid (ACI r)); naive_solver.
    + destruct (len _ =? 0) eqn:Hl; [apply Z.eqb_eq, len_zero in Hl; done|]. naive_solver.
  - destruct (len (req_Recipients req) =? 0) eqn:Hl; cbn; [|naive_solver].
    destruct (validPollGroup _); naive_solver.
Qed.
End check_facts.

(** C40. [CheckTextStyles] accepts exactly the styles that are all supported and cover a nonempty
    run of whole runes of a valid UTF-8 body, at the UTF-16 offsets they name; no styles are
    always accepted. *)
Theorem CheckTextStyles_spec body styles : Forall style_range styles ->
  CheckTextStyles body styles = None <->
  styles = [] \/ (ValidString body = true /\ Forall (style_covers (runes body)) styles).
Proof.
  intros Hr. unfold CheckTextStyles. destruct (len styles =? 0) eqn:Hl.
  { apply Z.eqb_eq, len_zero in Hl. naive_solver. }
  apply Z.eqb_neq in Hl. rewrite len_zero in Hl.
  destruct (ValidString body); cbn [negb]; [|naive_solver].
  rewrite first_error_None, !Forall_forall in *.
  split; [|intros [?|[_ H]]; [done|]]; [intros H; right; split; [done|]|];
    intros st Hst; apply (check_style_None body st); auto.
Qed.

(** ** Witnesses *)

Section witnesses.
Import DemoUuid.

Definition demo_aci : string := "11111111-1111-4111-8111-111111111111".
Definition demo_vote : OutgoingPollVote := mkPollVote (ofACI demo_aci) 5 [0; 2] 1.
Definition demo_vote_request : SendRequest :=
  mkSendRequest [ofACI demo_aci] "" "" 7 0 [] None None None (Some demo_vote) None None None None [] [] None 0.

Lemma Check_one_kind_witness :
  Check demo_vote_request = None /\ count_true (kinds demo_vote_request) <= 1
  /\ (hasContent demo_vote_request = true -> count_true (kinds demo_vote_request) = 0).
Proof.
  assert (H : Check demo_vote_request = None) by (vm_compute; reflexivity).
  destruct (Check_one_kind demo_vote_request H) as (H1 & _ & H3). exact (conj H (conj H1 H3)).
Defined.

Lemma Check_vote_spec_witness : poll_destination demo_vote_request /\ vote_ok demo_vote.
Proof. apply (Check_vote_spec demo_vote_request demo_vote); vm_compute; reflexivity. Defined.

Definition demo_styles : list TextStyle := [mkTextStyle 0 2 StyleBold; mkTextStyle 1 3 StyleItalic].

Lemma CheckTextStyles_spec_witness :
  Forall style_range demo_styles /\ ValidString "hello" = true /\ Forall (style_covers (runes "hello")) demo_styles.
Proof.
  assert (H : Forall style_range demo_styles) by (repeat constructor; vm_compute; intuition discriminate).
  split; [exact H|]. destruct (proj1 (CheckTextStyles_spec "hello" demo_styles H)) as [E|E]; [vm_compute; reflexivity|discriminate E|exact E].
Defined.
End witnesses.
