(* ===== verification/Groups.v ===== *)
(** * Groups: state, membership and leaving (internal/signal/groups.go)

    A [Group] is the state the server reports. This file has its data, the membership lookups
    ([MembershipOf], [SelfMembership]), the checks for renaming and leaving, and the identity
    comparison of groups_accept.go they share. *)

From S2P Require Import Prelude Errors Uuid Utf8 Types.

Inductive GroupRole := GroupRoleUnknown | GroupRoleMember | GroupRoleAdmin.
Inductive Membership := MembershipNone | MembershipMember | MembershipPending | MembershipRequesting.

#[export] Instance GroupRole_eq_dec : EqDecision GroupRole.
Proof. solve_decision. Defined.
#[export] Instance Membership_eq_dec : EqDecision Membership.
Proof. solve_decision. Defined.

Definition GroupRole_String (r : GroupRole) : string :=
  match r with GroupRoleMember => "member" | GroupRoleAdmin => "admin" | GroupRoleUnknown => "unknown" end.

Definition Membership_String (m : Membership) : string :=
  match m with
  | MembershipMember => "member" | MembershipPending => "pending"
  | MembershipRequesting => "requesting" | MembershipNone => "none"
  end.

Record GroupMember := mkMember { gm_Recipient : Recipient; gm_Role : GroupRole; JoinedAtRevision : Z }.
Record PendingMember := mkPending {
  pm_Recipient : Recipient; pm_Role : GroupRole; AddedBy : Recipient; InvitedAt : time }.
Record RequestingMember := mkRequesting { rm_Recipient : Recipient; RequestedAt : time }.
Record BannedMember := mkBanned { bm_Recipient : Recipient; BannedAt : time }.

#[export] Instance GroupMember_eq_dec : EqDecision GroupMember.
Proof. solve_decision. Defined.
#[export] Instance PendingMember_eq_dec : EqDecision PendingMember.
Proof. solve_decision. Defined.
#[export] Instance RequestingMember_eq_dec : EqDecision RequestingMember.
Proof. solve_decision. Defined.
#[export] Instance BannedMember_eq_dec : EqDecision BannedMember.
Proof. solve_decision. Defined.

Record Group := mkGroup {
  AvatarPath : string; grp_ID : string; MasterKey : string; Title : string; Description : string;
  Revision : Z; Timer : Z; AnnouncementsOnly : bool; MembersCanEditAttributes : bool;
  MembersCanAddMembers : bool; Members : list GroupMember; Pending : list PendingMember;
  Requesting : list RequestingMember; Banned : list BannedMember;
  grp_Membership : Membership; grp_Role : GroupRole; LeftAt : time; grp_Err : error }.

(** Copies of a group with some fields replaced. *)
Definition with_people (g : Group) (ms : list GroupMember) (ps : list PendingMember)
    (rs : list RequestingMember) (bs : list BannedMember) : Group :=
  mkGroup (AvatarPath g) (grp_ID g) (MasterKey g) (Title g) (Description g) (Revision g) (Timer g)
    (AnnouncementsOnly g) (MembersCanEditAttributes g) (MembersCanAddMembers g) ms ps rs bs
    (grp_Membership g) (grp_Role g) (LeftAt g) (grp_Err g).
Definition with_Pending (g : Group) (ps : list PendingMember) : Group :=
  with_people g (Members g) ps (Requesting g) (Banned g).
Definition with_Members (g : Group) (ms : list GroupMember) : Group :=
  with_people g ms (Pending g) (Requesting g) (Banned g).
Definition with_Revision (g : Group) (rev : Z) : Group :=
  mkGroup (AvatarPath g) (grp_ID g) (MasterKey g) (Title g) (Description g) rev (Timer g)
    (AnnouncementsOnly g) (MembersCanEditAttributes g) (MembersCanAddMembers g) (Members g)
    (Pending g) (Requesting g) (Banned g) (grp_Membership g) (grp_Role g) (LeftAt g) (grp_Err g).
Definition with_own (g : Group) (mr : Membership * GroupRole) : Group :=
  mkGroup (AvatarPath g) (grp_ID g) (MasterKey g) (Title g) (Description g) (Revision g) (Timer g)
    (AnnouncementsOnly g) (MembersCanEditAttributes g) (MembersCanAddMembers g) (Members g)
    (Pending g) (Requesting g) (Banned g) mr.1 mr.2 (LeftAt g) (grp_Err g).

(** ** Looking people up *)

(** The first element satisfying [f], as the [for ... range ... return] loops find it. *)
Fixpoint find_first {A} (f : A -> bool) (l : list A) : option A :=
  match l with
  | [] => None
  | x :: l' => if f x then Some x else find_first f l'
  end.

Definition MembershipOf (g : Group) (aci : string) : Membership * GroupRole :=
  if aci == ""%string then (MembershipNone, GroupRoleUnknown)
  else match find_first (fun m => ACI (gm_Recipient m) == aci) (Members g) with
  | Some member => (MembershipMember, gm_Role member)
  | None =>
      match find_first (fun p => ACI (pm_Recipient p) == aci) (Pending g) with
      | Some pending => (MembershipPending, pm_Role pending)
      | None =>
          match find_first (fun r => ACI (rm_Recipient r) == aci) (Requesting g) with
          | Some _ => (MembershipRequesting, GroupRoleUnknown)
          | None => (MembershipNone, GroupRoleUnknown)
          end
      end
  end.

Definition is_admin (m : GroupMember) : bool := gm_Role m == GroupRoleAdmin.

(** [Group.Admins]. *)
Definition Admins (g : Group) : Z := len (filter (fun m => is_admin m = true) (Members g)).

(** [Group.bannedACI] (groups_bans.go). *)
Definition bannedACI (g : Group) (aci : string) : bool :=
  existsb (fun b => (ACI (bm_Recipient b) != ""%string) && (ACI (bm_Recipient b) == aci)) (Banned g).

(** ** Titles and renaming *)

Definition ValidateGroupTitle (title : string) : error :=
  if negb (ValidString title) || (TrimSpace title == ""%string) then Some (errorf ErrInvalidGroupTitle)
  else None.

Definition CheckRename (g : Group) (self title : string) : error :=
  ValidateGroupTitle title ;!
  let (membership, role) := MembershipOf g self in
  if membership != MembershipMember then Some (Sent ErrNotAMember)
  else if (role != GroupRoleAdmin) && negb (MembersCanEditAttributes g) then
    Some (errorf ErrGroupPermission)
  else None.

(** ** Leaving *)

(** [newAdmins]: the promoted must be other members than [self]; how many of them aren't admins
    yet. [promoted] is the code's map, of which only the size is used. *)
Fixpoint newAdmins_loop (g : Group) (self : string) (promoted : gset string) (promote : list Recipient)
    : res Z :=
  match promote with
  | [] => Ok (Z.of_nat (size promoted))
  | rcpt :: rest =>
      match find_first (fun m => (ACI rcpt != ""%string) && (ACI (gm_Recipient m) == ACI rcpt)) (Members g) with
      | None => Err (errorf ErrInvalidPromotion)
      | Some member =>
          if ACI rcpt == self then Err (errorf ErrInvalidPromotion)
          else newAdmins_loop g self
                 (if gm_Role member != GroupRoleAdmin then {[ACI rcpt]} ∪ promoted else promoted) rest
      end
  end.
Definition newAdmins (g : Group) (self : string) (promote : list Recipient) : res Z :=
  newAdmins_loop g self ∅ promote.

Definition checkLeave (g : Group) (self : string) (promote : list Recipient)
    (membership : Membership) (role : GroupRole) : error :=
  let admin := (membership == MembershipMember) && (role == GroupRoleAdmin) in
  if membership == MembershipNone then Some (Sent ErrNotAMember)
  else if (0 <? len promote) && negb admin then Some (errorf ErrInvalidPromotion)
  else if membership != MembershipMember then None
  else match newAdmins g self promote with
       | Err e => Some e
       | Ok n =>
           if admin && (Admins g + n =? 1) && (1 <? len (Members g)) then Some (Sent ErrLastAdmin)
           else None
       end.

Definition CheckLeave (g : Group) (self : string) (promote : list Recipient) : error :=
  let (membership, role) := MembershipOf g self in checkLeave g self promote membership role.

(** ** Typed identities (groups_accept.go) *)

Section identities.
Context {U : UuidLib}.

Definition acceptIdentity (value : string) : uuid :=
  match uuid_parse value with Some id => id | None => uuid_nil end.

Definition acceptSelfMatches (recipient self : Recipient) : bool :=
  if (ACI recipient != ""%string) && (PNI recipient == ""%string) then
    let id := acceptIdentity (ACI self) in (id != uuid_nil) && (acceptIdentity (ACI recipient) == id)
  else if (PNI recipient != ""%string) && (ACI recipient == ""%string) then
    let id := acceptIdentity (PNI self) in (id != uuid_nil) && (acceptIdentity (PNI recipient) == id)
  else false.

Definition SelfMembership (g : Group) (self : Recipient) : Membership * GroupRole :=
  let ownACI := acceptIdentity (ACI self) in
  if ownACI == uuid_nil then (MembershipNone, GroupRoleUnknown)
  else
    let (membership, role) := MembershipOf (with_Pending g []) (uuid_string ownACI) in
    if membership == MembershipMember then (membership, role)
    else
      let invited identity :=
        find_first (fun p => acceptSelfMatches (pm_Recipient p) identity) (Pending g) in
      match invited (ofACI (ACI self)) with
      | Some pending => (MembershipPending, pm_Role pending)
      | None =>
          match invited (ofPNI (PNI self)) with
          | Some pending => (MembershipPending, pm_Role pending)
          | None => (membership, role)
          end
      end.

(** [PrepareLeave] returns the group with our membership set, and the check's error. *)
Definition PrepareLeave (g : Group) (self : Recipient) (promote : list Recipient)
    : option Group * error :=
  if acceptIdentity (ACI self) == uuid_nil then (None, Some (Sent ErrUnresolvable))
  else
    let g' := with_own g (SelfMembership g self) in
    (Some g', checkLeave g' (ACI self) promote (grp_Membership g') (grp_Role g')).
End identities.

(** ** Sorting *)

Section sorting.
(** Go's [strings.ToLower], whatever its case tables. *)
Context (ToLower : string -> string).

(** [a] does not come after [b] in [SortGroups]' order. *)
Definition group_leb (a b : Group) : bool :=
  if Bool.eqb (Title a == ""%string) (Title b == ""%string) then
    match String.compare (ToLower (Title a)) (ToLower (Title b)) with
    | Lt => true
    | Gt => false
    | Eq => String.leb (grp_ID a) (grp_ID b)
    end
  else negb (Title a == ""%string).

Definition SortGroups (groups : list Group) : list Group := sort_by group_leb groups.
End sorting.

(** ** Lemmas *)

Lemma find_first_Some {A} (f : A -> bool) l x : find_first f l = Some x -> x ∈ l /\ f x = true.
Proof.
  induction l as [|y l IH]; cbn; [done|]. destruct (f y) eqn:E.
  - intros [= ->]. split; [by left|done].
  - intros [? ?]%IH. split; [by right|done].
Qed.

Lemma find_first_None {A} (f : A -> bool) l : find_first f l = None <-> forall x, x ∈ l -> f x = false.
Proof.
  induction l as [|y l IH]; cbn; [split; [by intros _ x ?%elem_of_nil|done]|].
  destruct (f y) eqn:E.
  - split; [done|]. intros H. specialize (H y (list_elem_of_here _ _)). congruence.
  - rewrite IH. split; intros H x Hx; [|apply H; by right].
    apply elem_of_cons in Hx as [->|Hx]; auto.
Qed.

Lemma find_first_is_Some {A} (f : A -> bool) l :
  is_Some (find_first f l) <-> exists x, x ∈ l /\ f x = true.
Proof.
  split; [intros [x Hx]; exists x; by apply find_first_Some|].
  intros (x & Hx & Hf). destruct (find_first f l) eqn:E; [done|].
  rewrite find_first_None in E. rewrite E in Hf; done.
Qed.

Lemma find_first_ext {A} (f g : A -> bool) l :
  (forall x, x ∈ l -> f x = g x) -> find_first f l = find_first g l.
Proof.
  induction l as [|x l IH]; intros H; cbn; [done|].
  rewrite H by (by left). rewrite IH; [done|]. intros y Hy. apply H. by right.
Qed.

(** The ACIs of the full members. *)
Definition member_acis (g : Group) : list string := (fun m => ACI (gm_Recipient m)) <$> Members g.

(** What the server guarantees of a group's full members: nobody is listed twice. *)
Definition members_unique (g : Group) : Prop := NoDup (member_acis g).

Lemma MembershipOf_member g aci role :
  MembershipOf g aci = (MembershipMember, role) ->
  aci <> ""%string /\ exists m, m ∈ Members g /\ ACI (gm_Recipient m) = aci /\ gm_Role m = role.
Proof.
  unfold MembershipOf. case_bool_decide as Hne; [done|]. intros H. split; [done|].
  destruct (find_first _ (Members g)) as [m|] eqn:E.
  - apply find_first_Some in E as [Hm Ha]. apply bool_decide_eq_true_1 in Ha.
    injection H as <-. by exists m.
  - by repeat case_match.
Qed.

Lemma MembershipOf_is_member g aci :
  (MembershipOf g aci).1 = MembershipMember <-> aci <> ""%string /\ aci ∈ member_acis g.
Proof.
  split.
  - intros H. destruct (MembershipOf g aci) as [ms role] eqn:E. cbn in H. subst.
    apply MembershipOf_member in E as (Hne & m & Hm & <- & _). split; [done|].
    apply list_elem_of_fmap. by exists m.
  - intros [Hne (m & -> & Hm)%list_elem_of_fmap]. unfold MembershipOf.
    rewrite bool_decide_eq_false_2 by done.
    destruct (find_first _ (Members g)) as [m'|] eqn:E; [done|].
    rewrite find_first_None in E. apply E in Hm. by apply bool_decide_eq_false_1 in Hm.
Qed.

Lemma MembershipOf_none g aci :
  aci <> ""%string -> (MembershipOf g aci).1 = MembershipNone <->
  aci ∉ member_acis g /\ (forall p, p ∈ Pending g -> ACI (pm_Recipient p) <> aci)
  /\ (forall r, r ∈ Requesting g -> ACI (rm_Recipient r) <> aci).
Proof.
  intros Hne. unfold MembershipOf. rewrite bool_decide_eq_false_2 by done.
  destruct (find_first _ (Members g)) as [m|] eqn:Em; cbn.
  { split; [done|]. intros (Hn & _). apply find_first_Some in Em as [Hm Ha%bool_decide_eq_true_1].
    destruct Hn. apply list_elem_of_fmap. by exists m. }
  assert (Hm : aci ∉ member_acis g).
  { intros (m & -> & Hm)%list_elem_of_fmap. rewrite find_first_None in Em.
    apply Em in Hm. by apply bool_decide_eq_false_1 in Hm. }
  destruct (find_first _ (Pending g)) as [p|] eqn:Ep; cbn.
  { split; [done|]. intros (_ & Hp & _). apply find_first_Some in Ep as [Hin Ha%bool_decide_eq_true_1].
    by apply Hp in Hin. }
  destruct (find_first _ (Requesting g)) as [r|] eqn:Er; cbn.
  { split; [done|]. intros (_ & _ & Hr). apply find_first_Some in Er as [Hin Ha%bool_decide_eq_true_1].
    by apply Hr in Hin. }
  rewrite find_first_None in Ep. rewrite find_first_None in Er. split; [|done]. intros _. split_and!; [done|..].
  - intros p Hp <-. apply Ep in Hp. by apply bool_decide_eq_false_1 in Hp.
  - intros r Hr <-. apply Er in Hr. by apply bool_decide_eq_false_1 in Hr.
Qed.

Lemma Admins_pos g : 0 < Admins g <-> exists m, m ∈ Members g /\ gm_Role m = GroupRoleAdmin.
Proof.
  unfold Admins. split.
  - destruct (filter _ (Members g)) as [|m l] eqn:E; [by cbn|]. intros _. exists m.
    assert (Hm : m ∈ filter (fun m => is_admin m = true) (Members g)) by (rewrite E; by left).
    apply list_elem_of_filter in Hm as [Ha Hm]. by apply bool_decide_eq_true_1 in Ha.
  - intros (m & Hm & Ha).
    assert (Hf : m ∈ filter (fun m => is_admin m = true) (Members g)).
    { apply list_elem_of_filter. split; [by apply bool_decide_eq_true_2|done]. }
    destruct (filter _ (Members g)); [by apply elem_of_nil in Hf|]. unfold len. cbn. lia.
Qed.

(** Where the members are unique, a member's role is the one [MembershipOf] reports. *)
Lemma MembershipOf_unique g m :
  members_unique g -> m ∈ Members g -> ACI (gm_Recipient m) <> ""%string ->
  MembershipOf g (ACI (gm_Recipient m)) = (MembershipMember, gm_Role m).
Proof.
  intros Hu Hm Hne. unfold MembershipOf. rewrite bool_decide_eq_false_2 by done.
  destruct (find_first _ (Members g)) as [m'|] eqn:E.
  - apply find_first_Some in E as [Hm' Ha%bool_decide_eq_true_1].
    f_equal. f_equal. unfold members_unique, member_acis in Hu.
    apply list_elem_of_lookup in Hm as [i Hi]. apply list_elem_of_lookup in Hm' as [j Hj].
    assert (i = j) as ->; [|congruence].
    eapply NoDup_lookup; [exact Hu| |]; rewrite list_lookup_fmap, ?Hi, ?Hj; cbn; by f_equal.
  - rewrite find_first_None in E. apply E in Hm. by apply bool_decide_eq_false_1 in Hm.
Qed.

(** [newAdmins] counts distinct members other than [self] that are not admins. *)
Lemma newAdmins_loop_Ok g self promoted promote n :
  newAdmins_loop g self promoted promote = Ok n ->
  (forall r, r ∈ promote -> ACI r ∈ member_acis g /\ ACI r <> self /\ ACI r <> ""%string) /\
  exists s : gset string, n = Z.of_nat (size s) /\ promoted ⊆ s /\
    forall a, a ∈ s <-> a ∈ promoted \/
      exists r, r ∈ promote /\ ACI r = a /\ (MembershipOf g a).2 <> GroupRoleAdmin.
Proof.
  revert promoted. induction promote as [|r rest IH]; intros promoted; cbn [newAdmins_loop].
  { intros [= <-]. split; [by intros r ?%elem_of_nil|]. exists promoted. split_and!; [done|done|].
    intros a. split; [by left|]. intros [?|(r & ?%elem_of_nil & _)]; done. }
  destruct (find_first _ (Members g)) as [m|] eqn:E; [|done].
  destruct (bool_decide (ACI r = self)) eqn:Hself; [done|]. apply bool_decide_eq_false_1 in Hself.
  intros H. pose proof E as E'. apply find_first_Some in E as [Hm Ha]. apply andb_true_iff in Ha as [Hne Ha].
  rewrite negb_true_iff, bool_decide_eq_false in Hne. apply bool_decide_eq_true_1 in Ha.
  assert (Hrole : (MembershipOf g (ACI r)).2 = gm_Role m).
  { unfold MembershipOf. rewrite bool_decide_eq_false_2 by done.
    destruct (find_first _ (Members g)) as [m'|] eqn:E2 in |- *.
    - cbn. assert (m' = m); [|congruence].
      assert (Some m' = Some m); [|congruence]. rewrite <- E2, <- E'. apply find_first_ext.
      intros x _. by rewrite (bool_decide_eq_false_2 (ACI r = ""%string)) by done.
    - rewrite find_first_None in E2. apply E2 in Hm. by apply bool_decide_eq_false_1 in Hm. }
  apply IH in H as [Hall (s & -> & Hsub & Hs)]. split.
  { intros r' [->|Hr']%elem_of_cons; [|by apply Hall]. split_and!; [|done|done].
    apply list_elem_of_fmap. by exists m. }
  exists s. split; [done|].
  destruct (bool_decide (gm_Role m = GroupRoleAdmin)) eqn:Hadm; bool_hyps; cbn [negb] in *.
  - split; [done|]. intros a. rewrite Hs. split; (intros [?|(r' & Hr' & Ha' & Hn)]; [by left|]).
    + right. exists r'. split_and!; [by right|done..].
    + apply elem_of_cons in Hr' as [->|Hr']; [congruence|]. right. by exists r'.
  - split; [etrans; [apply union_subseteq_r|exact Hsub]|]. intros a. rewrite Hs, elem_of_union, elem_of_singleton. split.
    + intros [[->|?]|(r' & Hr' & Ha' & Hn)]; [|by left|].
      * right. exists r. split_and!; [by left|done|congruence].
      * right. exists r'. split_and!; [by right|done..].
    + intros [?|(r' & Hr' & Ha' & Hn)]; [by left; right|].
      apply elem_of_cons in Hr' as [->|Hr']; [by left; left|]. right. by exists r'.
Qed.

Section sort_facts.
Context (ToLower : string -> string).

Lemma string_compare_refl s : String.compare s s = Eq.
Proof.
  destruct (String.compare s s) eqn:E; [done|..];
    pose proof (String.compare_antisym s s) as H; by rewrite E in H.
Qed.

Lemma string_compare_Gt s t : String.compare s t = Gt -> String.compare t s = Lt.
Proof. intros H. rewrite String.compare_antisym, H. done. Qed.

Lemma group_leb_total a b : group_leb ToLower a b = false -> group_leb ToLower b a = true.
Proof.
  assert (Hc : forall x y : string,
    match String.compare x y with
    | Lt => true | Gt => false | Eq => String.leb (grp_ID a) (grp_ID b) end = false ->
    match String.compare y x with
    | Lt => true | Gt => false | Eq => String.leb (grp_ID b) (grp_ID a) end = true).
  { intros x y. destruct (String.compare x y) eqn:C; [|done|].
    - apply String.compare_eq_iff in C as ->. rewrite string_compare_refl. apply string_leb_total.
    - apply string_compare_Gt in C. by rewrite C. }
  unfold group_leb.
  destruct (bool_decide (Title a = _)), (bool_decide (Title b = _)); cbn; auto.
Qed.

(** [SortGroups] returns the same groups, in order of lower-cased title and then ID with
    untitled groups last, and keeps the given order of groups that compare equal. *)
Theorem SortGroups_spec groups :
  SortGroups ToLower groups ≡ₚ groups
  /\ Sorted (fun a b => group_leb ToLower a b = true) (SortGroups ToLower groups)
  /\ forall title id,
       filter (fun g => Title g = title /\ grp_ID g = id) (SortGroups ToLower groups)
       = filter (fun g => Title g = title /\ grp_ID g = id) groups.
Proof.
  split_and!; [apply sort_by_perm|apply sort_by_sorted, group_leb_total|].
  intros title id. apply sort_by_stable. intros a b [Ha Ia] [Hb Ib].
  unfold group_leb. rewrite Ha, Hb, Ia, Ib, eqb_reflx.
  rewrite string_compare_refl.
  destruct (String.leb id id) eqn:E; [done|]. by rewrite (string_leb_total _ _ E) in E.
Qed.
End sort_facts.
