(* ===== verification/GroupMembers.v ===== *)
(** * Changing a group's people

    Pure functions on a group's state that prepare a membership change: removal
    (groups_remove.go), roles (groups_roles.go), bans (groups_bans.go), additions
    (groups_add.go) and the members of a new group (groups_create.go). All of them work on
    copies: the caller's group is an argument and stays as it is. *)

From S2P Require Import Prelude Errors Uuid Utf8 Types Groups.

(** [slices.DeleteFunc]. *)
Definition DeleteFunc {A} (f : A -> bool) (l : list A) : list A := filter (fun x => f x = false) l.

Definition with_ACI (r : Recipient) (aci : string) : Recipient := mkRecipient aci (PNI r) (Number r) (Username r).
Definition with_PNI (r : Recipient) (pni : string) : Recipient := mkRecipient (ACI r) pni (Number r) (Username r).

Section members.
Context {U : UuidLib}.

(** ** Normalising the arguments *)

(** One identity of a removal target: empty, or canonicalised. *)
Definition canonical_identity (value : string) : res string :=
  if value == ""%string then Ok value
  else let id := acceptIdentity value in
       if id == uuid_nil then Err (errorf ErrUnresolvable) else Ok (uuid_string id).

Definition canonical_target (member : Recipient) : res Recipient :=
  if (ACI member == ""%string) && (PNI member == ""%string) then Err (errorf ErrUnresolvable)
  else
    aci ← canonical_identity (ACI member);
    pni ← canonical_identity (PNI member);
    Ok (with_PNI (with_ACI member aci) pni).

Definition target_key (member : Recipient) : string := (ACI member ++ "|" ++ PNI member)%string.

(** The loop of [NormalizeGroupRemovalMembers] with its [seen] map. *)
Fixpoint normalize_removal (seen : gset string) (members : list Recipient) : res (list Recipient) :=
  match members with
  | [] => Ok []
  | m :: rest =>
      m' ← canonical_target m;
      if bool_decide (target_key m' ∈ seen) then normalize_removal seen rest
      else out ← normalize_removal ({[target_key m']} ∪ seen) rest; Ok (m' :: out)
  end.

Definition NormalizeGroupRemovalMembers (members : list Recipient) : res (list Recipient) :=
  if len members =? 0 then Err (errorf ErrInvalidGroupMember) else normalize_removal ∅ members.

(** [normalizeGroupMembers]: ACIs only, duplicates by UUID. *)
Fixpoint normalize_acis (seen : gset uuid) (members : list Recipient) : res (list Recipient) :=
  match members with
  | [] => Ok []
  | m :: rest =>
      match uuid_parse (ACI m) with
      | None => Err (errorf ErrUnresolvable)
      | Some aci =>
          if aci == uuid_nil then Err (errorf ErrUnresolvable)
          else if bool_decide (aci ∈ seen) then normalize_acis seen rest
          else out ← normalize_acis ({[aci]} ∪ seen) rest; Ok (with_ACI m (uuid_string aci) :: out)
      end
  end.

Definition normalizeGroupMembers (members : list Recipient) : res (list Recipient) :=
  if len members =? 0 then Err (errorf ErrInvalidGroupMember) else normalize_acis ∅ members.

Definition acis (members : list Recipient) : gset string := list_to_set (ACI <$> members).

(** ** Removal *)

Definition removalMatches (recipient : Recipient) (targets : list Recipient) : bool :=
  existsb (fun target => acceptSelfMatches recipient target) targets.

Definition removalMembershipTargets (g : Group) (member : Recipient) : list Recipient :=
  let (membership, _) := MembershipOf (with_Pending g []) (ACI member) in
  (if membership != MembershipNone then [ofACI (ACI member)] else [])
  ++ (pm_Recipient <$> filter (fun p => acceptSelfMatches (pm_Recipient p) member = true) (Pending g)).

Fixpoint collect_targets (g : Group) (self : Recipient) (members : list Recipient) : res (list Recipient) :=
  match members with
  | [] => Ok []
  | member :: rest =>
      if acceptSelfMatches (ofACI (ACI member)) self || acceptSelfMatches (ofPNI (PNI member)) self
      then Err (errorf ErrInvalidGroupMember)
      else
        let matched := removalMembershipTargets g member in
        if len matched =? 0 then Err (errorf ErrInvalidGroupMember)
        else targets ← collect_targets g self rest; Ok (matched ++ targets)
  end.

Definition removalTargets (g : Group) (self : Recipient) (members : list Recipient) : res (list Recipient) :=
  members ← NormalizeGroupRemovalMembers members;
  let (membership, role) := MembershipOf g (ACI self) in
  if membership != MembershipMember then Err (Sent ErrNotAMember)
  else if role != GroupRoleAdmin then Err (errorf ErrGroupPermission)
  else targets ← collect_targets g self members; NormalizeGroupRemovalMembers targets.

Definition withRemovedTargets (g : Group) (targets : list Recipient) : Group :=
  with_people g
    (DeleteFunc (fun m => removalMatches (ofACI (ACI (gm_Recipient m))) targets) (Members g))
    (DeleteFunc (fun p => removalMatches (pm_Recipient p) targets) (Pending g))
    (DeleteFunc (fun r => removalMatches (ofACI (ACI (rm_Recipient r))) targets) (Requesting g))
    (Banned g).

Definition WithRemovedMembersAs (g : Group) (self : Recipient) (members : list Recipient) : res Group :=
  targets ← removalTargets g self members; Ok (withRemovedTargets g targets).

Definition WithRemovedMembers (g : Group) (self : string) (members : list Recipient) : res Group :=
  WithRemovedMembersAs g (ofACI self) members.

(** ** Roles *)

Definition NormalizeGroupRoleMembers (members : list Recipient) (role : GroupRole) : res (list Recipient) :=
  if (role != GroupRoleAdmin) && (role != GroupRoleMember) then Err (errorf ErrInvalidGroupMember)
  else normalizeGroupMembers members.

Fixpoint check_full_members (g : Group) (members : list Recipient) : error :=
  match members with
  | [] => None
  | member :: rest =>
      if (MembershipOf g (ACI member)).1 != MembershipMember then Some (errorf ErrInvalidGroupMember)
      else check_full_members g rest
  end.

Definition memberRoleTargets (g : Group) (self : string) (members : list Recipient) : res (gset string) :=
  let (membership, ownRole) := MembershipOf g self in
  if membership != MembershipMember then Err (Sent ErrNotAMember)
  else if ownRole != GroupRoleAdmin then Err (errorf ErrGroupPermission)
  else check_then (check_full_members g members) (Ok (acis members)).

Definition with_role (m : GroupMember) (role : GroupRole) : GroupMember :=
  mkMember (gm_Recipient m) role (JoinedAtRevision m).

(** The members whose role the loop changes. *)
Definition role_changes (targets : gset string) (role : GroupRole) (m : GroupMember) : bool :=
  bool_decide (ACI (gm_Recipient m) ∈ targets) && (gm_Role m != role).

Definition set_roles (targets : gset string) (role : GroupRole) (ms : list GroupMember) : list GroupMember :=
  (fun m => if role_changes targets role m then with_role m role else m) <$> ms.

(** Increment the revision if something changed; the last revision cannot. *)
Definition bump (changed : bool) (g next : Group) : res Group :=
  if changed then
    if Revision g =? MaxUint32 then Err (errorf ErrUnknownGroup)
    else Ok (with_Revision next (Revision next + 1))
  else Ok next.

Definition WithMemberRole (g : Group) (self : string) (members : list Recipient) (role : GroupRole) : res Group :=
  members ← NormalizeGroupRoleMembers members role;
  targets ← memberRoleTargets g self members;
  let next := with_Members g (set_roles targets role (Members g)) in
  let changed := existsb (role_changes targets role) (Members g) in
  if Admins next =? 0 then Err (Sent ErrLastAdmin)
  else next ← bump changed g next; Ok (with_own next (MembershipOf next self)).

(** ** Bans *)

Fixpoint check_not_self (self : string) (members : list Recipient) : error :=
  match members with
  | [] => None
  | member :: rest =>
      if ACI member == self then Some (errorf ErrInvalidGroupMember) else check_not_self self rest
  end.

Definition banTargets (g : Group) (self : string) (members : list Recipient) : res (gset string) :=
  let (membership, role) := MembershipOf g self in
  if membership != MembershipMember then Err (Sent ErrNotAMember)
  else if role != GroupRoleAdmin then Err (errorf ErrGroupPermission)
  else check_then (check_not_self self members) (Ok (acis members)).

Definition removeBannedTargets (g : Group) (targets : gset string) : Group :=
  with_people g
    (DeleteFunc (fun m => bool_decide (ACI (gm_Recipient m) ∈ targets)) (Members g))
    (DeleteFunc (fun p => (ACI (pm_Recipient p) != ""%string)
                          && bool_decide (ACI (pm_Recipient p) ∈ targets)) (Pending g))
    (DeleteFunc (fun r => bool_decide (ACI (rm_Recipient r) ∈ targets)) (Requesting g))
    (Banned g).

Definition banMembershipChanged (g next : Group) : bool :=
  negb (len (Members next) =? len (Members g)) || negb (len (Pending next) =? len (Pending g))
  || negb (len (Requesting next) =? len (Requesting g)) || negb (len (Banned next) =? len (Banned g)).

Definition with_Banned (g : Group) (bs : list BannedMember) : Group :=
  with_people g (Members g) (Pending g) (Requesting g) bs.

Definition WithBannedMembers (g : Group) (self : string) (members : list Recipient) (banned : bool)
    (bannedAt : time) : res Group :=
  members ← normalizeGroupMembers members;
  targets ← banTargets g self members;
  let next :=
    if banned then
      with_Banned (removeBannedTargets g targets)
        (Banned g ++ ((fun member => mkBanned member bannedAt)
                      <$> filter (fun member => bannedACI g (ACI member) = false) members))
    else
      with_Banned g (DeleteFunc (fun m => (ACI (bm_Recipient m) != ""%string)
                                          && bool_decide (ACI (bm_Recipient m) ∈ targets)) (Banned g)) in
  next ← bump (banMembershipChanged g next) g next;
  Ok (with_own next (MembershipOf next self)).

(** ** Additions *)

Fixpoint add_targets (g : Group) (role : GroupRole) (members : list Recipient) : res (list Recipient) :=
  match members with
  | [] => Ok []
  | member :: rest =>
      match (MembershipOf g (ACI member)).1 with
      | MembershipMember | MembershipPending => add_targets g role rest
      | MembershipRequesting =>
          if role != GroupRoleAdmin then Err (errorf ErrGroupPermission)
          else out ← add_targets g role rest; Ok (member :: out)
      | MembershipNone => out ← add_targets g role rest; Ok (member :: out)
      end
  end.

Definition checkedBannedAddTargets (g : Group) (targets : list Recipient) : res (list Recipient) :=
  if existsb (fun member => bannedACI g (ACI member)) targets then Err (errorf ErrInvalidGroupMember)
  else Ok targets.

Definition CheckAddMembers (g : Group) (self : string) (members : list Recipient) : res (list Recipient) :=
  members ← normalizeGroupMembers members;
  let (membership, role) := MembershipOf g self in
  if membership != MembershipMember then Err (Sent ErrNotAMember)
  else if (role != GroupRoleAdmin) && negb (MembersCanAddMembers g) then Err (errorf ErrGroupPermission)
  else targets ← add_targets g role members; checkedBannedAddTargets g targets.

(** ** A new group (groups_create.go) *)

Fixpoint check_create_members (members : list Recipient) : error :=
  match members with
  | [] => None
  | member :: rest =>
      match uuid_parse (ACI member) with
      | None => Some (errorf ErrUnresolvable)
      | Some id => if id == uuid_nil then Some (errorf ErrUnresolvable) else check_create_members rest
      end
  end.

Definition CreateGroupOptions_Check (title : string) (members : list Recipient) : error :=
  ValidateGroupTitle title ;! check_create_members members.

(** [UniqueMembers]; [None] is the panic of [uuid.MustParse] on an invalid ACI. *)
Fixpoint unique_members (seen : gset uuid) (members : list Recipient) : option (list Recipient) :=
  match members with
  | [] => Some []
  | member :: rest =>
      id ← uuid_parse (ACI member);
      if bool_decide (id ∈ seen) then unique_members seen rest
      else out ← unique_members ({[id]} ∪ seen) rest; Some (with_ACI member (uuid_string id) :: out)
  end.

Definition UniqueMembers (members : list Recipient) (self : string) : option (list Recipient) :=
  own ← uuid_parse self; unique_members {[own]} members.
End members.

(** ** Identities *)

Section facts.
Context {U : UuidLib} {UL : UuidLaws U}.

Lemma acceptIdentity_string u : acceptIdentity (uuid_string u) = u.
Proof. unfold acceptIdentity. by rewrite uuid_parse_string. Qed.

Lemma acceptIdentity_empty : acceptIdentity "" = uuid_nil.
Proof. unfold acceptIdentity. by rewrite uuid_parse_empty. Qed.

(** An identity string as the code canonicalises it: empty or the text of a nonzero UUID. *)
Definition canonical_id (s : string) : Prop := s = ""%string \/ exists u, u <> uuid_nil /\ s = uuid_string u.

Lemma canonical_identity_Ok v s :
  canonical_identity v = Ok s <->
  (v = ""%string /\ s = ""%string)
  \/ (v <> ""%string /\ acceptIdentity v <> uuid_nil /\ s = uuid_string (acceptIdentity v)).
Proof.
  unfold canonical_identity. case_bool_decide as Hv; [|case_bool_decide as Hn].
  - subst. split; [intros [= <-]; by left|]. by intros [[_ ->]|[? _]].
  - split; [done|]. by intros [[? _]|(_ & ? & _)].
  - split; [intros [= <-]; by right|]. intros [[? _]|(_ & _ & ->)]; done.
Qed.

Lemma canonical_identity_canonical v s :
  canonical_identity v = Ok s ->
  canonical_id s /\ canonical_identity s = Ok s /\ acceptIdentity s = acceptIdentity v
  /\ (s = ""%string <-> v = ""%string).
Proof.
  intros [[-> ->]|(Hv & Hn & ->)]%canonical_identity_Ok.
  - split; [by left|]. by rewrite canonical_identity_Ok; auto.
  - pose proof (uuid_string_nonempty (acceptIdentity v)) as Hne. split_and!.
    + right. by exists (acceptIdentity v).
    + apply canonical_identity_Ok. right. rewrite acceptIdentity_string. auto.
    + apply acceptIdentity_string.
    + naive_solver.
Qed.

(** Equal identity strings of canonical recipients are equal identities. *)
Lemma canonical_id_inj s t :
  canonical_id s -> canonical_id t -> acceptIdentity s = acceptIdentity t -> s = t.
Proof.
  intros [->|(u & Hu & ->)] [->|(v & Hv & ->)]; rewrite ?acceptIdentity_empty, ?acceptIdentity_string;
    intros; congruence.
Qed.

(** A removal target names at least one identity and is canonical. *)
Definition canonical_member (m : Recipient) : Prop :=
  canonical_id (ACI m) /\ canonical_id (PNI m) /\ (ACI m <> ""%string \/ PNI m <> ""%string).

(** [t] is [m] with canonical identities. *)
Definition canonical_of (m t : Recipient) : Prop :=
  canonical_member t /\ acceptIdentity (ACI t) = acceptIdentity (ACI m)
  /\ acceptIdentity (PNI t) = acceptIdentity (PNI m)
  /\ (ACI t = ""%string <-> ACI m = ""%string) /\ (PNI t = ""%string <-> PNI m = ""%string).

Lemma with_ids m : with_PNI (with_ACI m (ACI m)) (PNI m) = m.
Proof. by destruct m. Qed.

Lemma canonical_target_Ok m t :
  canonical_target m = Ok t -> canonical_of m t /\ canonical_target t = Ok t.
Proof.
  unfold canonical_target. destruct (bool_decide _ && _) eqn:Hz; [done|].
  rewrite bind_Ok. intros (a & Ha & Hp). apply bind_Ok in Hp as (p & Hp & [= <-]).
  apply canonical_identity_canonical in Ha as (Ca & Ia & Ea & Na).
  apply canonical_identity_canonical in Hp as (Cp & Ip & Ep & Np).
  assert (Hne : a <> ""%string \/ p <> ""%string).
  { rewrite Na, Np. apply andb_false_iff in Hz as [Hz|Hz]; bool_hyps; auto. }
  split; [split_and!; cbn; done || by split_and!|]. cbn.
  replace (bool_decide (a = ""%string) && bool_decide (p = ""%string)) with false.
  - by rewrite Ia, Ip.
  - symmetry. apply andb_false_iff. rewrite !bool_decide_eq_false. done.
Qed.

Lemma canonical_target_id t : canonical_member t -> canonical_target t = Ok t.
Proof.
  intros (Ca & Cp & Hne). unfold canonical_target.
  replace (bool_decide (ACI t = ""%string) && bool_decide (PNI t = ""%string)) with false.
  2: { symmetry. apply andb_false_iff. rewrite !bool_decide_eq_false. tauto. }
  assert (Hi : forall s, canonical_id s -> canonical_identity s = Ok s).
  { intros s [->|(u & Hu & ->)]; apply canonical_identity_Ok; [by left|right].
    rewrite acceptIdentity_string. auto using uuid_string_nonempty. }
  cbn. rewrite (Hi _ Ca). cbn. rewrite (Hi _ Cp). cbn. by rewrite with_ids.
Qed.

(** The deduplication key tells canonical targets apart. *)
Lemma bar_split s t p q :
  string_chars uuid_char s = true -> string_chars uuid_char t = true ->
  (s ++ "|" ++ p)%string = (t ++ "|" ++ q)%string -> s = t /\ p = q.
Proof.
  revert t. induction s as [|a s IH]; intros [|b t]; rewrite ?string_app_nil, ?string_app_cons; cbn;
    rewrite ?andb_true_iff.
  - intros _ _ H. split; [done|]. by injection H.
  - intros _ [Hb _] H. injection H as <- _. by cbn in Hb.
  - intros [Ha _] _ H. injection H as -> _. by cbn in Ha.
  - intros [_ Hs] [_ Ht] H. injection H as -> H. destruct (IH t Hs Ht) as [-> ->]; [|done].
    by rewrite !string_app_cons, !string_app_nil.
Qed.

Lemma target_key_inj s t :
  canonical_member s -> canonical_member t -> target_key s = target_key t ->
  ACI s = ACI t /\ PNI s = PNI t.
Proof.
  intros (Cs & _) (Ct & _). unfold target_key.
  assert (Hc : forall x, canonical_id x -> string_chars uuid_char x = true).
  { intros x [->|(u & _ & ->)]; [done|apply uuid_string_chars]. }
  intros H. apply bar_split in H; auto.
Qed.
End facts.

(** ** Normalised targets *)

Section normalize.
Context {U : UuidLib} {UL : UuidLaws U}.

Lemma normalize_removal_Ok seen ms out :
  normalize_removal seen ms = Ok out ->
  NoDup (target_key <$> out)
  /\ (forall t, t ∈ out -> target_key t ∉ seen /\ canonical_member t /\ exists m, m ∈ ms /\ canonical_of m t)
  /\ (forall m, m ∈ ms -> exists t, canonical_of m t
        /\ (target_key t ∈ seen \/ target_key t ∈ target_key <$> out)).
Proof.
  revert seen out. induction ms as [|m ms IH]; intros seen out; cbn [normalize_removal].
  { intros [= <-]. split_and!; [constructor|by intros ? ?%elem_of_nil..]. }
  rewrite bind_Ok. intros (t & [Ht _]%canonical_target_Ok & H). pose proof Ht as (Hc & _).
  destruct (bool_decide (target_key t ∈ seen)) eqn:Hs; bool_hyps.
  - apply IH in H as (Hn & Ho & Hm). split_and!; [done|..].
    + intros t' (? & ? & x & Hx & ?)%Ho. split_and!; [done..|]. exists x. split; [by right|done].
    + intros x [->|Hx]%elem_of_cons; [|by apply Hm]. exists t. auto.
  - apply bind_Ok in H as (out' & H & [= <-]). apply IH in H as (Hn & Ho & Hm). split_and!.
    + cbn. constructor; [|done]. intros (t' & E & Ht')%list_elem_of_fmap.
      apply Ho in Ht' as [Hf _]. rewrite E in Hf. apply Hf, elem_of_union_l, elem_of_singleton. done.
    + intros t' [->|Ht']%elem_of_cons.
      * split_and!; [done..|]. exists m. split; [by left|done].
      * apply Ho in Ht' as (Hf & ? & x & Hx & ?). split_and!; [|done|].
        -- intros ?. apply Hf. by apply elem_of_union_r.
        -- exists x. split; [by right|done].
    + intros x [->|Hx]%elem_of_cons.
      * exists t. split; [done|]. right. by left.
      * apply Hm in Hx as (t' & ? & [[E%elem_of_singleton|?]%elem_of_union|?]); exists t'; (split; [done|]).
        -- right. rewrite E. by left.
        -- by left.
        -- right. by right.
Qed.

Lemma normalize_removal_id seen out :
  NoDup (target_key <$> out) -> (forall t, t ∈ out -> target_key t ∉ seen /\ canonical_member t) ->
  normalize_removal seen out = Ok out.
Proof.
  revert seen. induction out as [|t out IH]; intros seen Hn Ho; cbn [normalize_removal]; [done|].
  destruct (Ho t (list_elem_of_here _ _)) as [Hs Hc]. rewrite (canonical_target_id _ Hc). cbn.
  rewrite (bool_decide_eq_false_2 _ Hs). cbn in Hn. apply NoDup_cons in Hn as [Ht Hn]. rewrite IH; [done|done|].
  intros x Hx. destruct (Ho x) as [? ?]; [by right|]. split; [|done].
  intros [E%elem_of_singleton|?]%elem_of_union; [|done]. apply Ht. rewrite <- E.
  apply list_elem_of_fmap. eauto.
Qed.

(** Every result is the canonical form of a request, and every request has a result. *)
Lemma normalize_covers ms out :
  normalize_removal ∅ ms = Ok out ->
  (forall t, t ∈ out -> exists m, m ∈ ms /\ canonical_of m t)
  /\ (forall m, m ∈ ms -> exists t, t ∈ out /\ canonical_of m t).
Proof.
  intros (Hn & Ho & Hm)%normalize_removal_Ok. split; [by intros t (_ & _ & ?)%Ho|].
  intros m (t & Ht & [?%elem_of_empty|(t' & E & Ht')%list_elem_of_fmap])%Hm; [done|].
  exists t'. split; [done|]. apply Ho in Ht' as (_ & Hc' & _). destruct Ht as (Hc & Ht).
  destruct (target_key_inj t t') as [Ea Ep]; [done..|]. split; [done|]. rewrite <- Ea, <- Ep. done.
Qed.

(** Normalising removal targets keeps every requested person exactly once: each result is
    the canonical form of a request, no two results are the same person, every request is
    represented, and normalising the result again changes nothing. *)
Theorem NormalizeGroupRemovalMembers_spec ms out :
  NormalizeGroupRemovalMembers ms = Ok out ->
  NoDup ((fun t => (ACI t, PNI t)) <$> out)
  /\ (forall t, t ∈ out -> exists m, m ∈ ms /\ canonical_of m t)
  /\ (forall m, m ∈ ms -> exists t, t ∈ out /\ canonical_of m t)
  /\ NormalizeGroupRemovalMembers out = Ok out.
Proof.
  unfold NormalizeGroupRemovalMembers. destruct (len ms =? 0) eqn:Hl; [done|]. bool_hyps.
  intros H. pose proof (normalize_covers _ _ H) as [_ Hr].
  apply normalize_removal_Ok in H as (Hn & Ho & Hm).
  split_and!; [| |exact Hr|].
  - apply (NoDup_fmap_1 (fun p => (p.1 ++ "|" ++ p.2)%string)). by rewrite <- list_fmap_compose.
  - intros t (_ & _ & ?)%Ho. done.
  - replace (len out =? 0) with false.
    + apply normalize_removal_id; [done|]. intros t (? & ? & _)%Ho. split; [|done]. apply not_elem_of_empty.
    + symmetry. apply Z.eqb_neq. intros ->%len_zero. destruct ms as [|m ms]; [done|].
      destruct (Hr m) as (t & ?%elem_of_nil & _); [by left|done].
Qed.
End normalize.

(** ** Matching identities *)

Section matching.
Context {U : UuidLib} {UL : UuidLaws U}.

Lemma acceptSelfMatches_spec r t :
  acceptSelfMatches r t = true <->
  (ACI r <> ""%string /\ PNI r = ""%string /\ acceptIdentity (ACI t) <> uuid_nil
     /\ acceptIdentity (ACI r) = acceptIdentity (ACI t))
  \/ (PNI r <> ""%string /\ ACI r = ""%string /\ acceptIdentity (PNI t) <> uuid_nil
     /\ acceptIdentity (PNI r) = acceptIdentity (PNI t)).
Proof.
  unfold acceptSelfMatches.
  destruct (decide (ACI r = ""%string)) as [Ea|Ea], (decide (PNI r = ""%string)) as [Ep|Ep];
    rewrite ?(bool_decide_eq_true_2 _ Ea), ?(bool_decide_eq_true_2 _ Ep),
      ?(bool_decide_eq_false_2 _ Ea), ?(bool_decide_eq_false_2 _ Ep); cbn.
  - naive_solver.
  - rewrite andb_true_iff, negb_true_iff, bool_decide_eq_false, bool_decide_eq_true. naive_solver.
  - rewrite andb_true_iff, negb_true_iff, bool_decide_eq_false, bool_decide_eq_true. naive_solver.
  - naive_solver.
Qed.

(** Only the second argument's parsed identities matter. *)
Lemma acceptSelfMatches_ext r t t' :
  acceptIdentity (ACI t) = acceptIdentity (ACI t') -> acceptIdentity (PNI t) = acceptIdentity (PNI t') ->
  acceptSelfMatches r t = acceptSelfMatches r t'.
Proof. intros Ha Hp. unfold acceptSelfMatches. by rewrite Ha, Hp. Qed.

Lemma acceptSelfMatches_trans r t m :
  acceptSelfMatches r t = true -> acceptSelfMatches t m = true -> acceptSelfMatches r m = true.
Proof.
  rewrite !acceptSelfMatches_spec.
  intros [(? & ? & Hn & E)|(? & ? & Hn & E)] [(? & Et & ? & E')|(? & Et & ? & E')].
  - left. split_and!; congruence.
  - rewrite Et, acceptIdentity_empty in Hn. done.
  - rewrite Et, acceptIdentity_empty in Hn. done.
  - right. split_and!; congruence.
Qed.

Lemma acceptSelfMatches_refl r m : acceptSelfMatches r m = true -> acceptSelfMatches r r = true.
Proof.
  rewrite !acceptSelfMatches_spec. intros [(? & ? & ? & ?)|(? & ? & ? & ?)]; [left|right]; split_and!; congruence.
Qed.

Lemma acceptSelfMatches_ofACI a m :
  acceptSelfMatches (ofACI a) m = true <->
  acceptIdentity (ACI m) <> uuid_nil /\ acceptIdentity a = acceptIdentity (ACI m).
Proof.
  rewrite acceptSelfMatches_spec. cbn. split; [naive_solver|]. intros [Hn E]. left. split_and!; try done.
  intros ->. by rewrite acceptIdentity_empty in E.
Qed.

(** [r] is one of the people [ms] asks for. *)
Definition requested (ms : list Recipient) (r : Recipient) : bool :=
  existsb (fun m => acceptSelfMatches r m) ms.

Lemma requested_spec ms r : requested ms r = true <-> exists m, m ∈ ms /\ acceptSelfMatches r m = true.
Proof.
  unfold requested. rewrite existsb_exists. split; intros (m & Hm & ?); exists m;
    (split; [by apply list_elem_of_In|done]).
Qed.

Lemma removalMatches_requested r ts : removalMatches r ts = requested ts r.
Proof. done. Qed.

(** Normalising targets does not change whom they match. *)
Lemma requested_canonical ms out r :
  (forall t, t ∈ out -> exists m, m ∈ ms /\ canonical_of m t) ->
  (forall m, m ∈ ms -> exists t, t ∈ out /\ canonical_of m t) ->
  requested out r = requested ms r.
Proof.
  intros Ho Hm. apply eq_true_iff_eq. rewrite !requested_spec. split.
  - intros (t & (m & Hin & _ & Ea & Ep & _)%Ho & Ht). exists m. split; [done|].
    by rewrite <- (acceptSelfMatches_ext r t m).
  - intros (m & (t & Hin & _ & Ea & Ep & _)%Hm & Ht). exists t. split; [done|].
    by rewrite (acceptSelfMatches_ext r t m).
Qed.
End matching.

(** ** Removal *)

(** The identity strings the facade builds: a UUID's text, or nothing. *)
Definition text_id `{U : UuidLib} (s : string) : Prop := s = ""%string \/ exists u, s = uuid_string u.

(** A group as [convertGroup] builds it: the full and requesting members have canonical ACIs. *)
Definition canonical_group `{U : UuidLib} (g : Group) : Prop :=
  (forall m, m ∈ Members g -> text_id (ACI (gm_Recipient m)))
  /\ (forall r, r ∈ Requesting g -> text_id (ACI (rm_Recipient r))).

Lemma DeleteFunc_elem {A} (f : A -> bool) l x : x ∈ DeleteFunc f l <-> x ∈ l /\ f x = false.
Proof. unfold DeleteFunc. rewrite list_elem_of_filter. tauto. Qed.

Lemma DeleteFunc_ext {A} (f g : A -> bool) l : (forall x, x ∈ l -> f x = g x) -> DeleteFunc f l = DeleteFunc g l.
Proof.
  intros H. unfold DeleteFunc. induction l as [|x l IH]; [done|]. rewrite !filter_cons, H by (by left).
  rewrite IH; [done|]. intros y Hy. apply H. by right.
Qed.

Lemma find_first_DeleteFunc {A} (f keep : A -> bool) l :
  (forall x, x ∈ l -> f x = true -> keep x = false) -> find_first f (DeleteFunc keep l) = find_first f l.
Proof.
  induction l as [|x l IH]; intros H; [done|]. unfold DeleteFunc in *. rewrite filter_cons. cbn.
  assert (IH' : find_first f (filter (fun y => keep y = false) l) = find_first f l).
  { apply IH. intros y Hy. apply H. by right. }
  destruct (f x) eqn:Hf.
  - rewrite decide_True by (apply H; [by left|done]). cbn. by rewrite Hf.
  - case_decide; cbn; by rewrite ?Hf.
Qed.

Section removal.
Context {U : UuidLib} {UL : UuidLaws U}.

Lemma text_canonical_inj s t :
  text_id s -> canonical_id t -> acceptIdentity t <> uuid_nil -> acceptIdentity s = acceptIdentity t -> s = t.
Proof.
  intros [->|(u & ->)] Ht Hn E.
  - by rewrite acceptIdentity_empty in E.
  - apply canonical_id_inj; [|done|done]. right. exists u. split; [|done].
    rewrite acceptIdentity_string in E. congruence.
Qed.

Lemma removalMembershipTargets_elem g m t :
  t ∈ removalMembershipTargets g m <->
  ((MembershipOf (with_Pending g []) (ACI m)).1 <> MembershipNone /\ t = ofACI (ACI m))
  \/ (exists p, p ∈ Pending g /\ t = pm_Recipient p /\ acceptSelfMatches t m = true).
Proof.
  unfold removalMembershipTargets. destruct (MembershipOf _ _) as [ms role]. cbn.
  rewrite elem_of_app. f_equiv.
  - destruct (bool_decide (ms = MembershipNone)) eqn:E; bool_hyps; cbn.
    + rewrite elem_of_nil. naive_solver.
    + rewrite list_elem_of_singleton. naive_solver.
  - rewrite list_elem_of_fmap. split.
    + intros (p & -> & [? ?]%list_elem_of_filter). eauto.
    + intros (p & ? & -> & ?). exists p. split; [done|]. by apply list_elem_of_filter.
Qed.

Lemma collect_targets_Ok g self ms ts :
  collect_targets g self ms = Ok ts ->
  (forall t, t ∈ ts <-> exists m, m ∈ ms /\ t ∈ removalMembershipTargets g m)
  /\ forall m, m ∈ ms ->
       acceptSelfMatches (ofACI (ACI m)) self = false /\ acceptSelfMatches (ofPNI (PNI m)) self = false
       /\ exists t, t ∈ removalMembershipTargets g m.
Proof.
  revert ts. induction ms as [|m ms IH]; intros ts; cbn [collect_targets].
  { intros [= <-]. split; [|by intros ? ?%elem_of_nil]. intros t. split; [by intros ?%elem_of_nil|].
    by intros (? & ?%elem_of_nil & _). }
  destruct (acceptSelfMatches (ofACI _) self || _) eqn:Hs; [done|]. apply orb_false_iff in Hs as [Ha Hp].
  destruct (len _ =? 0) eqn:Hl; [done|]. bool_hyps. rewrite bind_Ok. intros (ts' & H & [= <-]).
  apply IH in H as [Ht Hm]. split.
  - intros t. rewrite elem_of_app, Ht. split.
    + intros [?|(x & ? & ?)]; [exists m|exists x]; (split; [|done]); [by left|by right].
    + intros (x & [->|Hx]%elem_of_cons & ?); [by left|]. right. by exists x.
  - intros x [->|Hx]%elem_of_cons; [|by apply Hm]. split_and!; [done..|].
    destruct (removalMembershipTargets g m) as [|t l]; [done|]. exists t. by left.
Qed.

(** Whom the collected targets match: exactly those that were asked for. *)
Lemma targets_sound g ms r :
  (exists m t, m ∈ ms /\ t ∈ removalMembershipTargets g m /\ acceptSelfMatches r t = true) ->
  requested ms r = true.
Proof.
  intros (m & t & Hm & Ht & Hr). apply requested_spec. exists m. split; [done|].
  apply removalMembershipTargets_elem in Ht as [[_ ->]|(p & _ & _ & Htm)].
  - revert Hr. rewrite !acceptSelfMatches_spec. cbn. rewrite acceptIdentity_empty. naive_solver.
  - by eapply acceptSelfMatches_trans.
Qed.

Lemma targets_complete_pending g ms p :
  p ∈ Pending g -> requested ms (pm_Recipient p) = true ->
  exists m t, m ∈ ms /\ t ∈ removalMembershipTargets g m /\ acceptSelfMatches (pm_Recipient p) t = true.
Proof.
  intros Hp (m & Hm & Ht)%requested_spec. exists m, (pm_Recipient p). split_and!; [done| |].
  - apply removalMembershipTargets_elem. right. eauto.
  - by eapply acceptSelfMatches_refl.
Qed.

Lemma targets_complete_aci g ms a :
  (forall m, m ∈ ms -> canonical_member m) ->
  text_id a -> a ∈ member_acis g \/ a ∈ (fun r => ACI (rm_Recipient r)) <$> Requesting g ->
  requested ms (ofACI a) = true ->
  exists m t, m ∈ ms /\ t ∈ removalMembershipTargets g m /\ acceptSelfMatches (ofACI a) t = true.
Proof.
  intros Hc Ha Hin (m & Hm & Ht)%requested_spec. exists m, (ofACI (ACI m)).
  pose proof Ht as [Hn E]%acceptSelfMatches_ofACI.
  destruct (Hc m Hm) as (Cm & _).
  pose proof (text_canonical_inj a (ACI m) Ha Cm Hn E) as Eq. split_and!; [done| |].
  - apply removalMembershipTargets_elem. left. split; [|done]. rewrite <- Eq.
    rewrite MembershipOf_none.
    + intros (H1 & _ & H2). destruct Hin as [?|(r & -> & Hr)%list_elem_of_fmap]; [done|].
      by apply (H2 r).
    + intros ->. rewrite acceptIdentity_empty in E. congruence.
  - apply acceptSelfMatches_ofACI. done.
Qed.
End removal.

Section removal_spec.
Context {U : UuidLib} {UL : UuidLaws U}.

(** What [removalTargets] returns, put together from its two normalisations. *)
Lemma removalTargets_Ok g self ms ts :
  removalTargets g self ms = Ok ts ->
  MembershipOf g (ACI self) = (MembershipMember, GroupRoleAdmin) /\
  exists ms', (forall t, t ∈ ms' -> canonical_member t) /\ (forall r, requested ms' r = requested ms r)
    /\ (forall m, m ∈ ms' -> acceptSelfMatches (ofACI (ACI m)) self = false)
    /\ forall r, removalMatches r ts = true <->
         exists m t, m ∈ ms' /\ t ∈ removalMembershipTargets g m /\ acceptSelfMatches r t = true.
Proof.
  unfold removalTargets. rewrite bind_Ok. intros (ms' & Hms & H).
  destruct (MembershipOf g (ACI self)) as [membership role].
  destruct (bool_decide (membership = _)) eqn:Em; [cbn in H|done]. bool_hyps. subst.
  destruct (bool_decide (role = _)) eqn:Er; [cbn in H|done]. bool_hyps. subst.
  split; [done|]. apply bind_Ok in H as (ts' & Hc & Hn).
  apply collect_targets_Ok in Hc as [Hts Hself].
  unfold NormalizeGroupRemovalMembers in Hms, Hn.
  destruct (len ms =? 0); [done|]. destruct (len ts' =? 0); [done|].
  pose proof (normalize_covers _ _ Hms) as [H1 H2]. pose proof (normalize_covers _ _ Hn) as [H3 H4].
  exists ms'. split_and!.
  - intros t (m & _ & Ht & _)%H1. done.
  - intros r. by apply requested_canonical.
  - intros m Hm. apply (Hself m Hm).
  - intros r. rewrite removalMatches_requested, (requested_canonical ts' ts r) by done.
    rewrite requested_spec. split.
    + intros (t & (m & Hm & Ht)%Hts & Hr). eauto.
    + intros (m & t & Hm & Ht & Hr). exists t. split; [apply Hts; eauto|done].
Qed.

(** C38. Removing members of a canonical group removes exactly the people asked for (by ACI
    from the members and requests, by either identity from the invitations), changes
    nothing else, and only an administrator who stays one can do it. *)
Theorem WithRemovedMembersAs_spec g self ms g' :
  canonical_group g ->
  WithRemovedMembersAs g self ms = Ok g' ->
  g' = with_people g
         (DeleteFunc (fun m => requested ms (ofACI (ACI (gm_Recipient m)))) (Members g))
         (DeleteFunc (fun p => requested ms (pm_Recipient p)) (Pending g))
         (DeleteFunc (fun r => requested ms (ofACI (ACI (rm_Recipient r)))) (Requesting g))
         (Banned g)
  /\ MembershipOf g (ACI self) = (MembershipMember, GroupRoleAdmin)
  /\ MembershipOf g' (ACI self) = (MembershipMember, GroupRoleAdmin).
Proof.
  intros [Cm Cr]. unfold WithRemovedMembersAs. rewrite bind_Ok. intros (ts & Hts & [= <-]).
  apply removalTargets_Ok in Hts as (Hself & ms' & Hcan & Hreq & Hown & Hmatch).
  assert (Haci : forall a, text_id a ->
      a ∈ member_acis g \/ a ∈ (fun r => ACI (rm_Recipient r)) <$> Requesting g ->
      removalMatches (ofACI a) ts = requested ms (ofACI a)).
  { intros a Ha Hin. rewrite <- Hreq. apply eq_true_iff_eq. rewrite Hmatch.
    split; [apply targets_sound|by apply targets_complete_aci]. }
  assert (Hm : forall m, m ∈ Members g -> removalMatches (ofACI (ACI (gm_Recipient m))) ts
               = requested ms (ofACI (ACI (gm_Recipient m)))).
  { intros m Hm. apply Haci; [by apply Cm|]. left. apply list_elem_of_fmap. by exists m. }
  split_and!; [|done|].
  - unfold withRemovedTargets. f_equal; apply DeleteFunc_ext.
    + exact Hm.
    + intros p Hp. rewrite <- Hreq. apply eq_true_iff_eq. rewrite Hmatch.
      split; [apply targets_sound|by apply targets_complete_pending].
    + intros r Hr. apply Haci; [by apply Cr|]. right. apply list_elem_of_fmap. by exists r.
  - assert (Hkeep : forall m, m ∈ Members g -> bool_decide (ACI (gm_Recipient m) = ACI self) = true ->
              removalMatches (ofACI (ACI (gm_Recipient m))) ts = false).
    { intros m Hin E%bool_decide_eq_true_1. rewrite (Hm m Hin), E, <- Hreq. apply not_true_iff_false.
      intros (x & Hx & [Hn He]%acceptSelfMatches_ofACI)%requested_spec.
      pose proof (Hown x Hx) as Hno. apply not_true_iff_false in Hno. apply Hno, acceptSelfMatches_ofACI.
      split; congruence. }
    pose proof Hself as (Hne & m0 & Hm0 & Ha0 & _)%MembershipOf_member.
    revert Hself. unfold MembershipOf. rewrite (bool_decide_eq_false_2 _ Hne).
    cbn. rewrite find_first_DeleteFunc by exact Hkeep.
    destruct (find_first _ (Members g)) eqn:E; [done|].
    rewrite find_first_None in E. apply E in Hm0. by apply bool_decide_eq_false_1 in Hm0.
Qed.
End removal_spec.

(** ** Roles *)

Section acis.
Context {U : UuidLib} {UL : UuidLaws U}.

(** One of [ms] names the ACI [aci], in whatever spelling of the UUID. *)
Definition names (ms : list Recipient) (aci : string) : bool :=
  existsb (fun m => uuid_string (acceptIdentity (ACI m)) == aci) ms.

Lemma names_spec ms aci :
  names ms aci = true <-> exists m, m ∈ ms /\ uuid_string (acceptIdentity (ACI m)) = aci.
Proof.
  unfold names. rewrite existsb_exists. split.
  - intros (m & Hm & E%bool_decide_eq_true_1). exists m. split; [by apply list_elem_of_In|done].
  - intros (m & Hm & E). exists m. split; [by apply list_elem_of_In|by apply bool_decide_eq_true_2].
Qed.

Lemma normalize_acis_Ok seen ms out :
  normalize_acis seen ms = Ok out ->
  NoDup (ACI <$> out)
  /\ (forall t, t ∈ out -> exists u, u ∉ seen /\ u <> uuid_nil /\ ACI t = uuid_string u
        /\ exists m, m ∈ ms /\ acceptIdentity (ACI m) = u /\ t = with_ACI m (uuid_string u))
  /\ (forall m, m ∈ ms -> acceptIdentity (ACI m) <> uuid_nil
        /\ (acceptIdentity (ACI m) ∈ seen \/ uuid_string (acceptIdentity (ACI m)) ∈ ACI <$> out)).
Proof.
  revert seen out. induction ms as [|m ms IH]; intros seen out; cbn [normalize_acis].
  { intros [= <-]. split_and!; [constructor|by intros ? ?%elem_of_nil..]. }
  assert (Hid : forall u, uuid_parse (ACI m) = Some u -> acceptIdentity (ACI m) = u).
  { intros u E. unfold acceptIdentity. by rewrite E. }
  destruct (uuid_parse (ACI m)) as [u|]; [|done]. specialize (Hid u eq_refl).
  destruct (bool_decide (u = uuid_nil)) eqn:Hn; [done|]. bool_hyps.
  destruct (bool_decide (u ∈ seen)) eqn:Hs; bool_hyps.
  - intros (Hd & Ho & Hm)%IH. split_and!; [done|..].
    + intros t (v & ? & ? & ? & x & Hx & ? & ?)%Ho. exists v. split_and!; [done..|]. exists x. split_and!; [by right|done..].
    + intros x [->|Hx]%elem_of_cons; [|by apply Hm]. rewrite Hid. split; [done|by left].
  - rewrite bind_Ok. intros (out' & H & [= <-]). apply IH in H as (Hd & Ho & Hm).
    split_and!.
    + cbn. constructor; [|done]. intros (t & E & Ht)%list_elem_of_fmap.
      apply Ho in Ht as (v & Hv & _ & E' & _). rewrite E' in E. apply (inj uuid_string) in E. subst.
      apply Hv, elem_of_union_l, elem_of_singleton. done.
    + intros t [->|Ht]%elem_of_cons.
      * exists u. split_and!; [done..|]. exists m. split_and!; [by left|done..].
      * apply Ho in Ht as (v & Hv & ? & ? & x & Hx & ? & ?). exists v. split_and!; [|done..|].
        -- intros ?. apply Hv. by apply elem_of_union_r.
        -- exists x. split_and!; [by right|done..].
    + intros x [->|Hx]%elem_of_cons.
      * rewrite Hid. split; [done|]. right. by left.
      * apply Hm in Hx as (? & [[E%elem_of_singleton|?]%elem_of_union|?]); (split; [done|]).
        -- right. rewrite E. by left.
        -- by left.
        -- right. by right.
Qed.

(** The normalised members, as a set of names. *)
Lemma normalizeGroupMembers_Ok ms out :
  normalizeGroupMembers ms = Ok out ->
  NoDup (ACI <$> out)
  /\ (forall t, t ∈ out -> ACI t <> ""%string /\ text_id (ACI t) /\ acceptIdentity (ACI t) <> uuid_nil)
  /\ (forall aci, aci ∈ ACI <$> out <-> names ms aci = true).
Proof.
  unfold normalizeGroupMembers. destruct (len ms =? 0); [done|].
  intros (Hn & Ho & Hm)%normalize_acis_Ok. split_and!; [done|..].
  - intros t (u & _ & ? & E & _)%Ho. rewrite E, acceptIdentity_string.
    split_and!; [apply uuid_string_nonempty|right; by exists u|done].
  - intros aci. rewrite names_spec. split.
    + intros (t & -> & (u & _ & _ & E & m & ? & <- & _)%Ho)%list_elem_of_fmap. exists m. by rewrite E.
    + intros (m & [_ [?%elem_of_empty|?]]%Hm & <-); done.
Qed.

Lemma acis_elem out aci : aci ∈ acis out <-> aci ∈ ACI <$> out.
Proof. unfold acis. by rewrite elem_of_list_to_set. Qed.

Lemma acis_names ms out aci :
  normalizeGroupMembers ms = Ok out -> bool_decide (aci ∈ acis out) = names ms aci.
Proof.
  intros (_ & _ & H)%normalizeGroupMembers_Ok. apply eq_true_iff_eq.
  by rewrite bool_decide_eq_true, acis_elem.
Qed.

Lemma bump_Ok changed g next g' :
  bump changed g next = Ok g' <->
  (changed = true -> Revision g <> MaxUint32) /\
  g' = with_Revision next (if changed then Revision next + 1 else Revision next).
Proof.
  unfold bump. destruct changed.
  - destruct (Revision g =? MaxUint32) eqn:E; bool_hyps.
    + split; [done|]. intros [H _]. by destruct (H eq_refl).
    + split; [by intros [= <-]|]. by intros [_ ->].
  - split; [|by intros [_ ->]; destruct next]. intros [= <-]. by destruct next.
Qed.

Lemma check_full_members_None g ms :
  check_full_members g ms = None <-> forall m, m ∈ ms -> (MembershipOf g (ACI m)).1 = MembershipMember.
Proof.
  induction ms as [|m ms IH]; cbn; [split; [by intros _ ? ?%elem_of_nil|done]|].
  destruct (bool_decide _) eqn:E; bool_hyps; cbn.
  - rewrite IH. split; intros H; [|intros x Hx; apply H; by right].
    intros x [->|Hx]%elem_of_cons; auto.
  - split; [done|]. intros H. destruct E. apply H. by left.
Qed.

(** Where the gates of [WithMemberRole] are passed, whose role it sets. *)
Definition change_roles (g : Group) (ms : list Recipient) (role : GroupRole) : list GroupMember :=
  (fun m => if names ms (ACI (gm_Recipient m)) then with_role m role else m) <$> Members g.

Lemma with_role_same m role : gm_Role m = role -> with_role m role = m.
Proof. destruct m; cbn. by intros ->. Qed.

Lemma set_roles_names g ms out role :
  normalizeGroupMembers ms = Ok out ->
  set_roles (acis out) role (Members g) = change_roles g ms role.
Proof.
  intros Ho. unfold set_roles, change_roles. apply list_fmap_ext. intros i m _.
  unfold role_changes. rewrite (acis_names _ _ _ Ho).
  destruct (names ms _) eqn:En; cbn; [|done].
  destruct (bool_decide _) eqn:E; cbn; [|done]. bool_hyps. by rewrite with_role_same.
Qed.

Lemma role_changes_any g ms out role :
  normalizeGroupMembers ms = Ok out ->
  existsb (role_changes (acis out) role) (Members g) = negb (bool_decide (change_roles g ms role = Members g)).
Proof.
  intros Ho. rewrite <- (set_roles_names g ms out role Ho). unfold set_roles.
  induction (Members g) as [|m l IH]; cbn; [done|]. rewrite IH.
  destruct (role_changes (acis out) role m) eqn:E; cbn.
  - rewrite bool_decide_eq_false_2; [done|]. intros [= H _]. apply andb_true_iff in E as [_ E]. bool_hyps.
    apply E. rewrite <- H. done.
  - apply (f_equal negb), bool_decide_ext. split; [by intros ->|by intros [=]].
Qed.

(** The gates of [WithMemberRole], and the group it computes. *)
Lemma WithMemberRole_Ok g self ms role g' :
  WithMemberRole g self ms role = Ok g' ->
  MembershipOf g self = (MembershipMember, GroupRoleAdmin)
  /\ (forall aci, names ms aci = true -> aci ∈ member_acis g)
  /\ g' = with_own (with_Revision (with_Members g (change_roles g ms role))
             (if bool_decide (change_roles g ms role = Members g) then Revision g else Revision g + 1))
             (MembershipOf g' self)
  /\ 0 < Admins g'
  /\ (change_roles g ms role <> Members g -> Revision g <> MaxUint32).
Proof.
  unfold WithMemberRole, NormalizeGroupRoleMembers. destruct (_ && _) eqn:Hr; [done|].
  rewrite bind_Ok. intros (out & Ho & H). apply bind_Ok in H as (ts & Ht & H).
  unfold memberRoleTargets in Ht. destruct (MembershipOf g self) as [membership own] eqn:Hself.
  destruct (bool_decide (membership = _)) eqn:E1; [cbn in Ht|done].
  destruct (bool_decide (own = _)) eqn:E2; [cbn in Ht|done]. bool_hyps. subst.
  apply check_then_Ok in Ht as [Hfull [= <-]].
  rewrite (set_roles_names _ _ _ _ Ho), (role_changes_any _ _ _ _ Ho) in H.
  destruct (Admins _ =? 0) eqn:Ha; [done|]. apply bind_Ok in H as (next & Hb & [= <-]).
  apply bump_Ok in Hb as [Hmax ->]. split_and!; [done|..].
  - intros aci Hn. rewrite check_full_members_None in Hfull.
    apply normalizeGroupMembers_Ok in Ho as (_ & _ & Hnames).
    apply Hnames in Hn as (t & -> & Hin)%list_elem_of_fmap.
    by apply Hfull, MembershipOf_is_member in Hin as [_ ?].
  - destruct (bool_decide (change_roles g ms role = Members g)); reflexivity.
  - unfold Admins in *. cbn in *. bool_hyps. pose proof (len_nonneg (filter (fun m => is_admin m = true) (change_roles g ms role))). lia.
  - intros Hne. apply Hmax. by rewrite (bool_decide_eq_false_2 _ Hne).
Qed.

(** Changing roles sets the role of exactly the named members, all of them full members
    named by an administrator; the group keeps an administrator, and its revision goes up
    by one if and only if a role changed. *)
Theorem WithMemberRole_spec g self ms role g' :
  WithMemberRole g self ms role = Ok g' ->
  MembershipOf g self = (MembershipMember, GroupRoleAdmin)
  /\ (forall aci, names ms aci = true -> aci ∈ member_acis g)
  /\ g' = with_own (with_Revision (with_Members g (change_roles g ms role))
             (if bool_decide (change_roles g ms role = Members g) then Revision g else Revision g + 1))
             (MembershipOf g' self)
  /\ 0 < Admins g'
  /\ (change_roles g ms role <> Members g -> Revision g <> MaxUint32).
Proof. apply WithMemberRole_Ok. Qed.
End acis.

(** ** Bans and additions *)

Section bans.
Context {U : UuidLib} {UL : UuidLaws U}.

(** The group with everyone [ms] names removed and banned, or unbanned, before its revision
    and own membership are set. *)
Definition banned_people (g : Group) (ms news : list Recipient) (at_ : time) : Group :=
  with_people g
    (DeleteFunc (fun m => names ms (ACI (gm_Recipient m))) (Members g))
    (DeleteFunc (fun p => names ms (ACI (pm_Recipient p))) (Pending g))
    (DeleteFunc (fun r => names ms (ACI (rm_Recipient r))) (Requesting g))
    (Banned g ++ ((fun m => mkBanned m at_) <$> news)).
Definition unbanned_people (g : Group) (ms : list Recipient) : Group :=
  with_Banned g (DeleteFunc (fun b => names ms (ACI (bm_Recipient b))) (Banned g)).

Lemma names_nonempty ms aci : names ms aci = true -> aci <> ""%string.
Proof. intros (m & _ & <-)%names_spec. apply uuid_string_nonempty. Qed.

Lemma check_not_self_None self ms : check_not_self self ms = None <-> self ∉ ACI <$> ms.
Proof.
  induction ms as [|m ms IH]; cbn; [split; [by intros _ ?%elem_of_nil|done]|].
  rewrite elem_of_cons. destruct (bool_decide _) eqn:E; bool_hyps.
  - split; [done|]. intros H. destruct H. by left.
  - rewrite IH. split; [intros H [?|?]; congruence|]. tauto.
Qed.

Lemma banTargets_Ok g self ms ts :
  banTargets g self ms = Ok ts ->
  MembershipOf g self = (MembershipMember, GroupRoleAdmin) /\ self ∉ ACI <$> ms /\ ts = acis ms.
Proof.
  unfold banTargets. destruct (MembershipOf g self) as [membership role].
  destruct (bool_decide (membership = _)) eqn:E1; [cbn|done].
  destruct (bool_decide (role = _)) eqn:E2; [cbn|done]. bool_hyps. subst.
  rewrite check_then_Ok, check_not_self_None. by intros [? [= <-]].
Qed.

Lemma bannedACI_spec g aci :
  bannedACI g aci = true <-> aci <> ""%string /\ aci ∈ (fun b => ACI (bm_Recipient b)) <$> Banned g.
Proof.
  unfold bannedACI. rewrite existsb_exists. split.
  - intros (b & Hb & H). apply andb_true_iff in H as [Hne E]. bool_hyps. subst. split; [done|].
    apply list_elem_of_fmap. exists b. split; [done|]. by apply list_elem_of_In.
  - intros [Hne (b & -> & Hb)%list_elem_of_fmap]. exists b. split; [by apply list_elem_of_In|].
    apply andb_true_iff. by rewrite negb_true_iff, bool_decide_eq_false, bool_decide_eq_true.
Qed.

Lemma removeBannedTargets_people g ms out :
  normalizeGroupMembers ms = Ok out ->
  removeBannedTargets g (acis out) =
  with_people g
    (DeleteFunc (fun m => names ms (ACI (gm_Recipient m))) (Members g))
    (DeleteFunc (fun p => names ms (ACI (pm_Recipient p))) (Pending g))
    (DeleteFunc (fun r => names ms (ACI (rm_Recipient r))) (Requesting g)) (Banned g).
Proof.
  intros Ho. unfold removeBannedTargets. f_equal; apply DeleteFunc_ext; intros x _;
    rewrite (acis_names _ _ _ Ho); try done.
  destruct (bool_decide (ACI (pm_Recipient x) = _)) eqn:E; cbn; [|done]. bool_hyps. rewrite E.
  destruct (names ms "") eqn:En; [|done]. by apply names_nonempty in En.
Qed.

Lemma unban_people g ms out :
  normalizeGroupMembers ms = Ok out ->
  with_Banned g (DeleteFunc (fun m => (ACI (bm_Recipient m) != ""%string)
                                      && bool_decide (ACI (bm_Recipient m) ∈ acis out)) (Banned g))
  = unbanned_people g ms.
Proof.
  intros Ho. unfold unbanned_people. f_equal. apply DeleteFunc_ext. intros x _.
  rewrite (acis_names _ _ _ Ho). destruct (bool_decide (ACI (bm_Recipient x) = _)) eqn:E; cbn; [|done].
  bool_hyps. rewrite E. destruct (names ms "") eqn:En; [|done]. by apply names_nonempty in En.
Qed.

(** [self]'s own entries stay when [self] is not named. *)
Lemma MembershipOf_kept g g' ms self :
  MembershipOf g self = (MembershipMember, GroupRoleAdmin) -> names ms self = false ->
  Members g' = DeleteFunc (fun m => names ms (ACI (gm_Recipient m))) (Members g) ->
  MembershipOf g' self = (MembershipMember, GroupRoleAdmin).
Proof.
  intros Hself Hn Hm. pose proof Hself as (Hne & m0 & Hm0 & Ha0 & _)%MembershipOf_member.
  revert Hself. unfold MembershipOf. rewrite (bool_decide_eq_false_2 _ Hne), Hm.
  rewrite find_first_DeleteFunc by (intros x _ E%bool_decide_eq_true_1; by rewrite E).
  destruct (find_first _ (Members g)) eqn:E; [done|].
  rewrite find_first_None in E. apply E in Hm0. by apply bool_decide_eq_false_1 in Hm0.
Qed.

(** The group [WithBannedMembers] computes before revision and own membership. *)
Definition ban_next (g : Group) (ms out : list Recipient) (banned : bool) (at_ : time) : Group :=
  if banned then banned_people g ms (filter (fun m => bannedACI g (ACI m) = false) out) at_
  else unbanned_people g ms.

Definition ban_result (g next : Group) (self : string) : Group :=
  with_own (with_Revision next (if banMembershipChanged g next then Revision g + 1 else Revision g))
    (MembershipOf next self).

(** The gates of [WithBannedMembers], and the group it computes. *)
Lemma WithBannedMembers_Ok g self ms banned at_ g' :
  WithBannedMembers g self ms banned at_ = Ok g' <->
  exists out, normalizeGroupMembers ms = Ok out
    /\ MembershipOf g self = (MembershipMember, GroupRoleAdmin) /\ names ms self = false
    /\ g' = ban_result g (ban_next g ms out banned at_) self
    /\ (banMembershipChanged g (ban_next g ms out banned at_) = true -> Revision g <> MaxUint32).
Proof.
  assert (Hnot : forall out, normalizeGroupMembers ms = Ok out -> self ∉ ACI <$> out <-> names ms self = false).
  { intros out (_ & _ & Hnames)%normalizeGroupMembers_Ok. by rewrite Hnames, not_true_iff_false. }
  unfold WithBannedMembers. rewrite bind_Ok. apply exist_proper. intros out.
  assert (Hnext : forall (Ho : normalizeGroupMembers ms = Ok out),
    (if banned then with_Banned (removeBannedTargets g (acis out))
        (Banned g ++ ((fun member => mkBanned member at_)
                      <$> filter (fun member => bannedACI g (ACI member) = false) out))
     else with_Banned g (DeleteFunc (fun m => (ACI (bm_Recipient m) != ""%string)
             && bool_decide (ACI (bm_Recipient m) ∈ acis out)) (Banned g)))
    = ban_next g ms out banned at_).
  { intros Ho. rewrite (removeBannedTargets_people _ _ _ Ho), (unban_people _ _ _ Ho). by destruct banned. }
  split.
  - intros [Ho H]. apply bind_Ok in H as (ts & (Hself & Hns & ->)%banTargets_Ok & H).
    rewrite (Hnext Ho) in H. apply bind_Ok in H as (next & Hb & [= <-]). apply bump_Ok in Hb as [Hmax ->].
    split_and!; [done|done|by apply (Hnot out)| |done]. unfold ban_result. by destruct banned.
  - intros (Ho & Hself & Hns & -> & Hmax). split; [done|]. apply bind_Ok. exists (acis out). split.
    + unfold banTargets. rewrite Hself. cbn. apply check_then_Ok.
      by rewrite check_not_self_None, (Hnot out Ho).
    + rewrite (Hnext Ho). apply bind_Ok. eexists. split; [by apply bump_Ok|].
      unfold ban_result. by destruct banned.
Qed.

Lemma DeleteFunc_length {A} (f : A -> bool) l : len (DeleteFunc f l) = len l <-> DeleteFunc f l = l.
Proof.
  split; [|by intros ->]. unfold len, DeleteFunc. intros H.
  assert (Hl : length (filter (fun x => f x = false) l) = length l) by lia.
  clear H. revert Hl. induction l as [|x l IH]; [done|].
  rewrite filter_cons. case_decide; cbn; intros Hl.
  - f_equal. apply IH. lia.
  - pose proof (length_filter (fun x => f x = false) l). lia.
Qed.

(** A change that changes no list is no change. *)
Lemma ban_unchanged g ms out banned at_ :
  banMembershipChanged g (ban_next g ms out banned at_) = false -> ban_next g ms out banned at_ = g.
Proof.
  unfold banMembershipChanged. rewrite !orb_false_iff, !negb_false_iff, !Z.eqb_eq. destruct banned; cbn.
  - rewrite !DeleteFunc_length. intros [[[Hm Hp] Hr] Hb]. unfold len in Hb. rewrite length_app in Hb.
    unfold banned_people. rewrite Hm, Hp, Hr. destruct (fmap _ _); cbn in Hb; [rewrite app_nil_r|lia]. by destruct g.
  - rewrite DeleteFunc_length. intros [_ Hb]. unfold unbanned_people. rewrite Hb. by destruct g.
Qed.

Lemma DeleteFunc_none {A} (f : A -> bool) l : (forall x, x ∈ l -> f x = false) -> DeleteFunc f l = l.
Proof.
  intros H. unfold DeleteFunc. induction l as [|x l IH]; [done|]. rewrite filter_cons.
  rewrite decide_True by (apply H; by left). f_equal. apply IH. intros y Hy. apply H. by right.
Qed.

Lemma DeleteFunc_idemp {A} (f : A -> bool) l : DeleteFunc f (DeleteFunc f l) = DeleteFunc f l.
Proof. apply DeleteFunc_none. by intros x [_ ?]%DeleteFunc_elem. Qed.

(** After the change every named person is banned, or no longer. *)
Lemma ban_next_banned g ms out banned at_ aci :
  normalizeGroupMembers ms = Ok out -> names ms aci = true ->
  bannedACI (ban_next g ms out banned at_) aci = banned.
Proof.
  intros Ho Hn. destruct banned; unfold ban_next.
  - apply bannedACI_spec. split; [by eapply names_nonempty|]. cbn.
    rewrite fmap_app, elem_of_app. destruct (bannedACI g aci) eqn:Hb.
    + left. by apply bannedACI_spec in Hb as [_ ?].
    + right. apply normalizeGroupMembers_Ok in Ho as (_ & _ & Hnames).
      apply Hnames in Hn as (t & -> & Ht)%list_elem_of_fmap. rewrite <- list_fmap_compose. cbn.
      apply list_elem_of_fmap. exists t. split; [done|]. by apply list_elem_of_filter.
  - apply not_true_iff_false. intros [_ (b & -> & [Hb Hn']%DeleteFunc_elem)%list_elem_of_fmap]%bannedACI_spec.
    cbn in *. congruence.
Qed.

Lemma none_to_ban g ms out :
  normalizeGroupMembers ms = Ok out -> (forall aci, names ms aci = true -> bannedACI g aci = true) ->
  filter (fun m => bannedACI g (ACI m) = false) out = [].
Proof.
  intros Ho Hb. apply elem_of_nil_inv. intros t [Hf Ht]%list_elem_of_filter.
  pose proof Ho as (_ & _ & Hnames)%normalizeGroupMembers_Ok.
  assert (Hn : names ms (ACI t) = true) by (apply Hnames, list_elem_of_fmap; by exists t).
  apply Hb in Hn. congruence.
Qed.

(** Repeating the change on its result changes nothing. *)
Lemma ban_next_again g g' ms out banned at_ at' :
  normalizeGroupMembers ms = Ok out -> g' = with_people g' (Members (ban_next g ms out banned at_))
    (Pending (ban_next g ms out banned at_)) (Requesting (ban_next g ms out banned at_))
    (Banned (ban_next g ms out banned at_)) -> ban_next g' ms out banned at' = g'.
Proof.
  intros Ho Hg. destruct banned; unfold ban_next.
  - rewrite (none_to_ban g' ms out Ho).
    + unfold banned_people. rewrite fmap_nil, app_nil_r. rewrite Hg at 2 3 4 5 6.
      cbn -[DeleteFunc]. rewrite Hg at 1. cbn -[DeleteFunc].
      rewrite (DeleteFunc_idemp (A:=GroupMember)), (DeleteFunc_idemp (A:=PendingMember)),
        (DeleteFunc_idemp (A:=RequestingMember)). reflexivity.
    + intros aci Hn. rewrite Hg. apply (ban_next_banned g ms out true at_ _ Ho) in Hn.
      exact Hn.
  - rewrite Hg. unfold unbanned_people, with_Banned. cbn -[DeleteFunc]. by rewrite DeleteFunc_idemp.
Qed.

Lemma with_own_id g self :
  (grp_Membership g, grp_Role g) = MembershipOf g self ->
  g = with_own (with_Revision g (Revision g)) (MembershipOf g self).
Proof. intros <-. by destruct g. Qed.

Lemma ban_self g : banMembershipChanged g g = false.
Proof. unfold banMembershipChanged. by rewrite !Z.eqb_refl. Qed.

(** The bans of people who are not named stay. *)
Lemma banned_others g ms out banned at_ :
  normalizeGroupMembers ms = Ok out ->
  DeleteFunc (fun b => names ms (ACI (bm_Recipient b))) (Banned (ban_next g ms out banned at_))
  = DeleteFunc (fun b => names ms (ACI (bm_Recipient b))) (Banned g).
Proof.
  intros Ho. destruct banned; cbn; [|apply DeleteFunc_idemp].
  unfold DeleteFunc. rewrite filter_app. replace (filter _ (fmap _ _)) with (@nil BannedMember); [apply app_nil_r|].
  symmetry. apply elem_of_nil_inv. intros b [Hn (t & -> & [_ Ht]%list_elem_of_filter)%list_elem_of_fmap]%list_elem_of_filter.
  cbn in Hn. pose proof Ho as (_ & _ & Hnames)%normalizeGroupMembers_Ok.
  assert (names ms (ACI t) = true); [|congruence]. apply Hnames, list_elem_of_fmap. by exists t.
Qed.

(** Banning or unbanning: afterwards exactly the requested ban state holds for everyone
    named, a ban also removes them from members, invitations and requests, nobody else is
    touched, the administrator who asked stays one, the revision goes up by one only if a list
    changed, and repeating the change is accepted and changes nothing. *)
Theorem WithBannedMembers_spec g self ms banned at_ g' :
  WithBannedMembers g self ms banned at_ = Ok g' ->
  (forall aci, names ms aci = true -> bannedACI g' aci = banned)
  /\ Members g' = (if banned then DeleteFunc (fun m => names ms (ACI (gm_Recipient m))) (Members g) else Members g)
  /\ Pending g' = (if banned then DeleteFunc (fun p => names ms (ACI (pm_Recipient p))) (Pending g) else Pending g)
  /\ Requesting g' = (if banned then DeleteFunc (fun r => names ms (ACI (rm_Recipient r))) (Requesting g) else Requesting g)
  /\ DeleteFunc (fun b => names ms (ACI (bm_Recipient b))) (Banned g')
     = DeleteFunc (fun b => names ms (ACI (bm_Recipient b))) (Banned g)
  /\ MembershipOf g' self = (MembershipMember, GroupRoleAdmin)
  /\ (Revision g' = Revision g \/ Revision g' = Revision g + 1 /\ Revision g <> MaxUint32)
  /\ forall at', WithBannedMembers g' self ms banned at' = Ok g'.
Proof.
  intros (out & Ho & Hself & Hns & -> & Hmax)%WithBannedMembers_Ok.
  set (g' := ban_result g (ban_next g ms out banned at_) self).
  assert (Hg' : MembershipOf g' self = (MembershipMember, GroupRoleAdmin)).
  { destruct banned; [by apply (MembershipOf_kept g g' ms)|exact Hself]. }
  split; [intros aci Hn; apply (ban_next_banned g ms out banned at_ aci Ho Hn)|].
  split; [by destruct banned|]. split; [by destruct banned|]. split; [by destruct banned|].
  split; [by apply banned_others|]. split; [done|]. split.
  { subst g'. unfold ban_result. cbn. destruct (banMembershipChanged _ _); auto. }
  intros at'. apply WithBannedMembers_Ok. exists out.
  assert (Hagain : ban_next g' ms out banned at' = g').
  { apply (ban_next_again g g' ms out banned at_); [done|]. subst g'. unfold ban_result. by destruct banned. }
  split_and!; [done..| |].
  - rewrite Hagain. unfold ban_result at 1. rewrite ban_self. apply with_own_id. symmetry. apply surjective_pairing.
  - by rewrite Hagain, ban_self.
Qed.
End bans.

Section additions.
Context {U : UuidLib} {UL : UuidLaws U}.

(** Without a place in the group, or only asking for one. *)
Definition addable (g : Group) (aci : string) : Prop :=
  (MembershipOf g aci).1 = MembershipNone \/ (MembershipOf g aci).1 = MembershipRequesting.

Lemma add_targets_Ok g role ms ts :
  add_targets g role ms = Ok ts ->
  ts `sublist_of` ms
  /\ (forall t, t ∈ ts <-> t ∈ ms /\ addable g (ACI t))
  /\ (forall t, t ∈ ts -> (MembershipOf g (ACI t)).1 = MembershipRequesting -> role = GroupRoleAdmin).
Proof.
  revert ts. induction ms as [|m ms IH]; intros ts; cbn [add_targets].
  { intros [= <-]. split_and!; [constructor| |by intros ? ?%elem_of_nil].
    intros t. split; [by intros ?%elem_of_nil|by intros [? _]]. }
  assert (Hskip : (MembershipOf g (ACI m)).1 = MembershipMember \/ (MembershipOf g (ACI m)).1 = MembershipPending ->
    add_targets g role ms = Ok ts -> ts `sublist_of` (m :: ms)
    /\ (forall t, t ∈ ts <-> t ∈ m :: ms /\ addable g (ACI t))
    /\ (forall t, t ∈ ts -> (MembershipOf g (ACI t)).1 = MembershipRequesting -> role = GroupRoleAdmin)).
  { intros Hm (Hs & He & Hr)%IH. split_and!; [by constructor| |done].
    intros t. rewrite He, elem_of_cons. split; [tauto|]. intros [[->|?] Ht]; [|done].
    unfold addable in Ht. destruct Hm as [Hm|Hm]; rewrite Hm in Ht; naive_solver. }
  assert (Hkeep : (MembershipOf g (ACI m)).1 = MembershipNone
      \/ (MembershipOf g (ACI m)).1 = MembershipRequesting /\ role = GroupRoleAdmin ->
    forall out, add_targets g role ms = Ok out -> ts = m :: out -> ts `sublist_of` (m :: ms)
    /\ (forall t, t ∈ ts <-> t ∈ m :: ms /\ addable g (ACI t))
    /\ (forall t, t ∈ ts -> (MembershipOf g (ACI t)).1 = MembershipRequesting -> role = GroupRoleAdmin)).
  { intros Hm out (Hs & He & Hr)%IH ->. split_and!; [by constructor|..].
    - intros t. rewrite !elem_of_cons, He. split; [|tauto]. intros [->|?]; [|tauto].
      split; [by left|]. unfold addable. destruct Hm as [?|[? _]]; auto.
    - intros t [->|Ht]%elem_of_cons; [|by apply Hr]. destruct Hm as [->|[_ ?]]; done. }
  destruct ((MembershipOf g (ACI m)).1) eqn:E.
  - rewrite bind_Ok. intros (out & H & [= <-]). eauto.
  - apply Hskip. by left.
  - apply Hskip. by right.
  - destruct (bool_decide _) eqn:Er; [cbn|done]. bool_hyps. rewrite bind_Ok.
    intros (out & H & [= <-]). eauto.
Qed.

(** The people an addition will add are the named ones without a place in the group
    (requesting ones only for an administrator), each once and by canonical ACI; nobody banned
    is among them, and only a full member who may add members gets this far. *)
Theorem CheckAddMembers_spec g self ms ts :
  CheckAddMembers g self ms = Ok ts ->
  (exists role, MembershipOf g self = (MembershipMember, role)
    /\ (role = GroupRoleAdmin \/ MembersCanAddMembers g = true)
    /\ forall t, t ∈ ts -> (MembershipOf g (ACI t)).1 = MembershipRequesting -> role = GroupRoleAdmin)
  /\ NoDup (ACI <$> ts)
  /\ (forall aci, aci ∈ ACI <$> ts <-> names ms aci = true
        /\ addable g aci)
  /\ (forall t, t ∈ ts -> bannedACI g (ACI t) = false).
Proof.
  unfold CheckAddMembers. rewrite bind_Ok. intros (out & Ho & H).
  destruct (MembershipOf g self) as [membership role].
  destruct (bool_decide (membership = _)) eqn:E1; [cbn in H|done].
  destruct (negb _ && _) eqn:E2; [done|]. bool_hyps. subst.
  apply bind_Ok in H as (ts' & (Hs & He & Hr)%add_targets_Ok & H).
  unfold checkedBannedAddTargets in H. destruct (existsb _ _) eqn:Hb; [done|]. injection H as <-.
  apply normalizeGroupMembers_Ok in Ho as (Hn & _ & Hnames). split_and!.
  - exists role. split_and!; [done| |done]. apply andb_false_iff in E2 as [E2|E2]; bool_hyps; auto.
  - eapply sublist_NoDup; [exact Hn|by apply fmap_sublist].
  - intros aci. rewrite <- Hnames, !list_elem_of_fmap. split.
    + intros (t & -> & [Ht Hm]%He). eauto.
    + intros [(t & -> & Ht) Hm]. exists t. split; [done|]. by apply He.
  - intros t Ht. apply not_true_iff_false. intros Hbt. apply not_true_iff_false in Hb. apply Hb.
    apply existsb_exists. exists t. split; [by apply list_elem_of_In|done].
Qed.
End additions.

(** ** Witnesses *)

Section witnesses.
Import DemoUuid.

Definition demo_admin : string := "11111111-1111-4111-8111-111111111111".
Definition demo_member : string := "22222222-2222-4222-8222-222222222222".
Definition demo_invited : string := "33333333-3333-4333-8333-333333333333".
Definition demo_new : string := "44444444-4444-4444-8444-444444444444".
Definition demo_asking : string := "55555555-5555-4555-8555-555555555555".

(** An administrator, a member, an invitation by PNI and a join request, at revision 7. *)
Definition demo_group : Group :=
  mkGroup "" "id" "key" "Title" "" 7 0 false true true
    [mkMember (ofACI demo_admin) GroupRoleAdmin 0; mkMember (ofACI demo_member) GroupRoleMember 3]
    [mkPending (ofPNI demo_invited) GroupRoleMember (ofACI demo_admin) 0]
    [mkRequesting (ofACI demo_asking) 0] []
    MembershipMember GroupRoleAdmin zero_time None.

Lemma NormalizeGroupRemovalMembers_spec_witness :
  let ms := [ofPNI "33333333-3333-4333-8333-33333333333A"; ofACI demo_member; ofACI demo_member] in
  exists out, NormalizeGroupRemovalMembers ms = Ok out /\ len out = 2 /\ NormalizeGroupRemovalMembers out = Ok out
    /\ forall m, m ∈ ms -> exists t, t ∈ out /\ canonical_of m t.
Proof.
  cbv zeta. set (ms := [_; _; _]).
  eassert (H : NormalizeGroupRemovalMembers ms = Ok _) by (vm_compute; reflexivity).
  destruct (NormalizeGroupRemovalMembers_spec ms _ H) as (_ & _ & H3 & H4).
  eexists. split; [exact H|]. split; [reflexivity|]. split; [exact H4|exact H3].
Defined.

Lemma demo_canonical : canonical_group demo_group.
Proof.
  assert (Ht : forall s u, uuid_parse s = Some u -> uuid_string u = s -> text_id s) by (intros s u _ <-; right; by exists u).
  split.
  - intros m Hm. repeat (apply elem_of_cons in Hm as [->|Hm]; [eapply Ht; vm_compute; reflexivity|]). by apply elem_of_nil in Hm.
  - intros m Hm. repeat (apply elem_of_cons in Hm as [->|Hm]; [eapply Ht; vm_compute; reflexivity|]). by apply elem_of_nil in Hm.
Defined.

Lemma WithRemovedMembersAs_spec_witness :
  exists g', WithRemovedMembersAs demo_group (ofACI demo_admin) [ofPNI demo_invited] = Ok g'
    /\ Pending g' = [] /\ MembershipOf g' demo_admin = (MembershipMember, GroupRoleAdmin).
Proof.
  eassert (H : WithRemovedMembersAs demo_group (ofACI demo_admin) [ofPNI demo_invited] = Ok _) by (vm_compute; reflexivity).
  destruct (WithRemovedMembersAs_spec demo_group _ _ _ demo_canonical H) as (_ & _ & H3).
  eexists. split; [exact H|]. split; [reflexivity|exact H3].
Defined.

Lemma WithMemberRole_spec_witness :
  exists g', WithMemberRole demo_group demo_admin [ofACI demo_member] GroupRoleAdmin = Ok g'
    /\ Revision g' = 8 /\ 0 < Admins g'.
Proof.
  eassert (H : WithMemberRole demo_group demo_admin [ofACI demo_member] GroupRoleAdmin = Ok _) by (vm_compute; reflexivity).
  destruct (WithMemberRole_spec demo_group _ _ _ _ H) as (_ & _ & _ & H4 & _).
  eexists. split; [exact H|]. split; [reflexivity|exact H4].
Defined.

Lemma WithBannedMembers_spec_witness :
  exists g', WithBannedMembers demo_group demo_admin [ofACI demo_asking] true 9 = Ok g'
    /\ Requesting g' = [] /\ forall aci, names [ofACI demo_asking] aci = true -> bannedACI g' aci = true.
Proof.
  eassert (H : WithBannedMembers demo_group demo_admin [ofACI demo_asking] true 9 = Ok _) by (vm_compute; reflexivity).
  destruct (WithBannedMembers_spec demo_group _ _ _ _ _ H) as (H1 & _).
  eexists. split; [exact H|]. split; [reflexivity|exact H1].
Defined.

Lemma CheckAddMembers_spec_witness :
  exists ts, CheckAddMembers demo_group demo_admin [ofACI demo_new; ofACI demo_member; ofACI demo_asking] = Ok ts
    /\ len ts = 2 /\ NoDup (ACI <$> ts).
Proof.
  eassert (H : CheckAddMembers demo_group demo_admin [ofACI demo_new; ofACI demo_member; ofACI demo_asking] = Ok _) by (vm_compute; reflexivity).
  destruct (CheckAddMembers_spec demo_group _ _ _ H) as (_ & H2 & _).
  eexists. split; [exact H|]. split; [reflexivity|exact H2].
Defined.
End witnesses.
