(* ===== verification/GroupSettings.v ===== *)
(** * Group settings and invite links

    groups_update.go, groups_avatar.go and groups_link.go: the checks of a settings update, the
    group it produces, the invite-link view of a group and its update. The Go image decoders,
    the protobuf encoder of the invite link and the random source are parameters. *)

From S2P Require Import Prelude Errors Uuid Utf8 Base64 Types Groups GroupMembers.

(** ** Avatars (groups_avatar.go) *)

Definition MaxGroupAvatarSize : Z := Z.shiftl 2 20.
Definition MaxGroupAvatarDimension : Z := 2048.

Record GroupAvatarUpdate := mkAvatar { ava_Data : string; ava_Remove : bool }.

(** [image.DecodeConfig] and [image.Decode] with the registered PNG and JPEG decoders. *)
Record imageConfig := mkImageConfig { img_Width : Z; img_Height : Z; img_format : string }.

Class ImageLib := {
  image_DecodeConfig : string -> option imageConfig;
  image_Decode : string -> bool;
}.

Definition validAvatarConfig (c : imageConfig) : bool :=
  ((img_format c == "png"%string) || (img_format c == "jpeg"%string))
  && (0 <? img_Width c) && (0 <? img_Height c)
  && (img_Width c <=? MaxGroupAvatarDimension) && (img_Height c <=? MaxGroupAvatarDimension).

Definition GroupAvatarUpdate_check `{ImageLib} (avatar : GroupAvatarUpdate) : error :=
  if ava_Remove avatar && (slen (ava_Data avatar) =? 0) then None
  else if ava_Remove avatar || (slen (ava_Data avatar) =? 0) || (MaxGroupAvatarSize <? slen (ava_Data avatar))
  then Some (errorf ErrInvalidGroupUpdate)
  else match image_DecodeConfig (ava_Data avatar) with
       | None => Some (errorf ErrInvalidGroupUpdate)
       | Some config =>
           if negb (validAvatarConfig config) then Some (errorf ErrInvalidGroupUpdate)
           else if image_Decode (ava_Data avatar) then None else Some (errorf ErrInvalidGroupUpdate)
       end.

(** ** Settings (groups_update.go) *)

Record GroupUpdate := mkUpdate {
  upd_Avatar : option GroupAvatarUpdate; upd_Description : option string; upd_TimerSeconds : option Z;
  upd_AnnouncementsOnly : option bool; upd_MembersCanEditAttributes : option bool;
  upd_MembersCanAddMembers : option bool }.

Definition given {A} (o : option A) : bool := match o with Some _ => true | None => false end.

Definition attributeSettings (u : GroupUpdate) : bool :=
  given (upd_Avatar u) || given (upd_Description u) || given (upd_TimerSeconds u).
Definition adminSettings (u : GroupUpdate) : bool :=
  given (upd_AnnouncementsOnly u) || given (upd_MembersCanEditAttributes u) || given (upd_MembersCanAddMembers u).

Definition sameSettings (g other : Group) : bool :=
  (AvatarPath g == AvatarPath other) && (Description g == Description other) && (Timer g == Timer other)
  && Bool.eqb (AnnouncementsOnly g) (AnnouncementsOnly other)
  && Bool.eqb (MembersCanEditAttributes g) (MembersCanEditAttributes other)
  && Bool.eqb (MembersCanAddMembers g) (MembersCanAddMembers other).

(** A pointer field of the update, or the current value. *)
Definition or_else {A} (o : option A) (current : A) : A := match o with Some a => a | None => current end.

Definition removes_avatar (u : GroupUpdate) : bool :=
  match upd_Avatar u with Some a => ava_Remove a | None => false end.
Definition uploads_avatar (u : GroupUpdate) : bool :=
  match upd_Avatar u with Some a => negb (ava_Remove a) | None => false end.

Definition updatedSettings (g : Group) (u : GroupUpdate) : Group :=
  mkGroup (if removes_avatar u then ""%string else AvatarPath g) (grp_ID g) (MasterKey g) (Title g)
    (or_else (upd_Description u) (Description g)) (Revision g)
    (match upd_TimerSeconds u with Some s => s * Second | None => Timer g end)
    (or_else (upd_AnnouncementsOnly u) (AnnouncementsOnly g))
    (or_else (upd_MembersCanEditAttributes u) (MembersCanEditAttributes g))
    (or_else (upd_MembersCanAddMembers u) (MembersCanAddMembers g))
    (Members g) (Pending g) (Requesting g) (Banned g) (grp_Membership g) (grp_Role g) (LeftAt g) (grp_Err g).

Section settings.
Context {I : ImageLib}.

Definition GroupUpdate_Check (u : GroupUpdate) : error :=
  if negb (given (upd_Avatar u)) && negb (given (upd_Description u)) && negb (given (upd_TimerSeconds u))
     && negb (adminSettings u) then Some (errorf ErrInvalidGroupUpdate)
  else if match upd_Description u with Some d => negb (ValidString d) | None => false end
  then Some (errorf ErrInvalidGroupUpdate)
  else match upd_Avatar u with Some a => GroupAvatarUpdate_check a | None => None end.

Definition CheckUpdate (g : Group) (self : string) (u : GroupUpdate) : error :=
  GroupUpdate_Check u ;!
  let (membership, role) := MembershipOf g self in
  if membership != MembershipMember then Some (Sent ErrNotAMember)
  else if adminSettings u && (role != GroupRoleAdmin) then Some (errorf ErrGroupPermission)
  else if attributeSettings u && (role != GroupRoleAdmin) && negb (MembersCanEditAttributes g) then
    Some (errorf ErrGroupPermission)
  else None.

Definition WithUpdate (g : Group) (self : string) (u : GroupUpdate) : res Group :=
  check_then (CheckUpdate g self u)
    (let next := updatedSettings g u in
     bump (negb (sameSettings next g) || uploads_avatar u) g next).

Lemma sameSettings_spec g u :
  sameSettings (updatedSettings g u) g = true <-> updatedSettings g u = g.
Proof.
  unfold sameSettings. rewrite !andb_true_iff, !bool_decide_eq_true, !eqb_true_iff. split; [|by intros ->].
  unfold updatedSettings. cbn. intros (((((-> & ->) & ->) & ->) & ->) & ->). by destruct g.
Qed.

(** A settings update changes exactly the settings it names, never the people, identity or
    own membership; it needs a full member, an administrator for permissions and
    announcement mode, and the edit right for attributes; the revision goes up by one if and
    only if a setting changes or a new avatar is uploaded. *)
Theorem WithUpdate_spec g self u next :
  WithUpdate g self u = Ok next ->
  (exists role, MembershipOf g self = (MembershipMember, role)
     /\ (adminSettings u = true -> role = GroupRoleAdmin)
     /\ (attributeSettings u = true -> role = GroupRoleAdmin \/ MembersCanEditAttributes g = true))
  /\ exists rev, next = with_Revision (updatedSettings g u) rev
     /\ (updatedSettings g u = g /\ uploads_avatar u = false /\ rev = Revision g
        \/ (updatedSettings g u <> g \/ uploads_avatar u = true)
           /\ rev = Revision g + 1 /\ Revision g <> MaxUint32).
Proof.
  unfold WithUpdate. rewrite check_then_Ok. intros [Hc Hb]. split.
  - unfold CheckUpdate in Hc. apply check_seq_None in Hc as [_ Hc].
    destruct (MembershipOf g self) as [membership role]. exists role.
    destruct (bool_decide (membership = _)) eqn:E; [cbn in Hc|done]. bool_hyps. subst.
    destruct (adminSettings u), (attributeSettings u), (bool_decide (role = _)) eqn:Er,
      (MembersCanEditAttributes g); cbn in Hc; bool_hyps; subst; try done; split_and!; auto; done.
  - apply bump_Ok in Hb as [Hmax ->]. eexists. split; [reflexivity|].
    pose proof (sameSettings_spec g u) as Hs. destruct (sameSettings _ g); cbn in *.
    + destruct (uploads_avatar u); [right|left]; split_and!; auto; by apply Hs.
    + right. split_and!; auto. left. intros Heq. by apply Hs in Heq.
Qed.
End settings.

(** ** Invite links (groups_link.go) *)

Inductive GroupLinkState := GroupLinkDisabled | GroupLinkEnabled | GroupLinkApproval | GroupLinkUnknown
  | GroupLinkOther (s : string).

#[export] Instance GroupLinkState_eq_dec : EqDecision GroupLinkState.
Proof. solve_decision. Defined.

Record GroupLink := mkLink { lnk_ID : string; lnk_Revision : Z; lnk_State : GroupLinkState; lnk_URL : string }.
Record GroupLinkUpdate := mkLinkUpdate { lup_State : option GroupLinkState; lup_Reset : bool }.

Definition groupLinkKeySize : Z := 32.
Definition groupLinkPasswordSize : Z := 16.

Definition settable (s : GroupLinkState) : bool :=
  (s == GroupLinkDisabled) || (s == GroupLinkEnabled) || (s == GroupLinkApproval).

Definition GroupLinkUpdate_Check (u : GroupLinkUpdate) : error :=
  if negb (given (lup_State u)) && negb (lup_Reset u) then Some (errorf ErrInvalidGroupLinkUpdate)
  else if match lup_State u with Some s => negb (settable s) | None => false end
  then Some (errorf ErrInvalidGroupLinkUpdate)
  else None.

Definition link_enabled (s : GroupLinkState) : bool := (s == GroupLinkEnabled) || (s == GroupLinkApproval).

(** The protobuf encoding of a [GroupInviteLink], and [crypto/rand]. *)
Class LinkLib := {
  marshal_link : string -> string -> option string;
  rand_Read : option string;
}.

Definition checkGroupLink (g : Group) (self : string) (write : bool) : error :=
  let (membership, role) := MembershipOf g self in
  if membership != MembershipMember then Some (Sent ErrNotAMember)
  else if write && (role != GroupRoleAdmin) then Some (errorf ErrGroupPermission)
  else None.

Definition decodeGroupLinkSecret (value : string) (size : Z) : res string :=
  match DecodeString StdEncoding value with
  | Some decoded => if slen decoded =? size then Ok decoded else Err (errorf ErrUnknownGroup)
  | None => Err (errorf ErrUnknownGroup)
  end.

Section links.
Context {L : LinkLib}.

Definition newGroupLinkPassword : res string :=
  match rand_Read with
  | None => Err (Wrap [Opaque "rand"])
  | Some secret => Ok (EncodeToString StdEncoding secret)
  end.

Definition updatedGroupLinkPassword (state : GroupLinkState) (password : string) (reset : bool) : res string :=
  if reset || (link_enabled state && (password == ""%string)) then newGroupLinkPassword else Ok password.

Definition Link (g : Group) (self : string) (state : GroupLinkState) (password : string) : res GroupLink :=
  check_then (checkGroupLink g self false)
    (if negb (link_enabled state) then
       Ok (mkLink (grp_ID g) (Revision g) (if state != GroupLinkDisabled then GroupLinkUnknown else state) "")
     else
       key ← decodeGroupLinkSecret (MasterKey g) groupLinkKeySize;
       secret ← decodeGroupLinkSecret password groupLinkPasswordSize;
       match marshal_link key secret with
       | None => Err (errorf ErrUnknownGroup)
       | Some data =>
           Ok (mkLink (grp_ID g) (Revision g) state
                 ("https://signal.group/#" ++ EncodeToString RawURLEncoding data))
       end).

Definition WithLinkUpdate (g : Group) (self : string) (state : GroupLinkState) (password : string)
    (u : GroupLinkUpdate) : res (GroupLink * string) :=
  check_then (GroupLinkUpdate_Check u)
  (check_then (checkGroupLink g self true)
    (_ ← decodeGroupLinkSecret (MasterKey g) groupLinkKeySize;
     let nextState := or_else (lup_State u) state in
     nextPassword ← updatedGroupLinkPassword nextState password (lup_Reset u);
     link ← Link g self nextState nextPassword;
     if (nextState != state) || (nextPassword != password) then
       if Revision g =? MaxUint32 then Err (errorf ErrUnknownGroup)
       else Ok (mkLink (lnk_ID link) (lnk_Revision link + 1) (lnk_State link) (lnk_URL link), nextPassword)
     else Ok (link, nextPassword))).

Lemma Link_Ok g self state password link :
  Link g self state password = Ok link ->
  (exists role, MembershipOf g self = (MembershipMember, role))
  /\ lnk_ID link = grp_ID g /\ lnk_Revision link = Revision g
  /\ (if link_enabled state then
        lnk_State link = state
        /\ (exists secret, DecodeString StdEncoding password = Some secret /\ slen secret = groupLinkPasswordSize)
        /\ HasPrefix (lnk_URL link) "https://signal.group/#" = true
      else lnk_URL link = ""%string
        /\ lnk_State link = (if state == GroupLinkDisabled then GroupLinkDisabled else GroupLinkUnknown)).
Proof.
  unfold Link. rewrite check_then_Ok. intros [Hc H]. unfold checkGroupLink in Hc.
  destruct (MembershipOf g self) as [membership role].
  destruct (bool_decide (membership = _)) eqn:E; [cbn in Hc|done]. bool_hyps. subst.
  split; [by exists role|]. destruct (link_enabled state) eqn:Hl; cbn in H.
  - apply bind_Ok in H as (key & _ & H). apply bind_Ok in H as (secret & Hs & H).
    destruct (marshal_link key secret) as [data|]; [|done]. injection H as <-. cbn. split_and!; try done.
    unfold decodeGroupLinkSecret in Hs. destruct (DecodeString _ password) as [s|]; [|done].
    destruct (slen s =? _) eqn:Hn; [|done]. injection Hs as <-. bool_hyps. by exists s.
  - injection H as <-. cbn. split_and!; try done. destruct (bool_decide (state = GroupLinkDisabled)) eqn:Ed; [|done].
    by bool_hyps.
Qed.

(** Updating an invite link takes an administrator; afterwards the policy is the requested
    one (or the old one), a reset stores a fresh password and otherwise an existing one is
    kept, an open link always carries a 16-byte password and a URL while a closed one exposes
    none, and the revision goes up by one if and only if policy or password change. *)
Theorem WithLinkUpdate_spec g self state password u link password' :
  WithLinkUpdate g self state password u = Ok (link, password') ->
  let state' := or_else (lup_State u) state in
  MembershipOf g self = (MembershipMember, GroupRoleAdmin)
  /\ lnk_ID link = grp_ID g
  /\ (if lup_Reset u || link_enabled state' && (password == ""%string)
      then newGroupLinkPassword = Ok password' else password' = password)
  /\ (if link_enabled state'
      then lnk_State link = state' /\ HasPrefix (lnk_URL link) "https://signal.group/#" = true
           /\ exists secret, DecodeString StdEncoding password' = Some secret /\ slen secret = groupLinkPasswordSize
      else lnk_URL link = ""%string)
  /\ ((state' = state /\ password' = password /\ lnk_Revision link = Revision g)
      \/ ((state' <> state \/ password' <> password)
          /\ lnk_Revision link = Revision g + 1 /\ Revision g <> MaxUint32)).
Proof.
  unfold WithLinkUpdate. rewrite check_then_Ok. intros [_ H]. apply check_then_Ok in H as [Hc H].
  apply bind_Ok in H as (key & _ & H). apply bind_Ok in H as (pw & Hpw & H). apply bind_Ok in H as (l & Hl & H).
  set (state' := or_else (lup_State u) state) in *. cbn zeta.
  apply Link_Ok in Hl as ((role & Hm) & Hid & Hrev & Hl).
  assert (Hrole : role = GroupRoleAdmin).
  { unfold checkGroupLink in Hc. rewrite Hm in Hc. cbn in Hc.
    destruct (bool_decide (role = GroupRoleAdmin)) eqn:E; [by bool_hyps|done]. }
  unfold updatedGroupLinkPassword in Hpw.
  assert (Hout : password' = pw /\ lnk_ID link = lnk_ID l /\ lnk_State link = lnk_State l /\ lnk_URL link = lnk_URL l
    /\ ((state' = state /\ pw = password /\ lnk_Revision link = Revision g)
        \/ ((state' <> state \/ pw <> password) /\ lnk_Revision link = Revision g + 1 /\ Revision g <> MaxUint32))).
  { destruct ((state' != state) || (pw != password)) eqn:Hch; [destruct (Revision g =? MaxUint32) eqn:Hx; [done|]|]; injection H as <- <-; cbn.
    - split_and!; try done. right. bool_hyps. rewrite Hrev. split_and!; [|done..].
      apply orb_true_iff in Hch as [?|?]; bool_hyps; auto.
    - split_and!; try done. left. bool_hyps. auto. }
  destruct Hout as (-> & Hi & Hst & Hu & Hout). subst role. split_and!; try done; [congruence|..].
  - destruct (_ || _); [done|by injection Hpw].
  - destruct (link_enabled state'); rewrite ?Hst, ?Hu; [tauto|by destruct Hl].
Qed.
End links.

(** ** Witnesses *)

Section witnesses.
Import DemoUuid.

(** Images are the string "png"; link protobufs are the concatenation, passwords constant. *)
#[local] Instance demo_images : ImageLib := {|
  image_DecodeConfig := fun s => if s == "png"%string then Some (mkImageConfig 10 10 "png") else None;
  image_Decode := fun s => s == "png"%string |}.
#[local] Instance demo_links : LinkLib := {|
  marshal_link := fun key password => Some (key ++ password)%string;
  rand_Read := Some "0123456789abcdef"%string |}.

Definition demo_update : GroupUpdate := mkUpdate (Some (mkAvatar "png" false)) (Some "about"%string) None (Some true) None None.

Lemma WithUpdate_spec_witness :
  exists next, WithUpdate demo_group demo_admin demo_update = Ok next /\ Revision next = 8
    /\ exists rev, next = with_Revision (updatedSettings demo_group demo_update) rev.
Proof.
  eassert (H : WithUpdate demo_group demo_admin demo_update = Ok _) by (vm_compute; reflexivity).
  destruct (WithUpdate_spec demo_group _ _ _ H) as (_ & rev & H2 & _).
  eexists. split; [exact H|]. split; [reflexivity|]. exists rev. exact H2.
Defined.

(** The group with a master key of 32 bytes. *)
Definition demo_key : string := "AAECAwQFBgcICQoLDA0ODxAREhMUFRYXGBkaGxwdHh8=".
Definition demo_link_group : Group :=
  mkGroup "" "id" demo_key "Title" "" 7 0 false true true (Members demo_group) [] [] [] MembershipMember GroupRoleAdmin zero_time None.

Lemma WithLinkUpdate_spec_witness :
  exists link password', WithLinkUpdate demo_link_group demo_admin GroupLinkDisabled "" (mkLinkUpdate (Some GroupLinkApproval) false)
      = Ok (link, password')
    /\ lnk_Revision link = 8 /\ MembershipOf demo_link_group demo_admin = (MembershipMember, GroupRoleAdmin).
Proof.
  eassert (H : WithLinkUpdate demo_link_group demo_admin GroupLinkDisabled "" (mkLinkUpdate (Some GroupLinkApproval) false) = Ok (_, _))
    by (vm_compute; reflexivity).
  destruct (WithLinkUpdate_spec demo_link_group _ _ _ _ _ _ H) as (H1 & _).
  do 2 eexists. split; [exact H|]. split; [reflexivity|exact H1].
Defined.
End witnesses.
