(* ===== verification/GroupChange.v ===== *)
(** * Group changes

    What meow_groups*.go sends to the server. [RawGroup] and [GroupChange] are the signalmeow
    structs, with the fields the code reads and writes; a nil pointer in a list is [None].
    [convertGroup] builds the facade's group from a raw one, and the [...Change] functions build
    the change of an operation from a raw group. The theorems relate each change to the group
    state computed by Groups.v, GroupMembers.v and GroupSettings.v: reading the change as
    instructions ([asked]) and applying them to the converted group gives that state. *)

From S2P Require Import Prelude Errors Uuid Utf8 Base64 Types Groups GroupMembers GroupSettings.

(** ** The wire data (signalmeow) *)

Inductive GroupMemberRole := GroupMember_UNKNOWN | GroupMember_DEFAULT | GroupMember_ADMINISTRATOR.
Inductive AccessControl := AccessControl_UNKNOWN | AccessControl_ANY | AccessControl_MEMBER
  | AccessControl_ADMINISTRATOR | AccessControl_UNSATISFIABLE.

#[export] Instance GroupMemberRole_eq_dec : EqDecision GroupMemberRole.
Proof. solve_decision. Defined.
#[export] Instance AccessControl_eq_dec : EqDecision AccessControl.
Proof. solve_decision. Defined.

Section wire.
Context {U : UuidLib}.

(** [libsignalgo.ServiceID]: an ACI or a PNI. *)
Record ServiceID := mkServiceID { sid_IsPNI : bool; sid_UUID : uuid }.
#[export] Instance ServiceID_eq_dec : EqDecision ServiceID.
Proof. solve_decision. Defined.

Definition NewACIServiceID (u : uuid) : ServiceID := mkServiceID false u.
Definition NewPNIServiceID (u : uuid) : ServiceID := mkServiceID true u.

Record RawMember := mkRawMember { rmem_ACI : uuid; rmem_Role : GroupMemberRole; rmem_JoinedAtRevision : Z }.
Record RawPending := mkRawPending {
  rpen_ServiceID : ServiceID; rpen_Role : GroupMemberRole; rpen_AddedByUserID : uuid; rpen_Timestamp : Z }.
Record RawRequesting := mkRawRequesting { rreq_ACI : uuid; rreq_Timestamp : Z }.
Record RawBanned := mkRawBanned { rban_ServiceID : ServiceID; rban_Timestamp : Z }.
Record RawAccess := mkRawAccess {
  acc_Attributes : AccessControl; acc_Members : AccessControl; acc_AddFromInviteLink : AccessControl }.

Record RawGroup := mkRawGroup {
  raw_GroupIdentifier : string; raw_GroupMasterKey : string; raw_Title : string; raw_Description : string;
  raw_AvatarPath : string; raw_Revision : Z; raw_DisappearingMessagesDuration : Z;
  raw_AnnouncementsOnly : bool; raw_Members : list (option RawMember);
  raw_PendingMembers : list (option RawPending); raw_RequestingMembers : list (option RawRequesting);
  raw_BannedMembers : list (option RawBanned); raw_AccessControl : option RawAccess;
  raw_InviteLinkPassword : option string }.

Record GroupChange := mkChange {
  ModifyAvatar : option string; ModifyDescription : option string;
  ModifyDisappearingMessagesDuration : option Z; ModifyAnnouncementsOnly : option bool;
  ModifyAttributesAccess : option AccessControl; ModifyMemberAccess : option AccessControl;
  ModifyAddFromInviteLinkAccess : option AccessControl; ModifyInviteLinkPassword : option string;
  DeleteMembers : list uuid; DeletePendingMembers : list ServiceID; DeleteRequestingMembers : list uuid;
  ModifyMemberRoles : list (uuid * GroupMemberRole); AddMembers : list (uuid * GroupMemberRole);
  PromoteRequestingMembers : list (uuid * GroupMemberRole);
  AddBannedMembers : list (ServiceID * Z); DeleteBannedMembers : list ServiceID }.

(** A change of settings, of the invite link, or of people: the other fields stay empty. *)
Definition settings_change (avatar description : option string) (timer : option Z) (announce : option bool)
    (attributes members : option AccessControl) : GroupChange :=
  mkChange avatar description timer announce attributes members None None [] [] [] [] [] [] [] [].
Definition link_change (access : option AccessControl) (password : option string) : GroupChange :=
  mkChange None None None None None None access password [] [] [] [] [] [] [] [].
Definition people_change (dm : list uuid) (dp : list ServiceID) (dr : list uuid)
    (roles add promote : list (uuid * GroupMemberRole)) (ban : list (ServiceID * Z)) (unban : list ServiceID) : GroupChange :=
  mkChange None None None None None None None None dm dp dr roles add promote ban unban.

(** ** From raw groups (meow_groups.go) *)

Definition convertRole (role : GroupMemberRole) : GroupRole :=
  match role with
  | GroupMember_ADMINISTRATOR => GroupRoleAdmin
  | GroupMember_DEFAULT => GroupRoleMember
  | GroupMember_UNKNOWN => GroupRoleUnknown
  end.

(** [int64] of a [uint64]. *)
Definition to_int64 (n : Z) : Z := if n <=? MaxInt64 then n else n - 2 ^ 64.

Definition msTime (ms : Z) : time := if ms =? 0 then zero_time else of_UnixMilli (to_int64 ms).

(** [serviceRecipient] (meow_send.go). *)
Definition serviceRecipient (id : ServiceID) : Recipient :=
  if sid_IsPNI id then ofPNI (uuid_string (sid_UUID id)) else ofACI (uuid_string (sid_UUID id)).

Definition convertGroupAccess (access : option RawAccess) : bool * bool :=
  match access with
  | None => (false, false)
  | Some a => (acc_Attributes a == AccessControl_MEMBER, acc_Members a == AccessControl_MEMBER)
  end.

Definition convert_member (m : RawMember) : GroupMember :=
  mkMember (ofACI (uuid_string (rmem_ACI m))) (convertRole (rmem_Role m)) (rmem_JoinedAtRevision m).
Definition convert_pending (p : RawPending) : PendingMember :=
  mkPending (serviceRecipient (rpen_ServiceID p)) (convertRole (rpen_Role p))
    (if rpen_AddedByUserID p != uuid_nil then ofACI (uuid_string (rpen_AddedByUserID p)) else zeroRecipient)
    (msTime (rpen_Timestamp p)).
Definition convert_requesting (r : RawRequesting) : RequestingMember :=
  mkRequesting (ofACI (uuid_string (rreq_ACI r))) (msTime (rreq_Timestamp r)).
Definition convert_banned (b : RawBanned) : BannedMember :=
  mkBanned (serviceRecipient (rban_ServiceID b)) (msTime (rban_Timestamp b)).

(** The loops skip nil entries. *)
Definition convert_all {A B} (f : A -> B) (l : list (option A)) : list B :=
  omap (fun x => f <$> x) l.

Definition convertBannedMembers (raw : list (option RawBanned)) : list BannedMember := convert_all convert_banned raw.

Definition convertGroup (raw : RawGroup) (self : Recipient) : Group :=
  let '(attributes, members) := convertGroupAccess (raw_AccessControl raw) in
  let group := mkGroup (raw_AvatarPath raw) (raw_GroupIdentifier raw) (raw_GroupMasterKey raw) (raw_Title raw)
    (raw_Description raw) (raw_Revision raw) (raw_DisappearingMessagesDuration raw * Second)
    (raw_AnnouncementsOnly raw) attributes members
    (convert_all convert_member (raw_Members raw)) (convert_all convert_pending (raw_PendingMembers raw))
    (convert_all convert_requesting (raw_RequestingMembers raw)) (convertBannedMembers (raw_BannedMembers raw))
    MembershipNone GroupRoleUnknown zero_time None in
  with_own group (SelfMembership group self).

(** ** Building changes *)

(** [uuid.MustParse]; a panic is an error of its own. *)
Definition panic : err := Opaque "panic: uuid.MustParse".
Definition MustParse (s : string) : res uuid :=
  match uuid_parse s with Some u => Ok u | None => Err panic end.

(** [acceptServiceID] (meow_groups_accept.go). *)
Definition acceptServiceID (invited : Recipient) : ServiceID :=
  if ACI invited != ""%string then NewACIServiceID (acceptIdentity (ACI invited))
  else NewPNIServiceID (acceptIdentity (PNI invited)).

(** meow_groups_remove.go *)
Definition removeMembersChangeAs (group : Group) (self : Recipient) (members : list Recipient)
    : res (GroupChange * Group) :=
  targets ← removalTargets group self members;
  Ok (people_change
        ((fun m => acceptIdentity (ACI (gm_Recipient m)))
           <$> filter (fun m => removalMatches (ofACI (ACI (gm_Recipient m))) targets = true) (Members group))
        ((fun p => acceptServiceID (pm_Recipient p))
           <$> filter (fun p => removalMatches (pm_Recipient p) targets = true) (Pending group))
        ((fun r => acceptIdentity (ACI (rm_Recipient r)))
           <$> filter (fun r => removalMatches (ofACI (ACI (rm_Recipient r))) targets = true) (Requesting group))
        [] [] [] [] [],
      withRemovedTargets group targets).

(** meow_groups.go *)
Definition containsACI (recipients : list Recipient) (aci : string) : bool :=
  existsb (fun rcpt => ACI rcpt == aci) recipients.

Definition declineInvitationsChange (group : Group) (self : Recipient) : GroupChange :=
  people_change []
    ((fun p => acceptServiceID (pm_Recipient p))
       <$> filter (fun p => acceptSelfMatches (pm_Recipient p) self = true) (Pending group))
    [] [] [] [] [] [].

(** The loop over the members to promote. *)
Fixpoint promotions (promote : list Recipient) (members : list GroupMember)
    : res (list (uuid * GroupMemberRole) * list Recipient) :=
  match members with
  | [] => Ok ([], [])
  | member :: rest =>
      if (gm_Role member == GroupRoleAdmin) || negb (containsACI promote (ACI (gm_Recipient member)))
      then promotions promote rest
      else match uuid_parse (ACI (gm_Recipient member)) with
           | None => Err (Wrap [Sent ErrInvalidPromotion; Opaque "uuid"])
           | Some aci =>
               out ← promotions promote rest;
               Ok ((aci, GroupMember_ADMINISTRATOR) :: out.1, gm_Recipient member :: out.2)
           end
  end.

Definition leaveChange (group : Group) (self : Recipient) (promote : list Recipient)
    : res (GroupChange * list Recipient) :=
  match PrepareLeave group self promote with
  | (_, Some e) => Err e
  | (None, None) => Err panic
  | (Some group, None) =>
      match uuid_parse (ACI self) with
      | None => Err (Wrap [Sent ErrUnresolvable; Opaque "uuid"])
      | Some selfACI =>
          match grp_Membership group with
          | MembershipPending => Ok (declineInvitationsChange group self, [])
          | MembershipRequesting => Ok (people_change [] [] [selfACI] [] [] [] [] [], [])
          | MembershipMember | MembershipNone =>
              out ← promotions promote (Members group);
              Ok (people_change [selfACI] [] [] out.1 [] [] [] [], out.2)
          end
      end
  end.

(** meow_groups_roles.go: the raw group is read with our ACI only. [None] is "no change". *)
Definition wireRole (role : GroupRole) : GroupMemberRole :=
  if role == GroupRoleAdmin then GroupMember_ADMINISTRATOR else GroupMember_DEFAULT.

Fixpoint role_modifications (group : Group) (role : GroupRole) (members : list Recipient)
    : res (list (uuid * GroupMemberRole)) :=
  match members with
  | [] => Ok []
  | member :: rest =>
      if (MembershipOf group (ACI member)).2 != role then
        aci ← MustParse (ACI member);
        out ← role_modifications group role rest; Ok ((aci, wireRole role) :: out)
      else role_modifications group role rest
  end.

Definition memberRoleChange (raw : RawGroup) (self : string) (members : list Recipient) (role : GroupRole)
    : res (option GroupChange) :=
  let group := convertGroup raw (ofACI self) in
  next ← WithMemberRole group self members role;
  if Revision next =? Revision group then Ok None
  else members ← NormalizeGroupRoleMembers members role;
       roles ← role_modifications group role members;
       Ok (Some (people_change [] [] [] roles [] [] [] [])).

(** meow_groups_bans.go *)
Definition NormalizeGroupBanMembers (members : list Recipient) : res (list Recipient) := normalizeGroupMembers members.

Record ban_lists := mkBanLists {
  bl_members : list uuid; bl_pending : list ServiceID; bl_requesting : list uuid;
  bl_ban : list (ServiceID * Z); bl_unban : list ServiceID }.

Definition ban_entry (group : Group) (banned : bool) (bannedAt : time) (aci_text : string) (aci : uuid)
    (out : ban_lists) : ban_lists :=
  let sid := NewACIServiceID aci in
  if negb banned then
    mkBanLists (bl_members out) (bl_pending out) (bl_requesting out) (bl_ban out)
      (if bannedACI group aci_text then sid :: bl_unban out else bl_unban out)
  else
    mkBanLists
      (if existsb (fun m => ACI (gm_Recipient m) == aci_text) (Members group) then aci :: bl_members out else bl_members out)
      (if existsb (fun p => ACI (pm_Recipient p) == aci_text) (Pending group) then sid :: bl_pending out else bl_pending out)
      (if existsb (fun r => ACI (rm_Recipient r) == aci_text) (Requesting group) then aci :: bl_requesting out else bl_requesting out)
      (if negb (bannedACI group aci_text) then (sid, to_uint64 (UnixMilli bannedAt)) :: bl_ban out else bl_ban out)
      (bl_unban out).

Fixpoint ban_changes (group : Group) (banned : bool) (bannedAt : time) (members : list Recipient) : res ban_lists :=
  match members with
  | [] => Ok (mkBanLists [] [] [] [] [])
  | member :: rest =>
      aci ← MustParse (ACI member);
      out ← ban_changes group banned bannedAt rest;
      Ok (ban_entry group banned bannedAt (ACI member) aci out)
  end.

Definition bannedMembersChange (raw : RawGroup) (self : string) (members : list Recipient) (banned : bool)
    (bannedAt : time) : res (option GroupChange) :=
  let group := convertGroup raw (ofACI self) in
  next ← WithBannedMembers group self members banned bannedAt;
  if Revision next =? Revision group then Ok None
  else members ← NormalizeGroupBanMembers members;
       out ← ban_changes group banned bannedAt members;
       Ok (Some (people_change (bl_members out) (bl_pending out) (bl_requesting out) [] [] []
                   (bl_ban out) (bl_unban out))).

(** meow_groups_add.go *)
Fixpoint addition_lists (raw : RawGroup) (group : Group) (targets : list Recipient)
    : res (list (uuid * GroupMemberRole) * list (uuid * GroupMemberRole)) :=
  match targets with
  | [] => Ok ([], [])
  | target :: rest =>
      aci ← MustParse (ACI target);
      if existsb (fun b => match b with Some b => rban_ServiceID b == NewACIServiceID aci | None => false end)
           (raw_BannedMembers raw)
      then Err (errorf ErrInvalidGroupMember)
      else
        out ← addition_lists raw group rest;
        if (MembershipOf group (ACI target)).1 == MembershipRequesting
        then Ok (out.1, (aci, GroupMember_DEFAULT) :: out.2)
        else Ok ((aci, GroupMember_DEFAULT) :: out.1, out.2)
  end.

Definition addMembersChange (raw : RawGroup) (self : string) (members : list Recipient) : res GroupChange :=
  let group := convertGroup raw (ofACI self) in
  targets ← CheckAddMembers group self members;
  out ← addition_lists raw group targets;
  Ok (people_change [] [] [] [] out.1 out.2 [] []).

(** meow_groups_update.go *)
Definition settingsAccess (members : bool) : AccessControl :=
  if members then AccessControl_MEMBER else AccessControl_ADMINISTRATOR.

Definition access_change (current : AccessControl) (wanted : option bool) : option AccessControl :=
  match wanted with
  | Some b => if current != settingsAccess b then Some (settingsAccess b) else None
  | None => None
  end.

Definition settingsAccessChanges (access : option RawAccess) (u : GroupUpdate)
    : option AccessControl * option AccessControl :=
  let attributes := match access with Some a => acc_Attributes a | None => AccessControl_UNKNOWN end in
  let members := match access with Some a => acc_Members a | None => AccessControl_UNKNOWN end in
  (access_change attributes (upd_MembersCanEditAttributes u), access_change members (upd_MembersCanAddMembers u)).

Definition changed {A} `{EqDecision A} (current next : A) : option A := if next != current then Some next else None.

Definition settingsChange `{ImageLib} (raw : RawGroup) (self : string) (u : GroupUpdate) : res (option GroupChange) :=
  let group := convertGroup raw (ofACI self) in
  next ← WithUpdate group self u;
  let '(attributes, members) := settingsAccessChanges (raw_AccessControl raw) u in
  if (Revision next =? Revision group) && negb (given attributes) && negb (given members) then Ok None
  else if raw_Revision raw =? MaxUint32 then Err (errorf ErrUnknownGroup)
  else Ok (Some (settings_change
         (changed (AvatarPath group) (AvatarPath next)) (changed (Description group) (Description next))
         (if Timer next != Timer group then upd_TimerSeconds u else None)
         (changed (AnnouncementsOnly group) (AnnouncementsOnly next)) attributes members)).

(** meow_groups_link.go *)
Definition rawGroupLink (raw : RawGroup) : GroupLinkState * string :=
  (match raw_AccessControl raw with
   | None => GroupLinkUnknown
   | Some a =>
       match acc_AddFromInviteLink a with
       | AccessControl_UNSATISFIABLE => GroupLinkDisabled
       | AccessControl_ANY => GroupLinkEnabled
       | AccessControl_ADMINISTRATOR => GroupLinkApproval
       | AccessControl_UNKNOWN | AccessControl_MEMBER => GroupLinkUnknown
       end
   end,
   or_else (raw_InviteLinkPassword raw) ""%string).

Definition groupLinkAccess (state : GroupLinkState) : AccessControl :=
  match state with
  | GroupLinkDisabled => AccessControl_UNSATISFIABLE
  | GroupLinkEnabled => AccessControl_ANY
  | GroupLinkApproval => AccessControl_ADMINISTRATOR
  | GroupLinkUnknown | GroupLinkOther _ => AccessControl_UNKNOWN
  end.

Definition groupLinkChange `{LinkLib} (raw : RawGroup) (self : string) (u : GroupLinkUpdate) : res (option GroupChange) :=
  let group := convertGroup raw (ofACI self) in
  let (state, password) := rawGroupLink raw in
  next ← WithLinkUpdate group self state password u;
  if lnk_Revision next.1 =? Revision group then Ok None
  else Ok (Some (link_change
         (match lup_State u with
          | Some s =>
              let access := groupLinkAccess s in
              match raw_AccessControl raw with
              | None => Some access
              | Some a => if acc_AddFromInviteLink a != access then Some access else None
              end
          | None => None
          end)
         (if next.2 != password then Some next.2 else None))).

Definition convertGroupLink `{LinkLib} (raw : RawGroup) (self : string) : res GroupLink :=
  let (state, password) := rawGroupLink raw in
  Link (convertGroup raw (ofACI self)) self state password.

Definition verifiedGroupLink `{LinkLib} (raw : RawGroup) (self : string) (committedRevision : Z)
    : GroupLink * error :=
  match convertGroupLink raw self with
  | Ok link => (link, None)
  | Err e => (mkLink (raw_GroupIdentifier raw) committedRevision (GroupLinkOther "") "", Some (Wrap [e]))
  end.
End wire.

(** ** Reading a change as instructions *)

Section asked.
Context {U : UuidLib}.

Definition asked_role (roles : list (uuid * GroupMemberRole)) (m : GroupMember) : GroupMember :=
  match find_first (fun r => r.1 == acceptIdentity (ACI (gm_Recipient m))) roles with
  | Some (_, role) => with_role m (convertRole role)
  | None => m
  end.

(** The people of [g] once everyone the change names is deleted, changed, banned or unbanned. *)
Definition asked (c : GroupChange) (g : Group) : Group :=
  with_people g
    (asked_role (ModifyMemberRoles c)
       <$> DeleteFunc (fun m => bool_decide (acceptIdentity (ACI (gm_Recipient m)) ∈ DeleteMembers c)) (Members g))
    (DeleteFunc (fun p => bool_decide (acceptServiceID (pm_Recipient p) ∈ DeletePendingMembers c)) (Pending g))
    (DeleteFunc (fun r => bool_decide (acceptIdentity (ACI (rm_Recipient r)) ∈ DeleteRequestingMembers c)) (Requesting g))
    (DeleteFunc (fun b => bool_decide (acceptServiceID (bm_Recipient b) ∈ DeleteBannedMembers c)) (Banned g)
     ++ ((fun b => mkBanned (serviceRecipient b.1) (msTime b.2)) <$> AddBannedMembers c)).

Lemma asked_role_nil (l : list GroupMember) : asked_role [] <$> l = l.
Proof. induction l as [|m l IH]; [done|]. cbn. by rewrite IH. Qed.

Lemma DeleteFunc_nil {A K} `{EqDecision K} (k : A -> K) l : DeleteFunc (fun x => bool_decide (k x ∈ @nil K)) l = l.
Proof.
  apply DeleteFunc_none. intros x _. apply bool_decide_eq_false_2. apply not_elem_of_nil.
Qed.

Lemma DeleteFunc_all {A} (f : A -> bool) l : (forall x, x ∈ l -> f x = true) -> DeleteFunc f l = [].
Proof. intros H. apply elem_of_nil_inv. intros x [Hx Hf]%DeleteFunc_elem. rewrite H in Hf; done. Qed.

(** Deleting by a key from a list of keys that was collected from the elements [f] accepts. *)
Lemma DeleteFunc_collected {A K} `{EqDecision K} (k : A -> K) (f : A -> bool) l :
  (forall x y, x ∈ l -> y ∈ l -> f x = true -> k x = k y -> f y = true) ->
  DeleteFunc (fun x => bool_decide (k x ∈ k <$> filter (fun y => f y = true) l)) l = DeleteFunc f l.
Proof.
  intros H. apply DeleteFunc_ext. intros y Hy. apply eq_true_iff_eq. rewrite bool_decide_eq_true, list_elem_of_fmap.
  split.
  - intros (x & Hk & [Hf Hx]%list_elem_of_filter). by apply (H x y).
  - intros Hf. exists y. split; [done|]. by apply list_elem_of_filter.
Qed.
End asked.

Section convert.
Context {U : UuidLib} {UL : UuidLaws U}.

Lemma convert_all_elem {A B} (f : A -> B) l y : y ∈ convert_all f l <-> exists x, Some x ∈ l /\ y = f x.
Proof.
  unfold convert_all. rewrite list_elem_of_omap. split.
  - intros ([x|] & Hx & E); [|done]. cbn in E. exists x. naive_solver.
  - intros (x & Hx & ->). by exists (Some x).
Qed.

Lemma convertGroup_people raw self :
  Members (convertGroup raw self) = convert_all convert_member (raw_Members raw)
  /\ Pending (convertGroup raw self) = convert_all convert_pending (raw_PendingMembers raw)
  /\ Requesting (convertGroup raw self) = convert_all convert_requesting (raw_RequestingMembers raw)
  /\ Banned (convertGroup raw self) = convertBannedMembers (raw_BannedMembers raw).
Proof. unfold convertGroup. by destruct (convertGroupAccess _). Qed.

Lemma convertGroup_canonical raw self : canonical_group (convertGroup raw self).
Proof.
  destruct (convertGroup_people raw self) as (Hm & _ & Hr & _). split.
  - rewrite Hm. intros m (x & _ & ->)%convert_all_elem. right. by eexists.
  - rewrite Hr. intros m (x & _ & ->)%convert_all_elem. right. by eexists.
Qed.

Lemma convertGroup_member_text raw self m :
  m ∈ Members (convertGroup raw self) -> exists u, gm_Recipient m = ofACI (uuid_string u).
Proof.
  destruct (convertGroup_people raw self) as (-> & _). intros (x & _ & ->)%convert_all_elem. by eexists.
Qed.

Lemma convertGroup_pending_text raw self p :
  p ∈ Pending (convertGroup raw self) ->
  exists u, pm_Recipient p = ofACI (uuid_string u) \/ pm_Recipient p = ofPNI (uuid_string u).
Proof.
  destruct (convertGroup_people raw self) as (_ & -> & _). intros (x & _ & ->)%convert_all_elem.
  cbn. unfold serviceRecipient. destruct (sid_IsPNI _); eexists; [by right|by left].
Qed.

(** The wire identity of a one-identity recipient decides whom it matches. *)
Lemma acceptServiceID_ACI u : acceptServiceID (ofACI (uuid_string u)) = NewACIServiceID u.
Proof.
  unfold acceptServiceID. cbn. rewrite bool_decide_eq_false_2 by apply uuid_string_nonempty.
  by rewrite acceptIdentity_string.
Qed.
Lemma acceptServiceID_PNI u : acceptServiceID (ofPNI (uuid_string u)) = NewPNIServiceID u.
Proof. unfold acceptServiceID. cbn. by rewrite acceptIdentity_string. Qed.

Lemma pending_sid_inj raw self p p' :
  p ∈ Pending (convertGroup raw self) -> p' ∈ Pending (convertGroup raw self) ->
  acceptServiceID (pm_Recipient p) = acceptServiceID (pm_Recipient p') -> pm_Recipient p = pm_Recipient p'.
Proof.
  intros (u & [->| ->])%convertGroup_pending_text (v & [->| ->])%convertGroup_pending_text;
    rewrite ?acceptServiceID_ACI, ?acceptServiceID_PNI; by intros [= ->].
Qed.

(** C39. The change sent to remove members, read as instructions, gives exactly the group the
    check computed: the right members, invitations and requests are deleted, and no others. *)
Theorem removeMembersChangeAs_refines raw own self ms c next :
  removeMembersChangeAs (convertGroup raw own) self ms = Ok (c, next) ->
  WithRemovedMembersAs (convertGroup raw own) self ms = Ok next
  /\ asked c (convertGroup raw own) = next.
Proof.
  set (g := convertGroup raw own). unfold removeMembersChangeAs, WithRemovedMembersAs.
  rewrite bind_Ok. intros (ts & Hts & [= <- <-]). split; [by rewrite Hts|].
  unfold asked, withRemovedTargets. cbn -[DeleteFunc]. rewrite asked_role_nil, DeleteFunc_nil, app_nil_r.
  assert (Haci : forall a b, removalMatches (ofACI a) ts = true -> acceptIdentity a = acceptIdentity b ->
                   removalMatches (ofACI b) ts = true).
  { intros a b (t & Ht & Hm)%requested_spec E. apply requested_spec. exists t. split; [done|].
    apply acceptSelfMatches_ofACI in Hm as [? ?]. apply acceptSelfMatches_ofACI. split; congruence. }
  f_equal.
  - by apply (DeleteFunc_collected (fun m => acceptIdentity (ACI (gm_Recipient m)))
      (fun m => removalMatches (ofACI (ACI (gm_Recipient m))) ts)); eauto.
  - apply (DeleteFunc_collected (fun p => acceptServiceID (pm_Recipient p))
      (fun p => removalMatches (pm_Recipient p) ts)).
    intros p p' Hp Hp' Hm E. by rewrite <- (pending_sid_inj raw own p p' Hp Hp' E).
  - by apply (DeleteFunc_collected (fun r => acceptIdentity (ACI (rm_Recipient r)))
      (fun r => removalMatches (ofACI (ACI (rm_Recipient r))) ts)); eauto.
Qed.
End convert.

(** ** Leaving *)

Section leave.
Context {U : UuidLib} {UL : UuidLaws U}.

Lemma promotions_Ok promote ms roles rs :
  promotions promote ms = Ok (roles, rs) ->
  forall aci role, (aci, role) ∈ roles <->
    role = GroupMember_ADMINISTRATOR /\ exists m, m ∈ ms /\ gm_Role m <> GroupRoleAdmin
      /\ containsACI promote (ACI (gm_Recipient m)) = true /\ uuid_parse (ACI (gm_Recipient m)) = Some aci.
Proof.
  revert roles rs. induction ms as [|m ms IH]; intros roles rs; cbn [promotions].
  { intros [= <- <-] aci role. split; [by intros ?%elem_of_nil|]. by intros (_ & ? & ?%elem_of_nil & _). }
  destruct (_ || _) eqn:Hs.
  - intros H aci role. rewrite (IH _ _ H). do 2 f_equiv. intros x. rewrite elem_of_cons.
    split; [tauto|]. intros ([->|?] & Hr & Hc & ?); [|tauto]. exfalso.
    apply orb_true_iff in Hs as [Hs|Hs]; bool_hyps; congruence.
  - bool_hyps. destruct (uuid_parse (ACI (gm_Recipient m))) as [u|] eqn:Hu; [|done].
    rewrite bind_Ok. intros ([roles' rs'] & Hrec & [= <- <-]) aci role. cbn.
    rewrite elem_of_cons, (IH _ _ Hrec). split.
    + intros [[= -> ->]|(-> & x & ? & ?)]; (split; [done|]).
      * exists m. split_and!; [by left|done..].
      * exists x. split; [by right|done].
    + intros (-> & x & [->|Hx]%elem_of_cons & ? & ? & Hux).
      * left. congruence.
      * right. split; [done|]. by exists x.
Qed.

(** A member the change does not delete, with a promotion in it or already administrator,
    is an administrator afterwards. *)
Lemma asked_admin c g m :
  m ∈ Members g -> acceptIdentity (ACI (gm_Recipient m)) ∉ DeleteMembers c ->
  (forall r, r ∈ ModifyMemberRoles c -> r.2 = GroupMember_ADMINISTRATOR) ->
  gm_Role m = GroupRoleAdmin
    \/ (exists role, (acceptIdentity (ACI (gm_Recipient m)), role) ∈ ModifyMemberRoles c) ->
  0 < Admins (asked c g).
Proof.
  intros Hm Hd Hall Hr. apply Admins_pos. exists (asked_role (ModifyMemberRoles c) m). split.
  - cbn. apply list_elem_of_fmap. exists m. split; [done|]. apply DeleteFunc_elem. split; [done|].
    by apply bool_decide_eq_false_2.
  - unfold asked_role. destruct (find_first _ _) as [[u role]|] eqn:E.
    + apply find_first_Some in E as [Hin _]. apply Hall in Hin. cbn in Hin. by subst.
    + destruct Hr as [?|(role & Hin)]; [done|]. rewrite find_first_None in E. apply E in Hin.
      cbn in Hin. by apply bool_decide_eq_false_1 in Hin.
Qed.

Lemma two_admins g m0 :
  members_unique g -> m0 ∈ Members g -> 2 <= Admins g ->
  exists m, m ∈ Members g /\ gm_Role m = GroupRoleAdmin /\ ACI (gm_Recipient m) <> ACI (gm_Recipient m0).
Proof.
  intros Hu Hm0 Ha.
  assert (Hsub : NoDup ((fun m => ACI (gm_Recipient m)) <$> filter (fun m => is_admin m = true) (Members g))).
  { eapply sublist_NoDup; [exact Hu|]. unfold member_acis. apply fmap_sublist, sublist_filter. }
  unfold Admins, len in Ha.
  destruct (filter (fun m => is_admin m = true) (Members g)) as [|a [|b l]] eqn:E; cbn in Ha; [lia..|].
  assert (Hin : forall x, x ∈ [a; b] -> x ∈ Members g /\ gm_Role x = GroupRoleAdmin).
  { intros x Hx. assert (Hf : x ∈ filter (fun m => is_admin m = true) (Members g)).
    { rewrite E. apply elem_of_cons in Hx as [->|Hx]; [by left|].
      apply list_elem_of_singleton in Hx as ->. right. by left. }
    apply list_elem_of_filter in Hf as [Hb ?]. split; [done|]. by apply bool_decide_eq_true_1 in Hb. }
  destruct (Hin a) as [Ha1 Ha2]; [by left|]. destruct (Hin b) as [Hb1 Hb2]; [right; by left|].
  cbn in Hsub. apply NoDup_cons in Hsub as [Hab _].
  destruct (decide (ACI (gm_Recipient a) = ACI (gm_Recipient m0))) as [Eq|]; [exists b|by exists a].
  split_and!; [done..|]. intros Eb. apply Hab. rewrite Eq, <- Eb. by left.
Qed.

(** What the last-administrator check leaves: nobody else, a second administrator, or a
    promoted member. *)
Lemma checkLeave_admin g self promote :
  checkLeave g self promote MembershipMember GroupRoleAdmin = None -> 0 < Admins g ->
  len (Members g) <= 1 \/ 2 <= Admins g
  \/ exists m, m ∈ Members g /\ (MembershipOf g (ACI (gm_Recipient m))).2 <> GroupRoleAdmin
       /\ ACI (gm_Recipient m) <> ""%string /\ containsACI promote (ACI (gm_Recipient m)) = true.
Proof.
  unfold checkLeave. rewrite (bool_decide_eq_false_2 (MembershipMember = MembershipNone)) by done.
  rewrite (bool_decide_eq_true_2 (MembershipMember = MembershipMember)) by done.
  rewrite (bool_decide_eq_true_2 (GroupRoleAdmin = GroupRoleAdmin)) by done. cbn. rewrite andb_false_r.
  destruct (newAdmins g self promote) as [n|] eqn:Hn; [|done].
  destruct ((Admins g + n =? 1) && (1 <? len (Members g))) eqn:Hc; [done|]. intros _ Ha.
  apply newAdmins_loop_Ok in Hn as (Hp & s & -> & _ & Hs).
  apply andb_false_iff in Hc as [Hc|Hc]; bool_hyps; [|by left]. right.
  destruct (decide (size s = 0%nat)) as [Hz|Hz]; [left; lia|]. right.
  destruct (set_choose_or_empty s) as [[a Hin]|He].
  2: { exfalso. apply Hz. by apply size_empty_iff. }
  apply Hs in Hin as [?%elem_of_empty|(r & Hr & <- & Hrole)]; [done|].
  destruct (Hp r Hr) as ((m & E & Hm)%list_elem_of_fmap & _ & Hne).
  exists m. rewrite <- E. split_and!; [done..|]. apply existsb_exists. exists r.
  split; [by apply list_elem_of_In|by apply bool_decide_eq_true_2].
Qed.

Lemma asked_role_Recipient roles m : gm_Recipient (asked_role roles m) = gm_Recipient m.
Proof. unfold asked_role. destruct (find_first _ _) as [[? ?]|]; by destruct m. Qed.

Lemma asked_recipients c g :
  gm_Recipient <$> Members (asked c g)
  = gm_Recipient <$> DeleteFunc (fun m => bool_decide (acceptIdentity (ACI (gm_Recipient m)) ∈ DeleteMembers c)) (Members g).
Proof. cbn. rewrite <- list_fmap_compose. apply list_fmap_ext. intros ? m _. apply asked_role_Recipient. Qed.

(** Our own full membership, read through the account's parsed ACI. *)
Lemma SelfMembership_member g self role :
  SelfMembership g self = (MembershipMember, role) ->
  acceptIdentity (ACI self) <> uuid_nil
  /\ MembershipOf (with_Pending g []) (uuid_string (acceptIdentity (ACI self))) = (MembershipMember, role).
Proof.
  unfold SelfMembership. destruct (bool_decide (acceptIdentity (ACI self) = uuid_nil)) eqn:En; [done|]. bool_hyps.
  destruct (MembershipOf _ _) as [membership r].
  destruct (bool_decide (membership = MembershipMember)) eqn:Em; [bool_hyps; by subst|].
  bool_hyps. destruct (find_first _ (Pending g)) as [|]; [done|].
  destruct (find_first _ (Pending g)) as [|]; [done|]. intros [= -> ->]. done.
Qed.

(** What [leaveChange] returns, by membership. *)
Lemma leaveChange_Ok g self promote c promoted :
  leaveChange g self promote = Ok (c, promoted) ->
  let (membership, role) := SelfMembership g self in
  checkLeave (with_own g (membership, role)) (ACI self) promote membership role = None
  /\ uuid_parse (ACI self) = Some (acceptIdentity (ACI self))
  /\ match membership with
     | MembershipNone => False
     | MembershipPending => c = declineInvitationsChange g self
     | MembershipRequesting => c = people_change [] [] [acceptIdentity (ACI self)] [] [] [] [] []
     | MembershipMember => exists roles, promotions promote (Members g) = Ok (roles, promoted)
         /\ c = people_change [acceptIdentity (ACI self)] [] [] roles [] [] [] []
     end.
Proof.
  unfold leaveChange, PrepareLeave. destruct (bool_decide (acceptIdentity (ACI self) = uuid_nil)) eqn:En; [done|].
  bool_hyps. destruct (SelfMembership g self) as [membership role]. cbn [grp_Membership grp_Role with_own fst snd].
  destruct (checkLeave _ _ _ _ _) eqn:Hc; [done|]. intros H. split; [done|].
  unfold acceptIdentity in *. destruct (uuid_parse (ACI self)) as [u|] eqn:Hu; [|done]. split; [done|].
  destruct membership.
  - unfold checkLeave in Hc. by rewrite (bool_decide_eq_true_2 (MembershipNone = MembershipNone)) in Hc.
  - apply bind_Ok in H as ([roles rs] & Hp & [= <- <-]). by exists roles.
  - by injection H as <- <-.
  - by injection H as <- <-.
Qed.

(** Our entry in a converted group: the canonical text of our ACI. *)
Lemma own_entry raw own m u :
  m ∈ Members (convertGroup raw own) -> acceptIdentity (ACI (gm_Recipient m)) = u ->
  ACI (gm_Recipient m) = uuid_string u.
Proof. intros (v & ->)%convertGroup_member_text. cbn. rewrite acceptIdentity_string. by intros ->. Qed.

Lemma leave_admin raw own self promote roles promoted :
  let g := convertGroup raw own in
  let c := people_change [acceptIdentity (ACI self)] [] [] roles [] [] [] [] in
  members_unique g ->
  SelfMembership g self = (MembershipMember, GroupRoleAdmin) ->
  checkLeave (with_own g (MembershipMember, GroupRoleAdmin)) (ACI self) promote MembershipMember GroupRoleAdmin = None ->
  promotions promote (Members g) = Ok (roles, promoted) ->
  Members (asked c g) = [] \/ 0 < Admins (asked c g).
Proof.
  intros g c Hu (Hn & (Hne & m0 & Hm0 & Ha0 & Hr0)%MembershipOf_member)%SelfMembership_member Hc Hp.
  assert (Hroles : forall r, r ∈ roles -> r.2 = GroupMember_ADMINISTRATOR).
  { intros [u r] Hin. by apply (promotions_Ok _ _ _ _ Hp) in Hin as [? _]. }
  assert (Hkeep : forall m, m ∈ Members g -> ACI (gm_Recipient m) <> ACI (gm_Recipient m0) ->
            acceptIdentity (ACI (gm_Recipient m)) ∉ DeleteMembers c).
  { intros m Hm Hd Hin. apply list_elem_of_singleton in Hin.
    apply Hd. rewrite Ha0. by apply (own_entry raw own). }
  apply checkLeave_admin in Hc; [|apply Admins_pos; by exists m0].
  destruct Hc as [Hl|[H2|(m & Hm & Hrole & Hmne & Hcon)]].
  - left. cbn in *. destruct (Members g) as [|x [|y l]] eqn:E; [by apply elem_of_nil in Hm0| |].
    + apply list_elem_of_singleton in Hm0 as ->. rewrite DeleteFunc_all; [done|].
      intros x' Hx'%list_elem_of_singleton. subst x'. apply bool_decide_eq_true_2, list_elem_of_singleton.
      rewrite Ha0. apply acceptIdentity_string.
    + unfold len in Hl. cbn in Hl. lia.
  - right. apply (two_admins g m0) in H2 as (m & Hm & Hr & Hd); [|done..].
    apply (asked_admin c g m); auto.
  - right. assert (Hrm : gm_Role m <> GroupRoleAdmin).
    { pose proof (MembershipOf_unique g m Hu Hm Hmne) as E.
      change (MembershipOf (with_own g (MembershipMember, GroupRoleAdmin))) with (MembershipOf g) in Hrole.
      by rewrite E in Hrole. }
    apply (asked_admin c g m); [done| |done|].
    + apply Hkeep; [done|]. intros E. apply Hrm. rewrite <- Hr0.
      pose proof (MembershipOf_unique g m Hu Hm Hmne) as E1.
      assert (Hm0ne : ACI (gm_Recipient m0) <> ""%string) by congruence.
      pose proof (MembershipOf_unique g m0 Hu Hm0 Hm0ne) as E2. congruence.
    + right. exists GroupMember_ADMINISTRATOR. apply (promotions_Ok _ _ _ _ Hp). split; [done|].
      exists m. split_and!; [done..|]. destruct (convertGroup_member_text raw own m Hm) as (u & ->). cbn.
      by rewrite acceptIdentity_string, uuid_parse_string.
Qed.

(** Leaving: the change takes exactly us out of the group (our membership, every one of our
    invitations, or our request) and touches nobody else, and an administrator who leaves a
    group leaves it empty or with an administrator. *)
Theorem leaveChange_spec raw own self promote c promoted :
  let g := convertGroup raw own in
  members_unique g ->
  leaveChange g self promote = Ok (c, promoted) ->
  match SelfMembership g self with
  | (MembershipMember, role) =>
      gm_Recipient <$> Members (asked c g)
        = gm_Recipient <$> DeleteFunc (fun m => acceptIdentity (ACI (gm_Recipient m)) == acceptIdentity (ACI self)) (Members g)
      /\ asked c g = with_Members g (Members (asked c g))
      /\ (role = GroupRoleAdmin -> Members (asked c g) = [] \/ 0 < Admins (asked c g))
  | (MembershipPending, _) =>
      asked c g = with_Pending g (DeleteFunc (fun p => acceptSelfMatches (pm_Recipient p) self) (Pending g))
  | (MembershipRequesting, _) =>
      asked c g = with_people g (Members g) (Pending g)
        (DeleteFunc (fun r => acceptIdentity (ACI (rm_Recipient r)) == acceptIdentity (ACI self)) (Requesting g)) (Banned g)
  | (MembershipNone, _) => False
  end.
Proof.
  intros g Hu H. apply leaveChange_Ok in H.
  destruct (SelfMembership g self) as [membership role] eqn:Hself.
  destruct H as (Hc & _ & H). destruct membership; [done|..].
  - destruct H as (roles & Hp & ->). split_and!.
    + rewrite asked_recipients. f_equal. apply DeleteFunc_ext. intros m _. cbn.
      apply bool_decide_ext. apply list_elem_of_singleton.
    + unfold asked, with_Members. cbn -[DeleteFunc]. by rewrite !DeleteFunc_nil, app_nil_r.
    + intros ->. by eapply leave_admin.
  - subst c. unfold asked, declineInvitationsChange, with_Pending. cbn -[DeleteFunc].
    rewrite asked_role_nil, app_nil_r, (DeleteFunc_nil (A:=GroupMember)), (DeleteFunc_nil (A:=RequestingMember)),
      (DeleteFunc_nil (A:=BannedMember)).
    f_equal. apply (DeleteFunc_collected (fun p => acceptServiceID (pm_Recipient p))
      (fun p => acceptSelfMatches (pm_Recipient p) self)).
    intros p p' Hp Hp' Hm E. by rewrite <- (pending_sid_inj raw own p p' Hp Hp' E).
  - subst c. unfold asked. cbn -[DeleteFunc].
    rewrite asked_role_nil, app_nil_r, (DeleteFunc_nil (A:=GroupMember)), (DeleteFunc_nil (A:=PendingMember)),
      (DeleteFunc_nil (A:=BannedMember)).
    f_equal. apply DeleteFunc_ext. intros r _. apply bool_decide_ext. apply list_elem_of_singleton.
Qed.
End leave.

(** ** Roles and bans on the wire *)

Section role_change.
Context {U : UuidLib} {UL : UuidLaws U}.

Lemma role_modifications_Ok g role out roles :
  role_modifications g role out = Ok roles ->
  forall u r, (u, r) ∈ roles <->
    r = wireRole role /\ exists t, t ∈ out /\ uuid_parse (ACI t) = Some u /\ (MembershipOf g (ACI t)).2 <> role.
Proof.
  revert roles. induction out as [|t out IH]; intros roles; cbn [role_modifications].
  { intros [= <-] u r. split; [by intros ?%elem_of_nil|]. by intros (_ & ? & ?%elem_of_nil & _). }
  destruct (bool_decide ((MembershipOf g (ACI t)).2 = role)) eqn:Er; bool_hyps; cbn [negb].
  - intros Hrec u r. rewrite (IH _ Hrec). do 2 f_equiv. intros x. rewrite elem_of_cons.
    split; [tauto|]. by intros ([->|?] & ? & ?).
  - rewrite bind_Ok. intros (aci & Ha & Hk). apply bind_Ok in Hk as (roles' & Hrec & [= <-]).
    unfold MustParse in Ha. destruct (uuid_parse (ACI t)) as [v|] eqn:Ev; [|done]. injection Ha as ->.
    intros u r. rewrite elem_of_cons, (IH _ Hrec). split.
    + intros [[= -> ->]|(-> & x & ? & ?)]; (split; [done|]).
      * exists t. split_and!; [by left|done..].
      * exists x. split; [by right|done].
    + intros (-> & x & [->|Hx]%elem_of_cons & Hux & ?); [left; congruence|].
      right. split; [done|]. by exists x.
Qed.

Lemma convert_wireRole role : role = GroupRoleAdmin \/ role = GroupRoleMember -> convertRole (wireRole role) = role.
Proof. by intros [-> | ->]. Qed.

Lemma asked_role_named raw own ms out role roles :
  let g := convertGroup raw own in
  members_unique g -> normalizeGroupMembers ms = Ok out -> role = GroupRoleAdmin \/ role = GroupRoleMember ->
  role_modifications g role out = Ok roles ->
  asked_role roles <$> Members g = change_roles g ms role.
Proof.
  intros g Hu Ho Hrole Hr. pose proof (role_modifications_Ok _ _ _ _ Hr) as Hin.
  pose proof (normalizeGroupMembers_Ok _ _ Ho) as (_ & _ & Hnames).
  unfold change_roles. apply list_fmap_ext. intros i m Hm. apply list_elem_of_lookup_2 in Hm.
  destruct (convertGroup_member_text raw own m Hm) as (v & Ev).
  assert (Hne : ACI (gm_Recipient m) <> ""%string) by (rewrite Ev; apply uuid_string_nonempty).
  pose proof (MembershipOf_unique g m Hu Hm Hne) as Hmr.
  assert (Hid : acceptIdentity (ACI (gm_Recipient m)) = v) by (rewrite Ev; apply acceptIdentity_string).
  unfold asked_role. destruct (find_first _ roles) as [[u r]|] eqn:E.
  - apply find_first_Some in E as [Hur Eu]. bool_hyps. cbn in Eu. subst u.
    apply Hin in Hur as (-> & t & Ht & Hp & _). rewrite Hid in Hp.
    replace (names ms (ACI (gm_Recipient m))) with true; [by rewrite convert_wireRole|].
    symmetry. apply Hnames, list_elem_of_fmap. exists t. split; [|done].
    destruct (normalizeGroupMembers_Ok _ _ Ho) as (_ & Htext & _).
    apply Htext in Ht as (_ & [E0|(w & Ew)] & _); [by rewrite E0, uuid_parse_empty in Hp|].
    rewrite Ew, uuid_parse_string in Hp. injection Hp as ->. by rewrite Ew, Ev.
  - destruct (names ms (ACI (gm_Recipient m))) eqn:Hn; [|done].
    destruct (decide (gm_Role m = role)) as [<-|Hd]; [by rewrite with_role_same|]. exfalso.
    apply Hnames in Hn as (t & Et & Ht)%list_elem_of_fmap.
    rewrite find_first_None in E. specialize (E (v, wireRole role)). cbn in E.
    rewrite Hid in E. rewrite (bool_decide_eq_true_2 (v = v)) in E by done. discriminate E.
    apply Hin. split; [done|]. exists t. rewrite <- Et. split_and!; [done| |by rewrite Hmr].
    rewrite Ev. cbn. apply uuid_parse_string.
Qed.

(** The change sent for a role change, read as instructions, gives the members the check
    computed, and no change is sent exactly when no role would change. *)
Theorem memberRoleChange_refines raw self ms role o :
  let g := convertGroup raw (ofACI self) in
  members_unique g ->
  memberRoleChange raw self ms role = Ok o ->
  exists next, WithMemberRole g self ms role = Ok next /\
    match o with
    | None => Members next = Members g
    | Some c => Members next <> Members g /\ asked c g = with_Members g (Members next)
    end.
Proof.
  intros g Hu. unfold memberRoleChange. fold g. rewrite bind_Ok. intros (next & Hn & H).
  exists next. split; [done|].
  pose proof (WithMemberRole_Ok _ _ _ _ _ Hn) as (_ & _ & Hnext & _ & _).
  assert (Hrev : Revision next = if bool_decide (change_roles g ms role = Members g) then Revision g else Revision g + 1)
    by (rewrite Hnext; reflexivity).
  assert (Hmem : Members next = change_roles g ms role) by (rewrite Hnext; reflexivity).
  rewrite Hmem. destruct (bool_decide (change_roles g ms role = Members g)) eqn:Hch; bool_hyps.
  - rewrite Hrev, Z.eqb_refl in H. by injection H as <-.
  - replace (Revision next =? Revision g) with false in H by (symmetry; apply Z.eqb_neq; lia).
    apply bind_Ok in H as (out & Hout & H). apply bind_Ok in H as (roles & Hroles & [= <-]).
    split; [done|]. unfold NormalizeGroupRoleMembers in Hout. destruct (_ && _) eqn:Hv; [done|].
    unfold asked, with_Members. cbn -[DeleteFunc]. rewrite !DeleteFunc_nil, app_nil_r. f_equal.
    apply (asked_role_named raw (ofACI self) ms out); [done|done| |done].
    apply andb_false_iff in Hv as [Hv|Hv]; bool_hyps; auto.
Qed.

(** The ban entry the server keeps for one the check computed: the person by ACI, the time in
    milliseconds. *)
Definition on_wire (b : BannedMember) : BannedMember :=
  mkBanned (ofACI (ACI (bm_Recipient b))) (msTime (to_uint64 (UnixMilli (BannedAt b)))).

(** The lists of a ban change, when every target is a canonical ACI. *)
Lemma ban_changes_Ok g banned at_ out l :
  (forall t, t ∈ out -> text_id (ACI t)) -> (forall t, t ∈ out -> ACI t <> ""%string) ->
  ban_changes g banned at_ out = Ok l ->
  let pick (P : Recipient -> bool) := (fun t => acceptIdentity (ACI t)) <$> filter (fun t => P t = true) out in
  if banned then
    bl_members l = pick (fun t => existsb (fun m => ACI (gm_Recipient m) == ACI t) (Members g))
    /\ bl_pending l = NewACIServiceID <$> pick (fun t => existsb (fun p => ACI (pm_Recipient p) == ACI t) (Pending g))
    /\ bl_requesting l = pick (fun t => existsb (fun r => ACI (rm_Recipient r) == ACI t) (Requesting g))
    /\ bl_ban l = (fun u => (NewACIServiceID u, to_uint64 (UnixMilli at_))) <$> pick (fun t => negb (bannedACI g (ACI t)))
    /\ bl_unban l = []
  else
    bl_members l = [] /\ bl_pending l = [] /\ bl_requesting l = [] /\ bl_ban l = []
    /\ bl_unban l = NewACIServiceID <$> pick (fun t => bannedACI g (ACI t)).
Proof.
  revert l. induction out as [|t out IH]; intros l Ht Hne; cbn [ban_changes].
  { intros [= <-]. by destruct banned. }
  rewrite bind_Ok. intros (u & Hu & H). apply bind_Ok in H as (l' & Hl' & [= <-]).
  specialize (IH l' (fun x Hx => Ht x (list_elem_of_further _ _ _ Hx)) (fun x Hx => Hne x (list_elem_of_further _ _ _ Hx)) Hl').
  assert (Hid : acceptIdentity (ACI t) = u).
  { destruct (Ht t) as [E|(v & E)]; [by left|by destruct (Hne t); [left|]|].
    unfold MustParse in Hu. rewrite E, uuid_parse_string in Hu. injection Hu as <-. rewrite E. apply acceptIdentity_string. }
  cbv zeta in *. unfold ban_entry. rewrite !filter_cons.
  destruct banned; cbn -[existsb bannedACI]; destruct IH as (-> & -> & -> & -> & ->); split_and!; try done;
    case_match; case_decide; try congruence; cbn; by rewrite ?Hid.
Qed.

(** Who a list of the change names: the people asked for, as far as they are in the group's list. *)
Lemma picked ms out (P : Recipient -> bool) v :
  normalizeGroupMembers ms = Ok out -> (forall t, t ∈ out -> ACI t = uuid_string v -> P t = true) ->
  v ∈ (fun t => acceptIdentity (ACI t)) <$> filter (fun t => P t = true) out <-> names ms (uuid_string v) = true.
Proof.
  intros (_ & Htext & Hnames)%normalizeGroupMembers_Ok HP. rewrite <- Hnames, !list_elem_of_fmap. split.
  - intros (t & -> & [_ Ht]%list_elem_of_filter). exists t. split; [|done].
    destruct (Htext t Ht) as (Hne & [E|(u & E)] & _); [done|]. by rewrite E, acceptIdentity_string.
  - intros (t & E & Ht). exists t. rewrite <- E, acceptIdentity_string. split; [done|].
    apply list_elem_of_filter. auto.
Qed.

Lemma picked_delete {A} ms out (P : Recipient -> bool) (f : A -> string) (l : list A) :
  normalizeGroupMembers ms = Ok out ->
  (forall x, x ∈ l -> exists v, f x = uuid_string v) ->
  (forall x t, x ∈ l -> t ∈ out -> f x = ACI t -> P t = true) ->
  DeleteFunc (fun x => bool_decide (acceptIdentity (f x) ∈ (fun t => acceptIdentity (ACI t)) <$> filter (fun t => P t = true) out)) l
  = DeleteFunc (fun x => names ms (f x)) l.
Proof.
  intros Ho Hf HP. apply DeleteFunc_ext. intros x Hx. destruct (Hf x Hx) as (v & E).
  apply eq_true_iff_eq. rewrite bool_decide_eq_true, E, acceptIdentity_string. apply picked; [done|].
  intros t Ht Et. apply (HP x t Hx Ht). congruence.
Qed.

(** The same for entries that may be known by their PNI only, deleted by service ID. *)
Lemma picked_delete_sid {A} ms out (P : Recipient -> bool) (f : A -> Recipient) (l : list A) :
  normalizeGroupMembers ms = Ok out ->
  (forall x, x ∈ l -> exists v, f x = ofACI (uuid_string v) \/ f x = ofPNI (uuid_string v)) ->
  (forall x t, x ∈ l -> t ∈ out -> ACI (f x) = ACI t -> P t = true) ->
  DeleteFunc (fun x => bool_decide (acceptServiceID (f x) ∈ NewACIServiceID <$> ((fun t => acceptIdentity (ACI t)) <$> filter (fun t => P t = true) out))) l
  = DeleteFunc (fun x => names ms (ACI (f x))) l.
Proof.
  intros Ho Hf HP. apply DeleteFunc_ext. intros x Hx. destruct (Hf x Hx) as (v & [E|E]);
    apply eq_true_iff_eq; rewrite bool_decide_eq_true, E, ?acceptServiceID_ACI, ?acceptServiceID_PNI, list_elem_of_fmap.
  - rewrite <- (picked ms out P v); [|done|].
    + split; [by intros (w & [= ->] & Hw)|intros Hv; by exists v].
    + intros t Ht Et. apply (HP x t Hx Ht). by rewrite E, Et.
  - split; [by intros (w & [=] & _)|]. by intros ?%names_nonempty.
Qed.

Lemma convertGroup_requesting_text raw self r :
  r ∈ Requesting (convertGroup raw self) -> exists u, rm_Recipient r = ofACI (uuid_string u).
Proof. destruct (convertGroup_people raw self) as (_ & _ & -> & _). intros (x & _ & ->)%convert_all_elem. by eexists. Qed.

Lemma convertGroup_banned_text raw self b :
  b ∈ Banned (convertGroup raw self) ->
  exists u, bm_Recipient b = ofACI (uuid_string u) \/ bm_Recipient b = ofPNI (uuid_string u).
Proof.
  destruct (convertGroup_people raw self) as (_ & _ & _ & ->). intros (x & _ & ->)%convert_all_elem.
  cbn. unfold serviceRecipient. destruct (sid_IsPNI _); eexists; [by right|by left].
Qed.

Lemma existsb_elem {A} (f : A -> bool) l x : x ∈ l -> f x = true -> existsb f l = true.
Proof. intros H%list_elem_of_In Hf. apply existsb_exists. by exists x. Qed.

(** The bans that are sent are those that were computed, as they look on the wire. *)
Lemma wire_bans g (out : list Recipient) at_ : (forall t, t ∈ out -> ACI t <> ""%string /\ text_id (ACI t) /\ acceptIdentity (ACI t) <> uuid_nil) ->
  (fun b => mkBanned (serviceRecipient b.1) (msTime b.2)) ∘ (fun u => (NewACIServiceID u, to_uint64 (UnixMilli at_)))
    ∘ (fun t => acceptIdentity (ACI t)) <$> filter (fun t => negb (bannedACI g (ACI t)) = true) out
  = on_wire ∘ (fun m => mkBanned m at_) <$> filter (fun m => bannedACI g (ACI m) = false) out.
Proof.
  intros Htext.
  assert (Hf : filter (fun t => negb (bannedACI g (ACI t)) = true) out = filter (fun t => bannedACI g (ACI t) = false) out)
    by (apply list_filter_iff; intros t; apply negb_true_iff).
  rewrite Hf. apply list_fmap_ext. intros i t Ht%list_elem_of_lookup_2. apply list_elem_of_filter in Ht as [_ Ht].
  unfold on_wire. cbn. destruct (Htext t Ht) as (Hne & [E|(u & E)] & _); [done|].
  unfold serviceRecipient. cbn. by rewrite E, acceptIdentity_string.
Qed.

(** The change sent for a ban or an unban, read as instructions, gives the people the check
    computed: the same members, invitations and requests are deleted, the same bans lifted, and
    every new ban is sent once, by ACI and with its time in milliseconds; no change is sent
    exactly when the check leaves the group as it was. *)
Theorem bannedMembersChange_refines raw self ms banned at_ o :
  let g := convertGroup raw (ofACI self) in
  bannedMembersChange raw self ms banned at_ = Ok o ->
  exists next, WithBannedMembers g self ms banned at_ = Ok next /\
    match o with
    | None => next = with_own g (MembershipOf g self)
    | Some c =>
        Revision next = Revision g + 1
        /\ exists kept news, Banned next = kept ++ news
             /\ asked c g = with_people g (Members next) (Pending next) (Requesting next) (kept ++ (on_wire <$> news))
             /\ (forall b, b ∈ kept -> b ∈ Banned g) /\ (forall b, b ∈ news -> BannedAt b = at_)
    end.
Proof.
  intros g. unfold bannedMembersChange. fold g. rewrite bind_Ok. intros (next & Hn & H). exists next. split; [done|].
  apply WithBannedMembers_Ok in Hn as (out & Ho & _ & _ & -> & _).
  set (bn := ban_next g ms out banned at_) in *.
  destruct (banMembershipChanged g bn) eqn:Hch; unfold ban_result in *; rewrite Hch in *.
  2: { cbn in H. rewrite Z.eqb_refl in H. injection H as <-. pose proof (ban_unchanged g ms out banned at_ Hch) as E.
       fold bn in E. rewrite E. by destruct g. }
  replace (_ =? _) with false in H by (symmetry; apply Z.eqb_neq; cbn; lia).
  unfold NormalizeGroupBanMembers in H. rewrite Ho in H. cbn in H.
  apply bind_Ok in H as (l & Hl & [= <-]). split; [done|].
  pose proof (normalizeGroupMembers_Ok _ _ Ho) as (_ & Htext & _).
  pose proof (ban_changes_Ok g banned at_ out l (fun t Ht => proj1 (proj2 (Htext t Ht))) (fun t Ht => proj1 (Htext t Ht)) Hl) as Hls.
  cbv zeta in Hls. unfold asked. cbn -[DeleteFunc]. rewrite asked_role_nil.
  destruct banned; destruct Hls as (-> & -> & -> & -> & ->); subst bn; cbn -[DeleteFunc existsb bannedACI].
  - exists (Banned g), ((fun m => mkBanned m at_) <$> filter (fun m => bannedACI g (ACI m) = false) out).
    split; [done|]. split; [|split; [done|by intros b (t & -> & _)%list_elem_of_fmap]].
    rewrite (picked_delete ms out _ (fun m => ACI (gm_Recipient m)) (Members g) Ho);
      [|by intros m (u & ->)%convertGroup_member_text; exists u
       |intros m t Hm _ E; apply (existsb_elem _ _ m Hm); by apply bool_decide_eq_true_2].
    rewrite (picked_delete_sid ms out _ pm_Recipient (Pending g) Ho);
      [|by intros p Hp%convertGroup_pending_text
       |intros m t Hm _ E; apply (existsb_elem _ _ m Hm); by apply bool_decide_eq_true_2].
    rewrite (picked_delete ms out _ (fun m => ACI (rm_Recipient m)) (Requesting g) Ho);
      [|by intros m (u & ->)%convertGroup_requesting_text; exists u
       |intros m t Hm _ E; apply (existsb_elem _ _ m Hm); by apply bool_decide_eq_true_2].
    f_equal. rewrite DeleteFunc_nil. f_equal. rewrite <- !list_fmap_compose.
    by apply wire_bans.
  - exists (DeleteFunc (fun b => names ms (ACI (bm_Recipient b))) (Banned g)), [].
    rewrite !app_nil_r. split; [done|]. split; [|split; [|by intros b ?%elem_of_nil]].
    + rewrite !DeleteFunc_nil. f_equal.
      apply (picked_delete_sid ms out _ bm_Recipient (Banned g) Ho).
      * by intros p Hp%convertGroup_banned_text.
      * intros b t Hb Ht E. apply bannedACI_spec. rewrite <- E. split.
        -- rewrite E. by apply Htext.
        -- apply list_elem_of_fmap. by exists b.
    + intros b [Hb _]%DeleteFunc_elem. exact Hb.
Qed.
End role_change.

(** ** Witnesses *)

Section witnesses.
Import DemoUuid.

Definition demo_uuid (s : string) : uuid := default uuid_nil (uuid_parse s).

(** An administrator, a member, an invitation by PNI and a join request, at revision 7. *)
Definition demo_raw : RawGroup :=
  mkRawGroup "id" "key" "Title" "" "" 7 0 false
    [Some (mkRawMember (demo_uuid demo_admin) GroupMember_ADMINISTRATOR 0); None;
     Some (mkRawMember (demo_uuid demo_member) GroupMember_DEFAULT 3)]
    [Some (mkRawPending (NewPNIServiceID (demo_uuid demo_invited)) GroupMember_DEFAULT (demo_uuid demo_admin) 5)]
    [Some (mkRawRequesting (demo_uuid demo_asking) 6)] [] None None.

Lemma demo_raw_unique : members_unique (convertGroup demo_raw (ofACI demo_admin)).
Proof. apply (bool_decide_unpack _). vm_compute. exact I. Defined.

Definition demo_self : Group := convertGroup demo_raw (ofACI demo_admin).

Lemma removeMembersChangeAs_refines_witness :
  exists c next, removeMembersChangeAs demo_self (ofACI demo_admin) [ofPNI demo_invited; ofACI demo_member] = Ok (c, next)
    /\ asked c demo_self = next.
Proof.
  assert (E : is_ok (removeMembersChangeAs demo_self (ofACI demo_admin) [ofPNI demo_invited; ofACI demo_member]) = true)
    by (vm_compute; reflexivity).
  destruct (removeMembersChangeAs demo_self (ofACI demo_admin) [ofPNI demo_invited; ofACI demo_member]) as [[c next]|e] eqn:H; [|discriminate E].
  exists c, next. split; [reflexivity|]. exact (proj2 (removeMembersChangeAs_refines demo_raw _ _ _ _ _ H)).
Defined.

Lemma leaveChange_spec_witness :
  exists c promoted, leaveChange demo_self (ofACI demo_admin) [ofACI demo_member] = Ok (c, promoted)
    /\ (Members (asked c demo_self) = [] \/ 0 < Admins (asked c demo_self)).
Proof.
  assert (E : is_ok (leaveChange demo_self (ofACI demo_admin) [ofACI demo_member]) = true) by (vm_compute; reflexivity).
  destruct (leaveChange demo_self (ofACI demo_admin) [ofACI demo_member]) as [[c promoted]|e] eqn:H; [|discriminate E].
  exists c, promoted. split; [reflexivity|].
  pose proof (leaveChange_spec demo_raw (ofACI demo_admin) _ _ _ _ demo_raw_unique H) as S. cbv zeta in S.
  assert (R : SelfMembership demo_self (ofACI demo_admin) = (MembershipMember, GroupRoleAdmin)) by (vm_compute; reflexivity).
  unfold demo_self in R. rewrite R in S. destruct S as (_ & _ & H3). apply H3. reflexivity.
Defined.

Lemma memberRoleChange_refines_witness :
  exists o next, memberRoleChange demo_raw demo_admin [ofACI demo_member] GroupRoleAdmin = Ok o
    /\ WithMemberRole demo_self demo_admin [ofACI demo_member] GroupRoleAdmin = Ok next.
Proof.
  assert (E : is_ok (memberRoleChange demo_raw demo_admin [ofACI demo_member] GroupRoleAdmin) = true) by (vm_compute; reflexivity).
  destruct (memberRoleChange demo_raw demo_admin [ofACI demo_member] GroupRoleAdmin) as [o|e] eqn:H; [|discriminate E].
  destruct (memberRoleChange_refines demo_raw demo_admin _ _ _ demo_raw_unique H) as (next & Hn & _).
  exists o, next. split; [reflexivity|exact Hn].
Defined.

(** A member is banned: the change takes the member out of the group. *)
Lemma bannedMembersChange_refines_witness :
  exists c next, bannedMembersChange demo_raw demo_admin [ofACI demo_member] true 9000000 = Ok (Some c)
    /\ WithBannedMembers demo_self demo_admin [ofACI demo_member] true 9000000 = Ok next
    /\ Members (asked c demo_self) = Members next.
Proof.
  assert (E : match bannedMembersChange demo_raw demo_admin [ofACI demo_member] true 9000000 with Ok (Some _) => true | _ => false end = true)
    by (vm_compute; reflexivity).
  destruct (bannedMembersChange demo_raw demo_admin [ofACI demo_member] true 9000000) as [[c|]|e] eqn:H; [|discriminate E|discriminate E].
  destruct (bannedMembersChange_refines demo_raw demo_admin _ _ _ _ H) as (next & Hn & _ & kept & news & _ & Ha & _).
  exists c, next. split; [reflexivity|]. split; [exact Hn|]. unfold demo_self. rewrite Ha. reflexivity.
Defined.
End witnesses.
