(* ===== verification/GroupCommit.v ===== *)
(** * Committing a group change

    [changeGroupOnce] (meow_groups_remove.go), [updateGroupAndFetchOnce] (meow_groups_update.go),
    [addGroupMembersOnce], [setGroupBannedOnce], [updateGroupWithAvatarOnce] and the error
    mappings. The server client is an oracle, a parameter that answers every call; the world is
    the trace of the calls made, so that the theorems can state which requests were sent. *)

From S2P Require Import Prelude Errors Uuid Utf8 Base64 Types Groups GroupMembers GroupSettings GroupChange.

Definition groupKeyLen : Z := 32.

(** The calls of one operation, in order. *)
Inductive call `{UuidLib} :=
  | CPatch (change : GroupChange) (revision : Z)
  | CNotify (members : list uuid)
  | CFetch (gid : string) (revision : Z)
  | CUpload (data : string)
  | CInvalidate.

(** The signalmeow client: [EncryptAndSignGroupChange] answers with the signed actions
    ([GetActions]), [proto.Marshal] of the signed change, [SendGroupUpdate],
    [RetrieveGroupByID] and [UploadGroupAvatar]. [error_mentions e n] is whether the
    text of [e] contains "unexpected response status: n". *)
Class GroupBackend `{UuidLib} := {
  EncryptAndSignGroupChange : GroupChange -> Z -> res string;
  Marshal_signed : string -> res string;
  SendGroupUpdate : list uuid -> error;
  RetrieveGroupByID : string -> Z -> res (option RawGroup);
  UploadGroupAvatar : string -> res string;
  error_mentions : err -> Z -> bool;
}.

(** ** Error mappings *)

Definition updateGroupError (e : err) : err :=
  if errIs e meow_ContactManifestMismatchError || errIs e meow_ConflictError then Wrap [Sent ErrGroupChanged; e] else e.

Definition groupFetchError `{GroupBackend} (e : err) : err :=
  if errIs e meow_ErrGroupMasterKeyNotFound then errorf ErrUnknownGroup
  else if error_mentions e 403 then errorf ErrNotAMember
  else if error_mentions e 404 then errorf ErrUnknownGroup
  else Wrap [e].

(** The errors after which a PATCH is known not to have been accepted. *)
Definition rejections : list sentinel :=
  [ErrUnknownGroup; ErrGroupChanged; meow_AuthorizationFailedError; meow_NotFoundError;
   meow_GroupPatchNotAcceptedError; meow_RateLimitError; meow_DeprecatedVersionError].

Definition groupPatchError (e : err) : err :=
  if existsb (errIs e) rejections then e else Wrap [Sent ErrGroupUpdateUncertain; e].

Section commit.
Context {U : UuidLib} {B : GroupBackend}.

Notation M := (io (list call) err).

Definition emit (c : call) : M unit := fun tr => (Ok tt, tr ++ [c]).
Definition ask {A} (c : call) (answer : res A) : M A := fun tr => (answer, tr ++ [c]).

(** The raw members that are notified. *)
Definition raw_acis (raw : RawGroup) : list uuid := convert_all rmem_ACI (raw_Members raw).

(** [changeGroupOnce]. The [invalidate] callback runs once the server accepted the change: the
    boolean of the result says whether it ran. *)
Definition changeGroupOnce (raw : RawGroup) (change : GroupChange) : M (bool * error) :=
  match DecodeString StdEncoding (raw_GroupMasterKey raw) with
  | None => io_ret (false, Some (errorf ErrUnknownGroup))
  | Some masterKey =>
      if negb (slen masterKey =? groupKeyLen) || (raw_Revision raw =? MaxUint32)
      then io_ret (false, Some (errorf ErrUnknownGroup))
      else
        let revision := raw_Revision raw + 1 in
        let* response := io_try (ask (CPatch change revision) (EncryptAndSignGroupChange change revision)) in
        match response with
        | Err e => io_ret (false, Some (updateGroupError e))
        | Ok actions =>
            let* _ := emit CInvalidate in
            if slen actions =? 0 then io_ret (true, Some (Sent errInvalidGroupChangeResponse))
            else match Marshal_signed actions with
                 | Err e => io_ret (true, Some (Wrap [e]))
                 | Ok _ =>
                     let* _ := io_try (ask (CNotify (raw_acis raw)) (Ok (SendGroupUpdate (raw_acis raw)))) in
                     io_ret (true, None)
                 end
        end
  end.

(** What an operation reports besides its error: nothing, the committed ID and revision, or the
    verified state. *)
Inductive outcome := Nothing | Committed (gid : string) (revision : Z) | Accepted (raw : RawGroup).

(** Fetching the accepted state back. *)
Definition verify_accepted (raw : RawGroup) (revision : Z) : M (outcome * error) :=
  let committed := Committed (raw_GroupIdentifier raw) revision in
  let* _ := emit CInvalidate in
  let* accepted := io_try (ask (CFetch (raw_GroupIdentifier raw) revision)
                             (RetrieveGroupByID (raw_GroupIdentifier raw) revision)) in
  match accepted with
  | Err e => io_ret (committed, Some (Wrap [groupFetchError e]))
  | Ok None => io_ret (committed, Some (Wrap [Sent errInvalidGroupChangeResponse]))
  | Ok (Some accepted) =>
      if (raw_Revision accepted <? revision) || (raw_GroupIdentifier accepted != raw_GroupIdentifier raw)
      then io_ret (committed, Some (Wrap [Sent errInvalidGroupChangeResponse]))
      else io_ret (Accepted accepted, None)
  end.

Definition updateGroupAndFetchOnce (raw : RawGroup) (change : GroupChange) : M (outcome * error) :=
  let revision := raw_Revision raw + 1 in
  let* r := changeGroupOnce raw change in
  match r with
  | (committed, Some e) =>
      if committed then io_ret (Committed (raw_GroupIdentifier raw) revision, Some e)
      else io_ret (Nothing, Some (groupPatchError e))
  | (_, None) => verify_accepted raw revision
  end.

(** [addGroupMembersOnce]: approved requesters are notified too; a failed PATCH keeps its
    error. *)
Definition with_raw_Members (raw : RawGroup) (ms : list (option RawMember)) : RawGroup :=
  mkRawGroup (raw_GroupIdentifier raw) (raw_GroupMasterKey raw) (raw_Title raw) (raw_Description raw)
    (raw_AvatarPath raw) (raw_Revision raw) (raw_DisappearingMessagesDuration raw) (raw_AnnouncementsOnly raw) ms
    (raw_PendingMembers raw) (raw_RequestingMembers raw) (raw_BannedMembers raw) (raw_AccessControl raw)
    (raw_InviteLinkPassword raw).

Definition addGroupMembersOnce (raw : RawGroup) (change : GroupChange) : M (outcome * error) :=
  let revision := raw_Revision raw + 1 in
  let notify := with_raw_Members raw
    (raw_Members raw ++ ((fun r => Some (mkRawMember r.1 r.2 0)) <$> PromoteRequestingMembers change)) in
  let* r := changeGroupOnce notify change in
  match r with
  | (committed, Some e) =>
      io_ret (if committed then Committed (raw_GroupIdentifier raw) revision else Nothing, Some e)
  | (_, None) => verify_accepted raw revision
  end.

(** [setGroupBannedOnce]: removed requesters are notified of their rejection. *)
Fixpoint notify_requesters (ms : list (option RawMember)) (requesters : list uuid) : list (option RawMember) :=
  match requesters with
  | [] => ms
  | aci :: rest =>
      notify_requesters
        (if existsb (fun m => match m with Some m => rmem_ACI m == aci | None => false end) ms then ms
         else ms ++ [Some (mkRawMember aci GroupMember_DEFAULT 0)]) rest
  end.

Definition setGroupBannedOnce (raw : RawGroup) (change : GroupChange) : M (outcome * error) :=
  updateGroupAndFetchOnce
    (with_raw_Members raw (notify_requesters (raw_Members raw) (DeleteRequestingMembers change))) change.

(** [updateGroupWithAvatarOnce] (meow_groups_avatar.go): the whole change is validated before
    the upload, which comes before the PATCH. *)
Definition valid_avatar_path (path : string) : bool :=
  ValidString path && negb (TrimSpace path == ""%string)
  && forallb (fun r => negb ((r <? 32) || ((127 <=? r) && (r <? 160)))) (runes path).

Definition with_ModifyAvatar (c : GroupChange) (path : string) : GroupChange :=
  mkChange (Some path) (ModifyDescription c) (ModifyDisappearingMessagesDuration c) (ModifyAnnouncementsOnly c)
    (ModifyAttributesAccess c) (ModifyMemberAccess c) (ModifyAddFromInviteLinkAccess c) (ModifyInviteLinkPassword c)
    (DeleteMembers c) (DeletePendingMembers c) (DeleteRequestingMembers c) (ModifyMemberRoles c) (AddMembers c)
    (PromoteRequestingMembers c) (AddBannedMembers c) (DeleteBannedMembers c).

Definition uploadAvatarChange (ctxErr : error) (raw : RawGroup) (change : GroupChange) (data : string)
    : M GroupChange :=
  match DecodeString StdEncoding (raw_GroupMasterKey raw) with
  | None => io_err (errorf ErrUnknownGroup)
  | Some key =>
      if negb (slen key =? 32) then io_err (errorf ErrUnknownGroup)
      else match ctxErr with
      | Some e => io_err (Wrap [e])
      | None =>
          let* path := ask (CUpload data) (match UploadGroupAvatar data with Ok p => Ok p | Err e => Err (Wrap [e]) end) in
          if negb (valid_avatar_path path) then io_err (errorf ErrInvalidGroupUpdate)
          else io_ret (with_ModifyAvatar change path)
      end
  end.

Definition updateGroupWithAvatarOnce `{ImageLib} (ctxErr : error) (raw : RawGroup) (self : string) (u : GroupUpdate)
    : M (outcome * error) :=
  match settingsChange raw self u with
  | Err e => io_ret (Nothing, Some e)
  | Ok None => io_ret (Accepted raw, None)
  | Ok (Some change) =>
      match upd_Avatar u with
      | Some avatar =>
          if ava_Remove avatar then updateGroupAndFetchOnce raw change
          else
            let* r := io_try (uploadAvatarChange ctxErr raw change (ava_Data avatar)) in
            match r with
            | Err e => io_ret (Nothing, Some e)
            | Ok change => updateGroupAndFetchOnce raw change
            end
      | None => updateGroupAndFetchOnce raw change
      end
  end.
End commit.

(** ** What a committed change guarantees *)

Section commit_spec.
Context {U : UuidLib} {B : GroupBackend}.

Definition is_patch (c : call) : bool := match c with CPatch _ _ => true | _ => false end.
Definition patches (tr : list call) : list call := filter (fun c => is_patch c = true) tr.

(** The key and revision of the raw group allow a change. *)
Definition committable (raw : RawGroup) : bool :=
  match DecodeString StdEncoding (raw_GroupMasterKey raw) with
  | Some key => (slen key =? groupKeyLen) && negb (raw_Revision raw =? MaxUint32)
  | None => false
  end.

Lemma changeGroupOnce_run raw c tr :
  exists committed e new, changeGroupOnce raw c tr = (Ok (committed, e), tr ++ new)
    /\ patches new = (if committable raw then [CPatch c (raw_Revision raw + 1)] else [])
    /\ (committed = true <-> committable raw = true
          /\ is_ok (EncryptAndSignGroupChange c (raw_Revision raw + 1)) = true)
    /\ (e = None -> committed = true)
    /\ (committable raw = false -> exists x, e = Some x /\ errIs x ErrUnknownGroup = true).
Proof.
  unfold changeGroupOnce, committable.
  destruct (DecodeString StdEncoding (raw_GroupMasterKey raw)) as [key|].
  2: { exists false, (Some (errorf ErrUnknownGroup)), []. rewrite app_nil_r. split_and!; try done; [naive_solver|].
       intros _. by eexists. }
  destruct (slen key =? groupKeyLen), (raw_Revision raw =? MaxUint32); cbn [negb andb orb].
  1, 3, 4: exists false, (Some (errorf ErrUnknownGroup)), []; rewrite app_nil_r; split_and!; try done;
    [naive_solver|intros _; by eexists].
  unfold io_bind, io_try, ask, emit, io_ret.
  destruct (EncryptAndSignGroupChange c _) as [actions|e]; cbn.
  - destruct (slen actions =? 0); [|destruct (Marshal_signed actions)]; cbn; rewrite <- ?app_assoc;
      do 3 eexists; (split; [reflexivity|]); by split_and!.
  - do 3 eexists. split; [reflexivity|]. split_and!; try done. naive_solver.
Qed.

End commit_spec.
