(* ===== verification/Protowire.v ===== *)
(** * Protobuf fields: the interface to google.golang.org/protobuf/encoding/protowire

    The code that reads raw protobuf messages calls three functions of the package, which is not
    part of the repository: a class, with the documented law that a parse consumes at least one
    byte and no more than there are. *)

From S2P Require Import Prelude Utf8.

(** [protowire.Type]. *)
Inductive wire_type := VarintType | Fixed64Type | BytesType | StartGroupType | EndGroupType | Fixed32Type.
#[export] Instance wire_type_eq_dec : EqDecision wire_type.
Proof. solve_decision. Defined.

(** A negative length of the Go functions is [None]. *)
Class Protowire := {
  ConsumeTag : string -> option (Z * wire_type * nat);
  ConsumeBytes : string -> option (string * nat);
  ConsumeFieldValue : Z -> wire_type -> string -> option nat;
}.

Class ProtowireLaws (W : Protowire) : Prop := {
  ConsumeTag_law : forall msg num typ n, ConsumeTag msg = Some (num, typ, n) -> (1 <= n <= String.length msg)%nat;
  ConsumeBytes_law : forall msg v n, ConsumeBytes msg = Some (v, n) -> (1 <= n <= String.length msg)%nat;
  ConsumeFieldValue_law : forall num typ msg n, ConsumeFieldValue num typ msg = Some n -> (n <= String.length msg)%nat;
}.

(** [msg[n:]]. *)
Fixpoint sdrop (n : nat) (s : string) : string :=
  match n, s with
  | O, _ => s
  | S n, String _ t => sdrop n t
  | S _, EmptyString => EmptyString
  end.

Lemma length_sdrop n s : String.length (sdrop n s) = (String.length s - n)%nat.
Proof. revert s. induction n as [|n IH]; intros [|a s]; cbn; rewrite ?IH; lia. Qed.

(** ** A concrete instance for witnesses: one-byte tags and lengths, bytes fields only *)

Module DemoWire.
Definition tag (msg : string) : option (Z * wire_type * nat) :=
  match msg with
  | EmptyString => None
  | String a _ => if byte_of a mod 8 =? 2 then Some (byte_of a / 8, BytesType, 1%nat) else None
  end.
Definition bytes (msg : string) : option (string * nat) :=
  match msg with
  | EmptyString => None
  | String a t =>
      let n := Z.to_nat (byte_of a) in
      if (n <=? String.length t)%nat then Some (String.substring 0 n t, S n) else None
  end.
#[export] Instance lib : Protowire :=
  {| ConsumeTag := tag; ConsumeBytes := bytes; ConsumeFieldValue := fun _ _ msg => snd <$> bytes msg |}.

Lemma bytes_bound msg v n : bytes msg = Some (v, n) -> (1 <= n <= String.length msg)%nat.
Proof.
  destruct msg as [|a t]; [done|]. cbn -[Nat.leb]. destruct (_ <=? _)%nat eqn:E; [|done]. intros [= <- <-].
  apply Nat.leb_le in E. lia.
Qed.

#[export] Instance laws : ProtowireLaws lib.
Proof.
  split.
  - intros [|a t] num typ n; [done|]. cbn. destruct (_ =? 2); [|done]. intros [= <- <- <-]. lia.
  - apply bytes_bound.
  - cbn. intros _ _ msg n H. destruct (bytes msg) as [[v m]|] eqn:E; [|done]. injection H as <-.
    apply bytes_bound in E. cbn. lia.
Qed.
End DemoWire.
