(* ===== verification/GroupInvite.v ===== *)
(** * Group invite links (internal/signal/groupinvite/parser.go)

    [url.Parse] as the parser uses it, the parser, and its round trip with the links that
    groups_link.go makes. The protobuf wire format comes in as the interface of Protowire.v. *)

From S2P Require Import Prelude Errors Uuid Utf8 Base64 Strconv Types Groups GroupMembers SendCheck GroupSettings Protowire.

(** ** net/url *)

Record URL := mkURL {
  u_Scheme : string; u_Opaque : string; u_User : bool; u_Host : string; u_Path : string; u_RawPath : string;
  u_ForceQuery : bool; u_RawQuery : string; u_Fragment : string; u_RawFragment : string }.

Inductive url_part := encodeHost | encodePath | encodePathSegment | encodeFragment.

Definition is_letter (a : Ascii.ascii) : bool := in_range 65 90 (byte_of a) || in_range 97 122 (byte_of a).
Definition is_digit (a : Ascii.ascii) : bool := in_range 48 57 (byte_of a).
Definition among (chars : list Z) (a : Ascii.ascii) : bool := existsb (fun b => byte_of a =? b) chars.

(** [!shouldEscape(c, mode)]: - _ . ~ everywhere; ! $ & ' ( ) * + , ; = : [ ] < > and the double
    quote in a host; $ & + , / : ; = ? @ elsewhere, but no ? in a path and no / ; , ? in a segment
    of one; ! ( ) * in a fragment. *)
Definition kept (m : url_part) (a : Ascii.ascii) : bool :=
  is_letter a || is_digit a || among [45; 95; 46; 126] a ||
  match m with
  | encodeHost => among [33; 36; 38; 39; 40; 41; 42; 43; 44; 59; 61; 58; 91; 93; 60; 62; 34] a
  | encodePath => among [36; 38; 43; 44; 47; 58; 59; 61; 64] a
  | encodePathSegment => among [36; 38; 43; 58; 61; 64] a
  | encodeFragment => among [36; 38; 43; 44; 47; 58; 59; 61; 63; 64; 33; 40; 41; 42] a
  end.

Definition percent : Ascii.ascii := ascii_of 37.
Definition hex_upper (n : Z) : Ascii.ascii := ascii_of (if n <? 10 then 48 + n else 55 + n).

(** A host may escape only what is not ASCII, and the percent sign. *)
Definition host_escape_ok (h l : Z) : bool := negb (h <? 8) || ((h =? 2) && (l =? 5)).

Fixpoint unescape (m : url_part) (s : string) : option string :=
  match s with
  | EmptyString => Some EmptyString
  | String a t =>
      if bool_decide (a = percent) then
        match t with
        | String x (String y t) =>
            h ← hex_value x; l ← hex_value y;
            if match m with encodeHost => negb (host_escape_ok h l) | _ => false end then None
            else rest ← unescape m t; Some (String (ascii_of (h * 16 + l)) rest)
        | _ => None
        end
      else if match m with encodeHost => (byte_of a <? 128) && negb (kept m a) | _ => false end then None
      else rest ← unescape m t; Some (String a rest)
  end.

Fixpoint escape (m : url_part) (s : string) : string :=
  match s with
  | EmptyString => EmptyString
  | String a t =>
      if kept m a then String a (escape m t)
      else String percent (String (hex_upper (byte_of a / 16)) (String (hex_upper (byte_of a mod 16)) (escape m t)))
  end.

(** The raw form is kept where it is not the default encoding. *)
Definition with_raw (m : url_part) (s : string) : option (string * string) :=
  decoded ← unescape m s; Some (decoded, if escape m decoded == s then "" else s)%string.

(** [getScheme]: what precedes the first colon, if it reads like a scheme. *)
Fixpoint scheme_loop (first : bool) (s : string) : option (option (string * string)) :=
  match s with
  | EmptyString => Some None
  | String a t =>
      if is_letter a then
        r ← scheme_loop false t; Some (match r with Some (x, rest) => Some (String a x, rest) | None => None end)
      else if is_digit a || among [43; 45; 46] a then
        if first then Some None
        else r ← scheme_loop false t; Some (match r with Some (x, rest) => Some (String a x, rest) | None => None end)
      else if byte_of a =? 58 then if first then None else Some (Some (EmptyString, t))
      else Some None
  end.
Definition getScheme (s : string) : option (string * string) :=
  r ← scheme_loop true s; Some (match r with Some x => x | None => (EmptyString, s) end).

Fixpoint ascii_lower (s : string) : string :=
  match s with EmptyString => EmptyString | String a t => String (if is_upper a then ascii_of (byte_of a + 32) else a) (ascii_lower t) end.

(** User information before the last at sign, then the host. A host with a port or in brackets is
    refused here: no such host is the one the caller asks for, nor is any with user information. *)
Definition parseAuthority (authority : string) : option (bool * string) :=
  let (user, host) := match cut_last authority (ascii_of 64) with Some (_, h) => (true, h) | None => (false, authority) end in
  if string_forallb (fun a => negb (among [58; 91] a)) host
  then host ← unescape encodeHost host; Some (user, host)
  else None.

Definition cut_query (rest : string) : string * bool * string :=
  match cut_byte rest (ascii_of 63) with
  | None => (rest, false, EmptyString)
  | Some (before, EmptyString) => (before, true, EmptyString)
  | Some (before, query) => (before, false, query)
  end.

Definition no_authority (scheme rest : string) (force : bool) (query : string) : option URL :=
  path ← with_raw encodePath rest;
  Some (mkURL scheme "" false "" path.1 path.2 force query "" "").

Definition url_parse_hierarchical (scheme rest : string) (force : bool) (query : string) : option URL :=
  if ((scheme != ""%string) || negb (HasPrefix rest "///")) && HasPrefix rest "//" then
    let after := TrimPrefix rest "//" in
    let (authority, path) := match cut_byte after (ascii_of 47) with
                             | Some (a, p) => (a, String (ascii_of 47) p) | None => (after, EmptyString) end in
    userhost ← parseAuthority authority;
    path ← with_raw encodePath path;
    Some (mkURL scheme "" userhost.1 userhost.2 path.1 path.2 force query "" "")
  else no_authority scheme rest force query.

(** The URL before the fragment. *)
Definition url_parse (raw : string) : option URL :=
  if negb (string_forallb (fun a => (32 <=? byte_of a) && negb (byte_of a =? 127)) raw) then None
  else if raw == "*"%string then Some (mkURL "" "" false "" "*" "" false "" "" "")
  else
    sr ← getScheme raw;
    let scheme := ascii_lower sr.1 in
    let '(rest, force, query) := cut_query sr.2 in
    if negb (HasPrefix rest "/") then
      if scheme != ""%string then Some (mkURL scheme rest false "" "" "" force query "" "")
      else if match cut_byte (match cut_byte rest (ascii_of 47) with Some (s, _) => s | None => rest end) (ascii_of 58) with
              | Some _ => true | None => false end then None
      else no_authority scheme rest force query
    else url_parse_hierarchical scheme rest force query.

Definition url_Parse (raw : string) : option URL :=
  match cut_byte raw (ascii_of 35) with
  | None => url_parse raw
  | Some (before, fragment) =>
      u ← url_parse before;
      if fragment == ""%string then Some u
      else
        f ← with_raw encodeFragment fragment;
        Some (mkURL (u_Scheme u) (u_Opaque u) (u_User u) (u_Host u) (u_Path u) (u_RawPath u) (u_ForceQuery u) (u_RawQuery u) f.1 f.2)
  end.

(** ** The parser *)

Record Invite := mkInvite { inv_MasterKey : string; inv_Password : string }.

Definition maxInputSize : Z := 4096.
Definition masterKeySize : Z := 32.
Definition passwordSize : Z := 16.

Definition inviteFragment (input : string) : option string :=
  if existsb IsSpace (runes input) then None
  else
    u ← url_Parse input;
    if negb (EqualFold (u_Scheme u) "https") && negb (EqualFold (u_Scheme u) "sgnl") then None
    else if negb (EqualFold (u_Host u) "signal.group") || u_User u then None
    else if (u_RawQuery u != ""%string) || u_ForceQuery u || ((u_Path u != ""%string) && (u_Path u != "/"%string)) then None
    else if (u_RawPath u != ""%string) || (u_Fragment u == ""%string) || (u_RawFragment u != ""%string) then None
    else Some (u_Fragment u).

Section parser.
Context {W : Protowire}.

(** [field]: the value of a field and what follows it. *)
Definition field (raw : string) (want : Z) : option (string * string) :=
  tag ← ConsumeTag raw;
  let '(number, kind, n) := tag in
  if (number != want) || (kind != BytesType) then None
  else vn ← ConsumeBytes (sdrop n raw); Some (vn.1, sdrop (n + vn.2) raw).

(** The loop of [parseContents] with its two fields; each iteration consumes a byte at least. *)
Fixpoint contents_loop (fuel : nat) (contents : string) (key password : option string) : option (option string * option string) :=
  match fuel, contents with
  | _, EmptyString => Some (key, password)
  | O, _ => None
  | S fuel, _ =>
      tag ← ConsumeTag contents;
      let '(number, kind, n) := tag in
      if (kind != BytesType) || (number <? 1) || (2 <? number) then None
      else
        vn ← ConsumeBytes (sdrop n contents);
        let rest := sdrop (n + vn.2) contents in
        if number =? 1 then if given key then None else contents_loop fuel rest (Some vn.1) password
        else if given password then None else contents_loop fuel rest key (Some vn.1)
  end.

Definition parseContents (contents : string) : option Invite :=
  fields ← contents_loop (String.length contents) contents None None;
  let key := default ""%string fields.1 in
  let password := default ""%string fields.2 in
  if negb (slen key =? masterKeySize) || negb (slen password =? passwordSize) then None
  else Some (mkInvite key password).

Definition invite_bytes (fragment : string) : option string :=
  match DecodeString (Strict RawURLEncoding) fragment with
  | Some raw => Some raw
  | None => DecodeString (Strict URLEncoding) fragment
  end.

(** [Parse]; its only error is [ErrInvalid]. *)
Definition groupinvite_Parse (input : string) : option Invite :=
  if maxInputSize <? slen input then None
  else
    fragment ← inviteFragment (TrimSpace input);
    raw ← invite_bytes fragment;
    cr ← field raw 1;
    if negb (slen cr.2 =? 0) then None else parseContents cr.1.
End parser.

(** ** The wire format *)

(** What protowire appends, documented to be what it consumes; sizes of tags and lengths. *)
Class WireEncoding (W : Protowire) := {
  tag_bytes : Z -> string;  (* of a field of bytes *)
  value_bytes : string -> string;
}.
Class WireEncodingLaws (W : Protowire) (E : WireEncoding W) : Prop := {
  ConsumeTag_append : forall num rest, 1 <= num <= 15 ->
    ConsumeTag (tag_bytes num ++ rest) = Some (num, BytesType, String.length (tag_bytes num));
  ConsumeBytes_append : forall v rest, slen v < 128 -> ConsumeBytes (value_bytes v ++ rest) = Some (v, String.length (value_bytes v));
  tag_size : forall num, 1 <= num <= 15 -> 1 <= slen (tag_bytes num) <= 2;
  value_size : forall v, slen v < 128 -> slen v < slen (value_bytes v) <= slen v + 2;
}.

Definition bytes_field {W : Protowire} {E : WireEncoding W} (num : Z) (v : string) : string :=
  (tag_bytes num ++ value_bytes v)%string.

(** Documented: a [GroupInviteLink] is written field by field, in the order of their numbers. *)
Class LinkLibLaws (L : LinkLib) (W : Protowire) (E : WireEncoding W) : Prop := {
  marshal_link_law : forall key secret data, marshal_link key secret = Some data ->
    data = bytes_field 1 (bytes_field 1 key ++ bytes_field 2 secret);
}.

(** ** Round trip *)

Lemma sdrop_app (a b : string) : sdrop (String.length a) (a ++ b) = b.
Proof. induction a as [|x a IH]; [done|]. exact IH. Qed.

Section wire.
Context {W : Protowire} {E : WireEncoding W} {EL : WireEncodingLaws W E}.

Lemma sdrop_field (num : Z) (v rest : string) :
  sdrop (String.length (tag_bytes num) + String.length (value_bytes v)) (bytes_field num v ++ rest) = rest.
Proof.
  unfold bytes_field. rewrite string_app_assoc. rewrite Nat.add_comm.
  replace (sdrop (String.length (value_bytes v) + String.length (tag_bytes num)) (tag_bytes num ++ (value_bytes v ++ rest)))
    with (sdrop (String.length (value_bytes v)) (sdrop (String.length (tag_bytes num)) (tag_bytes num ++ (value_bytes v ++ rest)))).
  - by rewrite !sdrop_app.
  - generalize (tag_bytes num ++ (value_bytes v ++ rest))%string. intros s.
    generalize (String.length (tag_bytes num)) as n. intros n. revert s. induction n as [|n IH]; intros s; [by rewrite Nat.add_0_r|].
    rewrite Nat.add_succ_r. destruct s as [|x s]; [by destruct (String.length _)|]. apply IH.
Qed.

Lemma consume_field (num : Z) (v rest : string) : 1 <= num <= 15 -> slen v < 128 ->
  ConsumeTag (bytes_field num v ++ rest) = Some (num, BytesType, String.length (tag_bytes num)) /\
  ConsumeBytes (sdrop (String.length (tag_bytes num)) (bytes_field num v ++ rest)) = Some (v, String.length (value_bytes v)).
Proof.
  intros Hn Hv. unfold bytes_field. rewrite string_app_assoc, sdrop_app. split; [by apply ConsumeTag_append|by apply ConsumeBytes_append].
Qed.

Lemma bytes_field_size (num : Z) (v : string) : 1 <= num <= 15 -> slen v < 128 -> slen v + 2 <= slen (bytes_field num v) <= slen v + 4.
Proof. intros Hn Hv. unfold bytes_field. rewrite slen_app. pose proof (tag_size num Hn). pose proof (value_size v Hv). lia. Qed.

Lemma field_bytes_field (num : Z) (v rest : string) : 1 <= num <= 15 -> slen v < 128 -> field (bytes_field num v ++ rest) num = Some (v, rest).
Proof.
  intros Hn Hv. destruct (consume_field num v rest Hn Hv) as [H1 H2]. unfold field. rewrite H1. cbn.
  rewrite bool_decide_eq_true_2 by done. cbn. rewrite H2. cbn. by rewrite sdrop_field.
Qed.

Lemma contents_loop_field (fuel : nat) (num : Z) (v rest : string) (key password : option string) :
  1 <= num <= 2 -> slen v < 128 -> (if num =? 1 then key else password) = None ->
  contents_loop (S fuel) (bytes_field num v ++ rest) key password =
  if num =? 1 then contents_loop fuel rest (Some v) password else contents_loop fuel rest key (Some v).
Proof.
  intros Hn Hv Hnew. destruct (consume_field num v rest ltac:(lia) Hv) as [H1 H2].
  pose proof (bytes_field_size num v ltac:(lia) Hv) as Hsz. cbn [contents_loop].
  destruct (bytes_field num v ++ rest)%string as [|x s] eqn:Es.
  { apply (f_equal slen) in Es. rewrite slen_app in Es. unfold slen in *. cbn in Es. lia. }
  rewrite H1. cbn -[sdrop]. replace (num <? 1) with false by lia. replace (2 <? num) with false by lia. cbn -[sdrop].
  rewrite H2. cbn -[sdrop]. rewrite <- Es, sdrop_field. destruct (num =? 1); by rewrite Hnew.
Qed.

Lemma parseContents_roundtrip (key password : string) : slen key = masterKeySize -> slen password = passwordSize ->
  parseContents (bytes_field 1 key ++ bytes_field 2 password) = Some (mkInvite key password).
Proof.
  unfold masterKeySize, passwordSize. intros Hk Hp. unfold parseContents.
  pose proof (bytes_field_size 1 key ltac:(lia) ltac:(lia)) as S1. pose proof (bytes_field_size 2 password ltac:(lia) ltac:(lia)) as S2.
  assert (Hlen : exists n, String.length (bytes_field 1 key ++ bytes_field 2 password) = S (S n)).
  { exists (String.length (bytes_field 1 key ++ bytes_field 2 password) - 2)%nat. pose proof (slen_app (bytes_field 1 key) (bytes_field 2 password)).
    unfold slen in *. lia. }
  destruct Hlen as [n ->]. rewrite contents_loop_field by (try done; lia). cbn [Z.eqb Pos.eqb].
  rewrite <- (string_app_empty (bytes_field 2 password)). rewrite contents_loop_field by (try done; lia). cbn [Z.eqb Pos.eqb].
  assert (Hend : contents_loop n "" (Some key) (Some password) = Some (Some key, Some password)) by (by destruct n).
  rewrite Hend. cbn. by rewrite Hk, Hp.
Qed.
End wire.

(** *** The link *)

Definition link_prefix : string := "https://signal.group/#".

Lemma kept_identity (s : string) : string_forallb (kept encodeFragment) s = true ->
  unescape encodeFragment s = Some s /\ escape encodeFragment s = s.
Proof.
  induction s as [|a s IH]; [done|]. cbn [string_forallb]. intros [Ha Hs]%andb_true_iff. destruct (IH Hs) as [IH1 IH2].
  cbn [unescape escape]. rewrite Ha, IH1, IH2. rewrite bool_decide_eq_false_2; [done|]. by intros ->.
Qed.

Lemma url_Parse_link (s : string) : s <> ""%string -> string_forallb (kept encodeFragment) s = true ->
  url_Parse (link_prefix ++ s) = Some (mkURL "https" "" false "signal.group" "/" "" false "" s "").
Proof.
  intros Hne Hk. destruct (kept_identity s Hk) as [H1 H2]. unfold url_Parse.
  assert (E : cut_byte (link_prefix ++ s) (ascii_of 35) = Some ("https://signal.group/"%string, s)) by reflexivity.
  rewrite E.
  assert (Eu : url_parse "https://signal.group/" = Some (mkURL "https" "" false "signal.group" "/" "" false "" "" "")) by (vm_compute; reflexivity).
  rewrite Eu. cbn [mbind option_bind]. rewrite bool_decide_eq_false_2 by done. unfold with_raw. rewrite H1. cbn [mbind option_bind].
  by rewrite H2, bool_decide_eq_true_2.
Qed.

Lemma visible_no_space (s : string) : string_forallb visible s = true -> existsb IsSpace (runes s) = false.
Proof.
  intros [Hvis _]%decode_visible. apply not_true_iff_false. intros Hex. apply existsb_exists in Hex as (r & Hr & Hs).
  apply list_elem_of_In, list_elem_of_fmap in Hr as (c & -> & Hc). rewrite forallb_forall in Hvis.
  apply list_elem_of_In, Hvis in Hc. by rewrite Hs in Hc.
Qed.

Lemma link_prefix_visible (s : string) : string_forallb visible s = true -> string_forallb visible (link_prefix ++ s) = true.
Proof. intros Hv. rewrite string_forallb_app, Hv. vm_compute. reflexivity. Qed.

Lemma inviteFragment_url (input s : string) : existsb IsSpace (runes input) = false -> s <> ""%string ->
  url_Parse input = Some (mkURL "https" "" false "signal.group" "/" "" false "" s "") -> inviteFragment input = Some s.
Proof.
  intros Hsp Hne Hu. unfold inviteFragment. rewrite Hsp, Hu.
  cbn [mbind option_bind u_Scheme u_Host u_User u_RawQuery u_ForceQuery u_Path u_RawPath u_Fragment u_RawFragment].
  rewrite (bool_decide_eq_false_2 (s = ""%string)) by done.
  assert (E1 : EqualFold "https" "https" = true) by (vm_compute; reflexivity).
  assert (E2 : EqualFold "signal.group" "signal.group" = true) by (vm_compute; reflexivity).
  rewrite E1, E2. reflexivity.
Qed.

Lemma inviteFragment_link (s : string) : s <> ""%string -> string_forallb (kept encodeFragment) s = true ->
  string_forallb visible s = true -> TrimSpace (link_prefix ++ s) = (link_prefix ++ s)%string /\ inviteFragment (link_prefix ++ s) = Some s.
Proof.
  intros Hne Hk Hv. apply link_prefix_visible in Hv. split; [by apply TrimSpace_visible|].
  apply inviteFragment_url; [by apply visible_no_space|done|by apply url_Parse_link].
Qed.

Section roundtrip.
Context {U : UuidLib} {W : Protowire} {E : WireEncoding W} {EL : WireEncodingLaws W E} {L : LinkLib} {LL : LinkLibLaws L W E}.

Lemma Parse_link_bytes (key password : string) : slen key = masterKeySize -> slen password = passwordSize ->
  groupinvite_Parse (link_prefix ++ EncodeToString RawURLEncoding (bytes_field 1 (bytes_field 1 key ++ bytes_field 2 password)))
    = Some (mkInvite key password).
Proof.
  intros Hk Hp. unfold masterKeySize, passwordSize in *. set (contents := (bytes_field 1 key ++ bytes_field 2 password)%string).
  pose proof (bytes_field_size 1 key ltac:(lia) ltac:(lia)) as S1. pose proof (bytes_field_size 2 password ltac:(lia) ltac:(lia)) as S2.
  assert (Sc : slen contents < 128) by (subst contents; rewrite slen_app; lia).
  pose proof (bytes_field_size 1 contents ltac:(lia) Sc) as S3. set (data := bytes_field 1 contents) in *.
  pose proof (encode_size RawURLEncoding data) as Sd. set (s := EncodeToString RawURLEncoding data) in *.
  assert (Hne : s <> ""%string).
  { intros H. apply EncodeToString_empty in H. pose proof (f_equal slen H) as Hz. change (slen "") with 0 in Hz.
    assert (0 <= slen contents) by (unfold slen; lia). lia. }
  assert (Hkept : string_forallb (kept encodeFragment) s = true) by (by apply encode_alphabet).
  destruct (inviteFragment_link s Hne Hkept (encode_visible _ _)) as [Ht Hf].
  unfold groupinvite_Parse. replace (maxInputSize <? slen (link_prefix ++ s)) with false.
  2: { rewrite slen_app. unfold maxInputSize. change (slen link_prefix) with 22. subst contents. rewrite slen_app in *. lia. }
  rewrite Ht, Hf. cbn [mbind option_bind]. unfold invite_bytes.
  replace (DecodeString (Strict RawURLEncoding) s) with (Some data) by (unfold s; by rewrite <- encode_Strict, DecodeString_EncodeToString).
  cbn [mbind option_bind]. rewrite <- (string_app_empty data). unfold data. rewrite field_bytes_field by (try done; lia).
  cbn [mbind option_bind fst snd]. change (slen "" =? 0) with true. cbn [negb]. by apply parseContents_roundtrip.
Qed.

(** C36. The invite link of a group joins that group: the URL that [Link] gives an open link is accepted by
    the parser and yields the 32-byte master key and the 16-byte
    password the group's state holds. *)
Theorem invite_link_roundtrip (g : Group) (self : string) (state : GroupLinkState) (password : string) (link : GroupLink) :
  Link g self state password = Ok link -> link_enabled state = true ->
  exists key secret, DecodeString StdEncoding (MasterKey g) = Some key /\ DecodeString StdEncoding password = Some secret /\
    slen key = masterKeySize /\ slen secret = passwordSize /\ groupinvite_Parse (lnk_URL link) = Some (mkInvite key secret).
Proof.
  unfold Link. intros [_ H]%check_then_Ok He. rewrite He in H. cbn [negb] in H.
  apply bind_Ok in H as (key & Hk & H). apply bind_Ok in H as (secret & Hs & H).
  destruct (marshal_link key secret) as [data|] eqn:Hd; [|done]. injection H as <-. cbn [lnk_URL].
  apply marshal_link_law in Hd as ->. unfold decodeGroupLinkSecret in Hk, Hs.
  destruct (DecodeString StdEncoding (MasterKey g)) as [k|]; [|done]. destruct (DecodeString StdEncoding password) as [p|]; [|done].
  destruct (slen k =? _) eqn:Ek; [|done]. destruct (slen p =? _) eqn:Ep; [|done]. injection Hk as ->. injection Hs as ->.
  apply Z.eqb_eq in Ek, Ep. exists key, secret. split_and!; [done..|]. by apply Parse_link_bytes.
Qed.
End roundtrip.

(** What the parser accepts is small and exact: at most 4096 bytes, an https or sgnl URL on the host
    signal.group without user, query or raw path, and secrets of 32 and 16 bytes. *)
Theorem groupinvite_Parse_spec {W : Protowire} (input : string) (inv : Invite) :
  groupinvite_Parse input = Some inv ->
  slen input <= maxInputSize /\ slen (inv_MasterKey inv) = masterKeySize /\ slen (inv_Password inv) = passwordSize /\
  exists u, url_Parse (TrimSpace input) = Some u /\ u_Fragment u <> ""%string /\ u_User u = false /\ u_RawQuery u = ""%string /\
    (EqualFold (u_Scheme u) "https" = true \/ EqualFold (u_Scheme u) "sgnl" = true) /\ EqualFold (u_Host u) "signal.group" = true.
Proof.
  unfold groupinvite_Parse. destruct (maxInputSize <? slen input) eqn:El; [done|]. intros H.
  apply bind_Some in H as (fragment & Hf & H). apply bind_Some in H as (raw & Hr & H). apply bind_Some in H as (cr & Hc & H).
  destruct (negb (slen cr.2 =? 0)); [done|]. unfold parseContents in H. apply bind_Some in H as (fields & _ & H).
  destruct (negb (slen _ =? masterKeySize)) eqn:E1; [done|]. destruct (negb (slen _ =? passwordSize)) eqn:E2; [done|]. injection H as <-.
  apply negb_false_iff, Z.eqb_eq in E1, E2. apply Z.ltb_ge in El. split_and!; [done..|].
  unfold inviteFragment in Hf. destruct (existsb IsSpace _); [done|]. apply bind_Some in Hf as (u & Hu & Hf). exists u. split; [done|].
  destruct (EqualFold (u_Scheme u) "https" || EqualFold (u_Scheme u) "sgnl") eqn:Es.
  2: { apply orb_false_iff in Es as [Es1 Es2]. by rewrite Es1, Es2 in Hf. }
  destruct (negb (EqualFold (u_Scheme u) "https") && _); [done|].
  destruct (EqualFold (u_Host u) "signal.group"); [|done]. destruct (u_User u); [done|]. cbn [negb orb] in Hf.
  destruct (bool_decide (u_RawQuery u = ""%string)) eqn:Eq; [|done]. cbn [negb orb] in Hf.
  destruct (u_ForceQuery u || _); [done|]. destruct (bool_decide (u_RawPath u = ""%string)); [|done]. cbn [negb orb] in Hf.
  destruct (bool_decide (u_Fragment u = ""%string)) eqn:Ef; [done|]. apply bool_decide_eq_true in Eq. apply bool_decide_eq_false in Ef.
  apply orb_true_iff in Es. by split_and!.
Qed.

(** ** Witness *)

Section witness.
Import DemoWire.

Definition demo_wire : WireEncoding DemoWire.lib := {|
  tag_bytes num := String (ascii_of (8 * num + 2)) EmptyString;
  value_bytes v := String (ascii_of (slen v)) v;
|}.
#[local] Existing Instance demo_wire.


#[local] Instance demo_wire_laws : WireEncodingLaws DemoWire.lib demo_wire.
Proof.
  split.
  - intros num rest Hn. change (DemoWire.tag (String (ascii_of (8 * num + 2)) rest) = Some (num, BytesType, 1%nat)).
    unfold DemoWire.tag. rewrite byte_of_ascii by lia. replace ((8 * num + 2) mod 8 =? 2) with true by (symmetry; apply Z.eqb_eq; sextet).
    do 3 f_equal. sextet.
  - intros v rest Hv. pose proof (String.length v). assert (0 <= slen v) by (unfold slen; lia).
    change (DemoWire.bytes (String (ascii_of (slen v)) (v ++ rest)) = Some (v, S (String.length v))). unfold DemoWire.bytes.
    rewrite byte_of_ascii by lia. unfold slen. rewrite Nat2Z.id. pose proof (slen_app v rest) as Hl. unfold slen in Hl.
    replace (String.length v <=? String.length (v ++ rest))%nat with true by (symmetry; apply Nat.leb_le; lia). by rewrite substring_app_left.
  - intros num _. done.
  - intros v _. unfold slen. cbn. lia.
Qed.

Definition demo_links : LinkLib := {|
  marshal_link key secret := Some (bytes_field 1 (bytes_field 1 key ++ bytes_field 2 secret));
  rand_Read := None;
|}.
#[local] Instance demo_links_laws : LinkLibLaws demo_links DemoWire.lib demo_wire.
Proof. split. by intros key secret data [= <-]. Qed.

Definition demo_key_text : string := EncodeToString StdEncoding "0123456789abcdef0123456789abcdef".
Definition demo_password_text : string := EncodeToString StdEncoding "0123456789abcdef".
Definition demo_open_group : Group :=
  mkGroup "" "id" demo_key_text "Title" "" 7 0 false true true
    [mkMember (ofACI demo_admin) GroupRoleAdmin 0] [] [] [] MembershipMember GroupRoleAdmin zero_time None.

Lemma invite_link_roundtrip_witness :
  exists link, Link (L:=demo_links) demo_open_group demo_admin GroupLinkEnabled demo_password_text = Ok link /\
    link_enabled GroupLinkEnabled = true /\ groupinvite_Parse (lnk_URL link) = Some (mkInvite "0123456789abcdef0123456789abcdef" "0123456789abcdef").
Proof.
  eassert (H : Link (L:=demo_links) demo_open_group demo_admin GroupLinkEnabled demo_password_text = Ok _) by (vm_compute; reflexivity).
  destruct (invite_link_roundtrip (L:=demo_links) demo_open_group demo_admin GroupLinkEnabled demo_password_text _ H eq_refl)
    as (key & secret & Hk & Hs & _ & _ & Hp).
  eexists. split; [exact H|]. split; [reflexivity|].
  assert (Ek : DecodeString StdEncoding (MasterKey demo_open_group) = Some "0123456789abcdef0123456789abcdef"%string) by (vm_compute; reflexivity).
  assert (Es : DecodeString StdEncoding demo_password_text = Some "0123456789abcdef"%string) by (vm_compute; reflexivity).
  rewrite Ek in Hk. rewrite Es in Hs. injection Hk as <-. injection Hs as <-. exact Hp.
Defined.
End witness.
