(* ===== verification/Trace.v ===== *)
(** * Operations against an oracle

    A client operation calls out to the server, the database and its context; each answer may
    depend on all calls made so far. The world is the trace of calls and the result under
    construction, which every failure returns as it is. *)

From S2P Require Import Prelude Errors.

Record trace (C R : Type) := mkTrace { tr_calls : list C; tr_result : R }.
Arguments mkTrace {C R}.
Arguments tr_calls {C R}.
Arguments tr_result {C R}.

Section trace.
Context {C R : Type}.
Notation W := (trace C R).
Notation M := (io W err).

Definition call {A} (c : C) (answer : list C -> A) : M A :=
  fun w => (Ok (answer (tr_calls w)), mkTrace (tr_calls w ++ [c]) (tr_result w)).
Definition set_result (f : R -> R) : M unit := fun w => (Ok tt, mkTrace (tr_calls w) (f (tr_result w))).
Definition fail_if (e : error) : M unit := match e with Some e => io_err e | None => io_ret tt end.

(** The result, the error and the calls of a run. *)
Definition run_trace {A} (m : M A) (start : R) : R * error * list C :=
  let (r, w) := m (mkTrace [] start) in
  (tr_result w, match r with Ok _ => None | Err e => Some e end, tr_calls w).

(** A predicate that later calls of the [quiet] kind keep. *)
Definition stable (quiet : C -> bool) (P : W -> Prop) : Prop :=
  forall w c, quiet c = true -> P w -> P (mkTrace (tr_calls w ++ [c]) (tr_result w)).

Lemma triple_call {A} quiet (P : W -> Prop) c (answer : list C -> A) Q :
  quiet c = true -> stable quiet P -> triple P (call c answer) (fun _ => P) Q.
Proof. intros Hc Hs w Hw. cbn. by apply Hs. Qed.

Lemma triple_fail_if (P Q : W -> Prop) e : (forall w, P w -> Q w) -> triple P (fail_if e) (fun _ => P) Q.
Proof. intros H. destruct e; [by apply triple_err|by apply triple_ret]. Qed.

Lemma triple_check (P Q : W -> Prop) e : (forall w, P w -> Q w) -> triple P (fail_if e) (fun _ w => P w /\ e = None) Q.
Proof. intros H. destruct e; [by apply triple_err|by apply triple_ret]. Qed.

(** What the precondition knows of values. *)
Lemma triple_pure {A} (phi : Prop) (P : W -> Prop) (m : M A) Q S :
  (forall w, P w -> phi) -> (phi -> triple P m Q S) -> triple P m Q S.
Proof. intros Hphi H w Hw. by apply H; [apply (Hphi w)|]. Qed.

Lemma stable_and quiet P Q : stable quiet P -> stable quiet Q -> stable quiet (fun w => P w /\ Q w).
Proof. intros HP HQ w c Hc [? ?]. split; [by apply HP|by apply HQ]. Qed.

Lemma stable_result quiet (f : R -> Prop) : stable quiet (fun w => f (tr_result w)).
Proof. by intros w c _ ?. Qed.
End trace.
Arguments trace C R : clear implicits.
