(* ===== verification/GroupAccept.v ===== *)
(** * Accepting a group invitation

    groups_accept.go (references, the invitation check, the redacted operation error) and the
    operation of meow_groups_accept.go, [acceptGroupWithOperations], against an oracle for its
    [groupAcceptOperations]. Every answer may depend on the calls made so far. *)

From S2P Require Import Prelude Errors Uuid Utf8 Strconv Base64 Types Groups GroupMembers GroupSettings GroupChange GroupCommit Trace.

Record GroupAcceptResult := mkAcceptResult {
  acr_ID : string; acr_Title : string; acr_Revision : Z; acr_Changed : bool; acr_Accepted : bool; acr_Verified : bool }.

Definition zeroAcceptResult : GroupAcceptResult := mkAcceptResult "" "" 0 false false false.

(** ** References *)

Definition groupAcceptReferenceLimit : Z := 4096.

(** The bytes before the first one satisfying [f] ([strings.IndexAny] and slicing), and
    [strings.Trim] for one-byte cutsets. *)
Fixpoint take_until (f : Ascii.ascii -> bool) (s : string) : string :=
  match s with EmptyString => EmptyString | String a t => if f a then EmptyString else String a (take_until f t) end.
Fixpoint drop_bytes (f : Ascii.ascii -> bool) (s : string) : string :=
  match s with EmptyString => EmptyString | String a t => if f a then drop_bytes f t else s end.
Fixpoint drop_last_bytes (f : Ascii.ascii -> bool) (s : string) : string :=
  match s with
  | EmptyString => EmptyString
  | String a t =>
      match drop_last_bytes f t with
      | EmptyString => if f a then EmptyString else String a EmptyString
      | t' => String a t'
      end
  end.
Definition one_of (bytes : list Z) (a : Ascii.ascii) : bool := existsb (fun b => byte_of a =? b) bytes.
Definition colon : Ascii.ascii := ascii_of 58.

Definition forbiddenGroupAcceptURL (ref : string) : bool :=
  match cut_byte ref colon with
  | None => false
  | Some (scheme, remainder) =>
      if EqualFold scheme "sgnl" then true
      else if negb (EqualFold scheme "https") || negb (HasPrefix remainder "//") then false
      else
        let authority := take_until (one_of [47; 63; 35]) (TrimPrefix remainder "//") in
        let authority := match cut_last authority (ascii_of 64) with Some (_, rest) => rest | None => authority end in
        let host := match cut_byte authority colon with Some (host, _) => host | None => authority end in
        EqualFold (drop_last_bytes (one_of [91; 93]) (drop_bytes (one_of [91; 93]) host)) "signal.group"
  end.

(** The first of the four encodings that decodes to 32 bytes. *)
Fixpoint first_decoding (encs : list encoding) (value : string) : option string :=
  match encs with
  | [] => None
  | e :: rest =>
      match DecodeString e value with
      | Some raw => if slen raw =? 32 then Some raw else first_decoding rest value
      | None => first_decoding rest value
      end
  end.
Definition acceptReferenceBytes (value : string) : option string :=
  first_decoding [StdEncoding; RawStdEncoding; URLEncoding; RawURLEncoding] value.
Definition acceptGroupID (value : string) : bool := given (acceptReferenceBytes value).

Definition CheckGroupAcceptReference (ref : string) : error :=
  if groupAcceptReferenceLimit <? slen ref then Some (Sent ErrUnknownGroup)
  else
    let ref := TrimSpace ref in
    if ref == ""%string then Some (Sent ErrUnknownGroup)
    else if forbiddenGroupAcceptURL ref then Some (Sent ErrUnknownGroup)
    else if HasPrefix ref "group:" && negb (acceptGroupID (TrimPrefix ref "group:")) then Some (Sent ErrUnknownGroup)
    else None.

Definition NormalizeGroupAcceptReference (ref : string) : string :=
  let ref := TrimPrefix (TrimSpace ref) "group:" in
  match acceptReferenceBytes ref with
  | Some raw => EncodeToString StdEncoding raw
  | None => ref
  end.

(** ** Redacted errors *)

(** [Error()] of the sentinels the messages quote. *)
Definition sentinel_text (s : sentinel) : string :=
  match s with
  | ErrGroupInvitationNotFound => "no group invitation for this account"
  | ErrGroupTerminated => "group is terminated"
  | ErrGroupInvitationRequiresAcceptance => "existing group invitation requires acceptance"
  | ErrGroupLinkInactive => "group invite link is unavailable, disabled, reset or banned"
  | ErrInvalidGroupInviteLink => "invalid group invite link"
  | _ => ""
  end.

Definition inspect_hint : string := "; inspect groups show or ask your phone or an administrator before retrying".

Definition GroupAcceptOperationError (e : err) (result : GroupAcceptResult) : err :=
  let identity :=
    if acceptGroupID (acr_ID result)
    then ("; group " ++ acr_ID result ++ " revision " ++ FormatUint (acr_Revision result))%string else ""%string in
  let message :=
    if acr_Accepted result then ("invitation accepted" ++ identity ++ "; follow-up failed" ++ inspect_hint)%string
    else if errIs e ErrGroupUpdateUncertain then
      ((if identity != ""%string
        then "acceptance of group " ++ acr_ID result ++ " is uncertain at attempted revision " ++ FormatUint (acr_Revision result)
        else "group invitation acceptance is uncertain") ++ inspect_hint)%string
    else if errIs e ErrGroupInvitationNotFound then sentinel_text ErrGroupInvitationNotFound
    else if errIs e ErrGroupTerminated then sentinel_text ErrGroupTerminated
    else if errIs e ErrGroupChanged then "group changed before accepting; inspect groups show before retrying"%string
    else if errIs e ErrUnknownGroup then "group is not known to this account"%string
    else "group invitation acceptance failed"%string in
  Message message e.

Section accept.
Context {U : UuidLib}.

(** ** The invitation check *)

(** The loop of [pendingAcceptInvitation] with its two results and counters. *)
Fixpoint pending_loop (self : Recipient) (aci pni : Recipient) (aciCount pniCount : Z) (pending : list PendingMember)
    : res Recipient :=
  match pending with
  | [] =>
      if (1 <? aciCount) || (1 <? pniCount) then Err (Sent errInvalidGroupChangeResponse)
      else if aciCount =? 1 then Ok aci else Ok pni
  | p :: rest =>
      if negb (acceptSelfMatches (pm_Recipient p) self) then pending_loop self aci pni aciCount pniCount rest
      else if (pm_Role p != GroupRoleMember) && (pm_Role p != GroupRoleAdmin) then Err (Sent errInvalidGroupChangeResponse)
      else if ACI (pm_Recipient p) != ""%string then
        pending_loop self (ofACI (uuid_string (acceptIdentity (ACI self)))) pni (aciCount + 1) pniCount rest
      else pending_loop self aci (ofPNI (uuid_string (acceptIdentity (PNI self)))) aciCount (pniCount + 1) rest
  end.

Definition pendingAcceptInvitation (g : Group) (self : Recipient) : res Recipient :=
  pending_loop self zeroRecipient zeroRecipient 0 0 (Pending g).

(** The invitation to accept and whether we are a member already. *)
Definition CheckAcceptInvitation (g : Group) (self : Recipient) : res (Recipient * bool) :=
  let ownACI := acceptIdentity (ACI self) in
  if ownACI == uuid_nil then Err (Sent errInvalidGroupChangeResponse)
  else if existsb (fun m => acceptIdentity (ACI (gm_Recipient m)) == ownACI) (Members g) then Ok (zeroRecipient, true)
  else
    invited ← pendingAcceptInvitation g self;
    if existsb (fun b => acceptSelfMatches (bm_Recipient b) self) (Banned g) then Err (Sent errInvalidGroupChangeResponse)
    else if Recipient_IsZero invited then Err (Sent ErrGroupInvitationNotFound)
    else if existsb (fun r => acceptSelfMatches (rm_Recipient r) self) (Requesting g) then
      Err (Sent errInvalidGroupChangeResponse)
    else if Revision g =? MaxUint32 then Err (Sent errInvalidGroupChangeResponse)
    else Ok (invited, false).

(** ** The operation (meow_groups_accept.go) *)

Inductive accept_call :=
  | AContext | AResolve | AInvalidate | AFetch | AAccept (revision : Z) (id : ServiceID) | ACache | ANotify.

(** signalmeow's [GroupInvitationAcceptOutcome]; of the context and the change only their
    presence is read. *)
Record AcceptOutcome := mkOutcome {
  out_Attempted : bool; out_Accepted : bool; out_Verified : bool; out_Revision : Z;
  out_GroupContext : bool; out_Change : bool }.

(** The operations; each answer may depend on the calls so far. Of a notification's result the
    errors of [FailedToSendTo] are read, and whether it is nil. *)
Class AcceptOps := {
  ctx_Err : list accept_call -> error;
  ops_Resolve : list accept_call -> string -> res (string * string);
  ops_derive : string -> res string;
  ops_Fetch : list accept_call -> string -> res (option RawGroup);
  ops_Accept : list accept_call -> string -> Z -> ServiceID -> AcceptOutcome * error;
  ops_Cache : list accept_call -> Group -> error;
  ops_Notify : list accept_call -> RawGroup -> res (option (list error));
}.

Definition acceptValidServiceID (id : ServiceID) : bool := sid_UUID id != uuid_nil.

Definition checkAcceptSnapshot (raw : option RawGroup) (gid key : string) : res RawGroup :=
  match raw with
  | None => Err (Sent errInvalidGroupChangeResponse)
  | Some raw =>
      if (raw_GroupIdentifier raw != gid) || (raw_GroupMasterKey raw != key)
         || existsb (fun m => match m with Some m => rmem_ACI m == uuid_nil | None => true end) (raw_Members raw)
         || existsb (fun p => match p with Some p => negb (acceptValidServiceID (rpen_ServiceID p)) | None => true end)
              (raw_PendingMembers raw)
         || existsb (fun r => match r with Some r => rreq_ACI r == uuid_nil | None => true end) (raw_RequestingMembers raw)
         || existsb (fun b => match b with Some b => negb (acceptValidServiceID (rban_ServiceID b)) | None => true end)
              (raw_BannedMembers raw)
      then Err (Sent errInvalidGroupChangeResponse) else Ok raw
  end.

(** The rest of [resolveAcceptanceKey]: the key decodes to 32 bytes from which the identifier derives. *)
Definition check_key (derive : string -> res string) (gk : string * string) : res (string * string) :=
  match DecodeString StdEncoding gk.2 with
  | None => Err (Sent errInvalidGroupChangeResponse)
  | Some master =>
      if negb (slen master =? groupKeyLen) then Err (Sent errInvalidGroupChangeResponse)
      else
        derived ← derive master;
        if gk.1 != derived then Err (Sent errInvalidGroupChangeResponse) else Ok gk
  end.

(** [groupJoinNotificationError] (meow_groups_join.go): every recipient that was not reached. *)
Definition groupJoinNotificationError (notification : option (list error)) : error :=
  match notification with
  | None => Some (Sent errInvalidGroupChangeResponse)
  | Some failures => errorsJoin (default (Sent errInvalidGroupChangeResponse) <$> failures)
  end.

Definition groupAcceptForkError (e : err) : err :=
  if errIs e meow_ErrGroupAcceptanceUncertain then Wrap [Sent ErrGroupUpdateUncertain; e]
  else if errIs e meow_ErrGroupAcceptanceInvalid then Wrap [Sent errInvalidGroupChangeResponse; e]
  else if errIs e meow_ErrGroupAcceptanceTerminated then Wrap [Sent ErrGroupTerminated; e]
  else if errIs e meow_ConflictError || errIs e meow_ContactManifestMismatchError then Wrap [Sent ErrGroupChanged; e]
  else if errIs e meow_AuthorizationFailedError then Wrap [Sent ErrNotAMember; e]
  else if errIs e meow_NotFoundError || errIs e meow_ErrGroupMasterKeyNotFound then Wrap [Sent ErrUnknownGroup; e]
  else e.

Context {O : AcceptOps}.

Notation accept_state := (trace accept_call GroupAcceptResult).
Notation M := (io accept_state err).

Definition fork {A} (r : res A) : M A := match r with Ok a => io_ret a | Err e => io_err (groupAcceptForkError e) end.

Definition groupAcceptContextError : M unit :=
  let* e := call AContext ctx_Err in
  fail_if (match e with Some e => Some (Wrap [e]) | None => None end).

Definition resolveAcceptanceKey (ref : string) : M (string * string) :=
  let* r := call AResolve (fun tr => ops_Resolve tr ref) in
  io_of (gk ← r; check_key ops_derive gk).

Definition fetch_group (gid key : string) : M RawGroup :=
  let* r := call AFetch (fun tr => ops_Fetch tr key) in
  let* raw := fork r in
  io_of (checkAcceptSnapshot raw gid key).

Definition verified (g : Group) (r : GroupAcceptResult) : GroupAcceptResult :=
  mkAcceptResult (acr_ID r) (Title g) (Revision g) (acr_Changed r) (acr_Accepted r) true.

Definition completeGroupAcceptance (self : Recipient) (gid key : string) (outcome : AcceptOutcome) : M unit :=
  let* _ := groupAcceptContextError in
  let* _ := call AInvalidate (fun _ => tt) in
  let* raw := fetch_group gid key in
  if raw_Revision raw <? out_Revision outcome then io_err (Sent errInvalidGroupChangeResponse)
  else
    let group := convertGroup raw self in
    match CheckAcceptInvitation group self with
    | Ok (_, true) =>
        let* _ := set_result (verified group) in
        let* _ := groupAcceptContextError in
        let* e := call ACache (fun tr => ops_Cache tr group) in
        let* _ := fail_if e in
        let* _ := groupAcceptContextError in
        let* r := call ANotify (fun tr => ops_Notify tr raw) in
        let* notification := io_of r in
        fail_if (groupJoinNotificationError notification)
    | _ => io_err (Sent ErrNotAMember)
    end.

Definition submitGroupAcceptance (self : Recipient) (gid key : string) (group : Group) (invited : Recipient) : M unit :=
  let serviceID := acceptServiceID invited in
  let* r := call (AAccept (Revision group) serviceID) (fun tr => ops_Accept tr key (Revision group) serviceID) in
  let outcome := r.1 in
  let* _ := set_result (fun res => mkAcceptResult (acr_ID res) (acr_Title res)
              (if out_Attempted outcome || out_Accepted outcome then out_Revision outcome else acr_Revision res)
              (out_Accepted outcome) (out_Accepted outcome) (acr_Verified res)) in
  match r.2 with
  | Some e => io_err (groupAcceptForkError e)
  | None =>
      if negb (out_Accepted outcome) || negb (out_Verified outcome)
         || negb (out_Revision outcome =? Revision group + 1)
         || negb (out_GroupContext outcome) || negb (out_Change outcome)
      then io_err (Sent errInvalidGroupChangeResponse)
      else completeGroupAcceptance self gid key outcome
  end.

(** The body of [acceptGroupWithOperations] after the key is resolved; the deferred
    [Invalidate] runs on every path. *)
Definition accept_resolved (self : Recipient) (gid key : string) : M unit :=
  let* _ := groupAcceptContextError in
  let* raw := fetch_group gid key in
  let group := convertGroup raw self in
  let* _ := set_result (fun res => mkAcceptResult (acr_ID res) (acr_Title res) (Revision group)
              (acr_Changed res) (acr_Accepted res) (acr_Verified res)) in
  let* chk := io_of (CheckAcceptInvitation group self) in
  let (invited, noop) := chk : Recipient * bool in
  let* _ := (if noop : bool then set_result (verified group) else io_ret tt) in
  let* _ := groupAcceptContextError in
  if noop : bool then let* e := call ACache (fun tr => ops_Cache tr group) in fail_if e
  else submitGroupAcceptance self gid key group invited.

Definition accept_body (self : Recipient) (ref : string) : M unit :=
  let* _ := fail_if (CheckGroupAcceptReference ref) in
  let* _ := groupAcceptContextError in
  let* gk := resolveAcceptanceKey ref in
  let* _ := set_result (fun res => mkAcceptResult gk.1 (acr_Title res) (acr_Revision res) (acr_Changed res)
              (acr_Accepted res) (acr_Verified res)) in
  let* _ := call AInvalidate (fun _ => tt) in
  let* r := io_try (accept_resolved self gk.1 gk.2) in
  let* _ := call AInvalidate (fun _ => tt) in
  io_of r.

Definition acceptGroupWithOperations (self : Recipient) (ref : string) : GroupAcceptResult * error * list accept_call :=
  let '(result, e, calls) := run_trace (accept_body self ref) zeroAcceptResult in
  (result, match e with None => None | Some e => Some (GroupAcceptOperationError e result) end, calls).
End accept.

(** ** The invitation check *)

Section invitation.
Context {U : UuidLib} {UL : UuidLaws U}.

(** The invitations that are ours, by ACI and by PNI. *)
Definition own_invitations (self : Recipient) (pending : list PendingMember) : list PendingMember :=
  filter (fun p => acceptSelfMatches (pm_Recipient p) self = true) pending.
Definition by_aci (pending : list PendingMember) : list PendingMember :=
  filter (fun p => (ACI (pm_Recipient p) != ""%string) = true) pending.
Definition by_pni (pending : list PendingMember) : list PendingMember :=
  filter (fun p => (ACI (pm_Recipient p) == ""%string) = true) pending.

Definition has_role (p : PendingMember) : Prop := pm_Role p = GroupRoleMember \/ pm_Role p = GroupRoleAdmin.

Lemma by_aci_cons p l : by_aci (p :: l) = (if ACI (pm_Recipient p) == ""%string then by_aci l else p :: by_aci l).
Proof. unfold by_aci. rewrite filter_cons. by destruct (bool_decide _). Qed.
Lemma by_pni_cons p l : by_pni (p :: l) = (if ACI (pm_Recipient p) == ""%string then p :: by_pni l else by_pni l).
Proof. unfold by_pni. rewrite filter_cons. by destruct (bool_decide _). Qed.
Lemma len_cons {A} (x : A) l : len (x :: l) = 1 + len l.
Proof. unfold len. cbn [length]. lia. Qed.

Lemma pending_loop_Ok self aci pni na np pending invited :
  pending_loop self aci pni na np pending = Ok invited ->
  let own := own_invitations self pending in
  (forall p, p ∈ own -> has_role p)
  /\ na + len (by_aci own) <= 1 /\ np + len (by_pni own) <= 1
  /\ invited = if na + len (by_aci own) =? 1
               then match by_aci own with [] => aci | _ => ofACI (uuid_string (acceptIdentity (ACI self))) end
               else match by_pni own with [] => pni | _ => ofPNI (uuid_string (acceptIdentity (PNI self))) end.
Proof.
  revert aci pni na np. induction pending as [|p rest IH]; intros aci pni na np; cbn [pending_loop].
  - destruct (1 <? na) eqn:E1; [done|]. destruct (1 <? np) eqn:E2; [done|]. cbn. unfold len. cbn.
    intros H. bool_hyps. rewrite !Z.add_0_r. split_and!; [by intros ? ?%elem_of_nil|lia|lia|].
    destruct (na =? 1); by injection H.
  - unfold own_invitations. rewrite filter_cons. destruct (acceptSelfMatches (pm_Recipient p) self) eqn:Hm; cbn [negb].
    2: { rewrite decide_False by done. apply IH. }
    rewrite decide_True by done. fold (own_invitations self rest). cbv zeta. rewrite by_aci_cons, by_pni_cons.
    destruct (_ && _) eqn:Hrole; [done|].
    assert (Hp : has_role p).
    { unfold has_role. apply andb_false_iff in Hrole as [?|?]; bool_hyps; auto. }
    clear Hrole. destruct (bool_decide (ACI (pm_Recipient p) = ""%string)) eqn:Ea; cbn [negb];
      intros (Hr & Ha & Hn & ->)%IH; rewrite len_cons;
      (split; [intros x [->|Hx]%elem_of_cons; [done|by apply Hr]|]).
    + split_and!; [lia|lia|]. destruct (na + _ =? 1); [done|].
      by destruct (by_pni _).
    + pose proof (len_nonneg (by_aci (own_invitations self rest))). split_and!; [lia|lia|].
      replace (na + (1 + len (by_aci (own_invitations self rest)))) with
        (na + 1 + len (by_aci (own_invitations self rest))) by lia.
      destruct (_ =? 1) eqn:E1; [|done].
      by destruct (by_aci _).
Qed.

(** The invitation check: it reports a member only if our ACI is one, and otherwise returns
    one of our own invitations by its canonical identity, the ACI one first, when we have
    at most one by each identity, with a known role, are neither banned nor requesting, and
    the group still has a next revision. *)
Theorem CheckAcceptInvitation_spec g self invited noop :
  CheckAcceptInvitation g self = Ok (invited, noop) ->
  acceptIdentity (ACI self) <> uuid_nil /\
  let own := own_invitations self (Pending g) in
  let member := existsb (fun m => acceptIdentity (ACI (gm_Recipient m)) == acceptIdentity (ACI self)) (Members g) in
  noop = member /\
  (member = false ->
    (forall p, p ∈ own -> has_role p) /\ len (by_aci own) <= 1 /\ len (by_pni own) <= 1
    /\ (by_aci own <> [] /\ invited = ofACI (uuid_string (acceptIdentity (ACI self)))
        \/ by_aci own = [] /\ by_pni own <> [] /\ invited = ofPNI (uuid_string (acceptIdentity (PNI self))))
    /\ (forall b, b ∈ Banned g -> acceptSelfMatches (bm_Recipient b) self = false)
    /\ (forall r, r ∈ Requesting g -> acceptSelfMatches (rm_Recipient r) self = false)
    /\ Revision g <> MaxUint32).
Proof.
  unfold CheckAcceptInvitation. destruct (bool_decide (_ = uuid_nil)) eqn:En; [done|]. bool_hyps.
  destruct (existsb _ (Members g)) eqn:Em; [by intros [= <- <-]|].
  rewrite bind_Ok. intros (inv & Hp & H). apply pending_loop_Ok in Hp. cbv zeta in Hp.
  destruct Hp as (Hr & Ha & Hpn & ->). rewrite !Z.add_0_l in *.
  assert (Hnone : forall A (f : A -> bool) l, existsb f l = false -> forall x, x ∈ l -> f x = false).
  { intros A f l Hf x Hx. apply not_true_iff_false. intros Ht. apply not_true_iff_false in Hf. apply Hf.
    apply existsb_exists. exists x. split; [by apply list_elem_of_In|done]. }
  destruct (existsb _ (Banned g)) eqn:Eb; [done|].
  destruct (Recipient_IsZero _) eqn:Ez; [done|].
  destruct (existsb _ (Requesting g)) eqn:Er; [done|].
  destruct (Revision g =? MaxUint32) eqn:Ex; [done|]. injection H as <- <-. bool_hyps.
  split; [done|]. split; [done|]. intros _. split_and!; try done.
  - destruct (by_aci _) as [|x l] eqn:E1; cbn in *.
    + right. destruct (by_pni _); cbn in *; [|done]. unfold Recipient_IsZero in Ez. by bool_hyps.
    + left. rewrite len_cons in *. pose proof (len_nonneg l).
      replace (1 + len l =? 1) with true; [done|]. symmetry. apply Z.eqb_eq. lia.
  - intros b. by apply (Hnone _ _ _ Eb).
  - intros r. by apply (Hnone _ _ _ Er).
Qed.
End invitation.

(** ** The operation *)

Section flow.
Context {U : UuidLib} {O : AcceptOps}.
Notation accept_state := (trace accept_call GroupAcceptResult).

Definition is_accept (c : accept_call) : bool := match c with AAccept _ _ => true | _ => false end.
Definition accepts (calls : list accept_call) : list accept_call := filter (fun c => is_accept c = true) calls.

(** Fresh evidence: a group fetched during these calls in which we are a full member. *)
Definition evidence (self : Recipient) (calls : list accept_call) (r : GroupAcceptResult) : Prop :=
  exists pre key raw, pre ++ [AFetch] `prefix_of` calls /\ ops_Fetch pre key = Ok (Some raw)
    /\ raw_GroupIdentifier raw = acr_ID r
    /\ existsb (fun m => acceptIdentity (ACI (gm_Recipient m)) == acceptIdentity (ACI self))
         (Members (convertGroup raw self)) = true
    /\ acr_Title r = Title (convertGroup raw self) /\ acr_Revision r = Revision (convertGroup raw self).

Definition consistent (self : Recipient) (w : accept_state) : Prop :=
  (length (accepts (tr_calls w)) <= 1)%nat
  /\ acr_Changed (tr_result w) = acr_Accepted (tr_result w)
  /\ (acr_Accepted (tr_result w) = true -> accepts (tr_calls w) <> [])
  /\ (acr_Verified (tr_result w) = true -> evidence self (tr_calls w) (tr_result w)).

(** Nothing was sent and nothing is claimed yet. *)
Definition untouched (gid : option string) (w : accept_state) : Prop :=
  accepts (tr_calls w) = [] /\ acr_Changed (tr_result w) = false /\ acr_Accepted (tr_result w) = false
  /\ acr_Verified (tr_result w) = false
  /\ match gid with Some gid => acr_ID (tr_result w) = gid | None => True end.

Lemma untouched_consistent self gid w : untouched gid w -> consistent self w.
Proof. intros (Ha & Hc & Hacc & Hv & _). unfold consistent. rewrite Ha, Hc, Hacc, Hv. split_and!; try done. cbn. lia. Qed.

(** A predicate that later calls other than Accept keep. *)
Definition quiet (c : accept_call) : bool := negb (is_accept c).
Notation stable := (stable quiet).

Lemma accepts_app calls c : is_accept c = false -> accepts (calls ++ [c]) = accepts calls.
Proof. intros H. unfold accepts. rewrite filter_app. cbn. rewrite H. cbn. apply app_nil_r. Qed.

Lemma evidence_app self calls r more : evidence self calls r -> evidence self (calls ++ more) r.
Proof.
  intros (pre & key & raw & Hpre & ?). exists pre, key, raw. split; [|done]. by apply prefix_app_r.
Qed.

Lemma stable_consistent self : stable (consistent self).
Proof.
  intros w c Hc%negb_true_iff (Hl & Hch & Ha & Hv). unfold consistent. cbn. rewrite (accepts_app _ _ Hc).
  split_and!; [done..|]. intros E. by apply evidence_app, Hv.
Qed.

Lemma stable_untouched gid : stable (untouched gid).
Proof. intros w c Hc%negb_true_iff (Ha & ?). unfold untouched. cbn. by rewrite (accepts_app _ _ Hc). Qed.

Lemma triple_context P R : stable P -> (forall w, P w -> R w) -> triple P groupAcceptContextError (fun _ => P) R.
Proof.
  intros Hs H. eapply triple_bind; [by apply (triple_call quiet)|]. intros e. by apply triple_fail_if.
Qed.

(** A fetched group came from the last call and carries the requested identifier. *)
Definition fetched (key gid : string) (raw : RawGroup) (w : accept_state) : Prop :=
  exists pre, pre ++ [AFetch] `prefix_of` tr_calls w /\ ops_Fetch pre key = Ok (Some raw)
    /\ raw_GroupIdentifier raw = gid.

Lemma fetched_app key gid raw w c r : fetched key gid raw w -> fetched key gid raw (mkTrace (tr_calls w ++ [c]) r).
Proof. intros (pre & Hp & ?). exists pre. split; [|done]. cbn. by apply prefix_app_r. Qed.

Lemma triple_fetch P R gid key :
  stable P -> (forall w, P w -> R w) ->
  triple P (fetch_group gid key) (fun raw w => P w /\ fetched key gid raw w) R.
Proof.
  intros Hs HR w Hw. unfold fetch_group, io_bind, call, fork. cbn.
  pose proof (Hs w AFetch eq_refl Hw) as Hw'.
  destruct (ops_Fetch (tr_calls w) key) as [raw|e] eqn:E; cbn; [|by apply HR].
  unfold checkAcceptSnapshot, io_of. destruct raw as [raw|]; cbn; [|by apply HR].
  destruct (bool_decide (raw_GroupIdentifier raw = gid)) eqn:Eg; cbn; [|by apply HR]. bool_hyps.
  destruct (_ || _); cbn; [by apply HR|]. split; [done|]. by exists (tr_calls w).
Qed.

Lemma CheckAcceptInvitation_noop g self inv :
  CheckAcceptInvitation g self = Ok (inv, true) ->
  existsb (fun m => acceptIdentity (ACI (gm_Recipient m)) == acceptIdentity (ACI self)) (Members g) = true.
Proof.
  unfold CheckAcceptInvitation. destruct (bool_decide _); [done|]. destruct (existsb _ (Members g)); [done|].
  rewrite bind_Ok. intros (? & _ & H). by repeat case_match.
Qed.

Lemma set_verified self key gid raw inv w :
  consistent self w -> acr_ID (tr_result w) = gid -> fetched key gid raw w ->
  CheckAcceptInvitation (convertGroup raw self) self = Ok (inv, true) ->
  consistent self (mkTrace (tr_calls w) (verified (convertGroup raw self) (tr_result w))).
Proof.
  intros (Hl & Hch & Ha & _) Hid (pre & Hp & Hf & Hg) Hm. unfold consistent. cbn.
  split_and!; [done..|]. intros _. exists pre, key, raw. split_and!; try done; [by cbn; congruence|].
  by eapply CheckAcceptInvitation_noop.
Qed.

Definition done_ (self : Recipient) (w : accept_state) : Prop :=
  consistent self w /\ acr_Verified (tr_result w) = true.

Definition pending_id (self : Recipient) (gid : string) (w : accept_state) : Prop :=
  consistent self w /\ acr_ID (tr_result w) = gid.

Lemma stable_done self : stable (done_ self).
Proof. apply stable_and; [apply stable_consistent|apply (stable_result quiet (fun r => acr_Verified r = true))]. Qed.

Lemma stable_pending_id self gid : stable (pending_id self gid).
Proof. apply stable_and; [apply stable_consistent|apply (stable_result quiet (fun r => acr_ID r = gid))]. Qed.

Lemma complete_triple self gid key outcome :
  triple (pending_id self gid) (completeGroupAcceptance self gid key outcome) (fun _ => done_ self) (consistent self).
Proof.
  assert (Hpc : forall w, pending_id self gid w -> consistent self w) by by intros w [? ?].
  assert (Hdc : forall w, done_ self w -> consistent self w) by by intros w [? ?].
  unfold completeGroupAcceptance.
  eapply triple_bind; [apply triple_context; [apply stable_pending_id|done]|]. intros ?.
  eapply triple_bind; [apply (triple_call quiet); [done|apply stable_pending_id]|]. intros ?.
  eapply triple_bind; [apply triple_fetch; [apply stable_pending_id|done]|]. intros raw.
  destruct (raw_Revision raw <? _); [apply triple_err; by intros w [? _]; auto|].
  destruct (CheckAcceptInvitation _ self) as [[inv [|]]|] eqn:Hc; [|apply triple_err; by intros w [? _]; auto..].
  eapply (triple_bind _ _ _ (fun _ => done_ self)).
  { intros w [[Hw Hid] Hf]. cbn. split; [|done]. by apply (set_verified self key gid raw inv w). }
  intros ?. eapply triple_bind; [apply triple_context; [apply stable_done|done]|]. intros ?.
  eapply triple_bind; [apply (triple_call quiet); [done|apply stable_done]|]. intros e.
  eapply triple_bind; [by apply triple_fail_if|]. intros ?.
  eapply triple_bind; [apply triple_context; [apply stable_done|done]|]. intros ?.
  eapply triple_bind; [apply (triple_call quiet); [done|apply stable_done]|]. intros r.
  eapply (triple_bind _ _ _ (fun _ => done_ self)); [by apply triple_of|]. intros notification. by apply triple_fail_if.
Qed.

Lemma submit_triple self gid key group invited :
  triple (untouched (Some gid)) (submitGroupAcceptance self gid key group invited) (fun _ => done_ self) (consistent self).
Proof.
  intros w (Ha & Hch & Hacc & Hv & Hid). unfold submitGroupAcceptance, io_bind at 1 2, call, set_result. cbn.
  set (w' := mkTrace _ _).
  assert (Hw : pending_id self gid w').
  { split; [|done]. subst w'. unfold consistent. cbn. unfold accepts in *. rewrite filter_app, Ha. cbn.
    rewrite (decide_True (P := true = true)) by done. split_and!; [cbn; lia|done|done|intros E; congruence]. }
  destruct (ops_Accept _ _ _ _).2; [by destruct Hw|]. destruct (_ || _ || _ || _ || _); [by destruct Hw|].
  by apply (complete_triple self gid key _ w').
Qed.

Lemma resolved_triple self gid key :
  triple (untouched (Some gid)) (accept_resolved self gid key) (fun _ => done_ self) (consistent self).
Proof.
  assert (Huc : forall w, untouched (Some gid) w -> consistent self w) by apply untouched_consistent.
  assert (Hdc : forall w, done_ self w -> consistent self w) by by intros w [? ?].
  unfold accept_resolved.
  eapply triple_bind; [apply triple_context; [apply stable_untouched|done]|]. intros ?.
  eapply triple_bind; [apply triple_fetch; [apply stable_untouched|done]|]. intros raw.
  eapply (triple_bind _ _ _ (fun _ w => untouched (Some gid) w /\ fetched key gid raw w)); [by intros w Hw|]. intros ?.
  eapply (triple_bind _ _ _ (fun chk w => (untouched (Some gid) w /\ fetched key gid raw w)
                                          /\ CheckAcceptInvitation (convertGroup raw self) self = Ok chk)).
  { apply triple_of; [by intros w x Hw ->|]. intros w [Hw _]. auto. }
  intros [inv noop]. destruct noop.
  - eapply (triple_bind _ _ _ (fun _ => done_ self)).
    { intros w [[Hw Hf] Hc]. cbn. split; [|done]. apply (set_verified self key gid raw inv w); auto.
      by destruct Hw as (_ & _ & _ & _ & ?). }
    intros ?. eapply triple_bind; [apply triple_context; [apply stable_done|done]|]. intros ?.
    eapply triple_bind; [apply (triple_call quiet); [done|apply stable_done]|]. intros e. by apply triple_fail_if.
  - eapply (triple_bind _ _ _ (fun _ => untouched (Some gid))).
    { apply triple_ret. by intros w [[? _] _]. }
    intros ?. eapply triple_bind; [apply triple_context; [apply stable_untouched|done]|]. intros ?.
    apply submit_triple.
Qed.

Lemma body_triple self ref :
  triple (untouched None) (accept_body self ref) (fun _ => done_ self) (consistent self).
Proof.
  assert (Huc : forall w, untouched None w -> consistent self w) by apply untouched_consistent.
  unfold accept_body.
  eapply triple_bind; [by apply triple_fail_if|]. intros ?.
  eapply triple_bind; [apply triple_context; [apply stable_untouched|done]|]. intros ?.
  eapply (triple_bind _ _ _ (fun _ => untouched None)).
  { unfold resolveAcceptanceKey. eapply triple_bind; [apply (triple_call quiet); [done|apply stable_untouched]|]. intros r. by apply triple_of. }
  intros gk. eapply (triple_bind _ _ _ (fun _ => untouched (Some gk.1))).
  { intros w (? & ? & ? & ? & _). done. }
  intros ?. eapply triple_bind; [apply (triple_call quiet); [done|apply stable_untouched]|]. intros ?.
  eapply triple_bind; [eapply triple_try, resolved_triple|]. intros r.
  destruct r as [u|e].
  - eapply (triple_bind _ _ _ (fun _ => done_ self)).
    { intros w Hw. cbn. by apply stable_done. }
    intros ?. apply triple_of; [done|]. by intros w [? _].
  - eapply (triple_bind _ _ _ (fun _ => consistent self)).
    { intros w Hw. cbn. by apply stable_consistent. }
    intros _. by apply triple_of.
Qed.

(** C16. Accepting an invitation submits at most one acceptance; the result says accepted and
    changed together and only after a submission, says verified only with a freshly fetched
    group that lists our ACI as a member and whose title and revision it reports, and a run
    without an error is verified. *)
Theorem acceptGroupWithOperations_spec self ref :
  let '(result, e, calls) := acceptGroupWithOperations self ref in
  (length (accepts calls) <= 1)%nat
  /\ acr_Changed result = acr_Accepted result
  /\ (acr_Accepted result = true -> accepts calls <> [])
  /\ (acr_Verified result = true -> evidence self calls result)
  /\ (e = None -> acr_Verified result = true).
Proof.
  unfold acceptGroupWithOperations, run_trace.
  pose proof (body_triple self ref (mkTrace [] zeroAcceptResult)) as H.
  destruct (accept_body self ref _) as [r w].
  assert (Hu : untouched None (mkTrace [] zeroAcceptResult)) by done.
  destruct r as [u|e]; specialize (H Hu).
  - destruct H as [(? & ? & ? & ?) ?]. done.
  - destruct H as (? & ? & ? & ?). done.
Qed.
End flow.

(** ** Witnesses *)

Section witnesses.
Import DemoUuid.

Lemma CheckAcceptInvitation_spec_witness :
  exists invited noop, CheckAcceptInvitation demo_group (mkRecipient demo_new demo_invited "" "") = Ok (invited, noop)
    /\ invited = ofPNI demo_invited /\ noop = false
    /\ acceptIdentity demo_new <> uuid_nil.
Proof.
  eassert (H : CheckAcceptInvitation demo_group (mkRecipient demo_new demo_invited "" "") = Ok (_, _)) by (vm_compute; reflexivity).
  destruct (CheckAcceptInvitation_spec demo_group _ _ _ H) as (H1 & _).
  do 2 eexists. split; [exact H|]. split; [reflexivity|]. split; [reflexivity|exact H1].
Defined.
End witnesses.
