(* ===== verification/GroupJoin.v ===== *)
(** * Joining by link and cancelling a request

    groups_join.go, meow_groups_join.go, groups_cancel_request.go and meow_groups_cancel_request.go:
    the two operations against an oracle for their calls, and their redacted errors. *)

From S2P Require Import Prelude Errors Uuid Utf8 Strconv Base64 Types Groups GroupMembers GroupSettings GroupChange GroupCommit Protowire GroupInvite Trace GroupAccept.

(** ** Results and errors *)

Inductive GroupJoinStatus := GroupJoinNone | GroupJoinMember | GroupJoinRequesting.
#[export] Instance GroupJoinStatus_eq_dec : EqDecision GroupJoinStatus.
Proof. solve_decision. Defined.

Record GroupJoinResult := mkJoinResult {
  gjr_ID : string; gjr_Title : string; gjr_Revision : Z; gjr_Status : GroupJoinStatus;
  gjr_Changed : bool; gjr_Accepted : bool; gjr_Verified : bool }.
Definition zeroJoinResult : GroupJoinResult := mkJoinResult "" "" 0 GroupJoinNone false false false.

Definition join_hint : string :=
  "; inspect groups show or ask an administrator or your phone before retrying (show may be unavailable until approval)".

Definition GroupJoinOperationError (e : err) (result : GroupJoinResult) : err :=
  let message :=
    if gjr_Accepted result then
      ("join accepted; group " ++ gjr_ID result ++ " revision " ++ FormatUint (gjr_Revision result)
       ++ "; follow-up failed" ++ join_hint)%string
    else if errIs e ErrGroupUpdateUncertain then
      ("join of group " ++ gjr_ID result ++ " is uncertain at attempted revision " ++ FormatUint (gjr_Revision result) ++ join_hint)%string
    else if errIs e ErrGroupInvitationRequiresAcceptance then sentinel_text ErrGroupInvitationRequiresAcceptance
    else if errIs e ErrGroupTerminated then sentinel_text ErrGroupTerminated
    else if errIs e ErrGroupLinkInactive then sentinel_text ErrGroupLinkInactive
    else if errIs e ErrGroupChanged then "group changed before joining; inspect before retrying"%string
    else if errIs e ErrInvalidGroupInviteLink then sentinel_text ErrInvalidGroupInviteLink
    else "group join failed"%string in
  Message message e.

Record GroupCancelRequestResult := mkCancelResult {
  gcr_ID : string; gcr_Title : string; gcr_Revision : Z; gcr_Changed : bool; gcr_Accepted : bool; gcr_Verified : bool }.
Definition zeroCancelResult : GroupCancelRequestResult := mkCancelResult "" "" 0 false false false.

Definition GroupCancelRequestOperationError (e : err) (result : GroupCancelRequestResult) : err :=
  let identity :=
    if acceptGroupID (gcr_ID result)
    then ("; group " ++ gcr_ID result ++ " revision " ++ FormatUint (gcr_Revision result))%string else ""%string in
  let message :=
    if gcr_Accepted result then ("join request cancellation accepted" ++ identity ++ "; operation failed" ++ inspect_hint)%string
    else if errIs e ErrGroupUpdateUncertain then
      ("group join request cancellation is uncertain" ++ identity ++ inspect_hint)%string
    else if errIs e ErrGroupTerminated then sentinel_text ErrGroupTerminated
    else if errIs e ErrGroupChanged then
      "group changed before cancelling the join request; inspect groups show before retrying"%string
    else if errIs e ErrUnknownGroup then "group is not known to this account"%string
    else "group join request cancellation failed"%string in
  Message message e.

Definition CheckGroupCancelRequestReference (ref : string) : error := CheckGroupAcceptReference ref.
Definition NormalizeGroupCancelRequestReference (ref : string) : string := NormalizeGroupAcceptReference ref.

(** signalmeow's [GroupJoinPreview], [GroupJoinOutcome] and [GroupJoinRequestCancelOutcome]; of the
    context and the change only their presence is read. *)
Record JoinPreview := mkPreview { pv_Title : string; pv_Revision : Z; pv_Access : AccessControl; pv_PendingAdminApproval : bool }.
Record JoinOutcome := mkJoinOutcome {
  jo_Attempted : bool; jo_Accepted : bool; jo_Verified : bool; jo_Requesting : bool; jo_Revision : Z;
  jo_GroupContext : bool; jo_Change : bool }.

Definition groupJoinForkError (e : err) : err :=
  if errIs e meow_ErrGroupJoinUncertain then Wrap [Sent ErrGroupUpdateUncertain; e]
  else if errIs e meow_ConflictError || errIs e meow_ContactManifestMismatchError then Wrap [Sent ErrGroupChanged; e]
  else if errIs e meow_ErrGroupJoinTerminated then Wrap [Sent ErrGroupTerminated; e]
  else if errIs e meow_ErrGroupJoinInactive || errIs e meow_AuthorizationFailedError || errIs e meow_NotFoundError then
    Wrap [Sent ErrGroupLinkInactive; e]
  else e.

Definition groupCancelRequestForkError (e : err) : err :=
  if errIs e meow_ErrGroupCancellationUncertain then Wrap [Sent ErrGroupUpdateUncertain; e]
  else if errIs e meow_ErrGroupCancellationInvalid then Wrap [Sent errInvalidGroupChangeResponse; e]
  else if errIs e meow_ErrGroupCancellationTerminated then Wrap [Sent ErrGroupTerminated; e]
  else groupAcceptForkError e.

(** ** Joining *)

Section joining.
Context {U : UuidLib} {W : Protowire}.

Definition CheckGroupInviteLink (link : string) : error :=
  match groupinvite_Parse link with Some _ => None | None => Some (Sent ErrInvalidGroupInviteLink) end.

Inductive join_call :=
  | JContext | JKnown | JInvalidate | JFetch (revision : Z) | JCache | JPreview | JPersist | JJoin (preview : JoinPreview) | JNotify.

Class JoinOps := {
  join_ctx_Err : list join_call -> error;
  join_Known : list join_call -> string -> res bool;
  join_Persist : list join_call -> string -> string -> error;
  join_Fetch : list join_call -> string -> Z -> res (option RawGroup);
  join_Cache : list join_call -> Group -> error;
  join_Preview : list join_call -> string -> string -> res JoinPreview;
  join_Join : list join_call -> string -> string -> JoinPreview -> JoinOutcome * error;
  join_Notify : list join_call -> RawGroup -> res (option (list error));
  join_derive : string -> res string;
}.
Context {O : JoinOps}.
Notation M := (io (trace join_call GroupJoinResult) err).

Definition join_context : M error :=
  let* e := call JContext join_ctx_Err in
  io_ret (match e with Some e => Some (Wrap [e]) | None => None end).
Definition joinContextError : M unit := let* e := join_context in fail_if e.

(** Its result is not the one under construction. *)
Definition knownGroupJoin (self : Recipient) (gid : string) : M (GroupJoinResult * error) :=
  let* known := call JKnown (fun tr => join_Known tr gid) in
  match known with
  | Err e => io_ret (zeroJoinResult, Some e)
  | Ok false => io_ret (zeroJoinResult, None)
  | Ok true =>
      let* fetched := call (JFetch 0) (fun tr => join_Fetch tr gid 0) in
      match fetched with
      | Err e => io_ret (zeroJoinResult, if errIs e ErrNotAMember || errIs e ErrUnknownGroup then None else Some e)
      | Ok None => io_ret (zeroJoinResult, Some (Sent errInvalidGroupChangeResponse))
      | Ok (Some raw) =>
          if raw_GroupIdentifier raw != gid then io_ret (zeroJoinResult, Some (Sent errInvalidGroupChangeResponse))
          else
            let group := convertGroup raw self in
            if grp_Membership group == MembershipPending then
              io_ret (zeroJoinResult, Some (Sent ErrGroupInvitationRequiresAcceptance))
            else if grp_Membership group != MembershipMember then io_ret (zeroJoinResult, None)
            else
              let* e := join_context in
              match e with
              | Some e => io_ret (zeroJoinResult, Some e)
              | None =>
                  let* e := call JCache (fun tr => join_Cache tr group) in
                  io_ret (mkJoinResult (grp_ID group) (Title group) (Revision group) GroupJoinMember false false true, e)
              end
      end
  end.

Definition with_verified (title : string) (status : GroupJoinStatus) (r : GroupJoinResult) : GroupJoinResult :=
  mkJoinResult (gjr_ID r) title (gjr_Revision r) status (gjr_Changed r) (gjr_Accepted r) true.
Definition with_join_revision (revision : Z) (r : GroupJoinResult) : GroupJoinResult :=
  mkJoinResult (gjr_ID r) (gjr_Title r) revision (gjr_Status r) (gjr_Changed r) (gjr_Accepted r) (gjr_Verified r).

Definition verifyDirectGroupJoin (self : Recipient) (gid : string) (outcome : JoinOutcome) : M unit :=
  let* _ := joinContextError in
  let* _ := call JInvalidate (fun _ => tt) in
  let* r := call (JFetch (jo_Revision outcome)) (fun tr => join_Fetch tr gid (jo_Revision outcome)) in
  let* raw := io_of r in
  match raw with
  | None => io_err (Sent errInvalidGroupChangeResponse)
  | Some raw =>
      if (raw_GroupIdentifier raw != gid) || (raw_Revision raw <? jo_Revision outcome) then io_err (Sent errInvalidGroupChangeResponse)
      else
        let group := convertGroup raw self in
        if grp_Membership group != MembershipMember then io_err (Sent ErrNotAMember)
        else
          let* _ := joinContextError in
          let* _ := set_result (fun r => with_verified (Title group) GroupJoinMember (with_join_revision (Revision group) r)) in
          let* e := call JCache (fun tr => join_Cache tr group) in
          let* _ := fail_if e in
          let* _ := joinContextError in
          let* r := call JNotify (fun tr => join_Notify tr raw) in
          let* notification := io_of r in
          fail_if (groupJoinNotificationError notification)
  end.

Definition completeGroupJoin (self : Recipient) (gid : string) (preview : JoinPreview) (outcome : JoinOutcome) : M unit :=
  if negb (jo_Accepted outcome) || negb (jo_Verified outcome) || negb (jo_GroupContext outcome) || negb (jo_Change outcome)
  then io_err (Sent errInvalidGroupChangeResponse)
  else if jo_Requesting outcome then
    if pv_Access preview != AccessControl_ADMINISTRATOR then io_err (Sent errInvalidGroupChangeResponse)
    else set_result (with_verified (pv_Title preview) GroupJoinRequesting)
  else if pv_Access preview != AccessControl_ANY then io_err (Sent errInvalidGroupChangeResponse)
  else verifyDirectGroupJoin self gid outcome.

Definition check_preview (preview : JoinPreview) : error :=
  if pv_PendingAdminApproval preview then None
  else if (pv_Access preview != AccessControl_ANY) && (pv_Access preview != AccessControl_ADMINISTRATOR) then Some (Sent ErrGroupLinkInactive)
  else if pv_Revision preview =? MaxUint32 then Some (Sent ErrInvalidGroupInviteLink)
  else None.

Definition submitGroupJoin (self : Recipient) (gid key password : string) : M unit :=
  let* _ := joinContextError in
  let* r := call JPreview (fun tr => join_Preview tr key password) in
  let* preview := io_of (match r with Ok p => Ok p | Err e => Err (groupJoinForkError e) end) in
  let* _ := set_result (with_join_revision (pv_Revision preview)) in
  let* _ := fail_if (check_preview preview) in
  let* _ := joinContextError in
  let* e := call JPersist (fun tr => join_Persist tr gid key) in
  let* _ := fail_if e in
  if pv_PendingAdminApproval preview then set_result (with_verified (pv_Title preview) GroupJoinRequesting)
  else
    let* _ := joinContextError in
    let* r := call (JJoin preview) (fun tr => join_Join tr key password preview) in
    let outcome := r.1 in
    let* _ := set_result (fun res => mkJoinResult (gjr_ID res) (gjr_Title res)
                (if jo_Attempted outcome || jo_Accepted outcome then jo_Revision outcome else gjr_Revision res)
                (gjr_Status res) (jo_Accepted outcome) (jo_Accepted outcome) (gjr_Verified res)) in
    match r.2 with
    | Some e => io_err (groupJoinForkError e)
    | None => completeGroupJoin self gid preview outcome
    end.

Definition join_known (self : Recipient) (gid key password : string) : M unit :=
  let* existing := knownGroupJoin self gid in
  if gjr_Verified existing.1 then let* _ := set_result (fun _ => existing.1) in fail_if existing.2
  else let* _ := fail_if existing.2 in submitGroupJoin self gid key password.

Definition join_body (self : Recipient) (link : string) : M unit :=
  match groupinvite_Parse link with
  | None => io_err (Sent ErrInvalidGroupInviteLink)
  | Some invite =>
      let* _ := joinContextError in
      let* gid := io_of (join_derive (inv_MasterKey invite)) in
      let key := EncodeToString StdEncoding (inv_MasterKey invite) in
      let* _ := set_result (fun _ => mkJoinResult gid "" 0 GroupJoinNone false false false) in
      let* _ := call JInvalidate (fun _ => tt) in
      let* r := io_try (join_known self gid key (inv_Password invite)) in
      let* _ := call JInvalidate (fun _ => tt) in
      io_of r
  end.

Definition joinGroupWithOperations (self : Recipient) (link : string) : GroupJoinResult * error * list join_call :=
  let '(result, e, calls) := run_trace (join_body self link) zeroJoinResult in
  (result, match e with None => None | Some e => Some (GroupJoinOperationError e result) end, calls).
End joining.

(** ** Cancelling a request *)

Inductive cancel_call := CContext | CCheck | CResolve | CInvalidate | CPreview | CCancel (revision : Z).

(** The connection check may be absent. The outcome has the fields of an acceptance's. *)
Class CancelOps := {
  cancel_ctx_Err : list cancel_call -> error;
  cancel_Check : option (list cancel_call -> error);
  cancel_Resolve : list cancel_call -> string -> res (string * string);
  cancel_derive : string -> res string;
  cancel_Preview : list cancel_call -> string -> res JoinPreview;
  cancel_Cancel : list cancel_call -> string -> Z -> AcceptOutcome * error;
}.

Section cancelling.
Context {O : CancelOps}.
Notation M := (io (trace cancel_call GroupCancelRequestResult) err).

Definition groupCancelRequestBoundary : M unit :=
  let* e := call CContext cancel_ctx_Err in
  let* _ := fail_if (match e with Some e => Some (Wrap [e]) | None => None end) in
  match cancel_Check with
  | None => io_ret tt
  | Some check => let* e := call CCheck check in fail_if e
  end.

Definition cancel_preview (key : string) : M JoinPreview :=
  let* r := call CPreview (fun tr => cancel_Preview tr key) in
  io_of (match r with Ok p => Ok p | Err e => Err (groupCancelRequestForkError e) end).

Definition submit_cancellation (key : string) (preview : JoinPreview) : M unit :=
  let* r := call (CCancel (pv_Revision preview)) (fun tr => cancel_Cancel tr key (pv_Revision preview)) in
  let outcome := r.1 in
  let* _ := set_result (fun res => mkCancelResult (gcr_ID res) (gcr_Title res)
              (if out_Attempted outcome || out_Accepted outcome then out_Revision outcome else gcr_Revision res)
              (out_Accepted outcome) (out_Accepted outcome) (gcr_Verified res)) in
  match r.2 with
  | Some e => io_err (groupCancelRequestForkError e)
  | None =>
      if negb (out_Attempted outcome) || negb (out_Accepted outcome) || negb (out_Verified outcome)
         || negb (out_Revision outcome =? pv_Revision preview + 1) || negb (out_GroupContext outcome) || negb (out_Change outcome)
      then io_err (Sent errInvalidGroupChangeResponse)
      else
        let* _ := set_result (fun res => mkCancelResult (gcr_ID res) (gcr_Title res) (gcr_Revision res) (gcr_Changed res) (gcr_Accepted res) true) in
        groupCancelRequestBoundary
  end.

Definition cancel_resolved (key : string) : M unit :=
  let* _ := groupCancelRequestBoundary in
  let* preview := cancel_preview key in
  let* _ := set_result (fun res => mkCancelResult (gcr_ID res) (pv_Title preview) (pv_Revision preview) (gcr_Changed res) (gcr_Accepted res)
              (negb (pv_PendingAdminApproval preview))) in
  let* _ := groupCancelRequestBoundary in
  if negb (pv_PendingAdminApproval preview) then io_ret tt
  else if pv_Revision preview =? MaxUint32 then io_err (Sent errInvalidGroupChangeResponse)
  else submit_cancellation key preview.

Definition cancel_body (ref : string) : M unit :=
  let* _ := fail_if (CheckGroupCancelRequestReference ref) in
  let* _ := groupCancelRequestBoundary in
  let* r := call CResolve (fun tr => cancel_Resolve tr ref) in
  let* gk := io_of (gk ← r; check_key cancel_derive gk) in
  let* _ := set_result (fun _ => mkCancelResult gk.1 "" 0 false false false) in
  let* _ := call CInvalidate (fun _ => tt) in
  let* r := io_try (cancel_resolved gk.2) in
  let* _ := call CInvalidate (fun _ => tt) in
  io_of r.

Definition cancelGroupRequestWithOperations (ref : string) : GroupCancelRequestResult * error * list cancel_call :=
  let '(result, e, calls) := run_trace (cancel_body ref) zeroCancelResult in
  (result, match e with None => None | Some e => Some (GroupCancelRequestOperationError e result) end, calls).
End cancelling.

(** ** What joining guarantees *)

Section join_flow.
Context {U : UuidLib} {W : Protowire} {O : JoinOps}.
Notation W_ := (trace join_call GroupJoinResult).

Definition is_join (c : join_call) : bool := match c with JJoin _ => true | _ => false end.
Definition quiet_join (c : join_call) : bool := negb (is_join c).
Notation stable := (stable quiet_join).
Definition joins (calls : list join_call) : list join_call := filter (fun c => is_join c = true) calls.

(** A freshly fetched group lists us as a member, and the result is about it. *)
Definition member_evidence (self : Recipient) (calls : list join_call) (r : GroupJoinResult) : Prop :=
  exists pre gid revision raw, pre ++ [JFetch revision] `prefix_of` calls /\ join_Fetch pre gid revision = Ok (Some raw) /\
    raw_GroupIdentifier raw = gjr_ID r /\ grp_Membership (convertGroup raw self) = MembershipMember /\
    gjr_Title r = Title (convertGroup raw self) /\ gjr_Revision r = Revision (convertGroup raw self).

(** The preview says the request is pending, or the server accepted one. *)
Definition request_evidence (calls : list join_call) (r : GroupJoinResult) : Prop :=
  exists pre key password preview, pre ++ [JPreview] `prefix_of` calls /\ join_Preview pre key password = Ok preview /\
    gjr_Title r = pv_Title preview /\
    if pv_PendingAdminApproval preview then gjr_Revision r = pv_Revision preview
    else gjr_Accepted r = true /\ pv_Access preview = AccessControl_ADMINISTRATOR.

Definition evidence_of (self : Recipient) (calls : list join_call) (r : GroupJoinResult) : Prop :=
  match gjr_Status r with
  | GroupJoinMember => member_evidence self calls r
  | GroupJoinRequesting => request_evidence calls r
  | GroupJoinNone => False
  end.

(** A request is made only after the key is stored, for a link the preview says is open. *)
Definition prepared (calls : list join_call) : Prop := forall pre preview,
  pre ++ [JJoin preview] `prefix_of` calls ->
  JPreview ∈ pre /\ JPersist ∈ pre /\ check_preview preview = None /\ pv_PendingAdminApproval preview = false.

Definition consistent_join (self : Recipient) (w : W_) : Prop :=
  (length (joins (tr_calls w)) <= 1)%nat /\ prepared (tr_calls w)
  /\ gjr_Changed (tr_result w) = gjr_Accepted (tr_result w)
  /\ (gjr_Accepted (tr_result w) = true -> joins (tr_calls w) <> [])
  /\ (gjr_Verified (tr_result w) = true -> evidence_of self (tr_calls w) (tr_result w)).

Definition untouched_join (gid : option string) (w : W_) : Prop :=
  joins (tr_calls w) = [] /\ gjr_Changed (tr_result w) = false /\ gjr_Accepted (tr_result w) = false
  /\ gjr_Verified (tr_result w) = false /\ match gid with Some gid => gjr_ID (tr_result w) = gid | None => True end.

Lemma joins_app calls c : quiet_join c = true -> joins (calls ++ [c]) = joins calls.
Proof. intros H%negb_true_iff. unfold joins. rewrite filter_app, filter_cons, decide_False by congruence. apply app_nil_r. Qed.

Lemma joins_nil_prepared calls : joins calls = [] -> prepared calls.
Proof.
  intros H pre preview [rest ->]. exfalso. unfold joins in H. rewrite !filter_app, filter_cons, decide_True in H by done.
  by destruct (filter _ pre).
Qed.

Lemma prefix_snoc {A} (l calls : list A) (x c : A) : l ++ [x] `prefix_of` calls ++ [c] -> l ++ [x] `prefix_of` calls \/ l = calls /\ x = c.
Proof.
  intros [rest E]. destruct rest as [|y rest _] using rev_ind.
  - rewrite app_nil_r in E. apply app_inj_tail in E as [-> ->]. by right.
  - rewrite app_assoc in E. apply app_inj_tail in E as [-> _]. left. by exists rest.
Qed.

Lemma prepared_app calls c : quiet_join c = true -> prepared calls -> prepared (calls ++ [c]).
Proof.
  intros Hq Hp pre preview H. apply prefix_snoc in H as [H|[_ <-]]; [by apply Hp|done].
Qed.

Lemma evidence_of_app self calls r more : evidence_of self calls r -> evidence_of self (calls ++ more) r.
Proof.
  unfold evidence_of. destruct (gjr_Status r); [done| |].
  - intros (pre & gid & rev & raw & H & ?). exists pre, gid, rev, raw. split; [by apply prefix_app_r|done].
  - intros (pre & key & password & preview & H & ?). exists pre, key, password, preview. split; [by apply prefix_app_r|done].
Qed.

Lemma untouched_consistent_join self gid w : untouched_join gid w -> consistent_join self w.
Proof.
  intros (Hj & Hc & Ha & Hv & _). unfold consistent_join. rewrite Hj, Hc, Ha, Hv.
  split_and!; [cbn; lia|by apply joins_nil_prepared|done|done|done].
Qed.

Lemma stable_consistent_join self : stable (consistent_join self).
Proof.
  intros w c Hq (Hl & Hp & Hc & Ha & Hv). unfold consistent_join. cbn. rewrite joins_app by done.
  split_and!; [done|by apply prepared_app|done..|]. intros E. by apply evidence_of_app, Hv.
Qed.

Lemma stable_untouched_join gid : stable (untouched_join gid).
Proof. intros w c Hq (Hj & ?). unfold untouched_join. cbn. by rewrite joins_app. Qed.

Definition called (c : join_call) (w : W_) : Prop := c ∈ tr_calls w.
Lemma stable_called c : stable (called c).
Proof. intros w c' _ H. unfold called. cbn. apply elem_of_app. by left. Qed.

(** An answer the trace can be asked about again. *)
Definition previewed (key password : string) (preview : JoinPreview) (w : W_) : Prop :=
  exists pre, pre ++ [JPreview] `prefix_of` tr_calls w /\ join_Preview pre key password = Ok preview.
Lemma stable_previewed key password preview : stable (previewed key password preview).
Proof. intros w c _ (pre & Hp & ?). exists pre. split; [by apply prefix_app_r|done]. Qed.

Definition fetched_join (gid : string) (raw : RawGroup) (w : W_) : Prop :=
  exists pre revision, pre ++ [JFetch revision] `prefix_of` tr_calls w /\ join_Fetch pre gid revision = Ok (Some raw).
Lemma stable_fetched_join gid raw : stable (fetched_join gid raw).
Proof. intros w c _ (pre & rev & Hp & ?). exists pre, rev. split; [by apply prefix_app_r|done]. Qed.

Hint Resolve stable_consistent_join stable_untouched_join stable_called stable_previewed stable_fetched_join stable_and : core.

Lemma triple_join_context P Q : stable P -> (forall w, P w -> Q w) -> triple P joinContextError (fun _ => P) Q.
Proof.
  intros Hs H. unfold joinContextError, join_context. apply (triple_bind _ _ _ (fun _ => P)); [|intros e; by apply triple_fail_if].
  eapply triple_bind; [by apply (triple_call quiet_join)|]. intros e. by apply triple_ret.
Qed.

(** What a fetch answers is remembered by the trace. *)
Lemma triple_join_fetch P Q gid revision : stable P ->
  triple P (call (JFetch revision) (fun tr => join_Fetch tr gid revision))
    (fun r w => P w /\ match r with Ok (Some raw) => fetched_join gid raw w | _ => True end) Q.
Proof.
  intros Hs w Hw. cbn. split; [by apply Hs|]. destruct (join_Fetch (tr_calls w) gid revision) as [[raw|]|] eqn:E; [|done..].
  exists (tr_calls w), revision. by split.
Qed.

Lemma member_of_fetched self gid raw w r : fetched_join gid raw w -> raw_GroupIdentifier raw = gid -> gjr_ID r = gid ->
  grp_Membership (convertGroup raw self) = MembershipMember -> gjr_Title r = Title (convertGroup raw self) ->
  gjr_Revision r = Revision (convertGroup raw self) -> member_evidence self (tr_calls w) r.
Proof. intros (pre & rev & Hp & Hf) Hid Hr Hm Ht Hv. exists pre, gid, rev, raw. split_and!; try done. congruence. Qed.

Lemma grp_ID_convert raw self : grp_ID (convertGroup raw self) = raw_GroupIdentifier raw.
Proof. unfold convertGroup. destruct (convertGroupAccess _) as [a b]. reflexivity. Qed.

Definition known_post (self : Recipient) (gid : string) (x : GroupJoinResult * error) (w : W_) : Prop :=
  untouched_join (Some gid) w /\ (gjr_Verified x.1 = true ->
    gjr_ID x.1 = gid /\ gjr_Status x.1 = GroupJoinMember /\ gjr_Changed x.1 = false /\ gjr_Accepted x.1 = false /\ member_evidence self (tr_calls w) x.1).

Lemma known_triple self gid Q :
  triple (untouched_join (Some gid)) (knownGroupJoin self gid) (known_post self gid) Q.
Proof.
  assert (Hzero : forall e w, untouched_join (Some gid) w -> known_post self gid (zeroJoinResult, e) w) by (by intros e w Hw).
  unfold knownGroupJoin. eapply triple_bind; [by apply (triple_call quiet_join)|]. intros [[]|e]; [|by apply triple_ret; intros; apply Hzero..].
  eapply triple_bind; [by apply triple_join_fetch|]. intros [[raw|]|e]; [|apply triple_ret; intros w [? _]; by apply Hzero..].
  destruct (bool_decide (raw_GroupIdentifier raw = gid)) eqn:Eid; cbn [negb]; [|apply triple_ret; intros w [? _]; by apply Hzero].
  destruct (bool_decide (grp_Membership (convertGroup raw self) = MembershipPending)); [apply triple_ret; intros w [? _]; by apply Hzero|].
  destruct (bool_decide (grp_Membership (convertGroup raw self) = MembershipMember)) eqn:Em; cbn [negb]; [|apply triple_ret; intros w [? _]; by apply Hzero].
  apply bool_decide_eq_true in Eid, Em. set (P := fun w => untouched_join (Some gid) w /\ fetched_join gid raw w).
  assert (Hs : stable P) by (apply stable_and; auto).
  apply (triple_bind _ _ _ (fun _ => P)).
  { unfold join_context. eapply triple_bind; [by apply (triple_call quiet_join)|]. intros e. by apply triple_ret. }
  intros [e|]; [apply triple_ret; intros w [? _]; by apply Hzero|].
  eapply triple_bind; [by apply (triple_call quiet_join)|]. intros e. apply triple_ret. intros w [Hu Hf]. split; [done|]. intros _. cbn.
  rewrite grp_ID_convert. split_and!; [done..|]. eapply member_of_fetched; try done.
Qed.

Definition done_join (self : Recipient) (w : W_) : Prop := consistent_join self w /\ gjr_Verified (tr_result w) = true.
Lemma stable_done_join self : stable (done_join self).
Proof. apply stable_and; [auto|]. apply (stable_result quiet_join (fun r => gjr_Verified r = true)). Qed.
Definition joining (self : Recipient) (gid : string) (w : W_) : Prop := consistent_join self w /\ gjr_ID (tr_result w) = gid.
Lemma stable_joining self gid : stable (joining self gid).
Proof. apply stable_and; [auto|]. apply (stable_result quiet_join (fun r => gjr_ID r = gid)). Qed.
Hint Resolve stable_done_join stable_joining : core.

Lemma direct_triple self gid outcome :
  triple (joining self gid) (verifyDirectGroupJoin self gid outcome) (fun _ => done_join self) (consistent_join self).
Proof.
  assert (Hj : forall w, joining self gid w -> consistent_join self w) by (by intros w []).
  assert (Hd : forall w, done_join self w -> consistent_join self w) by (by intros w []).
  unfold verifyDirectGroupJoin. apply (triple_bind _ _ _ (fun _ => joining self gid)); [apply triple_join_context; auto|]. intros _.
  apply (triple_bind _ _ _ (fun _ => joining self gid)); [apply (triple_call quiet_join); auto|]. intros _.
  eapply triple_bind; [apply triple_join_fetch; auto|]. intros r.
  apply (triple_bind _ _ _ (fun o w => joining self gid w /\ match o with Some raw => fetched_join gid raw w | None => True end)).
  { apply triple_of; [intros w o [Hw Hf] ->; split; [done|by destruct o]|by intros w [? _]; auto]. }
  intros [raw|]; [|apply triple_err; by intros w [? _]; auto].
  destruct (bool_decide (raw_GroupIdentifier raw = gid)) eqn:Eid; cbn [negb orb]; [|apply triple_err; intros w [? _]; auto].
  destruct (raw_Revision raw <? _); [apply triple_err; intros w [? _]; auto|].
  destruct (bool_decide (grp_Membership (convertGroup raw self) = MembershipMember)) eqn:Em; cbn [negb]; [|apply triple_err; intros w [? _]; auto].
  apply bool_decide_eq_true in Eid, Em.
  apply (triple_bind _ _ _ (fun _ w => joining self gid w /\ fetched_join gid raw w)).
  { apply triple_join_context; [apply stable_and; auto|intros w [? _]; auto]. }
  intros _.
  apply (triple_bind _ _ _ (fun _ => done_join self)).
  { intros w [[(Hl & Hp & Hc & Ha & Hv) Hid] Hf]. cbn. split; [|done]. split_and!; [done..|]. intros _. unfold evidence_of. cbn.
    by eapply member_of_fetched. }
  intros _. eapply triple_bind; [apply (triple_call quiet_join); auto|]. intros e.
  apply (triple_bind _ _ _ (fun _ => done_join self)); [by apply triple_fail_if|]. intros _.
  apply (triple_bind _ _ _ (fun _ => done_join self)); [apply triple_join_context; auto|]. intros _.
  eapply triple_bind; [apply (triple_call quiet_join); auto|]. intros r'.
  apply (triple_bind _ _ _ (fun _ => done_join self)); [by apply triple_of|]. intros n. by apply triple_fail_if.
Qed.

(** A submitted request, accepted as the outcome says. *)
Definition submitted (self : Recipient) (gid key password : string) (preview : JoinPreview) (accepted : bool) (w : W_) : Prop :=
  joining self gid w /\ previewed key password preview w /\ gjr_Accepted (tr_result w) = accepted.

Lemma complete_join_triple self gid key password preview outcome : pv_PendingAdminApproval preview = false ->
  triple (submitted self gid key password preview (jo_Accepted outcome)) (completeGroupJoin self gid preview outcome)
    (fun _ => done_join self) (consistent_join self).
Proof.
  intros Hpend. assert (Hc : forall w, submitted self gid key password preview (jo_Accepted outcome) w -> consistent_join self w) by (by intros w [[] _]).
  unfold completeGroupJoin. destruct (jo_Accepted outcome) eqn:Ea; cbn [negb orb]; [|by apply triple_err].
  destruct (_ || _ || _); [by apply triple_err|]. destruct (jo_Requesting outcome).
  - destruct (bool_decide (pv_Access preview = AccessControl_ADMINISTRATOR)) eqn:Eacc; cbn [negb]; [|by apply triple_err].
    apply bool_decide_eq_true in Eacc. intros w [[(Hl & Hp & Hch & Hacc & Hv) Hid] [(pre & Hpre & Hpv) Ha]]. cbn. split; [|done].
    split_and!; [done..|]. intros _. unfold evidence_of. cbn. exists pre, key, password, preview. rewrite Hpend. by split_and!.
  - destruct (bool_decide (pv_Access preview = AccessControl_ANY)); cbn [negb]; [|by apply triple_err].
    eapply triple_weaken; [apply direct_triple|by intros w [? _]|done|done].
Qed.

Definition prepared_to (gid key password : string) (preview : JoinPreview) (w : W_) : Prop :=
  untouched_join (Some gid) w /\ previewed key password preview w /\ called JPreview w /\ gjr_Revision (tr_result w) = pv_Revision preview.
Lemma stable_prepared_to gid key password preview : stable (prepared_to gid key password preview).
Proof.
  do 3 (apply stable_and; [auto|]). apply (stable_result quiet_join (fun r => gjr_Revision r = pv_Revision preview)).
Qed.
Hint Resolve stable_prepared_to : core.

(** Submitting the request itself. *)
Lemma request_triple self gid key password preview :
  check_preview preview = None -> pv_PendingAdminApproval preview = false ->
  triple (fun w => prepared_to gid key password preview w /\ called JPersist w)
    (let* r := call (JJoin preview) (fun tr => join_Join tr key password preview) in
     let outcome := r.1 in
     let* _ := set_result (fun res => mkJoinResult (gjr_ID res) (gjr_Title res)
                 (if jo_Attempted outcome || jo_Accepted outcome then jo_Revision outcome else gjr_Revision res)
                 (gjr_Status res) (jo_Accepted outcome) (jo_Accepted outcome) (gjr_Verified res)) in
     match r.2 with
     | Some e => io_err (groupJoinForkError e)
     | None => completeGroupJoin self gid preview outcome
     end)%go (fun _ => done_join self) (consistent_join self).
Proof.
  intros Hcheck Hpend w [((Hj & Hc & Ha & Hv & Hid) & Hpv & Hpre & Hrev) Hper].
  unfold io_bind at 1 2, call, set_result. cbn [tr_calls tr_result fst snd]. set (outcome := (join_Join _ _ _ _).1). set (w' := mkTrace _ _).
  assert (Hcalls : joins (tr_calls w ++ [JJoin preview]) = [JJoin preview]).
  { unfold joins in *. by rewrite filter_app, Hj. }
  assert (Hw : submitted self gid key password preview (jo_Accepted outcome) w').
  { split; [split|split]; [|done| |done].
    - unfold consistent_join. cbn [w' tr_calls tr_result]. rewrite Hcalls. split_and!; [done| |done|done|cbn; congruence].
      intros pre p [H|[-> [= <-]]]%prefix_snoc; [|by split_and!].
      exfalso. by apply joins_nil_prepared in Hj as Hp; clear Hp; destruct H as [rest E]; rewrite E in Hj; unfold joins in Hj;
        rewrite !filter_app, filter_cons, decide_True in Hj by done; destruct (filter _ pre).
    - destruct Hpv as (pre & Hp & ?). exists pre. split; [by apply prefix_app_r|done]. }
  destruct ((join_Join _ _ _ _).2); [by destruct Hw as [[]]|]. by apply (complete_join_triple self gid key password preview outcome Hpend w').
Qed.

Lemma submit_join_triple self gid key password :
  triple (untouched_join (Some gid)) (submitGroupJoin self gid key password) (fun _ => done_join self) (consistent_join self).
Proof.
  assert (Hu : forall w, untouched_join (Some gid) w -> consistent_join self w) by (intros w; apply untouched_consistent_join).
  assert (Hp : forall preview w, prepared_to gid key password preview w -> consistent_join self w) by (intros preview w [? _]; auto).
  unfold submitGroupJoin. apply (triple_bind _ _ _ (fun _ => untouched_join (Some gid))); [apply triple_join_context; auto|]. intros _.
  apply (triple_bind _ _ _ (fun r w => untouched_join (Some gid) w /\ called JPreview w /\
    match r with Ok preview => previewed key password preview w | Err _ => True end)).
  { intros w Hw. cbn. split_and!; [by apply stable_untouched_join|unfold called; cbn; apply elem_of_app; right; by left|].
    destruct (join_Preview (tr_calls w) key password) eqn:E; [|done]. exists (tr_calls w). by split. }
  intros r. apply (triple_bind _ _ _ (fun preview w => untouched_join (Some gid) w /\ called JPreview w /\ previewed key password preview w)).
  { apply triple_of; [|by intros w [? _]; auto]. intros w preview (H1 & H2 & H3) E. destruct r; [|done]. by injection E as ->. }
  intros preview. apply (triple_bind _ _ _ (fun _ => prepared_to gid key password preview)); [by intros w (? & ? & ?)|]. intros _.
  apply (triple_bind _ _ _ (fun _ w => prepared_to gid key password preview w /\ check_preview preview = None)); [apply triple_check; eauto|]. intros _. apply (triple_pure (check_preview preview = None)); [by intros w [_ ?]|]. intros Hcheck.
  apply (triple_bind _ _ _ (fun _ => prepared_to gid key password preview)).
  { eapply triple_weaken; [apply (triple_join_context (prepared_to gid key password preview)); [auto|exact (Hp preview)]|by intros w [? _]|done|done]. }
  intros _. apply (triple_bind _ _ _ (fun _ w => prepared_to gid key password preview w /\ called JPersist w)).
  { intros w Hw. cbn. split; [by apply stable_prepared_to|]. unfold called. cbn. apply elem_of_app. right. by left. }
  intros e. apply (triple_bind _ _ _ (fun _ w => prepared_to gid key password preview w /\ called JPersist w)).
  { apply triple_fail_if. intros w [? _]. eauto. }
  intros _. destruct (pv_PendingAdminApproval preview) eqn:Hpend.
  - intros w [((Hj & Hc & Ha & Hv & Hid) & (pre & Hpre & Hpv) & _ & Hrev) _]. cbn. split; [|done]. unfold consistent_join. cbn [tr_calls tr_result gjr_Changed gjr_Accepted gjr_Verified with_verified]. rewrite Hj, Hc, Ha.
    split_and!; [cbn; lia|by apply joins_nil_prepared|done..|]. intros _. unfold evidence_of. cbn. exists pre, key, password, preview.
    rewrite Hpend. by split_and!.
  - apply (triple_bind _ _ _ (fun _ w => prepared_to gid key password preview w /\ called JPersist w)); [|intros _; by apply request_triple].
    apply triple_join_context; [apply stable_and; auto|intros w [? _]; eauto].
Qed.

Lemma join_known_triple self gid key password :
  triple (untouched_join (Some gid)) (join_known self gid key password) (fun _ => done_join self) (consistent_join self).
Proof.
  assert (Hu : forall w, untouched_join (Some gid) w -> consistent_join self w) by (intros w; apply untouched_consistent_join).
  unfold join_known. eapply triple_bind; [apply known_triple|]. intros [existing e]. cbn [fst snd].
  destruct (gjr_Verified existing) eqn:Ev.
  - apply (triple_bind _ _ _ (fun _ => done_join self)).
    + intros w [(Hj & _) Hx]. cbn [fst] in Hx. destruct (Hx Ev) as (Hid & Hst & Hch & Hac & Hev). cbn. split; [|done]. unfold consistent_join. cbn [tr_calls tr_result gjr_Changed gjr_Accepted gjr_Verified with_verified]. rewrite Hj, Hch, Hac.
      split_and!; [cbn; lia|by apply joins_nil_prepared|done..|]. intros _. unfold evidence_of. by rewrite Hst.
    + intros _. apply triple_fail_if. by intros w [].
  - apply (triple_bind _ _ _ (fun _ => untouched_join (Some gid))).
    + eapply triple_weaken; [apply (triple_fail_if (untouched_join (Some gid))); exact Hu|by intros w [? _]|done|done].
    + intros _. apply submit_join_triple.
Qed.

Lemma join_body_triple self link :
  triple (untouched_join None) (join_body self link) (fun _ => done_join self) (consistent_join self).
Proof.
  assert (Hu : forall w, untouched_join None w -> consistent_join self w) by (intros w; apply untouched_consistent_join).
  assert (Hd : forall w, done_join self w -> consistent_join self w) by (by intros w []).
  unfold join_body. destruct (groupinvite_Parse link) as [invite|]; [|by apply triple_err].
  apply (triple_bind _ _ _ (fun _ => untouched_join None)); [apply triple_join_context; auto|]. intros _.
  apply (triple_bind _ _ _ (fun _ => untouched_join None)); [by apply triple_of|]. intros gid.
  apply (triple_bind _ _ _ (fun _ => untouched_join (Some gid))); [by intros w (? & _)|]. intros _.
  apply (triple_bind _ _ _ (fun _ => untouched_join (Some gid))); [by apply (triple_call quiet_join)|]. intros _.
  eapply triple_bind; [apply triple_try, join_known_triple|]. intros [u|e].
  - apply (triple_bind _ _ _ (fun _ => done_join self)); [by apply (triple_call quiet_join)|]. intros _. by apply triple_of.
  - apply (triple_bind _ _ _ (fun _ => consistent_join self)); [by apply (triple_call quiet_join)|]. intros _. by apply triple_of.
Qed.

End join_flow.

(** ** What cancelling guarantees *)

Section cancel_flow.
Context {O : CancelOps}.
Notation W := (trace cancel_call GroupCancelRequestResult).

Definition is_cancel (c : cancel_call) : bool := match c with CCancel _ => true | _ => false end.
Definition quiet_cancel (c : cancel_call) : bool := negb (is_cancel c).
Notation stable := (stable quiet_cancel).
Definition cancels (calls : list cancel_call) : list cancel_call := filter (fun c => is_cancel c = true) calls.

Definition cancel_previewed (key : string) (preview : JoinPreview) (calls : list cancel_call) : Prop :=
  exists pre, pre ++ [CPreview] `prefix_of` calls /\ cancel_Preview pre key = Ok preview.

(** A fresh preview shows no request, or shows the request whose deletion the server accepted and
    signed at the next revision. *)
Definition cancelled (calls : list cancel_call) (r : GroupCancelRequestResult) : Prop :=
  exists key preview, cancel_previewed key preview calls /\ gcr_Title r = pv_Title preview /\
    if pv_PendingAdminApproval preview then gcr_Accepted r = true /\ gcr_Revision r = pv_Revision preview + 1 /\ pv_Revision preview <> MaxUint32
    else cancels calls = [] /\ gcr_Accepted r = false /\ gcr_Revision r = pv_Revision preview.

(** Only a request that a preview shows is cancelled, at the revision of the preview. *)
Definition only_pending (calls : list cancel_call) : Prop := forall pre revision, pre ++ [CCancel revision] `prefix_of` calls ->
  exists key preview, cancel_previewed key preview pre /\ pv_PendingAdminApproval preview = true /\ pv_Revision preview = revision.

Definition consistent_cancel (w : W) : Prop :=
  (length (cancels (tr_calls w)) <= 1)%nat /\ only_pending (tr_calls w)
  /\ gcr_Changed (tr_result w) = gcr_Accepted (tr_result w)
  /\ (gcr_Accepted (tr_result w) = true -> cancels (tr_calls w) <> [])
  /\ (gcr_Verified (tr_result w) = true -> cancelled (tr_calls w) (tr_result w)).

Definition fresh_cancel (w : W) : Prop :=
  cancels (tr_calls w) = [] /\ gcr_Changed (tr_result w) = false /\ gcr_Accepted (tr_result w) = false /\ gcr_Verified (tr_result w) = false.

Lemma cancels_app calls c : quiet_cancel c = true -> cancels (calls ++ [c]) = cancels calls.
Proof. intros H%negb_true_iff. unfold cancels. rewrite filter_app, filter_cons, decide_False by congruence. apply app_nil_r. Qed.

Lemma cancels_nil_only_pending calls : cancels calls = [] -> only_pending calls.
Proof.
  intros H pre revision [rest ->]. exfalso. unfold cancels in H. rewrite !filter_app, filter_cons, decide_True in H by done.
  by destruct (filter _ pre).
Qed.

Lemma cancelled_app calls c r : quiet_cancel c = true -> cancelled calls r -> cancelled (calls ++ [c]) r.
Proof.
  intros Hq (key & preview & (pre & Hp & Hpv) & H). exists key, preview. split; [exists pre; split; [by apply prefix_app_r|done]|].
  by rewrite cancels_app.
Qed.

Lemma stable_consistent_cancel : stable consistent_cancel.
Proof.
  intros w c Hq (Hl & Hp & Hc & Ha & Hv). unfold consistent_cancel. cbn [tr_calls tr_result]. rewrite cancels_app by done. split_and!; try done.
  - intros pre revision H. apply prefix_snoc in H as [H|[_ <-]]; [by apply Hp|done].
  - intros E. by apply cancelled_app, Hv.
Qed.
Lemma stable_fresh_cancel : stable fresh_cancel.
Proof. intros w c Hq (Hj & ?). unfold fresh_cancel. cbn [tr_calls tr_result]. by rewrite cancels_app. Qed.
Lemma fresh_consistent_cancel w : fresh_cancel w -> consistent_cancel w.
Proof.
  intros (Hj & Hc & Ha & Hv). unfold consistent_cancel. rewrite Hj, Hc, Ha, Hv. split_and!; [cbn; lia|by apply cancels_nil_only_pending|done..].
Qed.
Hint Resolve stable_consistent_cancel stable_fresh_cancel fresh_consistent_cancel : core.

Definition done_cancel (w : W) : Prop := consistent_cancel w /\ gcr_Verified (tr_result w) = true.
Lemma stable_done_cancel : stable done_cancel.
Proof. apply stable_and; [auto|]. apply (stable_result quiet_cancel (fun r => gcr_Verified r = true)). Qed.
Hint Resolve stable_done_cancel : core.

Lemma triple_boundary (P Q : W -> Prop) : stable P -> (forall w, P w -> Q w) -> triple P groupCancelRequestBoundary (fun _ => P) Q.
Proof.
  intros Hs H. unfold groupCancelRequestBoundary. eapply triple_bind; [by apply (triple_call quiet_cancel)|]. intros e.
  apply (triple_bind _ _ _ (fun _ => P)); [by apply triple_fail_if|]. intros _. destruct cancel_Check; [|by apply triple_ret].
  eapply triple_bind; [by apply (triple_call quiet_cancel)|]. intros e'. by apply triple_fail_if.
Qed.

(** The result after the preview. *)
Definition viewed (key : string) (preview : JoinPreview) (w : W) : Prop :=
  cancels (tr_calls w) = [] /\ cancel_previewed key preview (tr_calls w) /\ gcr_Changed (tr_result w) = false /\ gcr_Accepted (tr_result w) = false
  /\ gcr_Title (tr_result w) = pv_Title preview /\ gcr_Revision (tr_result w) = pv_Revision preview
  /\ gcr_Verified (tr_result w) = negb (pv_PendingAdminApproval preview).

Lemma stable_viewed key preview : stable (viewed key preview).
Proof.
  intros w c Hq (H1 & (pre & Hp & Hpv) & H). unfold viewed. cbn [tr_calls tr_result]. rewrite cancels_app by done. split; [done|].
  split; [exists pre; split; [by apply prefix_app_r|done]|done].
Qed.
Hint Resolve stable_viewed : core.

Lemma viewed_consistent key preview w : viewed key preview w -> consistent_cancel w.
Proof.
  intros (H1 & H2 & Hc & Ha & Ht & Hr & Hv). unfold consistent_cancel. rewrite H1, Hc, Ha, Hv.
  split_and!; [cbn; lia|by apply cancels_nil_only_pending|done|done|]. intros E. exists key, preview. apply negb_true_iff in E. rewrite E. by split_and!.
Qed.

Lemma submit_cancel_triple key preview : pv_PendingAdminApproval preview = true -> pv_Revision preview <> MaxUint32 ->
  triple (viewed key preview) (submit_cancellation key preview) (fun _ => done_cancel) consistent_cancel.
Proof.
  intros Hpend Hmax w (Hj & Hpv & Hc & Ha & Ht & Hr & Hv). rewrite Hpend in Hv. cbn [negb] in Hv.
  unfold submit_cancellation, io_bind at 1 2, call, set_result. cbn [tr_calls tr_result fst snd].
  set (outcome := (cancel_Cancel _ _ _).1). set (calls := tr_calls w ++ [CCancel (pv_Revision preview)]).
  assert (Hcalls : cancels calls = [CCancel (pv_Revision preview)]) by (unfold calls, cancels in *; by rewrite filter_app, Hj).
  assert (Hpre : cancel_previewed key preview calls).
  { destruct Hpv as (pre & Hp & ?). exists pre. split; [by apply prefix_app_r|done]. }
  assert (Hpending : only_pending calls).
  { intros pre revision [H|[-> [= ->]]]%prefix_snoc; [by eapply cancels_nil_only_pending|]. exists key, preview. by split_and!. }
  set (w1 := mkTrace calls _).
  assert (Hw : consistent_cancel w1).
  { unfold consistent_cancel. cbn [w1 tr_calls tr_result gcr_Changed gcr_Accepted gcr_Verified]. rewrite Hcalls. split_and!; [done|done|done|done|congruence]. }
  destruct ((cancel_Cancel _ _ _).2); [done|].
  destruct (negb (out_Attempted outcome)) eqn:E1; [done|]. destruct (negb (out_Accepted outcome)) eqn:E2; [done|].
  destruct (negb (out_Verified outcome)) eqn:E3; [done|]. destruct (negb (out_Revision outcome =? _)) eqn:E4; [done|].
  destruct (negb (out_GroupContext outcome)); [done|]. destruct (negb (out_Change outcome)); [done|]. cbn [orb].
  apply negb_false_iff in E1, E2, E4. apply Z.eqb_eq in E4. unfold io_bind. cbn [tr_calls tr_result w1].
  apply (triple_boundary done_cancel); [auto|by intros ? []|]. split; [|done]. destruct Hw as (Hl & Hp & Hch & Hac & _).
  split_and!; [done..|]. intros _. exists key, preview. rewrite Hpend. cbn. rewrite E1, E2. cbn. by split_and!.
Qed.

Lemma resolved_cancel_triple key : triple fresh_cancel (cancel_resolved key) (fun _ => done_cancel) consistent_cancel.
Proof.
  assert (Hvc : forall preview w, viewed key preview w -> consistent_cancel w) by (intros preview w; apply viewed_consistent).
  unfold cancel_resolved. apply (triple_bind _ _ _ (fun _ => fresh_cancel)); [apply triple_boundary; auto|]. intros _.
  apply (triple_bind _ _ _ (fun preview w => fresh_cancel w /\ cancel_previewed key preview (tr_calls w))).
  { intros w Hw. unfold cancel_preview, io_bind, call, io_of. cbn [tr_calls tr_result].
    destruct (cancel_Preview (tr_calls w) key) as [preview|e] eqn:E; cbn; [|by apply stable_consistent_cancel, fresh_consistent_cancel].
    split; [by apply stable_fresh_cancel|]. exists (tr_calls w). by split. }
  intros preview. apply (triple_bind _ _ _ (fun _ => viewed key preview)); [by intros w [(? & ? & ? & ?) ?]|]. intros _.
  apply (triple_bind _ _ _ (fun _ => viewed key preview)); [apply triple_boundary; eauto|]. intros _.
  destruct (pv_PendingAdminApproval preview) eqn:Hpend; cbn [negb].
  - destruct (pv_Revision preview =? MaxUint32) eqn:Emax; [apply triple_err; eauto|]. apply submit_cancel_triple; [done|by apply Z.eqb_neq].
  - apply triple_ret. intros w Hw. split; [eauto|]. destruct Hw as (_ & _ & _ & _ & _ & _ & ->). by rewrite Hpend.
Qed.

Lemma cancel_body_triple ref : triple fresh_cancel (cancel_body ref) (fun _ => done_cancel) consistent_cancel.
Proof.
  unfold cancel_body. apply (triple_bind _ _ _ (fun _ => fresh_cancel)); [apply triple_fail_if; auto|]. intros _.
  apply (triple_bind _ _ _ (fun _ => fresh_cancel)); [apply triple_boundary; auto|]. intros _.
  apply (triple_bind _ _ _ (fun _ => fresh_cancel)); [apply (triple_call quiet_cancel); auto|]. intros r.
  apply (triple_bind _ _ _ (fun _ => fresh_cancel)); [apply triple_of; auto|]. intros gk.
  apply (triple_bind _ _ _ (fun _ => fresh_cancel)); [by intros w (? & _)|]. intros _.
  apply (triple_bind _ _ _ (fun _ => fresh_cancel)); [apply (triple_call quiet_cancel); auto|]. intros _.
  eapply triple_bind; [apply triple_try, resolved_cancel_triple|]. intros [u|e].
  - apply (triple_bind _ _ _ (fun _ => done_cancel)); [apply (triple_call quiet_cancel); auto|]. intros _. apply triple_of; [done|by intros w []].
  - apply (triple_bind _ _ _ (fun _ => consistent_cancel)); [apply (triple_call quiet_cancel); auto|]. intros _. by apply triple_of.
Qed.

(** Cancelling a join request submits at most one deletion, only for a request that a fresh preview
    shows and at the preview's revision. The result says accepted and changed together and only
    after a submission; verified means that the preview shows no request and nothing was
    submitted, or that the deletion was accepted at exactly the next revision; and a run without
    an error is verified. *)
Theorem cancelGroupRequestWithOperations_spec ref :
  let '(result, e, calls) := cancelGroupRequestWithOperations ref in
  (length (cancels calls) <= 1)%nat /\ only_pending calls
  /\ gcr_Changed result = gcr_Accepted result
  /\ (gcr_Accepted result = true -> cancels calls <> [])
  /\ (gcr_Verified result = true -> cancelled calls result)
  /\ (e = None -> gcr_Verified result = true).
Proof.
  unfold cancelGroupRequestWithOperations, run_trace.
  pose proof (cancel_body_triple ref (mkTrace [] zeroCancelResult)) as H.
  destruct (cancel_body ref _) as [r w].
  assert (Hu : fresh_cancel (mkTrace [] zeroCancelResult)) by done.
  destruct r as [u|e]; specialize (H Hu).
  - destruct H as [(? & ? & ? & ? & ?) ?]. done.
  - destruct H as (? & ? & ? & ? & ?). done.
Qed.
End cancel_flow.
