(* ===== verification/PollReduce.v ===== *)
(** * Poll state from observations (poll_reduce.go, poll_projection.go, poll_state.go)

    [ReducePoll] folds the received events into the state of one poll. The [votes] map is a
    [gmap]; a tally index out of range would panic in Go, so [ReducePoll] returns an [option] and
    the theorems show that it is never [None]. *)

From S2P Require Import Prelude Errors Uuid Utf8 Types SendCheck.

Record PollReference := mkPollRef { pref_Chat : Chat; pref_Author : Recipient; pref_Timestamp : Z }.

Record PollStateVote := mkStateVote {
  psv_Voter : Recipient; psv_OptionIndexes : list Z; psv_VoteCount : Z; psv_Timestamp : Z }.

(** The fields of [PollState] the reducer sets; [Source], [Observations] and the scan window are
    set by its callers. A nil [Tally] is [None]. *)
Record PollState := mkPollState {
  ps_Chat : Chat; ps_Author : Recipient; ps_Timestamp : Z; ps_Creation : option Poll;
  ps_Votes : list PollStateVote; ps_Tally : option (list Z); ps_ClosureObserved : bool; ps_ClosedAt : Z;
  ps_Deleted : bool; ps_Completeness : string; ps_IgnoredInvalid : Z; ps_Conflicts : Z }.

Definition with_Creation (s : PollState) (p : Poll) : PollState :=
  mkPollState (ps_Chat s) (ps_Author s) (ps_Timestamp s) (Some p) (ps_Votes s) (ps_Tally s) (ps_ClosureObserved s)
    (ps_ClosedAt s) (ps_Deleted s) (ps_Completeness s) (ps_IgnoredInvalid s) (ps_Conflicts s).
Definition ignore (s : PollState) : PollState :=
  mkPollState (ps_Chat s) (ps_Author s) (ps_Timestamp s) (ps_Creation s) (ps_Votes s) (ps_Tally s) (ps_ClosureObserved s)
    (ps_ClosedAt s) (ps_Deleted s) (ps_Completeness s) (ps_IgnoredInvalid s + 1) (ps_Conflicts s).
Definition conflict (s : PollState) : PollState :=
  mkPollState (ps_Chat s) (ps_Author s) (ps_Timestamp s) (ps_Creation s) (ps_Votes s) (ps_Tally s) (ps_ClosureObserved s)
    (ps_ClosedAt s) (ps_Deleted s) (ps_Completeness s) (ps_IgnoredInvalid s) (ps_Conflicts s + 1).
Definition deleted (s : PollState) : PollState :=
  mkPollState (ps_Chat s) (ps_Author s) (ps_Timestamp s) (ps_Creation s) (ps_Votes s) (ps_Tally s) (ps_ClosureObserved s)
    (ps_ClosedAt s) true (ps_Completeness s) (ps_IgnoredInvalid s) (ps_Conflicts s).
Definition closed (s : PollState) (at_ : Z) : PollState :=
  mkPollState (ps_Chat s) (ps_Author s) (ps_Timestamp s) (ps_Creation s) (ps_Votes s) (ps_Tally s) true
    at_ (ps_Deleted s) (ps_Completeness s) (ps_IgnoredInvalid s) (ps_Conflicts s).
Definition with_votes (s : PollState) (vs : list PollStateVote) (tally : option (list Z)) : PollState :=
  mkPollState (ps_Chat s) (ps_Author s) (ps_Timestamp s) (ps_Creation s) vs tally (ps_ClosureObserved s)
    (ps_ClosedAt s) (ps_Deleted s) (ps_Completeness s) (ps_IgnoredInvalid s) (ps_Conflicts s).

(** ** Validation of received content *)

Definition maxReceivedPollQuestion : Z := 200.
Definition maxReceivedPollOption : Z := 100.

Definition validPollText (s : string) (limit : Z) : bool :=
  ValidString s && negb (TrimSpace s == ""%string) && (utf16_len s <=? limit).

Definition validReceivedPoll (p : Poll) : bool :=
  if (len (Options p) <? 2) || (10 <? len (Options p)) || negb (validPollText (Question p) maxReceivedPollQuestion)
  then false
  else forallb (fun option => validPollText option maxReceivedPollOption) (Options p).

Definition samePollCreation (first second : Poll) : bool :=
  (Question first == Question second) && Bool.eqb (AllowMultiple first) (AllowMultiple second)
  && (Options first == Options second).

(** [slices.Sort] of integers: the sorted list is unique. *)
Definition sort_ints (l : list Z) : list Z := sort_by Z.leb l.
Definition samePollSelection (a b : list Z) : bool := sort_ints a == sort_ints b.

Definition pollEnvelope (event : Event) : option Envelope :=
  match event with
  | EvMessage env _ | EvPollVote env _ | EvPollClose env _ | EvDelete env _ => Some env
  | _ => None
  end.

Section reduce.
Context {U : UuidLib}.

Definition validObservedVote (env : Envelope) (vote : OutgoingPollVote) (p : option Poll) : bool :=
  match uuid_parse (ACI (env_Sender env)) with
  | None => false
  | Some voter =>
      if uuid_string voter != ACI (env_Sender env) then false
      else
        let copyVote := mkPollVote (vote_TargetAuthor vote) (vote_TargetTimestamp vote) (OptionIndexes vote) 1 in
        if is_set (OutgoingPollVote_Check copyVote) then false
        else match p with
             | None => true
             | Some p =>
                 if negb (AllowMultiple p) && (1 <? len (OptionIndexes vote)) then false
                 else forallb (fun index => index <? len (Options p)) (OptionIndexes vote)
             end
  end.

(** ** Observing *)

Definition observeCreation (state : PollState) (event : Event) : PollState :=
  match event with
  | EvMessage env msg =>
      match msg_Poll msg with
      | None => state
      | Some poll =>
          if Chat_Key (env_Chat env) != Chat_Key (ps_Chat state) then state
          else if (ACI (env_Sender env) != ACI (ps_Author state)) || negb (env_Timestamp env =? ps_Timestamp state) then state
          else if negb (validReceivedPoll poll) then ignore state
          else match ps_Creation state with
               | Some creation => if samePollCreation creation poll then state else conflict state
               | None => with_Creation state poll
               end
      end
  | _ => state
  end.

Definition pollControlMatches (event : Event) (state : PollState) : bool :=
  match event with
  | EvDelete env target => (target =? ps_Timestamp state) && (ACI (env_Sender env) == ACI (ps_Author state))
  | EvPollClose _ c => close_TargetTimestamp c =? ps_Timestamp state
  | EvPollVote _ v =>
      (vote_TargetTimestamp v =? ps_Timestamp state) && (ACI (vote_TargetAuthor v) == ACI (ps_Author state))
  | _ => false
  end.

Definition observeClose (state : PollState) (env : Envelope) (c : OutgoingPollClose) : PollState :=
  if negb (close_TargetTimestamp c =? ps_Timestamp state) then state
  else if ACI (env_Sender env) != ACI (ps_Author state) then ignore state
  else if negb (ps_Deleted state) && negb (ps_ClosureObserved state) then closed state (env_Timestamp env)
  else state.

(** The verdict on a vote, with the state whose conflicts it may count. *)
Definition acceptVote (state : PollState) (env : Envelope) (v : OutgoingPollVote) (votes : gmap string PollStateVote)
    : PollState * bool :=
  match votes !! ACI (env_Sender env) with
  | None => (state, true)
  | Some prev =>
      if negb (VoteCount v =? psv_VoteCount prev) then (state, psv_VoteCount prev <? VoteCount v)
      else
        (if samePollSelection (OptionIndexes v) (psv_OptionIndexes prev) then state else conflict state,
         env_Sync env && (psv_Timestamp prev <? env_Timestamp env))
  end.

Definition recorded (env : Envelope) (v : OutgoingPollVote) : PollStateVote :=
  mkStateVote (env_Sender env) (OptionIndexes v) (VoteCount v) (env_Timestamp env).

Definition observeVote (state : PollState) (env : Envelope) (v : OutgoingPollVote) (votes : gmap string PollStateVote)
    : PollState * gmap string PollStateVote :=
  if ps_Deleted state || ps_ClosureObserved state then (state, votes)
  else if negb (vote_TargetTimestamp v =? ps_Timestamp state)
          || (ACI (vote_TargetAuthor v) != ACI (ps_Author state)) then (state, votes)
  else if negb (validObservedVote env v (ps_Creation state)) then (ignore state, votes)
  else
    let (state, accepted) := acceptVote state env v votes in
    if negb accepted then (state, votes) else (state, <[ACI (env_Sender env) := recorded env v]> votes).

Definition observeControl (state : PollState) (event : Event) (votes : gmap string PollStateVote)
    : PollState * gmap string PollStateVote :=
  match pollEnvelope event with
  | None => (state, votes)
  | Some env =>
      if Chat_Key (env_Chat env) != Chat_Key (ps_Chat state) then (state, votes)
      else if (env_Timestamp env =? 0) && pollControlMatches event state then (ignore state, votes)
      else match event with
           | EvDelete env target =>
               if (target =? ps_Timestamp state) && (ACI (env_Sender env) == ACI (ps_Author state))
               then (deleted state, votes) else (state, votes)
           | EvPollClose env c => (observeClose state env c, votes)
           | EvPollVote env v => observeVote state env v votes
           | _ => (state, votes)
           end
  end.

(** ** The result *)

(** [state.Tally[index]++]: [None] is Go's index panic. *)
Definition count_index (tally : list Z) (index : Z) : option (list Z) :=
  if (0 <=? index) && (index <? len tally) then Some (alter Z.succ (Z.to_nat index) tally) else None.

Fixpoint count_indexes (tally : list Z) (indexes : list Z) : option (list Z) :=
  match indexes with
  | [] => Some tally
  | index :: rest => tally ← count_index tally index; count_indexes tally rest
  end.

Fixpoint count_votes (tally : list Z) (votes : list PollStateVote) : option (list Z) :=
  match votes with
  | [] => Some tally
  | vote :: rest => tally ← count_indexes tally (psv_OptionIndexes vote); count_votes tally rest
  end.

Definition vote_leb (a b : PollStateVote) : bool := String.leb (ACI (psv_Voter a)) (ACI (psv_Voter b)).

(** The map is appended in Go's random order; the sort makes the order irrelevant, because
    every voter has one entry. *)
Definition finalizeVotes (state : PollState) (votes : gmap string PollStateVote) : option PollState :=
  let sorted := sort_by vote_leb (snd <$> map_to_list votes) in
  match ps_Creation state with
  | Some p =>
      if ps_Deleted state then Some (with_votes state sorted None)
      else tally ← count_votes (replicate (length (Options p)) 0) sorted; Some (with_votes state sorted (Some tally))
  | None => Some (with_votes state sorted None)
  end.

Definition initial_state (ref : PollReference) : PollState :=
  mkPollState (pref_Chat ref) (pref_Author ref) (pref_Timestamp ref) None [] None false 0 false "unknown" 0 0.

Definition observe_controls (state : PollState) (votes : gmap string PollStateVote) (events : list Event)
    : PollState * gmap string PollStateVote :=
  foldl (fun sv event => observeControl sv.1 event sv.2) (state, votes) events.

Definition ReducePoll (ref : PollReference) (events : list Event) : option PollState :=
  let state := foldl observeCreation (initial_state ref) events in
  let '(state, votes) := observe_controls state ∅ events in
  finalizeVotes state votes.

(** ** Evidence (poll_projection.go) *)

Definition PollReference_Check (ref : PollReference) : error :=
  PollVoteCounterRequest_Check (mkCounterReq (pref_Chat ref) (pref_Author ref) (pref_Timestamp ref) 0).

(** [fmt.Sprintf] with two [%q] verbs, of the question and the options. *)
Context (quote_poll : string -> list string -> string).

Definition evidence_poll (p : Poll) : Poll :=
  if negb (ValidString (Question p)) || existsb (fun option => negb (ValidString option)) (Options p) then
    mkPoll (String.string_of_list_ascii (replicate (Z.to_nat (maxReceivedPollQuestion + 1)) (ascii_of 32))
            ++ quote_poll (Question p) (Options p)) (Options p) (AllowMultiple p)
  else p.

Definition evidence_chat (env : Envelope) : Chat :=
  let chat := mkChat (GroupID (env_Chat env)) zeroRecipient in
  if negb (Chat_IsGroup chat) then mkChat (GroupID (env_Chat env)) (ofACI (ACI (ChatRecipient (env_Chat env)))) else chat.

Definition evidence_envelope (env : Envelope) : Envelope :=
  mkEnvelope (ofACI (ACI (env_Sender env))) (evidence_chat env) (env_Timestamp env) 0 (env_Sync env).

Definition emptyMessage (p : Poll) : MessageContent := mkMessage "" [] [] None (Some p) None false [].

(** The four cases: envelope, author and timestamp of the poll, and the copied event. *)
Definition evidence_case (event : Event) : option (Envelope * Recipient * Z * (Envelope -> Event)) :=
  match event with
  | EvMessage env msg =>
      match msg_Poll msg with
      | Some p => Some (env, env_Sender env, env_Timestamp env, fun e => EvMessage e (emptyMessage (evidence_poll p)))
      | None => None
      end
  | EvPollVote env v =>
      Some (env, vote_TargetAuthor v, vote_TargetTimestamp v,
        fun e => EvPollVote e (mkPollVote (ofACI (ACI (vote_TargetAuthor v))) (vote_TargetTimestamp v)
                                (sort_ints (OptionIndexes v)) (VoteCount v)))
  | EvPollClose env c => Some (env, env_Sender env, close_TargetTimestamp c, fun e => EvPollClose e c)
  | EvDelete env target => Some (env, env_Sender env, target, fun e => EvDelete e target)
  | _ => None
  end.

Definition PollEvidence (event : Event) : option (PollReference * Event) :=
  match evidence_case event with
  | None => None
  | Some (env, author, timestamp, copy) =>
      let ref := mkPollRef (evidence_chat env) (ofACI (ACI author)) timestamp in
      if is_set (PollReference_Check ref) then None else Some (ref, copy (evidence_envelope env))
  end.
End reduce.

(** ** Lemmas *)

Section facts.
Context {U : UuidLib}.

(** What the reducer never changes while it reads controls. *)
Definition same_poll (s s' : PollState) : Prop :=
  ps_Chat s' = ps_Chat s /\ ps_Author s' = ps_Author s /\ ps_Timestamp s' = ps_Timestamp s
  /\ ps_Creation s' = ps_Creation s.

(** A vote that counts for the poll of [s]. *)
Definition eligible (s : PollState) (env : Envelope) (v : OutgoingPollVote) : bool :=
  (Chat_Key (env_Chat env) == Chat_Key (ps_Chat s)) && negb (env_Timestamp env =? 0)
  && (vote_TargetTimestamp v =? ps_Timestamp s) && (ACI (vote_TargetAuthor v) == ACI (ps_Author s))
  && validObservedVote env v (ps_Creation s).

Definition frozen (s : PollState) : bool := ps_Deleted s || ps_ClosureObserved s.

Lemma eligible_same s s' env v : same_poll s s' -> eligible s' env v = eligible s env v.
Proof. intros (Hc & Ha & Ht & Hp). unfold eligible. by rewrite Hc, Ha, Ht, Hp. Qed.

(** What one control may do to the votes: nothing, or record an eligible vote that does not
    lower its voter's count. *)
Definition votes_step (s : PollState) (e : Event) (vs vs' : gmap string PollStateVote) : Prop :=
  vs' = vs \/ exists env v, e = EvPollVote env v /\ eligible s env v = true /\ frozen s = false
        /\ vs' = <[ACI (env_Sender env) := recorded env v]> vs
        /\ forall prev, vs !! ACI (env_Sender env) = Some prev -> psv_VoteCount prev <= VoteCount v.

Lemma acceptVote_same s env v vs s' b :
  acceptVote s env v vs = (s', b) -> same_poll s s' /\ frozen s' = frozen s.
Proof.
  unfold acceptVote. destruct (vs !! _) as [prev|]; [|by intros [= <- <-]].
  destruct (negb _); [by intros [= <- <-]|]. destruct (samePollSelection _ _); by intros [= <- <-].
Qed.

Lemma acceptVote_count s env v vs s' prev :
  acceptVote s env v vs = (s', true) -> vs !! ACI (env_Sender env) = Some prev -> psv_VoteCount prev <= VoteCount v.
Proof.
  unfold acceptVote. intros H Hp. rewrite Hp in H. destruct (VoteCount v =? psv_VoteCount prev) eqn:E; cbn in H.
  - apply Z.eqb_eq in E. lia.
  - injection H as _ H. apply Z.ltb_lt in H. lia.
Qed.

Lemma observeVote_step s env v vs s' vs' :
  Chat_Key (env_Chat env) = Chat_Key (ps_Chat s) -> (env_Timestamp env =? 0) && pollControlMatches (EvPollVote env v) s = false ->
  observeVote s env v vs = (s', vs') ->
  same_poll s s' /\ frozen s' = frozen s /\ votes_step s (EvPollVote env v) vs vs'.
Proof.
  intros Hck Hz. unfold observeVote. change (ps_Deleted s || ps_ClosureObserved s) with (frozen s).
  destruct (frozen s) eqn:Hf; [intros [= <- <-]; by split_and!; [| |left]|].
  destruct (vote_TargetTimestamp v =? ps_Timestamp s) eqn:Ht; cbn [negb orb]; [|intros [= <- <-]; by split_and!; [| |left]].
  destruct (bool_decide (ACI (vote_TargetAuthor v) = _)) eqn:Ha; cbn [negb]; [|intros [= <- <-]; by split_and!; [| |left]].
  destruct (validObservedVote env v (ps_Creation s)) eqn:Hv; cbn [negb]; [|intros [= <- <-]; by split_and!; [| |left]].
  destruct (acceptVote s env v vs) as [s1 b] eqn:Hacc.
  pose proof (acceptVote_same _ _ _ _ _ _ Hacc) as [Hs1 Hf1]. rewrite Hf in Hf1.
  destruct b; cbn [negb]; intros [= <- <-]; split_and!; try done; [|by left].
  right. exists env, v. split_and!; try done.
  - unfold eligible. cbn in Hz. rewrite Ht, Ha, andb_true_r in Hz. by rewrite Hv, Ht, Ha, Hz, bool_decide_eq_true_2.
  - intros prev Hp. by eapply acceptVote_count.
Qed.

(** One control: it keeps the poll, and a frozen poll stays frozen. *)
Lemma observeControl_step s e vs s' vs' :
  observeControl s e vs = (s', vs') ->
  same_poll s s' /\ (frozen s = true -> frozen s' = true) /\ votes_step s e vs vs'.
Proof.
  unfold observeControl. destruct (pollEnvelope e) as [env0|] eqn:He; [|intros [= <- <-]; by split_and!; [| |left]].
  destruct (bool_decide (Chat_Key (env_Chat env0) = _)) eqn:Hck; cbn [negb]; [|intros [= <- <-]; by split_and!; [| |left]].
  apply bool_decide_eq_true_1 in Hck.
  destruct (_ && pollControlMatches e s) eqn:Hz; [intros [= <- <-]; by split_and!; [| |left]|].
  destruct e; try (intros [= <- <-]; by split_and!; [| |left]).
  - split_if; intros [= <- <-]; by split_and!; [| |left].
  - cbn in He. injection He as ->. intros H. apply observeVote_step in H as (? & Hf & ?); [|done..].
    split_and!; [done| |done]. by rewrite Hf.
  - intros [= <- <-]. unfold observeClose, frozen.
    repeat split_if; (split_and!; [done| |by left]); try done. by rewrite orb_true_r.
Qed.

(** A recorded vote of voter [a]: its event is eligible for the poll. *)
Definition recorded_from (s : PollState) (events : list Event) (a : string) (r : PollStateVote) : Prop :=
  exists env v, EvPollVote env v ∈ events /\ eligible s env v = true /\ ACI (env_Sender env) = a /\ r = recorded env v.

Lemma observe_controls_app s vs es es' :
  observe_controls s vs (es ++ es') = let '(s1, vs1) := observe_controls s vs es in observe_controls s1 vs1 es'.
Proof. unfold observe_controls. rewrite foldl_app. by destruct (foldl _ _ es). Qed.

Lemma observe_controls_cons s vs e es :
  observe_controls s vs (e :: es) = let '(s1, vs1) := observeControl s e vs in observe_controls s1 vs1 es.
Proof. unfold observe_controls. cbn. by destruct (observeControl s e vs). Qed.

Lemma observe_controls_inv s vs es s' vs' :
  observe_controls s vs es = (s', vs') ->
  same_poll s s' /\ (frozen s = true -> frozen s' = true /\ vs' = vs)
  /\ (forall a r, vs' !! a = Some r -> vs !! a = Some r \/ recorded_from s es a r)
  /\ (forall a r, vs !! a = Some r -> exists r', vs' !! a = Some r' /\ psv_VoteCount r <= psv_VoteCount r').
Proof.
  revert s vs. induction es as [|e es IH]; intros s vs.
  { intros [= <- <-]. split_and!; [done|done|by left|]. intros a r Hr. exists r. split; [done|lia]. }
  rewrite observe_controls_cons. destruct (observeControl s e vs) as [s1 vs1] eqn:E.
  apply observeControl_step in E as (Hs1 & Hf1 & Hv1). intros (Hs & Hf & Hfrom & Hmono)%IH.
  assert (Hrec : forall a r, recorded_from s1 es a r -> recorded_from s (e :: es) a r).
  { intros a r (env & v & Hin & Hel & ?). exists env, v. rewrite <- (eligible_same s s1) by done.
    split_and!; [by right|done|naive_solver..]. }
  split_and!.
  - destruct Hs1 as (? & ? & ? & ?), Hs as (? & ? & ? & ?). split_and!; congruence.
  - intros Hfs. specialize (Hf1 Hfs). destruct (Hf Hf1) as [? ->]. split; [done|].
    destruct Hv1 as [?|(? & ? & _ & _ & Hn & _)]; [done|congruence].
  - intros a r [Hr|Hr]%Hfrom; [|right; by apply Hrec]. destruct Hv1 as [->|(env & v & -> & Hel & _ & -> & _)]; [by left|].
    apply lookup_insert_Some in Hr as [[<- <-]|[_ Hr]]; [|by left].
    right. exists env, v. split_and!; [by left|done|done|done].
  - intros a r Hr. destruct Hv1 as [->|(env & v & -> & _ & _ & -> & Hc)]; [by apply Hmono|].
    destruct (decide (a = ACI (env_Sender env))) as [->|Hne].
    + destruct (Hmono (ACI (env_Sender env)) (recorded env v)) as (r' & Hr' & ?); [apply lookup_insert_eq|].
      exists r'. split; [done|]. specialize (Hc _ Hr). cbn in *. lia.
    + apply Hmono. by rewrite lookup_insert_ne.
Qed.
End facts.

(** ** Tallies *)

Lemma count_indexes_Some tally ixs :
  NoDup ixs -> Forall (fun i => 0 <= i < len tally) ixs ->
  exists t, count_indexes tally ixs = Some t /\ length t = length tally /\
    forall i, t !! i = (fun n => n + (if bool_decide (Z.of_nat i ∈ ixs) then 1 else 0)) <$> tally !! i.
Proof.
  revert tally. induction ixs as [|x ixs IH]; intros tally Hnd Hb; cbn [count_indexes].
  { exists tally. split_and!; [done|done|]. intros i.
    rewrite bool_decide_eq_false_2 by apply not_elem_of_nil.
    destruct (tally !! i); cbn; [by rewrite Z.add_0_r|done]. }
  apply NoDup_cons in Hnd as [Hx Hnd]. apply Forall_cons in Hb as [Hxb Hb].
  unfold count_index. rewrite (proj2 (Z.leb_le 0 x)), (proj2 (Z.ltb_lt x (len tally))) by lia. cbn [andb mbind option_bind].
  destruct (IH (alter Z.succ (Z.to_nat x) tally)) as (t & Ht & Hl & Hi); [done| |].
  { unfold len in *. by rewrite length_alter. }
  exists t. rewrite length_alter in Hl. split_and!; [done|done|]. intros i. rewrite Hi.
  destruct (decide (i = Z.to_nat x)) as [->|Hne].
  - rewrite list_lookup_alter_eq, Z2Nat.id by lia. rewrite (bool_decide_eq_false_2 (x ∈ ixs)) by done.
    rewrite bool_decide_eq_true_2 by (by left). destruct (tally !! _); cbn; [f_equal; lia|done].
  - rewrite list_lookup_alter_ne by done. destruct (tally !! i); cbn; [|done]. do 2 f_equal.
    rewrite (bool_decide_ext (Z.of_nat i ∈ x :: ixs) (Z.of_nat i ∈ ixs)); [done|].
    rewrite elem_of_cons. split; [|tauto]. intros [E|?]; [|done]. destruct Hne. by rewrite <- E, Nat2Z.id.
Qed.

(** The number of votes for option [i]. *)
Definition votes_for (i : nat) (votes : list PollStateVote) : Z :=
  len (filter (fun v => Z.of_nat i ∈ psv_OptionIndexes v) votes).

Lemma count_votes_Some tally votes :
  (forall v, v ∈ votes -> NoDup (psv_OptionIndexes v) /\ Forall (fun i => 0 <= i < len tally) (psv_OptionIndexes v)) ->
  exists t, count_votes tally votes = Some t /\ length t = length tally /\
    forall i, t !! i = (fun n => n + votes_for i votes) <$> tally !! i.
Proof.
  revert tally. induction votes as [|v votes IH]; intros tally H; cbn [count_votes].
  { exists tally. split_and!; [done|done|]. intros i. cbn.
    destruct (tally !! i); cbn; [unfold votes_for; cbn; by rewrite Z.add_0_r|done]. }
  destruct (H v) as [Hn Hb]; [by left|]. destruct (count_indexes_Some tally _ Hn Hb) as (t1 & -> & Hl1 & Hi1).
  cbn [mbind option_bind]. destruct (IH t1) as (t & -> & Hl & Hi).
  { intros w Hw. unfold len. rewrite Hl1. apply H. by right. }
  exists t. split_and!; [done|congruence|]. intros i. rewrite Hi, Hi1.
  destruct (tally !! i); cbn; [|done]. f_equal. unfold votes_for. rewrite filter_cons.
  destruct (decide _) as [Hd|Hd].
  - rewrite (bool_decide_eq_true_2 _ Hd). unfold len. cbn [length]. lia.
  - rewrite (bool_decide_eq_false_2 _ Hd). lia.
Qed.

(** ** The reducer *)

Section reducer.
Context {U : UuidLib}.

(** Option indexes are [uint32]s. *)
Definition well_typed (events : list Event) : Prop :=
  forall env v, EvPollVote env v ∈ events -> Forall is_uint32 (OptionIndexes v).

(** The state after the creation pass. *)
Definition created (ref : PollReference) (events : list Event) : PollState :=
  foldl observeCreation (initial_state ref) events.

Lemma observeCreation_keeps s e :
  let s' := observeCreation s e in
  ps_Chat s' = ps_Chat s /\ ps_Author s' = ps_Author s /\ ps_Timestamp s' = ps_Timestamp s
  /\ frozen s' = frozen s
  /\ (forall p, ps_Creation s' = Some p -> ps_Creation s = Some p \/ validReceivedPoll p = true).
Proof.
  destruct e; cbn; try by split_and!; [..|left].
  destruct (msg_Poll m) as [p|]; [|by split_and!; [..|left]].
  destruct (negb (bool_decide _)); [by split_and!; [..|left]|].
  destruct (_ || _); [by split_and!; [..|left]|].
  destruct (validReceivedPoll p) eqn:Hv; cbn [negb]; [|by split_and!; [..|left]].
  destruct (ps_Creation s) as [c|] eqn:Hc.
  - destruct (samePollCreation c p); (split_and!; [done..|]); cbn; rewrite Hc; by left.
  - split_and!; try done. intros q [= <-]. by right.
Qed.

Lemma created_spec ref events :
  ps_Chat (created ref events) = pref_Chat ref /\ ps_Author (created ref events) = pref_Author ref
  /\ ps_Timestamp (created ref events) = pref_Timestamp ref /\ frozen (created ref events) = false
  /\ forall p, ps_Creation (created ref events) = Some p -> validReceivedPoll p = true.
Proof.
  unfold created. induction events as [|e events IH] using rev_ind; [done|].
  rewrite foldl_app. cbn. destruct IH as (E1 & E2 & E3 & E4 & E5).
  destruct (observeCreation_keeps (foldl observeCreation (initial_state ref) events) e) as (F1 & F2 & F3 & F4 & F5).
  split_and!; try congruence. intros p [?|?]%F5; auto.
Qed.

(** The votes of a reduction are the map's entries, by voter. *)
Lemma votes_sorted (votes : gmap string PollStateVote) :
  (forall a r, votes !! a = Some r -> ACI (psv_Voter r) = a) ->
  let sorted := sort_by vote_leb (snd <$> map_to_list votes) in
  Sorted (fun a b => vote_leb a b = true) sorted
  /\ NoDup ((fun r => ACI (psv_Voter r)) <$> sorted)
  /\ forall r, r ∈ sorted <-> votes !! ACI (psv_Voter r) = Some r.
Proof.
  intros Hk sorted. assert (Hp : sorted ≡ₚ (snd <$> map_to_list votes)) by apply sort_by_perm.
  assert (Hkeys : (fun r => ACI (psv_Voter r)) <$> (snd <$> map_to_list votes) = fst <$> map_to_list votes).
  { rewrite <- list_fmap_compose. apply list_fmap_ext. intros i [a r] Hi.
    apply list_elem_of_lookup_2, elem_of_map_to_list in Hi. cbn. by apply Hk. }
  split_and!.
  - apply sort_by_sorted. intros x y. apply string_leb_total.
  - rewrite Hp, Hkeys. apply NoDup_fst_map_to_list.
  - intros r. rewrite Hp, list_elem_of_fmap. split.
    + intros ([a r'] & -> & Hi%elem_of_map_to_list). cbn. by rewrite (Hk _ _ Hi).
    + intros Hr. exists (ACI (psv_Voter r), r). split; [done|]. by apply elem_of_map_to_list.
Qed.

Lemma eligible_indexes s env v p :
  eligible s env v = true -> ps_Creation s = Some p -> Forall is_uint32 (OptionIndexes v) ->
  NoDup (OptionIndexes v) /\ Forall (fun i => 0 <= i < len (Options p)) (OptionIndexes v).
Proof.
  intros H Hc Hu. unfold eligible in H. rewrite !andb_true_iff in H. destruct H as [_ Hv].
  unfold validObservedVote in Hv. rewrite Hc in Hv. destruct (uuid_parse _); [|done].
  destruct (negb (bool_decide _)); [done|]. unfold OutgoingPollVote_Check, OutgoingPollVote_check in Hv. cbn in Hv.
  destruct (_ || _) in Hv; [done|].
  destruct (check_indexes ∅ (OptionIndexes v)) eqn:Hx; [done|]. cbn in Hv.
  apply check_indexes_None in Hx as (Hnd & _ & _). destruct (_ && _) in Hv; [done|]. split; [done|].
  rewrite forallb_forall in Hv. apply Forall_forall. intros i Hi. rewrite Forall_forall in Hu.
  specialize (Hu i Hi). specialize (Hv i). rewrite <- list_elem_of_In in Hv. specialize (Hv Hi).
  apply Z.ltb_lt in Hv. unfold is_uint32 in Hu. lia.
Qed.

Lemma finalizeVotes_Some s votes :
  (forall a r, votes !! a = Some r -> ACI (psv_Voter r) = a) ->
  (forall a r p, votes !! a = Some r -> ps_Creation s = Some p ->
     NoDup (psv_OptionIndexes r) /\ Forall (fun i => 0 <= i < len (Options p)) (psv_OptionIndexes r)) ->
  exists tally, finalizeVotes s votes = Some (with_votes s (sort_by vote_leb (snd <$> map_to_list votes)) tally)
    /\ match ps_Creation s, ps_Deleted s with
       | Some p, false => exists t, tally = Some t /\ length t = length (Options p)
           /\ forall i n, t !! i = Some n -> n = votes_for i (sort_by vote_leb (snd <$> map_to_list votes))
       | _, _ => tally = None
       end.
Proof.
  intros Hk Hi. unfold finalizeVotes. destruct (ps_Creation s) as [p|] eqn:Hc; [|by eexists].
  destruct (ps_Deleted s); [by eexists|].
  destruct (count_votes_Some (replicate (length (Options p)) 0) (sort_by vote_leb (snd <$> map_to_list votes)))
    as (t & -> & Hl & Ht).
  { intros r Hr. apply (votes_sorted votes Hk) in Hr. unfold len. rewrite length_replicate. by eapply Hi. }
  eexists. split; [reflexivity|]. exists t. rewrite length_replicate in Hl. split_and!; [done|done|].
  intros i n Hin. rewrite Ht in Hin. destruct (replicate _ 0 !! i) as [z|] eqn:E; [|done].
  apply lookup_replicate in E as [-> _]. cbn in Hin. by injection Hin.
Qed.

(** The result of the controls pass, from the created state. *)
Definition controls (ref : PollReference) (events : list Event) (upto : list Event)
    : PollState * gmap string PollStateVote :=
  observe_controls (created ref events) ∅ upto.

Lemma ReducePoll_run ref events :
  well_typed events ->
  let s := (controls ref events events).1 in
  let votes := sort_by vote_leb (snd <$> map_to_list (controls ref events events).2) in
  exists tally, ReducePoll ref events = Some (with_votes s votes tally)
    /\ match ps_Creation s, ps_Deleted s with
       | Some p, false => exists t, tally = Some t /\ length t = length (Options p)
           /\ forall i n, t !! i = Some n -> n = votes_for i votes
       | _, _ => tally = None
       end.
Proof.
  intros Hw. unfold ReducePoll, controls, created. fold (created ref events).
  destruct (observe_controls (created ref events) ∅ events) as [s votes] eqn:E. cbn.
  pose proof (observe_controls_inv _ _ _ _ _ E) as (Hs & _ & Hfrom & _).
  apply finalizeVotes_Some.
  - intros a r [?|(env & v & _ & _ & <- & ->)]%Hfrom; [by rewrite lookup_empty in *|done].
  - intros a r p Hr Hp. apply Hfrom in Hr as [?|(env & v & Hin & Hel & _ & ->)]; [by rewrite lookup_empty in *|].
    apply (eligible_indexes (created ref events) env v p); [done| |by apply (Hw env)].
    destruct Hs as (_ & _ & _ & <-). done.
Qed.

(** C33. Reducing observations never panics: for any events the state has one vote per voter,
    ordered by voter, each the record of an eligible received vote for this poll, and, while
    the poll is known and not deleted, a tally with one cell per option that counts exactly
    the retained votes for it. *)
Theorem ReducePoll_spec ref events :
  well_typed events ->
  exists st, ReducePoll ref events = Some st
    /\ ps_Chat st = pref_Chat ref /\ ps_Author st = pref_Author ref /\ ps_Timestamp st = pref_Timestamp ref
    /\ Sorted (fun a b => vote_leb a b = true) (ps_Votes st)
    /\ NoDup ((fun r => ACI (psv_Voter r)) <$> ps_Votes st)
    /\ (forall r, r ∈ ps_Votes st -> recorded_from st events (ACI (psv_Voter r)) r)
    /\ match ps_Creation st, ps_Deleted st with
       | Some p, false => validReceivedPoll p = true /\ exists t, ps_Tally st = Some t
           /\ length t = length (Options p) /\ forall i n, t !! i = Some n -> n = votes_for i (ps_Votes st)
       | _, _ => ps_Tally st = None
       end.
Proof.
  intros Hw. pose proof (created_spec ref events) as (C1 & C2 & C3 & _ & C5).
  destruct (ReducePoll_run ref events Hw) as (tally & Hrun & Ht).
  unfold controls in *. destruct (observe_controls (created ref events) ∅ events) as [s votes] eqn:E. cbn [fst snd] in *.
  pose proof (observe_controls_inv _ _ _ _ _ E) as (Hs & _ & Hfrom & _).
  assert (Hrec : forall a r, votes !! a = Some r -> recorded_from (created ref events) events a r).
  { intros a r [?|?]%Hfrom; [by rewrite lookup_empty in *|done]. }
  assert (Hk : forall a r, votes !! a = Some r -> ACI (psv_Voter r) = a).
  { intros a r (env & v & _ & _ & <- & ->)%Hrec. done. }
  destruct (votes_sorted votes Hk) as (Hsorted & Hnd & Hin).
  destruct Hs as (S1 & S2 & S3 & S4).
  eexists. split; [exact Hrun|]. cbn. split_and!; try congruence.
  - intros r Hr. apply Hin, Hrec in Hr as (env & v & ? & He & ? & ?). exists env, v. split_and!; try done.
    rewrite <- He. by apply eligible_same.
  - destruct (ps_Creation s) as [p|] eqn:Hp; [|done]. destruct (ps_Deleted s); [done|]. split; [|done].
    apply C5. congruence.
Qed.

Lemma observeVote_counts s env v vs s' vs' :
  eligible s env v = true -> frozen s = false ->
  observeControl s (EvPollVote env v) vs = (s', vs') ->
  exists r, vs' !! ACI (env_Sender env) = Some r /\ VoteCount v <= psv_VoteCount r.
Proof.
  unfold eligible. rewrite !andb_true_iff. intros ((((Hck & Hz) & Ht) & Ha) & Hv) Hf. unfold observeControl. cbn.
  rewrite Hck. cbn. apply negb_true_iff in Hz. rewrite Hz. cbn. unfold observeVote.
  unfold frozen in Hf. rewrite Hf, Ht, Ha, Hv. cbn. unfold acceptVote.
  destruct (vs !! ACI (env_Sender env)) as [prev|] eqn:Hp.
  - destruct (VoteCount v =? psv_VoteCount prev) eqn:Ec; cbn.
    + apply Z.eqb_eq in Ec. destruct (env_Sync env && _); cbn; intros [= <- <-].
      * eexists. split; [apply lookup_insert_eq|]. cbn. lia.
      * exists prev. split; [done|lia].
    + destruct (psv_VoteCount prev <? VoteCount v) eqn:El; cbn; intros [= <- <-].
      * eexists. split; [apply lookup_insert_eq|]. cbn. lia.
      * exists prev. split; [done|]. apply Z.ltb_ge in El. lia.
  - intros [= <- <-]. eexists. split; [apply lookup_insert_eq|]. cbn. lia.
Qed.

(** A later vote counter wins: every eligible vote seen before the poll was closed or deleted
    leaves its voter with a retained vote of at least its counter; and once the poll is closed
    or deleted, no later event changes the retained votes. *)
Theorem ReducePoll_latest ref pre e post :
  let events := pre ++ e :: post in
  well_typed events ->
  exists st, ReducePoll ref events = Some st /\
    if frozen (controls ref events pre).1
    then ps_Votes st = sort_by vote_leb (snd <$> map_to_list (controls ref events pre).2)
    else forall env v, e = EvPollVote env v -> eligible st env v = true ->
         exists r, r ∈ ps_Votes st /\ ACI (psv_Voter r) = ACI (env_Sender env) /\ VoteCount v <= psv_VoteCount r.
Proof.
  intros events Hw. destruct (ReducePoll_run ref events Hw) as (tally & -> & _). eexists. split; [reflexivity|].
  unfold controls. set (s0 := created ref events).
  destruct (observe_controls s0 ∅ events) as [s vs] eqn:E. pose proof E as E'.
  unfold events in E. rewrite observe_controls_app in E. destruct (observe_controls s0 ∅ pre) as [s1 vs1] eqn:E1.
  cbn [fst snd ps_Votes with_votes]. pose proof (observe_controls_inv _ _ _ _ _ E) as (_ & Hfz & _).
  destruct (frozen s1) eqn:Hf; [by destruct (Hfz eq_refl) as [_ ->]|].
  intros env v -> Hel. rewrite observe_controls_cons in E.
  pose proof (observe_controls_inv _ _ _ _ _ E1) as (Hs1 & _ & _).
  pose proof (observe_controls_inv _ _ _ _ _ E') as (Hs & _ & Hfrom & _).
  destruct (observeControl s1 _ vs1) as [s2 vs2] eqn:E2.
  assert (Hel1 : eligible s1 env v = true).
  { rewrite (eligible_same s0 s1) by done. rewrite <- Hel. symmetry. by apply eligible_same. }
  destruct (observeVote_counts _ _ _ _ _ _ Hel1 Hf E2) as (r & Hr & Hc).
  apply observe_controls_inv in E as (_ & _ & _ & Hmono). destruct (Hmono _ _ Hr) as (r' & Hr' & Hc').
  assert (Hk : forall a x, vs !! a = Some x -> ACI (psv_Voter x) = a).
  { intros a x [?|(? & ? & _ & _ & <- & ->)]%Hfrom; [by rewrite lookup_empty in *|done]. }
  exists r'. rewrite (Hk _ _ Hr'). split_and!; [|done|lia]. apply (votes_sorted vs Hk). by rewrite (Hk _ _ Hr').
Qed.
End reducer.

(** ** Witnesses *)

Section witnesses.
Import DemoUuid.

Definition demo_author : string := "11111111-1111-4111-8111-111111111111".
Definition demo_voter : string := "22222222-2222-4222-8222-222222222222".
Definition demo_chat : Chat := mkChat "" (ofACI demo_voter).
Definition demo_ref : PollReference := mkPollRef demo_chat (ofACI demo_author) 5.
Definition demo_creation : Event :=
  EvMessage (mkEnvelope (ofACI demo_author) demo_chat 5 0 true) (emptyMessage (mkPoll "Lunch?" ["soup"; "bread"] false)).
Definition demo_cast (index count at_ : Z) : Event :=
  EvPollVote (mkEnvelope (ofACI demo_voter) demo_chat at_ 0 false) (mkPollVote (ofACI demo_author) 5 [index] count).
Definition demo_events : list Event := [demo_creation; demo_cast 0 1 6; demo_cast 1 2 7].

Lemma demo_well_typed : well_typed demo_events.
Proof.
  unfold well_typed, demo_events. intros env v He.
  repeat (apply elem_of_cons in He as [He|He]; [first [discriminate He|injection He as -> ->; constructor; [|constructor];
    unfold is_uint32, MaxUint32; cbn; lia]|]).
  by apply elem_of_nil in He.
Defined.

Lemma ReducePoll_spec_witness :
  exists st, ReducePoll demo_ref demo_events = Some st /\ ps_Tally st = Some [0; 1]
    /\ NoDup ((fun r => ACI (psv_Voter r)) <$> ps_Votes st).
Proof.
  destruct (ReducePoll_spec demo_ref demo_events demo_well_typed) as (st & H1 & _ & _ & _ & _ & H2 & _).
  exists st. split; [exact H1|]. split; [|exact H2].
  assert (E : ps_Tally <$> ReducePoll demo_ref demo_events = Some (Some [0; 1])) by (vm_compute; reflexivity).
  rewrite H1 in E. injection E as E. exact E.
Defined.

Lemma ReducePoll_latest_witness :
  exists st, ReducePoll demo_ref demo_events = Some st
    /\ exists r, r ∈ ps_Votes st /\ ACI (psv_Voter r) = demo_voter /\ 2 <= psv_VoteCount r.
Proof.
  destruct (ReducePoll_latest demo_ref [demo_creation; demo_cast 0 1 6] (demo_cast 1 2 7) [] demo_well_typed) as (st & H1 & H2).
  exists st. split; [exact H1|].
  assert (F : frozen (controls demo_ref demo_events [demo_creation; demo_cast 0 1 6]).1 = false) by (vm_compute; reflexivity).
  unfold demo_events in F. change (frozen (controls demo_ref ([demo_creation; demo_cast 0 1 6] ++ [demo_cast 1 2 7])
    [demo_creation; demo_cast 0 1 6]).1 = false) in F. rewrite F in H2.
  apply (H2 _ _ eq_refl).
  assert (E : (fun st => eligible st (mkEnvelope (ofACI demo_voter) demo_chat 7 0 false) (mkPollVote (ofACI demo_author) 5 [1] 2))
                <$> ReducePoll demo_ref demo_events = Some true) by (vm_compute; reflexivity).
  change (demo_events) with ([demo_creation; demo_cast 0 1 6] ++ [demo_cast 1 2 7]) in E. rewrite H1 in E. injection E as E. exact E.
Defined.
End witnesses.
