(* ===== verification/Recipients.v ===== *)
(** * Recipient arguments and the allowlist (internal/app/recipient.go, policy.go)

    [Client] is the part of signal.Client the application layer calls: operations over a world
    [W] the application cannot see into. [App] is the application's state around it, with a ghost
    log of the requests it handed to the client. *)

From S2P Require Import Prelude Errors Uuid Utf8 Strconv Base64 Types.

Record Target := mkTarget { tgt_Recipient : Recipient; tgt_GroupID : string; tgt_Self : bool }.

#[export] Instance Target_eq_dec : EqDecision Target.
Proof. solve_decision. Defined.

Definition SelfRecipient : string := "self".
Definition GroupPrefix : string := "group:".
Definition groupIDLen : Z := 32.

Definition Target_IsGroup (t : Target) : bool := tgt_GroupID t != ""%string.

Definition Target_String (t : Target) : string :=
  if Target_IsGroup t then (GroupPrefix ++ tgt_GroupID t)%string
  else if tgt_Self t then SelfRecipient
  else if (Username (tgt_Recipient t) != ""%string) && (ACI (tgt_Recipient t) == ""%string)
  then ("@" ++ Username (tgt_Recipient t))%string
  else Recipient_String (tgt_Recipient t).

Definition userTarget (r : Recipient) : Target := mkTarget r "" false.
Definition selfTarget : Target := mkTarget zeroRecipient "" true.
Definition groupTarget (id : string) : Target := mkTarget zeroRecipient id false.

(** ** Parsing *)

(** [strings.TrimRight(s, "=")]. *)
Fixpoint trim_right_eq (s : string) : string :=
  match s with
  | EmptyString => EmptyString
  | String a t =>
      match trim_right_eq t with
      | EmptyString => if bool_decide (a = padChar) then EmptyString else String a EmptyString
      | t' => String a t'
      end
  end.

(** [decodeGroupKey] (groups.go). *)
Definition decodeGroupKey (arg : string) : option string :=
  let raw := match DecodeString StdEncoding arg with
             | Some raw => Some raw
             | None => DecodeString RawURLEncoding (trim_right_eq arg)
             end in
  match raw with
  | Some raw => if slen raw =? groupIDLen then Some (EncodeToString StdEncoding raw) else None
  | None => None
  end.

Definition parseGroup (arg : string) : res Target :=
  match decodeGroupKey (TrimPrefix arg GroupPrefix) with
  | Some groupKey => Ok (groupTarget groupKey)
  | None => Err (errorf ErrInvalidRecipient)
  end.

Definition is_digit (a : Ascii.ascii) : bool := in_range 48 57 (byte_of a).

(** The regular expression [^\+[1-9][0-9]{1,14}$]. *)
Definition e164 (s : string) : bool :=
  match s with
  | String p (String d rest) =>
      (byte_of p =? 43) && in_range 49 57 (byte_of d) && string_forallb is_digit rest
      && (1 <=? slen rest) && (slen rest <=? 14)
  | _ => false
  end.

Section parse.
Context {U : UuidLib}.

Definition ParseRecipient (arg : string) : res Target :=
  let arg := TrimSpace arg in
  if EqualFold arg SelfRecipient then Ok selfTarget
  else if HasPrefix arg GroupPrefix then parseGroup arg
  else match cut_prefix "@" arg with
  | Some name =>
      if (name == ""%string) || negb (string_forallb (fun a => negb ((byte_of a =? 32) || (byte_of a =? 64))) name)
      then Err (errorf ErrInvalidRecipient)
      else Ok (userTarget (mkRecipient "" "" "" name))
  | None =>
      if HasPrefix arg "+" then
        if negb (e164 arg) then Err (errorf ErrInvalidRecipient) else Ok (userTarget (mkRecipient "" "" arg ""))
      else match uuid_parse arg with
           | Some aci =>
               if negb (slen arg =? slen (uuid_string uuid_nil)) then Err (errorf ErrInvalidRecipient)
               else Ok (userTarget (ofACI (uuid_string aci)))
           | None => Err (errorf ErrInvalidRecipient)
           end
  end.

(** All targets, or every error joined. *)
Fixpoint parse_args (args : list string) : list Target * list err :=
  match args with
  | [] => ([], [])
  | arg :: rest =>
      let (ts, es) := parse_args rest in
      match ParseRecipient arg with Ok t => (t :: ts, es) | Err e => (ts, e :: es) end
  end.
End parse.

Definition isOwn (target : Target) (own : Account) : bool :=
  let rcpt := tgt_Recipient target in
  tgt_Self target || (ACI rcpt == acc_ACI own)
  || ((Number rcpt != ""%string) && (Number rcpt == acc_Number own)).

Definition target_dedupe_key (t : Target) : string :=
  if Target_IsGroup t then (GroupPrefix ++ tgt_GroupID t)%string else ACI (tgt_Recipient t).

Definition dedupe (targets : list Target) : list Target := dedup_by target_dedupe_key targets.

(** ** The application *)

Class Client (W : Type) := {
  client_Account : io W err Account;
  client_Connect : io W err unit;
  client_Resolve : list Recipient -> io W err (list Recipient);
  client_Send : SendRequest -> io W err SignalSendResult;
  client_SendReceipt : Recipient -> ReceiptType -> list Z -> io W err unit;
  client_now : W -> Z * W;
}.

(** [Allowlist]: its identity (a pointer in the code) and parsed fields. The resolved entries it
    caches once are in the application state, by identity. *)
Record Allowlist := mkAllowlist { al_id : Z; al_all : bool; al_entries : list Target }.

Record App (W : Type) := mkApp {
  app_lastTimestamp : Z; app_resolved : gmap Z (list Target);
  app_sent : list SendRequest; app_receipts : list (Recipient * ReceiptType * list Z); app_world : W }.
Arguments mkApp {W}.
Arguments app_lastTimestamp {W}.
Arguments app_resolved {W}.
Arguments app_sent {W}.
Arguments app_receipts {W}.
Arguments app_world {W}.

Section app.
Context {U : UuidLib} {W : Type} {C : Client W}.

Notation M := (io (App W) err).

(** A call of the client: only its world changes. *)
Definition lift {A} (m : io W err A) : M A :=
  fun s => let (r, w) := m (app_world s) in
           (r, mkApp (app_lastTimestamp s) (app_resolved s) (app_sent s) (app_receipts s) w).

Definition get : M (App W) := fun s => (Ok s, s).
Definition put (s : App W) : M unit := fun _ => (Ok tt, s).

(** [markSelf]: the targets with ours marked, and the indices left to look up. The account is
    read once, at the first user. *)
Fixpoint markSelf_loop (i : nat) (own : option Account) (targets : list Target) : M (list Target * list nat) :=
  match targets with
  | [] => io_ret ([], [])
  | target :: rest =>
      if Target_IsGroup target then
        let* out := markSelf_loop (S i) own rest in io_ret (target :: out.1, out.2)
      else
        let* acc := match own with Some acc => io_ret acc | None => lift client_Account end in
        let* out := markSelf_loop (S i) (Some acc) rest in
        if isOwn target acc then
          io_ret (mkTarget (mkRecipient (acc_ACI acc) "" (acc_Number acc) "") "" true :: out.1, out.2)
        else if ACI (tgt_Recipient target) == ""%string then io_ret (target :: out.1, i :: out.2)
        else io_ret (target :: out.1, out.2)
  end.
Definition markSelf (targets : list Target) : M (list Target * list nat) := markSelf_loop 0 None targets.

(** Go's index panic. *)
Definition index_panic : err := Opaque "panic: index out of range".

(** [targets[i].Recipient = resolved[n]] for the pending indices. *)
Fixpoint fill (targets : list Target) (pending : list nat) (resolved : list Recipient) : res (list Target) :=
  match pending, resolved with
  | [], _ => Ok targets
  | i :: pending, r :: resolved =>
      fill (alter (fun t => mkTarget r (tgt_GroupID t) (tgt_Self t)) i targets) pending resolved
  | _ :: _, [] => Err index_panic
  end.

Definition resolveUsers (targets : list Target) : M (list Target) :=
  let* marked := markSelf targets in
  let (targets, pending) := marked : list Target * list nat in
  if len pending =? 0 then io_ret targets
  else
    let lookup := (fun i => from_option tgt_Recipient zeroRecipient (targets !! i)) <$> pending in
    let* resolved := lift (client_Resolve lookup) in
    io_of (fill targets pending resolved).

Definition ResolveRecipients (args : list string) : M (list Target) :=
  let (targets, errs) := parse_args args in
  match errorsJoin errs with
  | Some e => io_err e
  | None =>
      let* r := io_try (resolveUsers targets) in
      match r with
      | Ok targets => io_ret (dedupe targets)
      | Err e => io_err (Wrap [e])
      end
  end.

(** ** The allowlist *)

Fixpoint parse_allow (id : Z) (args : list string) : Allowlist * list err :=
  match args with
  | [] => (mkAllowlist id false [], [])
  | arg :: rest =>
      let (l, es) := parse_allow id rest in
      if TrimSpace arg == "*"%string then (mkAllowlist id true (al_entries l), es)
      else match ParseRecipient arg with
           | Ok t => (mkAllowlist id (al_all l) (t :: al_entries l), es)
           | Err e => (l, e :: es)
           end
  end.
(** [id] is the identity of the new list. *)
Definition ParseAllowlist (id : Z) (args : list string) : res Allowlist :=
  let (l, errs) := parse_allow id args in
  match errorsJoin errs with Some e => Err (Wrap [e]) | None => Ok l end.

Definition Allowlist_Empty (l : Allowlist) : bool := negb (al_all l) && (len (al_entries l) =? 0).

Definition Missing (l other : Allowlist) : list string :=
  if al_all l then []
  else (Target_String <$> filter (fun e => existsb (fun t => Target_String t == Target_String e) (al_entries l) = false)
          (al_entries other))
       ++ (if al_all other then ["*"%string] else []).

Definition sameTarget (a b : Target) : bool :=
  if Target_IsGroup a || Target_IsGroup b then tgt_GroupID a == tgt_GroupID b
  else if tgt_Self a || tgt_Self b then tgt_Self a && tgt_Self b
  else (ACI (tgt_Recipient a) != ""%string) && (ACI (tgt_Recipient a) == ACI (tgt_Recipient b)).

Definition allows (entries : list Target) (target : Target) : bool := existsb (fun e => sameTarget e target) entries.

(** The entries with their users resolved, one at a time; unknown users are left out. *)
Fixpoint resolve_entries (entries : list Target) : M (list Target) :=
  match entries with
  | [] => io_ret []
  | entry :: rest =>
      let* r := io_try (resolveUsers [entry]) in
      match r with
      | Err e =>
          if errIs e ErrNotOnSignal then resolve_entries rest else io_err (Wrap [e])
      | Ok targets =>
          let* out := resolve_entries rest in
          io_ret (from_option id entry (head targets) :: out)
      end
  end.

Definition resolveList (l : Allowlist) : M (list Target) :=
  let* s := get in
  match app_resolved s !! al_id l with
  | Some resolved => io_ret resolved
  | None =>
      let* resolved := resolve_entries (al_entries l) in
      let* s := get in
      let* _ := put (mkApp (app_lastTimestamp s) (<[al_id l := resolved]> (app_resolved s)) (app_sent s) (app_receipts s) (app_world s)) in
      io_ret resolved
  end.

Definition checkAllowed (allow : option Allowlist) (targets : list Target) : M unit :=
  match allow with
  | None => io_ret tt
  | Some l =>
      if al_all l then io_ret tt
      else
        let* allowed := resolveList l in
        if existsb (fun t => negb (allows allowed t)) targets then io_err (errorf ErrRecipientNotAllowed)
        else io_ret tt
  end.

Definition CheckRecipients (allow : option Allowlist) (args : list string) : M unit :=
  let* targets := ResolveRecipients args in checkAllowed allow targets.

Definition ChatAllowed (l : option Allowlist) (chat : Chat) : M bool :=
  match l with
  | None => io_ret false
  | Some l =>
      if Allowlist_Empty l then io_ret false
      else if al_all l then io_ret true
      else
        let target := mkTarget (ChatRecipient chat) (GroupID chat) false in
        if negb (Target_IsGroup target) && (ACI (tgt_Recipient target) == ""%string) then io_ret false
        else let* entries := resolveList l in io_ret (allows entries target)
  end.

Definition connectSendOnly : M unit :=
  let* r := io_try (lift client_Connect) in
  match r with
  | Ok _ => io_ret tt
  | Err e => if errIs e ErrAlreadyConnected then io_ret tt else io_err e
  end.
End app.

(** ** Operations that send nothing *)

Section frame.
Context {U : UuidLib} {W : Type} {C : Client W}.

(** The logs and the timestamp of the application, which only sends change. *)
Definition logs (s : App W) : Z * list SendRequest * list (Recipient * ReceiptType * list Z) :=
  (app_lastTimestamp s, app_sent s, app_receipts s).

Definition keeps_logs {A} (m : io (App W) err A) : Prop := forall s r s', m s = (r, s') -> logs s' = logs s.

Lemma keeps_ret {A} (a : A) : keeps_logs (io_ret a).
Proof. by intros s r s' [= _ <-]. Qed.
Lemma keeps_err {A} (e : err) : keeps_logs (@io_err (App W) err A e).
Proof. by intros s r s' [= _ <-]. Qed.
Lemma keeps_of {A} (x : res A) : keeps_logs (io_of x).
Proof. by intros s r s' [= _ <-]. Qed.
Lemma keeps_lift {A} (m : io W err A) : keeps_logs (lift m).
Proof. intros s r s'. unfold lift. destruct (m (app_world s)). by intros [= _ <-]. Qed.
Lemma keeps_try {A} (m : io (App W) err A) : keeps_logs m -> keeps_logs (io_try m).
Proof. intros H s r s'. unfold io_try. destruct (m s) as [r0 s0] eqn:E. intros [= _ <-]. by eapply H. Qed.
Lemma keeps_get : keeps_logs (get (W:=W)).
Proof. by intros s r s' [= _ <-]. Qed.

Lemma keeps_bind {A B} (m : io (App W) err A) (f : A -> io (App W) err B) :
  keeps_logs m -> (forall a, keeps_logs (f a)) -> keeps_logs (io_bind m f).
Proof.
  intros Hm Hf s r s'. unfold io_bind. destruct (m s) as [[a|e] s1] eqn:E.
  - intros H. rewrite (Hf _ _ _ _ H). by eapply Hm.
  - intros [= _ <-]. by eapply Hm.
Qed.

Lemma markSelf_loop_keeps i own ts : keeps_logs (markSelf_loop i own ts).
Proof.
  revert i own. induction ts as [|t ts IH]; intros i own; cbn [markSelf_loop]; [apply keeps_ret|].
  destruct (Target_IsGroup t).
  - apply keeps_bind; [apply IH|]. intros ?. apply keeps_ret.
  - apply keeps_bind; [destruct own; [apply keeps_ret|apply keeps_lift]|]. intros acc.
    apply keeps_bind; [apply IH|]. intros ?. repeat split_if; apply keeps_ret.
Qed.

Lemma resolveUsers_keeps ts : keeps_logs (resolveUsers ts).
Proof.
  unfold resolveUsers. apply keeps_bind; [apply markSelf_loop_keeps|]. intros [ts' pending].
  destruct (len pending =? 0); [apply keeps_ret|]. apply keeps_bind; [apply keeps_lift|]. intros ?. apply keeps_of.
Qed.

Lemma ResolveRecipients_keeps args : keeps_logs (ResolveRecipients args).
Proof.
  unfold ResolveRecipients. destruct (parse_args args) as [ts errs]. destruct (errorsJoin errs); [apply keeps_err|].
  apply keeps_bind; [apply keeps_try, resolveUsers_keeps|]. intros [r|e]; [apply keeps_ret|apply keeps_err].
Qed.

Lemma resolve_entries_keeps es : keeps_logs (resolve_entries es).
Proof.
  induction es as [|e es IH]; cbn [resolve_entries]; [apply keeps_ret|].
  apply keeps_bind; [apply keeps_try, resolveUsers_keeps|]. intros [r|x].
  - apply keeps_bind; [apply IH|]. intros ?. apply keeps_ret.
  - destruct (errIs x ErrNotOnSignal); [apply IH|apply keeps_err].
Qed.

Lemma resolveList_keeps l : keeps_logs (resolveList l).
Proof.
  unfold resolveList. apply keeps_bind; [apply keeps_get|]. intros s. destruct (app_resolved s !! al_id l); [apply keeps_ret|].
  apply keeps_bind; [apply resolve_entries_keeps|]. intros es s1 r s'. cbn. by intros [= _ <-].
Qed.

Lemma checkAllowed_keeps allow ts : keeps_logs (checkAllowed allow ts).
Proof.
  unfold checkAllowed. destruct allow as [l|]; [|apply keeps_ret]. destruct (al_all l); [apply keeps_ret|].
  apply keeps_bind; [apply resolveList_keeps|]. intros es. destruct (existsb _ ts); [apply keeps_err|apply keeps_ret].
Qed.

Lemma connectSendOnly_keeps : keeps_logs connectSendOnly.
Proof.
  unfold connectSendOnly. apply keeps_bind; [apply keeps_try, keeps_lift|]. intros [?|e]; [apply keeps_ret|].
  destruct (errIs e ErrAlreadyConnected); [apply keeps_ret|apply keeps_err].
Qed.

(** What a passed check means: every target matches an entry of the list as resolved. *)
Definition allowed_by (l : Allowlist) (ts : list Target) : Prop :=
  al_all l = true \/ exists s0 entries s1, resolveList l s0 = (Ok entries, s1)
    /\ forall t, t ∈ ts -> exists e, e ∈ entries /\ sameTarget e t = true.

Lemma checkAllowed_Ok l ts s u s' : checkAllowed (Some l) ts s = (Ok u, s') -> allowed_by l ts.
Proof.
  unfold checkAllowed. destruct (al_all l) eqn:Ha; [by left|]. intros H. right.
  apply io_bind_Ok in H as (entries & s1 & Hr & H). exists s, entries, s1. split; [done|].
  destruct (existsb _ ts) eqn:Hx; [done|]. intros t Ht.
  assert (Hat : allows entries t = true).
  { apply not_false_iff_true. intros Hf. apply not_true_iff_false in Hx. apply Hx, existsb_exists. exists t.
    split; [by apply list_elem_of_In|by rewrite Hf]. }
  unfold allows in Hat. apply existsb_exists in Hat as (e & He & ?). exists e. split; [by apply list_elem_of_In|done].
Qed.

Lemma ResolveRecipients_NoDup args s ts s' :
  ResolveRecipients args s = (Ok ts, s') -> NoDup (target_dedupe_key <$> ts).
Proof.
  unfold ResolveRecipients. destruct (parse_args args) as [ps errs]. destruct (errorsJoin errs); [done|].
  intros (r & s1 & _ & H)%io_bind_Ok. destruct r as [r|e]; [|done]. injection H as <- <-. apply dedup_by_NoDup.
Qed.
End frame.

(** ** Reading back *)

Section roundtrip.
Context {U : UuidLib} {UL : UuidLaws U}.

Lemma uuid_string_visible u : string_forallb visible (uuid_string u) = true.
Proof.
  pose proof (uuid_string_chars u) as H. revert H. generalize (uuid_string u) as s.
  induction s as [|a s IH]; [done|]. cbn. intros [Ha Hs]%andb_true_iff. rewrite (IH Hs), andb_true_r.
  unfold uuid_char in Ha. unfold visible, in_range, byte_of. cbv zeta in Ha.
  generalize dependent (Ascii.N_of_ascii a). intros n Hn. clear -Hn.
  rewrite !orb_true_iff, !andb_true_iff, !N.leb_le, N.eqb_eq in Hn. apply andb_true_iff. lia.
Qed.

(** Nothing but "self" and its case variants, of four runes, folds to it. *)
Lemma EqualFold_self_length s : EqualFold s SelfRecipient = true -> length (decode s) = 4%nat.
Proof.
  unfold EqualFold, runes. intros H%bool_decide_eq_true_1. apply (f_equal length) in H. by rewrite !length_fmap in H.
Qed.

Lemma visible_not_self s : string_forallb visible s = true -> String.length s <> 4%nat -> EqualFold s SelfRecipient = false.
Proof.
  intros Hv Hl. destruct (EqualFold s SelfRecipient) eqn:E; [|done].
  apply EqualFold_self_length in E. by rewrite (proj2 (decode_visible s Hv)) in E.
Qed.

Lemma decodeGroupKey_Some arg key :
  decodeGroupKey arg = Some key -> exists raw, slen raw = groupIDLen /\ key = EncodeToString StdEncoding raw.
Proof.
  unfold decodeGroupKey. intros H. case_match; [|done]. destruct (_ =? _) eqn:El; [|done].
  apply Z.eqb_eq in El. simplify_eq. eauto.
Qed.

Lemma parse_group raw : slen raw = groupIDLen ->
  ParseRecipient (GroupPrefix ++ EncodeToString StdEncoding raw) = Ok (groupTarget (EncodeToString StdEncoding raw)).
Proof.
  intros Hl. unfold ParseRecipient. set (key := EncodeToString StdEncoding raw).
  assert (Hv : string_forallb visible (GroupPrefix ++ key) = true).
  { rewrite string_forallb_app. unfold key. by rewrite encode_visible. }
  rewrite TrimSpace_visible by done. rewrite visible_not_self; [|done|change (String.length (GroupPrefix ++ key)) with (6 + String.length key)%nat; lia].
  rewrite HasPrefix_app. unfold parseGroup, decodeGroupKey. rewrite TrimPrefix_app. unfold key.
  rewrite DecodeString_EncodeToString, Hl. done.
Qed.

Lemma parse_aci u : ParseRecipient (uuid_string u) = Ok (userTarget (ofACI (uuid_string u))).
Proof.
  assert (Hp : forall a p, uuid_char a = false -> cut_prefix (String a p) (uuid_string u) = None).
  { intros a p Ha. destruct (cut_prefix _ _) as [t|] eqn:E; [|done]. apply cut_prefix_Some in E.
    pose proof (uuid_string_chars u) as Hc. rewrite E, string_app_cons in Hc. cbn in Hc. by rewrite Ha in Hc. }
  unfold ParseRecipient. rewrite TrimSpace_visible by apply uuid_string_visible.
  rewrite visible_not_self by (apply uuid_string_visible || by rewrite uuid_string_length).
  unfold HasPrefix, GroupPrefix. rewrite !Hp by reflexivity. cbn.
  rewrite uuid_parse_string. unfold slen. by rewrite !uuid_string_length.
Qed.

(** A target that was parsed prints as an argument for itself. *)
Lemma parse_target_string arg t : ParseRecipient arg = Ok t -> ParseRecipient (Target_String t) = Ok t.
Proof.
  intros H. pose proof H as Hagain. unfold ParseRecipient in H.
  assert (Htrim : Target_String t = TrimSpace arg -> ParseRecipient (Target_String t) = Ok t).
  { intros ->. unfold ParseRecipient. rewrite TrimSpace_TrimSpace. exact H. }
  destruct (EqualFold (TrimSpace arg) SelfRecipient) eqn:Es; [by simplify_eq|].
  destruct (HasPrefix (TrimSpace arg) GroupPrefix) eqn:Eg.
  { unfold parseGroup in H. destruct (decodeGroupKey _) as [key|] eqn:Ek; [|done].
    apply decodeGroupKey_Some in Ek as (raw & El & ->). simplify_eq.
    assert (Hne : EncodeToString StdEncoding raw <> ""%string) by (intros He%EncodeToString_empty; by subst raw).
    unfold Target_String, Target_IsGroup. cbn. rewrite bool_decide_eq_false_2 by done. by apply parse_group. }
  destruct (cut_prefix "@" (TrimSpace arg)) as [name|] eqn:En.
  { apply cut_prefix_Some in En. destruct (_ || _) eqn:Eb in H; [done|]. simplify_eq.
    apply orb_false_iff in Eb as [Hn%bool_decide_eq_false_1 _].
    apply Htrim. unfold Target_String. cbn. by rewrite bool_decide_eq_false_2. }
  destruct (HasPrefix (TrimSpace arg) "+") eqn:Ep.
  { destruct (e164 _) eqn:Ee in H; [|done]. cbn in H. simplify_eq.
    apply Htrim. unfold Target_String, Recipient_String. cbn. by destruct (TrimSpace arg). }
  destruct (uuid_parse (TrimSpace arg)) as [aci|] eqn:Eu; [|done]. destruct (negb _) in H; [done|]. simplify_eq.
  unfold Target_String, Recipient_String. cbn.
  rewrite (bool_decide_eq_false_2 (uuid_string aci = ""%string)) by apply uuid_string_nonempty. apply parse_aci.
Qed.

(** Parsing a recipient argument: what it accepts is one of five forms (self, a group key of 32
    bytes, a username, an E.164 number, a UUID), surrounding white space aside, and the text of the
    target it returns parses to the same target again. *)
Theorem ParseRecipient_roundtrip arg t :
  ParseRecipient arg = Ok t ->
  ParseRecipient (Target_String t) = Ok t
  /\ ((t = selfTarget /\ EqualFold (TrimSpace arg) SelfRecipient = true)
      \/ (exists raw, slen raw = groupIDLen /\ t = groupTarget (EncodeToString StdEncoding raw)
            /\ HasPrefix (TrimSpace arg) GroupPrefix = true)
      \/ (exists name, TrimSpace arg = ("@" ++ name)%string /\ name <> ""%string /\ t = userTarget (mkRecipient "" "" "" name))
      \/ (e164 (TrimSpace arg) = true /\ t = userTarget (mkRecipient "" "" (TrimSpace arg) ""))
      \/ (exists aci, uuid_parse (TrimSpace arg) = Some aci /\ t = userTarget (ofACI (uuid_string aci)))).
Proof.
  intros H. split; [by eapply parse_target_string|]. unfold ParseRecipient in H.
  destruct (EqualFold (TrimSpace arg) SelfRecipient) eqn:Es; [simplify_eq; auto|].
  destruct (HasPrefix (TrimSpace arg) GroupPrefix) eqn:Eg.
  { unfold parseGroup in H. destruct (decodeGroupKey _) as [key|] eqn:Ek; [|done].
    apply decodeGroupKey_Some in Ek as (raw & El & ->). simplify_eq. eauto 10. }
  destruct (cut_prefix "@" (TrimSpace arg)) as [name|] eqn:En.
  { apply cut_prefix_Some in En. destruct (_ || _) eqn:Eb in H; [done|]. simplify_eq.
    apply orb_false_iff in Eb as [Hn%bool_decide_eq_false_1 _]. eauto 10. }
  destruct (HasPrefix (TrimSpace arg) "+") eqn:Ep.
  { destruct (e164 _) eqn:Ee in H; [|done]. cbn in H. simplify_eq. auto 10. }
  destruct (uuid_parse (TrimSpace arg)) as [aci|] eqn:Eu; [|done]. destruct (negb _) in H; [done|]. simplify_eq. eauto 10.
Qed.
End roundtrip.

(** ** Witnesses *)

Section witnesses.
Import DemoUuid.

(** A username survives with the white space around it gone. *)
Lemma ParseRecipient_roundtrip_witness :
  ParseRecipient " @nick.01 " = Ok (userTarget (mkRecipient "" "" "" "nick.01"))
  /\ ParseRecipient "@nick.01" = Ok (userTarget (mkRecipient "" "" "" "nick.01")).
Proof.
  assert (H : ParseRecipient " @nick.01 " = Ok (userTarget (mkRecipient "" "" "" "nick.01"))) by reflexivity.
  split; [exact H|]. exact (proj1 (ParseRecipient_roundtrip _ _ H)).
Defined.
End witnesses.
