(* ===== verification/SendFlow.v ===== *)
(** * Sending (internal/app/send.go, receipts.go, viewed_receipts.go)

    [sendPreparedContent] connects, resolves, checks the allowlist, builds the content, reserves
    a timestamp and sends to all users in one request and to every group in one of its own. The
    ghost log [app_sent] has the requests handed to the client, [app_receipts] the receipts. *)

From S2P Require Import Prelude Errors Uuid Utf8 Strconv Types SendCheck Recipients.

Record content := mkContent {
  cnt_pin : option OutgoingPin; cnt_unpin : option OutgoingUnpin; cnt_pollCreate : option Poll;
  cnt_pollVote : option OutgoingPollVote; cnt_pollClose : option OutgoingPollClose;
  cnt_sticker : option OutgoingSticker; cnt_body : string; cnt_quote : option Quote;
  cnt_mentions : list Mention; cnt_styles : list TextStyle; cnt_attachments : list UploadedAttachment;
  cnt_reaction : option OutgoingReaction; cnt_deleteTarget : Z; cnt_editTarget : Z }.

(** [content.request] with its destination. *)
Definition request (msg : content) (timestamp : Z) (recipients : list Recipient) (groupID : string) : SendRequest :=
  mkSendRequest recipients groupID (cnt_body msg) timestamp (cnt_editTarget msg) (cnt_attachments msg)
    (cnt_sticker msg) None (cnt_pollCreate msg) (cnt_pollVote msg) (cnt_pollClose msg) (cnt_pin msg) (cnt_unpin msg)
    (cnt_quote msg) (cnt_mentions msg) (cnt_styles msg) (cnt_reaction msg) (cnt_deleteTarget msg).

Record TargetResult := mkTargetResult {
  tr_Target : Target; tr_Unidentified : bool; tr_Members : list RecipientResult; tr_Err : error }.
Record SendResult := mkSendResult { sres_Timestamp : Z; sres_Results : list TargetResult }.

Definition FailedMembers (r : TargetResult) : Z := len (filter (fun m => is_set (rr_Err m) = true) (tr_Members r)).
Definition TargetResult_OK (r : TargetResult) : bool := negb (is_set (tr_Err r)) && (FailedMembers r =? 0).
Definition Failed (r : SendResult) : Z := len (filter (fun t => TargetResult_OK t = false) (sres_Results r)).

(** [SendResult.err]. *)
Definition SendResult_err (r : SendResult) : error :=
  if Failed r =? 0 then None
  else match find (fun t => match tr_Err t with Some e => errIs e ErrDeviceUnlinked | None => false end) (sres_Results r) with
       | Some t => Some (Wrap [Wrap [Sent ErrSendFailed]; default (Sent ErrSendFailed) (tr_Err t)])
       | None => Some (Wrap [Sent ErrSendFailed])
       end.

Definition set_err (r : TargetResult) (e : error) : TargetResult :=
  mkTargetResult (tr_Target r) (tr_Unidentified r) (tr_Members r) e.

(** The per-user results of one request, in the order of the users. *)
Fixpoint user_results (sent : res SignalSendResult) (answers : list RecipientResult) (results : list TargetResult)
    : list TargetResult :=
  match results with
  | [] => []
  | r :: rest =>
      if Target_IsGroup (tr_Target r) then r :: user_results sent answers rest
      else match sent with
           | Err e => set_err r (Some e) :: user_results sent answers rest
           | Ok _ =>
               match answers with
               | a :: answers => mkTargetResult (tr_Target r) (rr_Unidentified a) (tr_Members r) (rr_Err a)
                                 :: user_results sent answers rest
               | [] => set_err r (Some (Sent errNoResult)) :: user_results sent [] rest
               end
           end
  end.

Section send.
Context {U : UuidLib} {W : Type} {C : Client W} (allow : option Allowlist).

Notation M := (io (App W) err).

(** A request handed to the client, logged. *)
Definition send_request (req : SendRequest) : M SignalSendResult :=
  let* s := get in
  let* _ := put (mkApp (app_lastTimestamp s) (app_resolved s) (app_sent s ++ [req]) (app_receipts s) (app_world s)) in
  lift (client_Send req).

Definition send_receipt (rcpt : Recipient) (typ : ReceiptType) (timestamps : list Z) : M unit :=
  let* s := get in
  let* _ := put (mkApp (app_lastTimestamp s) (app_resolved s) (app_sent s)
                   (app_receipts s ++ [(rcpt, typ, timestamps)]) (app_world s)) in
  lift (client_SendReceipt rcpt typ timestamps).

(** [nextTimestamp]: the wall clock, but always after the last one. *)
Definition nextTimestamp : M Z := fun s =>
  let (now, w) := client_now (app_world s) in
  let t := Z.max (to_uint64 (UnixMilli now)) (to_uint64 (app_lastTimestamp s + 1)) in
  (Ok t, mkApp t (app_resolved s) (app_sent s) (app_receipts s) w).

Definition sendToUsers (msg : content) (timestamp : Z) (results : list TargetResult) : M (list TargetResult) :=
  let users := (fun r => tgt_Recipient (tr_Target r)) <$> filter (fun r => Target_IsGroup (tr_Target r) = false) results in
  if len users =? 0 then io_ret results
  else
    let* sent := io_try (send_request (request msg timestamp users "")) in
    io_ret (user_results sent (match sent with Ok r => sr_Results r | Err _ => [] end) results).

Fixpoint sendToGroups (msg : content) (timestamp : Z) (results : list TargetResult) : M (list TargetResult) :=
  match results with
  | [] => io_ret []
  | r :: rest =>
      if negb (Target_IsGroup (tr_Target r)) then
        let* out := sendToGroups msg timestamp rest in io_ret (r :: out)
      else
        let* sent := io_try (send_request (request msg timestamp [] (tgt_GroupID (tr_Target r)))) in
        let r' := match sent with
                  | Err e => set_err r (Some e)
                  | Ok answer => mkTargetResult (tr_Target r) (tr_Unidentified r) (sr_Results answer) (tr_Err r)
                  end in
        let* out := sendToGroups msg timestamp rest in io_ret (r' :: out)
  end.

(** The result and its error; the earlier failures have no result. [build] is a closure that may
    set variables of its caller: [X] is what it sets. *)
Definition sendCapturing {X} (recipients : list string) (build : list Target -> M (content * X))
    : M (X * (SendResult * error)) :=
  let* _ := connectSendOnly in
  let* targets := ResolveRecipients recipients in
  let* _ := checkAllowed allow targets in
  let* built := build targets in
  let (msg, captured) := built : content * X in
  let* timestamp := nextTimestamp in
  let results := (fun t => mkTargetResult t false [] None) <$> targets in
  let* results := sendToUsers msg timestamp results in
  let* results := sendToGroups msg timestamp results in
  let out := mkSendResult timestamp results in
  io_ret (captured, (out, SendResult_err out)).

(** [build] with nothing captured. *)
Definition building (build : list Target -> M content) (targets : list Target) : M (content * unit) :=
  let* msg := build targets in io_ret (msg, tt).

Definition sendPreparedContent (recipients : list string) (build : list Target -> M content)
    : M (SendResult * error) :=
  let* out := sendCapturing recipients (building build) in io_ret out.2.

Definition sendContent (recipients : list string) (build : M content) : M (SendResult * error) :=
  sendPreparedContent recipients (fun _ => build).

(** [checkEdit]: edits need a past target and text. *)
Definition app_checkEdit (editTarget : Z) (body : string) : M unit := fun s =>
  if editTarget =? 0 then (Ok tt, s)
  else
    let (now, w) := client_now (app_world s) in
    let s := mkApp (app_lastTimestamp s) (app_resolved s) (app_sent s) (app_receipts s) w in
    if (to_uint64 (UnixMilli now) <=? editTarget) || (TrimSpace body == ""%string) then (Err (errorf ErrInvalidEdit), s)
    else (Ok tt, s).

Definition checkRecipients (args : list string) : list err :=
  if len args =? 0 then [Sent ErrNoRecipients] else (parse_args args).2.

(** ** Message references (content.go) *)

Definition parseTimestamp (arg : string) : res Z :=
  match ParseUint (TrimSpace arg) with
  | Some t => if t =? 0 then Err (Sent errBadTimestamp) else Ok t
  | None => Err (Sent errBadTimestamp)
  end.

(** ** Read receipts (receipts.go) *)

Record pendingReceipt := mkPendingReceipt { pr_sender : Recipient; pr_timestamps : list Z }.

Definition incomingMessage (evt : Event) : option Envelope :=
  match evt with
  | EvMessage env _ =>
      if env_Sync env || (ACI (env_Sender env) == ""%string) || (env_Timestamp env =? 0) then None else Some env
  | _ => None
  end.

Definition add_timestamp (t : Z) (ts : list Z) : list Z := if bool_decide (t ∈ ts) then ts else ts ++ [t].

Fixpoint queue_receipt (env : Envelope) (pending : list pendingReceipt) : list pendingReceipt :=
  match pending with
  | [] => [mkPendingReceipt (env_Sender env) [env_Timestamp env]]
  | p :: rest =>
      if ACI (pr_sender p) == ACI (env_Sender env)
      then mkPendingReceipt (pr_sender p) (add_timestamp (env_Timestamp env) (pr_timestamps p)) :: rest
      else p :: queue_receipt env rest
  end.

(** [ReadReceipts.Add]: the new queue, and whether a receipt was queued. *)
Definition ReadReceipts_Add (pending : list pendingReceipt) (evt : Event) : list pendingReceipt * bool :=
  match incomingMessage evt with
  | None => (pending, false)
  | Some env => (queue_receipt env pending, true)
  end.

Definition ReadReceipts_Pending (pending : list pendingReceipt) : bool := 0 <? len pending.

Fixpoint flush_all (pending : list pendingReceipt) : M (list err) :=
  match pending with
  | [] => io_ret []
  | p :: rest =>
      let* r := io_try (send_receipt (pr_sender p) ReceiptRead (pr_timestamps p)) in
      let* errs := flush_all rest in
      io_ret (match r with Err e => Wrap [e] :: errs | Ok _ => errs end)
  end.

(** [ReadReceipts.Flush]: the queue is empty afterwards, whatever fails. *)
Definition ReadReceipts_Flush (pending : list pendingReceipt) : M (list pendingReceipt * error) :=
  let* errs := flush_all pending in io_ret ([], errorsJoin errs).

(** ** Viewed receipts (viewed_receipts.go) *)

Definition validateViewedReceipt (sender : string) (timestamps : list Z) : res (Target * list Z) :=
  target ← ParseRecipient sender;
  if Target_IsGroup target || tgt_Self target then Err (errorf ErrInvalidRecipient)
  else if (len timestamps =? 0) || bool_decide (0 ∈ timestamps) then Err (errorf ErrInvalidReceipt)
  else Ok (target, foldl (fun ts t => add_timestamp t ts) [] timestamps).

Definition rejectOwnViewedSender (target : Target) : M unit :=
  let* own := lift client_Account in
  if isOwn target own then io_err (errorf ErrInvalidRecipient) else io_ret tt.

Definition SendViewedReceipt (sender : string) (timestamps : list Z) : M (Recipient * list Z) :=
  let* v := io_of (validateViewedReceipt sender timestamps) in
  let (target, timestamps) := v : Target * list Z in
  let* _ := rejectOwnViewedSender target in
  let* _ := connectSendOnly in
  let* targets := ResolveRecipients [sender] in
  match targets with
  | [] => io_err index_panic
  | resolved :: _ =>
      let* _ := rejectOwnViewedSender resolved in
      let* _ := checkAllowed allow targets in
      let* _ := send_receipt (tgt_Recipient resolved) ReceiptViewed timestamps in
      io_ret (tgt_Recipient resolved, timestamps)
  end.
End send.

(** ** What a send does *)

Section send_spec.
Context {U : UuidLib} {W : Type} {C : Client W} (allow : option Allowlist).

(** The requests of a message: one for all users, then one per group. *)
Definition user_request (msg : content) (ts : Z) (targets : list Target) : list SendRequest :=
  let users := tgt_Recipient <$> filter (fun t => Target_IsGroup t = false) targets in
  match users with [] => [] | _ => [request msg ts users ""] end.
Definition group_requests (msg : content) (ts : Z) (targets : list Target) : list SendRequest :=
  (fun t => request msg ts [] (tgt_GroupID t)) <$> filter (fun t => Target_IsGroup t = true) targets.

Definition sent_more (s s' : App W) (reqs : list SendRequest) : Prop :=
  logs s' = (app_lastTimestamp s, app_sent s ++ reqs, app_receipts s).

Lemma send_request_run req s : exists r s', send_request req s = (r, s') /\ sent_more s s' [req].
Proof.
  unfold send_request, io_bind, get, put, lift. cbn. destruct (client_Send req (app_world s)) as [r w].
  by do 2 eexists.
Qed.

Lemma user_results_targets sent answers results :
  tr_Target <$> user_results sent answers results = tr_Target <$> results.
Proof.
  revert answers. induction results as [|r rs IH]; intros answers; cbn; [done|].
  destruct (Target_IsGroup (tr_Target r)); cbn; [by rewrite IH|].
  destruct sent; [destruct answers|]; cbn; by rewrite IH.
Qed.

Lemma sendToUsers_run msg ts results s :
  exists out s', sendToUsers msg ts results s = (Ok out, s')
    /\ tr_Target <$> out = tr_Target <$> results
    /\ sent_more s s' (user_request msg ts (tr_Target <$> results)).
Proof.
  unfold sendToUsers, user_request. cbv zeta.
  replace (tgt_Recipient <$> filter (fun t => Target_IsGroup t = false) (tr_Target <$> results))
    with ((fun r => tgt_Recipient (tr_Target r)) <$> filter (fun r => Target_IsGroup (tr_Target r) = false) results).
  2: { rewrite filter_fmap, <- list_fmap_compose. done. }
  destruct (fmap _ (filter _ results)) as [|u us] eqn:E; cbn [len length Z.of_nat Z.eqb].
  - exists results, s. split_and!; [done|done|]. unfold sent_more, logs. by rewrite app_nil_r.
  - change (len (u :: us) =? 0) with false. cbv iota. unfold io_bind, io_try.
    destruct (send_request_run (request msg ts (u :: us) "") s) as (r & s' & -> & Hs).
    cbn. do 2 eexists. split_and!; [reflexivity|apply user_results_targets|done].
Qed.

Lemma sent_more_trans s s1 s2 a b : sent_more s s1 a -> sent_more s1 s2 b -> sent_more s s2 (a ++ b).
Proof. unfold sent_more, logs. intros [= H1 H2 H3] [= H4 H5 H6]. rewrite H4, H5, H6, H1, H2, H3. by rewrite app_assoc. Qed.

Lemma sendToGroups_run msg ts results s :
  exists out s', sendToGroups msg ts results s = (Ok out, s')
    /\ tr_Target <$> out = tr_Target <$> results
    /\ sent_more s s' (group_requests msg ts (tr_Target <$> results)).
Proof.
  revert s. induction results as [|r rs IH]; intros s; cbn [sendToGroups].
  { exists [], s. split_and!; [done|done|]. unfold sent_more, logs. cbn. by rewrite app_nil_r. }
  unfold group_requests. cbn [fmap list_fmap]. rewrite filter_cons.
  destruct (Target_IsGroup (tr_Target r)) eqn:Hg; cbn [negb].
  - unfold io_bind, io_try.
    destruct (send_request_run (request msg ts [] (tgt_GroupID (tr_Target r))) s) as (a & s1 & -> & Hs1).
    cbn. destruct (IH s1) as (out & s2 & -> & Ht & Hs2). cbn. do 2 eexists. split_and!; [reflexivity| |].
    + cbn. f_equal; [by destruct a|done].
    + by apply (sent_more_trans s s1 s2 [_]).
  - unfold io_bind. destruct (IH s) as (out & s2 & -> & Ht & Hs2). cbn. do 2 eexists. split_and!; [reflexivity| |done].
    cbn. by rewrite Ht.
Qed.

Lemma SendResult_err_None r : SendResult_err r = None <-> forall t, t ∈ sres_Results r -> TargetResult_OK t = true.
Proof.
  unfold SendResult_err, Failed. destruct (len (filter _ _) =? 0) eqn:E; bool_hyps.
  - split; [|done]. intros _ t Ht. apply len_zero in E. apply not_false_iff_true. intros Hf.
    assert (Hin : t ∈ filter (fun t => TargetResult_OK t = false) (sres_Results r)) by by apply list_elem_of_filter.
    rewrite E in Hin. by apply elem_of_nil in Hin.
  - split; [destruct (find _ _); done|]. intros H. exfalso. apply E, len_zero, elem_of_nil_inv.
    intros t [Hf Ht]%list_elem_of_filter. apply H in Ht. congruence.
Qed.

(** What a send that came to sending has done, for the targets it resolved and the content built
    for them. *)
Definition sends (s s' : App W) (targets : list Target) (msg : content) (out : SendResult) (e : error) : Prop :=
  app_sent s' = app_sent s ++ user_request msg (sres_Timestamp out) targets
                           ++ group_requests msg (sres_Timestamp out) targets
  /\ NoDup (target_dedupe_key <$> targets)
  /\ (forall l, allow = Some l -> allowed_by l targets)
  /\ app_lastTimestamp s < sres_Timestamp out /\ app_lastTimestamp s' = sres_Timestamp out
  /\ tr_Target <$> sres_Results out = targets
  /\ (e = None <-> forall t, t ∈ sres_Results out -> TargetResult_OK t = true).

Lemma nextTimestamp_run s : exists ts w, nextTimestamp s = (Ok ts, mkApp ts (app_resolved s) (app_sent s) (app_receipts s) w)
  /\ (0 <= app_lastTimestamp s < MaxUint64 -> app_lastTimestamp s < ts).
Proof.
  unfold nextTimestamp. destruct (client_now _) as [now w]. eexists _, w. split; [reflexivity|]. intros H.
  rewrite (to_uint64_id (app_lastTimestamp s + 1)) by (unfold is_uint64; lia). lia.
Qed.

Lemma sendCapturing_run {X} recipients (build : list Target -> io (App W) err (content * X)) s :
  (forall targets, keeps_logs (build targets)) -> 0 <= app_lastTimestamp s < MaxUint64 ->
  match sendCapturing allow recipients build s with
  | (Err _, s') => logs s' = logs s
  | (Ok (x, (out, e)), s') => exists targets msg s1 s2 s3 s4,
      ResolveRecipients recipients s1 = (Ok targets, s2) /\ logs s3 = logs s
      /\ build targets s3 = (Ok (msg, x), s4) /\ sends s s' targets msg out e
  end.
Proof.
  intros Hb Hmax. unfold sendCapturing. unfold io_bind at 1.
  destruct (connectSendOnly s) as [[u|e] s1] eqn:E1; [|by eapply connectSendOnly_keeps].
  apply connectSendOnly_keeps in E1. unfold io_bind at 1.
  destruct (ResolveRecipients recipients s1) as [[targets|e] s2] eqn:E2;
    [|apply ResolveRecipients_keeps in E2; congruence].
  pose proof (ResolveRecipients_NoDup _ _ _ _ E2) as Hnd. pose proof (ResolveRecipients_keeps _ _ _ _ E2) as K2. unfold io_bind at 1.
  destruct (checkAllowed allow targets s2) as [[v|e] s3] eqn:E3; [|apply checkAllowed_keeps in E3; congruence].
  assert (Hall : forall l, allow = Some l -> allowed_by l targets) by (intros l ->; by eapply checkAllowed_Ok).
  apply checkAllowed_keeps in E3. unfold io_bind at 1.
  destruct (build targets s3) as [[[msg x]|e] s4] eqn:E4; [|apply Hb in E4; congruence].
  pose proof (Hb _ _ _ _ E4) as K4. unfold io_bind at 1. destruct (nextTimestamp_run s4) as (ts & w & -> & Hts). unfold io_bind at 1.
  destruct (sendToUsers_run msg ts ((fun t => mkTargetResult t false [] None) <$> targets)
    (mkApp ts (app_resolved s4) (app_sent s4) (app_receipts s4) w)) as (out1 & s5 & -> & Ht1 & H5).
  unfold io_bind at 1. destruct (sendToGroups_run msg ts out1 s5) as (out2 & s6 & -> & Ht2 & H6). cbn.
  assert (Htg : tr_Target <$> ((fun t => mkTargetResult t false [] None) <$> targets) = targets).
  { rewrite <- list_fmap_compose. apply list_fmap_id. }
  rewrite Ht1, Htg in *. pose proof (sent_more_trans _ _ _ _ _ H5 H6) as H.
  unfold sent_more, logs in *. cbn in H. injection H as Hl Hsent _.
  assert (Hs : logs s4 = logs s) by (unfold logs; congruence). unfold logs in Hs. injection Hs as Hlast Hsent4 _.
  exists targets, msg, s1, s2, s3, s4. split_and!; [done|congruence|done|]. unfold sends. cbn [sres_Timestamp sres_Results]. rewrite Hsent, Hl, Hsent4.
  split_and!; try done; [rewrite <- Hlast; apply Hts; by rewrite Hlast|apply (SendResult_err_None (mkSendResult ts out2))].
Qed.

Lemma building_keeps (build : list Target -> io (App W) err content) targets : keeps_logs (build targets) -> keeps_logs (building build targets).
Proof. intros H. apply keeps_bind; [done|]. intros ?. apply keeps_ret. Qed.

Lemma sendPreparedContent_run recipients build s :
  (forall targets, keeps_logs (build targets)) -> 0 <= app_lastTimestamp s < MaxUint64 ->
  match sendPreparedContent allow recipients build s with
  | (Err _, s') => logs s' = logs s
  | (Ok (out, e), s') => exists targets msg s1 s2 s3 s4,
      ResolveRecipients recipients s1 = (Ok targets, s2) /\ logs s3 = logs s
      /\ build targets s3 = (Ok msg, s4) /\ sends s s' targets msg out e
  end.
Proof.
  intros Hb Hmax. unfold sendPreparedContent, io_bind.
  pose proof (sendCapturing_run recipients (building build) s (fun ts => building_keeps build ts (Hb ts)) Hmax) as H.
  destruct (sendCapturing allow recipients (building build) s) as [[[x [out e]]|e] s']; [|done]. cbn.
  destruct H as (targets & msg & s1 & s2 & s3 & s4 & H1 & H3 & Hbuild & Hs). exists targets, msg, s1, s2, s3, s4. split_and!; try done.
  unfold building, io_bind in Hbuild. destruct (build targets s3) as [[m|] s5]; [|done]. injection Hbuild as <- _ <-. done.
Qed.

End send_spec.

(** ** Read receipts *)

Section receipts.
Context {W : Type} {C : Client W}.

(** The queue after some events. *)
Definition queued (evts : list Event) : list pendingReceipt :=
  foldl (fun q evt => (ReadReceipts_Add q evt).1) [] evts.

Definition covers (q : list pendingReceipt) (aci : string) (t : Z) : Prop :=
  exists p, p ∈ q /\ ACI (pr_sender p) = aci /\ t ∈ pr_timestamps p.

Definition queue_ok (q : list pendingReceipt) : Prop :=
  NoDup ((fun p => ACI (pr_sender p)) <$> q) /\ forall p, p ∈ q -> NoDup (pr_timestamps p).

Lemma add_timestamp_elem t ts x : x ∈ add_timestamp t ts <-> x = t \/ x ∈ ts.
Proof.
  unfold add_timestamp. case_bool_decide as H; [naive_solver|].
  rewrite elem_of_app, list_elem_of_singleton. tauto.
Qed.

Lemma add_timestamp_NoDup t ts : NoDup ts -> NoDup (add_timestamp t ts).
Proof.
  intros Hn. unfold add_timestamp. case_bool_decide as H; [done|]. apply NoDup_app. split_and!; [done| |apply NoDup_singleton].
  by intros x Hx ->%list_elem_of_singleton.
Qed.

Lemma queue_receipt_senders env q :
  (fun p => ACI (pr_sender p)) <$> queue_receipt env q
  = (fun p => ACI (pr_sender p)) <$> q ++ (if bool_decide (ACI (env_Sender env) ∈ (fun p => ACI (pr_sender p)) <$> q)
      then [] else [mkPendingReceipt (env_Sender env) []]).
Proof.
  induction q as [|p q IH]; [done|]. cbn. destruct (bool_decide (ACI (pr_sender p) = _)) eqn:E; bool_hyps.
  - rewrite bool_decide_eq_true_2 by (rewrite E; by left). cbn. by rewrite app_nil_r.
  - cbn. rewrite IH. f_equal. f_equal. f_equal.
    rewrite (bool_decide_ext _ (ACI (env_Sender env) ∈ ACI (pr_sender p) :: ((fun p => ACI (pr_sender p)) <$> q))); [done|].
    rewrite elem_of_cons. split; [by right|]. intros [Eq|?]; [by destruct E|done].
Qed.

Lemma queue_receipt_ok env q : queue_ok q -> queue_ok (queue_receipt env q).
Proof.
  intros [Hn Ht]. split.
  - rewrite queue_receipt_senders, fmap_app. case_bool_decide as H; [by rewrite app_nil_r|].
    apply NoDup_app. split_and!; [done| |apply NoDup_singleton]. by intros x Hx ->%list_elem_of_singleton.
  - clear Hn. induction q as [|p q IH]; cbn.
    + intros x ->%list_elem_of_singleton. apply NoDup_singleton.
    + destruct (bool_decide _); intros x [->|Hx]%elem_of_cons.
      * apply add_timestamp_NoDup, Ht. by left.
      * apply Ht. by right.
      * apply Ht. by left.
      * apply IH; [|done]. intros y Hy. apply Ht. by right.
Qed.

Lemma queue_receipt_covers env q aci t :
  covers (queue_receipt env q) aci t <-> covers q aci t \/ (aci = ACI (env_Sender env) /\ t = env_Timestamp env).
Proof.
  induction q as [|p q IH]; cbn.
  - split.
    + intros (x & ->%list_elem_of_singleton & <- & ->%list_elem_of_singleton). by right.
    + intros [(x & ?%elem_of_nil & _)|[-> ->]]; [done|]. eexists. split; [by left|]. cbn. split; [done|by left].
  - destruct (bool_decide (ACI (pr_sender p) = _)) eqn:E; bool_hyps; split.
    + intros (x & [->|Hx]%elem_of_cons & <- & Hin).
      * cbn in *. apply add_timestamp_elem in Hin as [->|?]; [by right|]. left. exists p. split_and!; [by left|done..].
      * left. exists x. split_and!; [by right|done..].
    + intros [(x & [->|Hx]%elem_of_cons & <- & Hin)|[-> ->]].
      * eexists. split; [by left|]. cbn. split; [done|]. apply add_timestamp_elem. by right.
      * exists x. split_and!; [by right|done..].
      * eexists. split; [by left|]. cbn. split; [done|]. apply add_timestamp_elem. by left.
    + intros (x & [->|Hx]%elem_of_cons & <- & Hin).
      * left. exists p. split_and!; [by left|done..].
      * destruct (proj1 IH) as [(y & ? & ? & ?)|?]; [by exists x| |by right].
        left. exists y. split_and!; [by right|done..].
    + intros [(x & [->|Hx]%elem_of_cons & <- & Hin)|H].
      * exists p. split_and!; [by left|done..].
      * destruct (proj2 IH) as (y & ? & ? & ?); [left; by exists x|]. exists y. split_and!; [by right|done..].
      * destruct (proj2 IH) as (y & ? & ? & ?); [by right|]. exists y. split_and!; [by right|done..].
Qed.

Lemma flush_all_run q (s : App W) :
  exists errs s', flush_all q s = (Ok errs, s')
    /\ logs s' = (app_lastTimestamp s, app_sent s,
         app_receipts s ++ ((fun p => (pr_sender p, ReceiptRead, pr_timestamps p)) <$> q)).
Proof.
  revert s. induction q as [|p q IH]; intros s; cbn [flush_all].
  { exists [], s. split; [done|]. unfold logs. cbn. by rewrite app_nil_r. }
  unfold io_bind, io_try, send_receipt, io_bind, get, put, lift. cbn.
  destruct (client_SendReceipt _ _ _ (app_world s)) as [r w]. cbn.
  destruct (IH (mkApp (app_lastTimestamp s) (app_resolved s) (app_sent s)
    (app_receipts s ++ [(pr_sender p, ReceiptRead, pr_timestamps p)]) w)) as (errs & s' & Hrun & Hl).
  destruct r; cbn; rewrite Hrun; cbn; do 2 eexists; (split; [reflexivity|]); rewrite Hl; cbn; by rewrite <- app_assoc.
Qed.

(** Read receipts: after any events the queue has one receipt per sender with distinct
    timestamps, covering exactly the messages other users sent us; flushing hands the client
    one read receipt per queued sender, in order, and leaves an empty queue even when sending
    fails. *)
Theorem ReadReceipts_spec evts (s : App W) :
  queue_ok (queued evts)
  /\ (forall aci t, covers (queued evts) aci t <->
       exists env m, EvMessage env m ∈ evts /\ env_Sync env = false /\ ACI (env_Sender env) = aci
         /\ aci <> ""%string /\ env_Timestamp env = t /\ t <> 0)
  /\ exists e s', ReadReceipts_Flush (queued evts) s = (Ok ([], e), s')
       /\ logs s' = (app_lastTimestamp s, app_sent s,
            app_receipts s ++ ((fun p => (pr_sender p, ReceiptRead, pr_timestamps p)) <$> queued evts)).
Proof.
  split_and!.
  - unfold queued. induction evts as [|e evts IH] using rev_ind; [split; [constructor|by intros ? ?%elem_of_nil]|].
    rewrite foldl_app. cbn. unfold ReadReceipts_Add. destruct (incomingMessage e); [by apply queue_receipt_ok|done].
  - intros aci t. unfold queued. induction evts as [|e evts IH] using rev_ind.
    { split; [by intros (? & ?%elem_of_nil & _)|by intros (? & ? & ?%elem_of_nil & _)]. }
    rewrite foldl_app. cbn. unfold ReadReceipts_Add.
    transitivity (covers (foldl (fun q evt => (ReadReceipts_Add q evt).1) [] evts) aci t
                  \/ exists env, incomingMessage e = Some env /\ aci = ACI (env_Sender env) /\ t = env_Timestamp env).
    { destruct (incomingMessage e) as [env|]; cbn; [rewrite queue_receipt_covers; naive_solver|naive_solver]. }
    rewrite IH. split.
    + intros [(env & m & Hin & H)|(env & He & -> & ->)].
      * exists env, m. rewrite elem_of_app. tauto.
      * destruct e; cbn in He; try done. destruct (_ || _) eqn:Hx in He; [done|]. injection He as ->. bool_hyps.
        exists env, m. rewrite elem_of_app, list_elem_of_singleton. naive_solver.
    + intros (env & m & [Hin|Hin]%elem_of_app & Hs & Ha & Hne & Ht & Hz); [left; exists env, m; tauto|].
      apply list_elem_of_singleton in Hin as <-. right. exists env. split; [|done]. cbn. subst.
      rewrite Hs, (bool_decide_eq_false_2 (_ = ""%string)) by done. cbn.
      by rewrite (proj2 (Z.eqb_neq _ _) Hz).
  - destruct (flush_all_run (queued evts) s) as (errs & s' & Hrun & Hl). unfold ReadReceipts_Flush, io_bind.
    rewrite Hrun. by do 2 eexists.
Qed.
End receipts.

(** ** Witness *)

Section witnesses.
Import DemoUuid.

Definition demo_user : string := "22222222-2222-4222-8222-222222222222".

(** A client that is always connected, knows everybody and sends everything at time 9 ms. *)
#[local] Instance demo_client : Client unit := {|
  client_Account := io_ret (mkAccount "+4915112345678" "11111111-1111-4111-8111-111111111111" "" 1 "" 0 0 zero_time);
  client_Connect := io_ret tt;
  client_Resolve := fun rs => io_ret rs;
  client_Send := fun req => io_ret (mkSigResult (req_Timestamp req) ((fun r => mkRcptResult r false None) <$> req_Recipients req) None);
  client_SendReceipt := fun _ _ _ => io_ret tt;
  client_now := fun w => (9000000, w) |}.

Definition demo_content : content := mkContent None None None None None None "hi" None [] [] [] None 0 0.

End witnesses.
