(* ===== verification/Content.v ===== *)
(** * Message text: mentions, styles and message references (internal/app/content.go, styles.go, react.go)

    What the application reads out of the arguments of a message before it connects: [parseMentions],
    [parseStyles], [ParseQuote] and [ParseTarget]. *)

From S2P Require Import Prelude Errors Uuid Utf8 Strconv Types SendCheck Recipients SendFlow.

Definition mentionPlaceholder : string :=
  String (ascii_of 239) (String (ascii_of 191) (String (ascii_of 188) EmptyString)).
Definition mentionLength : Z := 1.

(** A placeholder found in a body; [mtn_start] is in UTF-16 units of the rewritten body. *)
Record mention := mkPlaceholder { mtn_start : Z; mtn_target : Target }.

(** [regexp] matches [@\{([^{}\s]+)\}] from the left. *)
Definition open_ : string := "@{".
Definition close : string := "}".
Definition mention_char (a : Ascii.ascii) : bool :=
  let b := byte_of a in
  negb ((b =? 123) || (b =? 125) || in_range 9 10 b || in_range 12 13 b || (b =? 32)).

(** The longest prefix of such characters and the rest. *)
Fixpoint span (f : Ascii.ascii -> bool) (s : string) : string * string :=
  match s with
  | EmptyString => (EmptyString, EmptyString)
  | String a t => if f a then let (x, y) := span f t in (String a x, y) else (EmptyString, s)
  end.

Definition match_here (s : string) : option (string * string) :=
  rest ← cut_prefix open_ s;
  let (arg, rest) := span mention_char rest in
  if arg == ""%string then None
  else rest ← cut_prefix close rest; Some (arg, rest).

(** The text before the first match, its group and the rest. *)
Fixpoint next_match (s : string) : option (string * string * string) :=
  match s with
  | EmptyString => None
  | String a t =>
      match match_here s with
      | Some (arg, rest) => Some (EmptyString, arg, rest)
      | None =>
          match next_match t with
          | Some (before, arg, rest) => Some (String a before, arg, rest)
          | None => None
          end
      end
  end.

(** [FindAllStringSubmatchIndex]: every match with the text before it, and the text after the last. *)
Fixpoint find_all (fuel : nat) (s : string) : list (string * string) * string :=
  match fuel with
  | O => ([], s)
  | S fuel =>
      match next_match s with
      | Some (before, arg, rest) => let (ms, tail) := find_all fuel rest in ((before, arg) :: ms, tail)
      | None => ([], s)
      end
  end.

Section content.
Context {U : UuidLib}.

(** The loop: [skipped] is [body[last:]] up to the current match, [out] what is written. *)
Fixpoint mention_loop (matches : list (string * string)) (skipped out : string) (units : Z) (mentions : list mention)
    : string * string * list mention :=
  match matches with
  | [] => (out, skipped, mentions)
  | (gap, arg) :: rest =>
      match ParseRecipient arg with
      | Ok target =>
          if Target_IsGroup target then mention_loop rest (skipped ++ gap ++ open_ ++ arg ++ close) out units mentions
          else
            let before := (skipped ++ gap)%string in
            let units := units + utf16_len before in
            mention_loop rest "" (out ++ before ++ mentionPlaceholder) (units + mentionLength)
              (mentions ++ [mkPlaceholder (units mod (MaxUint32 + 1)) target])
      | Err _ => mention_loop rest (skipped ++ gap ++ open_ ++ arg ++ close) out units mentions
      end
  end.

Definition parseMentions (body : string) : string * list mention :=
  let (matches, tail) := find_all (String.length body) body in
  let '(out, skipped, mentions) := mention_loop matches "" "" 0 [] in
  ((out ++ skipped ++ tail)%string, mentions).

(** ** Message references *)

Definition colon_char : Ascii.ascii := ascii_of 58.

Definition parseMessageRef (arg : string) (kind : sentinel) : res (Target * Z) :=
  match cut_last arg colon_char with
  | None => Err (errorf kind)
  | Some (author, timestamp) =>
      match parseTimestamp timestamp with
      | Err e => Err (Wrap [Sent kind; e])
      | Ok timestamp =>
          match ParseRecipient author with
          | Err e => Err (Wrap [Sent kind; e])
          | Ok target => if Target_IsGroup target then Err (errorf kind) else Ok (target, timestamp)
          end
      end
  end.

Definition ParseQuote (arg : string) : res (Target * Z) := parseMessageRef arg ErrInvalidQuote.
Definition ParseTarget (arg : string) : res (Target * Z) := parseMessageRef arg ErrInvalidTarget.

(** ** Styles *)

(** [strings.Split]. *)
Fixpoint split_byte (sep : Ascii.ascii) (s : string) : list string :=
  match s with
  | EmptyString => [EmptyString]
  | String a t =>
      if bool_decide (a = sep) then EmptyString :: split_byte sep t
      else match split_byte sep t with
           | x :: xs => String a x :: xs
           | [] => [String a EmptyString]
           end
  end.

(** [strconv.ParseUint(s, 10, 32)]. *)
Definition ParseUint32 (s : string) : option Z :=
  n ← ParseUint s; if n <=? MaxUint32 then Some n else None.

(** [unicode.ToLower] as far as it gives ASCII. *)
Definition lower_rune (r : Z) : Z :=
  if in_range 65 90 r then r + 32 else if r =? 8490 then 107 else if r =? 304 then 105 else r.

(** The style a name stands for; an unsupported one keeps the name it was given. *)
Definition style_named (name : string) : Style :=
  let lowered := lower_rune <$> runes name in
  if lowered == runes "bold" then StyleBold
  else if lowered == runes "italic" then StyleItalic
  else if lowered == runes "spoiler" then StyleSpoiler
  else if lowered == runes "strikethrough" then StyleStrikethrough
  else if lowered == runes "monospace" then StyleMonospace
  else StyleOther name.

Definition styleArgumentParts : Z := 3.

Definition parseStyle (arg : string) : res TextStyle :=
  match split_byte colon_char arg with
  | [p0; p1; p2] =>
      match ParseUint32 p0, ParseUint32 p1 with
      | Some start, Some length => Ok (mkTextStyle start length (style_named p2))
      | _, _ => Err (errorf ErrInvalidStyle)
      end
  | _ => Err (errorf ErrInvalidStyle)
  end.

Fixpoint parse_style_args (args : list string) : res (list TextStyle) :=
  match args with
  | [] => Ok []
  | arg :: rest => style ← parseStyle arg; styles ← parse_style_args rest; Ok (style :: styles)
  end.

Definition parseStyles (body : string) (args : list string) : res (list TextStyle) :=
  if len args =? 0 then Ok []
  else if TrimSpace body == ""%string then Err (errorf ErrInvalidStyle)
  else
    styles ← parse_style_args args;
    match CheckTextStyles (parseMentions body).1 styles with Some e => Err e | None => Ok styles end.
End content.

(** ** Lemmas on strings *)

Lemma string_app_split (x y a b : string) : (x ++ y = a ++ b)%string ->
  (exists k, x = (a ++ k)%string /\ b = (k ++ y)%string) \/ (exists k, a = (x ++ k)%string /\ y = (k ++ b)%string).
Proof.
  revert a. induction x as [|c x IH]; intros a H; [right; by exists a|]. destruct a as [|d a].
  - left. exists (String c x). by split.
  - rewrite !string_app_cons in H. injection H as -> H. destruct (IH _ H) as [(k & -> & ->)|(k & -> & ->)];
      [left|right]; by exists k.
Qed.

Lemma string_app_inj (x y z : string) : (x ++ y = x ++ z)%string -> y = z.
Proof. induction x as [|a x IH]; [done|]. rewrite !string_app_cons. by intros [= ?%IH]. Qed.

Lemma string_snoc (s : string) : s = ""%string \/ exists t a, s = (t ++ String a "")%string.
Proof.
  induction s as [|a s IH]; [by left|]. right. destruct IH as [->|(t & b & ->)]; [by exists ""%string, a|].
  exists (String a t), b. by rewrite string_app_cons.
Qed.

Lemma string_snoc_inj (x y : string) a b : (x ++ String a "" = y ++ String b "")%string -> x = y /\ a = b.
Proof.
  revert y. induction x as [|c x IH]; intros [|d y]; rewrite ?string_app_cons, ?string_app_nil.
  - by intros [= ->].
  - intros [= _ H]. by destruct y.
  - intros [= _ H]. by destruct x.
  - by intros [= -> [-> ->]%IH].
Qed.

Lemma span_spec f s x y : span f s = (x, y) ->
  s = (x ++ y)%string /\ string_forallb f x = true /\ forall a t, y = String a t -> f a = false.
Proof.
  revert x y. induction s as [|a s IH]; intros x y; cbn [span]; [by intros [= <- <-]|].
  destruct (f a) eqn:Ha; [|intros [= <- <-]; split_and!; [done..|by intros ? ? [= -> ->]]].
  destruct (span f s) as [x' y'] eqn:Hs. intros [= <- <-]. destruct (IH _ _ eq_refl) as (-> & Hx & Hy).
  split_and!; [done|by cbn; rewrite Ha|done].
Qed.

Lemma span_app f x y : string_forallb f x = true -> (forall a t, y = String a t -> f a = false) -> span f (x ++ y) = (x, y).
Proof.
  intros Hx Hy. induction x as [|a x IH]; cbn in *.
  - rewrite string_app_nil. destruct y as [|b y]; [done|]. cbn. by rewrite (Hy b y).
  - apply andb_true_iff in Hx as [Ha Hx]. rewrite string_app_cons. cbn. by rewrite Ha, IH.
Qed.

(** ** Placeholders *)

Definition placeholder (arg : string) : string := (open_ ++ arg ++ close)%string.
Definition is_arg (arg : string) : bool := (arg != ""%string) && string_forallb mention_char arg.

Lemma match_here_spec s arg rest :
  match_here s = Some (arg, rest) <-> s = (placeholder arg ++ rest)%string /\ is_arg arg = true.
Proof.
  unfold match_here, is_arg, placeholder. split.
  - intros H. apply bind_Some in H as (r & Hr & H). apply cut_prefix_Some in Hr as ->.
    destruct (span mention_char r) as [x y] eqn:Hs. apply span_spec in Hs as (-> & Hx & _).
    destruct (x == ""%string) eqn:Hne; [done|]. apply bind_Some in H as (r' & Hr' & H). apply cut_prefix_Some in Hr' as ->.
    injection H as <- <-. rewrite Hx, Hne. by rewrite !string_app_assoc.
  - intros [-> [Hne Ha]%andb_true_iff]. rewrite string_app_assoc, cut_prefix_app. cbn [mbind option_bind].
    rewrite string_app_assoc, span_app; [|done|by intros a t [= <- <-]].
    apply negb_true_iff in Hne. rewrite Hne. by rewrite cut_prefix_app.
Qed.

(** What the characters of an argument are not. *)
Lemma is_arg_char arg a b t : is_arg arg = true -> arg = (a ++ String b t)%string -> byte_of b <> 123 /\ byte_of b <> 125.
Proof.
  intros [_ H]%andb_true_iff ->. rewrite string_forallb_app in H. apply andb_true_iff in H as [_ H]. cbn in H.
  apply andb_true_iff in H as [H _]. unfold mention_char in H. split; intros E; by rewrite E in H.
Qed.

(** The only closing brace of a placeholder is its last character. *)
Lemma placeholder_close arg k k' : is_arg arg = true -> placeholder arg = ((k ++ close) ++ k')%string -> k' = ""%string.
Proof.
  intros Ha H. destruct (string_snoc k') as [->|(t & b & ->)]; [done|]. exfalso.
  unfold placeholder in H. rewrite <- !string_app_assoc in H. apply string_snoc_inj in H as [H _].
  rewrite string_app_assoc in H. destruct k as [|c0 [|c1 k]]; [done|done|].
  rewrite !string_app_cons in H. injection H as <- <- H. rewrite string_app_nil in H.
  by destruct (is_arg_char arg k _ t Ha H).
Qed.

(** Nor does an opening brace occur inside its argument. *)
Lemma placeholder_open arg arg' k c : is_arg arg = true -> placeholder arg = (k ++ placeholder arg' ++ c)%string -> k = ""%string.
Proof.
  intros Ha H. destruct k as [|c0 k]; [done|]. exfalso. unfold placeholder, open_ in H.
  rewrite !string_app_cons, !string_app_nil in H. injection H as _ H.
  destruct k as [|c1 k]; [rewrite string_app_nil in H; done|]. rewrite string_app_cons in H. injection H as _ H.
  apply (f_equal (string_forallb (fun a => negb (byte_of a =? 123)))) in H. rewrite !string_forallb_app in H. cbn in H.
  rewrite !andb_false_r, andb_true_r in H. apply not_true_iff_false in H. apply H. apply andb_true_iff in Ha as [_ Ha].
  clear -Ha. induction arg as [|a arg IH]; [done|]. cbn in *. apply andb_true_iff in Ha as [Ha ?]. rewrite IH by done.
  rewrite andb_true_r. unfold mention_char in Ha. by destruct (byte_of a =? 123).
Qed.

(** ** What [next_match] and [find_all] find *)

(** No placeholder at all, and none that stands for a user. *)
Definition free (s : string) : Prop := forall a arg c, is_arg arg = true -> s <> (a ++ placeholder arg ++ c)%string.

Lemma next_match_None s : next_match s = None -> free s.
Proof.
  induction s as [|x s IH]; intros H a arg c Harg E.
  - by destruct a.
  - cbn [next_match] in H. destruct (match_here (String x s)) as [[? ?]|] eqn:Hm; [done|].
    destruct (next_match s) as [[[? ?] ?]|]; [done|]. destruct a as [|y a].
    + rewrite string_app_nil in E. rewrite (proj2 (match_here_spec _ arg c)) in Hm; done.
    + rewrite string_app_cons in E. injection E as -> E. by eapply IH.
Qed.

Lemma next_match_Some s before arg rest : next_match s = Some (before, arg, rest) ->
  s = (before ++ placeholder arg ++ rest)%string /\ is_arg arg = true /\
  forall a arg' c, is_arg arg' = true -> s = (a ++ placeholder arg' ++ c)%string -> exists k, a = (before ++ k)%string.
Proof.
  revert before. induction s as [|x s IH]; intros before; cbn [next_match]; [done|].
  destruct (match_here (String x s)) as [[arg0 rest0]|] eqn:Hm.
  - intros [= <- <- <-]. apply match_here_spec in Hm as [-> Ha]. split_and!; [done|done|]. intros a ? ? _ _. by exists a.
  - destruct (next_match s) as [[[before0 arg0] rest0]|]; [|done]. intros [= <- <- <-].
    destruct (IH _ eq_refl) as (-> & Ha & Hf). split_and!; [done|done|]. intros a arg' c Ha' E.
    destruct a as [|y a].
    + rewrite string_app_nil in E. rewrite (proj2 (match_here_spec _ arg' c)) in Hm; done.
    + rewrite string_app_cons in E. injection E as -> E. destruct (Hf _ _ _ Ha' E) as [k ->]. by exists k.
Qed.

Section spec.
Context {U : UuidLib}.

Definition no_user (s : string) : Prop := forall a arg c, is_arg arg = true -> s = (a ++ placeholder arg ++ c)%string ->
  match ParseRecipient arg with Ok t => Target_IsGroup t = true | Err _ => True end.

Lemma no_user_free s : free s -> no_user s.
Proof. intros H a arg c Ha E. by destruct (H a arg c). Qed.

(** The text up to a placeholder that is not for a user, and beyond it. *)
Lemma no_user_gap gap arg : (forall a arg' c, is_arg arg' = true -> (gap ++ placeholder arg)%string = (a ++ placeholder arg' ++ c)%string ->
    exists k, a = (gap ++ k)%string) -> is_arg arg = true ->
  match ParseRecipient arg with Ok t => Target_IsGroup t = true | Err _ => True end -> no_user (gap ++ placeholder arg).
Proof.
  intros Hf Ha Hp a arg' c Ha' E. destruct (Hf _ _ _ Ha' E) as [k ->]. rewrite string_app_assoc in E.
  apply string_app_inj in E. pose proof (placeholder_open _ _ _ _ Ha E) as ->. rewrite string_app_nil in E.
  enough (arg = arg') as -> by done.
  unfold placeholder in E. rewrite !string_app_assoc in E. apply string_app_inj in E.
  apply (f_equal (span mention_char)) in E. apply andb_true_iff in Ha as [_ Ha], Ha' as [_ Ha'].
  by rewrite !span_app in E by (done || by intros ? ? [= <- _]); injection E.
Qed.

(** What ends with a closing brace, or is empty. *)
Definition closed (s : string) : Prop := s = ""%string \/ exists t, s = (t ++ close)%string.

Lemma no_user_app x y : closed x -> no_user x -> no_user y -> no_user (x ++ y).
Proof.
  intros [->|[t ->]] Hx Hy; [by rewrite string_app_nil|]. intros a arg c Ha E.
  destruct (string_app_split _ _ _ _ E) as [(k & E1 & E2)|(k & -> & E2)]; [|by eapply Hy].
  destruct (string_app_split _ _ _ _ E2) as [(k' & E3 & E4)|(k' & -> & E4)].
  - destruct (string_snoc k) as [->|(k0 & b & ->)]; [eapply (Hy ""%string); [done|by rewrite E4, string_app_nil, E3, string_app_nil]|].
    rewrite <- string_app_assoc in E1. apply string_snoc_inj in E1 as [-> <-].
    pose proof (placeholder_close _ _ _ Ha E3) as ->. rewrite string_app_empty in E3.
    apply (Hx a arg ""%string Ha). by rewrite E3, string_app_empty, string_app_assoc.
  - apply (Hx a arg k' Ha). by rewrite E1.
Qed.

(** ** The loop *)

Fixpoint joined (ms : list (string * string)) : string :=
  match ms with [] => "" | (gap, arg) :: rest => gap ++ placeholder arg ++ joined rest end.

(** A match and the text before it, whose first placeholder it is. *)
Definition found (m : string * string) : Prop := is_arg m.2 = true /\
  forall a arg c, is_arg arg = true -> (m.1 ++ placeholder m.2)%string = (a ++ placeholder arg ++ c)%string -> exists k, a = (m.1 ++ k)%string.

Lemma find_all_spec fuel s ms tail : find_all fuel s = (ms, tail) -> (String.length s <= fuel)%nat ->
  s = (joined ms ++ tail)%string /\ Forall found ms /\ free tail.
Proof.
  revert s ms. induction fuel as [|fuel IH]; intros s ms H Hl; cbn [find_all] in H.
  - injection H as <- <-. destruct s; [|cbn in Hl; lia]. split_and!; [done|constructor|]. intros [|? ?] ? ? _ E; done.
  - destruct (next_match s) as [[[gap arg] rest]|] eqn:Hn; cycle 1.
    { injection H as <- <-. split_and!; [done|constructor|by apply next_match_None]. }
    destruct (find_all fuel rest) as [ms' tail'] eqn:Hf. injection H as <- <-.
    apply next_match_Some in Hn as (-> & Ha & Hfirst). destruct (IH _ _ Hf) as (-> & Hms & Ht).
    { pose proof (slen_app gap (placeholder arg ++ rest)). pose proof (slen_app (placeholder arg) rest). pose proof (slen_app open_ (arg ++ close)).
      unfold slen, placeholder in *. change (String.length open_) with 2%nat in *. lia. }
    split_and!; [by cbn; rewrite !string_app_assoc| |done]. constructor; [|done]. split; [done|].
    intros a arg' c Ha' E. cbn in E. apply (Hfirst a arg' (c ++ joined ms' ++ tail')%string Ha').
    by rewrite <- string_app_assoc, E, !string_app_assoc.
Qed.

(** A part of the body up to and with a placeholder for a user. *)
Notation part := (string * string * Target)%type.

Fixpoint marked (parts : list part) : string :=
  match parts with [] => "" | (before, arg, _) :: rest => before ++ placeholder arg ++ marked rest end.
Fixpoint replaced (parts : list part) : string :=
  match parts with [] => "" | (before, _, _) :: rest => before ++ mentionPlaceholder ++ replaced rest end.
Fixpoint starts (units : Z) (parts : list part) : list mention :=
  match parts with
  | [] => []
  | (before, _, target) :: rest =>
      let units := units + utf16_len before in
      mkPlaceholder (units mod (MaxUint32 + 1)) target :: starts (units + mentionLength) rest
  end.

Definition user_part (p : part) : Prop :=
  no_user p.1.1 /\ is_arg p.1.2 = true /\ ParseRecipient p.1.2 = Ok p.2 /\ Target_IsGroup p.2 = false.

Lemma mention_loop_spec ms skipped out units mentions : Forall found ms -> closed skipped -> no_user skipped ->
  exists parts skipped', mention_loop ms skipped out units mentions = ((out ++ replaced parts)%string, skipped', mentions ++ starts units parts)
    /\ (skipped ++ joined ms)%string = (marked parts ++ skipped')%string /\ Forall user_part parts
    /\ closed skipped' /\ no_user skipped'.
Proof.
  intros Hms. revert skipped out units mentions. induction Hms as [|[gap arg] ms [Ha Hf] _ IH]; intros skipped out units mentions Hc Hn.
  { exists [], skipped. cbn. rewrite !string_app_empty, app_nil_r. split_and!; [done..|constructor|done|done]. }
  cbn [fst snd] in *. cbn [mention_loop joined].
  assert (Hgap : free gap).
  { intros a arg' c Ha' E. destruct (Hf a arg' (c ++ placeholder arg)%string Ha') as [k ->]; [by rewrite E, !string_app_assoc|].
    unfold placeholder in E.
    apply (f_equal slen) in E. rewrite !slen_app in E. unfold slen in E. change (String.length open_) with 2%nat in E. lia. }
  assert (Hskip : match ParseRecipient arg with Ok t => Target_IsGroup t = true | Err _ => True end ->
    closed (skipped ++ gap ++ open_ ++ arg ++ close) /\ no_user (skipped ++ gap ++ open_ ++ arg ++ close)).
  { intros Hp. split; [right; exists (skipped ++ gap ++ open_ ++ arg)%string; by rewrite !string_app_assoc|].
    apply no_user_app; [done|done|]. by apply (no_user_gap gap arg). }
  destruct (ParseRecipient arg) as [t|e] eqn:Hp; [destruct (Target_IsGroup t) eqn:Hg|].
  1, 3: destruct (Hskip ltac:(done)) as [Hc' Hn'];
    destruct (IH _ out units mentions Hc' Hn') as (parts & sk & E & Hj & Hrest); exists parts, sk; split; [done|];
    split; [|done]; rewrite <- Hj; unfold placeholder; by rewrite !string_app_assoc.
  destruct (IH ""%string (out ++ (skipped ++ gap) ++ mentionPlaceholder)%string (units + utf16_len (skipped ++ gap)%string + mentionLength)
    (mentions ++ [mkPlaceholder ((units + utf16_len (skipped ++ gap)) mod (MaxUint32 + 1)) t])) as (parts & sk & E & Hj & Hp' & Hrest).
  { by left. } { intros a arg' c _ E. by destruct a. }
  exists (((skipped ++ gap)%string, arg, t) :: parts), sk. split; [|split; [|split; [constructor; [|done]|done]]].
  - rewrite E. cbn [replaced starts]. by rewrite !string_app_assoc, <- app_assoc.
  - cbn [marked]. rewrite string_app_nil in Hj. rewrite Hj. by rewrite !string_app_assoc.
  - split_and!; [|done..]. apply no_user_app; [done..|by apply no_user_free].
Qed.

(** ** Offsets *)

Lemma runes_placeholder t : runes (mentionPlaceholder ++ t) = 65532 :: runes t.
Proof.
  change (mentionPlaceholder ++ t)%string
    with (String (ascii_of 239) (String (ascii_of 191) (String (ascii_of 188) t))).
  unfold runes. cbn [decode].
  replace (byte_of (ascii_of 239)) with 239 by (by vm_compute). replace (byte_of (ascii_of 191)) with 191 by (by vm_compute).
  replace (byte_of (ascii_of 188)) with 188 by (by vm_compute). done.
Qed.

Lemma runes_before before t : runes (before ++ mentionPlaceholder ++ t) = runes before ++ 65532 :: runes t.
Proof. rewrite <- runes_placeholder. unfold runes. rewrite decode_app by done. by rewrite fmap_app. Qed.

(** Every mention covers a placeholder rune of the new body, at its offset. *)
Lemma starts_covered parts tail pre0 m : m ∈ starts (utf16_units pre0) parts ->
  exists pre post, pre0 ++ runes (replaced parts ++ tail) = pre ++ 65532 :: post
    /\ mtn_start m = utf16_units pre mod (MaxUint32 + 1).
Proof.
  revert pre0. induction parts as [|[[before arg] target] parts IH]; intros pre0; cbn [starts]; [by intros ?%elem_of_nil|].
  cbn [replaced]. rewrite !string_app_assoc, runes_before. intros [->|Hm]%elem_of_cons.
  - exists (pre0 ++ runes before), (runes (replaced parts ++ tail)). rewrite <- app_assoc. split; [done|].
    cbn. by rewrite utf16_units_app.
  - destruct (IH (pre0 ++ runes before ++ [65532])) as (pre & post & E & Hs).
    + rewrite !utf16_units_app. unfold utf16_len in Hm. rewrite Z.add_assoc. exact Hm.
    + exists pre, post. split; [|done]. rewrite <- E, <- !app_assoc. done.
Qed.

Lemma parseMentions_parts body : exists parts tail, body = (marked parts ++ tail)%string
  /\ parseMentions body = ((replaced parts ++ tail)%string, starts 0 parts) /\ Forall user_part parts /\ no_user tail.
Proof.
  unfold parseMentions. destruct (find_all (String.length body) body) as [ms tail] eqn:Hf.
  apply find_all_spec in Hf as (Hb & Hms & Ht); [|done].
  destruct (mention_loop_spec ms "" "" 0 [] Hms) as (parts & skipped & -> & Hj & Hp & Hc & Hn); [by left| |].
  { intros a arg c _ E. by destruct a. }
  rewrite string_app_nil in Hj. exists parts, (skipped ++ tail)%string. split_and!; [|done..|].
  - by rewrite Hb, Hj, string_app_assoc.
  - apply no_user_app; [done..|by apply no_user_free].
Qed.

(** Text that is not blank is not blank with its mentions replaced. *)
Lemma parseMentions_visible body : is_blank body = false -> is_blank (parseMentions body).1 = false.
Proof.
  destruct (parseMentions_parts body) as (parts & tail & Hb & -> & _ & _). cbn [fst].
  destruct parts as [|[[before arg] t] parts]; [by rewrite Hb|]. intros _. cbn [replaced].
  rewrite is_blank_spec, !string_app_assoc. apply not_true_iff_false. rewrite forallb_forall. intros H.
  assert (E : (fun c => IsSpace (ch_rune c)) <$> decode (before ++ mentionPlaceholder ++ replaced parts ++ tail)
    = IsSpace <$> (runes before ++ 65532 :: runes (replaced parts ++ tail))).
  { rewrite <- runes_before. unfold runes. by rewrite <- list_fmap_compose. }
  assert (Hin : false ∈ (fun c => IsSpace (ch_rune c)) <$> decode (before ++ mentionPlaceholder ++ replaced parts ++ tail)).
  { rewrite E, fmap_app. apply elem_of_app. right. cbn. by left. }
  apply list_elem_of_fmap in Hin as (c & Hc & Hin). apply list_elem_of_In, H in Hin. congruence.
Qed.

(** C10. Reading mentions out of a body. The body is cut into parts that end with a placeholder
    [@{...}] for a user, and a rest; none of these texts holds another placeholder for a user.
    The new body has U+FFFC in the place of each, every other byte is kept, and there is one mention
    per part, in order, for the user that the part names. As long as the new body has fewer than
    2^32 UTF-16 units, each mention's offset is that of such a character. *)
Theorem parseMentions_spec body : let (out, mentions) := parseMentions body in
  exists parts tail, body = (marked parts ++ tail)%string /\ out = (replaced parts ++ tail)%string /\ mentions = starts 0 parts
    /\ Forall user_part parts /\ no_user tail
    /\ (utf16_len out <= MaxUint32 -> forall m, m ∈ mentions -> exists pre post,
          runes out = pre ++ 65532 :: post /\ utf16_units pre = mtn_start m).
Proof.
  destruct (parseMentions_parts body) as (parts & tail & Hb & -> & Hp & Hn). exists parts, tail. split_and!; try done.
  intros Hmax m Hm. destruct (starts_covered parts tail [] m Hm) as (pre & post & E & Hs).
  exists pre, post. rewrite app_nil_l in E. split; [exact E|]. rewrite Hs, Z.mod_small; [done|].
  pose proof (utf16_units_nonneg pre). unfold utf16_len in Hmax. rewrite E, utf16_units_app in Hmax.
  pose proof (utf16_units_nonneg (65532 :: post)). lia.
Qed.
End spec.

(** ** Message references and styles *)

Lemma parse_digits_Some s acc n : parse_digits s acc = Some n -> 0 <= acc ->
  acc <= n /\ string_forallb is_digit s = true.
Proof.
  revert acc. induction s as [|a s IH]; intros acc; cbn; [intros [= ->]; done|].
  unfold digit_of, is_digit. destruct (in_range 48 57 (byte_of a)) eqn:Hd; [|done]. cbn. intros H Hacc.
  unfold in_range in Hd. apply IH in H as [H1 H2]; [|lia]. split; [lia|]. exact H2.
Qed.

Lemma ParseUint_Some s n : ParseUint s = Some n -> is_uint64 n /\ string_forallb is_digit s = true.
Proof.
  unfold ParseUint. destruct s as [|a s]; [done|]. intros H. apply bind_Some in H as (m & Hm & H).
  destruct (m <=? MaxUint64) eqn:Hle; [|done]. injection H as ->. apply parse_digits_Some in Hm as [H1 H2]; [|done].
  split; [unfold is_uint64; lia|done].
Qed.

Lemma digits_visible s : string_forallb is_digit s = true -> string_forallb visible s = true.
Proof.
  induction s as [|a s IH]; [done|]. cbn. intros [Ha Hs]%andb_true_iff. rewrite IH by done. rewrite andb_true_r.
  unfold is_digit, visible, in_range in *. lia.
Qed.

Lemma cut_last_None s sep : cut_last s sep = None <-> string_forallb (fun a => negb (bool_decide (a = sep))) s = true.
Proof.
  induction s as [|a s IH]; [done|]. cbn. destruct (cut_last s sep) as [[x y]|].
  - split; [done|]. intros [_ Hs]%andb_true_iff. apply IH in Hs. done.
  - rewrite (proj1 IH) by done. rewrite andb_true_r. case_bool_decide; cbn; split; done.
Qed.

Lemma cut_last_app x y sep : string_forallb (fun a => negb (bool_decide (a = sep))) y = true ->
  cut_last (x ++ String sep y) sep = Some (x, y).
Proof.
  intros Hy%cut_last_None. induction x as [|a x IH].
  - rewrite string_app_nil. cbn. rewrite Hy. by rewrite bool_decide_eq_true_2.
  - rewrite string_app_cons. cbn. by rewrite IH.
Qed.

Lemma digits_no_colon s : string_forallb is_digit s = true -> string_forallb (fun a => negb (bool_decide (a = colon_char))) s = true.
Proof.
  induction s as [|a s IH]; [done|]. cbn [string_forallb]. intros [Ha Hs]%andb_true_iff. rewrite IH by done. rewrite andb_true_r.
  case_bool_decide as E; [|done]. subst a. by vm_compute in Ha.
Qed.

Lemma FormatUint_digits n : is_uint64 n -> string_forallb is_digit (FormatUint n) = true.
Proof. intros H%ParseUint_FormatUint. by apply ParseUint_Some in H as [_ ?]. Qed.

Section references.
Context {U : UuidLib} {UL : UuidLaws U}.

(** A message reference that was accepted names a user and a positive timestamp, and the reference
    written with the canonical author and timestamp reads back as the same message. *)
Theorem parseMessageRef_roundtrip arg kind author timestamp : parseMessageRef arg kind = Ok (author, timestamp) ->
  Target_IsGroup author = false /\ 0 < timestamp <= MaxUint64
  /\ parseMessageRef (Target_String author ++ String colon_char (FormatUint timestamp)) kind = Ok (author, timestamp).
Proof.
  unfold parseMessageRef at 1. destruct (cut_last arg colon_char) as [[a ts]|]; [|done].
  unfold parseTimestamp at 1. destruct (ParseUint (TrimSpace ts)) as [n|] eqn:Hn; [|done].
  destruct (n =? 0) eqn:H0; [done|]. destruct (ParseRecipient a) as [t|] eqn:Ht; [|done].
  destruct (Target_IsGroup t) eqn:Hg; [done|]. intros [= -> ->]. apply ParseUint_Some in Hn as [Hn _].
  split; [done|]. split; [unfold is_uint64 in Hn; lia|]. unfold parseMessageRef.
  pose proof (FormatUint_digits _ Hn) as Hd. rewrite cut_last_app by by apply digits_no_colon.
  unfold parseTimestamp. rewrite TrimSpace_visible by by apply digits_visible. rewrite ParseUint_FormatUint by done.
  rewrite H0, (parse_target_string _ _ Ht). by rewrite Hg.
Qed.

(** How the supported styles are written. *)
Definition style_name (s : Style) : string :=
  match s with
  | StyleBold => "bold" | StyleItalic => "italic" | StyleSpoiler => "spoiler"
  | StyleStrikethrough => "strikethrough" | StyleMonospace => "monospace" | StyleOther name => name
  end.
Definition style_argument (s : TextStyle) : string :=
  FormatUint (sty_Start s) ++ String colon_char (FormatUint (sty_Length s) ++ String colon_char (style_name (sty_Style s))).

Lemma split_byte_app x y sep : string_forallb (fun a => negb (bool_decide (a = sep))) x = true ->
  split_byte sep (x ++ String sep y) = x :: split_byte sep y.
Proof.
  induction x as [|a x IH]; [intros _; rewrite string_app_nil; cbn; by rewrite bool_decide_eq_true_2|].
  cbn [string_forallb]. intros [Ha Hx]%andb_true_iff. rewrite string_app_cons. cbn [split_byte].
  apply negb_true_iff in Ha. rewrite Ha. by rewrite IH.
Qed.

Lemma ParseUint32_FormatUint n : is_uint32 n -> ParseUint32 (FormatUint n) = Some n.
Proof.
  unfold is_uint32, ParseUint32. intros H. rewrite ParseUint_FormatUint by (unfold is_uint64, MaxUint32, MaxUint64 in *; lia).
  cbn. destruct (n <=? MaxUint32) eqn:E; [done|lia].
Qed.

Lemma parseStyle_argument s : style_range s -> Style_valid (sty_Style s) = true -> parseStyle (style_argument s) = Ok s.
Proof.
  intros [Hs Hl] Hv. unfold parseStyle, style_argument.
  assert (Hd : forall n, is_uint32 n -> string_forallb (fun a => negb (bool_decide (a = colon_char))) (FormatUint n) = true).
  { intros n Hn. apply digits_no_colon, FormatUint_digits. unfold is_uint64, is_uint32, MaxUint32, MaxUint64 in *. lia. }
  rewrite !split_byte_app by by apply Hd.
  assert (Hn : split_byte colon_char (style_name (sty_Style s)) = [style_name (sty_Style s)]) by (by destruct (sty_Style s)).
  rewrite Hn, !ParseUint32_FormatUint by done. destruct s as [start l []]; cbn in *; try done; by vm_compute.
Qed.

Lemma parse_style_args_Ok args styles : parse_style_args args = Ok styles <-> Forall2 (fun arg s => parseStyle arg = Ok s) args styles.
Proof.
  revert styles. induction args as [|arg args IH]; intros styles; cbn.
  - split; [intros [= <-]; constructor|by inversion 1].
  - rewrite bind_Ok. split.
    + intros (s & Hs & H). apply bind_Ok in H as (ss & Hss & [= <-]). constructor; [done|by apply IH].
    + inversion 1 as [|? s ? ss Hs Hss]; subst. exists s. split; [done|]. apply IH in Hss. by rewrite Hss.
Qed.

Lemma parseStyle_range arg s : parseStyle arg = Ok s -> style_range s.
Proof.
  unfold parseStyle. destruct (split_byte colon_char arg) as [|p0 [|p1 [|p2 [|? ?]]]]; try done.
  assert (Hr : forall p n, ParseUint32 p = Some n -> is_uint32 n).
  { intros p n H. unfold ParseUint32 in H. apply bind_Some in H as (m & Hm & H). destruct (m <=? MaxUint32) eqn:E; [|done].
    injection H as ->. apply ParseUint_Some in Hm as [Hm _]. unfold is_uint32, is_uint64 in *. lia. }
  destruct (ParseUint32 p0) as [a|] eqn:Ha; [|done]. destruct (ParseUint32 p1) as [b|] eqn:Hb; [|done].
  intros [= <-]. split; by eapply Hr.
Qed.

(** Style arguments. Without any, there are no styles. Otherwise they are accepted exactly if the
    text is not blank, every one reads as start:length:STYLE with 32-bit offsets, and, in the body as it
    is after mention substitution, every one is a supported format over a nonempty run of whole
    runes; and the canonical argument of any such style reads as that style. *)
Theorem parseStyles_spec body args styles :
  (parseStyles body args = Ok styles <->
     args = [] /\ styles = []
     \/ args <> [] /\ TrimSpace body <> ""%string /\ Forall2 (fun arg s => parseStyle arg = Ok s) args styles
        /\ ValidString (parseMentions body).1 = true
        /\ Forall (style_covers (runes (parseMentions body).1)) styles)
  /\ (forall s, style_range s -> Style_valid (sty_Style s) = true -> parseStyle (style_argument s) = Ok s).
Proof.
  split; [|exact parseStyle_argument]. unfold parseStyles. destruct args as [|arg args].
  { cbn. split; [intros [= <-]; by left|]. by intros [[_ ->]|[? _]]. }
  change (len (arg :: args) =? 0) with false. cbv iota.
  destruct (bool_decide (TrimSpace body = ""%string)) eqn:Hb; bool_hyps.
  { split; [done|]. by intros [[? _]|(_ & ? & _)]. }
  rewrite bind_Ok. setoid_rewrite parse_style_args_Ok.
  assert (Hc : forall ss, Forall2 (fun arg s => parseStyle arg = Ok s) (arg :: args) ss ->
    CheckTextStyles (parseMentions body).1 ss = None <->
    ValidString (parseMentions body).1 = true /\ Forall (style_covers (runes (parseMentions body).1)) ss).
  { intros ss Hss. unfold CheckTextStyles. assert (Hlen : len ss =? 0 = false) by (inversion Hss; done). rewrite Hlen.
    destruct (ValidString _); cbn [negb]; [|split; [done|by intros [? _]]]. rewrite first_error_None, !Forall_forall.
    assert (Hr : forall s, s ∈ ss -> style_range s).
    { intros s [i Hi]%list_elem_of_lookup. destruct (Forall2_lookup_r _ _ _ _ _ Hss Hi) as (a & _ & Ha). by eapply parseStyle_range. }
    split; [intros H; split; [done|]|intros [_ H]]; intros s Hs; apply check_style_None; eauto. }
  split.
  - intros (ss & Hss & H). destruct (CheckTextStyles _ ss) eqn:E; [done|]. injection H as ->. right. apply (Hc _ Hss) in E as [? ?]. by split_and!.
  - intros [[? _]|(_ & _ & Hss & Hv & Hf)]; [done|]. exists styles. split; [done|]. by rewrite (proj2 (Hc _ Hss)).
Qed.
End references.

(** ** Witness *)

Section witnesses.
Import DemoUuid.

Lemma parseMessageRef_roundtrip_witness :
  parseMessageRef " self: 0017" ErrInvalidQuote = Ok (selfTarget, 17) /\ parseMessageRef "self:17" ErrInvalidQuote = Ok (selfTarget, 17).
Proof.
  assert (H : parseMessageRef " self: 0017" ErrInvalidQuote = Ok (selfTarget, 17)) by (vm_compute; reflexivity).
  split; [exact H|]. pose proof (parseMessageRef_roundtrip (UL:=DemoUuid.laws) _ _ _ _ H) as (_ & _ & R). exact R.
Defined.
End witnesses.
