(* ===== verification/FilePath.v ===== *)
(** * path/filepath on Unix

    What the repository uses of [path/filepath]: [Clean], [IsAbs], [IsLocal], [Base], [Ext] and [Rel]
    of two absolute paths. A path is read as its elements; cleaning runs a stack machine over them. *)

From S2P Require Import Prelude Utf8 Content.

Definition Separator : Ascii.ascii := ascii_of 47.
Definition IsAbs (path : string) : bool :=
  match path with String a _ => bool_decide (a = Separator) | EmptyString => false end.
Definition elements (path : string) : list string := split_byte Separator path.

Fixpoint join (l : list string) : string :=
  match l with
  | [] => ""
  | [x] => x
  | x :: rest => (x ++ String Separator (join rest))%string
  end.

Definition dot : string := ".".
Definition dotdot : string := "..".

(** One element on the stack of kept ones, the last on top. *)
Definition clean_step (rooted : bool) (stack : list string) (e : string) : list string :=
  if (e == ""%string) || (e == dot) then stack
  else if e == dotdot then
    match stack with
    | [] => if rooted then [] else [dotdot]
    | top :: rest => if top == dotdot then dotdot :: stack else rest
    end
  else e :: stack.
Definition clean_from (rooted : bool) (stack : list string) (es : list string) : list string :=
  foldl (clean_step rooted) stack es.
(** The elements of the cleaned path, in order. *)
Definition clean_elements (path : string) : list string := reverse (clean_from (IsAbs path) [] (elements path)).

Definition Clean (path : string) : string :=
  let es := clean_elements path in
  if IsAbs path then String Separator (join es)
  else match es with [] => dot | _ => join es end.

Definition IsLocal (path : string) : bool :=
  if IsAbs path || (path == ""%string) then false
  else
    let hasDots := existsb (fun e => (e == dot) || (e == dotdot)) (elements path) in
    let path := if hasDots then Clean path else path in
    negb ((path == dotdot) || HasPrefix path (dotdot ++ String Separator "")).

(** The elements of [base] and [targ] after the first that differ. *)
Fixpoint strip_common (base targ : list string) : list string * list string :=
  match base, targ with
  | b :: base', t :: targ' => if b == t then strip_common base' targ' else (base, targ)
  | _, _ => (base, targ)
  end.

(** [Rel] of two absolute paths, which never fails. *)
Definition Rel (base targ : string) : string :=
  let (b, t) := strip_common (clean_elements base) (clean_elements targ) in
  match ((const dotdot <$> b) ++ t)%list with [] => dot | es => join es end.

(** The last element without trailing separators. *)
Definition Base (path : string) : string :=
  if path == ""%string then dot
  else match reverse (drop_while (fun e => e == ""%string) (reverse (elements path))) with
       | [] => String Separator ""
       | es => default "" (last es)
       end.

(** The suffix from the last dot of the last element. *)
Definition Ext (path : string) : string :=
  match cut_last (default "" (last (elements path))) (ascii_of 46) with
  | Some (_, ext) => String (ascii_of 46) ext
  | None => ""
  end.

(** ** Cleaning *)

Definition name (e : string) : Prop := e <> ""%string /\ e <> dot /\ e <> dotdot.

(** What a stack looks like: names over, if it is not rooted, some [..]. *)
Lemma clean_step_shape rooted names k e : Forall name names -> (rooted = true -> k = 0%nat) ->
  exists names' k', clean_step rooted (names ++ replicate k dotdot) e = names' ++ replicate k' dotdot
    /\ Forall name names' /\ (rooted = true -> k' = 0%nat).
Proof.
  intros Hn Hk. unfold clean_step. destruct (_ || _) eqn:E1; [by exists names, k|]. destruct (bool_decide (e = dotdot)) eqn:E2; bool_hyps.
  - destruct names as [|x names]; cbn [app].
    + destruct k as [|k]; cbn [replicate].
      * destruct rooted; [by exists [], 0%nat|by exists [], 1%nat].
      * rewrite bool_decide_eq_true_2 by done. destruct rooted; [by specialize (Hk eq_refl)|by exists [], (S (S k))].
    + inversion Hn as [|? ? Hx Hxs]; subst. rewrite bool_decide_eq_false_2 by apply Hx. by exists names, k.
  - exists (e :: names), k. split_and!; [done| |done]. constructor; [by split_and!|done].
Qed.

(** A rooted stack with something below behaves like an unrooted one, as long as that is not used up. *)
Lemma clean_step_below names k (below : list string) e : Forall name names -> Forall name below -> 
  exists names' k', clean_step false (names ++ replicate k dotdot) e = names' ++ replicate k' dotdot
    /\ clean_step true (names ++ drop k below) e = names' ++ drop k' below /\ Forall name names'.
Proof.
  intros Hn Hb. unfold clean_step. destruct (_ || _) eqn:E1; [by exists names, k|]. destruct (bool_decide (e = dotdot)) eqn:E2; bool_hyps.
  - destruct names as [|x names]; cbn [app].
    + exists [], (S k). cbn [app]. split_and!; [| |done].
      * destruct k as [|k]; cbn [replicate]; [done|]. by rewrite bool_decide_eq_true_2.
      * replace (S k) with (k + 1)%nat by lia. rewrite <- drop_drop. pose proof (Forall_drop _ k _ Hb) as Hd.
        destruct (drop k below) as [|y ys]; [done|]. inversion Hd as [|? ? Hy]; subst.
        cbn. by rewrite bool_decide_eq_false_2 by apply Hy.
    + inversion Hn as [|? ? Hx Hxs]; subst. rewrite !bool_decide_eq_false_2 by apply Hx. by exists names, k.
  - exists (e :: names), k. split_and!; [done..|]. constructor; [by split_and!|done].
Qed.

Lemma clean_from_below es names k (below : list string) : Forall name names -> Forall name below ->
  exists names' k', clean_from false (names ++ replicate k dotdot) es = names' ++ replicate k' dotdot
    /\ clean_from true (names ++ drop k below) es = names' ++ drop k' below /\ Forall name names'.
Proof.
  revert names k. induction es as [|e es IH]; intros names k Hn Hb; [by exists names, k|]. unfold clean_from. cbn [foldl].
  destruct (clean_step_below names k below e Hn Hb) as (names1 & k1 & -> & -> & Hn1). by apply IH.
Qed.

Lemma clean_from_names es stack : Forall name stack -> Forall name (clean_from true stack es).
Proof.
  revert stack. induction es as [|e es IH]; intros stack Hs; [done|]. unfold clean_from. cbn [foldl]. apply IH.
  destruct (clean_step_shape true stack 0 e Hs) as (names' & k' & E & Hn & Hk); [done|].
  cbn in E. rewrite app_nil_r in E. rewrite E, (Hk eq_refl). cbn. by rewrite app_nil_r.
Qed.

Lemma clean_from_shape es : exists names k, clean_from false [] es = names ++ replicate k dotdot /\ Forall name names.
Proof.
  destruct (clean_from_below es [] 0 []) as (names & k & E & _ & Hn); [constructor..|]. by exists names, k.
Qed.

(** Cleaned elements clean to themselves. *)
Lemma clean_from_id es stack : Forall name es -> clean_from true stack es = reverse es ++ stack /\ clean_from false stack es = reverse es ++ stack.
Proof.
  revert stack. induction es as [|e es IH]; intros stack Hes; [by split|]. inversion Hes as [|? ? (He & Hd & Hdd) Hr]; subst.
  unfold clean_from. cbn [foldl]. unfold clean_step at 2 4.
  rewrite !bool_decide_eq_false_2 by done. cbn [orb]. rewrite reverse_cons, <- app_assoc. by apply IH.
Qed.

(** ** Elements and joining *)

Definition no_slash (s : string) : bool := string_forallb (fun a => negb (bool_decide (a = Separator))) s.

Lemma split_byte_plain s : no_slash s = true -> split_byte Separator s = [s].
Proof.
  unfold no_slash. induction s as [|a s IH]; [done|]. cbn [string_forallb split_byte]. intros [Ha Hs]%andb_true_iff.
  apply negb_true_iff in Ha. rewrite Ha. by rewrite IH.
Qed.

Lemma elements_no_slash p e : e ∈ elements p -> no_slash e = true.
Proof.
  unfold elements, no_slash. revert e. induction p as [|a p IH]; intros e; cbn [split_byte]; [by intros ->%list_elem_of_singleton|].
  destruct (bool_decide (a = Separator)) eqn:Ha; [intros [->|?]%elem_of_cons; [done|by apply IH]|].
  destruct (split_byte Separator p) as [|x xs] eqn:Hs.
  - intros ->%list_elem_of_singleton. cbn [string_forallb]. by rewrite Ha.
  - intros [->|Hx]%elem_of_cons; [cbn [string_forallb]; rewrite Ha; apply IH; by left|apply IH; by right].
Qed.

Lemma elements_join es : es <> [] -> Forall (fun e => no_slash e = true) es -> elements (join es) = es.
Proof.
  induction es as [|e es IH]; [done|]. intros _ H. inversion H as [|? ? He Hes]; subst. destruct es as [|e' es].
  - by apply split_byte_plain.
  - change (elements (e ++ String Separator (join (e' :: es))) = e :: e' :: es). rewrite <- (IH ltac:(done) Hes) at 2.
    apply split_byte_app. exact He.
Qed.

Lemma split_byte_cons sep s : exists x xs, split_byte sep s = x :: xs.
Proof.
  destruct s as [|a s]; [by do 2 eexists|]. cbn [split_byte]. destruct (bool_decide _); [by do 2 eexists|].
  destruct (split_byte sep s); by do 2 eexists.
Qed.

Lemma elements_app p q : elements (p ++ String Separator q) = elements p ++ elements q.
Proof.
  unfold elements. induction p as [|a p IH]; [done|]. rewrite string_app_cons. cbn [split_byte]. rewrite IH.
  destruct (bool_decide _); [done|]. by destruct (split_byte_cons Separator p) as (x & xs & ->).
Qed.

Lemma clean_stays_no_slash rooted es stack : Forall (fun e => no_slash e = true) es -> Forall (fun e => no_slash e = true) stack ->
  Forall (fun e => no_slash e = true) (clean_from rooted stack es).
Proof.
  revert stack. induction es as [|e es IH]; intros stack Hes Hs; [done|]. inversion Hes as [|? ? He Hr]; subst.
  unfold clean_from. cbn [foldl]. apply IH; [done|]. unfold clean_step. destruct (_ || _); [done|].
  destruct (bool_decide _); [|by constructor]. destruct stack as [|x stack]; [destruct rooted; by repeat constructor|].
  inversion Hs; subst. destruct (bool_decide _); [by repeat constructor|done].
Qed.

(** ** Local paths stay below *)

Lemma clean_from_plain rooted es stack : existsb (fun e => (e == dot) || (e == dotdot)) es = false ->
  exists names, clean_from rooted stack es = names ++ stack /\ Forall name names.
Proof.
  revert stack. induction es as [|e es IH]; intros stack; [by exists []|]. cbn [existsb]. intros [[E1 E2]%orb_false_iff Hes]%orb_false_iff.
  unfold clean_from. cbn [foldl]. unfold clean_step at 2. rewrite E1, E2, orb_false_r. destruct (bool_decide (e = ""%string)) eqn:E0; [by apply IH|].
  destruct (IH (e :: stack) Hes) as (names & E & Hn). exists (names ++ [e]). rewrite <- app_assoc. split; [exact E|].
  apply Forall_app. split; [done|]. constructor; [|constructor]. bool_hyps. by split_and!.
Qed.

Lemma join_dotdot es : (join (dotdot :: es) == dotdot) || HasPrefix (join (dotdot :: es)) (dotdot ++ String Separator "") = true.
Proof.
  destruct es as [|e es]; [done|]. apply orb_true_iff. right.
  replace (join (dotdot :: e :: es)) with ((dotdot ++ String Separator "") ++ join (e :: es))%string by reflexivity.
  apply HasPrefix_app.
Qed.

(** Following a local path from a directory only adds names to it. *)
Lemma IsLocal_below rel (base : list string) : IsLocal rel = true -> Forall name base ->
  exists names, clean_from true base (elements rel) = names ++ base /\ Forall name names.
Proof.
  unfold IsLocal. destruct (IsAbs rel || _) eqn:Ha; [done|]. apply orb_false_iff in Ha as [Ha _].
  destruct (existsb _ (elements rel)) eqn:Hd; [|intros _ _; by apply clean_from_plain]. intros Hl Hb.
  destruct (clean_from_below (elements rel) [] 0 base) as (names & k & E & E' & Hn); [constructor|done|].
  rewrite app_nil_l in E, E'. change (drop 0 base) with base in E'. change (replicate 0 dotdot) with (@nil string) in E.
  exists names. rewrite E'. destruct k as [|k]; [done|]. exfalso.
  unfold Clean, clean_elements in Hl. rewrite Ha, E in Hl. rewrite reverse_app, reverse_replicate in Hl.
  cbn [replicate app] in Hl. by rewrite join_dotdot in Hl.
Qed.

(** Following the relative path from one directory to a path leads there. *)
Lemma strip_common_app b t b' t' : strip_common b t = (b', t') -> exists c, b = c ++ b' /\ t = c ++ t'.
Proof.
  revert t. induction b as [|x b IH]; intros t; cbn; [intros [= <- <-]; by exists []|].
  destruct t as [|y t]; [intros [= <- <-]; by exists []|]. destruct (bool_decide (x = y)) eqn:E.
  - apply bool_decide_eq_true_1 in E as ->. intros (c & -> & ->)%IH. by exists (y :: c).
  - intros [= <- <-]. by exists [].
Qed.

Lemma clean_step_up x stack : name x -> clean_step true (x :: stack) dotdot = stack.
Proof.
  intros (_ & _ & Hx). unfold clean_step. replace ((dotdot == ""%string) || (dotdot == dot)) with false by reflexivity.
  rewrite bool_decide_eq_true_2 by done. by rewrite bool_decide_eq_false_2.
Qed.

Lemma clean_from_up (up below : list string) : Forall name up -> clean_from true (reverse up ++ below) (const dotdot <$> up) = below.
Proof.
  induction up as [|x up IH] using rev_ind; [done|]. intros [Hu Hx]%Forall_app. inversion Hx as [|? ? Hn]; subst.
  rewrite reverse_snoc, fmap_app. cbn [app fmap list_fmap const].
  replace ((const dotdot <$> up) ++ [dotdot]) with (dotdot :: (const dotdot <$> up)).
  - unfold clean_from. cbn [foldl]. rewrite clean_step_up by done. by apply IH.
  - clear. induction up as [|y up IH]; [done|]. cbn. by rewrite IH.
Qed.

Lemma clean_elements_ok p : IsAbs p = true ->
  Forall name (clean_elements p) /\ Forall (fun e => no_slash e = true) (clean_elements p).
Proof.
  intros Ha. unfold clean_elements. rewrite Ha. split; apply Forall_reverse.
  - apply clean_from_names. constructor.
  - apply clean_stays_no_slash; [|constructor]. apply Forall_forall. intros e. apply elements_no_slash.
Qed.

Lemma Rel_leads base targ : IsAbs base = true -> IsAbs targ = true ->
  clean_from true (reverse (clean_elements base)) (elements (Rel base targ)) = reverse (clean_elements targ).
Proof.
  intros Hb Ht. destruct (clean_elements_ok _ Hb) as [Hbn Hbs], (clean_elements_ok _ Ht) as [Htn Hts].
  unfold Rel. destruct (strip_common _ _) as [b t] eqn:E. apply strip_common_app in E as (c & Eb & Et).
  rewrite Eb, Et in *. clear Eb Et. apply Forall_app in Hbn as [_ Hbn], Htn as [_ Htn], Hts as [_ Hts].
  assert (H : clean_from true (reverse (c ++ b)) ((const dotdot <$> b) ++ t) = reverse (c ++ t)).
  { unfold clean_from. rewrite foldl_app. fold (clean_from true (reverse (c ++ b)) (const dotdot <$> b)).
    rewrite reverse_app, clean_from_up by done. rewrite reverse_app. by apply clean_from_id. }
  destruct ((const dotdot <$> b) ++ t) as [|e es] eqn:Ees; [exact H|]. rewrite elements_join; [exact H|done|].
  rewrite <- Ees. apply Forall_app. split; [|done]. apply Forall_fmap, Forall_forall. by intros.
Qed.

(** The elements of a path inside a directory. *)
Lemma clean_elements_below dir rel : IsAbs dir = true ->
  clean_elements (dir ++ String Separator rel) = reverse (clean_from true (reverse (clean_elements dir)) (elements rel)).
Proof.
  intros Hd. assert (Ha : IsAbs (dir ++ String Separator rel) = true) by (by destruct dir).
  unfold clean_elements. rewrite Ha, Hd, elements_app. unfold clean_from. by rewrite foldl_app, reverse_involutive.
Qed.
