(* ===== verification/Attachments.v ===== *)
(** * Attached files (internal/app/content.go)

    [loadAttachments]: the files of a message, read from the file system or confined to a directory, with
    their size bound, type and dimensions. What the operating system and the decoders answer is
    arbitrary. *)

From S2P Require Import Prelude Errors Utf8 Types Content FilePath.

Definition MaxAttachmentSize : Z := Z.shiftl 100 20.

Record OutgoingAttachment := mkOutgoing {
  oat_Data : string; oat_ContentType : string; oat_Filename : string; oat_Width : Z; oat_Height : Z }.

(** [os.Stat] and [Root.Stat] say whether a file is regular and its size; reading stops at a limit.
    [os.OpenRoot] opens a directory. *)
Class Files (W : Type) := {
  os_Stat : string -> io W err (bool * Z);
  os_Read : string -> Z -> io W err string;
  os_Abs : string -> io W err string;
  os_OpenRoot : string -> io W err unit;
  root_Stat : string -> string -> io W err (bool * Z);
  root_Read : string -> string -> Z -> io W err string;
}.

(** [net/http], [mime] and [image]: media types without their parameters, and the size of an image. *)
Class MediaLib := {
  DetectContentType : string -> string;
  TypeByExtension : string -> string;
  ParseMediaType : string -> option string;
  DecodeConfig : string -> option (Z * Z);
}.

Inductive fileOpener := osFiles | attachDir (dir : string).

(** [filepath.Join] of a directory and a relative path. *)
Definition Join (dir rel : string) : string := Clean (dir ++ String Separator rel).

(** The path relative to the directory, if it lies within it. *)
Definition local (dir file : string) : res string :=
  let rel := if IsAbs file then Rel dir file else file in
  if negb (IsLocal rel) then Err (errorf ErrOutsideAttachDir) else Ok rel.

(** [baseType]. *)
Definition baseType {L : MediaLib} (contentType : string) : string := default ""%string (ParseMediaType contentType).

Definition contentType {L : MediaLib} (path data : string) : string :=
  let sniffed := baseType (DetectContentType data) in
  if (sniffed == "application/octet-stream"%string) || (sniffed == "text/plain"%string) || (sniffed == "application/zip"%string) then
    let byExt := baseType (TypeByExtension (Ext path)) in
    if byExt != ""%string then byExt else sniffed
  else sniffed.

Section attachments.
Context {W : Type} {F : Files W} {L : MediaLib}.
Notation M := (io W err).

Definition Stat (files : fileOpener) (file : string) : M (bool * Z) :=
  match files with
  | osFiles => os_Stat file
  | attachDir dir =>
      let* rel := io_of (local dir file) in
      let* r := io_try (root_Stat dir rel) in
      match r with
      | Ok info => io_ret info
      | Err e =>
          let* out := io_try (os_Stat (Join dir rel)) in
          io_err (match out with Ok _ => errorf ErrOutsideAttachDir | Err _ => e end)
      end
  end.

Definition Read (files : fileOpener) (file : string) (limit : Z) : M string :=
  match files with
  | osFiles => os_Read file limit
  | attachDir dir => let* rel := io_of (local dir file) in root_Read dir rel limit
  end.

Definition openAttachDir (dir : string) : M fileOpener :=
  let* r := io_try (os_Abs dir) in
  match r with
  | Err e => io_err (Wrap [e])
  | Ok abs =>
      let* r := io_try (os_OpenRoot abs) in
      match r with Err e => io_err (Wrap [e]) | Ok _ => io_ret (attachDir abs) end
  end.

Definition readFile (files : fileOpener) (path : string) : M string :=
  let* data := Read files path (MaxAttachmentSize + 1) in
  if MaxAttachmentSize <? slen data then io_err (errorf ErrAttachmentTooLarge) else io_ret data.

Definition loadAttachment (files : fileOpener) (path : string) : M OutgoingAttachment :=
  let* r := io_try (Stat files path) in
  match r with
  | Err e => io_err (Wrap [e])
  | Ok (regular, size) =>
      if negb regular then io_err (errorf ErrNotAFile)
      else if MaxAttachmentSize <? size then io_err (errorf ErrAttachmentTooLarge)
      else
        let* r := io_try (readFile files path) in
        match r with
        | Err e => io_err (Wrap [e])
        | Ok data =>
            let typ := contentType path data in
            let '(width, height) :=
              if HasPrefix typ "image/" then
                match DecodeConfig data with
                | Some (w, h) => if (0 <? w) && (0 <? h) then (w mod (MaxUint32 + 1), h mod (MaxUint32 + 1)) else (0, 0)
                | None => (0, 0)
                end
              else (0, 0) in
            io_ret (mkOutgoing data typ (Base path) width height)
        end
  end.

(** All files, or every error joined. *)
Fixpoint load_each (files : fileOpener) (paths : list string) : M (list OutgoingAttachment * list err) :=
  match paths with
  | [] => io_ret ([], [])
  | path :: rest =>
      let* r := io_try (loadAttachment files path) in
      let* out := load_each files rest in
      io_ret (match r with Ok att => (att :: out.1, out.2) | Err e => (out.1, e :: out.2) end)
  end.

Definition loadAttachments (dir : string) (paths : list string) : M (list OutgoingAttachment) :=
  let* files := (if (dir != ""%string) && (0 <? len paths) then openAttachDir dir else io_ret osFiles) in
  let* out := load_each files paths in
  match errorsJoin out.2 with Some e => io_err e | None => io_ret out.1 end.
End attachments.

(** ** Files stay within the directory *)

Lemma local_abs dir file rel : local dir file = Ok rel -> IsLocal rel = true /\ rel = (if IsAbs file then Rel dir file else file).
Proof. unfold local. destruct (IsLocal _) eqn:E; cbn; [|done]. by intros [= <-]. Qed.

(** C11. A path that [local] accepts for an absolute directory names something below it: following
    it from the directory only adds plain names to the directory's own elements, no [..] and nothing
    else, whatever dots the path is written with; and when the path was absolute, what is opened
    there is the cleaned path that was named. A path that is refused is refused for being outside. *)
Theorem local_spec dir file : IsAbs dir = true ->
  match local dir file with
  | Ok rel =>
      (exists below : list string, clean_elements (dir ++ String Separator rel) = clean_elements dir ++ below /\ Forall name below)
      /\ (IsAbs file = true -> clean_elements (dir ++ String Separator rel) = clean_elements file)
  | Err e => errIs e ErrOutsideAttachDir = true
  end.
Proof.
  intros Hd. destruct (local dir file) as [rel|e] eqn:E.
  - apply local_abs in E as [Hl Hrel]. destruct (clean_elements_ok _ Hd) as [Hn _].
    rewrite (clean_elements_below _ _ Hd). split.
    + destruct (IsLocal_below rel (reverse (clean_elements dir)) Hl (proj2 (Forall_reverse _ _) Hn)) as (below & -> & Hb).
      exists (reverse below). rewrite reverse_app, reverse_involutive. split; [done|by apply Forall_reverse].
    + intros Ha. rewrite Hrel, Ha, (Rel_leads _ _ Hd Ha). apply reverse_involutive.
  - unfold local in E. destruct (negb _); [|done]. by injection E as <-.
Qed.
Lemma local_spec_witness :
  IsAbs "/home/me/out" = true /\ local "/home/me/out" "/home/me/out/../out/b/./c.png" = Ok "b/c.png"%string
  /\ exists below : list string, clean_elements ("/home/me/out" ++ String Separator "b/c.png") = clean_elements "/home/me/out" ++ below /\ Forall name below.
Proof.
  pose proof (local_spec "/home/me/out" "/home/me/out/../out/b/./c.png" eq_refl) as H.
  assert (E : local "/home/me/out" "/home/me/out/../out/b/./c.png" = Ok "b/c.png"%string) by (vm_compute; reflexivity).
  split; [reflexivity|]. split; [exact E|]. rewrite E in H. exact (proj1 H).
Defined.

(** ** What is loaded *)

Section loaded.
Context {W : Type} {F : Files W} {L : MediaLib}.
Notation M := (io W err).

(** What an attachment of a path is: its file's name, at most the largest size, and the type and
    dimensions of its content. *)
Definition attached (path : string) (att : OutgoingAttachment) : Prop :=
  slen (oat_Data att) <= MaxAttachmentSize /\ oat_Filename att = Base path
  /\ oat_ContentType att = contentType path (oat_Data att)
  /\ 0 <= oat_Width att <= MaxUint32 /\ 0 <= oat_Height att <= MaxUint32
  /\ (HasPrefix (oat_ContentType att) "image/" = false -> oat_Width att = 0 /\ oat_Height att = 0).

(** With a directory, only what is local to it is opened. *)
Definition within (files : fileOpener) (path : string) : Prop :=
  match files with osFiles => True | attachDir dir => exists rel, local dir path = Ok rel end.

Lemma Stat_within files path : triple (E:=err) (fun _ : W => True) (Stat files path) (fun _ _ => within files path) (fun _ => True).
Proof.
  destruct files as [|dir]; [by intros w _; destruct (Stat osFiles path w) as [[]]|]. intros w _. cbn [Stat within].
  unfold io_bind at 1, io_of. destruct (local dir path) as [rel|e]; [|done].
  match goal with |- match ?x with _ => _ end => destruct x as [[]] end; [by exists rel|done].
Qed.

Lemma dimensions_bounds typ data : let d := (if HasPrefix typ "image/" then
    match DecodeConfig data with
    | Some (w, h) => if (0 <? w) && (0 <? h) then (w mod (MaxUint32 + 1), h mod (MaxUint32 + 1)) else (0, 0)
    | None => (0, 0)
    end else (0, 0)) in
  0 <= d.1 <= MaxUint32 /\ 0 <= d.2 <= MaxUint32 /\ (HasPrefix typ "image/" = false -> d.1 = 0 /\ d.2 = 0).
Proof.
  cbv zeta. destruct (HasPrefix typ _); [|done]. destruct (DecodeConfig data) as [[w h]|]; [|done].
  destruct (_ && _); [|done]. cbn [fst snd]. pose proof (Z.mod_pos_bound w (MaxUint32 + 1) eq_refl).
  pose proof (Z.mod_pos_bound h (MaxUint32 + 1) eq_refl). split_and!; first [lia|done].
Qed.

Lemma loadAttachment_spec files path : triple (E:=err) (fun _ : W => True) (loadAttachment files path)
  (fun att _ => attached path att /\ within files path) (fun _ => True).
Proof.
  unfold loadAttachment. apply (triple_bind _ _ _ (fun r _ => match r with Ok _ => within files path | Err _ => True end)).
  { intros w _. pose proof (Stat_within files path w I) as H. unfold io_try. destruct (Stat files path w) as [[]]; exact H. }
  intros [[regular size]|e]; [|by intros w _]. destruct (negb regular); [by intros w _|]. destruct (MaxAttachmentSize <? size); [by intros w _|].
  apply (triple_bind _ _ _ (fun r _ => match r with Ok data => slen data <= MaxAttachmentSize /\ within files path | Err _ => True end)).
  { intros w Hw. unfold io_try, readFile, io_bind. destruct (Read files path _ w) as [[data|]]; [|done].
    destruct (MaxAttachmentSize <? slen data) eqn:E; [done|]. apply Z.ltb_ge in E. by split. }
  intros [data|e]; [|by intros w _]. cbv zeta. pose proof (dimensions_bounds (contentType path data) data) as Hd.
  cbv zeta in Hd. destruct (if HasPrefix _ _ then _ else _) as [width height]. intros w [Hs Hw]. cbn in Hd |- *. by split_and!; try apply Hd.
Qed.

Lemma load_each_spec files paths : triple (E:=err) (fun _ : W => True) (load_each files paths)
  (fun out _ => out.2 = [] -> Forall2 (fun path att => attached path att /\ within files path) paths out.1) (fun _ => True).
Proof.
  induction paths as [|path paths IH]; intros w _; [by constructor|]. cbn [load_each]. unfold io_bind, io_try.
  pose proof (loadAttachment_spec files path w I) as H. destruct (loadAttachment files path w) as [r w1].
  specialize (IH w1 I). destruct (load_each files paths w1) as [[out|] w2]; [|done]. cbn.
  destruct r; cbn; [intros Ho; constructor; [exact H|by apply IH]|done].
Qed.

(** [loadAttachments] gives all of the files or none: when it succeeds there is one attachment
    per path, in their order, each of at most [MaxAttachmentSize] bytes (whatever size the file was
    said to have before it was read), with the name, content type and dimensions of its file; with a
    directory, that directory was opened and every path lies within it. *)
Theorem loadAttachments_spec dir paths w :
  match fst (loadAttachments dir paths w) with
  | Ok atts => exists files, Forall2 (fun path att => attached path att /\ within files path) paths atts
      /\ (dir <> ""%string -> paths <> [] -> exists abs w', files = attachDir abs /\ os_Abs dir w = (Ok abs, w'))
  | Err _ => True
  end.
Proof.
  unfold loadAttachments, io_bind at 1. destruct (_ && _) eqn:Ed; cbn [io_ret].
  - unfold openAttachDir, io_bind at 1, io_try. destruct (os_Abs dir w) as [[abs|e] w1]; [|done].
    unfold io_bind at 1. destruct (os_OpenRoot abs w1) as [[u|e] w2]; [|done]. cbn [io_ret]. unfold io_bind.
    pose proof (load_each_spec (attachDir abs) paths w2 I) as H. destruct (load_each _ paths w2) as [[out|] w3]; [|done].
    unfold errorsJoin. destruct out.2; [|done]. exists (attachDir abs). split; [by apply H|]. intros _ _. by exists abs, w1.
  - unfold io_bind. pose proof (load_each_spec osFiles paths w I) as H. destruct (load_each _ paths w) as [[out|] w3]; [|done].
    unfold errorsJoin. destruct out.2; [|done]. exists osFiles. split; [by apply H|]. intros Hd Hp. exfalso.
    apply andb_false_iff in Ed as [Ed|Ed]; [by apply negb_false_iff, bool_decide_eq_true_1 in Ed|].
    destruct paths; [done|]. apply Z.ltb_ge in Ed. unfold len in Ed. cbn [length] in Ed. lia.
Qed.
End loaded.
