(* ===== verification/AppSend.v ===== *)
(** * Sending a message (internal/app/send.go, content.go, sticker.go)

    [Send]: a message is checked, its styles and files are read, and only then the application connects,
    resolves, uploads and sends ([SendFlow.sendPreparedContent]). *)

From S2P Require Import Prelude Errors Uuid Utf8 Base64 Types SendCheck Groups Recipients SendFlow Content FilePath Attachments.

Record StickerData := mkStickerData { sda_Emoji : string; sda_Image : OutgoingAttachment }.

Record StoryAudience := mkAudience {
  aud_ID : string; aud_Name : string; aud_IsBlockList : bool; aud_Recipients : list Recipient; aud_AllowsReplies : bool }.
Record StoryAudiences := mkAudiences { aus_StorageVersion : Z; aus_Audiences : list StoryAudience }.

(** More of signal.Client: what operations that write need besides [Client]. *)
Class WriteClient (W : Type) := {
  client_Upload : list OutgoingAttachment -> io W err (list UploadedAttachment);
  client_FetchSticker : StickerReference -> io W err StickerData;
  client_ReservePollVote : PollVoteCounterRequest -> io W err Z;
  client_Group : string -> io W err Group;
  client_StoryAudiences : io W err StoryAudiences;
}.

(** [SendRequest] of the application. *)
Record app_SendRequest := mkAppSend {
  snd_Recipients : list string; snd_Body : string; snd_Styles : list string; snd_Attachments : list string;
  snd_Sticker : option StickerReference; snd_AttachDir : string; snd_Quote : string; snd_QuoteText : string;
  snd_EditTarget : Z }.

Definition with_Body (req : app_SendRequest) (body : string) : app_SendRequest :=
  mkAppSend (snd_Recipients req) body (snd_Styles req) (snd_Attachments req) (snd_Sticker req) (snd_AttachDir req)
    (snd_Quote req) (snd_QuoteText req) (snd_EditTarget req).

(** An empty [content], and one with only a body and the target of an edit. *)
Definition text_content (body : string) (editTarget : Z) : content :=
  mkContent None None None None None None body None [] [] [] None 0 editTarget.
Definition zeroContent : content := text_content "" 0.
Definition with_mentions (c : content) (quote : option Quote) (mentions : list Mention) : content :=
  mkContent (cnt_pin c) (cnt_unpin c) (cnt_pollCreate c) (cnt_pollVote c) (cnt_pollClose c) (cnt_sticker c) (cnt_body c)
    quote mentions (cnt_styles c) (cnt_attachments c) (cnt_reaction c) (cnt_deleteTarget c) (cnt_editTarget c).
Definition with_rich (c : content) (styles : list TextStyle) (attachments : list UploadedAttachment) : content :=
  mkContent (cnt_pin c) (cnt_unpin c) (cnt_pollCreate c) (cnt_pollVote c) (cnt_pollClose c) (cnt_sticker c) (cnt_body c)
    (cnt_quote c) (cnt_mentions c) styles attachments (cnt_reaction c) (cnt_deleteTarget c) (cnt_editTarget c).

(** ** Checks before connecting *)

Definition checkStickerRequest (req : app_SendRequest) : error :=
  match snd_Sticker req with
  | None => None
  | Some ref =>
      if (snd_Body req != ""%string) || negb (len (snd_Attachments req) =? 0) || (snd_Quote req != ""%string)
         || (snd_QuoteText req != ""%string) || negb (snd_EditTarget req =? 0) || negb (len (snd_Styles req) =? 0)
      then Some (Sent ErrInvalidSticker)
      else StickerReference_Check ref
  end.

(** [targets[i].Recipient] for the mention at [i]. *)
Fixpoint resolvedMentions (found : list mention) (targets : list Target) : res (list Mention) :=
  match found, targets with
  | [], _ => Ok []
  | m :: found, t :: targets =>
      rest ← resolvedMentions found targets;
      Ok (mkMention (mtn_start m) mentionLength (tgt_Recipient t) :: rest)
  | _ :: _, [] => Err index_panic
  end.

Section send.
Context {U : UuidLib} {W : Type} {C : Client W} {WC : WriteClient W} {F : Files W} {L : MediaLib} (allow : option Allowlist).

Notation M := (io (App W) err).

Definition checkRequest (req : app_SendRequest) : error :=
  if len (snd_Recipients req) =? 0 then Some (Sent ErrNoRecipients)
  else
    let errs := checkRecipients (snd_Recipients req) in
    errorsJoin (if snd_Quote req != ""%string then
                  match ParseQuote (snd_Quote req) with Err e => errs ++ [e] | Ok _ => errs end
                else if snd_QuoteText req != ""%string then errs ++ [errorf ErrInvalidQuote]
                else errs).

(** The request as it is sent, and its files. *)
Definition prepare (req : app_SendRequest) : M (app_SendRequest * list OutgoingAttachment) :=
  match snd_Sticker req with
  | Some _ => match checkRequest req with Some e => io_err e | None => io_ret (req, []) end
  | None =>
      let blank := TrimSpace (snd_Body req) == ""%string in
      if blank && (len (snd_Attachments req) =? 0) then io_err (Sent ErrEmptyMessage)
      else
        let req := if blank then with_Body req "" else req in
        match checkRequest req with
        | Some e => io_err e
        | None =>
            let* files := lift (loadAttachments (snd_AttachDir req) (snd_Attachments req)) in
            io_ret (req, files)
        end
  end.

(** ** Building the content *)

Definition buildSticker (ref : StickerReference) : M content :=
  let* data := lift (client_FetchSticker ref) in
  let* uploaded := lift (client_Upload [sda_Image data]) in
  match uploaded with
  | [image] => io_ret (mkContent None None None None None (Some (mkOutSticker ref (sda_Emoji data) image)) "" None [] [] [] None 0 0)
  | _ => io_err (errorf errNoResult)
  end.

Definition resolveContent (req : app_SendRequest) : M content :=
  let (body, found) := parseMentions (snd_Body req) in
  let (quoteText, quoteMentions) := parseMentions (snd_QuoteText req) in
  let out := text_content body (snd_EditTarget req) in
  let targets := (mtn_target <$> found) ++ (mtn_target <$> quoteMentions) in
  let* quoted := (if snd_Quote req != ""%string then let* q := io_of (ParseQuote (snd_Quote req)) in io_ret (Some q)
                  else io_ret None) in
  let targets := targets ++ (match quoted with Some (author, _) => [author] | None => [] end) in
  if len targets =? 0 then io_ret out
  else
    let* r := io_try (resolveUsers targets) in
    match r with
    | Err e => io_err (Wrap [e])
    | Ok targets =>
        let* mentions := io_of (resolvedMentions found targets) in
        match quoted with
        | None => io_ret (with_mentions out None mentions)
        | Some (_, timestamp) =>
            let* inQuote := io_of (resolvedMentions quoteMentions (drop (length found) targets)) in
            match last targets with
            | None => io_err index_panic
            | Some author => io_ret (with_mentions out (Some (mkQuote (tgt_Recipient author) timestamp quoteText inQuote)) mentions)
            end
        end
    end.

Definition buildContent (req : app_SendRequest) (files : list OutgoingAttachment) (styles : list TextStyle) : M content :=
  match snd_Sticker req with
  | Some ref => buildSticker ref
  | None =>
      let* out := resolveContent req in
      if len files =? 0 then io_ret (with_rich out styles [])
      else
        let* r := io_try (lift (client_Upload files)) in
        match r with
        | Err e => io_err (Wrap [e])
        | Ok attachments => io_ret (with_rich out styles attachments)
        end
  end.

Definition Send (req : app_SendRequest) : M (SendResult * error) :=
  match checkStickerRequest req with
  | Some e => io_err (Wrap [e])
  | None =>
      let* _ := app_checkEdit (snd_EditTarget req) (snd_Body req) in
      match parseStyles (snd_Body req) (snd_Styles req) with
      | Err e => io_err (Wrap [e])
      | Ok styles =>
          let* prepared := prepare req in
          let (req, files) := prepared : app_SendRequest * list OutgoingAttachment in
          sendContent allow (snd_Recipients req) (buildContent req files styles)
      end
  end.
End send.

(** ** Users that were resolved *)

(** What the facade promises of accounts and of [Resolve] ([Resolve.v] has its implementation):
    our ACI is a canonical UUID other than the nil one, and so is that of every recipient that had
    none. *)
Class ClientLaws {U : UuidLib} {W : Type} (C : Client W) : Prop := {
  Account_ACI w acc w' : client_Account w = (Ok acc, w') -> canonical_uuid (acc_ACI acc) = true;
  Resolve_ACI rs w out w' : client_Resolve rs w = (Ok out, w') ->
    Forall2 (fun r r' => (r' = r /\ ACI r <> ""%string) \/ canonical_uuid (ACI r') = true) rs out;
}.

(** A target after resolving: a group is as it was; a user has an ACI, the one that was named or a
    canonical one. *)
Definition resolved_as {U : UuidLib} (t t' : Target) : Prop :=
  if Target_IsGroup t then t' = t
  else Target_IsGroup t' = false
       /\ (canonical_uuid (ACI (tgt_Recipient t')) = true \/ (t' = t /\ ACI (tgt_Recipient t) <> ""%string)).

Section resolved.
Context {U : UuidLib} {W : Type} {C : Client W} {CL : ClientLaws C}.

(** A target after looking for ourselves: resolved already, or left alone without an ACI. *)
Definition marked_as (pending : list nat) (i : nat) (t t' : Target) : Prop :=
  resolved_as t t' \/ (t' = t /\ Target_IsGroup t = false /\ ACI (tgt_Recipient t) = ""%string /\ i ∈ pending).

Lemma markSelf_loop_spec ts i own s ts' pending s' :
  markSelf_loop i own ts s = (Ok (ts', pending), s') -> (forall acc, own = Some acc -> canonical_uuid (acc_ACI acc) = true) ->
  length ts' = length ts
  /\ (forall k t t', ts !! k = Some t -> ts' !! k = Some t' -> marked_as pending (i + k) t t')
  /\ Forall (fun j => i <= j /\ exists t, ts' !! (j - i)%nat = Some t /\ Target_IsGroup t = false /\ ACI (tgt_Recipient t) = ""%string)%nat pending.
Proof.
  revert i own s ts' pending s'. induction ts as [|t ts IH]; intros i own s ts' pending s'; cbn [markSelf_loop].
  { intros [= <- <- _] _. split_and!; [done|intros k ? ? H; by rewrite lookup_nil in H|constructor]. }
  assert (Hstep : forall j t0 out, (j = [] \/ j = [i] /\ t0 = t /\ Target_IsGroup t = false /\ ACI (tgt_Recipient t) = ""%string) ->
    (j = [] -> resolved_as t t0) -> length out.1 = length ts ->
    (forall k u u', ts !! k = Some u -> out.1 !! k = Some u' -> marked_as out.2 (S i + k) u u') ->
    Forall (fun j => S i <= j /\ exists t, out.1 !! (j - S i)%nat = Some t /\ Target_IsGroup t = false /\ ACI (tgt_Recipient t) = ""%string)%nat out.2 ->
    length (t0 :: out.1) = S (length ts)
    /\ (forall k u u', (t :: ts) !! k = Some u -> (t0 :: out.1) !! k = Some u' -> marked_as (j ++ out.2) (i + k) u u')
    /\ Forall (fun j => i <= j /\ exists t, (t0 :: out.1) !! (j - i)%nat = Some t /\ Target_IsGroup t = false /\ ACI (tgt_Recipient t) = ""%string)%nat (j ++ out.2)).
  { intros j t0 out Hj Hr Hl Hm Hf. split_and!; [cbn; lia| |].
    - intros [|k] u u'; cbn; [intros [= <-] [= <-]|].
      + destruct Hj as [->|(-> & -> & Hg & Ha)]; [left; by apply Hr|right]. rewrite Nat.add_0_r. split_and!; [done..|]. by left.
      + intros Hu Hu'. destruct (Hm _ _ _ Hu Hu') as [?|(? & ? & ? & Hin)]; [by left|right]. split_and!; [done..|].
        replace (i + S k)%nat with (S i + k)%nat by lia. apply elem_of_app. by right.
    - apply Forall_app. split.
      + destruct Hj as [->|(-> & -> & Hg & Ha)]; [constructor|]. constructor; [|constructor]. split; [lia|].
        exists t. rewrite Nat.sub_diag. done.
      + eapply Forall_impl; [exact Hf|]. intros j0 (Hle & u & Hu & Hg' & Ha). split; [lia|]. exists u.
        replace (j0 - i)%nat with (S (j0 - S i)) by lia. done. }
  destruct (Target_IsGroup t) eqn:Hg.
  - intros H Hown. apply io_bind_Ok in H as (out & s1 & Hloop & [= <- <- <-]). destruct out as [ts1 p1].
    destruct (IH _ _ _ _ _ _ Hloop Hown) as (Hl & Hm & Hf). apply (Hstep [] t (ts1, p1)); try done; [by left|].
    unfold resolved_as. by rewrite Hg.
  - intros H Hown. apply io_bind_Ok in H as (acc & s1 & Hacc & H). apply io_bind_Ok in H as ([ts1 p1] & s2 & Hloop & H).
    assert (Ha : canonical_uuid (acc_ACI acc) = true).
    { destruct own as [a|]; [injection Hacc as <- _; by apply Hown|]. unfold lift in Hacc.
      destruct (client_Account (app_world s)) as [[a|] w] eqn:E; [|done]. injection Hacc as <- _. by eapply Account_ACI. }
    destruct (IH _ _ _ _ _ _ Hloop) as (Hl & Hm & Hf); [by intros ? [= <-]|]. cbn [fst snd] in H.
    destruct (isOwn t acc); [|destruct (bool_decide (ACI (tgt_Recipient t) = ""%string)) eqn:Ee; bool_hyps]; injection H as <- <- <-.
    + eapply (Hstep [] _ (ts1, p1)); try done; [by left|]. intros _. unfold resolved_as. rewrite Hg. split; [done|by left].
    + apply (Hstep [i] t (ts1, p1)); try done. by right.
    + apply (Hstep [] t (ts1, p1)); try done; [by left|]. intros _. unfold resolved_as. rewrite Hg. split; [done|by right].
Qed.

Lemma fill_spec ts pending resolved ts' : fill ts pending resolved = Ok ts' ->
  length ts' = length ts /\ forall k t t', ts !! k = Some t -> ts' !! k = Some t' ->
    tgt_GroupID t' = tgt_GroupID t /\ ((t' = t /\ k ∉ pending) \/ (k ∈ pending /\ tgt_Recipient t' ∈ resolved)).
Proof.
  revert ts resolved. induction pending as [|i pending IH]; intros ts resolved; cbn [fill].
  - intros [= <-]. split; [done|]. intros k t t' Ht Ht'. rewrite Ht in Ht'. injection Ht' as <-. split; [done|]. left. split; [done|]. by intros ?%elem_of_nil.
  - destruct resolved as [|r resolved]; [done|]. intros H. destruct (IH _ _ H) as [Hl Hk]. rewrite length_alter in Hl. split; [done|].
    intros k t t' Ht Ht'. destruct (decide (k = i)) as [->|Hne].
    + destruct (Hk i (mkTarget r (tgt_GroupID t) (tgt_Self t)) t') as [Hid Hd]; [rewrite list_lookup_alter_eq, Ht; done|done|].
      split; [exact Hid|]. right. split; [by left|]. destruct Hd as [[-> _]|[_ Hin]]; [by left|by right].
    + destruct (Hk k t t') as [Hid Hd]; [by rewrite list_lookup_alter_ne|done|]. split; [done|]. destruct Hd as [[-> Hn]|[Hin Hr]].
      * left. split; [done|]. by intros [?|?]%elem_of_cons.
      * right. split; by right.
Qed.

Lemma resolveUsers_Ok ts s ts' s' : resolveUsers ts s = (Ok ts', s') -> Forall2 resolved_as ts ts'.
Proof.
  unfold resolveUsers. intros H. apply io_bind_Ok in H as ([ts1 pending] & s1 & Hm & H).
  apply markSelf_loop_spec in Hm as (Hl & Hm & Hp); [|done].
  apply Forall2_same_length_lookup. destruct (len pending =? 0) eqn:E.
  { apply Z.eqb_eq, len_zero in E. subst pending. injection H as <- _. split; [done|]. intros k t t' Ht Ht'.
    destruct (Hm k t t' Ht Ht') as [?|(_ & _ & _ & ?%elem_of_nil)]; done. }
  apply io_bind_Ok in H as (out & s2 & Hr & H). unfold io_of in H. destruct (fill ts1 pending out) as [ts2|] eqn:Hf; [|done].
  injection H as <- _. unfold lift in Hr. destruct (client_Resolve _ (app_world s1)) as [[rs|] w] eqn:Ec; [|done]. injection Hr as <- _.
  apply Resolve_ACI in Ec. assert (Hcan : forall r, r ∈ rs -> canonical_uuid (ACI r) = true).
  { intros r [k Hk]%list_elem_of_lookup. destruct (Forall2_lookup_r _ _ _ _ _ Ec Hk) as (r0 & H0 & [[-> Hne]|?]); [|done].
    apply list_lookup_fmap_Some in H0 as (j & Hr0 & Hj). eapply Forall_lookup_1 in Hp as (_ & t & Ht & _ & Ha); [|exact Hj].
    rewrite Nat.sub_0_r in Ht. rewrite Hr0, Ht in Hne. by destruct Hne. }
  apply fill_spec in Hf as [Hl2 Hk]. split; [congruence|]. intros k t t' Ht Ht'.
  destruct (lookup_lt_is_Some_2 ts1 k) as [t1 Ht1]; [rewrite Hl; by eapply lookup_lt_Some|].
  destruct (Hk k t1 t' Ht1 Ht') as [Hid [[-> Hn]|[Hin Hrs]]].
  - destruct (Hm k t t1 Ht Ht1) as [?|(_ & _ & _ & ?)]; [done|]. by destruct Hn.
  - apply list_elem_of_lookup in Hin as [j Hj]. eapply Forall_lookup_1 in Hp as (_ & t2 & Ht2 & Hg & _); [|exact Hj].
    rewrite Nat.sub_0_r in Ht2. rewrite Ht1 in Ht2. injection Ht2 as <-. unfold resolved_as. destruct (Target_IsGroup t) eqn:Ht0.
    + destruct (Hm k t t1 Ht Ht1) as [Hra|(-> & Hx & _)]; [|congruence]. unfold resolved_as in Hra. rewrite Ht0 in Hra. congruence.
    + split; [|left; by apply Hcan]. unfold Target_IsGroup in *. by rewrite Hid.
Qed.

(** A user target's ACI that was named is some UUID in its canonical form. *)
Lemma parse_wellformed arg t : ParseRecipient arg = Ok t ->
  if Target_IsGroup t then validPollGroup (tgt_GroupID t) = true
  else ACI (tgt_Recipient t) <> ""%string -> exists id, ACI (tgt_Recipient t) = uuid_string id.
Proof.
  unfold ParseRecipient. destruct (EqualFold _ _); [intros [= <-] H; by destruct H|]. destruct (HasPrefix _ GroupPrefix).
  { unfold parseGroup. destruct (decodeGroupKey _) as [key|] eqn:Ek; [|done]. intros [= <-].
    apply decodeGroupKey_Some in Ek as (raw & El & ->). unfold Target_IsGroup. cbn [tgt_GroupID groupTarget]. case_bool_decide; [intros Hx; by destruct Hx|]. cbn [negb].
    unfold validPollGroup. rewrite DecodeString_EncodeToString, El. by rewrite bool_decide_eq_true_2. }
  destruct (cut_prefix _ _); [destruct (_ || _); [done|intros [= <-] H; by destruct H]|].
  destruct (HasPrefix _ "+"); [destruct (negb _); [done|intros [= <-] H; by destruct H]|].
  destruct (uuid_parse _) as [id|]; [|done]. destruct (negb _); [done|]. intros [= <-]. cbn. by exists id.
Qed.

(** Where a message can go: a group with a canonical key, or a user with the canonical form of a UUID. *)
Definition destination (t : Target) : Prop :=
  if Target_IsGroup t then validPollGroup (tgt_GroupID t) = true
  else canonical_uuid (ACI (tgt_Recipient t)) = true
       \/ exists id, ACI (tgt_Recipient t) = uuid_string id /\ ACI (tgt_Recipient t) <> ""%string.

Lemma resolved_destination arg t t' : ParseRecipient arg = Ok t -> resolved_as t t' -> destination t'.
Proof.
  intros Hp%parse_wellformed. unfold resolved_as, destination. destruct (Target_IsGroup t) eqn:Hg.
  - intros ->. by rewrite Hg.
  - intros [-> [?|[-> Hne]]]; [by left|right]. destruct (Hp Hne) as [id ?]. by exists id.
Qed.

Lemma parse_args_Ok args ts : parse_args args = (ts, []) -> Forall2 (fun arg t => ParseRecipient arg = Ok t) args ts.
Proof.
  revert ts. induction args as [|arg args IH]; intros ts; cbn [parse_args]; [intros [= <-]; constructor|].
  destruct (parse_args args) as [ts0 es]. destruct (ParseRecipient arg) eqn:E; [|done]. intros [= <- ->]. constructor; [done|by apply IH].
Qed.

Lemma ResolveRecipients_Ok args s targets s' : ResolveRecipients args s = (Ok targets, s') ->
  exists parsed resolved, Forall2 (fun arg t => ParseRecipient arg = Ok t) args parsed
    /\ Forall2 resolved_as parsed resolved /\ targets = dedupe resolved.
Proof.
  unfold ResolveRecipients. destruct (parse_args args) as [parsed errs] eqn:Hp. destruct errs; [|done]. cbn [errorsJoin].
  intros H. apply io_bind_Ok in H as (r & s1 & Hr & H). unfold io_try in Hr.
  destruct (resolveUsers parsed s) as [[resolved|] s2] eqn:E; injection Hr as <- <-; [|done]. injection H as <- _.
  exists parsed, resolved. split_and!; [by apply parse_args_Ok|by eapply resolveUsers_Ok|done].
Qed.

Lemma ResolveRecipients_destinations args s targets s' : ResolveRecipients args s = (Ok targets, s') ->
  Forall destination targets /\ (args <> [] -> targets <> []).
Proof.
  intros (parsed & resolved & Hp & Hr & ->)%ResolveRecipients_Ok. split.
  - apply Forall_forall. intros t Ht. pose proof (elem_of_sublist _ _ _ Ht (dedup_from_sublist _ _ _)) as [k Hk]%list_elem_of_lookup.
    destruct (Forall2_lookup_r _ _ _ _ _ Hr Hk) as (t0 & H0 & Hres).
    destruct (Forall2_lookup_r _ _ _ _ _ Hp H0) as (arg & _ & Harg). by eapply resolved_destination.
  - intros Hne He. destruct args; [done|]. inversion Hp; subst. inversion Hr; subst. done.
Qed.

Lemma ResolveRecipients_one arg s targets s' : ResolveRecipients [arg] s = (Ok targets, s') ->
  exists t t', ParseRecipient arg = Ok t /\ resolved_as t t' /\ targets = [t'].
Proof.
  intros (parsed & resolved & Hp & Hr & ->)%ResolveRecipients_Ok. inversion Hp as [|? t ? ? Ht Hn]; subst. inversion Hn; subst.
  inversion Hr as [|? t' ? ? Ht' Hn']; subst. inversion Hn'; subst. by exists t, t'.
Qed.
End resolved.

(** ** The requests of a message *)

Section requests.
Context {U : UuidLib}.

Lemma requests_elem msg ts targets r : r ∈ user_request msg ts targets ++ group_requests msg ts targets ->
  (exists users, users <> [] /\ users = tgt_Recipient <$> filter (fun t => Target_IsGroup t = false) targets /\ r = request msg ts users "")
  \/ exists t, t ∈ targets /\ Target_IsGroup t = true /\ r = request msg ts [] (tgt_GroupID t).
Proof.
  intros [H|H]%elem_of_app.
  - left. unfold user_request in H. destruct (tgt_Recipient <$> _) as [|u us] eqn:E; [by apply elem_of_nil in H|].
    apply list_elem_of_singleton in H. by exists (u :: us).
  - right. unfold group_requests in H. apply list_elem_of_fmap in H as (t & -> & [Hg Ht]%list_elem_of_filter). by exists t.
Qed.

Lemma single_requests msg ts t r : r ∈ user_request msg ts [t] ++ group_requests msg ts [t] ->
  r = if Target_IsGroup t then request msg ts [] (tgt_GroupID t) else request msg ts [tgt_Recipient t] "".
Proof.
  unfold user_request, group_requests. rewrite !filter_cons, !filter_nil. destruct (Target_IsGroup t); cbn; by intros ->%list_elem_of_singleton.
Qed.

(** Every request of a message has one kind of destination, so only its content decides. *)
Lemma Check_request msg ts targets r : r ∈ user_request msg ts targets ++ group_requests msg ts targets ->
  Bool.eqb (req_GroupID r == ""%string) (len (req_Recipients r) =? 0) = false.
Proof.
  intros [(users & Hne & _ & ->)|(t & _ & Hg & ->)]%requests_elem; cbn.
  - destruct users; [done|]. done.
  - unfold Target_IsGroup in Hg. destruct (bool_decide _); done.
Qed.
End requests.

(** ** What Send sends *)

Section send_spec.
Context {U : UuidLib} {W : Type} {C : Client W} {WC : WriteClient W} {F : Files W} {L : MediaLib} {CL : ClientLaws C} (allow : option Allowlist).

Lemma buildSticker_keeps ref : keeps_logs (buildSticker ref).
Proof.
  apply keeps_bind; [apply keeps_lift|]. intros data. apply keeps_bind; [apply keeps_lift|]. intros [|u [|]]; [apply keeps_err|apply keeps_ret|apply keeps_err].
Qed.

Lemma resolveContent_keeps req : keeps_logs (resolveContent req).
Proof.
  unfold resolveContent. destruct (parseMentions _) as [body found], (parseMentions _) as [qt qm].
  apply keeps_bind; [destruct (_ != _); [apply keeps_bind; [apply keeps_of|intros ?; apply keeps_ret]|apply keeps_ret]|].
  intros quoted. destruct (len _ =? 0); [apply keeps_ret|]. apply keeps_bind; [apply keeps_try, resolveUsers_keeps|].
  intros [targets|e]; [|apply keeps_err]. apply keeps_bind; [apply keeps_of|]. intros ms. destruct quoted as [[author ts]|]; [|apply keeps_ret].
  apply keeps_bind; [apply keeps_of|]. intros ?. destruct (last targets); [apply keeps_ret|apply keeps_err].
Qed.

Lemma buildContent_keeps req files styles : keeps_logs (buildContent req files styles).
Proof.
  unfold buildContent. destruct (snd_Sticker req); [apply buildSticker_keeps|].
  apply keeps_bind; [apply resolveContent_keeps|]. intros out. destruct (len files =? 0); [apply keeps_ret|].
  apply keeps_bind; [apply keeps_try, keeps_lift|]. intros [a|e]; [apply keeps_ret|apply keeps_err].
Qed.

Lemma prepare_keeps req : keeps_logs (prepare req).
Proof.
  unfold prepare. destruct (snd_Sticker req); [destruct (checkRequest req); [apply keeps_err|apply keeps_ret]|].
  destruct (_ && _); [apply keeps_err|]. destruct (checkRequest _); [apply keeps_err|].
  apply keeps_bind; [apply keeps_lift|]. intros ?. apply keeps_ret.
Qed.

Lemma app_checkEdit_keeps t body : keeps_logs (app_checkEdit t body).
Proof.
  intros s r s'. unfold app_checkEdit. destruct (t =? 0); [by intros [= _ <-]|]. destruct (client_now _). destruct (_ || _); by intros [= _ <-].
Qed.

Lemma app_checkEdit_Ok t body s u s' : app_checkEdit t body s = (Ok u, s') -> t <> 0 -> is_blank body = false.
Proof.
  unfold app_checkEdit. destruct (t =? 0) eqn:E; [apply Z.eqb_eq in E; done|]. destruct (client_now _). destruct (_ <=? _); [done|].
  unfold is_blank. destruct (bool_decide _); done.
Qed.

(** The text as it is sent: without one of white space only, which attachments may come with. *)
Definition sent_text (req : app_SendRequest) : string := if is_blank (snd_Body req) then "" else snd_Body req.

Lemma prepare_Ok req s req' files s' : prepare req s = (Ok (req', files), s') ->
  snd_Sticker req' = snd_Sticker req /\ snd_EditTarget req' = snd_EditTarget req /\ snd_Recipients req' = snd_Recipients req
  /\ snd_Quote req' = snd_Quote req /\ checkRequest req' = None /\ (snd_Sticker req = None -> snd_Body req' = sent_text req)
  /\ (snd_Sticker req = None -> is_blank (snd_Body req) = true -> snd_Attachments req <> []).
Proof.
  unfold prepare, sent_text, is_blank. destruct (snd_Sticker req) eqn:Hst.
  { destruct (checkRequest req) eqn:E; [done|]. intros [= <- _ _]. by split_and!. }
  destruct (bool_decide (TrimSpace (snd_Body req) = ""%string)); cbn [andb].
  - destruct (len _ =? 0) eqn:El; [done|]. destruct (checkRequest _) eqn:Ec; [done|]. intros H.
    apply io_bind_Ok in H as (fs & s1 & _ & [= <- _ _]). cbn. split_and!; try done. intros _ _ Hn. by rewrite Hn in El.
  - destruct (checkRequest _) eqn:Ec; [done|]. intros H. apply io_bind_Ok in H as (fs & s1 & _ & [= <- _ _]). by split_and!.
Qed.

(** The user a mention names: with the ACI that was given, or a canonical one. *)
Definition named (t : Target) (r : Recipient) : Prop :=
  canonical_uuid (ACI r) = true \/ (r = tgt_Recipient t /\ ACI r <> ""%string).

(** Mentions as they are sent: where they were found, for the user they name. *)
Definition mentions_of (found : list mention) (ms : list Mention) : Prop :=
  Forall2 (fun f m => men_Start m = mtn_start f /\ men_Length m = mentionLength /\ named (mtn_target f) (men_Recipient m)) found ms.

Lemma resolvedMentions_Ok found rest targets ms : resolvedMentions found targets = Ok ms ->
  Forall (fun f => Target_IsGroup (mtn_target f) = false) found ->
  Forall2 resolved_as ((mtn_target <$> found) ++ rest) targets -> mentions_of found ms.
Proof.
  revert targets ms. induction found as [|f found IH]; intros targets ms; cbn [resolvedMentions]; [intros [= <-] _ _; constructor|].
  destruct targets as [|t targets]; [done|]. destruct (resolvedMentions found targets) as [ms'|] eqn:E; [|done]. cbn. intros [= <-] Hf Hr.
  inversion Hf as [|? ? Hg Hf']; subst. inversion Hr as [|? ? ? ? Ht Hr']; subst. constructor; [|by eapply IH].
  cbn. split_and!; [done|done|]. unfold resolved_as in Ht. rewrite Hg in Ht. destruct Ht as [_ [?|[-> ?]]]; [by left|by right].
Qed.

Lemma parseMentions_users body : Forall (fun f => Target_IsGroup (mtn_target f) = false) (parseMentions body).2.
Proof.
  destruct (parseMentions_parts body) as (parts & tail & _ & -> & Hp & _). cbn [snd]. generalize 0 as n.
  induction Hp as [|[[before arg] t] parts (_ & _ & _ & Hg) _ IH]; intros n; cbn [starts]; constructor; [exact Hg|apply IH].
Qed.

(** A content of text: only the parts a message of the user has. *)
Definition plain (c : content) (body : string) (editTarget : Z) (found : list mention) : Prop :=
  exists quote mentions, c = with_mentions (text_content body editTarget) quote mentions /\ mentions_of found mentions.

Lemma resolveContent_Ok req s c s' : resolveContent req s = (Ok c, s') ->
  plain c (parseMentions (snd_Body req)).1 (snd_EditTarget req) (parseMentions (snd_Body req)).2.
Proof.
  pose proof (parseMentions_users (snd_Body req)) as Hu.
  unfold resolveContent, plain. destruct (parseMentions (snd_Body req)) as [body found], (parseMentions (snd_QuoteText req)) as [qt qm].
  cbn [fst snd] in *. intros H. apply io_bind_Ok in H as (quoted & s1 & _ & H).
  destruct (len _ =? 0) eqn:El.
  { injection H as <- _. apply Z.eqb_eq, len_zero, app_nil in El as [[Hf _]%app_nil _]. apply fmap_nil_inv in Hf as ->.
    exists None, []. split; [done|constructor]. }
  apply io_bind_Ok in H as (r & s2 & Hr & H). destruct r as [targets|e]; [|done]. unfold io_try in Hr.
  destruct (resolveUsers _ s1) as [[ts|] s2'] eqn:E; [|done]. injection Hr as -> <-. apply resolveUsers_Ok in E. rewrite <- app_assoc in E.
  apply io_bind_Ok in H as (ms & s3 & Hm & H). unfold io_of in Hm. injection Hm as Hm <-. apply (resolvedMentions_Ok _ _ _ _ Hm Hu) in E.
  destruct quoted as [[author ts]|]; [|injection H as <- _; by exists None, ms].
  apply io_bind_Ok in H as (inq & s4 & _ & H). destruct (last targets); [|done]. injection H as <- _. by eexists _, ms.
Qed.

(** What a message of the application is sent as. *)
Definition message_of (req : app_SendRequest) (styles : list TextStyle) (c : content) : Prop :=
  match snd_Sticker req with
  | Some ref => exists emoji image,
      c = mkContent None None None None None (Some (mkOutSticker ref emoji image)) "" None [] [] [] None 0 0
  | None => exists quote mentions attachments,
      c = with_rich (with_mentions (text_content (parseMentions (sent_text req)).1 (snd_EditTarget req)) quote mentions) styles attachments
      /\ mentions_of (parseMentions (sent_text req)).2 mentions
  end.

Lemma buildContent_Ok req req' files styles s s1 s0 c s' : prepare req s = (Ok (req', files), s1) ->
  buildContent req' files styles s0 = (Ok c, s') -> message_of req styles c.
Proof.
  intros (Hst & He & _ & _ & _ & Hb & _)%prepare_Ok. unfold buildContent, message_of. rewrite Hst. destruct (snd_Sticker req) as [ref|].
  - intros H. apply io_bind_Ok in H as (data & s2 & _ & H). apply io_bind_Ok in H as (up & s3 & _ & H).
    destruct up as [|image [|]]; [done| |done]. injection H as <- _. by eexists _, image.
  - specialize (Hb eq_refl). intros H. apply io_bind_Ok in H as (out & s2 & Hout & H). apply resolveContent_Ok in Hout as (q & ms & -> & Hms).
    rewrite Hb, He in *. destruct (len files =? 0); [injection H as <- _; by exists q, ms, []|].
    apply io_bind_Ok in H as (r & s3 & _ & H). destruct r as [atts|e]; [|done]. injection H as <- _. by exists q, ms, atts.
Qed.

(** The check of the facade accepts what [message_of] says, unless an edit's target is not past. *)
Lemma message_passes req styles msg ts targets r : message_of req styles msg ->
  parseStyles (snd_Body req) (snd_Styles req) = Ok styles -> checkStickerRequest req = None ->
  (snd_EditTarget req <> 0 -> is_blank (snd_Body req) = false) -> 0 < ts ->
  r ∈ user_request msg ts targets ++ group_requests msg ts targets ->
  Check r = None \/ (snd_EditTarget req <> 0 /\ ts <= snd_EditTarget req).
Proof.
  intros Hm Hs Hst He Hts Hr. pose proof (Check_request _ _ _ _ Hr) as Hd.
  assert (Hreq : exists users gid, r = request msg ts users gid).
  { apply requests_elem in Hr as [(users & _ & _ & ->)|(t & _ & _ & ->)]; by do 2 eexists. }
  destruct Hreq as (users & gid & ->). clear Hr. unfold Check. cbn [req_Story request]. rewrite Hd. unfold message_of in Hm.
  unfold checkStickerRequest in Hst. destruct (snd_Sticker req) as [ref|].
  - destruct Hm as (emoji & image & ->). left. destruct (_ || _) in Hst; [done|]. exact Hst.
  - destruct Hm as (quote & ms & atts & -> & _). cbn [req_Body req_Styles request cnt_body cnt_styles with_rich].
    assert (Hc : CheckTextStyles (parseMentions (sent_text req)).1 styles = None).
    { unfold parseStyles in Hs. destruct (len (snd_Styles req) =? 0); [by injection Hs as <-|].
      unfold sent_text, is_blank. destruct (bool_decide (TrimSpace (snd_Body req) = ""%string)); [done|].
      destruct (parse_style_args _) as [sts|]; [|done]. cbn in Hs. destruct (CheckTextStyles _ sts) eqn:E; [done|]. injection Hs as <-. exact E. }
    cbn [cnt_body with_mentions text_content]. rewrite Hc. cbn [check_seq]. unfold hasPin, hasPoll. cbn -[Z.eqb checkEdit].
    destruct (snd_EditTarget req =? 0) eqn:Ee; [by left|]. apply Z.eqb_neq in Ee. cbn [negb].
    unfold checkEdit. cbn -[TrimSpace parseMentions sent_text]. pose proof (parseMentions_visible _ (He Ee)) as Hv. unfold sent_text.
    rewrite (He Ee). unfold is_blank in Hv. rewrite Hv. destruct (ts =? 0) eqn:E0; [apply Z.eqb_eq in E0; lia|]. cbn [negb andb].
    destruct (ts <=? snd_EditTarget req) eqn:El; [right; apply Z.leb_le in El; done|by left].
Qed.

(** C3. Sending a message. If it fails before sending, nothing was handed to the client. Otherwise
    the client got what was asked for: a sticker alone, or the text with its placeholders replaced
    (an all-blank text, which attachments may come with, is left out), the mentions at the offsets
    where they were found, each for a user with an ACI, the styles as parsed, and the target of an
    edit. Every request handed to the client passes the client's own check; the one exception is an
    edit whose target is not past any more because the clock went back since it was checked. *)
Theorem Send_spec req s : 0 <= app_lastTimestamp s < MaxUint64 ->
  match Send allow req s with
  | (Err _, s') => logs s' = logs s
  | (Ok (out, e), s') => exists targets msg styles,
      sends allow s s' targets msg out e
      /\ parseStyles (snd_Body req) (snd_Styles req) = Ok styles /\ message_of req styles msg
      /\ forall r, r ∈ app_sent s' -> r ∈ app_sent s \/ Check r = None
           \/ (snd_EditTarget req <> 0 /\ sres_Timestamp out <= snd_EditTarget req)
  end.
Proof.
  intros Hmax. unfold Send. destruct (checkStickerRequest req) eqn:Hst; [done|]. unfold io_bind at 1.
  destruct (app_checkEdit _ _ s) as [[u|e] s1] eqn:He; [|by eapply app_checkEdit_keeps]. pose proof (app_checkEdit_Ok _ _ _ _ _ He) as Hb.
  apply app_checkEdit_keeps in He. destruct (parseStyles _ _) as [styles|] eqn:Hs; [|done]. unfold io_bind at 1.
  destruct (prepare req s1) as [[[req' files]|e] s2] eqn:Hp; [|apply prepare_keeps in Hp; congruence].
  pose proof (prepare_keeps _ _ _ _ Hp) as Kp. assert (K2 : logs s2 = logs s) by congruence.
  assert (Hmax' : 0 <= app_lastTimestamp s2 < MaxUint64) by (injection K2 as -> _ _; done).
  pose proof (sendPreparedContent_run allow (snd_Recipients req') (fun _ => buildContent req' files styles) s2
    (fun _ => buildContent_keeps _ _ _) Hmax') as H. unfold sendContent.
  destruct (sendPreparedContent _ _ _ s2) as [[[out e]|e] s']; [|congruence].
  destruct H as (targets & msg & s3 & s4 & s5 & s6 & _ & _ & Hbuild & Hsends). apply (buildContent_Ok _ _ _ _ _ _ _ _ _ Hp) in Hbuild.
  exists targets, msg, styles. assert (Hsent : sends allow s s' targets msg out e).
  { unfold sends in *. injection K2 as Hl Hsnt _. by rewrite Hl, Hsnt in Hsends. }
  split_and!; [exact Hsent|done..|]. destruct Hsent as (-> & _ & _ & Hts & _). intros r [?|Hr]%elem_of_app; [by left|right].
  eapply message_passes; [exact Hbuild|exact Hs|exact Hst|exact Hb|lia|exact Hr].
Qed.
End send_spec.

Section witnesses.
Import DemoUuid.

(** A client with one account that uploads and fetches nothing. *)
#[local] Instance demo_client : Client unit := {|
  client_Account := io_ret (mkAccount "+4915112345678" "11111111-1111-4111-8111-111111111111" "" 1 "" 0 0 zero_time);
  client_Connect := io_ret tt;
  client_Resolve := fun rs => io_err (Sent ErrNotOnSignal);
  client_Send := fun req => io_ret (mkSigResult (req_Timestamp req) ((fun r => mkRcptResult r false None) <$> req_Recipients req) None);
  client_SendReceipt := fun _ _ _ => io_ret tt;
  client_now := fun w => (9000000, w) |}.
#[local] Instance demo_laws : ClientLaws demo_client.
Proof. split; [intros w acc w' [= <- _]; by vm_compute|intros rs w out w' [=]]. Qed.
#[local] Instance demo_write : WriteClient unit := {|
  client_Upload := fun _ => io_ret []; client_FetchSticker := fun _ => io_err (Sent ErrClosed);
  client_ReservePollVote := fun _ => io_ret 1; client_Group := fun _ => io_err (Sent ErrUnknownGroup);
  client_StoryAudiences := io_err (Sent ErrClosed) |}.
#[local] Instance demo_files : Files unit := {|
  os_Stat := fun _ => io_err (Sent ErrClosed); os_Read := fun _ _ => io_err (Sent ErrClosed); os_Abs := io_ret;
  os_OpenRoot := fun _ => io_ret tt; root_Stat := fun _ _ => io_err (Sent ErrClosed); root_Read := fun _ _ _ => io_err (Sent ErrClosed) |}.
#[local] Instance demo_media : MediaLib := {|
  DetectContentType := fun _ => ""%string; TypeByExtension := fun _ => ""%string; ParseMediaType := fun _ => None; DecodeConfig := fun _ => None |}.

(** To another user and to ourselves, with a mention and a style on it. *)
Definition demo_message : app_SendRequest :=
  mkAppSend ["22222222-2222-4222-8222-222222222222"%string; "self"%string] "hi @{self}" ["3:1:bold"%string] [] None "" "" "" 0.
Definition demo_app : App unit := mkApp 3 ∅ [] [] tt.

Lemma Send_spec_witness : 0 <= app_lastTimestamp demo_app < MaxUint64
  /\ match Send None demo_message demo_app with
     | (Err _, _) => False
     | (Ok (out, e), s') => exists targets msg styles, sends None demo_app s' targets msg out e /\ message_of demo_message styles msg
     end.
Proof.
  assert (Hmax : 0 <= app_lastTimestamp demo_app < MaxUint64) by (vm_compute; split; [discriminate|reflexivity]).
  split; [exact Hmax|]. pose proof (Send_spec (CL:=demo_laws) None demo_message demo_app Hmax) as H.
  assert (E : is_ok (Send None demo_message demo_app).1 = true) by (vm_compute; reflexivity).
  destruct (Send None demo_message demo_app) as [[[out e]|e] s']; [|discriminate E].
  destruct H as (targets & msg & styles & Hs & _ & Hm & _). exact (ex_intro _ targets (ex_intro _ msg (ex_intro _ styles (conj Hs Hm)))).
Defined.
End witnesses.
