(* ===== verification/Resolve.v ===== *)
(** * Resolving recipients (internal/signal/meow_resolve.go, username.go)

    [Resolve] fills in the ACI of recipients from what the account's store knows, a username lookup
    and contact discovery. It is the implementation of what [AppSend.ClientLaws] promises of it. *)

From S2P Require Import Prelude Errors Uuid Utf8 Strconv Base64 Types SendCheck Recipients SendFlow Content AppSend.

(** signalmeow, its store, libsignal and [encoding/json], over a world of their own. [json_uuid] reads
    the UUID of the server's answer. *)
Class ResolveBackend {U : UuidLib} (W : Type) := {
  is_closing : W -> bool;
  is_connected : W -> bool;
  open_device : io W err unit;
  LoadRecipientByE164 : string -> io W err (option (uuid * uuid));
  UpdateRecipientE164 : uuid -> uuid -> string -> io W err unit;
  usernameHash : string -> res string;
  SendHTTPRequest : string -> io W err (Z * res string);
  json_uuid : string -> res uuid;
  LookupPhone : list Z -> io W err (gmap Z (uuid * uuid));
}.

Definition with_ids (r : Recipient) (aci pni : string) : Recipient := mkRecipient aci pni (Number r) (Username r).

(** [parseE164]. *)
Definition parseE164 (number : string) : res Z :=
  match cut_prefix "+" number with
  | None => Err (errorf errInvalidNumber)
  | Some digits => match ParseUint digits with Some n => Ok n | None => Err (errorf errInvalidNumber) end
  end.

Definition usernameHashPath : string := "/v1/accounts/username_hash/".

Section resolve.
Context {U : UuidLib} {W : Type} {B : ResolveBackend W}.
Notation M := (io W err).

(** [ACI.String()], and [PNI.String()] unless it is nil. *)
Definition filled (r : Recipient) (aci pni : uuid) : Recipient :=
  with_ids r (uuid_string aci) (if bool_decide (pni = uuid_nil) then PNI r else uuid_string pni).

Definition aciFromUsernameResponse (status : Z) (body : string) : res uuid :=
  if status =? 404 then Err (Sent ErrNotOnSignal)
  else if (status <? 200) || (300 <=? status) then Err (errorf errServerStatus)
  else match json_uuid body with
       | Err e => Err (Wrap [e])
       | Ok id => if bool_decide (id = uuid_nil) then Err (Sent ErrNotOnSignal) else Ok id
       end.

Definition lookupUsername (username : string) : M uuid :=
  let* hash := io_of (usernameHash username) in
  let* answer := SendHTTPRequest (usernameHashPath ++ EncodeToString RawURLEncoding hash) in
  let* body := io_of answer.2 in
  io_of (aciFromUsernameResponse answer.1 body).

(** The recipient with what the store knows of its number, and whether it was known. *)
Definition cachedNumber (rcpt : Recipient) : M (Recipient * bool) :=
  let* known := LoadRecipientByE164 (Number rcpt) in
  match known with
  | None => io_ret (rcpt, false)
  | Some (aci, pni) =>
      if bool_decide (aci = uuid_nil) then io_ret (rcpt, false) else io_ret (filled rcpt aci pni, true)
  end.

(** The recipient, and whether it is a number that needs contact discovery. *)
Definition resolveOffline (rcpt : Recipient) : M (Recipient * bool) :=
  if ACI rcpt != ""%string then io_ret (rcpt, false)
  else if Number rcpt != ""%string then
    let* out := cachedNumber rcpt in io_ret (out.1, negb out.2)
  else if Username rcpt != ""%string then
    let* aci := lookupUsername (Username rcpt) in
    io_ret (with_ids rcpt (uuid_string aci) (PNI rcpt), false)
  else io_err (Sent ErrUnresolvable).

(** All recipients, with the indices left to discover and the errors. *)
Fixpoint offline_loop (i : nat) (rcpts : list Recipient) : M (list Recipient * list nat * list err) :=
  match rcpts with
  | [] => io_ret ([], [], [])
  | rcpt :: rest =>
      let* r := io_try (resolveOffline rcpt) in
      let* out := offline_loop (S i) rest in
      let '(rs, todo, errs) := out : list Recipient * list nat * list err in
      io_ret (match r with
              | Err e => (rcpt :: rs, todo, Wrap [e] :: errs)
              | Ok (rcpt, lookup) => (rcpt :: rs, if lookup then i :: todo else todo, errs)
              end)
  end.

(** What contact discovery found for one number. *)
Definition discovered (found : gmap Z (uuid * uuid)) (e164 : Z) (rcpt : Recipient) : M (Recipient * list err) :=
  match found !! e164 with
  | None => io_ret (rcpt, [errorf ErrNotOnSignal])
  | Some (aci, pni) =>
      if bool_decide (aci = uuid_nil) then io_ret (rcpt, [errorf ErrNotOnSignal])
      else
        let* _ := io_try (UpdateRecipientE164 aci pni (Number rcpt)) in
        io_ret (filled rcpt aci pni, [])
  end.

Fixpoint discover_loop (found : gmap Z (uuid * uuid)) (out : list Recipient) (todo : list (nat * Z)) : M (list Recipient * list err) :=
  match todo with
  | [] => io_ret (out, [])
  | (i, e164) :: rest =>
      let* r := discovered found e164 (default zeroRecipient (out !! i)) in
      let* more := discover_loop found (<[i := r.1]> out) rest in
      io_ret (more.1, r.2 ++ more.2)
  end.

Fixpoint parse_numbers (out : list Recipient) (indices : list nat) : res (list Z) :=
  match indices with
  | [] => Ok []
  | i :: rest =>
      e164 ← parseE164 (Number (default zeroRecipient (out !! i)));
      more ← parse_numbers out rest;
      Ok (e164 :: more)
  end.

Definition discover (out : list Recipient) (indices : list nat) : M (list Recipient * list err) := fun w =>
  if negb (is_connected w) then (Ok (out, [errorf ErrNotConnected]), w)
  else match parse_numbers out indices with
  | Err e => (Ok (out, [e]), w)
  | Ok e164s =>
      (let* r := io_try (LookupPhone e164s) in
       match r with
       | Err e => io_ret (out, [Wrap [e]])
       | Ok found => discover_loop found out (zip indices e164s)
       end) w
  end.

Definition Resolve (recipients : list Recipient) : M (list Recipient) := fun w =>
  if is_closing w then (Err (Sent ErrClosed), w)
  else
    (let* _ := open_device in
     let* offline := offline_loop 0 recipients in
     let '(out, todo, errs) := offline : list Recipient * list nat * list err in
     let* found := (if 0 <? len todo then discover out todo else io_ret (out, [])) in
     match errorsJoin (errs ++ found.2) with
     | Some e => io_err e
     | None => io_ret found.1
     end) w.
End resolve.

(** ** What is resolved *)

Section spec.
Context {U : UuidLib} {W : Type} {B : ResolveBackend W}.
Notation M := (io W err).

(** A recipient without an ACI after it was found: the same one with the ACI of somebody. *)
Definition found_as (r r' : Recipient) : Prop :=
  Number r' = Number r /\ Username r' = Username r /\ exists id, id <> uuid_nil /\ ACI r' = uuid_string id.

Lemma filled_found r aci pni : aci <> uuid_nil -> found_as r (filled r aci pni).
Proof. intros H. split_and!; [done|done|]. by exists aci. Qed.

Lemma found_as_trans r1 r2 r3 : found_as r1 r2 -> found_as r2 r3 -> found_as r1 r3.
Proof. intros (H1 & H2 & _) (H3 & H4 & H5). split_and!; [congruence|congruence|done]. Qed.

(** One recipient after the offline lookups: done, or a number to look up. *)
Definition offline_as (lookup : bool) (r r' : Recipient) : Prop :=
  if lookup then r' = r /\ ACI r = ""%string /\ Number r <> ""%string
  else (r' = r /\ ACI r <> ""%string) \/ (ACI r = ""%string /\ found_as r r').

Lemma resolveOffline_Ok r w r' lookup w' : resolveOffline r w = (Ok (r', lookup), w') -> offline_as lookup r r'.
Proof.
  unfold resolveOffline, offline_as. destruct (bool_decide (ACI r = ""%string)) eqn:Ha; cbn [negb]; [|intros [= <- <- _]; left; by apply bool_decide_eq_false_1 in Ha].
  apply bool_decide_eq_true_1 in Ha. destruct (bool_decide (Number r = ""%string)) eqn:Hn; cbn [negb].
  - destruct (_ != _); [|done]. intros H. apply io_bind_Ok in H as (aci & w1 & H & [= <- <- _]). right. split; [done|].
    unfold lookupUsername in H. apply io_bind_Ok in H as (hash & w2 & _ & H). apply io_bind_Ok in H as (ans & w3 & _ & H).
    apply io_bind_Ok in H as (body & w4 & _ & H). unfold io_of in H. injection H as H _.
    unfold aciFromUsernameResponse in H. destruct (_ =? 404); [done|]. destruct (_ || _); [done|].
    destruct (json_uuid body) as [id|]; [|done]. case_bool_decide; [done|]. injection H as <-. split_and!; [done|done|]. by exists id.
  - apply bool_decide_eq_false_1 in Hn. intros H. apply io_bind_Ok in H as ([r1 known] & w1 & H & [= <- <- _]). cbn [fst snd].
    unfold cachedNumber in H. apply io_bind_Ok in H as (k & w2 & _ & H). destruct k as [[aci pni]|]; [|by injection H as <- <- _].
    case_bool_decide; [by injection H as <- <- _|]. injection H as <- <- _. right. split; [done|]. by apply filled_found.
Qed.

Lemma offline_loop_run i rs w : exists out w', offline_loop i rs w = (Ok out, w')
  /\ (out.2 = [] -> length out.1.1 = length rs
      /\ (forall k r r', rs !! k = Some r -> out.1.1 !! k = Some r' -> offline_as (bool_decide (i + k ∈ out.1.2)%nat) r r'))
  /\ Forall (fun j => i <= j)%nat out.1.2
  /\ (forall r, r ∈ rs -> ACI r = ""%string -> Number r = ""%string -> Username r = ""%string -> existsb (fun e => errIs e ErrUnresolvable) out.2 = true).
Proof.
  revert i w. induction rs as [|r rs IH]; intros i w; cbn [offline_loop].
  { exists ([], [], []), w. split_and!; [done| |constructor|]. 
    - intros _. split; [done|]. intros k r r' H. by rewrite lookup_nil in H.
    - by intros r ?%elem_of_nil. }
  unfold io_bind, io_try. destruct (resolveOffline r w) as [ro w1] eqn:Er. destruct (IH (S i) w1) as ([[rs' todo] errs] & w2 & -> & Hk & Hf & Hu).
  cbn [fst snd] in *. eexists _, w2. split; [reflexivity|].
  assert (Hunres : forall x, x ∈ r :: rs -> ACI x = ""%string -> Number x = ""%string -> Username x = ""%string ->
    (x ∈ rs \/ ro = Err (Sent ErrUnresolvable))).
  { intros x [->|Hx]%elem_of_cons Ha Hn Hus; [right|by left]. unfold resolveOffline in Er. rewrite Ha, Hn, Hus in Er. by injection Er as <- _. }
  destruct ro as [[r' lookup]|e]; cbn [fst snd].
  - split_and!.
    + intros He. destruct (Hk He) as [Hl Hlk]. split; [cbn; by rewrite Hl|]. intros [|k] x x'; cbn.
      * intros [= <-] [= <-]. apply resolveOffline_Ok in Er. rewrite Nat.add_0_r.
        replace (bool_decide (i ∈ if lookup then i :: todo else todo)) with lookup; [done|]. symmetry. destruct lookup.
        -- apply bool_decide_eq_true_2. by left.
        -- apply bool_decide_eq_false_2. intros Hin. rewrite Forall_forall in Hf. apply Hf in Hin. lia.
      * intros Hx Hx'. specialize (Hlk k x x' Hx Hx'). replace (i + S k)%nat with (S i + k)%nat by lia.
        replace (bool_decide (S i + k ∈ if lookup then i :: todo else todo)%nat) with (bool_decide (S i + k ∈ todo)%nat); [done|].
        apply bool_decide_ext. destruct lookup; [|done]. rewrite elem_of_cons. split; [by right|]. intros [?|?]; [lia|done].
    + assert (Forall (fun j => i <= j)%nat todo) by (eapply Forall_impl; [exact Hf|]; cbn; lia). destruct lookup; [|done]. by constructor.
    + intros x Hx Ha Hn Hus. destruct (Hunres x Hx Ha Hn Hus) as [?|?]; [by eapply Hu|done].
  - split_and!; [done| |].
    + eapply Forall_impl; [exact Hf|]. cbn. lia.
    + intros x Hx Ha Hn Hus. cbn [existsb]. destruct (Hunres x Hx Ha Hn Hus) as [Hin|[= ->]]; [|done].
      rewrite (Hu x Hin Ha Hn Hus). apply orb_true_r.
Qed.

Lemma discover_loop_Ok found out todo w out' w' : discover_loop found out todo w = (Ok (out', []), w') ->
  length out' = length out /\ forall k r r', out !! k = Some r -> out' !! k = Some r' ->
    (k ∉ todo.*1 /\ r' = r) \/ (k ∈ todo.*1 /\ found_as r r').
Proof.
  revert out w w'. induction todo as [|[i e164] todo IH]; intros out w w'; cbn [discover_loop].
  { intros [= <- _]. split; [done|]. intros k r r' H H'. left. split; [by intros ?%elem_of_nil|congruence]. }
  intros H. apply io_bind_Ok in H as ([r1 errs1] & w1 & Hd & H). cbn [fst snd] in H.
  apply io_bind_Ok in H as ([out1 errs2] & w2 & Hl & H). cbn [fst snd] in H. injection H as -> He _. apply app_eq_nil in He as [-> ->].
  assert (Hr1 : forall r, out !! i = Some r -> found_as r r1).
  { intros r Hi. unfold discovered in Hd. destruct (found !! e164) as [[aci pni]|]; [|done]. case_bool_decide as Hnil; [done|].
    apply io_bind_Ok in Hd as (u & w3 & _ & [= <- _]). rewrite Hi. cbn. by apply filled_found. }
  destruct (IH _ _ _ Hl) as [Hlen Hk]. rewrite length_insert in Hlen. split; [done|]. intros k r r' Ho Ho'.
  cbn [fmap list_fmap fst]. rewrite elem_of_cons. destruct (decide (k = i)) as [->|Hne].
  - right. split; [by left|]. destruct (Hk i r1 r') as [[_ ->]|[_ Hf]]; [apply list_lookup_insert_eq; by eapply lookup_lt_Some|done|by apply Hr1|].
    eapply found_as_trans; [by apply Hr1|done].
  - destruct (Hk k r r') as [[Hn ->]|[Hin Hf]]; [by rewrite list_lookup_insert_ne by done|done| |]; [left|right]; (split; [|done]); [tauto|by right].
Qed.

Lemma parse_numbers_length out indices e164s : parse_numbers out indices = Ok e164s -> length e164s = length indices.
Proof.
  revert e164s. induction indices as [|i indices IH]; intros e164s; cbn [parse_numbers]; [by intros [= <-]|].
  destruct (parseE164 _); [|done]. cbn. destruct (parse_numbers out indices); [|done]. cbn. intros [= <-]. cbn. f_equal. by apply IH.
Qed.

Lemma discover_run out indices w : exists out' errs w', discover out indices w = (Ok (out', errs), w')
  /\ (errs = [] -> length out' = length out /\ forall k r r', out !! k = Some r -> out' !! k = Some r' ->
        (k ∉ indices /\ r' = r) \/ (k ∈ indices /\ found_as r r')).
Proof.
  unfold discover. destruct (negb _); [by do 3 eexists|]. destruct (parse_numbers out indices) as [e164s|e] eqn:Hp; [|by do 3 eexists].
  unfold io_bind, io_try. destruct (LookupPhone e164s w) as [[found|e] w1]; [|by do 3 eexists].
  assert (Htot : forall out todo w, exists r w', discover_loop found out todo w = (Ok r, w')).
  { clear. intros out todo. revert out. induction todo as [|[i e164] todo IH]; intros out w; cbn [discover_loop]; [by do 2 eexists|].
    unfold io_bind at 1. assert (Hd : exists r w1, discovered found e164 (default zeroRecipient (out !! i)) w = (Ok r, w1)).
    { unfold discovered. destruct (found !! e164) as [[aci pni]|]; [|by do 2 eexists]. case_bool_decide; [by do 2 eexists|].
      unfold io_bind, io_try. destruct (UpdateRecipientE164 _ _ _ w). by do 2 eexists. }
    destruct Hd as (r & w1 & ->). unfold io_bind. destruct (IH (<[i:=r.1]> out) w1) as (more & w2 & ->). by do 2 eexists. }
  destruct (Htot out (zip indices e164s) w1) as ([out' errs] & w2 & E). exists out', errs, w2. split; [done|]. intros ->.
  apply discover_loop_Ok in E as [Hl Hk]. split; [done|]. intros k r r'. specialize (Hk k r r').
  rewrite fst_zip in Hk by (rewrite (parse_numbers_length _ _ _ Hp); lia). exact Hk.
Qed.

Lemma Resolve_run rs w : is_closing w = false -> is_ok (fst (open_device w)) = true ->
  match fst (Resolve rs w) with
  | Ok out => Forall2 (fun r r' => (r' = r /\ ACI r <> ""%string) \/ (ACI r = ""%string /\ found_as r r')) rs out
  | Err _ => True
  end
  /\ ((exists r, r ∈ rs /\ ACI r = ""%string /\ Number r = ""%string /\ Username r = ""%string) ->
      exists e, fst (Resolve rs w) = Err e /\ errIs e ErrUnresolvable = true).
Proof.
  intros Hc Ho. unfold Resolve. rewrite Hc. unfold io_bind. destruct (open_device w) as [[u|e] w1]; [|done]. clear Ho.
  destruct (offline_loop_run 0 rs w1) as ([[out todo] errs] & w2 & -> & Hk & _ & Hu). cbn [fst snd] in *.
  assert (Hfound : exists out' errs' w', (if 0 <? len todo then discover out todo else io_ret (out, [])) w2 = (Ok (out', errs'), w')
    /\ (errs' = [] -> length out' = length out /\ forall k r r', out !! k = Some r -> out' !! k = Some r' ->
          (k ∉ todo /\ r' = r) \/ (k ∈ todo /\ found_as r r'))).
  { destruct (0 <? len todo) eqn:El; [apply discover_run|]. exists out, [], w2. split; [done|]. intros _. split; [done|].
    destruct todo; [|by apply Z.ltb_ge in El]. intros k r r' H H'. left. split; [by intros ?%elem_of_nil|congruence]. }
  destruct Hfound as (out' & errs' & w3 & -> & Hd). cbn [fst snd]. split.
  - destruct (errorsJoin (errs ++ errs')) eqn:E; [done|]. apply errorsJoin_None, app_eq_nil in E as [-> ->].
    destruct (Hk eq_refl) as [Hl Hoff], (Hd eq_refl) as [Hl' Hdis]. cbn [fst io_ret].
    apply Forall2_same_length_lookup. split; [congruence|]. intros k r r' Hr Hr'.
    destruct (lookup_lt_is_Some_2 out k) as [r1 H1]; [rewrite Hl; by eapply lookup_lt_Some|].
    specialize (Hoff k r r1 Hr H1). cbn [plus] in Hoff. destruct (Hdis k r1 r' H1 Hr') as [[Hn ->]|[Hin Hf]].
    + rewrite (bool_decide_eq_false_2 (k ∈ todo)) in Hoff by done. exact Hoff.
    + rewrite (bool_decide_eq_true_2 (k ∈ todo)) in Hoff by done. destruct Hoff as (-> & Ha & _). by right.
  - intros (r & Hr & Ha & Hn & Hus). specialize (Hu r Hr Ha Hn Hus). destruct errs as [|e errs]; [done|]. cbn [app errorsJoin].
    eexists. split; [reflexivity|]. change (errIs (Wrap ((e :: errs) ++ errs')) ErrUnresolvable = true).
    rewrite errIs_Wrap, existsb_app, Hu. done.
Qed.


(** The law of [ClientLaws] holds of this implementation. *)
Lemma Resolve_canonical {UL : UuidLaws U} rs w out w' : Resolve rs w = (Ok out, w') ->
  Forall2 (fun r r' => (r' = r /\ ACI r <> ""%string) \/ canonical_uuid (ACI r') = true) rs out.
Proof.
  intros H. destruct (is_closing w) eqn:Hc; [unfold Resolve in H; by rewrite Hc in H|].
  assert (Ho : is_ok (fst (open_device w)) = true).
  { unfold Resolve in H. rewrite Hc in H. unfold io_bind in H. by destruct (open_device w) as [[u|e] w1]. }
  destruct (Resolve_run rs w Hc Ho) as [Hf _]. rewrite H in Hf. cbn [fst] in Hf. eapply Forall2_impl; [exact Hf|].
  intros r r' [?|(_ & _ & _ & id & Hid & Ha)]; [by left|right]. unfold canonical_uuid. rewrite Ha, uuid_parse_string.
  rewrite bool_decide_eq_false_2 by done. by rewrite bool_decide_eq_true_2.
Qed.
End spec.
