(* ===== verification/AppWrite.v ===== *)
(** * Reactions, deletes, polls and pins (internal/app/react.go, polls.go, poll_types.go, pins.go, pin_types.go)

    Each operation checks its arguments, then sends one content through [SendFlow.sendCapturing];
    with an error from before the sending it has no result here, which the code's callers do not use. *)

From S2P Require Import Prelude Errors Uuid Utf8 Strconv Base64 Types SendCheck Groups Recipients SendFlow Content FilePath Attachments AppSend.

(** [unicode.IsLetter] and [unicode.IsPrint], which are tables. *)
Class UnicodeTables := { IsLetter : Z -> bool; IsPrint : Z -> bool }.

Record ReactRequest := mkReactRequest {
  rcr_Recipients : list string; rcr_Target : string; rcr_Emoji : string; rcr_Remove : bool }.
Record ReactResult := mkReactResult {
  rcs_Send : SendResult; rcs_Emoji : string; rcs_Remove : bool; rcs_TargetAuthor : Target; rcs_TargetTimestamp : Z }.
Record DeleteRequest := mkDeleteRequest { dlr_Recipients : list string; dlr_Target : Z }.
Record DeleteResult := mkDeleteResult { dls_Send : SendResult; dls_TargetTimestamp : Z }.

Record PollCreateRequest := mkPollCreate {
  pcr_GroupID : string; pcr_Recipient : string; pcr_Question : string; pcr_Options : list string; pcr_SingleChoice : bool }.
Record PollVoteRequest := mkPollVoteRequest {
  pvr_GroupID : string; pvr_Recipient : string; pvr_Target : string; pvr_OptionIndexes : list Z; pvr_VoteCount : Z; pvr_Clear : bool }.
Record PollCloseRequest := mkPollCloseRequest { plr_GroupID : string; plr_Recipient : string; plr_Target : Z }.
Record PollSendResult := mkPollSendResult {
  psr_Send : SendResult; psr_Operation : string; psr_Poll : option Poll; psr_TargetAuthor : Recipient;
  psr_TargetTimestamp : Z; psr_OptionIndexes : list Z; psr_VoteCount : Z }.
Record PollShowRequest := mkPollShow {
  psh_Durable : bool; psh_GroupID : string; psh_Recipient : string; psh_Target : string; psh_ScanLimit : Z }.

Record PinRequest := mkPinRequest {
  pnr_Recipients : list string; pnr_Target : string; pnr_DurationSeconds : Z; pnr_Forever : bool }.
Record UnpinRequest := mkUnpinRequest { upr_Recipients : list string; upr_Target : string }.
Record PinSendResult := mkPinSendResult {
  pns_Send : SendResult; pns_Operation : string; pns_TargetAuthor : Recipient; pns_TargetTimestamp : Z;
  pns_DurationSeconds : Z; pns_Forever : bool }.

(** Contents of one kind. *)
Definition reaction_content (r : OutgoingReaction) : content :=
  mkContent None None None None None None "" None [] [] [] (Some r) 0 0.
Definition delete_content (target : Z) : content :=
  mkContent None None None None None None "" None [] [] [] None target 0.
Definition poll_content (create : option Poll) (vote : option OutgoingPollVote) (close : option OutgoingPollClose) : content :=
  mkContent None None create vote close None "" None [] [] [] None 0 0.
Definition pin_content (pin : option OutgoingPin) (unpin : option OutgoingUnpin) : content :=
  mkContent pin unpin None None None None "" None [] [] [] None 0 0.

(** The error of a result, as a list to join. *)
Definition errors_of {A} (r : res A) : list err := match r with Err e => [e] | Ok _ => [] end.
Definition errors_in (e : error) : list err := match e with Some e => [e] | None => [] end.

(** ** Checks *)

Definition maxEmojiRunes : Z := 16.
Definition zeroWidthJoiner : Z := 8205.
Definition tagFirst : Z := 917536.
Definition tagLast : Z := 917631.

(** A rune that no emoji has. *)
Definition not_emoji {T : UnicodeTables} (char : Z) : bool :=
  if (char =? zeroWidthJoiner) || ((tagFirst <=? char) && (char <=? tagLast)) then false
  else IsLetter char || IsSpace char || negb (IsPrint char).

Definition checkEmoji {T : UnicodeTables} (emoji : string) : error :=
  if emoji == ""%string then Some (errorf ErrInvalidEmoji)
  else if maxEmojiRunes <? len (runes emoji) then Some (errorf ErrInvalidEmoji)
  else if existsb not_emoji (runes emoji) then Some (errorf ErrInvalidEmoji)
  else if negb (existsb (fun char => 127 <? char) (runes emoji)) then Some (errorf ErrInvalidEmoji)
  else None.

Definition checkPollGroup (id : string) : error :=
  match decodeGroupKey id with
  | Some canonical => if canonical != id then Some (errorf ErrInvalidRecipient) else None
  | None => Some (errorf ErrInvalidRecipient)
  end.

Section checks.
Context {U : UuidLib}.

(** The destination argument of a poll: one group or one user. *)
Definition pollRecipient (groupID recipient : string) : res string :=
  if Bool.eqb (groupID == ""%string) (recipient == ""%string) then Err (errorf ErrInvalidPoll)
  else if groupID != ""%string then
    match checkPollGroup groupID with Some e => Err e | None => Ok (GroupPrefix ++ groupID)%string end
  else
    target ← ParseRecipient recipient;
    if Target_IsGroup target || (ACI (tgt_Recipient target) == uuid_string uuid_nil) then Err (errorf ErrInvalidRecipient)
    else Ok recipient.

Definition PollCreateRequest_Check (req : PollCreateRequest) : error :=
  match pollRecipient (pcr_GroupID req) (pcr_Recipient req) with
  | Err e => Some e
  | Ok _ => Poll_Check (mkPoll (pcr_Question req) (pcr_Options req) (negb (pcr_SingleChoice req)))
  end.

(** The author of a vote is resolved later; this one stands in for it. *)
Definition someACI : Recipient := ofACI "00000000-0000-0000-0000-000000000001".

Definition PollVoteRequest_Check (req : PollVoteRequest) : error :=
  match pollRecipient (pvr_GroupID req) (pvr_Recipient req) with
  | Err e => Some e
  | Ok _ =>
      match ParseTarget (pvr_Target req) with
      | Err e => Some e
      | Ok (author, timestamp) =>
          if ACI (tgt_Recipient author) == uuid_string uuid_nil then Some (errorf ErrInvalidPoll)
          else if Bool.eqb (pvr_Clear req) (0 <? len (pvr_OptionIndexes req)) then Some (errorf ErrInvalidPoll)
          else OutgoingPollVote_Check (mkPollVote someACI timestamp (pvr_OptionIndexes req) (Z.max (pvr_VoteCount req) 1))
      end
  end.

Definition PollCloseRequest_Check (req : PollCloseRequest) : error :=
  match pollRecipient (plr_GroupID req) (plr_Recipient req) with
  | Err e => Some e
  | Ok _ => OutgoingPollClose_Check (mkPollClose (plr_Target req))
  end.

Definition MaxPollScanLimit : Z := 10000.

Definition checkChat (req : PollShowRequest) : error :=
  match pollRecipient (psh_GroupID req) (psh_Recipient req) with
  | Err e => Some e
  | Ok _ =>
      if psh_Recipient req == ""%string then None
      else match ParseRecipient (psh_Recipient req) with
           | Err _ => Some (errorf ErrInvalidRecipient)
           | Ok chat =>
               if (ACI (tgt_Recipient chat) == ""%string) || (ACI (tgt_Recipient chat) != psh_Recipient req)
               then Some (errorf ErrInvalidRecipient) else None
           end
  end.

Definition checkScan (req : PollShowRequest) : error :=
  if psh_Durable req && negb (psh_ScanLimit req =? 0) then Some (errorf ErrInvalidPoll)
  else if (psh_ScanLimit req <? 0) || (MaxPollScanLimit <? psh_ScanLimit req) then Some (errorf ErrInvalidPoll)
  else None.

Definition PollShowRequest_Check (req : PollShowRequest) : error :=
  checkChat req ;!
  match ParseTarget (psh_Target req) with
  | Err e => Some e
  | Ok (author, timestamp) =>
      let aci := ACI (tgt_Recipient author) in
      if tgt_Self author || (aci == ""%string) || (aci == uuid_string uuid_nil)
         || (psh_Target req != (aci ++ String colon_char (FormatUint timestamp))%string)
      then Some (errorf ErrInvalidTarget)
      else checkScan req
  end.

Definition checkPinTarget (recipients : list string) (target : string) : error :=
  errorsJoin (checkRecipients recipients ++
    match ParseTarget target with
    | Err e => [e]
    | Ok (author, _) => if ACI (tgt_Recipient author) == uuid_string uuid_nil then [errorf ErrInvalidPin] else []
    end).

Definition PinRequest_Check (req : PinRequest) : error :=
  checkPinTarget (pnr_Recipients req) (pnr_Target req) ;!
  OutgoingPin_Check (mkPin someACI 1 (pnr_DurationSeconds req) (pnr_Forever req)).

Definition UnpinRequest_Check (req : UnpinRequest) : error := checkPinTarget (upr_Recipients req) (upr_Target req).
End checks.

(** ** Operations *)

Section write.
Context {U : UuidLib} {W : Type} {C : Client W} {WC : WriteClient W} {T : UnicodeTables} (allow : option Allowlist).

Notation M := (io (App W) err).

(** The user of a target after resolving it alone. *)
Definition resolveUser (target : Target) : M Target :=
  let* r := io_try (resolveUsers [target]) in
  match r with
  | Err e => io_err (Wrap [e])
  | Ok (user :: _) => io_ret user
  | Ok [] => io_err index_panic
  end.

(** The closure of [React], which also sets the target author of its result. *)
Definition react_content (req : ReactRequest) (timestamp : Z) : M (content * Target) :=
  let* parsed := io_of (ParseTarget (rcr_Target req)) in
  let* author := resolveUser parsed.1 in
  io_ret (reaction_content (mkReaction (TrimSpace (rcr_Emoji req)) (rcr_Remove req) (tgt_Recipient author) timestamp), author).

Definition React (req : ReactRequest) : M (ReactResult * error) :=
  let emoji := TrimSpace (rcr_Emoji req) in
  let target := ParseTarget (rcr_Target req) in
  match errorsJoin (checkRecipients (rcr_Recipients req) ++ errors_of target ++ errors_in (checkEmoji emoji)) with
  | Some e => io_err (Wrap [e])
  | None =>
      let* parsed := io_of target in
      let timestamp := (parsed : Target * Z).2 in
      let* out := sendCapturing allow (rcr_Recipients req) (fun _ => react_content req timestamp) in
      io_ret (mkReactResult out.2.1 emoji (rcr_Remove req) out.1 timestamp, out.2.2)
  end.

Definition Delete (req : DeleteRequest) : M (DeleteResult * error) :=
  match errorsJoin (checkRecipients (dlr_Recipients req)
                    ++ (if dlr_Target req =? 0 then [Wrap [Sent ErrInvalidTarget; Sent errBadTimestamp]] else [])) with
  | Some e => io_err (Wrap [e])
  | None =>
      let* out := sendContent allow (dlr_Recipients req) (io_ret (delete_content (dlr_Target req))) in
      io_ret (mkDeleteResult out.1 (dlr_Target req), out.2)
  end.

(** The closure of [PollCreate] and [PollClose]: the author is this account. *)
Definition own_poll (c : content) : M (content * Recipient) :=
  let* r := io_try (lift client_Account) in
  match r with
  | Err e => io_err (Wrap [e])
  | Ok acc => io_ret (c, ofACI (acc_ACI acc))
  end.

Definition PollCreate (req : PollCreateRequest) : M (PollSendResult * error) :=
  match PollCreateRequest_Check req with
  | Some e => io_err (Wrap [e])
  | None =>
      let* destination := io_of (pollRecipient (pcr_GroupID req) (pcr_Recipient req)) in
      let poll := mkPoll (pcr_Question req) (pcr_Options req) (negb (pcr_SingleChoice req)) in
      let* out := sendCapturing allow [destination] (fun _ => own_poll (poll_content (Some poll) None None)) in
      io_ret (mkPollSendResult out.2.1 "create" (Some poll) out.1 (sres_Timestamp out.2.1) [] 0, out.2.2)
  end.

(** The closure of [PollVote]: the counter is reserved for the resolved chat and author. *)
Definition vote_content (req : PollVoteRequest) (author : Target) (timestamp : Z) (targets : list Target)
    : M (content * (Recipient * Z)) :=
  let* user := resolveUser author in
  match targets with
  | [] => io_err index_panic
  | target :: _ =>
      let chat := mkChat (tgt_GroupID target) (tgt_Recipient target) in
      let* r := io_try (lift (client_ReservePollVote (mkCounterReq chat (tgt_Recipient user) timestamp (pvr_VoteCount req)))) in
      match r with
      | Err e => io_err (Wrap [e])
      | Ok count =>
          io_ret (poll_content None (Some (mkPollVote (tgt_Recipient user) timestamp (pvr_OptionIndexes req) count)) None,
                  (tgt_Recipient user, count))
      end
  end.

Definition PollVote (req : PollVoteRequest) : M (PollSendResult * error) :=
  match PollVoteRequest_Check req with
  | Some e => io_err (Wrap [e])
  | None =>
      let* destination := io_of (pollRecipient (pvr_GroupID req) (pvr_Recipient req)) in
      let* parsed := io_of (ParseTarget (pvr_Target req)) in
      let (author, timestamp) := parsed : Target * Z in
      let* out := sendCapturing allow [destination] (vote_content req author timestamp) in
      io_ret (mkPollSendResult out.2.1 "vote" None out.1.1 timestamp (pvr_OptionIndexes req) out.1.2, out.2.2)
  end.

Definition PollClose (req : PollCloseRequest) : M (PollSendResult * error) :=
  match PollCloseRequest_Check req with
  | Some e => io_err (Wrap [e])
  | None =>
      let* destination := io_of (pollRecipient (plr_GroupID req) (plr_Recipient req)) in
      let* out := sendCapturing allow [destination] (fun _ => own_poll (poll_content None None (Some (mkPollClose (plr_Target req))))) in
      io_ret (mkPollSendResult out.2.1 "close" None out.1 (plr_Target req) [] 0, out.2.2)
  end.

(** ** Pins *)

Definition checkPinGroup (groupID own : string) : M unit :=
  let* r := io_try (lift (client_Group groupID)) in
  match r with
  | Err e => io_err (Wrap [e])
  | Ok group =>
      let (membership, role) := MembershipOf group own in
      if membership != MembershipMember then io_err (errorf ErrNotAMember)
      else if (role != GroupRoleAdmin) && negb (MembersCanEditAttributes group) then io_err (errorf ErrGroupPermission)
      else io_ret tt
  end.

(** Each group once, with the account read at the first. *)
Fixpoint checkPinGroups_loop (seen : gset string) (own : option string) (recipients : list string) : M unit :=
  match recipients with
  | [] => io_ret tt
  | arg :: rest =>
      let* target := io_of (ParseRecipient arg) in
      if negb (Target_IsGroup target) || bool_decide (tgt_GroupID target ∈ seen) then checkPinGroups_loop seen own rest
      else
        let* aci := (match own with
                     | Some aci => io_ret aci
                     | None => let* acc := lift client_Account in io_ret (acc_ACI acc)
                     end) in
        let* _ := checkPinGroup (tgt_GroupID target) aci in
        checkPinGroups_loop ({[tgt_GroupID target]} ∪ seen) (Some aci) rest
  end.
Definition checkPinGroups (recipients : list string) : M unit := checkPinGroups_loop ∅ None recipients.

Definition resolvePinAuthor (author : Target) : M Recipient :=
  let* marked := markSelf [author] in
  let (authors, pending) := marked : list Target * list nat in
  match authors with
  | [] => io_err index_panic
  | own :: _ =>
      if 0 <? len pending then
        let* r := io_try (lift (client_Resolve [tgt_Recipient author])) in
        match r with
        | Err e => io_err (Wrap [e])
        | Ok [resolved] => io_ret resolved
        | Ok _ => io_err (errorf ErrInvalidPin)
        end
      else io_ret (tgt_Recipient own)
  end.

(** The closures of [Pin] and [Unpin]. *)
Definition pinning (recipients : list string) (author : Target) (payload : Recipient -> content) (check : Recipient -> error)
    : M (content * Recipient) :=
  let* _ := checkPinGroups recipients in
  let* user := resolvePinAuthor author in
  match check user with
  | Some e => io_err (Wrap [e])
  | None => io_ret (payload user, user)
  end.

Definition Pin (req : PinRequest) : M (PinSendResult * error) :=
  match PinRequest_Check req with
  | Some e => io_err (Wrap [e])
  | None =>
      let* parsed := io_of (ParseTarget (pnr_Target req)) in
      let (author, timestamp) := parsed : Target * Z in
      let pin user := mkPin user timestamp (pnr_DurationSeconds req) (pnr_Forever req) in
      let* out := sendCapturing allow (pnr_Recipients req) (fun _ =>
        pinning (pnr_Recipients req) author (fun user => pin_content (Some (pin user)) None) (fun user => OutgoingPin_Check (pin user))) in
      io_ret (mkPinSendResult out.2.1 "pin" out.1 timestamp (pnr_DurationSeconds req) (pnr_Forever req), out.2.2)
  end.

Definition Unpin (req : UnpinRequest) : M (PinSendResult * error) :=
  match UnpinRequest_Check req with
  | Some e => io_err (Wrap [e])
  | None =>
      let* parsed := io_of (ParseTarget (upr_Target req)) in
      let (author, timestamp) := parsed : Target * Z in
      let unpin user := mkUnpin user timestamp in
      let* out := sendCapturing allow (upr_Recipients req) (fun _ =>
        pinning (upr_Recipients req) author (fun user => pin_content None (Some (unpin user))) (fun user => OutgoingUnpin_Check (unpin user))) in
      io_ret (mkPinSendResult out.2.1 "unpin" out.1 timestamp 0 false, out.2.2)
  end.
End write.

(** ** Every request passes the check of the facade *)

(** What the facade promises of the other operations: a reserved vote counter is positive. *)
Class WriteLaws {W : Type} (WC : WriteClient W) : Prop := {
  Reserve_positive req w count w' : client_ReservePollVote req w = (Ok count, w') -> count <> 0;
}.

Section checked.
Context {U : UuidLib} {UL : UuidLaws U} {W : Type} {C : Client W} {CL : ClientLaws C} {WC : WriteClient W} {WL : WriteLaws WC} {T : UnicodeTables}.
Context (allow : option Allowlist).

Lemma canonical_nonempty s : canonical_uuid s = true -> s <> ""%string.
Proof. intros H ->. unfold canonical_uuid in H. by rewrite uuid_parse_empty in H. Qed.

Lemma canonical_nonnil s : canonical_uuid s = true -> nonnil_uuid s = true.
Proof. unfold canonical_uuid, nonnil_uuid. destruct (uuid_parse s); [|done]. by intros [-> _]%andb_true_iff. Qed.

Lemma canonical_string id : id <> uuid_nil -> canonical_uuid (uuid_string id) = true.
Proof.
  intros H. unfold canonical_uuid. rewrite uuid_parse_string. rewrite bool_decide_eq_false_2 by done. by rewrite bool_decide_eq_true_2.
Qed.

(** A parsed message reference: a user and a time. *)
Lemma ParseTarget_Ok arg author timestamp : ParseTarget arg = Ok (author, timestamp) ->
  timestamp <> 0 /\ Target_IsGroup author = false /\ exists a, ParseRecipient a = Ok author.
Proof.
  unfold ParseTarget, parseMessageRef. destruct (cut_last arg colon_char) as [[a t]|]; [|done].
  destruct (parseTimestamp t) as [n|] eqn:Ht; [|done]. destruct (ParseRecipient a) as [x|] eqn:Ha; [|done].
  destruct (Target_IsGroup x) eqn:Hg; [done|]. intros [= <- <-]. split; [|split; [done|by exists a]].
  unfold parseTimestamp in Ht. destruct (ParseUint _) as [m|]; [|done]. destruct (m =? 0) eqn:E; [done|]. injection Ht as ->. by apply Z.eqb_neq in E.
Qed.

Lemma resolveUser_Ok t s t' s' : resolveUser t s = (Ok t', s') -> resolved_as t t'.
Proof.
  unfold resolveUser. intros H. apply io_bind_Ok in H as (r & s1 & Hr & H). unfold io_try in Hr.
  destruct (resolveUsers [t] s) as [[ts|] s2] eqn:E; injection Hr as <- <-; [|done]. apply resolveUsers_Ok in E.
  inversion E as [|? x ? ? Hx Hn]; subst. inversion Hn; subst. by injection H as <- _.
Qed.

Lemma resolved_user t t' : resolved_as t t' -> Target_IsGroup t = false -> ACI (tgt_Recipient t') <> ""%string.
Proof. unfold resolved_as. intros H Hg. rewrite Hg in H. destruct H as [_ [?%canonical_nonempty|[-> ?]]]; done. Qed.

(** A resolved author that is not the nil UUID. *)
Lemma resolved_author a t t' : ParseRecipient a = Ok t -> Target_IsGroup t = false -> ACI (tgt_Recipient t) <> uuid_string uuid_nil ->
  resolved_as t t' -> canonical_uuid (ACI (tgt_Recipient t')) = true.
Proof.
  intros Hp Hg Hn. unfold resolved_as. rewrite Hg. intros [_ [?|[-> Hne]]]; [done|]. apply parse_wellformed in Hp. rewrite Hg in Hp.
  destruct (Hp Hne) as [id Hid]. rewrite Hid in *. apply canonical_string. by intros ->.
Qed.

(** The contents, one kind each. *)
Lemma Check_reaction r ts users gid : Bool.eqb (gid == ""%string) (len users =? 0) = false ->
  rea_Emoji r <> ""%string -> rea_TargetTimestamp r <> 0 -> ACI (rea_TargetAuthor r) <> ""%string ->
  Check (request (reaction_content r) ts users gid) = None.
Proof.
  intros Hd He Ht Ha. unfold Check. cbn [req_Story request req_GroupID req_Recipients]. rewrite Hd. cbn. unfold checkReaction. cbn.
  rewrite (bool_decide_eq_false_2 (rea_Emoji r = ""%string)), (bool_decide_eq_false_2 (ACI _ = ""%string)) by done.
  by rewrite (proj2 (Z.eqb_neq _ _) Ht).
Qed.

Lemma Check_delete t ts users gid : Bool.eqb (gid == ""%string) (len users =? 0) = false -> Check (request (delete_content t) ts users gid) = None.
Proof. intros Hd. unfold Check. cbn [req_Story request req_GroupID req_Recipients]. rewrite Hd. cbn. by destruct (negb _). Qed.

Lemma Check_pin pin unpin ts users gid : Bool.eqb (gid == ""%string) (len users =? 0) = false ->
  match pin, unpin with
  | Some p, None => OutgoingPin_Check p = None
  | None, Some u => OutgoingUnpin_Check u = None
  | _, _ => False
  end -> Check (request (pin_content pin unpin) ts users gid) = None.
Proof.
  intros Hd H. unfold Check. cbn [req_Story request req_GroupID req_Recipients]. rewrite Hd.
  destruct pin as [p|], unpin as [u|]; try done; exact H.
Qed.

Lemma Check_poll create vote close ts users gid : Bool.eqb (gid == ""%string) (len users =? 0) = false ->
  validPollChat (request (poll_content create vote close) ts users gid) = true ->
  match create, vote, close with
  | Some p, None, None => Poll_Check p = None
  | None, Some v, None => OutgoingPollVote_Check v = None
  | None, None, Some c => OutgoingPollClose_Check c = None
  | _, _, _ => False
  end -> Check (request (poll_content create vote close) ts users gid) = None.
Proof.
  intros Hd Hv H. unfold Check. cbn [req_Story request req_GroupID req_Recipients]. rewrite Hd.
  destruct create as [p|], vote as [v|], close as [c|]; try done; cbn -[validPollChat]; unfold checkPoll; rewrite Hv; exact H.
Qed.

(** Where a poll goes. *)
Lemma pollRecipient_Ok g rcpt d : pollRecipient g rcpt = Ok d ->
  exists t, ParseRecipient d = Ok t /\ (Target_IsGroup t = false -> ACI (tgt_Recipient t) <> uuid_string uuid_nil).
Proof.
  unfold pollRecipient. destruct (Bool.eqb _ _); [done|]. destruct (_ != _).
  - unfold checkPollGroup. destruct (decodeGroupKey g) as [key|] eqn:Ek; [|done]. destruct (bool_decide (key = g)) eqn:E; [|done]. cbn [negb].
    apply bool_decide_eq_true_1 in E as ->. intros [= <-]. apply decodeGroupKey_Some in Ek as (raw & Hl & ->).
    exists (groupTarget (EncodeToString StdEncoding raw)). split; [by apply parse_group|]. intros _.
    cbn. intros He. by apply (uuid_string_nonempty uuid_nil).
  - destruct (ParseRecipient rcpt) as [t|] eqn:Hp; [|done]. cbn. destruct (Target_IsGroup t) eqn:Hg; [done|]. cbn.
    destruct (bool_decide _) eqn:E; [done|]. intros [= <-]. exists t. split; [done|]. intros _. by apply bool_decide_eq_false_1 in E.
Qed.

Lemma poll_destination_ok d t s targets s' c ts r : ParseRecipient d = Ok t ->
  (Target_IsGroup t = false -> ACI (tgt_Recipient t) <> uuid_string uuid_nil) ->
  ResolveRecipients [d] s = (Ok targets, s') -> r ∈ user_request c ts targets ++ group_requests c ts targets ->
  exists users gid, r = request c ts users gid /\ validPollChat r = true.
Proof.
  intros Hp Hn Hr%ResolveRecipients_one Hin. destruct Hr as (t0 & t' & Hp' & Hres & ->). rewrite Hp in Hp'. injection Hp' as <-.
  apply single_requests in Hin. pose proof (resolved_destination _ _ _ Hp Hres) as Hd. unfold destination in Hd.
  destruct (Target_IsGroup t') eqn:Hg'.
  - do 2 eexists. split; [exact Hin|]. rewrite Hin. unfold validPollChat. cbn. unfold Target_IsGroup in Hg'. rewrite Hg'. exact Hd.
  - do 2 eexists. split; [exact Hin|]. rewrite Hin. unfold validPollChat. cbn. destruct (Target_IsGroup t) eqn:Hg.
    + unfold resolved_as in Hres. rewrite Hg in Hres. congruence.
    + by eapply resolved_author; [|exact Hg|apply Hn|].
Qed.

(** An operation that hands the client only requests that pass the check, and none when it fails. *)
Definition checked {A} (m : io (App W) err A) : Prop := forall s res s',
  0 <= app_lastTimestamp s < MaxUint64 -> m s = (res, s') ->
  (is_ok res = false -> logs s' = logs s) /\ forall r, r ∈ app_sent s' -> r ∈ app_sent s \/ Check r = None.

Lemma checked_err {A} e : checked (@io_err (App W) err A e).
Proof. intros s res s' _ [= <- <-]. split; [done|]. by left. Qed.

Lemma checked_of {A B} (x : res A) (f : A -> io (App W) err B) : (forall a, x = Ok a -> checked (f a)) -> checked (io_bind (io_of x) f).
Proof.
  intros H s res s' Hs. unfold io_bind, io_of. destruct x as [a|e]; [by apply H|]. intros [= <- <-]. split; [done|]. by left.
Qed.

Lemma checked_ret {A B} (m : io (App W) err A) (f : A -> B) : checked m -> checked (let* a := m in io_ret (f a)).
Proof.
  intros H s res s' Hs. unfold io_bind. destruct (m s) as [[a|e] s1] eqn:E; intros [= <- <-]; specialize (H _ _ _ Hs E); [|done].
  split; [done|apply H].
Qed.

Lemma checked_sending {X} recipients (build : list Target -> io (App W) err (content * X)) :
  (forall targets, keeps_logs (build targets)) ->
  (forall targets s1 s2 s3 s4 msg x ts r, ResolveRecipients recipients s1 = (Ok targets, s2) -> build targets s3 = (Ok (msg, x), s4) ->
    r ∈ user_request msg ts targets ++ group_requests msg ts targets -> Check r = None) ->
  checked (sendCapturing allow recipients build).
Proof.
  intros Hk Hp s res s' Hs E. pose proof (sendCapturing_run allow recipients build s Hk Hs) as H. rewrite E in H.
  destruct res as [[x [out e]]|e]; [|split; [done|]; injection H as _ -> _; by left].
  destruct H as (targets & msg & s1 & s2 & s3 & s4 & Hr & _ & Hb & (Hsent & _)). split; [done|]. rewrite Hsent.
  intros r [?|Hin]%elem_of_app; [by left|right]. by eapply Hp.
Qed.

(** ... and one whose content is of a kind that passes for any destination. *)
Lemma checked_anywhere {X} recipients (build : list Target -> io (App W) err (content * X)) :
  (forall targets, keeps_logs (build targets)) ->
  (forall targets s s' msg x ts users gid, build targets s = (Ok (msg, x), s') ->
    Bool.eqb (gid == ""%string) (len users =? 0) = false -> Check (request msg ts users gid) = None) ->
  checked (sendCapturing allow recipients build).
Proof.
  intros Hk Hp. apply checked_sending; [done|]. intros targets s1 s2 s3 s4 msg x ts r _ Hb Hin. pose proof (Check_request _ _ _ _ Hin) as Hd.
  apply requests_elem in Hin as [(users & _ & _ & ->)|(t & _ & _ & ->)]; by eapply Hp.
Qed.

(** ... and a poll operation, whose destination was checked. *)
Lemma checked_poll {X} g rcpt d (build : list Target -> io (App W) err (content * X)) : pollRecipient g rcpt = Ok d ->
  (forall targets, keeps_logs (build targets)) ->
  (forall targets s s' msg x, build targets s = (Ok (msg, x), s') -> exists create vote close, msg = poll_content create vote close
    /\ match create, vote, close with
       | Some p, None, None => Poll_Check p = None
       | None, Some v, None => OutgoingPollVote_Check v = None
       | None, None, Some c => OutgoingPollClose_Check c = None
       | _, _, _ => False
       end) ->
  checked (sendCapturing allow [d] build).
Proof.
  intros (t & Hp & Hn)%pollRecipient_Ok Hk Hb. apply checked_sending; [done|]. intros targets s1 s2 s3 s4 msg x ts r Hr Hbuild Hin.
  pose proof (Check_request _ _ _ _ Hin) as Hd. destruct (poll_destination_ok _ _ _ _ _ _ _ _ Hp Hn Hr Hin) as (users & gid & -> & Hv).
  apply Hb in Hbuild as (create & vote & close & -> & H). by apply Check_poll.
Qed.

Lemma resolveUser_keeps t : keeps_logs (resolveUser t).
Proof. apply keeps_bind; [apply keeps_try, resolveUsers_keeps|]. intros [[|]|]; [apply keeps_err|apply keeps_ret|apply keeps_err]. Qed.

Lemma own_poll_keeps c : keeps_logs (own_poll c).
Proof. apply keeps_bind; [apply keeps_try, keeps_lift|]. intros []; [apply keeps_ret|apply keeps_err]. Qed.

Lemma checkPinGroups_keeps rs : keeps_logs (checkPinGroups rs).
Proof.
  unfold checkPinGroups. generalize (∅ : gset string), (@None string). induction rs as [|arg rs IH]; intros seen own; cbn [checkPinGroups_loop]; [apply keeps_ret|].
  apply keeps_bind; [apply keeps_of|]. intros t. destruct (_ || _); [apply IH|].
  apply keeps_bind; [destruct own; [apply keeps_ret|apply keeps_bind; [apply keeps_lift|intros ?; apply keeps_ret]]|]. intros aci.
  apply keeps_bind; [|intros ?; apply IH]. apply keeps_bind; [apply keeps_try, keeps_lift|]. intros [group|e]; [|apply keeps_err].
  destruct (MembershipOf group aci). repeat split_if; first [apply keeps_err|apply keeps_ret].
Qed.

Lemma resolvePinAuthor_keeps t : keeps_logs (resolvePinAuthor t).
Proof.
  apply keeps_bind; [apply markSelf_loop_keeps|]. intros [[|own rest] pending]; [apply keeps_err|]. destruct (0 <? len pending); [|apply keeps_ret].
  apply keeps_bind; [apply keeps_try, keeps_lift|]. intros [[|r [|]]|]; first [apply keeps_ret|apply keeps_err].
Qed.

Lemma pinning_keeps rs author payload check : keeps_logs (pinning rs author payload check).
Proof.
  apply keeps_bind; [apply checkPinGroups_keeps|]. intros ?. apply keeps_bind; [apply resolvePinAuthor_keeps|]. intros user.
  destruct (check user); [apply keeps_err|apply keeps_ret].
Qed.

Lemma pinning_Ok rs author payload check s msg x s' : pinning rs author payload check s = (Ok (msg, x), s') -> check x = None /\ msg = payload x.
Proof.
  unfold pinning. intros H. apply io_bind_Ok in H as (u & s1 & _ & H). apply io_bind_Ok in H as (user & s2 & _ & H).
  destruct (check user) eqn:E; [done|]. by injection H as <- <- _.
Qed.
End checked.

(** ** The operations *)

Section writes.
Context {U : UuidLib} {UL : UuidLaws U} {W : Type} {C : Client W} {CL : ClientLaws C} {WC : WriteClient W} {WL : WriteLaws WC} {T : UnicodeTables}.
Context (allow : option Allowlist).

(** The operations of this file. *)
Inductive app_write :=
  | WReact (req : ReactRequest) | WDelete (req : DeleteRequest)
  | WPollCreate (req : PollCreateRequest) | WPollVote (req : PollVoteRequest) | WPollClose (req : PollCloseRequest)
  | WPin (req : PinRequest) | WUnpin (req : UnpinRequest).

Definition perform (w : app_write) : io (App W) err SendResult :=
  match w with
  | WReact req => let* out := React allow req in io_ret (rcs_Send out.1)
  | WDelete req => let* out := Delete allow req in io_ret (dls_Send out.1)
  | WPollCreate req => let* out := PollCreate allow req in io_ret (psr_Send out.1)
  | WPollVote req => let* out := PollVote allow req in io_ret (psr_Send out.1)
  | WPollClose req => let* out := PollClose allow req in io_ret (psr_Send out.1)
  | WPin req => let* out := Pin allow req in io_ret (pns_Send out.1)
  | WUnpin req => let* out := Unpin allow req in io_ret (pns_Send out.1)
  end.

Lemma checkEmoji_None emoji : checkEmoji emoji = None -> emoji <> ""%string.
Proof. by intros H ->. Qed.

Lemma errors_in_nil e : errors_in e = [] -> e = None.
Proof. by destruct e. Qed.

Lemma React_checked req : checked (React allow req).
Proof.
  unfold React. destruct (errorsJoin _) eqn:E; [apply checked_err|]. apply errorsJoin_None, app_eq_nil in E as [_ [_ He%errors_in_nil]%app_eq_nil].
  apply checked_of. intros [author timestamp] Ht. cbn [snd]. apply (ParseTarget_Ok (rcr_Target req)) in Ht as (Hts & _ & _).
  apply (checked_ret _ (fun out => (mkReactResult out.2.1 _ _ out.1 timestamp, out.2.2))), checked_anywhere.
  - intros _. apply keeps_bind; [apply keeps_of|]. intros p. apply keeps_bind; [apply resolveUser_keeps|]. intros ?. apply keeps_ret.
  - intros _ s s' msg x ts users gid H Hd. unfold react_content in H. apply io_bind_Ok in H as ([a n] & s1 & Hp & H).
    unfold io_of in Hp. injection Hp as Hp _. apply ParseTarget_Ok in Hp as (_ & Hg & _).
    apply io_bind_Ok in H as (u & s2 & Hu & [= <- <- _]). apply resolveUser_Ok in Hu. apply Check_reaction; [done|by apply checkEmoji_None|done|].
    by eapply resolved_user.
Qed.

Lemma Delete_checked req : checked (Delete allow req).
Proof.
  unfold Delete. destruct (errorsJoin _); [apply checked_err|]. unfold sendContent, sendPreparedContent.
  apply (checked_ret _ (fun out => (mkDeleteResult out.1 (dlr_Target req), out.2))), (checked_ret _ snd), checked_anywhere.
  - intros ts. apply building_keeps, keeps_ret.
  - intros targets s s' msg x ts users gid H Hd. injection H as <- ? ?. by apply Check_delete.
Qed.

Lemma PollCreate_checked req : checked (PollCreate allow req).
Proof.
  unfold PollCreate. destruct (PollCreateRequest_Check req) eqn:E; [apply checked_err|]. apply checked_of. intros d Hd.
  unfold PollCreateRequest_Check in E. rewrite Hd in E.
  apply (checked_ret _ (fun out => (mkPollSendResult out.2.1 "create" _ out.1 (sres_Timestamp out.2.1) [] 0, out.2.2))).
  apply (checked_poll _ _ _ _ _ Hd); [intros _; apply own_poll_keeps|]. intros _ s s' msg x H. unfold own_poll in H.
  apply io_bind_Ok in H as ([acc|e] & s1 & _ & H); [|done]. injection H as <- _ _. by do 3 eexists.
Qed.

Lemma PollClose_checked req : checked (PollClose allow req).
Proof.
  unfold PollClose. destruct (PollCloseRequest_Check req) eqn:E; [apply checked_err|]. apply checked_of. intros d Hd.
  unfold PollCloseRequest_Check in E. rewrite Hd in E.
  apply (checked_ret _ (fun out => (mkPollSendResult out.2.1 "close" None out.1 (plr_Target req) [] 0, out.2.2))).
  apply (checked_poll _ _ _ _ _ Hd); [intros _; apply own_poll_keeps|]. intros _ s s' msg x H. unfold own_poll in H.
  apply io_bind_Ok in H as ([acc|e] & s1 & _ & H); [|done]. injection H as <- _ _. by do 3 eexists.
Qed.

Lemma vote_content_keeps req author timestamp targets : keeps_logs (vote_content req author timestamp targets).
Proof.
  apply keeps_bind; [apply resolveUser_keeps|]. intros user. destruct targets as [|t targets]; [apply keeps_err|].
  apply keeps_bind; [apply keeps_try, keeps_lift|]. intros []; [apply keeps_ret|apply keeps_err].
Qed.

(** The vote that is sent has a counter reserved for its poll in its chat. *)
Lemma vote_content_Ok req author timestamp targets s msg x s' : vote_content req author timestamp targets s = (Ok (msg, x), s') ->
  exists t user w w' rest, targets = t :: rest /\ resolved_as author user /\ x.1 = tgt_Recipient user
    /\ client_ReservePollVote (mkCounterReq (mkChat (tgt_GroupID t) (tgt_Recipient t)) x.1 timestamp (pvr_VoteCount req)) w = (Ok x.2, w')
    /\ msg = poll_content None (Some (mkPollVote x.1 timestamp (pvr_OptionIndexes req) x.2)) None.
Proof.
  unfold vote_content. intros H. apply io_bind_Ok in H as (user & s1 & Hu & H). apply resolveUser_Ok in Hu.
  destruct targets as [|t targets]; [done|]. apply io_bind_Ok in H as (r & s2 & Hr & H). unfold io_try, lift in Hr.
  destruct (client_ReservePollVote _ (app_world s1)) as [[count|e] w'] eqn:E; injection Hr as <- _; [|done]. injection H as <- <- _.
  by exists t, user, (app_world s1), w', targets.
Qed.

Lemma PollVote_checked req : checked (PollVote allow req).
Proof.
  unfold PollVote. destruct (PollVoteRequest_Check req) eqn:E; [apply checked_err|]. apply checked_of. intros d Hd.
  apply checked_of. intros [author timestamp] Ht. unfold PollVoteRequest_Check in E. rewrite Hd, Ht in E.
  destruct (bool_decide _) eqn:En; [done|]. apply bool_decide_eq_false_1 in En. destruct (Bool.eqb _ _); [done|].
  pose proof (ParseTarget_Ok _ _ _ Ht) as (Hts & Hg & a & Ha).
  apply (checked_ret _ (fun out => (mkPollSendResult out.2.1 "vote" None out.1.1 timestamp _ out.1.2, out.2.2))).
  apply (checked_poll _ _ _ _ _ Hd); [intros ?; apply vote_content_keeps|]. intros targets s s' msg x H.
  apply vote_content_Ok in H as (t & user & w & w' & rest & -> & Hu & Hx & Hres & ->). do 3 eexists. split; [reflexivity|]. cbn.
  unfold OutgoingPollVote_Check in E |- *. destruct (VoteCount _ =? 0) in E; [done|].
  apply Reserve_positive in Hres. cbn [VoteCount]. rewrite (proj2 (Z.eqb_neq _ _) Hres).
  unfold OutgoingPollVote_check in E |- *. destruct (_ || _) in E; [done|]. cbn [vote_TargetAuthor vote_TargetTimestamp OptionIndexes] in *.
  pose proof (canonical_nonnil _ (resolved_author _ _ _ Ha Hg En Hu)) as Hc. rewrite Hx, Hc, (proj2 (Z.eqb_neq _ _) Hts). exact E.
Qed.

Lemma pin_checked recipients author payload check op fields : (forall user, check user = None -> exists pin unpin, payload user = pin_content pin unpin
    /\ match pin, unpin with
       | Some p, None => OutgoingPin_Check p = None
       | None, Some u => OutgoingUnpin_Check u = None
       | _, _ => False
       end) ->
  checked (let* out := sendCapturing allow recipients (fun _ => pinning recipients author payload check) in
           io_ret (mkPinSendResult out.2.1 op out.1 fields.1.1 fields.1.2 fields.2, out.2.2)).
Proof.
  intros Hp. apply (checked_ret _ (fun out => (mkPinSendResult out.2.1 op out.1 fields.1.1 fields.1.2 fields.2, out.2.2))), checked_anywhere.
  - intros _. apply pinning_keeps.
  - intros _ s s' msg x ts users gid H Hd. apply pinning_Ok in H as [Hc ->]. destruct (Hp x Hc) as (pin & unpin & -> & H). by apply Check_pin.
Qed.

Lemma Pin_checked req : checked (Pin allow req).
Proof.
  unfold Pin. destruct (PinRequest_Check req); [apply checked_err|]. apply checked_of. intros [author timestamp] _.
  apply (pin_checked _ _ _ _ "pin" (timestamp, pnr_DurationSeconds req, pnr_Forever req)). intros user Hc. by do 2 eexists.
Qed.

Lemma Unpin_checked req : checked (Unpin allow req).
Proof.
  unfold Unpin. destruct (UnpinRequest_Check req); [apply checked_err|]. apply checked_of. intros [author timestamp] _.
  apply (pin_checked _ _ _ _ "unpin" (timestamp, 0, false)). intros user Hc. by do 2 eexists.
Qed.

(** Voting. When the vote is sent it goes to one chat, and it carries exactly the counter that was
    reserved for this poll in this chat: the reservation names the chat the vote goes to and the
    author and time the vote names, and the result reports the same counter, author and options. *)
Theorem PollVote_spec req s : 0 <= app_lastTimestamp s < MaxUint64 ->
  match PollVote allow req s with
  | (Err _, s') => logs s' = logs s
  | (Ok (out, e), s') => exists author timestamp t user count w w',
      ParseTarget (pvr_Target req) = Ok (author, timestamp) /\ resolved_as author user
      /\ client_ReservePollVote (mkCounterReq (mkChat (tgt_GroupID t) (tgt_Recipient t)) (tgt_Recipient user) timestamp (pvr_VoteCount req)) w = (Ok count, w')
      /\ sends allow s s' [t] (poll_content None (Some (mkPollVote (tgt_Recipient user) timestamp (pvr_OptionIndexes req) count)) None) (psr_Send out) e
      /\ psr_VoteCount out = count /\ psr_TargetAuthor out = tgt_Recipient user /\ psr_TargetTimestamp out = timestamp
      /\ psr_OptionIndexes out = pvr_OptionIndexes req
  end.
Proof.
  intros Hs. unfold PollVote. destruct (PollVoteRequest_Check req); [done|].
  destruct (pollRecipient _ _) as [d|] eqn:Hd; [|done]. destruct (ParseTarget (pvr_Target req)) as [[author timestamp]|] eqn:Ht; [|done].
  unfold io_bind at 1 2, io_of. unfold io_bind.
  pose proof (sendCapturing_run allow [d] (vote_content req author timestamp) s (fun ts => vote_content_keeps req author timestamp ts) Hs) as H.
  destruct (sendCapturing _ _ _ s) as [[[x [out e]]|e] s']; [|exact H]. destruct H as (targets & msg & s1 & s2 & s3 & s4 & Hr & _ & Hb & Hsends).
  apply vote_content_Ok in Hb as (t & user & w & w' & rest & -> & Hu & Hx & Hres & ->). rewrite Hx in *.
  apply ResolveRecipients_one in Hr as (t0 & t' & _ & _ & [= -> ->]). exists author, timestamp, t', user, x.2, w, w'. split_and!; done.
Qed.

(** A group in which we may pin: we are a member of it, as an administrator or with members allowed
    to edit its attributes. *)
Definition may_pin (id : string) : Prop := exists acc w w' group role w1 w1',
  client_Account w = (Ok acc, w') /\ client_Group id w1 = (Ok group, w1')
  /\ MembershipOf group (acc_ACI acc) = (MembershipMember, role) /\ (role = GroupRoleAdmin \/ MembersCanEditAttributes group = true).

Lemma checkPinGroup_Ok id acc w w' s u s' : client_Account w = (Ok acc, w') -> checkPinGroup id (acc_ACI acc) s = (Ok u, s') -> may_pin id.
Proof.
  intros Ha H. unfold checkPinGroup in H. apply io_bind_Ok in H as (r & s1 & Hr & H). unfold io_try, lift in Hr.
  destruct (client_Group id (app_world s)) as [[group|e] w1] eqn:E; injection Hr as <- _; [|done].
  destruct (MembershipOf group (acc_ACI acc)) as [membership role] eqn:Em. destruct (bool_decide (membership = MembershipMember)) eqn:E1; [|done].
  apply bool_decide_eq_true_1 in E1 as ->. cbn [negb] in H. exists acc, w, w', group, role, (app_world s), w1. split_and!; [done..|].
  destruct (bool_decide (role = GroupRoleAdmin)) eqn:E2; [left; by apply bool_decide_eq_true_1 in E2|right]. by destruct (MembersCanEditAttributes group).
Qed.

Lemma checkPinGroups_loop_Ok recipients seen own s u s' : checkPinGroups_loop seen own recipients s = (Ok u, s') ->
  (forall id, id ∈ seen -> may_pin id) -> (forall aci, own = Some aci -> exists acc w w', client_Account w = (Ok acc, w') /\ acc_ACI acc = aci) ->
  forall arg t, arg ∈ recipients -> ParseRecipient arg = Ok t -> Target_IsGroup t = true -> may_pin (tgt_GroupID t).
Proof.
  revert seen own s. induction recipients as [|a recipients IH]; intros seen own s; cbn [checkPinGroups_loop]; [by intros _ _ _ ? ? ?%elem_of_nil|].
  intros H Hseen Hown arg t Hin Hp Hg. apply io_bind_Ok in H as (t0 & s1 & Ht0 & H). unfold io_of in Ht0. injection Ht0 as Ht0 _.
  destruct (negb (Target_IsGroup t0) || bool_decide (tgt_GroupID t0 ∈ seen)) eqn:E.
  - apply elem_of_cons in Hin as [->|Hin]; [|by eapply IH]. rewrite Hp in Ht0. injection Ht0 as <-. rewrite Hg in E. cbn [negb orb] in E.
    apply Hseen. by apply bool_decide_eq_true_1 in E.
  - apply io_bind_Ok in H as (aci & s2 & Ha & H). apply io_bind_Ok in H as (v & s3 & Hc & H).
    assert (Hacc : exists acc w w', client_Account w = (Ok acc, w') /\ acc_ACI acc = aci).
    { destruct own as [o|]; [injection Ha as -> _; by apply Hown|]. apply io_bind_Ok in Ha as (acc & s4 & Hl & [= <- _]). unfold lift in Hl.
      destruct (client_Account (app_world s1)) as [[a0|e] w] eqn:Ea; [|done]. injection Hl as -> _. by exists acc, (app_world s1), w. }
    assert (Hpin : may_pin (tgt_GroupID t0)) by (destruct Hacc as (acc & w & w' & Hacc & <-); by eapply checkPinGroup_Ok).
    apply elem_of_cons in Hin as [->|Hin]; [by rewrite Hp in Ht0; injection Ht0 as <-|].
    eapply IH; [exact H| |by intros ? [= <-]|exact Hin|exact Hp|exact Hg]. intros id [->%elem_of_singleton|?]%elem_of_union; [done|by apply Hseen].
Qed.

(** Pinning. When a pin is sent, then for every group it goes to, the group's state was fetched
    after the allowlist was checked, and in it our account was a member who may edit the group's
    attributes; no other group gets the pin. *)
Theorem Pin_spec req s : 0 <= app_lastTimestamp s < MaxUint64 ->
  match Pin allow req s with
  | (Err _, s') => logs s' = logs s
  | (Ok (out, e), s') => exists targets pin,
      sends allow s s' targets (pin_content (Some pin) None) (pns_Send out) e /\ OutgoingPin_Check pin = None
      /\ forall t, t ∈ targets -> Target_IsGroup t = true -> may_pin (tgt_GroupID t)
  end.
Proof.
  intros Hs. unfold Pin. destruct (PinRequest_Check req); [done|]. destruct (ParseTarget (pnr_Target req)) as [[author timestamp]|]; [|done].
  unfold io_bind at 1, io_of. unfold io_bind. match goal with |- context [sendCapturing allow ?rs ?b s] =>
    pose proof (sendCapturing_run allow rs b s (fun _ => pinning_keeps _ _ _ _) Hs) as H; destruct (sendCapturing allow rs b s) as [[[x [out e]]|e] s'] end; [|exact H].
  destruct H as (targets & msg & s1 & s2 & s3 & s4 & Hr & _ & Hb & Hsends). pose proof (pinning_Ok _ _ _ _ _ _ _ _ Hb) as [Hc ->].
  eexists targets, _. split; [exact Hsends|]. split; [exact Hc|]. intros t Ht Hg. unfold pinning in Hb.
  apply io_bind_Ok in Hb as (u & s5 & Hg5 & _). apply ResolveRecipients_Ok in Hr as (parsed & resolved & Hp & Hres & ->).
  pose proof (elem_of_sublist _ _ _ Ht (dedup_from_sublist _ _ _)) as [k Hk]%list_elem_of_lookup.
  destruct (Forall2_lookup_r _ _ _ _ _ Hres Hk) as (t0 & H0 & Hra). destruct (Forall2_lookup_r _ _ _ _ _ Hp H0) as (arg & Harg & Hpa).
  unfold resolved_as in Hra. destruct (Target_IsGroup t0) eqn:Hg0; [subst t0|by rewrite (proj1 Hra) in Hg].
  eapply (checkPinGroups_loop_Ok _ _ _ _ _ _ Hg5); [by intros ? ?%not_elem_of_empty|done|by eapply list_elem_of_lookup_2|exact Hpa|exact Hg].
Qed.

(** C4. Reactions, deletes, poll operations and pins. Whatever the user asks for and the client answers:
    an operation that fails before sending hands the client nothing, and every request that one of
    them hands to the client passes the client's own check; so the checks the application makes
    before connecting, before the target author is known, are enough. *)
Theorem perform_checked w s : 0 <= app_lastTimestamp s < MaxUint64 ->
  match perform w s with
  | (Err _, s') => logs s' = logs s
  | (Ok _, s') => forall r, r ∈ app_sent s' -> r ∈ app_sent s \/ Check r = None
  end.
Proof.
  intros Hs. assert (H : checked (perform w)).
  { destruct w; cbn [perform].
    - apply (checked_ret _ (fun out => rcs_Send out.1)), React_checked.
    - apply (checked_ret _ (fun out => dls_Send out.1)), Delete_checked.
    - apply (checked_ret _ (fun out => psr_Send out.1)), PollCreate_checked.
    - apply (checked_ret _ (fun out => psr_Send out.1)), PollVote_checked.
    - apply (checked_ret _ (fun out => psr_Send out.1)), PollClose_checked.
    - apply (checked_ret _ (fun out => pns_Send out.1)), Pin_checked.
    - apply (checked_ret _ (fun out => pns_Send out.1)), Unpin_checked. }
  destruct (perform w s) as [[r|e] s'] eqn:E; destruct (H _ _ _ Hs E) as [H1 H2]; [exact H2|by apply H1].
Qed.
End writes.

(** ** Witnesses *)

Section witnesses.
Import DemoUuid.

Definition demo_self : string := "11111111-1111-4111-8111-111111111111".
Definition demo_pin_group : Group :=
  mkGroup "" "id" "key" "Title" "" 7 0 false true true [mkMember (ofACI demo_self) GroupRoleMember 0] [] [] []
    MembershipMember GroupRoleMember zero_time None.

(** A client that always reserves the counter 4 and knows one group. *)
#[local] Instance demo_writer : WriteClient unit := {|
  client_Upload := fun _ => io_ret []; client_FetchSticker := fun _ => io_err (Sent ErrClosed);
  client_ReservePollVote := fun _ => io_ret 4; client_Group := fun _ => io_ret demo_pin_group;
  client_StoryAudiences := io_err (Sent ErrClosed) |}.
#[local] Instance demo_writer_laws : WriteLaws demo_writer.
Proof. split. by intros req w count w' [= <- _]. Qed.
#[local] Instance demo_tables : UnicodeTables := {|
  IsLetter := fun r => ((65 <=? r) && (r <=? 90)) || ((97 <=? r) && (r <=? 122)); IsPrint := fun r => 32 <=? r |}.
#[local] Existing Instance AppSend.demo_client.
#[local] Existing Instance AppSend.demo_laws.

Definition demo_thumb : string :=
  String (ascii_of 240) (String (ascii_of 159) (String (ascii_of 145) (String (ascii_of 141) ""))).
Definition demo_react : app_write := WReact (mkReactRequest ["self"%string] "self:5" demo_thumb false).
Definition demo_group_arg : string := "group:AAAAAAAAAAAAAAAAAAAAAAAAAAAAAAAAAAAAAAAAAAA=".

Lemma demo_room : 0 <= app_lastTimestamp AppSend.demo_app < MaxUint64.
Proof. vm_compute. split; [discriminate|reflexivity]. Defined.

Lemma perform_checked_witness : 0 <= app_lastTimestamp AppSend.demo_app < MaxUint64
  /\ is_ok (perform None demo_react AppSend.demo_app).1 = true
  /\ forall r, r ∈ app_sent (perform None demo_react AppSend.demo_app).2 -> Check r = None.
Proof.
  pose proof (perform_checked (UL:=DemoUuid.laws) None demo_react AppSend.demo_app demo_room) as H. split; [exact demo_room|].
  assert (E : is_ok (perform None demo_react AppSend.demo_app).1 = true) by (vm_compute; reflexivity). split; [exact E|].
  destruct (perform None demo_react AppSend.demo_app) as [[out|e] s']; [|discriminate E]. intros r Hr.
  destruct (H r Hr) as [Hn|Hc]; [by apply elem_of_nil in Hn|exact Hc].
Defined.

Definition demo_vote_req : PollVoteRequest :=
  mkPollVoteRequest "" "22222222-2222-4222-8222-222222222222" "self:7" [0; 2] 0 false.

Lemma PollVote_spec_witness : 0 <= app_lastTimestamp AppSend.demo_app < MaxUint64
  /\ match PollVote None demo_vote_req AppSend.demo_app with (Ok (out, _), _) => psr_OptionIndexes out = [0; 2] | (Err _, _) => False end.
Proof.
  pose proof (PollVote_spec None demo_vote_req AppSend.demo_app demo_room) as H. split; [exact demo_room|].
  assert (E : is_ok (PollVote None demo_vote_req AppSend.demo_app).1 = true) by (vm_compute; reflexivity).
  destruct (PollVote None demo_vote_req AppSend.demo_app) as [[[out e]|e] s']; [|discriminate E].
  destruct H as (author & timestamp & t & user & count & w & w' & _ & _ & _ & _ & _ & _ & _ & Ho). exact Ho.
Defined.

Definition demo_pin_req : PinRequest := mkPinRequest [demo_group_arg] "self:7" 60 false.

Lemma Pin_spec_witness : 0 <= app_lastTimestamp AppSend.demo_app < MaxUint64
  /\ match Pin None demo_pin_req AppSend.demo_app with
     | (Ok (out, _), _) => exists targets : list Target, forall t : Target, t ∈ targets -> Target_IsGroup t = true -> may_pin (tgt_GroupID t)
     | (Err _, _) => False
     end.
Proof.
  pose proof (Pin_spec None demo_pin_req AppSend.demo_app demo_room) as H. split; [exact demo_room|].
  assert (E : is_ok (Pin None demo_pin_req AppSend.demo_app).1 = true) by (vm_compute; reflexivity).
  destruct (Pin None demo_pin_req AppSend.demo_app) as [[[out e]|e] s']; [|discriminate E].
  destruct H as (targets & pin & _ & _ & Ht). exists targets. exact Ht.
Defined.
End witnesses.
