(* ===== verification/AppStories.v ===== *)
(** * Sending stories (internal/app/stories_send.go, stories_private.go)

    [StorySend]: a text card or one image or video for a group of ours or a private audience, which is
    read from the account's storage at the time of sending. *)

From S2P Require Import Prelude Errors Uuid Utf8 Base64 Types SendCheck Groups Recipients SendFlow Content FilePath Attachments AppSend AppWrite.

Definition MyStoryID : string := "00000000-0000-0000-0000-000000000000".

Record StorySendRequest := mkStoryRequest {
  str_GroupID : string; str_DistributionListID : string; str_MyStory : bool; str_Text : string; str_Attachment : string;
  str_NoReplies : bool; str_AttachDir : string }.
Record StorySendResult := mkStoryResult {
  sts_Send : SendResult; sts_AllowsReplies : bool; sts_DistributionListID : string; sts_StorageVersion : Z; sts_SyncErr : error }.

Definition with_type (att : OutgoingAttachment) (typ : string) : OutgoingAttachment :=
  mkOutgoing (oat_Data att) typ (oat_Filename att) (oat_Width att) (oat_Height att).
Definition with_story_file (story : OutgoingStory) (file : UploadedAttachment) : OutgoingStory :=
  mkOutStory (DistributionListID story) (story_Text story) (Some file) (story_AllowsReplies story).
Definition story_request (recipients : list Recipient) (groupID : string) (timestamp : Z) (story : OutgoingStory) : SendRequest :=
  mkSendRequest recipients groupID "" timestamp 0 [] None (Some story) None None None None None None [] [] None 0.

Section checks.
Context {U : UuidLib}.

Definition checkAudience (req : StorySendRequest) : error :=
  let group_ok := match decodeGroupKey (str_GroupID req) with Some id => id == str_GroupID req | None => false end in
  let list_ok := match uuid_parse (str_DistributionListID req) with
                 | Some id => uuid_string id == str_DistributionListID req
                 | None => false
                 end in
  if (str_GroupID req != ""%string) && negb group_ok then Some (Sent ErrInvalidStory)
  else if (str_DistributionListID req != ""%string) && negb list_ok then Some (Sent ErrInvalidStory)
  else
    let audiences := (if str_GroupID req != ""%string then 1 else 0) + (if str_DistributionListID req != ""%string then 1 else 0)
                     + (if str_MyStory req then 1 else 0) in
    if negb (audiences =? 1) then Some (Sent ErrInvalidStory) else None.

Definition StorySendRequest_Check (req : StorySendRequest) : error :=
  if ((str_Attachment req == ""%string) && (TrimSpace (str_Text req) == ""%string))
     || ((str_Attachment req != ""%string) && (str_Text req != ""%string))
  then Some (Sent ErrInvalidStory)
  else checkAudience req.
End checks.

Definition findStoryAudience (snapshot : StoryAudiences) (audienceID : string) : res StoryAudience :=
  match find (fun a => aud_ID a == audienceID) (aus_Audiences snapshot) with
  | Some audience => if len (aud_Recipients audience) =? 0 then Err (errorf ErrStoryAudienceUnavailable) else Ok audience
  | None => Err (errorf ErrStoryAudienceUnavailable)
  end.

(** The answers by ACI, the last of each. *)
Definition peers_of (results : list RecipientResult) : gmap string RecipientResult :=
  foldl (fun peers peer => <[ACI (rr_Recipient peer) := peer]> peers) ∅ results.

Definition private_result (peers : gmap string RecipientResult) (target : Target) : TargetResult :=
  match peers !! ACI (tgt_Recipient target) with
  | Some peer => mkTargetResult target (rr_Unidentified peer) [] (rr_Err peer)
  | None => mkTargetResult target false [] (Some (Sent errNoResult))
  end.

Definition privateStoryResult (res : StorySendResult) (targets : list Target) (sent : SignalSendResult) : StorySendResult * error :=
  let results := private_result (peers_of (sr_Results sent)) <$> targets in
  let out := mkSendResult (sres_Timestamp (sts_Send res)) (sres_Results (sts_Send res) ++ results) in
  let res := mkStoryResult out (sts_AllowsReplies res) (sts_DistributionListID res) (sts_StorageVersion res) (sr_SyncErr sent) in
  let peerErr := SendResult_err out in
  (res, match sr_SyncErr sent with
        | Some e => errorsJoin (errors_in peerErr ++ [Wrap [Sent ErrSendFailed; e]])
        | None => peerErr
        end).

Section stories.
Context {U : UuidLib} {W : Type} {C : Client W} {WC : WriteClient W} {F : Files W} {L : MediaLib} (allow : option Allowlist).

Notation M := (io (App W) err).

(** The file of a story, with the type its bytes have. *)
Definition storyFiles (req : StorySendRequest) : M (list OutgoingAttachment) :=
  if str_Attachment req == ""%string then io_ret []
  else
    let* files := lift (loadAttachments (str_AttachDir req) [str_Attachment req]) in
    match files with
    | [] => io_err index_panic
    | file :: rest =>
        let typ := DetectContentType (oat_Data file) in
        if negb (StoryMediaType typ) then io_err (errorf ErrInvalidStory) else io_ret (with_type file typ :: rest)
    end.

Definition checkStoryMember (groupID : string) : M unit :=
  let* account := lift client_Account in
  let* group := lift (client_Group groupID) in
  if (MembershipOf group (acc_ACI account)).1 != MembershipMember then io_err (Sent ErrNotAMember) else io_ret tt.

Definition uploadStory (story : OutgoingStory) (files : list OutgoingAttachment) : M OutgoingStory :=
  if len files =? 0 then io_ret story
  else
    let* uploaded := lift (client_Upload files) in
    match uploaded with
    | [file] => io_ret (with_story_file story file)
    | _ => io_err (errorf ErrUnknownAttachment)
    end.

Definition privateStorySend (req : StorySendRequest) (files : list OutgoingAttachment) : M (StorySendResult * error) :=
  let* snapshot := lift client_StoryAudiences in
  let audienceID := if str_MyStory req then MyStoryID else str_DistributionListID req in
  let* audience := io_of (findStoryAudience snapshot audienceID) in
  let targets := (fun r => mkTarget r "" false) <$> aud_Recipients audience in
  let* _ := checkAllowed allow targets in
  let* story := uploadStory (mkOutStory audienceID (str_Text req) None (aud_AllowsReplies audience && negb (str_NoReplies req))) files in
  let* timestamp := nextTimestamp in
  let res := mkStoryResult (mkSendResult timestamp []) (story_AllowsReplies story) audienceID (aus_StorageVersion snapshot) None in
  let* sent := send_request (story_request (aud_Recipients audience) "" timestamp story) in
  io_ret (privateStoryResult res targets sent).

Definition groupStorySend (req : StorySendRequest) (files : list OutgoingAttachment) : M (StorySendResult * error) :=
  let target := groupTarget (str_GroupID req) in
  let* _ := checkAllowed allow [target] in
  let* _ := checkStoryMember (str_GroupID req) in
  let* story := uploadStory (mkOutStory "" (str_Text req) None (negb (str_NoReplies req))) files in
  let* timestamp := nextTimestamp in
  let* r := io_try (send_request (story_request [] (str_GroupID req) timestamp story)) in
  let result := match r with
                | Err e => mkTargetResult target false [] (Some e)
                | Ok sent => mkTargetResult target false (sr_Results sent) (sr_SyncErr sent)
                end in
  let out := mkSendResult timestamp [result] in
  io_ret (mkStoryResult out (story_AllowsReplies story) "" 0 None, SendResult_err out).

Definition StorySend (req : StorySendRequest) : M (StorySendResult * error) :=
  match StorySendRequest_Check req with
  | Some e => io_err (Wrap [e])
  | None =>
      let* files := storyFiles req in
      let* _ := connectSendOnly in
      if str_GroupID req == ""%string then privateStorySend req files else groupStorySend req files
  end.
End stories.

(** ** What a story is sent as *)

(** What the facade promises for stories: uploads keep the type of their file and have an ID, and the
    audiences of the account's storage list canonical ACIs. Nil UUIDs print as My Story's ID. *)
Class StoryLaws {U : UuidLib} {W : Type} (WC : WriteClient W) : Prop := {
  Upload_files fs w us w' : client_Upload fs w = (Ok us, w') ->
    Forall2 (fun f u => upl_ID u <> ""%string /\ upl_ContentType u = oat_ContentType f) fs us;
  Audiences_canonical w snapshot w' a : client_StoryAudiences w = (Ok snapshot, w') -> a ∈ aus_Audiences snapshot ->
    forallb storyRecipient (aud_Recipients a) = true;
  MyStory_nil : uuid_string uuid_nil = MyStoryID;
}.

Section story_spec.
Context {U : UuidLib} {UL : UuidLaws U} {W : Type} {C : Client W} {WC : WriteClient W} {SL : StoryLaws WC} {F : Files W} {L : MediaLib}.
Context (allow : option Allowlist).

Lemma storyFiles_keeps req : keeps_logs (storyFiles req).
Proof.
  unfold storyFiles. destruct (_ == _); [apply keeps_ret|]. apply keeps_bind; [apply keeps_lift|]. intros [|f fs]; [apply keeps_err|].
  destruct (negb _); [apply keeps_err|apply keeps_ret].
Qed.

Lemma checkStoryMember_keeps id : keeps_logs (checkStoryMember id).
Proof.
  apply keeps_bind; [apply keeps_lift|]. intros acc. apply keeps_bind; [apply keeps_lift|]. intros g. destruct (_ != _); [apply keeps_err|apply keeps_ret].
Qed.

Lemma uploadStory_keeps story files : keeps_logs (uploadStory story files).
Proof.
  unfold uploadStory. destruct (len files =? 0); [apply keeps_ret|]. apply keeps_bind; [apply keeps_lift|].
  intros [|f [|]]; [apply keeps_err|apply keeps_ret|apply keeps_err].
Qed.

(** The files of a checked story: none for a text that is not blank, or one image or video without text. *)
Definition story_files_ok (req : StorySendRequest) (files : list OutgoingAttachment) : Prop :=
  (files = [] /\ TrimSpace (str_Text req) <> ""%string)
  \/ exists f, files = [f] /\ StoryMediaType (oat_ContentType f) = true /\ str_Text req = ""%string.

Lemma storyFiles_Ok req s files s' : StorySendRequest_Check req = None -> storyFiles req s = (Ok files, s') -> story_files_ok req files.
Proof.
  unfold StorySendRequest_Check, storyFiles, story_files_ok. destruct (bool_decide (str_Attachment req = ""%string)) eqn:Ea; cbn [andb negb orb].
  - destruct (bool_decide (TrimSpace _ = _)) eqn:Et; [done|]. intros _ [= <- _]. left. split; [done|]. by apply bool_decide_eq_false_1 in Et.
  - destruct (bool_decide (str_Text req = ""%string)) eqn:Et; [|done]. apply bool_decide_eq_true_1 in Et. intros _ H.
    apply io_bind_Ok in H as (fs & s1 & Hl & H). destruct fs as [|f fs]; [done|]. destruct (negb _) eqn:Em; [done|]. injection H as <- _.
    right. exists (with_type f (DetectContentType (oat_Data f))). apply negb_false_iff in Em. split_and!; [|done|done]. f_equal.
    unfold lift, loadAttachments in Hl.
    destruct (io_bind _ _ (app_world s)) as [[r|] w] eqn:E; [|done]. injection Hl as -> _.
    apply io_bind_Ok in E as (files & w1 & _ & E). apply io_bind_Ok in E as (out & w2 & Hle & E).
    pose proof (load_each_spec files [str_Attachment req] w1 I) as Hspec. rewrite Hle in Hspec. cbn in Hspec.
    destruct (errorsJoin out.2) eqn:Ej; [done|]. apply errorsJoin_None in Ej. specialize (Hspec Ej). injection E as E _. rewrite E in Hspec.
    inversion Hspec as [|? ? ? ? _ Hn]; subst. by inversion Hn.
Qed.

Lemma uploadStory_Ok req files id allows s story s' : story_files_ok req files ->
  uploadStory (mkOutStory id (str_Text req) None allows) files s = (Ok story, s') ->
  OutgoingStory_check story = None /\ DistributionListID story = id /\ story_AllowsReplies story = allows /\ story_Text story = str_Text req.
Proof.
  unfold uploadStory. intros [[-> Ht]|(f & -> & Hm & Ht)]; cbn [len length Z.of_nat Z.eqb].
  - intros [= <- _]. split_and!; [|done..]. unfold OutgoingStory_check. cbn. by rewrite bool_decide_eq_false_2.
  - intros H. change (len [f] =? 0) with false in H. cbv iota in H. apply io_bind_Ok in H as (us & s1 & Hu & H). unfold lift in Hu.
    destruct (client_Upload [f] (app_world s)) as [[us'|] w] eqn:E; [|done]. injection Hu as -> _. apply Upload_files in E.
    inversion E as [|? u ? ? [Hid Hty] Hn]; subst. inversion Hn; subst. injection H as <- _. split_and!; [|done..].
    unfold OutgoingStory_check. cbn. rewrite Ht, Hty, Hm. rewrite (bool_decide_eq_true_2 (_ = ""%string)), (bool_decide_eq_false_2 (upl_ID u = _)) by done. done.
Qed.

Lemma group_story_passes req story ts : StorySendRequest_Check req = None -> str_GroupID req <> ""%string ->
  OutgoingStory_check story = None -> DistributionListID story = ""%string -> Check (story_request [] (str_GroupID req) ts story) = None.
Proof.
  unfold StorySendRequest_Check, checkAudience. destruct (_ || _); [done|]. intros H Hg Hs Hd. rewrite (bool_decide_eq_false_2 (str_GroupID req = _)) in H by done.
  cbn [negb andb] in H. destruct (decodeGroupKey (str_GroupID req)) as [key|] eqn:Ek; [|done].
  destruct (bool_decide (key = str_GroupID req)) eqn:E; [|done]. apply bool_decide_eq_true_1 in E as ->.
  apply decodeGroupKey_Some in Ek as (raw & Hl & Hraw). unfold Check, checkStory, storyAudience. cbn [req_Story story_request req_GroupID req_Recipients].
  rewrite Hd. cbn [negb]. rewrite Hraw, DecodeString_EncodeToString, Hl. rewrite (bool_decide_eq_true_2 (_ = EncodeToString _ _)) by done. exact Hs.
Qed.

(** The ID of a private audience is canonical. *)
Lemma audience_id req : StorySendRequest_Check req = None -> str_GroupID req = ""%string ->
  let id := if str_MyStory req then MyStoryID else str_DistributionListID req in
  id <> ""%string /\ exists u, uuid_parse id = Some u /\ uuid_string u = id.
Proof.
  unfold StorySendRequest_Check, checkAudience. destruct (_ || _); [done|]. intros H Hg. rewrite Hg in H. cbn [negb andb] in H.
  rewrite (bool_decide_eq_true_2 (""%string = ""%string)) in H by done. cbn [negb andb] in H. cbv zeta. destruct (str_MyStory req).
  { split; [done|]. exists uuid_nil. rewrite <- MyStory_nil. by rewrite uuid_parse_string. }
  destruct (bool_decide (str_DistributionListID req = ""%string)) eqn:Ed; [done|]. apply bool_decide_eq_false_1 in Ed. cbn [negb andb] in H.
  split; [done|]. destruct (uuid_parse (str_DistributionListID req)) as [u|]; [|done]. exists u. split; [done|].
  destruct (bool_decide (uuid_string u = _)) eqn:E; [by apply bool_decide_eq_true_1 in E|done].
Qed.

Lemma findStoryAudience_Ok snapshot id a : findStoryAudience snapshot id = Ok a -> a ∈ aus_Audiences snapshot /\ aud_ID a = id /\ aud_Recipients a <> [].
Proof.
  unfold findStoryAudience. destruct (find _ _) as [x|] eqn:E; [|done]. destruct (len _ =? 0) eqn:El; [done|]. intros [= ->].
  apply find_some in E as [Hin Hid]. apply bool_decide_eq_true_1 in Hid. split_and!; [by apply list_elem_of_In|done|]. intros Hn. by rewrite Hn in El.
Qed.

Lemma private_story_passes req story rs ts : StorySendRequest_Check req = None -> str_GroupID req = ""%string ->
  OutgoingStory_check story = None -> DistributionListID story = (if str_MyStory req then MyStoryID else str_DistributionListID req) ->
  rs <> [] -> forallb storyRecipient rs = true -> Check (story_request rs "" ts story) = None.
Proof.
  intros Hc Hg Hs Hd Hne Hall. destruct (audience_id req Hc Hg) as [Hid (u & Hu & Hu')]. rewrite <- Hd in *.
  unfold Check, checkStory, storyAudience, privateStoryAudience. cbn [req_Story story_request req_GroupID req_Recipients].
  rewrite (bool_decide_eq_false_2 (DistributionListID story = _)) by done. cbn [negb]. rewrite Hu, Hu', Hall.
  rewrite (bool_decide_eq_true_2 (DistributionListID story = _)) by done. destruct rs; [done|]. exact Hs.
Qed.

(** The story as it was sent: its request, its targets and its result. *)
Definition story_sent (req : StorySendRequest) (s : App W) (reqs : list SendRequest) (out : StorySendResult) (e : error) : Prop :=
  exists story rs targets,
    reqs = [story_request rs (str_GroupID req) (sres_Timestamp (sts_Send out)) story]
    /\ (if bool_decide (str_GroupID req = ""%string)
        then targets = (fun r => mkTarget r "" false) <$> rs
             /\ DistributionListID story = (if str_MyStory req then MyStoryID else str_DistributionListID req)
        else targets = [groupTarget (str_GroupID req)] /\ rs = [] /\ DistributionListID story = ""%string)
    /\ story_Text story = str_Text req /\ (str_NoReplies req = true -> story_AllowsReplies story = false)
    /\ (forall l, allow = Some l -> allowed_by l targets) /\ app_lastTimestamp s < sres_Timestamp (sts_Send out)
    /\ tr_Target <$> sres_Results (sts_Send out) = targets
    /\ (e = None <-> (forall t, t ∈ sres_Results (sts_Send out) -> TargetResult_OK t = true) /\ sts_SyncErr out = None).

(** Everything an operation did: at most one request, which passes the check. *)
Definition story_step (req : StorySendRequest) (s : App W) (res : result err (StorySendResult * error)) (s' : App W) : Prop :=
  exists reqs, app_sent s' = app_sent s ++ reqs /\ (length reqs <= 1)%nat /\ Forall (fun r => Check r = None) reqs
    /\ match res with Err _ => True | Ok (out, e) => story_sent req s reqs out e end.

Lemma story_none req s s' e : logs s' = logs s -> story_step req s (Err e) s'.
Proof. intros H. injection H as _ H _. exists []. rewrite app_nil_r. split_and!; [done|cbn; lia|constructor|done]. Qed.

Lemma privateStoryResult_spec res targets sent out e : privateStoryResult res targets sent = (out, e) -> sres_Results (sts_Send res) = [] ->
  sres_Timestamp (sts_Send out) = sres_Timestamp (sts_Send res) /\ tr_Target <$> sres_Results (sts_Send out) = targets
  /\ (e = None <-> (forall t, t ∈ sres_Results (sts_Send out) -> TargetResult_OK t = true) /\ sts_SyncErr out = None).
Proof.
  intros [= <- <-] Hn. cbn. rewrite Hn. cbn [app]. split_and!; [done| |].
  - rewrite <- list_fmap_compose. etrans; [|apply list_fmap_id]. apply list_fmap_ext. intros i t _. cbn. unfold private_result. by destruct (_ !! _).
  - match goal with |- context [SendResult_err ?r] => pose proof (SendResult_err_None r) as Hr end. cbn [sres_Results] in Hr. rewrite <- Hr.
    destruct (sr_SyncErr sent) as [e|]; [|tauto]. split; [|by intros [_ ?]]. by destruct (errors_in _).
Qed.

Lemma private_step req files s s0 : StorySendRequest_Check req = None -> str_GroupID req = ""%string -> story_files_ok req files ->
  logs s = logs s0 -> 0 <= app_lastTimestamp s0 < MaxUint64 ->
  let (res, s') := privateStorySend allow req files s in story_step req s0 res s'.
Proof.
  intros Hc Hg Hf Hl Hs. unfold privateStorySend. unfold io_bind at 1, lift at 1.
  destruct (client_StoryAudiences (app_world s)) as [[snapshot|e] w] eqn:Ea; [|apply story_none; exact Hl]. unfold io_bind at 1, io_of.
  destruct (findStoryAudience _ _) as [a|e] eqn:Ef; [|apply story_none; exact Hl]. apply findStoryAudience_Ok in Ef as (Hin & _ & Hne).
  pose proof (Audiences_canonical _ _ _ _ Ea Hin) as Hcan. unfold io_bind at 1.
  match goal with |- context [checkAllowed allow ?ts ?st] => set (targets := ts); set (s1 := st) end.
  assert (Hl1 : logs s1 = logs s0) by exact Hl. destruct (checkAllowed allow targets s1) as [[v|e] s2] eqn:E2; [|apply checkAllowed_keeps in E2; apply story_none; congruence].
  assert (Hall : forall l, allow = Some l -> allowed_by l targets) by (intros l El; rewrite El in E2; by eapply checkAllowed_Ok).
  apply checkAllowed_keeps in E2. unfold io_bind at 1.
  match goal with |- context [uploadStory ?st files s2] => destruct (uploadStory st files s2) as [[story|e] s3] eqn:E3 end; [|apply uploadStory_keeps in E3; apply story_none; congruence].
  pose proof (uploadStory_Ok _ _ _ _ _ _ _ Hf E3) as (Hsc & Hd & Har & Ht). apply uploadStory_keeps in E3. unfold io_bind at 1.
  destruct (nextTimestamp_run s3) as (ts & w3 & -> & Hts). assert (Hl3 : logs s3 = logs s0) by congruence. injection Hl3 as Hl3 Hsent3 _.
  unfold io_bind. match goal with |- context [send_request ?r ?st] => destruct (send_request_run r st) as (ans & s4 & -> & Hsent) end.
  injection Hsent as _ Hsent _. cbn [app_sent] in Hsent. rewrite Hsent3 in Hsent. destruct ans as [sent|e]; cbn [fst snd io_ret];
    (eexists; split; [exact Hsent|]; split; [cbn; lia|]; split; [constructor; [by apply (private_story_passes req)|constructor]|]); [|done].
  destruct (privateStoryResult _ _ sent) as [out e] eqn:Ep. apply privateStoryResult_spec in Ep as (Hto & Htg & He); [|done].
  exists story, (aud_Recipients a), targets. cbn [sts_Send sres_Timestamp] in Hto. rewrite Hto, Hg. rewrite (bool_decide_eq_true_2 (_ = _)) by done.
  split_and!; try done; [intros Hnr; rewrite Har, Hnr; apply andb_false_r|rewrite <- Hl3; apply Hts; by rewrite Hl3].
Qed.

Lemma group_step req files s s0 : StorySendRequest_Check req = None -> str_GroupID req <> ""%string -> story_files_ok req files ->
  logs s = logs s0 -> 0 <= app_lastTimestamp s0 < MaxUint64 ->
  let (res, s') := groupStorySend allow req files s in story_step req s0 res s'.
Proof.
  intros Hc Hg Hf Hl Hs. unfold groupStorySend. cbv zeta. unfold io_bind at 1.
  destruct (checkAllowed allow _ s) as [[v|e] s2] eqn:E2; [|apply checkAllowed_keeps in E2; apply story_none; congruence].
  assert (Hall : forall l, allow = Some l -> allowed_by l [groupTarget (str_GroupID req)]) by (intros l El; rewrite El in E2; by eapply checkAllowed_Ok).
  apply checkAllowed_keeps in E2. unfold io_bind at 1.
  destruct (checkStoryMember _ s2) as [[v2|e] s3] eqn:E3; [|apply checkStoryMember_keeps in E3; apply story_none; congruence].
  apply checkStoryMember_keeps in E3. unfold io_bind at 1.
  match goal with |- context [uploadStory ?st files s3] => destruct (uploadStory st files s3) as [[story|e] s4] eqn:E4 end; [|apply uploadStory_keeps in E4; apply story_none; congruence].
  pose proof (uploadStory_Ok _ _ _ _ _ _ _ Hf E4) as (Hsc & Hd & Har & Ht). apply uploadStory_keeps in E4. unfold io_bind at 1.
  destruct (nextTimestamp_run s4) as (ts & w4 & -> & Hts). assert (Hl4 : logs s4 = logs s0) by congruence. injection Hl4 as Hl4 Hsent4 _.
  unfold io_bind, io_try. match goal with |- context [send_request ?r ?st] => destruct (send_request_run r st) as (ans & s5 & -> & Hsent) end.
  injection Hsent as _ Hsent _. cbn [app_sent] in Hsent. rewrite Hsent4 in Hsent. eexists. split; [exact Hsent|]. split; [cbn; lia|].
  split; [constructor; [by apply group_story_passes|constructor]|]. cbn [fst io_ret].
  exists story, [], [groupTarget (str_GroupID req)]. cbn [sts_Send sres_Timestamp sres_Results sts_SyncErr]. rewrite (bool_decide_eq_false_2 (_ = _)) by done.
  assert (Hres : forall r, SendResult_err (mkSendResult ts [r]) = None <-> (forall t, t ∈ [r] -> TargetResult_OK t = true) /\ @None err = None).
  { intros r. rewrite (SendResult_err_None (mkSendResult ts [r])). tauto. }
  split_and!; try done; [intros Hnr; by rewrite Har, Hnr|rewrite <- Hl4; apply Hts; by rewrite Hl4|by destruct ans].
Qed.

End story_spec.

Section witnesses.
Import DemoUuid.

Definition demo_audience : StoryAudience :=
  mkAudience "33333333-3333-4333-8333-333333333333" "Friends" false [ofACI "22222222-2222-4222-8222-222222222222"] true.
#[local] Instance demo_stories : WriteClient unit := {|
  client_Upload := fun fs => io_ret ((fun f => mkUploaded "upload" (oat_ContentType f) "" 0) <$> fs);
  client_FetchSticker := fun _ => io_err (Sent ErrClosed);
  client_ReservePollVote := fun _ => io_ret 4; client_Group := fun _ => io_ret demo_pin_group;
  client_StoryAudiences := io_ret (mkAudiences 9 [demo_audience]) |}.
#[local] Instance demo_story_laws : StoryLaws demo_stories.
Proof.
  split; [|intros w snapshot w' a [= <- _] Ha; apply list_elem_of_singleton in Ha as ->; vm_compute; reflexivity|vm_compute; reflexivity].
  intros fs w us w' [= <- _]. induction fs; constructor; done.
Qed.
#[local] Existing Instance AppSend.demo_client.
#[local] Existing Instance AppSend.demo_files.
#[local] Existing Instance AppSend.demo_media.

Definition demo_story : StorySendRequest := mkStoryRequest "" "33333333-3333-4333-8333-333333333333" false "hello" "" true "".

End witnesses.
