(* ===== verification/Directory.v ===== *)
(** * Names, contacts and groups of the application (internal/app/names.go, contacts.go, groups.go, signal/contacts.go)

    The directory the application keeps of users and groups: [NewNames] labels users for output,
    [ContactsList] filters and sorts them, [ResolveGroup] turns an argument into a group, and
    [NameBook] reloads the names while events arrive. *)

From S2P Require Import Prelude Errors Uuid Utf8 Strconv Base64 Types SendCheck Groups GroupMembers Recipients SendFlow AppSend.

(** ** Contacts (signal/contacts.go) *)

Record Contact := mkContact {
  con_Recipient : Recipient; ContactName : string; ProfileName : string; Nickname : string; con_Blocked : bool; Accepted : option bool }.

Definition Contact_Name (c : Contact) : string :=
  if Nickname c != ""%string then Nickname c else if ContactName c != ""%string then ContactName c else ProfileName c.

Definition DisplayName (c : Contact) : string :=
  if Contact_Name c != ""%string then Contact_Name c
  else if Number (con_Recipient c) != ""%string then Number (con_Recipient c)
  else Recipient_String (con_Recipient c).

Record CachedGroup := mkCached { cg_Title : string; cg_LeftAt : time }.

(** ** Names (names.go) *)

Record nameEntry := mkNameEntry { ne_name : string; ne_label : string }.
Definition zeroEntry : nameEntry := mkNameEntry "" "".
Record Names := mkNames {
  nm_own : string; nm_byACI : gmap string nameEntry; nm_byNumber : gmap string nameEntry; nm_groups : gmap string string }.

Definition shortACILen : Z := 8.

(** [contact.ACI[:shortACILen]]. *)
Fixpoint sprefix (n : nat) (s : string) : string :=
  match n, s with Datatypes.S n, String a t => String a (sprefix n t) | _, _ => EmptyString end.

Definition distinguish (c : Contact) : string :=
  let r := con_Recipient c in
  if (Number r != ""%string) && (Number r != DisplayName c) then Number r
  else if shortACILen <? slen (ACI r) then sprefix (Z.to_nat shortACILen) (ACI r)
  else Recipient_String r.

Definition count (contacts : list Contact) (label : string) : Z := len (filter (fun c => DisplayName c = label) contacts).

Definition name_entry (contacts : list Contact) (c : Contact) : nameEntry :=
  let label := DisplayName c in
  mkNameEntry (Contact_Name c) (if 1 <? count contacts label then (label ++ " (" ++ distinguish c ++ ")")%string else label).

Definition add_name (contacts : list Contact) (names : Names) (c : Contact) : Names :=
  let r := con_Recipient c in
  let entry := name_entry contacts c in
  mkNames (nm_own names)
    (if ACI r != ""%string then <[ACI r := entry]> (nm_byACI names) else nm_byACI names)
    (if Number r != ""%string then <[Number r := entry]> (nm_byNumber names) else nm_byNumber names) (nm_groups names).

Definition NewNames (ownACI : string) (contacts : list Contact) : Names :=
  foldl (add_name contacts) (mkNames ownACI ∅ ∅ ∅) contacts.

Definition WithGroups (n : Names) (titles : gmap string string) : Names := mkNames (nm_own n) (nm_byACI n) (nm_byNumber n) titles.
Definition cachedTitles (cached : gmap string CachedGroup) : gmap string string :=
  omap (fun g => if cg_Title g != ""%string then Some (cg_Title g) else None) cached.
Definition GroupTitle (n : Names) (groupID : string) : string := default ""%string (nm_groups n !! groupID).

Definition names_lookup (n : Names) (r : Recipient) : nameEntry :=
  match nm_byACI n !! ACI r with
  | Some entry =>
      if ACI r != ""%string then entry
      else if Number r != ""%string then default zeroEntry (nm_byNumber n !! Number r) else zeroEntry
  | None => if Number r != ""%string then default zeroEntry (nm_byNumber n !! Number r) else zeroEntry
  end.
Definition Names_Name (n : Names) (r : Recipient) : string := ne_name (names_lookup n r).
Definition Names_Label (n : Names) (r : Recipient) : string := ne_label (names_lookup n r).
Definition IsSelf (n : Names) (r : Recipient) : bool := (nm_own n != ""%string) && (ACI r == nm_own n).

(** ** The recipients of an event *)

Definition mention_recipients (mentions : list Mention) : list Recipient := men_Recipient <$> mentions.
Definition envelope_recipients (env : Envelope) : list Recipient := [env_Sender env; ChatRecipient (env_Chat env)].

Definition EventRecipients (evt : Event) : list Recipient :=
  match evt with
  | EvStory env _ _ _ mentions => envelope_recipients env ++ mention_recipients mentions
  | EvMessage env m =>
      envelope_recipients env ++ (match msg_Quote m with Some q => [quo_Author q] | None => [] end)
      ++ mention_recipients (msg_Mentions m) ++ (match msg_Quote m with Some q => mention_recipients (quo_Mentions q) | None => [] end)
  | EvPollVote env v => envelope_recipients env ++ [vote_TargetAuthor v]
  | EvPollClose env _ => envelope_recipients env
  | EvPin env p => envelope_recipients env ++ [pin_TargetAuthor p]
  | EvUnpin env u => envelope_recipients env ++ [unpin_TargetAuthor u]
  | EvEdit env _ _ mentions => envelope_recipients env ++ mention_recipients mentions
  | EvDelete env _ => envelope_recipients env
  | EvReaction env _ _ author _ => envelope_recipients env ++ [author]
  | EvTyping env _ => envelope_recipients env
  | EvUnsupported env _ => envelope_recipients env
  | EvReceipt sender _ _ => [sender]
  | EvDecryptionFailure sender _ _ => [sender]
  | EvReadSync _ messages => mark_Sender <$> messages
  | EvIdentityChanged _ _ _ _ | EvQueueEmpty | EvConnection _ _ => []
  end.

(** The case tables of [strings], as far as the application asks them. *)
Class Casing := { strings_ToLower : string -> string; strings_EqualFold : string -> string -> bool }.

(** The rest of the facade that the directory calls. *)
Class DirectoryClient (W : Type) := {
  client_Contacts : io W err (list Contact);
  client_Contact : Recipient -> io W err Contact;
  client_GroupTitles : io W err (gmap string CachedGroup);
  client_SetBlocked : list Recipient -> bool -> io W err unit;
}.

Section directory.
Context {U : UuidLib} {W : Type} {C : Client W} {D : DirectoryClient W} {K : Casing}.
Notation M := (io (App W) err).

Definition wrap_err {A} (m : M A) : M A := let* r := io_try m in match r with Ok a => io_ret a | Err e => io_err (Wrap [e]) end.

Definition App_Names : M Names :=
  let* acc := wrap_err (lift client_Account) in
  let* contacts := wrap_err (lift client_Contacts) in
  let names := NewNames (acc_ACI acc) contacts in
  let* cached := io_try (lift client_GroupTitles) in
  match cached with
  | Err _ => io_ret names
  | Ok cached => io_ret (WithGroups names (cachedTitles cached))
  end.

(** *** NameBook *)

Record NameBook := mkBook { nb_names : Names; nb_loaded : time; nb_interval : Z }.
Definition NameReloadInterval : Z := 30 * 1000000000.

Definition clock : M Z := fun s =>
  let (t, w) := client_now (app_world s) in
  (Ok t, mkApp (app_lastTimestamp s) (app_resolved s) (app_sent s) (app_receipts s) w).

(** The book after the load, which counts even when it failed. *)
Definition reload (b : NameBook) : M (res bool * NameBook) :=
  let* now := clock in
  let b := mkBook (nb_names b) now (nb_interval b) in
  let* names := io_try App_Names in
  match names with
  | Err e => io_ret (Err e, b)
  | Ok names => io_ret (Ok true, mkBook names (nb_loaded b) (nb_interval b))
  end.

Definition new_NameBook : M (res bool * NameBook) := reload (mkBook (mkNames "" ∅ ∅ ∅) zero_time NameReloadInterval).

Definition names_missing (n : Names) (r : Recipient) : bool := (ACI r != ""%string) && negb (IsSelf n r) && (Names_Name n r == ""%string).

Definition Refresh (b : NameBook) (evt : Event) : M (res bool * NameBook) :=
  let* now := clock in
  if now - nb_loaded b <? nb_interval b then io_ret (Ok false, b)
  else if existsb (names_missing (nb_names b)) (EventRecipients evt) then reload b
  else io_ret (Ok false, b).

(** ** Contacts (contacts.go) *)

Definition contact_leb (a b : Contact) : bool :=
  match String.compare (strings_ToLower (DisplayName a)) (strings_ToLower (DisplayName b)) with
  | Lt => true
  | Gt => false
  | Eq => match String.compare (ACI (con_Recipient a)) (ACI (con_Recipient b)) with Gt => false | _ => true end
  end.
Definition SortContacts (contacts : list Contact) : list Contact := sort_by contact_leb contacts.

Fixpoint contains (s part : string) : bool :=
  HasPrefix s part || match s with EmptyString => false | String _ t => contains t part end.

Definition matches (c : Contact) (query : string) : bool :=
  (query == ""%string)
  || existsb (fun field => contains (strings_ToLower field) query)
       [Nickname c; ContactName c; ProfileName c; Number (con_Recipient c); ACI (con_Recipient c); PNI (con_Recipient c)].

Record ContactsListRequest := mkContactsList { clr_Blocked : bool; clr_Query : string }.

Definition ContactsList (req : ContactsListRequest) : M (list Contact) :=
  let* contacts := wrap_err (lift client_Contacts) in
  let query := strings_ToLower (TrimSpace (clr_Query req)) in
  io_ret (SortContacts (DeleteFunc (fun c => (clr_Blocked req && negb (con_Blocked c)) || negb (matches c query)) contacts)).

Definition ContactsShow (arg : string) : M Contact :=
  wrap_err (
    let* target := io_of (ParseRecipient arg) in
    if Target_IsGroup target then io_err (errorf ErrNotAUser)
    else
      let rcpt := tgt_Recipient target in
      let* rcpt :=
        (if tgt_Self target then let* acc := lift client_Account in io_ret (ofACI (acc_ACI acc))
         else if Username rcpt != ""%string then
           let* resolved := lift (client_Resolve [rcpt]) in
           match resolved with r :: _ => io_ret (ofACI (ACI r)) | [] => io_err index_panic end
         else io_ret rcpt) in
      lift (client_Contact rcpt)).

Record BlockChange := mkBlockChange { bc_Contact : Contact; bc_Changed : bool }.
Record BlockResult := mkBlockResult { br_Blocked : bool; br_Results : list BlockChange }.
Definition zeroContact : Contact := mkContact zeroRecipient "" "" "" false None.

Fixpoint check_users (args : list string) : list err :=
  match args with
  | [] => []
  | arg :: rest =>
      match ParseRecipient arg with
      | Err e => [e]
      | Ok target => if Target_IsGroup target then [errorf ErrNotAUser] else if tgt_Self target then [errorf ErrNotAUser] else []
      end ++ check_users rest
  end.
Definition checkUsers (args : list string) : error :=
  if len args =? 0 then Some (Sent ErrNoRecipients) else errorsJoin (check_users args).

(** The users, and which of them change. *)
Fixpoint blockTargets (targets : list Target) (blocked : bool) : M (list (Recipient * bool)) :=
  match targets with
  | [] => io_ret []
  | target :: rest =>
      if tgt_Self target then io_err (errorf ErrNotAUser)
      else
        let* before := io_try (lift (client_Contact (tgt_Recipient target))) in
        let changed := match before with Ok c => xorb (con_Blocked c) blocked | Err _ => true end in
        let* out := blockTargets rest blocked in
        io_ret ((tgt_Recipient target, changed) :: out)
  end.

(** The contact afterwards, with the number the user gave if the store has none. *)
Fixpoint block_results (users : list (Recipient * bool)) (blocked : bool) : M (list BlockChange) :=
  match users with
  | [] => io_ret []
  | (rcpt, changed) :: rest =>
      let* r := io_try (lift (client_Contact rcpt)) in
      let c := match r with Ok c => c | Err _ => mkContact rcpt "" "" "" blocked None end in
      let cr := con_Recipient c in
      let c := if Number cr == ""%string
               then mkContact (mkRecipient (ACI cr) (PNI cr) (Number rcpt) (Username cr)) (ContactName c) (ProfileName c) (Nickname c) (con_Blocked c) (Accepted c)
               else c in
      let* out := block_results rest blocked in
      io_ret (mkBlockChange c changed :: out)
  end.

Definition setBlocked (args : list string) (blocked : bool) : M BlockResult :=
  wrap_err (
    let* _ := io_of (match checkUsers args with Some e => Err e | None => Ok tt end) in
    let* _ := connectSendOnly in
    let* targets := ResolveRecipients args in
    let* users := blockTargets targets blocked in
    let* _ := lift (client_SetBlocked users.*1 blocked) in
    let* results := block_results users blocked in
    io_ret (mkBlockResult blocked results)).
Definition ContactsBlock (args : list string) : M BlockResult := setBlocked args true.
Definition ContactsUnblock (args : list string) : M BlockResult := setBlocked args false.

(** ** Groups by title (groups.go) *)

(** The groups with the title, those we are in and those we left; the order of a Go map is
    unspecified, but only a single match is returned. *)
Definition titled (cached : gmap string CachedGroup) (title : string) (left : bool) : list string :=
  (filter (fun x : string * CachedGroup => strings_EqualFold (TrimSpace (cg_Title x.2)) title = true
                                           /\ negb (IsZeroTime (cg_LeftAt x.2)) = left) (map_to_list cached)).*1.

Definition groupByTitle (title : string) : M string :=
  let* cached := wrap_err (lift client_GroupTitles) in
  let current := titled cached title false in
  match (if len current =? 0 then titled cached title true else current) with
  | [] => io_err (errorf ErrUnknownGroup)
  | [id] => io_ret id
  | _ => io_err (errorf ErrAmbiguousGroup)
  end.

Definition ResolveGroup (arg : string) : M string :=
  let arg := TrimSpace arg in
  if HasPrefix arg GroupPrefix then
    let* target := io_of (parseGroup arg) in io_ret (tgt_GroupID target)
  else match decodeGroupKey arg with
       | Some key => io_ret key
       | None => if arg == ""%string then io_err (errorf ErrUnknownGroup) else groupByTitle arg
       end.

(** [App.ResolveChat] (inbox.go). *)
Definition ResolveChat (arg : string) : M Chat :=
  match ParseRecipient arg with
  | Err _ => let* id := wrap_err (ResolveGroup arg) in io_ret (mkChat id zeroRecipient)
  | Ok _ =>
      let* targets := ResolveRecipients [arg] in
      match targets with
      | [] => io_err index_panic
      | t :: _ => io_ret (if Target_IsGroup t then mkChat (tgt_GroupID t) zeroRecipient else mkChat "" (tgt_Recipient t))
      end
  end.
End directory.

(** ** What the directory finds *)

Section found.
Context {U : UuidLib} {W : Type} {C : Client W} {D : DirectoryClient W} {K : Casing}.

Definition has_title (g : CachedGroup) (title : string) : Prop := strings_EqualFold (TrimSpace (cg_Title g)) title = true.

(** The only group with the title that we have not left; or, if there is none, the only one that we left. *)
Definition the_group (cached : gmap string CachedGroup) (title id : string) : Prop :=
  exists g, cached !! id = Some g /\ has_title g title
    /\ forall id' g', cached !! id' = Some g' -> has_title g' title ->
         id' = id \/ (IsZeroTime (cg_LeftAt g) = true /\ IsZeroTime (cg_LeftAt g') = false).

Lemma elem_of_titled cached title left id : id ∈ titled cached title left <->
  exists g, cached !! id = Some g /\ has_title g title /\ negb (IsZeroTime (cg_LeftAt g)) = left.
Proof.
  unfold titled, has_title. rewrite list_elem_of_fmap. split.
  - intros ([i g] & -> & H). apply list_elem_of_filter in H as [[H1 H2] H3%elem_of_map_to_list]. by exists g.
  - intros (g & Hg & H1 & H2). exists (id, g). split; [done|]. apply list_elem_of_filter. split; [done|]. by apply elem_of_map_to_list.
Qed.

Lemma titled_NoDup cached title left : NoDup (titled cached title left).
Proof. unfold titled. eapply sublist_NoDup; [apply (NoDup_fst_map_to_list cached)|]. apply fmap_sublist, sublist_filter. Qed.

(** What the lookup by title answers. *)
Lemma groupByTitle_run title s : let (r, s') := groupByTitle title s in
  logs s' = logs s /\
  match r with
  | Ok id => exists cached, (exists w w', client_GroupTitles w = (Ok cached, w')) /\ the_group cached title id
  | Err e => errIs e ErrAmbiguousGroup = true -> (exists cached w w', client_GroupTitles w = (Ok cached, w') /\ exists id1 id2 g1 g2, id1 <> id2
       /\ cached !! id1 = Some g1 /\ cached !! id2 = Some g2 /\ has_title g1 title /\ has_title g2 title)
       \/ exists w w' e', client_GroupTitles w = (Err e', w')
  end.
Proof.
  unfold groupByTitle, wrap_err, lift. unfold io_bind, io_try. destruct (client_GroupTitles (app_world s)) as [[cached|e] w'] eqn:E; cbn.
  2: { split; [done|]. intros _. right. by eexists _, _, _. }
  set (current := titled cached title false).
  assert (Hall : forall id' g', cached !! id' = Some g' -> has_title g' title ->
    (IsZeroTime (cg_LeftAt g') = true /\ id' ∈ current) \/ (IsZeroTime (cg_LeftAt g') = false /\ id' ∈ titled cached title true)).
  { intros id' g' Hg Ht. destruct (IsZeroTime (cg_LeftAt g')) eqn:El; [left|right]; (split; [done|]); apply elem_of_titled; exists g'; by rewrite El. }
  assert (Hone : forall id left l, l = titled cached title left -> l = [id] -> (left = true -> current = []) ->
    exists cached0, (exists w w', client_GroupTitles w = (Ok cached0, w')) /\ the_group cached0 title id).
  { intros id left l El E1 Hl. exists cached. split; [by eexists _, _|]. assert (Hin : id ∈ titled cached title left) by (rewrite <- El, E1; by left).
    apply elem_of_titled in Hin as (g & Hg & Ht & Hz). exists g. split_and!; [done..|]. intros id' g' Hg' Ht'.
    destruct (Hall id' g' Hg' Ht') as [[Hz' Hin]|[Hz' Hin]]; destruct left.
    - rewrite Hl in Hin by done. by apply elem_of_nil in Hin.
    - left. unfold current in Hin. rewrite <- El, E1 in Hin. by apply list_elem_of_singleton in Hin.
    - left. rewrite <- El, E1 in Hin. by apply list_elem_of_singleton in Hin.
    - right. by apply negb_false_iff in Hz. }
  assert (Hmany : forall left id1 id2 rest, titled cached title left = id1 :: id2 :: rest -> (exists cached w w', client_GroupTitles w = (Ok cached, w') /\
    exists id1 id2 g1 g2, id1 <> id2 /\ cached !! id1 = Some g1 /\ cached !! id2 = Some g2 /\ has_title g1 title /\ has_title g2 title)).
  { intros left id1 id2 rest El. assert (H1 : id1 ∈ titled cached title left) by (rewrite El; by left). assert (H2 : id2 ∈ titled cached title left) by (rewrite El; right; by left).
    apply elem_of_titled in H1 as (g1 & ? & ? & _), H2 as (g2 & ? & ? & _). exists cached. do 2 eexists. split; [done|]. exists id1, id2, g1, g2. split_and!; try done.
    intros ->. pose proof (titled_NoDup cached title left) as Hn. rewrite El in Hn. apply NoDup_cons in Hn as [Hn _]. apply Hn. by left. }
  destruct (len current =? 0) eqn:El.
  - apply Z.eqb_eq, len_zero in El. destruct (titled cached title true) as [|id [|id2 rest]] eqn:Et; cbn -[errIs]; (split; [done|]).
    + intros H. by rewrite errIs_errorf, bool_decide_eq_false_2 in H.
    + by apply (Hone id true [id]).
    + intros _. left. by eapply Hmany.
  - destruct current as [|id [|id2 rest]] eqn:Ec; cbn -[errIs]; (split; [done|]); [done| |].
    + apply (Hone id false [id]); [by rewrite <- Ec|done|done].
    + intros _. left. eapply (Hmany false). exact Ec.
Qed.

(** A group argument names a group: one that is a group ID or master key is that key in standard
    base64; any other is the title of exactly one known group, where groups we have left count
    only if no other has the title. Nothing is sent. *)
Theorem ResolveGroup_spec arg s : let (r, s') := ResolveGroup arg s in
  logs s' = logs s /\
  match r with
  | Ok id => (exists raw, slen raw = groupIDLen /\ id = EncodeToString StdEncoding raw)
      \/ exists cached, (exists w w', client_GroupTitles w = (Ok cached, w')) /\ the_group cached (TrimSpace arg) id
  | Err _ => True
  end.
Proof.
  unfold ResolveGroup. assert (Hkey : forall key k, decodeGroupKey key = Some k -> exists raw, slen raw = groupIDLen /\ k = EncodeToString StdEncoding raw).
  { intros key k (raw & El & ->)%decodeGroupKey_Some. by exists raw. }
  destruct (HasPrefix _ GroupPrefix).
  - unfold parseGroup. destruct (decodeGroupKey (TrimPrefix _ _)) as [k|] eqn:Ek; cbn; (split; [done|]); [|done]. left. by eapply Hkey.
  - destruct (decodeGroupKey (TrimSpace arg)) as [k|] eqn:Ek; [cbn; split; [done|]; left; by eapply Hkey|]. destruct (_ == _); [by split|].
    pose proof (groupByTitle_run (TrimSpace arg) s) as H. destruct (groupByTitle _ s) as [[id|e] s']; destruct H as [Hl H]; split; try done. by right.
Qed.
End found.
