(* ===== verification/AppGroups.v ===== *)
(** * Group operations of the application (internal/app/groups*.go)

    Each operation checks its request, turns the group and user arguments into references, connects and
    asks the facade once. [GroupClient] is that part of the facade; the ghost log [ga_calls] has what it
    was asked. *)

From S2P Require Import Prelude Errors Uuid Utf8 Strconv Base64 Types SendCheck Groups GroupMembers GroupSettings GroupCommit Protowire GroupInvite GroupAccept GroupJoin Recipients SendFlow Content FilePath Attachments AppSend Directory.

(** ** Texts *)

(** What [unicode.ToUpper] and [unicode.ToLower] make of the runes that become ASCII letters: besides the
    ASCII ones, U+0131 (dotless i), U+017F (long s), U+0130 (I with dot) and U+212A (Kelvin sign). *)
Definition upper_rune (r : Z) : Z := if in_range 97 122 r then r - 32 else if r =? 305 then 73 else if r =? 383 then 83 else r.
Definition lower_rune (r : Z) : Z := if in_range 65 90 r then r + 32 else if r =? 304 then 105 else if r =? 8490 then 107 else r.

(** [strings.HasPrefix(strings.ToUpper(s), prefix)] for an ASCII prefix, and with [strings.ToLower]. *)
Fixpoint rune_prefix (prefix s : list Z) : bool :=
  match prefix, s with
  | [], _ => true
  | p :: prefix, r :: s => (p =? r) && rune_prefix prefix s
  | _ :: _, [] => false
  end.
Definition upper_prefix (s prefix : string) : bool := rune_prefix (runes prefix) (upper_rune <$> runes s).
Definition lower_prefix (s prefix : string) : bool := rune_prefix (runes prefix) (lower_rune <$> runes s).

(** Whether [Error()] has text of other code in it. *)
Fixpoint foreign (e : err) : bool :=
  match e with Opaque _ => true | Wrap causes => existsb foreign causes | _ => false end.

(** ** Data *)

Record CreateGroupOptions := mkCreateOptions { cgo_Title : string; cgo_Members : list Recipient }.
Record LeaveOptions := mkLeaveOptions { lo_Promote : list Recipient }.
Record LeaveResult := mkLeaveResult { lr_Group : Group; lr_Revision : Z; lr_Promoted : list Recipient }.

(** What the facade was asked to change or show. *)
Inductive gcall :=
  | CallGroups
  | CallGroup (ref : string)
  | CallCreate (opts : CreateGroupOptions)
  | CallLeave (ref : string) (opts : LeaveOptions)
  | CallRename (ref title : string)
  | CallUpdate (ref : string) (update : GroupUpdate)
  | CallAdd (ref : string) (members : list Recipient)
  | CallRemove (ref : string) (members : list Recipient)
  | CallRole (ref : string) (members : list Recipient) (role : GroupRole)
  | CallBan (ref : string) (members : list Recipient) (banned : bool)
  | CallLink (ref : string)
  | CallLinkUpdate (ref : string) (update : GroupLinkUpdate)
  | CallAccept (ref : string)
  | CallJoin (link : string)
  | CallCancel (ref : string).

(** The group operations of signal.Client; those that may accept a change and then fail return both a
    result and an error. *)
Class GroupClient (W : Type) := {
  client_Groups : W -> (list Group * error) * W;
  client_ShowGroup : string -> W -> (Group * error) * W;
  client_CreateGroup : CreateGroupOptions -> W -> (Group * error) * W;
  client_LeaveGroup : string -> LeaveOptions -> W -> (LeaveResult * error) * W;
  client_RenameGroup : string -> string -> W -> (Group * error) * W;
  client_UpdateGroup : string -> GroupUpdate -> W -> (Group * error) * W;
  client_AddGroupMembers : string -> list Recipient -> W -> (Group * error) * W;
  client_RemoveGroupMembers : string -> list Recipient -> W -> (Group * error) * W;
  client_SetGroupMemberRole : string -> list Recipient -> GroupRole -> W -> (Group * error) * W;
  client_SetGroupBanned : string -> list Recipient -> bool -> W -> (Group * error) * W;
  client_GroupLink : string -> W -> (GroupLink * error) * W;
  client_UpdateGroupLink : string -> GroupLinkUpdate -> W -> (GroupLink * error) * W;
  client_AcceptGroupInvitation : string -> W -> (GroupAcceptResult * error) * W;
  client_JoinGroup : string -> W -> (GroupJoinResult * error) * W;
  client_CancelGroupJoinRequest : string -> W -> (GroupCancelRequestResult * error) * W;
}.

(** [os.Open] with [File.Stat], which says whether what was opened is regular, and reading it to a limit. *)
Class AvatarFiles (W : Type) := {
  os_Open : string -> io W err bool;
  file_ReadAll : string -> Z -> io W err string;
}.

Record CreateGroupRequest := mkCreate { cgr_Title : string; cgr_Members : list string }.
Record AddGroupMembersRequest := mkAdd { agm_Group : string; agm_Members : list string }.
Record RemoveGroupMembersRequest := mkRemove { rgm_Group : string; rgm_Members : list string }.
Record GroupBanRequest := mkBan { gbr_Group : string; gbr_Members : list string; gbr_Banned : bool }.
Record GroupMemberRoleRequest := mkRoleRequest { gmr_Group : string; gmr_Members : list string; gmr_Role : GroupRole }.
Record RenameGroupRequest := mkRename { rgr_Group : string; rgr_Title : string }.
Record UpdateGroupRequest := mkUpdateRequest {
  ugr_Group : string; ugr_Update : GroupUpdate; AvatarFile : option string; RemoveAvatar : bool }.
Record GroupLinkRequest := mkLinkRequest { glr_Group : string }.
Record GroupLinkUpdateRequest := mkLinkUpdateRequest { glu_Group : string; glu_Update : GroupLinkUpdate }.
Record GroupAcceptRequest := mkAcceptRequest { gar_Group : string }.
Record GroupCancelRequestRequest := mkCancelRequest { gcq_Group : string }.
Record JoinGroupRequest := mkJoinRequest { jgr_Link : string }.
Record LeaveRequest := mkLeave { lrq_Group : string; lrq_Promote : list string }.

Section checks.
Context {U : UuidLib}.

(** ** Checks before anything else *)

(** The start of several [Check]s, and [checkGroup]. *)
Definition checkGroup (group : string) : error :=
  let group := TrimSpace group in
  if group == ""%string then Some (errorf ErrUnknownGroup)
  else if HasPrefix group GroupPrefix then
    match parseGroup group with Err e => Some e | Ok _ => None end
  else None.

(** [parseRemovalMember]: as [ParseRecipient], and explicit PNIs. *)
Definition parseRemovalMember (arg : string) : res Target :=
  let arg := TrimSpace arg in
  if negb (upper_prefix arg "PNI:") then ParseRecipient arg
  else
    let fail := Err (errorf ErrInvalidRecipient) in
    match uuid_parse (sdrop 4 arg) with
    | None => fail
    | Some id =>
        if (id == uuid_nil) || negb (slen arg =? 4 + slen (uuid_string uuid_nil)) then fail
        else Ok (userTarget (mkRecipient "" (uuid_string id) "" ""))
    end.

(** The loop over member arguments: no groups, and not ourselves where [self] is refused. *)
Fixpoint check_members (parse : string -> res Target) (self : bool) (args : list string) : error :=
  match args with
  | [] => None
  | arg :: rest =>
      match parse arg with
      | Err e => Some e
      | Ok target =>
          if Target_IsGroup target then Some (errorf ErrInvalidRecipient)
          else if negb self && tgt_Self target then Some (errorf ErrInvalidRecipient)
          else check_members parse self rest
      end
  end.
Definition some_members (args : list string) : error :=
  if len args =? 0 then Some (errorf ErrInvalidRecipient) else None.

Definition CreateGroupRequest_Check (r : CreateGroupRequest) : error :=
  ValidateGroupTitle (cgr_Title r) ;! check_members ParseRecipient true (cgr_Members r).
Definition AddGroupMembersRequest_Check (r : AddGroupMembersRequest) : error :=
  checkGroup (agm_Group r) ;! some_members (agm_Members r) ;! check_members ParseRecipient true (agm_Members r).
Definition RemoveGroupMembersRequest_Check (r : RemoveGroupMembersRequest) : error :=
  checkGroup (rgm_Group r) ;! some_members (rgm_Members r) ;! check_members parseRemovalMember false (rgm_Members r).
Definition GroupBanRequest_Check (r : GroupBanRequest) : error :=
  checkGroup (gbr_Group r) ;! some_members (gbr_Members r) ;! check_members ParseRecipient false (gbr_Members r).
Definition GroupMemberRoleRequest_Check (r : GroupMemberRoleRequest) : error :=
  checkGroup (gmr_Group r)
  ;! (if (gmr_Role r != GroupRoleAdmin) && (gmr_Role r != GroupRoleMember) then Some (errorf ErrInvalidGroupMember) else None)
  ;! some_members (gmr_Members r) ;! check_members ParseRecipient true (gmr_Members r).

Definition GroupLinkReferenceError (e : err) : err := Message "group link: invalid or unknown group reference" e.
Definition GroupLinkRequest_Check (r : GroupLinkRequest) : error :=
  let group := TrimSpace (glr_Group r) in
  if (group == ""%string) || lower_prefix group "https://signal.group/" then Some (GroupLinkReferenceError (Sent ErrUnknownGroup))
  else if HasPrefix group GroupPrefix then
    match parseGroup group with Err e => Some (GroupLinkReferenceError e) | Ok _ => None end
  else None.
Definition GroupLinkUpdateRequest_Check (r : GroupLinkUpdateRequest) : error :=
  GroupLinkRequest_Check (mkLinkRequest (glu_Group r)) ;! GroupLinkUpdate_Check (glu_Update r).
Definition GroupAcceptRequest_Check (r : GroupAcceptRequest) : error := CheckGroupAcceptReference (gar_Group r).
Definition GroupCancelRequestRequest_Check (r : GroupCancelRequestRequest) : error := CheckGroupCancelRequestReference (gcq_Group r).
Definition JoinGroupRequest_Check {P : Protowire} (r : JoinGroupRequest) : error := CheckGroupInviteLink (jgr_Link r).
End checks.

(** ** Operations *)

Record gapp (W : Type) := mkGapp { ga_app : App W; ga_calls : list gcall }.
Arguments mkGapp {W}. Arguments ga_app {W}. Arguments ga_calls {W}.

Section operations.
Context {U : UuidLib} {P : Protowire} {W : Type} {C : Client W} {D : DirectoryClient W} {K : Casing} {F : Files W} {AF : AvatarFiles W} {I : ImageLib} {G : GroupClient W}.
Notation M := (io (gapp W) err).

(** An operation of the application that asks the facade for no change of a group. *)
Definition on_app {A} (m : io (App W) err A) : M A := fun s => let (r, a) := m (ga_app s) in (r, mkGapp a (ga_calls s)).
Definition check (e : error) : M unit := match e with Some e => io_err (Wrap [e]) | None => io_ret tt end.

(** What the facade answers, its error wrapped by the operation. *)
Definition submit {R} (c : gcall) (m : W -> (R * error) * W) : M (R * error) := fun s =>
  let a := ga_app s in
  let '(r, w) := m (app_world a) in
  (Ok (r.1, option_map (fun e => Wrap [e]) r.2),
   mkGapp (mkApp (app_lastTimestamp a) (app_resolved a) (app_sent a) (app_receipts a) w) (ga_calls s ++ [c])).

(** An operation that drops its result on an error. *)
Definition or_nothing {R} (m : M (R * error)) : M R :=
  let* out := m in match out.2 with Some e => io_err e | None => io_ret out.1 end.

Definition connect : M unit := on_app (wrap_err connectSendOnly).
Definition resolve_group (arg : string) : M string := on_app (wrap_err (ResolveGroup arg)).
Definition resolve_users (args : list string) : M (list Target) := on_app (wrap_err (ResolveRecipients args)).

Definition GroupsList : M (list Group) :=
  let* _ := connect in or_nothing (submit CallGroups client_Groups).

Definition GroupsShow (arg : string) : M Group :=
  let* ref := resolve_group arg in
  let* _ := connect in
  or_nothing (submit (CallGroup ref) (client_ShowGroup ref)).

(** Users that are neither a group nor ourselves. *)
Fixpoint other_users (targets : list Target) : res (list Recipient) :=
  match targets with
  | [] => Ok []
  | t :: rest =>
      if Target_IsGroup t || tgt_Self t then Err (errorf ErrInvalidRecipient)
      else out ← other_users rest; Ok (tgt_Recipient t :: out)
  end.
Definition resolveMembers (args : list string) : M (list Recipient) :=
  if len args =? 0 then io_ret []
  else on_app (wrap_err (let* targets := ResolveRecipients args in io_of (other_users targets))).

Definition GroupsLeave (req : LeaveRequest) : M LeaveResult :=
  let* ref := resolve_group (lrq_Group req) in
  let* _ := connect in
  let* promote := resolveMembers (lrq_Promote req) in
  or_nothing (submit (CallLeave ref (mkLeaveOptions promote)) (client_LeaveGroup ref (mkLeaveOptions promote))).

Definition GroupsCreate (req : CreateGroupRequest) : M (Group * error) :=
  let* _ := check (CreateGroupRequest_Check req) in
  let* _ := connect in
  let* targets := resolve_users (cgr_Members req) in
  let opts := mkCreateOptions (cgr_Title req) (tgt_Recipient <$> filter (fun t => tgt_Self t = false) targets) in
  submit (CallCreate opts) (client_CreateGroup opts).

Definition GroupsAddMembers (req : AddGroupMembersRequest) : M (Group * error) :=
  let* _ := check (AddGroupMembersRequest_Check req) in
  let* ref := resolve_group (agm_Group req) in
  let* _ := connect in
  let* targets := resolve_users (agm_Members req) in
  let members := tgt_Recipient <$> targets in
  submit (CallAdd ref members) (client_AddGroupMembers ref members).

(** Users that are not ourselves. *)
Fixpoint not_self (targets : list Target) : res (list Recipient) :=
  match targets with
  | [] => Ok []
  | t :: rest => if tgt_Self t then Err (errorf ErrInvalidRecipient) else out ← not_self rest; Ok (tgt_Recipient t :: out)
  end.

Fixpoint parse_removal (args : list string) : res (list Target) :=
  match args with
  | [] => Ok []
  | arg :: rest => t ← parseRemovalMember arg; out ← parse_removal rest; Ok (t :: out)
  end.
(** The resolved users in their places: a PNI only if a number was looked up. *)
Fixpoint place_users (targets users : list Target) : list Target :=
  match targets, users with
  | [], _ => []
  | t :: rest, _ =>
      if PNI (tgt_Recipient t) != ""%string then t :: place_users rest users
      else match users with
           | u :: users =>
               let r := tgt_Recipient u in
               (if Number (tgt_Recipient t) == ""%string
                then mkTarget (mkRecipient (ACI r) "" (Number r) (Username r)) (tgt_GroupID u) (tgt_Self u) else u)
               :: place_users rest users
           | [] => t :: place_users rest []
           end
  end.
Definition resolveRemovalMembers (args : list string) : io (App W) err (list Target) :=
  let* targets := io_of (parse_removal args) in
  let* users := resolveUsers (filter (fun t => PNI (tgt_Recipient t) = ""%string) targets) in
  io_ret (place_users targets users).

Definition GroupsRemoveMembers (req : RemoveGroupMembersRequest) : M (Group * error) :=
  let* _ := check (RemoveGroupMembersRequest_Check req) in
  let* ref := resolve_group (rgm_Group req) in
  let* _ := connect in
  let* targets := on_app (wrap_err (resolveRemovalMembers (rgm_Members req))) in
  let* members := on_app (io_of (not_self targets)) in
  submit (CallRemove ref members) (client_RemoveGroupMembers ref members).

Definition GroupsSetBanned (req : GroupBanRequest) : M (Group * error) :=
  let* _ := check (GroupBanRequest_Check req) in
  let* ref := resolve_group (gbr_Group req) in
  let* _ := connect in
  let* targets := resolve_users (gbr_Members req) in
  let* members := on_app (io_of (not_self targets)) in
  submit (CallBan ref members (gbr_Banned req)) (client_SetGroupBanned ref members (gbr_Banned req)).

Definition GroupsSetMemberRole (req : GroupMemberRoleRequest) : M (Group * error) :=
  let* _ := check (GroupMemberRoleRequest_Check req) in
  let* ref := resolve_group (gmr_Group req) in
  let* _ := connect in
  let* targets := resolve_users (gmr_Members req) in
  let members := tgt_Recipient <$> targets in
  submit (CallRole ref members (gmr_Role req)) (client_SetGroupMemberRole ref members (gmr_Role req)).

Definition GroupsRename (req : RenameGroupRequest) : M Group :=
  let* _ := check (ValidateGroupTitle (rgr_Title req)) in
  let* ref := resolve_group (rgr_Group req) in
  let* _ := connect in
  or_nothing (submit (CallRename ref (rgr_Title req)) (client_RenameGroup ref (rgr_Title req))).

(** *** Settings (groups_avatar.go, groups_update.go) *)

(** An operation of the system, its error wrapped. *)
Definition avatar_step {A} (m : io W err A) : io W err A :=
  let* r := io_try m in match r with Ok a => io_ret a | Err e => io_err (Wrap [e]) end.
Definition readGroupAvatar (path : string) : io W err string :=
  let* info := avatar_step (os_Stat path) in
  if negb info.1 then io_err (errorf ErrNotAFile)
  else if MaxGroupAvatarSize <? info.2 then io_err (errorf ErrInvalidGroupUpdate)
  else
    let* regular := avatar_step (os_Open path) in
    if negb regular then io_err (errorf ErrNotAFile)
    else
      let* data := avatar_step (file_ReadAll path (MaxGroupAvatarSize + 1)) in
      if MaxGroupAvatarSize <? slen data then io_err (errorf ErrInvalidGroupUpdate) else io_ret data.

Definition prepareAvatar (r : UpdateGroupRequest) : io W err (option GroupAvatarUpdate) :=
  match upd_Avatar (ugr_Update r) with
  | Some avatar =>
      match AvatarFile r with
      | Some _ => io_err (errorf ErrInvalidGroupUpdate)
      | None => if RemoveAvatar r then io_err (errorf ErrInvalidGroupUpdate) else io_ret (Some avatar)
      end
  | None =>
      match AvatarFile r with
      | Some file =>
          if RemoveAvatar r then io_err (errorf ErrInvalidGroupUpdate)
          else if file == ""%string then io_err (errorf ErrInvalidGroupUpdate)
          else let* data := readGroupAvatar file in io_ret (Some (mkAvatar data false))
      | None => io_ret (if RemoveAvatar r then Some (mkAvatar "" true) else None)
      end
  end.

Definition with_avatar (u : GroupUpdate) (avatar : option GroupAvatarUpdate) : GroupUpdate :=
  mkUpdate avatar (upd_Description u) (upd_TimerSeconds u) (upd_AnnouncementsOnly u) (upd_MembersCanEditAttributes u) (upd_MembersCanAddMembers u).

Definition Prepare (r : UpdateGroupRequest) : io W err UpdateGroupRequest :=
  let* _ := io_of (match checkGroup (ugr_Group r) with Some e => Err e | None => Ok tt end) in
  let* avatar := prepareAvatar r in
  let update := with_avatar (ugr_Update r) avatar in
  match GroupUpdate_Check update with
  | Some e => io_err e
  | None => io_ret (mkUpdateRequest (ugr_Group r) update None false)
  end.
Definition UpdateGroupRequest_Check (r : UpdateGroupRequest) : io W err unit := let* _ := Prepare r in io_ret tt.

Definition GroupsUpdate (req : UpdateGroupRequest) : M (Group * error) :=
  let* req := on_app (wrap_err (lift (Prepare req))) in
  let* ref := resolve_group (ugr_Group req) in
  let* _ := connect in
  submit (CallUpdate ref (ugr_Update req)) (client_UpdateGroup ref (ugr_Update req)).

(** *** Invite links (groups_link.go) *)

(** [ResolveGroup] with its error hidden, and wrapped by the operation. *)
Definition resolve_link_group (arg : string) : M string :=
  let* r := io_try (on_app (ResolveGroup arg)) in
  match r with Ok ref => io_ret ref | Err e => io_err (Wrap [GroupLinkReferenceError e]) end.

Definition GroupsLinkShow (req : GroupLinkRequest) : M (GroupLink * error) :=
  let* _ := check (GroupLinkRequest_Check req) in
  let* ref := resolve_link_group (glr_Group req) in
  let* _ := connect in
  submit (CallLink ref) (client_GroupLink ref).

Definition GroupsLinkUpdate (req : GroupLinkUpdateRequest) : M (GroupLink * error) :=
  let* _ := check (GroupLinkUpdateRequest_Check req) in
  let* ref := resolve_link_group (glu_Group req) in
  let* _ := connect in
  submit (CallLinkUpdate ref (glu_Update req)) (client_UpdateGroupLink ref (glu_Update req)).

(** *** Accepting, cancelling and joining *)

(** [groupAcceptPreSubmissionError], [groupCancelRequestPreSubmissionError] and [groupJoinConnectError]. *)
Definition pre_submission (operation stage secrets : string) (e : err) : err :=
  Message (operation ++ ": " ++ stage ++ " failed before submission (details hidden to protect " ++ secrets ++ " secrets)") e.
Definition hiding {A} (text : err -> err) (m : M A) : M A :=
  let* r := io_try m in match r with Ok a => io_ret a | Err e => io_err (text e) end.

(** What the facade answers, its error replaced by one that is safe to show. *)
Definition submit_redacted {R} (c : gcall) (m : W -> (R * error) * W) (redact : err -> R -> err) : M (R * error) := fun s =>
  let a := ga_app s in
  let '(r, w) := m (app_world a) in
  (Ok (r.1, option_map (fun e => Wrap [redact e r.1]) r.2),
   mkGapp (mkApp (app_lastTimestamp a) (app_resolved a) (app_sent a) (app_receipts a) w) (ga_calls s ++ [c])).

Definition GroupsAccept (req : GroupAcceptRequest) : M (GroupAcceptResult * error) :=
  let* _ := check (GroupAcceptRequest_Check req) in
  let* ref := hiding (pre_submission "groups accept" "resolution" "group") (on_app (ResolveGroup (gar_Group req))) in
  let* _ := hiding (pre_submission "groups accept" "connect" "group") (on_app connectSendOnly) in
  submit_redacted (CallAccept ref) (client_AcceptGroupInvitation ref) GroupAcceptOperationError.

Definition GroupsJoin (req : JoinGroupRequest) : M (GroupJoinResult * error) :=
  let* _ := check (JoinGroupRequest_Check req) in
  let* _ := hiding (pre_submission "groups join" "connect" "invite") (on_app connectSendOnly) in
  submit_redacted (CallJoin (jgr_Link req)) (client_JoinGroup (jgr_Link req)) GroupJoinOperationError.

Definition GroupsCancelRequest (req : GroupCancelRequestRequest) : M (GroupCancelRequestResult * error) :=
  let* _ := check (GroupCancelRequestRequest_Check req) in
  let* ref := hiding (pre_submission "groups cancel-request" "resolution" "group") (on_app (ResolveGroup (gcq_Group req))) in
  let* _ := hiding (pre_submission "groups cancel-request" "connect" "group") (on_app connectSendOnly) in
  submit_redacted (CallCancel ref) (client_CancelGroupJoinRequest ref) GroupCancelRequestOperationError.
End operations.

(** ** What is asked of the facade *)

Section asked_of.
Context {U : UuidLib} {UL : UuidLaws U} {P : Protowire} {W : Type} {C : Client W} {CL : ClientLaws C} {D : DirectoryClient W} {K : Casing}.
Context {F : Files W} {AF : AvatarFiles W} {I : ImageLib} {G : GroupClient W}.
Notation M := (io (gapp W) err).

(** A group reference is the key of 32 bytes that was named, or the one group with the title. *)
Definition group_named (arg ref : string) : Prop :=
  (exists raw, slen raw = groupIDLen /\ ref = EncodeToString StdEncoding raw)
  \/ exists cached, (exists w w', client_GroupTitles w = (Ok cached, w')) /\ the_group cached (TrimSpace arg) ref.

(** The users that the arguments name, resolved and without repetitions. *)
Definition users_named (args : list string) (targets : list Target) : Prop :=
  exists parsed resolved, Forall2 (fun arg t => ParseRecipient arg = Ok t) args parsed
    /\ Forall2 resolved_as parsed resolved /\ targets = dedupe resolved.

(** A member has an ACI, canonical or a UUID that was named. *)
Definition member_ok (r : Recipient) : Prop := exists id, ACI r = uuid_string id /\ ACI r <> ""%string.

(** A target of a removal: a PNI that was named, or a user that was resolved, with a PNI only if it was
    named by its number. *)
Definition removal_of (t t' : Target) : Prop :=
  if bool_decide (PNI (tgt_Recipient t) = ""%string)
  then member_ok (tgt_Recipient t')
       /\ exists u, resolved_as t u /\ tgt_Self t' = tgt_Self u /\ ACI (tgt_Recipient t') = ACI (tgt_Recipient u)
       /\ (PNI (tgt_Recipient t') = if bool_decide (Number (tgt_Recipient t) = ""%string) then ""%string else PNI (tgt_Recipient u))
  else t' = t /\ exists id, id <> uuid_nil /\ tgt_Recipient t = mkRecipient "" (uuid_string id) "" "".

(** Operations with their requests. *)
Inductive group_op :=
  | OpList | OpShow (arg : string) | OpLeave (req : LeaveRequest) | OpCreate (req : CreateGroupRequest)
  | OpAdd (req : AddGroupMembersRequest) | OpRemove (req : RemoveGroupMembersRequest) | OpBan (req : GroupBanRequest)
  | OpRole (req : GroupMemberRoleRequest) | OpRename (req : RenameGroupRequest) | OpUpdate (req : UpdateGroupRequest)
  | OpLink (req : GroupLinkRequest) | OpLinkUpdate (req : GroupLinkUpdateRequest) | OpAccept (req : GroupAcceptRequest)
  | OpJoin (req : JoinGroupRequest) | OpCancel (req : GroupCancelRequestRequest).

(** The error of an operation; an [Err] is one before the facade was asked, where a result is kept. *)
Definition perform_group (op : group_op) : M error :=
  match op with
  | OpList => let* _ := GroupsList in io_ret None
  | OpShow arg => let* _ := GroupsShow arg in io_ret None
  | OpLeave req => let* _ := GroupsLeave req in io_ret None
  | OpCreate req => let* out := GroupsCreate req in io_ret out.2
  | OpAdd req => let* out := GroupsAddMembers req in io_ret out.2
  | OpRemove req => let* out := GroupsRemoveMembers req in io_ret out.2
  | OpBan req => let* out := GroupsSetBanned req in io_ret out.2
  | OpRole req => let* out := GroupsSetMemberRole req in io_ret out.2
  | OpRename req => let* _ := GroupsRename req in io_ret None
  | OpUpdate req => let* out := GroupsUpdate req in io_ret out.2
  | OpLink req => let* out := GroupsLinkShow req in io_ret out.2
  | OpLinkUpdate req => let* out := GroupsLinkUpdate req in io_ret out.2
  | OpAccept req => let* out := GroupsAccept req in io_ret out.2
  | OpJoin req => let* out := GroupsJoin req in io_ret out.2
  | OpCancel req => let* out := GroupsCancelRequest req in io_ret out.2
  end.

(** The call an operation may make: what it was asked, with its arguments resolved and checked. *)
Definition asks_for (op : group_op) (c : gcall) : Prop :=
  match op, c with
  | OpList, CallGroups => True
  | OpShow arg, CallGroup ref => group_named arg ref
  | OpLeave req, CallLeave ref opts => group_named (lrq_Group req) ref
      /\ exists targets, users_named (lrq_Promote req) targets /\ lo_Promote opts = tgt_Recipient <$> targets
           /\ Forall (fun t => tgt_Self t = false) targets /\ Forall member_ok (lo_Promote opts)
  | OpCreate req, CallCreate opts => cgo_Title opts = cgr_Title req /\ ValidateGroupTitle (cgo_Title opts) = None
      /\ exists targets, users_named (cgr_Members req) targets
           /\ cgo_Members opts = tgt_Recipient <$> filter (fun t => tgt_Self t = false) targets /\ Forall member_ok (cgo_Members opts)
  | OpAdd req, CallAdd ref members => group_named (agm_Group req) ref /\ members <> [] /\ Forall member_ok members
      /\ exists targets, users_named (agm_Members req) targets /\ members = tgt_Recipient <$> targets
  | OpRemove req, CallRemove ref members => group_named (rgm_Group req) ref /\ members <> []
      /\ exists parsed targets, Forall2 (fun arg t => parseRemovalMember arg = Ok t) (rgm_Members req) parsed
           /\ Forall2 removal_of parsed targets /\ members = tgt_Recipient <$> targets /\ Forall (fun t => tgt_Self t = false) targets
  | OpBan req, CallBan ref members banned => group_named (gbr_Group req) ref /\ members <> [] /\ banned = gbr_Banned req
      /\ Forall member_ok members
      /\ exists targets, users_named (gbr_Members req) targets /\ members = tgt_Recipient <$> targets /\ Forall (fun t => tgt_Self t = false) targets
  | OpRole req, CallRole ref members role => group_named (gmr_Group req) ref /\ members <> [] /\ role = gmr_Role req
      /\ (role = GroupRoleAdmin \/ role = GroupRoleMember) /\ Forall member_ok members
      /\ exists targets, users_named (gmr_Members req) targets /\ members = tgt_Recipient <$> targets
  | OpRename req, CallRename ref title => group_named (rgr_Group req) ref /\ title = rgr_Title req /\ ValidateGroupTitle title = None
  | OpUpdate req, CallUpdate ref update => group_named (ugr_Group req) ref /\ GroupUpdate_Check update = None
      /\ exists avatar, update = with_avatar (ugr_Update req) avatar
  | OpLink req, CallLink ref => group_named (glr_Group req) ref
  | OpLinkUpdate req, CallLinkUpdate ref update => group_named (glu_Group req) ref /\ update = glu_Update req /\ GroupLinkUpdate_Check update = None
  | OpAccept req, CallAccept ref => group_named (gar_Group req) ref
  | OpJoin req, CallJoin link => link = jgr_Link req /\ CheckGroupInviteLink link = None
  | OpCancel req, CallCancel ref => group_named (gcq_Group req) ref
  | _, _ => False
  end.

(** *** Steps that ask nothing, and the one that asks *)

Definition quietly {A} (m : M A) (Q : A -> Prop) : Prop := forall s, let (r, s') := m s in
  logs (ga_app s') = logs (ga_app s) /\ ga_calls s' = ga_calls s /\ match r with Ok a => Q a | Err _ => True end.
Definition asking {A} (m : M A) (Q : gcall -> Prop) : Prop := forall s, let (r, s') := m s in
  logs (ga_app s') = logs (ga_app s)
  /\ exists calls, ga_calls s' = ga_calls s ++ calls /\ (length calls <= 1)%nat /\ Forall Q calls
       /\ match r with Ok _ => calls <> [] | Err _ => True end.

Lemma asking_bind {A B} (m : M A) (f : A -> M B) Q R : quietly m Q -> (forall a, Q a -> asking (f a) R) -> asking (let* a := m in f a) R.
Proof.
  intros Hm Hf s. unfold io_bind. specialize (Hm s). destruct (m s) as [[a|e] s1]; destruct Hm as (Hl & Hc & Hq).
  - specialize (Hf a Hq s1). destruct (f a s1) as [r s2]. destruct Hf as [Hl' Hf]. split; [congruence|]. by rewrite <- Hc.
  - split; [done|]. exists []. rewrite app_nil_r. split_and!; [done|cbn; lia|constructor|done].
Qed.

Lemma asking_result {A B} (m : M A) (f : A -> M B) R : asking m R -> (forall a s, exists r, f a s = (r, s)) -> asking (let* a := m in f a) R.
Proof.
  intros Hm Hf s. unfold io_bind. specialize (Hm s). destruct (m s) as [[a|e] s1]; [|done]. destruct (Hf a s1) as [r ->].
  destruct Hm as (Hl & calls & Hc & Hn & Hq & Hne). split; [done|]. exists calls. split_and!; try done. by destruct r.
Qed.

Lemma asking_submit {R} c (m : W -> (R * error) * W) (Q : gcall -> Prop) : Q c -> asking (submit c m) Q.
Proof.
  intros Hq s. unfold submit. destruct (m _) as [r w]. split; [done|]. exists [c]. split_and!; [done|cbn; lia|by constructor|done].
Qed.
Lemma asking_redacted {R} c (m : W -> (R * error) * W) f (Q : gcall -> Prop) : Q c -> asking (submit_redacted c m f) Q.
Proof.
  intros Hq s. unfold submit_redacted. destruct (m _) as [r w]. split; [done|]. exists [c]. split_and!; [done|cbn; lia|by constructor|done].
Qed.
Lemma asking_nothing {R} (m : M (R * error)) Q : asking m Q -> asking (or_nothing m) Q.
Proof. intros H. apply asking_result; [done|]. intros [r [e|]] s; by eexists. Qed.

Lemma quietly_check e : quietly (check e) (fun _ => e = None).
Proof. intros s. by destruct e. Qed.
Lemma quietly_on {A} (m : io (App W) err A) (Q : A -> Prop) : keeps_logs m -> (forall s a s', m s = (Ok a, s') -> Q a) -> quietly (on_app m) Q.
Proof.
  intros Hk Hq s. unfold on_app. destruct (m (ga_app s)) as [r a] eqn:E. split_and!; [by eapply Hk|done|]. destruct r; [by eapply Hq|done].
Qed.
Lemma wrap_err_keeps {A} (m : io (App W) err A) : keeps_logs m -> keeps_logs (wrap_err m).
Proof. intros H. apply keeps_bind; [by apply keeps_try|]. intros [|]; [apply keeps_ret|apply keeps_err]. Qed.
Lemma wrap_err_Ok {A} (m : io (App W) err A) s a s' : wrap_err m s = (Ok a, s') -> m s = (Ok a, s').
Proof. unfold wrap_err, io_bind, io_try. destruct (m s) as [[x|] s1]; [|done]. intros [= <- <-]. done. Qed.

Lemma quietly_connect : quietly connect (fun _ => True).
Proof. apply quietly_on; [apply wrap_err_keeps, connectSendOnly_keeps|done]. Qed.

Lemma ResolveGroup_named arg : keeps_logs (ResolveGroup arg) /\ forall s ref s', ResolveGroup arg s = (Ok ref, s') -> group_named arg ref.
Proof.
  split; [intros s r s' E|intros s ref s' E]; pose proof (ResolveGroup_spec arg s) as H; rewrite E in H; by destruct H as [Hl H].
Qed.
Lemma quietly_group arg : quietly (resolve_group arg) (group_named arg).
Proof.
  destruct (ResolveGroup_named arg) as [Hk Hq]. apply quietly_on; [by apply wrap_err_keeps|]. intros s a s' H%wrap_err_Ok. by eapply Hq.
Qed.
Lemma quietly_try {A} (m : M A) (Q : A -> Prop) (f : err -> err) : quietly m Q ->
  quietly (let* r := io_try m in match r with Ok a => io_ret a | Err e => io_err (f e) end) Q.
Proof. intros H s. unfold io_bind, io_try. specialize (H s). by destruct (m s) as [[a|e] s1]. Qed.
Lemma quietly_link_group arg : quietly (resolve_link_group arg) (group_named arg).
Proof. destruct (ResolveGroup_named arg). apply (quietly_try _ _ (fun e => Wrap [GroupLinkReferenceError e])). by apply quietly_on. Qed.
Lemma quietly_hiding {A} text (m : M A) Q : quietly m Q -> quietly (hiding text m) Q.
Proof. apply quietly_try. Qed.
Lemma quietly_hidden_group text arg : quietly (hiding text (on_app (ResolveGroup arg))) (group_named arg).
Proof. destruct (ResolveGroup_named arg). apply quietly_hiding. by apply quietly_on. Qed.
Lemma quietly_hidden_connect text : quietly (hiding text (on_app connectSendOnly)) (fun _ => True).
Proof. apply quietly_hiding, quietly_on; [apply connectSendOnly_keeps|done]. Qed.

(** *** Members *)

Lemma destination_member t : destination t -> Target_IsGroup t = false -> member_ok (tgt_Recipient t).
Proof.
  unfold destination. intros H Hg. rewrite Hg in H. destruct H as [H|(id & H & Hne)]; [|by exists id]. unfold canonical_uuid in H.
  destruct (uuid_parse _) as [id|] eqn:E; [|done]. bool_hyps. exists id. split; [done|]. intros He. rewrite He in *. pose proof (uuid_string_nonempty id). congruence.
Qed.

Lemma check_members_None parse self args : check_members parse self args = None ->
  Forall (fun arg => exists t, parse arg = Ok t /\ Target_IsGroup t = false /\ (self = false -> tgt_Self t = false)) args.
Proof.
  induction args as [|arg args IH]; cbn [check_members]; [constructor|]. destruct (parse arg) as [t|] eqn:E; [|done].
  destruct (Target_IsGroup t) eqn:Eg; [done|]. destruct (negb self && tgt_Self t) eqn:Es; [done|]. intros H. constructor; [|by apply IH].
  exists t. split_and!; [done..|]. intros ->. exact Es.
Qed.

Lemma named_members args targets : users_named args targets ->
  Forall (fun arg => exists t, ParseRecipient arg = Ok t /\ Target_IsGroup t = false) args ->
  Forall (fun t => Target_IsGroup t = false) targets /\ Forall member_ok (tgt_Recipient <$> targets) /\ (args <> [] -> targets <> []).
Proof.
  intros (parsed & resolved & Hp & Hr & ->) Hg.
  assert (H : Forall (fun t => destination t /\ Target_IsGroup t = false) (dedupe resolved)).
  { apply Forall_forall. intros t Ht. pose proof (elem_of_sublist _ _ _ Ht (dedup_from_sublist _ _ _)) as [k Hk]%list_elem_of_lookup.
    destruct (Forall2_lookup_r _ _ _ _ _ Hr Hk) as (t0 & H0 & Hres). destruct (Forall2_lookup_r _ _ _ _ _ Hp H0) as (arg & Ha & Harg).
    split; [by eapply resolved_destination|]. eapply Forall_lookup_1 in Hg as (t1 & Ht1 & Hn); [|exact Ha]. rewrite Ht1 in Harg. injection Harg as <-.
    unfold resolved_as in Hres. rewrite Hn in Hres. apply Hres. }
  split_and!.
  - eapply Forall_impl; [exact H|]. by intros t [_ ?].
  - apply Forall_fmap. eapply Forall_impl; [exact H|]. intros t [? ?]. by apply destination_member.
  - intros Hne He. destruct args; [done|]. inversion Hp; subst. inversion Hr; subst. done.
Qed.

Lemma ResolveRecipients_named args s targets s' : ResolveRecipients args s = (Ok targets, s') -> users_named args targets.
Proof. apply ResolveRecipients_Ok. Qed.
Lemma quietly_users args : quietly (resolve_users args) (users_named args).
Proof. apply quietly_on; [apply wrap_err_keeps, ResolveRecipients_keeps|]. intros s a s' H%wrap_err_Ok. by eapply ResolveRecipients_named. Qed.

Lemma not_self_Ok targets members : not_self targets = Ok members -> members = tgt_Recipient <$> targets /\ Forall (fun t => tgt_Self t = false) targets.
Proof.
  revert members. induction targets as [|t targets IH]; intros members; cbn [not_self]; [intros [= <-]; by split|].
  destruct (tgt_Self t) eqn:E; [done|]. intros (out & Ho & [= <-])%bind_Ok. destruct (IH _ Ho) as [-> ?]. split; [done|by constructor].
Qed.
Lemma quietly_not_self targets : quietly (on_app (io_of (not_self targets)))
  (fun members => members = tgt_Recipient <$> targets /\ Forall (fun t => tgt_Self t = false) targets).
Proof. apply quietly_on; [apply keeps_of|]. intros s a s' [= H _]. by apply not_self_Ok. Qed.

Lemma other_users_Ok targets members : other_users targets = Ok members ->
  members = tgt_Recipient <$> targets /\ Forall (fun t => tgt_Self t = false) targets /\ Forall (fun t => Target_IsGroup t = false) targets.
Proof.
  revert members. induction targets as [|t targets IH]; intros members; cbn [other_users]; [intros [= <-]; by split_and!|].
  destruct (Target_IsGroup t || tgt_Self t) eqn:E; [done|]. bool_hyps. intros (out & Ho & [= <-])%bind_Ok. destruct (IH _ Ho) as (-> & ? & ?).
  split_and!; [done|by constructor..].
Qed.

Lemma quietly_others args : quietly (resolveMembers args) (fun members => exists targets, users_named args targets
  /\ members = tgt_Recipient <$> targets /\ Forall (fun t => tgt_Self t = false) targets /\ Forall member_ok members).
Proof.
  unfold resolveMembers. destruct (len args =? 0) eqn:El.
  { apply Z.eqb_eq, len_zero in El as ->. intros s. split_and!; [done..|]. exists []. split_and!; try constructor. by exists [], []. }
  apply quietly_on; [apply wrap_err_keeps, keeps_bind; [apply ResolveRecipients_keeps|intros; apply keeps_of]|].
  intros s members s' H%wrap_err_Ok. apply io_bind_Ok in H as (targets & s1 & Hr & H). injection H as Ho _. apply other_users_Ok in Ho as (-> & Hs & Hg).
  exists targets. pose proof (ResolveRecipients_destinations _ _ _ _ Hr) as [Hd _]. split_and!; [by eapply ResolveRecipients_named|done..|].
  apply Forall_fmap, Forall_forall. intros t Ht. rewrite Forall_forall in Hd, Hg. apply destination_member; [by apply Hd|by apply Hg].
Qed.

(** *** Removals *)

Lemma ParseRecipient_PNI arg t : ParseRecipient arg = Ok t -> PNI (tgt_Recipient t) = ""%string.
Proof.
  unfold ParseRecipient. destruct (EqualFold _ _); [by intros [= <-]|]. destruct (HasPrefix _ GroupPrefix).
  { unfold parseGroup. destruct (decodeGroupKey _); [|done]. by intros [= <-]. }
  destruct (cut_prefix _ _); [destruct (_ || _); [done|by intros [= <-]]|].
  destruct (HasPrefix _ "+"); [destruct (negb _); [done|by intros [= <-]]|].
  destruct (uuid_parse _); [|done]. destruct (negb _); [done|]. by intros [= <-].
Qed.

Lemma parseRemovalMember_Ok arg t : parseRemovalMember arg = Ok t ->
  (PNI (tgt_Recipient t) = ""%string /\ ParseRecipient (TrimSpace arg) = Ok t)
  \/ exists id, id <> uuid_nil /\ t = userTarget (mkRecipient "" (uuid_string id) "" "").
Proof.
  unfold parseRemovalMember. destruct (negb _).
  - intros H. left. split; [by eapply ParseRecipient_PNI|done].
  - cbv zeta. destruct (uuid_parse _) as [id|]; [|done]. destruct (_ || _) eqn:E; [done|]. bool_hyps. intros [= <-]. right. by exists id.
Qed.

Lemma parse_removal_Ok args ts : parse_removal args = Ok ts -> Forall2 (fun arg t => parseRemovalMember arg = Ok t) args ts.
Proof.
  revert ts. induction args as [|arg args IH]; intros ts; cbn [parse_removal]; [intros [= <-]; constructor|].
  intros (t & Ht & H)%bind_Ok. apply bind_Ok in H as (out & Ho & [= <-]). constructor; [done|by apply IH].
Qed.

(** A target that is not a group and was parsed for a removal. *)
Definition to_remove (t : Target) : Prop := Target_IsGroup t = false /\ exists arg, parseRemovalMember arg = Ok t.

Lemma place_users_Ok ts users : Forall to_remove ts -> Forall2 resolved_as (filter (fun t => PNI (tgt_Recipient t) = ""%string) ts) users ->
  Forall2 removal_of ts (place_users ts users).
Proof.
  intros H. revert users. induction H as [|t ts [Hg [arg Harg]] _ IH]; intros users; cbn [place_users]; [constructor|].
  rewrite filter_cons. unfold removal_of at 1. pose proof (parseRemovalMember_Ok _ _ Harg) as Hp. case_decide as Hd.
  - rewrite (bool_decide_eq_true_2 _ Hd). cbn [negb]. intros Hr. inversion Hr as [|? u ? us Hu Hus]; subst. constructor; [|by apply IH].
    rewrite (bool_decide_eq_true_2 _ Hd). destruct Hp as [[_ Hp]|(id & _ & ->)]; [|by destruct (uuid_string_nonempty id)].
    assert (Hm : member_ok (tgt_Recipient u)).
    { apply destination_member; [by eapply resolved_destination|]. unfold resolved_as in Hu. rewrite Hg in Hu. apply Hu. }
    case_bool_decide; (split; [exact Hm|by exists u]).
  - rewrite (bool_decide_eq_false_2 _ Hd). cbn [negb]. intros Hr. constructor; [|by apply IH]. rewrite (bool_decide_eq_false_2 _ Hd).
    split; [done|]. destruct Hp as [[? _]|(id & Hn & ->)]; [done|]. by exists id.
Qed.

Lemma quietly_removal args : Forall (fun arg => exists t, parseRemovalMember arg = Ok t /\ Target_IsGroup t = false) args ->
  quietly (on_app (wrap_err (resolveRemovalMembers args)))
    (fun targets => exists parsed, Forall2 (fun arg t => parseRemovalMember arg = Ok t) args parsed /\ Forall2 removal_of parsed targets).
Proof.
  intros Hg. apply quietly_on.
  { apply wrap_err_keeps, keeps_bind; [apply keeps_of|]. intros ts. apply keeps_bind; [apply resolveUsers_keeps|]. intros; apply keeps_ret. }
  intros s targets s' H%wrap_err_Ok. apply io_bind_Ok in H as (parsed & s1 & Hp & H). injection Hp as Hp _. apply parse_removal_Ok in Hp.
  apply io_bind_Ok in H as (users & s2 & Hu & [= <- _]). apply resolveUsers_Ok in Hu. exists parsed. split; [done|]. apply place_users_Ok; [|done].
  apply Forall_forall. intros t [k Hk]%list_elem_of_lookup. destruct (Forall2_lookup_r _ _ _ _ _ Hp Hk) as (arg & Ha & Harg).
  eapply Forall_lookup_1 in Hg as (t1 & Ht1 & Hn); [|exact Ha]. rewrite Ht1 in Harg. injection Harg as ->. split; [done|by exists arg].
Qed.

(** *** Every operation *)

Lemma some_members_None args : some_members args = None -> args <> [].
Proof. unfold some_members. by destruct args. Qed.

Lemma check_members_users parse self args : check_members parse self args = None ->
  Forall (fun arg => exists t, parse arg = Ok t /\ Target_IsGroup t = false) args.
Proof. intros H%check_members_None. eapply Forall_impl; [exact H|]. intros arg (t & ? & ? & _). by exists t. Qed.

Lemma targets_nonempty (targets : list Target) : targets <> [] -> tgt_Recipient <$> targets <> [].
Proof. by destruct targets. Qed.

(** Apply the rules along an operation. *)
Local Ltac quiet_step :=
  first [ eapply asking_bind; [first [apply quietly_check | apply quietly_connect | apply quietly_group | apply quietly_link_group | apply quietly_hidden_group
                                 | apply quietly_hidden_connect | apply quietly_users | apply quietly_not_self | apply quietly_others]|]; intros ?
        | eapply asking_result; [|intros ? ?; by eexists] ].
Local Ltac ask_step := first [apply asking_nothing | apply asking_submit | apply asking_redacted].

Lemma create_asks req : asking (GroupsCreate req) (asks_for (OpCreate req)).
Proof.
  unfold GroupsCreate. quiet_step. intros [Ht Hm]%check_seq_None. quiet_step. intros _. quiet_step. intros Hn. ask_step. cbn.
  apply check_members_users in Hm. destruct (named_members _ _ Hn) as (_ & Hok & _); [done|].
  split_and!; [done..|]. eexists. split_and!; [exact Hn|done|]. apply Forall_forall. intros r (t & -> & [_ Hin]%list_elem_of_filter)%list_elem_of_fmap.
  rewrite Forall_forall in Hok. by apply Hok, list_elem_of_fmap_2.
Qed.

Lemma add_asks req : asking (GroupsAddMembers req) (asks_for (OpAdd req)).
Proof.
  unfold GroupsAddMembers. quiet_step. intros [_ [Hs%some_members_None Hm%check_members_users]%check_seq_None]%check_seq_None.
  quiet_step. intros Hg. quiet_step. intros _. quiet_step. intros Hn. ask_step. cbn.
  destruct (named_members _ _ Hn) as (_ & Hok & Hne); [done|].
  split_and!; [done|by apply targets_nonempty, Hne|done|]. eexists. by split.
Qed.

Lemma role_asks req : asking (GroupsSetMemberRole req) (asks_for (OpRole req)).
Proof.
  unfold GroupsSetMemberRole. quiet_step. intros [_ [Hr [Hs%some_members_None Hm%check_members_users]%check_seq_None]%check_seq_None]%check_seq_None.
  quiet_step. intros Hg. quiet_step. intros _. quiet_step. intros Hn. ask_step. cbn.
  destruct (named_members _ _ Hn) as (_ & Hok & Hne); [done|].
  split_and!; [done|by apply targets_nonempty, Hne|done| |done|eexists; by split].
  destruct (bool_decide (gmr_Role req = GroupRoleAdmin)) eqn:E1; bool_hyps; [by left|].
  destruct (bool_decide (gmr_Role req = GroupRoleMember)) eqn:E2; bool_hyps; [by right|done].
Qed.

Lemma ban_asks req : asking (GroupsSetBanned req) (asks_for (OpBan req)).
Proof.
  unfold GroupsSetBanned. quiet_step. intros [_ [Hs%some_members_None Hm%check_members_users]%check_seq_None]%check_seq_None.
  quiet_step. intros Hg. quiet_step. intros _. quiet_step. intros Hn. quiet_step. intros [-> Hself]. ask_step. cbn.
  destruct (named_members _ _ Hn) as (_ & Hok & Hne); [done|].
  split_and!; [done|by apply targets_nonempty, Hne|done|done|]. eexists. by split_and!.
Qed.

Lemma remove_asks req : asking (GroupsRemoveMembers req) (asks_for (OpRemove req)).
Proof.
  unfold GroupsRemoveMembers. quiet_step. intros [_ [Hs%some_members_None Hm%check_members_users]%check_seq_None]%check_seq_None.
  quiet_step. intros Hg. quiet_step. intros _. eapply asking_bind; [by apply quietly_removal|].
  intros targets (parsed & Hp & Hr). quiet_step. intros [-> Hself]. ask_step. cbn. split_and!; [done| |by exists parsed, targets].
  apply targets_nonempty. intros ->. inversion Hr; subst. by inversion Hp.
Qed.

Lemma leave_asks req : asking (GroupsLeave req) (asks_for (OpLeave req)).
Proof.
  unfold GroupsLeave. quiet_step. intros Hg. quiet_step. intros _. quiet_step. intros (targets & Hn & -> & Hs & Hm). ask_step. ask_step. cbn.
  split; [done|]. by exists targets.
Qed.

Lemma Prepare_Ok req w req' w' : Prepare req w = (Ok req', w') ->
  ugr_Group req' = ugr_Group req /\ GroupUpdate_Check (ugr_Update req') = None /\ exists avatar, ugr_Update req' = with_avatar (ugr_Update req) avatar.
Proof.
  unfold Prepare. intros H. apply io_bind_Ok in H as (u & w1 & _ & H). apply io_bind_Ok in H as (avatar & w2 & _ & H). cbv zeta in H.
  destruct (GroupUpdate_Check _) eqn:E; [done|]. injection H as <- _. split_and!; [done..|]. by exists avatar.
Qed.

Lemma update_asks req : asking (GroupsUpdate req) (asks_for (OpUpdate req)).
Proof.
  unfold GroupsUpdate. eapply (asking_bind _ _ (fun req' => ugr_Group req' = ugr_Group req /\ GroupUpdate_Check (ugr_Update req') = None
    /\ exists avatar, ugr_Update req' = with_avatar (ugr_Update req) avatar)).
  { apply quietly_on; [apply wrap_err_keeps, keeps_lift|]. intros s a s' H%wrap_err_Ok. unfold lift in H.
    destruct (Prepare req (app_world s)) as [r w] eqn:E. injection H as -> _. by eapply Prepare_Ok. }
  intros req' (-> & Hc & Ha). quiet_step. intros Hg. quiet_step. intros _. ask_step. by split_and!.
Qed.

Lemma perform_asks op : asking (perform_group op) (asks_for op).
Proof.
  destruct op; cbn [perform_group]; (eapply asking_result; [|intros ? ?; by eexists]).
  - unfold GroupsList. quiet_step. intros _. ask_step. by ask_step.
  - unfold GroupsShow. quiet_step. intros ?. quiet_step. intros _. ask_step. by ask_step.
  - apply leave_asks.
  - apply create_asks.
  - apply add_asks.
  - apply remove_asks.
  - apply ban_asks.
  - apply role_asks.
  - unfold GroupsRename. quiet_step. intros ?. quiet_step. intros ?. quiet_step. intros _. ask_step. by ask_step.
  - apply update_asks.
  - unfold GroupsLinkShow. quiet_step. intros _. quiet_step. intros ?. quiet_step. intros _. by ask_step.
  - unfold GroupsLinkUpdate. quiet_step. intros [_ ?]%check_seq_None. quiet_step. intros ?. quiet_step. intros _. by ask_step.
  - unfold GroupsAccept. quiet_step. intros _. quiet_step. intros ?. quiet_step. intros _. by ask_step.
  - unfold GroupsJoin. quiet_step. intros ?. quiet_step. intros _. by ask_step.
  - unfold GroupsCancelRequest. quiet_step. intros _. quiet_step. intros ?. quiet_step. intros _. by ask_step.
Qed.

(** *** Secrets *)

(** What an operation reports has no text of other code in it. *)
Definition hidden {A} (m : M (A * error)) : Prop := forall s,
  match (m s).1 with Ok (_, Some e) => foreign e = false | Ok (_, None) => True | Err e => foreign e = false end.

Lemma hidden_check {A} e (f : unit -> M (A * error)) : (forall x, e = Some x -> foreign x = false) -> (e = None -> hidden (f tt)) ->
  hidden (let* _ := check e in f tt).
Proof. intros He Hf s. unfold io_bind. destruct e as [e|]; [cbn; by rewrite (He e)|]. by apply Hf. Qed.
Lemma hidden_hiding {A B} text (m : M B) (f : B -> M (A * error)) : (forall e, foreign (text e) = false) -> (forall b, hidden (f b)) ->
  hidden (let* b := hiding text m in f b).
Proof. intros Ht Hf s. unfold hiding, io_bind, io_try. destruct (m s) as [[b|e] s1]; cbn [fst]; [apply Hf|apply Ht]. Qed.
Lemma hidden_redacted {R} c (m : W -> (R * error) * W) redact : (forall e r, foreign (redact e r) = false) -> hidden (submit_redacted c m redact).
Proof. intros Hr s. unfold submit_redacted. destruct (m _) as [[r [e|]] w]; [cbn; by rewrite Hr|done]. Qed.

Lemma reference_hidden ref x : CheckGroupAcceptReference ref = Some x -> foreign x = false.
Proof. unfold CheckGroupAcceptReference. repeat split_if; by intros [= <-]. Qed.

Lemma secret_operations_hidden a j c : hidden (GroupsAccept a) /\ hidden (GroupsJoin j) /\ hidden (GroupsCancelRequest c).
Proof.
  split_and!.
  - apply (hidden_check _ (fun _ => _)); [apply reference_hidden|]. intros _. apply hidden_hiding; [done|]. intros ref. apply hidden_hiding; [done|]. intros _. by apply hidden_redacted.
  - apply (hidden_check _ (fun _ => _)); [|intros _; apply hidden_hiding; [done|]; intros _; by apply hidden_redacted].
    intros x. unfold JoinGroupRequest_Check, CheckGroupInviteLink. destruct (groupinvite_Parse _); [done|]. by intros [= <-].
  - apply (hidden_check _ (fun _ => _)); [apply reference_hidden|]. intros _. apply hidden_hiding; [done|]. intros ref. apply hidden_hiding; [done|]. intros _. by apply hidden_redacted.
Qed.

(** Operations whose reference may be the group's key or its link. *)
Definition secret_op (op : group_op) : bool := match op with OpAccept _ | OpJoin _ | OpCancel _ => true | _ => false end.

Lemma perform_hidden op s : secret_op op = true ->
  match (perform_group op s).1 with Ok (Some e) => foreign e = false | Ok None => True | Err e => foreign e = false end.
Proof.
  destruct op; try done; intros _; cbn [perform_group]; unfold io_bind.
  - pose proof (proj1 (secret_operations_hidden req (mkJoinRequest "") (mkCancelRequest "")) s) as H. by destruct (GroupsAccept req s) as [[[r [e|]]|e] s1].
  - pose proof (proj1 (proj2 (secret_operations_hidden (mkAcceptRequest "") req (mkCancelRequest ""))) s) as H. by destruct (GroupsJoin req s) as [[[r [e|]]|e] s1].
  - pose proof (proj2 (proj2 (secret_operations_hidden (mkAcceptRequest "") (mkJoinRequest "") req)) s) as H. by destruct (GroupsCancelRequest req s) as [[[r [e|]]|e] s1].
Qed.

End asked_of.

Section witnesses.
Import DemoUuid.

Definition demo_key : string := "AAAAAAAAAAAAAAAAAAAAAAAAAAAAAAAAAAAAAAAAAAA=".
Definition demo_no_group : Group := mkGroup "" demo_key "" "Hiking" "" 3 0 false true true [] [] [] [] MembershipMember GroupRoleMember zero_time None.
#[local] Instance demo_casing : Casing := {| strings_ToLower := lower_string; strings_EqualFold := EqualFold |}.
#[local] Instance demo_directory : DirectoryClient unit := {|
  client_Contacts := io_ret []; client_Contact := fun _ => io_err (Sent ErrUnknownContact);
  client_GroupTitles := io_ret {[ demo_key := mkCached "Hiking" zero_time ]}; client_SetBlocked := fun _ _ => io_ret tt |}.
#[local] Instance demo_avatar_files : AvatarFiles unit := {| os_Open := fun _ => io_err (Sent ErrClosed); file_ReadAll := fun _ _ => io_err (Sent ErrClosed) |}.
#[local] Instance demo_groups : GroupClient unit := {|
  client_Groups := fun w => (([], None), w); client_ShowGroup := fun _ w => ((demo_no_group, None), w);
  client_CreateGroup := fun _ w => ((demo_no_group, None), w);
  client_LeaveGroup := fun _ _ w => ((mkLeaveResult demo_no_group 4 [], None), w);
  client_RenameGroup := fun _ _ w => ((demo_no_group, None), w); client_UpdateGroup := fun _ _ w => ((demo_no_group, None), w);
  client_AddGroupMembers := fun _ _ w => ((demo_no_group, None), w); client_RemoveGroupMembers := fun _ _ w => ((demo_no_group, None), w);
  client_SetGroupMemberRole := fun _ _ _ w => ((demo_no_group, None), w); client_SetGroupBanned := fun _ _ _ w => ((demo_no_group, None), w);
  client_GroupLink := fun _ w => ((mkLink demo_key 3 GroupLinkDisabled "", None), w);
  client_UpdateGroupLink := fun _ _ w => ((mkLink demo_key 3 GroupLinkDisabled "", None), w);
  client_AcceptGroupInvitation := fun _ w => ((zeroAcceptResult, Some (Opaque "secret")), w);
  client_JoinGroup := fun _ w => ((zeroJoinResult, None), w); client_CancelGroupJoinRequest := fun _ w => ((zeroCancelResult, None), w) |}.
#[local] Existing Instance AppSend.demo_client.
#[local] Existing Instance AppSend.demo_laws.
#[local] Existing Instance AppSend.demo_files.
#[local] Instance demo_no_images : ImageLib := {| image_DecodeConfig := fun _ => None; image_Decode := fun _ => false |}.
#[local] Existing Instance DemoWire.lib.


(** Ourselves and a group are refused; another user is banned by ACI. *)
Example ban_self_refused : exists e s', GroupsSetBanned (mkBan "Hiking" ["11111111-1111-4111-8111-111111111111"%string] true) (mkGapp AppSend.demo_app []) = (Err e, s') /\ ga_calls s' = [].
Proof. eexists _, _. by split; [vm_compute; reflexivity|]. Qed.
Example ban_other : exists s', GroupsSetBanned (mkBan "hiking" ["22222222-2222-4222-8222-222222222222"%string] true) (mkGapp AppSend.demo_app []) = (Ok (demo_no_group, None), s')
  /\ ga_calls s' = [CallBan demo_key [ofACI "22222222-2222-4222-8222-222222222222"] true].
Proof. eexists. by split; [vm_compute; reflexivity|]. Qed.
End witnesses.
