(* ===== verification/Wire.v ===== *)
(** * Messages on the wire (internal/signal/meow_send.go, meow_poll.go, meow_pin.go, meow_styles.go)

    The parts of signalpb's messages that the repository reads and writes, as records: an optional
    field is an [option], and its getter has the default of its type. [dataMessage] builds the data
    message of a request that passed its check; UUIDs are 16 bytes on the wire. *)

From S2P Require Import Prelude Errors Uuid Utf8 Strconv Base64 Types SendCheck.

(** ** The messages of signalpb *)

Record AttachmentPointer := mkPointer {
  ptr_CdnId : option Z; ptr_CdnKey : option string; ptr_ContentType : option string; ptr_Key : string; ptr_Size : option Z;
  ptr_Digest : string; ptr_FileName : option string; ptr_Caption : option string; ptr_CdnNumber : option Z;
  ptr_UploadTimestamp : option Z; ptr_Width : option Z; ptr_Height : option Z }.

Inductive wire_style := WNone | WBold | WItalic | WSpoiler | WStrikethrough | WMonospace.
(** [BodyRange.associated_value]. *)
Inductive range_value := MentionAci (aci : string) | MentionAciBinary (aci : string) | RangeStyle (style : wire_style).
Record BodyRange := mkBodyRange { br_Start : option Z; br_Length : option Z; br_Value : option range_value }.

Record WireQuote := mkWireQuote {
  wq_Id : option Z; wq_AuthorAci : option string; wq_AuthorAciBinary : string; wq_Text : option string;
  wq_BodyRanges : list BodyRange; wq_Normal : bool }.
Record WireReaction := mkWireReaction {
  wr_Emoji : option string; wr_Remove : option bool; wr_TargetAuthorAci : option string; wr_TargetAuthorAciBinary : string;
  wr_TargetSentTimestamp : option Z }.
Record WireDelete := mkWireDelete { wd_TargetSentTimestamp : option Z }.
Record WireSticker := mkWireSticker {
  ws_PackId : string; ws_PackKey : string; ws_StickerId : option Z; ws_Emoji : option string; ws_Data : option AttachmentPointer }.
Record WirePollCreate := mkWirePollCreate {
  wpc_Question : option string; wpc_AllowMultiple : option bool; wpc_Options : list string }.
Record WirePollVote := mkWirePollVote {
  wpv_TargetAuthorAciBinary : string; wpv_TargetSentTimestamp : option Z; wpv_OptionIndexes : list Z; wpv_VoteCount : option Z }.
Record WirePollTerminate := mkWirePollTerminate { wpt_TargetSentTimestamp : option Z }.
(** [PinMessage.pin_duration]. *)
Inductive pin_duration := PinDurationSeconds (seconds : Z) | PinDurationForever (forever : bool).
Record WirePin := mkWirePin {
  wp_TargetAuthorAciBinary : string; wp_TargetSentTimestamp : option Z; wp_PinDuration : option pin_duration }.
Record WireUnpin := mkWireUnpin { wu_TargetAuthorAciBinary : string; wu_TargetSentTimestamp : option Z }.

(** Of the parts that are only looked for, whether they are there. *)
Record DataMessage := mkData {
  dm_Body : option string; dm_Attachments : list AttachmentPointer; dm_GroupV2 : bool;
  dm_Flags : option Z; dm_ProfileKey : string; dm_Timestamp : option Z; dm_ExpireTimer : option Z;
  dm_ExpireTimerVersion : option Z; dm_Quote : option WireQuote; dm_Contact : bool; dm_Preview : bool;
  dm_Sticker : option WireSticker; dm_RequiredProtocolVersion : option Z; dm_IsViewOnce : bool;
  dm_Reaction : option WireReaction; dm_Delete : option WireDelete; dm_BodyRanges : list BodyRange;
  dm_GroupCallUpdate : bool; dm_Payment : bool; dm_StoryContext : bool; dm_GiftBadge : bool;
  dm_PollCreate : option WirePollCreate; dm_PollTerminate : option WirePollTerminate;
  dm_PollVote : option WirePollVote; dm_PinMessage : option WirePin;
  dm_UnpinMessage : option WireUnpin; dm_AdminDelete : bool; dm_Unknown : string }.

(** Copies with some fields set. *)
Definition set_Pin (m : DataMessage) (pin : option WirePin) (unpin : option WireUnpin) : DataMessage :=
  mkData (dm_Body m) (dm_Attachments m) (dm_GroupV2 m) (dm_Flags m) (dm_ProfileKey m) (dm_Timestamp m)
    (dm_ExpireTimer m) (dm_ExpireTimerVersion m) (dm_Quote m) (dm_Contact m) (dm_Preview m)
    (dm_Sticker m) (dm_RequiredProtocolVersion m) (dm_IsViewOnce m) (dm_Reaction m) (dm_Delete m)
    (dm_BodyRanges m) (dm_GroupCallUpdate m) (dm_Payment m) (dm_StoryContext m) (dm_GiftBadge m)
    (dm_PollCreate m) (dm_PollTerminate m) (dm_PollVote m) pin unpin (dm_AdminDelete m) (dm_Unknown m).
Definition set_Poll (m : DataMessage) (version : option Z) (create : option WirePollCreate) (vote : option WirePollVote)
    (terminate : option WirePollTerminate) : DataMessage :=
  mkData (dm_Body m) (dm_Attachments m) (dm_GroupV2 m) (dm_Flags m) (dm_ProfileKey m) (dm_Timestamp m)
    (dm_ExpireTimer m) (dm_ExpireTimerVersion m) (dm_Quote m) (dm_Contact m) (dm_Preview m)
    (dm_Sticker m) version (dm_IsViewOnce m) (dm_Reaction m) (dm_Delete m) (dm_BodyRanges m)
    (dm_GroupCallUpdate m) (dm_Payment m) (dm_StoryContext m) (dm_GiftBadge m) create terminate vote
    (dm_PinMessage m) (dm_UnpinMessage m) (dm_AdminDelete m) (dm_Unknown m).
Definition set_Sticker (m : DataMessage) (sticker : WireSticker) : DataMessage :=
  mkData (dm_Body m) [] (dm_GroupV2 m) (dm_Flags m) (dm_ProfileKey m) (dm_Timestamp m) (dm_ExpireTimer m)
    (dm_ExpireTimerVersion m) (dm_Quote m) (dm_Contact m) (dm_Preview m) (Some sticker)
    (dm_RequiredProtocolVersion m) (dm_IsViewOnce m) (dm_Reaction m) (dm_Delete m) (dm_BodyRanges m)
    (dm_GroupCallUpdate m) (dm_Payment m) (dm_StoryContext m) (dm_GiftBadge m) (dm_PollCreate m)
    (dm_PollTerminate m) (dm_PollVote m) (dm_PinMessage m) (dm_UnpinMessage m) (dm_AdminDelete m)
    (dm_Unknown m).
Definition set_Text (m : DataMessage) (body : option string) (key : string) : DataMessage :=
  mkData body (dm_Attachments m) (dm_GroupV2 m) (dm_Flags m) key (dm_Timestamp m) (dm_ExpireTimer m)
    (dm_ExpireTimerVersion m) (dm_Quote m) (dm_Contact m) (dm_Preview m) (dm_Sticker m)
    (dm_RequiredProtocolVersion m) (dm_IsViewOnce m) (dm_Reaction m) (dm_Delete m) (dm_BodyRanges m)
    (dm_GroupCallUpdate m) (dm_Payment m) (dm_StoryContext m) (dm_GiftBadge m) (dm_PollCreate m)
    (dm_PollTerminate m) (dm_PollVote m) (dm_PinMessage m) (dm_UnpinMessage m) (dm_AdminDelete m)
    (dm_Unknown m).
Definition set_BodyRanges (m : DataMessage) (ranges : list BodyRange) : DataMessage :=
  mkData (dm_Body m) (dm_Attachments m) (dm_GroupV2 m) (dm_Flags m) (dm_ProfileKey m) (dm_Timestamp m)
    (dm_ExpireTimer m) (dm_ExpireTimerVersion m) (dm_Quote m) (dm_Contact m) (dm_Preview m)
    (dm_Sticker m) (dm_RequiredProtocolVersion m) (dm_IsViewOnce m) (dm_Reaction m) (dm_Delete m) ranges
    (dm_GroupCallUpdate m) (dm_Payment m) (dm_StoryContext m) (dm_GiftBadge m) (dm_PollCreate m)
    (dm_PollTerminate m) (dm_PollVote m) (dm_PinMessage m) (dm_UnpinMessage m) (dm_AdminDelete m)
    (dm_Unknown m).
Definition set_Delete (m : DataMessage) (d : WireDelete) : DataMessage :=
  mkData (dm_Body m) (dm_Attachments m) (dm_GroupV2 m) (dm_Flags m) (dm_ProfileKey m) (dm_Timestamp m)
    (dm_ExpireTimer m) (dm_ExpireTimerVersion m) (dm_Quote m) (dm_Contact m) (dm_Preview m)
    (dm_Sticker m) (dm_RequiredProtocolVersion m) (dm_IsViewOnce m) (dm_Reaction m) (Some d)
    (dm_BodyRanges m) (dm_GroupCallUpdate m) (dm_Payment m) (dm_StoryContext m) (dm_GiftBadge m)
    (dm_PollCreate m) (dm_PollTerminate m) (dm_PollVote m) (dm_PinMessage m) (dm_UnpinMessage m)
    (dm_AdminDelete m) (dm_Unknown m).
Definition set_Reaction (m : DataMessage) (version : Z) (r : WireReaction) : DataMessage :=
  mkData (dm_Body m) (dm_Attachments m) (dm_GroupV2 m) (dm_Flags m) (dm_ProfileKey m) (dm_Timestamp m)
    (dm_ExpireTimer m) (dm_ExpireTimerVersion m) (dm_Quote m) (dm_Contact m) (dm_Preview m)
    (dm_Sticker m) (Some version) (dm_IsViewOnce m) (Some r) (dm_Delete m) (dm_BodyRanges m)
    (dm_GroupCallUpdate m) (dm_Payment m) (dm_StoryContext m) (dm_GiftBadge m) (dm_PollCreate m)
    (dm_PollTerminate m) (dm_PollVote m) (dm_PinMessage m) (dm_UnpinMessage m) (dm_AdminDelete m)
    (dm_Unknown m).
Definition set_Quote (m : DataMessage) (q : WireQuote) : DataMessage :=
  mkData (dm_Body m) (dm_Attachments m) (dm_GroupV2 m) (dm_Flags m) (dm_ProfileKey m) (dm_Timestamp m)
    (dm_ExpireTimer m) (dm_ExpireTimerVersion m) (Some q) (dm_Contact m) (dm_Preview m) (dm_Sticker m)
    (dm_RequiredProtocolVersion m) (dm_IsViewOnce m) (dm_Reaction m) (dm_Delete m) (dm_BodyRanges m)
    (dm_GroupCallUpdate m) (dm_Payment m) (dm_StoryContext m) (dm_GiftBadge m) (dm_PollCreate m)
    (dm_PollTerminate m) (dm_PollVote m) (dm_PinMessage m) (dm_UnpinMessage m) (dm_AdminDelete m)
    (dm_Unknown m).
Definition set_Timer (m : DataMessage) (seconds version : Z) : DataMessage :=
  mkData (dm_Body m) (dm_Attachments m) (dm_GroupV2 m) (dm_Flags m) (dm_ProfileKey m) (dm_Timestamp m)
    (Some seconds) (Some version) (dm_Quote m) (dm_Contact m) (dm_Preview m) (dm_Sticker m)
    (dm_RequiredProtocolVersion m) (dm_IsViewOnce m) (dm_Reaction m) (dm_Delete m) (dm_BodyRanges m)
    (dm_GroupCallUpdate m) (dm_Payment m) (dm_StoryContext m) (dm_GiftBadge m) (dm_PollCreate m)
    (dm_PollTerminate m) (dm_PollVote m) (dm_PinMessage m) (dm_UnpinMessage m) (dm_AdminDelete m)
    (dm_Unknown m).
Definition set_GroupV2 (m : DataMessage) (group : bool) : DataMessage :=
  mkData (dm_Body m) (dm_Attachments m) group (dm_Flags m) (dm_ProfileKey m) (dm_Timestamp m)
    (dm_ExpireTimer m) (dm_ExpireTimerVersion m) (dm_Quote m) (dm_Contact m) (dm_Preview m)
    (dm_Sticker m) (dm_RequiredProtocolVersion m) (dm_IsViewOnce m) (dm_Reaction m) (dm_Delete m)
    (dm_BodyRanges m) (dm_GroupCallUpdate m) (dm_Payment m) (dm_StoryContext m) (dm_GiftBadge m)
    (dm_PollCreate m) (dm_PollTerminate m) (dm_PollVote m) (dm_PinMessage m) (dm_UnpinMessage m)
    (dm_AdminDelete m) (dm_Unknown m).
Definition new_data (timestamp : Z) (attachments : list AttachmentPointer) : DataMessage :=
  mkData None attachments false None "" (Some timestamp) None None None false false None None false None None [] false false false false None None None None None false "".
(** A message without any field, which a missing one reads as. *)
Definition zero_data : DataMessage :=
  mkData None [] false None "" None None None None false false None None false None None [] false false false false None None None None None false "".

Record EditMessage := mkEditMessage { em_TargetSentTimestamp : option Z; em_DataMessage : option DataMessage }.

(** What goes out: a data message or an edit. *)
Inductive Content := CData (msg : DataMessage) | CEdit (edit : EditMessage).

(** signalpb's constants and the conversions of UUIDs, with their documented laws. *)
Class SignalPb {U : UuidLib} := {
  pb_REACTIONS : Z; pb_EXPIRATION_TIMER_UPDATE : Z; pb_PROFILE_KEY_UPDATE : Z;
  uuid_bytes : uuid -> string;
  uuid_FromBytes : string -> option uuid;
  ParseStringOrBinaryUUID : string -> string -> option uuid;
}.
Class SignalPbLaws {U : UuidLib} (P : SignalPb) : Prop := {
  FromBytes_bytes (u : uuid) : uuid_FromBytes (uuid_bytes u) = Some u;
  Binary_bytes (u : uuid) : ParseStringOrBinaryUUID "" (uuid_bytes u) = Some u;
  Binary_neither : ParseStringOrBinaryUUID "" "" = None;
}.

Section send.
Context {U : UuidLib} {P : SignalPb}.

(** ** Building a data message *)

(** [aciServiceID]: the ACI messages to a recipient go to. *)
Definition aciServiceID (rcpt : Recipient) : res uuid :=
  if ACI rcpt == ""%string then Err (errorf ErrUnresolvable)
  else match uuid_parse (ACI rcpt) with Some aci => Ok aci | None => Err (errorf ErrUnresolvable) end.

Definition aciBytes (rcpt : Recipient) : res string := id ← aciServiceID rcpt; Ok (uuid_bytes id).

Definition addPin (msg : DataMessage) (req : SendRequest) : res DataMessage :=
  pin ← (match req_Pin req with
         | None => Ok None
         | Some pin =>
             author ← aciBytes (pin_TargetAuthor pin);
             Ok (Some (mkWirePin author (Some (pin_TargetTimestamp pin))
                         (Some (if Forever pin then PinDurationForever true else PinDurationSeconds (DurationSeconds pin)))))
         end);
  unpin ← (match req_Unpin req with
           | None => Ok None
           | Some unpin =>
               author ← aciBytes (unpin_TargetAuthor unpin);
               Ok (Some (mkWireUnpin author (Some (unpin_TargetTimestamp unpin))))
           end);
  Ok (set_Pin msg pin unpin).

Definition pollProtocolVersion : Z := 8.

Definition addPoll (msg : DataMessage) (req : SendRequest) : res DataMessage :=
  let create := match req_PollCreate req with
                | None => None
                | Some p => Some (mkWirePollCreate (Some (Question p)) (Some (AllowMultiple p)) (Options p))
                end in
  vote ← (match req_PollVote req with
          | None => Ok None
          | Some vote =>
              aci ← aciBytes (vote_TargetAuthor vote);
              Ok (Some (mkWirePollVote aci (Some (vote_TargetTimestamp vote)) (OptionIndexes vote) (Some (VoteCount vote))))
          end);
  let terminate := match req_PollClose req with
                   | None => None
                   | Some p => Some (mkWirePollTerminate (Some (close_TargetTimestamp p)))
                   end in
  Ok (set_Poll msg (match req_PollCreate req with Some _ => Some pollProtocolVersion | None => dm_RequiredProtocolVersion msg end)
        create vote terminate).

Definition addSticker (msg : DataMessage) (sticker : option OutgoingSticker) (pointers : list AttachmentPointer) : res DataMessage :=
  match sticker with
  | None => Ok msg
  | Some sticker =>
      match pointers with
      | [pointer] =>
          match hex_DecodeString (ref_PackID (out_Reference sticker)) with
          | None => Err (Sent ErrInvalidSticker)
          | Some packID =>
              Ok (set_Sticker msg (mkWireSticker packID (ref_PackKey (out_Reference sticker))
                    (Some (ref_StickerID (out_Reference sticker))) (Some (out_Emoji sticker)) (Some pointer)))
          end
      | _ => Err (Sent ErrUnknownAttachment)
      end
  end.

Fixpoint mentionBodyRanges (mentions : list Mention) : res (list BodyRange) :=
  match mentions with
  | [] => Ok []
  | m :: rest =>
      aci ← aciBytes (men_Recipient m);
      ranges ← mentionBodyRanges rest;
      Ok (mkBodyRange (Some (men_Start m)) (Some (men_Length m)) (Some (MentionAciBinary aci)) :: ranges)
  end.

(** The style map, with its zero value for a style it does not have. *)
Definition wireStyle (style : Style) : wire_style :=
  match style with
  | StyleBold => WBold | StyleItalic => WItalic | StyleSpoiler => WSpoiler | StyleStrikethrough => WStrikethrough
  | StyleMonospace => WMonospace | StyleOther _ => WNone
  end.

Definition addTextStyles (msg : DataMessage) (styles : list TextStyle) : res DataMessage :=
  if len styles =? 0 then Ok msg
  else match CheckTextStyles (default "" (dm_Body msg)) styles with
       | Some e => Err e
       | None =>
           Ok (set_BodyRanges msg (dm_BodyRanges msg ++
             ((fun s => mkBodyRange (Some (sty_Start s)) (Some (sty_Length s)) (Some (RangeStyle (wireStyle (sty_Style s))))) <$> styles)))
       end.

Definition addReactionOrDelete (msg : DataMessage) (req : SendRequest) : res DataMessage :=
  let msg := if negb (req_DeleteTarget req =? 0) then set_Delete msg (mkWireDelete (Some (req_DeleteTarget req))) else msg in
  match req_Reaction req with
  | None => Ok msg
  | Some reaction =>
      aci ← aciBytes (rea_TargetAuthor reaction);
      Ok (set_Reaction msg pb_REACTIONS (mkWireReaction (Some (rea_Emoji reaction)) (Some (rea_Remove reaction)) None aci
            (Some (rea_TargetTimestamp reaction))))
  end.

(** The quote of [dataMessage]. *)
Definition addQuote (msg : DataMessage) (quote : option Quote) : res DataMessage :=
  match quote with
  | None => Ok msg
  | Some quote =>
      aci ← aciBytes (quo_Author quote);
      ranges ← mentionBodyRanges (quo_Mentions quote);
      Ok (set_Quote msg (mkWireQuote (Some (quo_Timestamp quote)) None aci
            (if quo_Text quote != ""%string then Some (quo_Text quote) else None) ranges true))
  end.

Definition dataMessage (req : SendRequest) (attachments : list AttachmentPointer) (profileKey : string) : res DataMessage :=
  let msg := new_data (req_Timestamp req) attachments in
  msg ← addPin msg req;
  msg ← addPoll msg req;
  msg ← addSticker msg (req_Sticker req) attachments;
  let msg := set_Text msg (if req_Body req != ""%string then Some (req_Body req) else None) profileKey in
  ranges ← mentionBodyRanges (req_Mentions req);
  msg ← addTextStyles (set_BodyRanges msg ranges) (req_Styles req);
  msg ← addReactionOrDelete msg req;
  addQuote msg (req_Quote req).

Definition wrapOutgoing (msg : DataMessage) (editTarget : Z) : Content :=
  if negb (editTarget =? 0) then CEdit (mkEditMessage (Some editTarget) (Some msg)) else CData msg.
End send.
