(* ===== verification/InboxStore.v ===== *)
(** * The inbox table (internal/store/inbox.go)

    The table [gosignal_inbox] as its rows in ascending order of the ID, with the
    [AUTOINCREMENT] sequence; the SQL statements of the file as functions on it. What a
    statement does on a healthy database is modelled, not a failing disk or connection. *)

From S2P Require Import Prelude Errors Types.

Record InboxRecord := mkInboxRecord {
  rec_ID : Z; rec_ReceivedAt : time; rec_Time : time; rec_Chat : string; rec_Sender : string;
  rec_Timestamp : Z; rec_Unread : bool; rec_Event : string }.

(** Zero fields don't filter. *)
Record InboxFilter := mkInboxFilter {
  fil_After : Z; fil_Until : Z; fil_Chat : string; fil_Since : time; fil_Unread : bool;
  fil_Limit : Z; fil_Newest : bool }.

Record InboxChatRecord := mkInboxChatRecord {
  icr_Chat : string; icr_Entries : Z; icr_Unread : Z; icr_Last : InboxRecord }.

Record InboxMark := mkInboxMark { im_Sender : string; im_Timestamp : Z }.

(** A row: the times in milliseconds, the timestamp as a signed integer. *)
Record row := mkRow {
  row_id : Z; row_received_at : Z; row_time : Z; row_chat : string; row_sender : string;
  row_timestamp : Z; row_unread : bool; row_event : string }.

#[export] Instance row_eq_dec : EqDecision row.
Proof. solve_decision. Defined.

Record table := mkTable { tbl_seq : Z; tbl_rows : list row }.

Definition empty_table : table := mkTable 0 [].

(** [timestampArg]: SQLite's integers are signed. *)
Definition timestampArg (ts : Z) : Z := Z.min ts MaxInt64.

(** [AddInboxRecord]: the new ID follows every ID the table ever had. *)
Definition AddInboxRecord (rec : InboxRecord) (t : table) : res Z * table :=
  if MaxInt64 <=? tbl_seq t then (Err (Wrap [Opaque "SQLITE_FULL"]), t)
  else
    let id := tbl_seq t + 1 in
    let r := mkRow id (UnixMilli (rec_ReceivedAt rec)) (UnixMilli (rec_Time rec)) (rec_Chat rec)
               (rec_Sender rec) (timestampArg (rec_Timestamp rec)) (rec_Unread rec) (rec_Event rec) in
    (Ok id, mkTable id (tbl_rows t ++ [r])).

Definition scanInboxRecord (r : row) : InboxRecord :=
  mkInboxRecord (row_id r) (of_UnixMilli (row_received_at r)) (of_UnixMilli (row_time r)) (row_chat r)
    (row_sender r) (Z.max (row_timestamp r) 0) (row_unread r) (row_event r).

(** [InboxFilter.where]: the conditions of the fields that are set. *)
Inductive condition :=
  | IdAfter (n : Z) | IdUntil (n : Z) | ChatIs (chat : string) | TimeFrom (ms : Z) | UnreadIs (b : bool).

Definition holds (c : condition) (r : row) : bool :=
  match c with
  | IdAfter n => n <? row_id r
  | IdUntil n => row_id r <=? n
  | ChatIs chat => row_chat r == chat
  | TimeFrom ms => ms <=? row_time r
  | UnreadIs b => row_unread r == b
  end.

Definition where_ (f : InboxFilter) : list condition :=
  (if 0 <? fil_After f then [IdAfter (fil_After f)] else [])
  ++ (if 0 <? fil_Until f then [IdUntil (fil_Until f)] else [])
  ++ (if fil_Chat f != ""%string then [ChatIs (fil_Chat f)] else [])
  ++ (if negb (IsZeroTime (fil_Since f)) then [TimeFrom (UnixMilli (fil_Since f))] else [])
  ++ (if fil_Unread f then [UnreadIs true] else []).

(** [InboxRecords]: [ORDER BY id], with [DESC] for the newest, then [LIMIT]; the newest are
    reversed afterwards. *)
Definition InboxRecords (f : InboxFilter) (t : table) : list InboxRecord :=
  let rows := filter (fun r => forallb (fun c => holds c r) (where_ f) = true) (tbl_rows t) in
  let ordered := if fil_Newest f then reverse rows else rows in
  let limited := if 0 <? fil_Limit f then take (Z.to_nat (fil_Limit f)) ordered else ordered in
  let recs := scanInboxRecord <$> limited in
  if fil_Newest f then reverse recs else recs.

(** [InboxChats]: [GROUP BY chat], joined with the newest row of each chat. *)
Definition unread_sum (rows : list row) : Z := len (filter (fun r => row_unread r = true) rows).
Definition max_id (rows : list row) : Z := foldr (fun r m => Z.max (row_id r) m) 0 rows.

Definition chat_group (rows : list row) (chat : string) : option InboxChatRecord :=
  let rs := filter (fun r => row_chat r = chat) rows in
  last ← find (fun r => row_id r =? max_id rs) rows;
  Some (mkInboxChatRecord chat (len rs) (unread_sum rs) (scanInboxRecord last)).

Definition InboxChats (t : table) : list InboxChatRecord :=
  let chats := dedup_by id (row_chat <$> filter (fun r => row_chat r <> ""%string) (tbl_rows t)) in
  sort_by (fun a b => rec_ID (icr_Last b) <=? rec_ID (icr_Last a)) (omap (chat_group (tbl_rows t)) chats).

(** [MarkInboxRead]: one [UPDATE] per mark; the result counts the rows that were unread. *)
Definition marks_row (m : InboxMark) (r : row) : bool :=
  row_unread r && (row_sender r == im_Sender m) && (row_timestamp r =? timestampArg (im_Timestamp m)).

Definition set_read (r : row) : row :=
  mkRow (row_id r) (row_received_at r) (row_time r) (row_chat r) (row_sender r) (row_timestamp r) false (row_event r).

Definition mark_one (m : InboxMark) (rows : list row) : Z * list row :=
  (len (filter (fun r => marks_row m r = true) rows), (fun r => if marks_row m r then set_read r else r) <$> rows).

Fixpoint mark_rows (marks : list InboxMark) (rows : list row) : Z * list row :=
  match marks with
  | [] => (0, rows)
  | m :: rest =>
      let (n, rows) := mark_one m rows in
      let (k, rows) := mark_rows rest rows in
      (n + k, rows)
  end.

Definition MarkInboxRead (marks : list InboxMark) (t : table) : Z * table :=
  let (n, rows) := mark_rows marks (tbl_rows t) in (n, mkTable (tbl_seq t) rows).

(** [PruneInbox]: by age, then by count. The subquery of the second statement is NULL, which
    compares with nothing, when there is no row at the offset. *)
Definition delete_where (p : row -> bool) (rows : list row) : Z * list row :=
  (len (filter (fun r => p r = true) rows), filter (fun r => p r = false) rows).

Definition PruneInbox (before : time) (keep : Z) (t : table) : Z * table :=
  let (n, rows) :=
    if negb (IsZeroTime before) then delete_where (fun r => row_received_at r <? UnixMilli before) (tbl_rows t)
    else (0, tbl_rows t) in
  let (k, rows) :=
    if 0 <? keep then
      match reverse rows !! Z.to_nat keep with
      | Some r => delete_where (fun r' => row_id r' <=? row_id r) rows
      | None => (0, rows)
      end
    else (0, rows) in
  (n + k, mkTable (tbl_seq t) rows).

(** ** The invariant *)

Notation ids rows := (row_id <$> rows).

Definition increasing (l : list Z) : Prop := StronglySorted Z.lt l.

Definition table_ok (t : table) : Prop :=
  increasing (ids (tbl_rows t)) /\ (forall r, r ∈ tbl_rows t -> 1 <= row_id r <= tbl_seq t)
  /\ 0 <= tbl_seq t <= MaxInt64.

Lemma increasing_app l k :
  increasing (l ++ k) <-> increasing l /\ increasing k /\ forall x y, x ∈ l -> y ∈ k -> x < y.
Proof.
  unfold increasing. rewrite StronglySorted_app. tauto.
Qed.

Lemma sublist_fmap_filter {A B} (f : A -> B) (P : A -> Prop) `{!forall x, Decision (P x)} l :
  f <$> filter P l `sublist_of` f <$> l.
Proof. apply fmap_sublist, sublist_filter. Qed.

Lemma increasing_sublist l k : l `sublist_of` k -> increasing k -> increasing l.
Proof.
  unfold increasing. induction 1 as [|x l k Hs IH|x l k Hs IH]; intros H; [done|..];
    inversion H as [|? ? Hk Hall]; subst.
  - constructor; [auto|]. rewrite Forall_forall in *. intros y Hy. apply Hall. by eapply elem_of_sublist.
  - auto.
Qed.

Lemma increasing_NoDup l : increasing l -> NoDup l.
Proof.
  unfold increasing. induction 1 as [|x l Hs IH Hall]; constructor; [|done].
  intros Hx. rewrite Forall_forall in Hall. apply Hall in Hx. lia.
Qed.

Lemma increasing_row_unique rows r r' :
  increasing (ids rows) -> r ∈ rows -> r' ∈ rows -> row_id r = row_id r' -> r = r'.
Proof.
  intros H%increasing_NoDup (i & Hi)%list_elem_of_lookup (j & Hj)%list_elem_of_lookup E.
  assert (i = j) as ->; [|congruence].
  eapply (NoDup_lookup (ids rows)); [done|rewrite list_lookup_fmap, Hi; done|].
  rewrite list_lookup_fmap, Hj. cbn. by rewrite E.
Qed.

Lemma empty_table_ok : table_ok empty_table.
Proof.
  split; [apply SSorted_nil|]. split; [by intros r ?%elem_of_nil|]. cbn. unfold MaxInt64. lia.
Qed.

Lemma AddInboxRecord_Ok rec t id t' :
  AddInboxRecord rec t = (Ok id, t') ->
  tbl_seq t < MaxInt64 /\ id = tbl_seq t + 1 /\ tbl_seq t' = id /\ exists r, tbl_rows t' = tbl_rows t ++ [r] /\ row_id r = id
    /\ row_timestamp r = timestampArg (rec_Timestamp rec)
    /\ scanInboxRecord r = mkInboxRecord id (of_UnixMilli (UnixMilli (rec_ReceivedAt rec)))
         (of_UnixMilli (UnixMilli (rec_Time rec))) (rec_Chat rec) (rec_Sender rec)
         (Z.max (timestampArg (rec_Timestamp rec)) 0) (rec_Unread rec) (rec_Event rec).
Proof.
  unfold AddInboxRecord. destruct (MaxInt64 <=? tbl_seq t) eqn:E; [done|]. bool_hyps. intros [= <- <-].
  split_and!; try done. eexists. split_and!; [done|done|done|done].
Qed.

Lemma AddInboxRecord_ok rec t r t' :
  table_ok t -> AddInboxRecord rec t = (r, t') -> table_ok t'.
Proof.
  intros Hok H. destruct r as [id|e].
  - apply AddInboxRecord_Ok in H as (Hm & -> & Hseq & r & Hrows & Hid & Ht & _). destruct Hok as (Hs & Hr & Hb).
    unfold table_ok. rewrite Hseq, Hrows. split_and!; [| |lia|lia].
    + rewrite fmap_app. apply increasing_app. split_and!; [done|repeat constructor|].
      intros x y (r' & -> & Hr')%list_elem_of_fmap Hy. cbn in Hy. apply list_elem_of_singleton in Hy as ->.
      apply Hr in Hr'. lia.
    + intros r' [Hr'| ->%list_elem_of_singleton]%elem_of_app; [apply Hr in Hr'; lia|].
      lia.
  - unfold AddInboxRecord in H. destruct (MaxInt64 <=? _); by simplify_eq.
Qed.

Lemma mark_one_ids m rows : ids (mark_one m rows).2 = ids rows.
Proof. cbn. rewrite <- list_fmap_compose. apply list_fmap_ext. intros i r _. cbn. by destruct (marks_row m r). Qed.

(** What a list of marks does to one row. *)
Definition marked_by (marks : list InboxMark) (r : row) : bool := existsb (fun m => marks_row m r) marks.

Lemma marks_row_set_read m r : marks_row m (set_read r) = false.
Proof. done. Qed.

Lemma mark_rows_run marks rows :
  mark_rows marks rows
  = (len (filter (fun r => marked_by marks r = true) rows), (fun r => if marked_by marks r then set_read r else r) <$> rows).
Proof.
  revert rows. induction marks as [|m marks IH]; intros rows; cbn [mark_rows].
  - f_equal.
    + unfold marked_by. cbn. induction rows as [|r rows IHr]; [done|]. by rewrite filter_cons.
    + cbn. symmetry. apply list_fmap_id.
  - unfold mark_one. rewrite IH. f_equal.
    + unfold marked_by. cbn [existsb].
      rewrite (len_filter_split (fun r => marks_row m r) (fun r => existsb (fun m => marks_row m r) marks)). f_equal.
      rewrite filter_fmap. unfold len. f_equal. rewrite length_fmap. f_equal. f_equal.
      apply list_filter_iff. intros r. cbv beta. destruct (marks_row m r) eqn:E; cbn; [|done].
      split; [|done]. intros Hx. by apply existsb_exists in Hx as (m' & _ & ?).
    + rewrite <- list_fmap_compose. apply list_fmap_ext. intros i r _. cbn. unfold marked_by. cbn.
      destruct (marks_row m r) eqn:E; cbn; [|done]. by destruct (existsb _ marks).
Qed.

Lemma delete_where_ids p rows : ids (delete_where p rows).2 `sublist_of` ids rows.
Proof. apply sublist_fmap_filter. Qed.

(** The last [n] of a list. *)
Definition lastn {A} (n : nat) (l : list A) : list A := drop (length l - n) l.

Lemma reverse_take_reverse {A} n (l : list A) : reverse (take n (reverse l)) = lastn n l.
Proof. unfold lastn. rewrite take_reverse. by rewrite reverse_involutive. Qed.

(** Deleting up to the row at the offset keeps the last rows. *)
Lemma delete_upto keep rows :
  increasing (ids rows) ->
  match reverse rows !! keep with
  | Some r => filter (fun r' => (row_id r' <=? row_id r) = false) rows
  | None => rows
  end = lastn keep rows.
Proof.
  intros Hs. unfold lastn. destruct (reverse rows !! keep) as [r|] eqn:E.
  - assert (Hlt : (keep < length rows)%nat) by (apply lookup_lt_Some in E; by rewrite length_reverse in E).
    rewrite reverse_lookup in E by done.
    replace (length rows - keep)%nat with (S (length rows - S keep)) by lia.
    rewrite <- (take_drop_middle _ _ _ E) in Hs |- * at 1.
    rewrite fmap_app in Hs. apply increasing_app in Hs as (_ & Hs & Hlow). cbn in Hs.
    inversion Hs as [|? ? _ Hhigh]; subst. rewrite Forall_forall in Hhigh.
    rewrite filter_app, filter_cons, decide_False by (rewrite Z.leb_refl; done).
    rewrite (filter_none _ (take _ _)); cbn [app].
    + apply filter_all. intros x Hx. apply Z.leb_gt, Hhigh. by apply list_elem_of_fmap_2.
    + intros x Hx. rewrite not_false_iff_true. apply Z.leb_le, Z.lt_le_incl, Hlow; [by apply list_elem_of_fmap_2|by left].
  - apply lookup_ge_None in E. rewrite length_reverse in E. by replace (length rows - keep)%nat with 0%nat by lia.
Qed.

(** In an increasing list, what follows the last element of a page is the rest of the list. *)
Lemma page_rest {A} (f : A -> Z) (l : list A) n x :
  increasing (f <$> l) -> last (take n l) = Some x -> filter (fun a => f x < f a) l = drop n l.
Proof.
  intros Hs Hx. rewrite <- (take_drop n l) in Hs |- * at 1. rewrite fmap_app in Hs.
  apply increasing_app in Hs as (Hl & _ & Hlt). apply last_Some in Hx as [l' E]. rewrite E in *.
  rewrite filter_app, filter_none, filter_all; [done| |].
  - intros y Hy. apply Hlt; apply list_elem_of_fmap_2; [|done]. rewrite elem_of_app, list_elem_of_singleton. by right.
  - intros y [Hy| ->%list_elem_of_singleton]%elem_of_app; [|lia]. rewrite fmap_app in Hl.
    apply increasing_app in Hl as (_ & _ & Hl). specialize (Hl (f y) (f x)). intros Hlt'.
    enough (f y < f x) by lia. apply Hl; [by apply list_elem_of_fmap_2|]. cbn. by apply list_elem_of_singleton.
Qed.

(** ** Queries *)

(** What a filter selects, of a record as it is read. *)
Definition selects (f : InboxFilter) (r : InboxRecord) : Prop :=
  (0 < fil_After f -> fil_After f < rec_ID r) /\ (0 < fil_Until f -> rec_ID r <= fil_Until f)
  /\ (fil_Chat f <> ""%string -> rec_Chat r = fil_Chat f)
  /\ (fil_Since f <> zero_time -> UnixMilli (fil_Since f) <= UnixMilli (rec_Time r))
  /\ (fil_Unread f = true -> rec_Unread r = true).

Lemma where_selects f r :
  forallb (fun c => holds c r) (where_ f) = true <-> selects f (scanInboxRecord r).
Proof.
  unfold where_, selects. rewrite !forallb_app, !andb_true_iff, !forallb_guard. cbn.
  rewrite !Z.ltb_lt, Z.leb_le, !negb_true_iff, !bool_decide_eq_false, !bool_decide_eq_true, UnixMilli_of_UnixMilli.
  unfold IsZeroTime. rewrite Z.eqb_neq, Z.leb_le. tauto.
Qed.

Lemma InboxRecords_limit f t :
  let all := scanInboxRecord <$> filter (fun r => forallb (fun c => holds c r) (where_ f) = true) (tbl_rows t) in
  InboxRecords f t
  = if 0 <? fil_Limit f then
      if fil_Newest f then lastn (Z.to_nat (fil_Limit f)) all else take (Z.to_nat (fil_Limit f)) all
    else all.
Proof.
  cbv zeta. unfold InboxRecords. destruct (fil_Newest f), (0 <? fil_Limit f); cbv zeta.
  - by rewrite fmap_take, fmap_reverse, reverse_take_reverse.
  - by rewrite fmap_reverse, reverse_involutive.
  - by rewrite fmap_take.
  - done.
Qed.

Lemma scan_ids (rows : list row) : rec_ID <$> (scanInboxRecord <$> rows) = ids rows.
Proof. by rewrite <- list_fmap_compose. Qed.

(** A query returns the records that the filter selects, from old to new, each once: all of
    them without a limit, else the first [Limit], or the last [Limit] for the newest. *)
Theorem InboxRecords_spec f t :
  table_ok t ->
  increasing (rec_ID <$> InboxRecords f t)
  /\ exists all, (forall rec, rec ∈ all <-> selects f rec /\ exists r, r ∈ tbl_rows t /\ rec = scanInboxRecord r)
       /\ increasing (rec_ID <$> all)
       /\ InboxRecords f t = if 0 <? fil_Limit f then
                               if fil_Newest f then drop (length all - Z.to_nat (fil_Limit f)) all
                               else take (Z.to_nat (fil_Limit f)) all
                             else all.
Proof.
  intros (Hs & _ & _).
  set (all := scanInboxRecord <$> filter (fun r => forallb (fun c => holds c r) (where_ f) = true) (tbl_rows t)).
  assert (Hall : increasing (rec_ID <$> all)).
  { unfold all. rewrite scan_ids. eapply increasing_sublist; [apply sublist_fmap_filter|done]. }
  assert (E := InboxRecords_limit f t). cbv zeta in E. fold all in E. split.
  - rewrite E. eapply increasing_sublist; [|exact Hall]. apply fmap_sublist.
    destruct (0 <? fil_Limit f), (fil_Newest f); [apply drop_sublist|apply take_sublist|done|done].
  - exists all. split_and!; [|done|exact E]. intros rec. unfold all. rewrite list_elem_of_fmap. split.
    + intros (r & -> & [Hw Hr]%list_elem_of_filter). split; [by apply where_selects|by exists r].
    + intros (Hsel & r & Hr & ->). exists r. split; [done|]. apply list_elem_of_filter. split; [by apply where_selects|done].
Qed.

(** Marking messages read: exactly the unread rows of a marked message become read, every
    other row and every other field stays, the result is how many they were, and repeating the
    marks changes nothing. *)
Theorem MarkInboxRead_spec marks t n t' :
  MarkInboxRead marks t = (n, t') ->
  tbl_seq t' = tbl_seq t
  /\ tbl_rows t' = (fun r => if marked_by marks r then set_read r else r) <$> tbl_rows t
  /\ n = len (filter (fun r => marked_by marks r = true) (tbl_rows t))
  /\ (forall r, marked_by marks r = true <->
        row_unread r = true /\ exists m, m ∈ marks /\ im_Sender m = row_sender r
          /\ Z.min (im_Timestamp m) MaxInt64 = row_timestamp r)
  /\ MarkInboxRead marks t' = (0, t').
Proof.
  unfold MarkInboxRead. rewrite mark_rows_run. intros [= <- <-].
  assert (Hz : forall r, marked_by marks (if marked_by marks r then set_read r else r) = false).
  { intros r. destruct (marked_by marks r) eqn:E; [|done]. unfold marked_by. apply not_true_iff_false.
    by intros (m & _ & ?)%existsb_exists. }
  split_and!; try done.
  - intros r. unfold marked_by. rewrite existsb_exists. unfold marks_row, timestampArg. split.
    + intros (m & Hm%list_elem_of_In & H). bool_hyps. split; [done|]. by exists m.
    + intros (Hu & m & Hm%list_elem_of_In & Hs & Ht). exists m. split; [done|].
      rewrite Hu, bool_decide_eq_true_2 by done. cbn. apply Z.eqb_eq. lia.
  - cbn [tbl_rows tbl_seq]. rewrite mark_rows_run. f_equal.
    + rewrite filter_none; [done|]. intros x (r & -> & _)%list_elem_of_fmap. by rewrite Hz.
    + f_equal. rewrite <- list_fmap_compose. apply list_fmap_ext. intros i r _. cbn. by rewrite Hz.
Qed.

(** The rows that pruning by age keeps. *)
Definition fresh_rows (before : time) (rows : list row) : list row :=
  if IsZeroTime before then rows else filter (fun r => (row_received_at r <? UnixMilli before) = false) rows.

Lemma len_drop_split {A} (n : nat) (l : list A) : len l - len (lastn n l) = len (take (length l - n) l).
Proof. unfold len, lastn. rewrite length_drop, length_take. lia. Qed.

(** Pruning keeps the rows received at or after [before] (all for a zero time), of those the
    newest [keep] (all for zero), in their order and unchanged; the result counts the deleted
    rows, and the sequence of IDs goes on. *)
Theorem PruneInbox_spec before keep t n t' :
  table_ok t -> PruneInbox before keep t = (n, t') ->
  tbl_seq t' = tbl_seq t
  /\ tbl_rows t' = (if 0 <? keep then lastn (Z.to_nat keep) (fresh_rows before (tbl_rows t))
                    else fresh_rows before (tbl_rows t))
  /\ n = len (tbl_rows t) - len (tbl_rows t')
  /\ (forall r, r ∈ tbl_rows t -> r ∉ tbl_rows t' ->
        (before <> zero_time /\ row_received_at r < UnixMilli before)
        \/ (0 < keep /\ len (tbl_rows t') = keep /\ forall r', r' ∈ tbl_rows t' -> row_id r < row_id r')).
Proof.
  intros (Hs & _ & _) H. unfold PruneInbox in H.
  assert (Hage : (if negb (IsZeroTime before) then delete_where (fun r => row_received_at r <? UnixMilli before) (tbl_rows t)
                  else (0, tbl_rows t))
                 = (len (tbl_rows t) - len (fresh_rows before (tbl_rows t)), fresh_rows before (tbl_rows t))).
  { unfold fresh_rows. destruct (IsZeroTime before); cbn; [f_equal; lia|]. unfold delete_where. f_equal.
    pose proof (len_filter_negb (fun r => row_received_at r <? UnixMilli before) (tbl_rows t)) as Hc. cbv beta in Hc. lia. }
  rewrite Hage in H. clear Hage.
  assert (Hf : increasing (ids (fresh_rows before (tbl_rows t)))).
  { eapply increasing_sublist; [|exact Hs]. unfold fresh_rows. destruct (IsZeroTime before); [done|apply sublist_fmap_filter]. }
  set (fresh := fresh_rows before (tbl_rows t)) in *.
  assert (Hold : forall r, r ∈ tbl_rows t -> r ∉ fresh -> before <> zero_time /\ row_received_at r < UnixMilli before).
  { intros r Hr. unfold fresh, fresh_rows, IsZeroTime. destruct (before =? zero_time) eqn:Ez; [done|].
    rewrite list_elem_of_filter. intros Hn. bool_hyps. split; [done|]. apply Z.ltb_lt. apply not_false_iff_true.
    intros Hx. by apply Hn. }
  destruct (0 <? keep) eqn:Hk; bool_hyps.
  - assert (E := delete_upto (Z.to_nat keep) fresh Hf).
    assert (Hrows : n = len (tbl_rows t) - len (lastn (Z.to_nat keep) fresh)
                    /\ t' = mkTable (tbl_seq t) (lastn (Z.to_nat keep) fresh)).
    { destruct (reverse fresh !! Z.to_nat keep) as [r|]; cbn in H; injection H as <- <-; rewrite <- E.
      - split; [|done]. pose proof (len_filter_negb (fun r' => row_id r' <=? row_id r) fresh) as Hc. cbv beta in Hc. lia.
      - split; [lia|done]. }
    destruct Hrows as [-> ->]. cbn [tbl_seq tbl_rows]. split_and!; try done.
    intros r Hr Hn. destruct (decide (r ∈ fresh)) as [Hin|Hout]; [right|left; by apply Hold].
    unfold lastn in *. rewrite <- (take_drop (length fresh - Z.to_nat keep) fresh) in Hin, Hf.
    rewrite fmap_app in Hf. apply increasing_app in Hf as (_ & _ & Hlow).
    apply elem_of_app in Hin as [Hin|]; [|done]. split_and!; [done| |].
    + unfold len. rewrite length_drop. destruct (decide (length fresh <= Z.to_nat keep)%nat) as [Hle|]; [|lia].
      replace (length fresh - Z.to_nat keep)%nat with 0%nat in Hin by lia. by apply elem_of_nil in Hin.
    + intros r' Hr'. apply Hlow; by apply list_elem_of_fmap_2.
  - injection H as <- <-. cbn [tbl_seq tbl_rows]. split_and!; [done|done|lia|]. intros r Hr Hn. left. by apply Hold.
Qed.

(** ** The life of the table *)

(** What the receive loop, the clients and the pruning do to it. *)
Inductive inbox_op :=
  | OpAdd (rec : InboxRecord)
  | OpMark (marks : list InboxMark)
  | OpPrune (before : time) (keep : Z).

(** One operation: the ID it assigned, if any, and the table after it. *)
Definition inbox_step (op : inbox_op) (t : table) : option Z * table :=
  match op with
  | OpAdd rec => let (r, t) := AddInboxRecord rec t in (match r with Ok id => Some id | Err _ => None end, t)
  | OpMark marks => (None, (MarkInboxRead marks t).2)
  | OpPrune before keep => (None, (PruneInbox before keep t).2)
  end.

Fixpoint inbox_run (ops : list inbox_op) (t : table) : list Z * table :=
  match ops with
  | [] => ([], t)
  | op :: rest =>
      let (id, t) := inbox_step op t in
      let (assigned, t) := inbox_run rest t in
      (option_list id ++ assigned, t)
  end.

Lemma MarkInboxRead_ok marks t : table_ok t -> table_ok (MarkInboxRead marks t).2.
Proof.
  intros (Hs & Hr & Hb). unfold MarkInboxRead. rewrite mark_rows_run. cbn [snd]. split_and!; cbn [tbl_rows tbl_seq]; [| |lia|lia].
  - rewrite <- list_fmap_compose. erewrite list_fmap_ext; [exact Hs|]. intros i r _. cbn. by destruct (marked_by marks r).
  - intros r (r0 & -> & H0)%list_elem_of_fmap. apply Hr in H0. by destruct (marked_by marks r0).
Qed.

Lemma delete_where_elem p rows r : r ∈ (delete_where p rows).2 -> r ∈ rows.
Proof. unfold delete_where. cbn. by intros [_ ?]%list_elem_of_filter. Qed.

Lemma PruneInbox_sublist before keep t :
  tbl_rows (PruneInbox before keep t).2 `sublist_of` tbl_rows t /\ tbl_seq (PruneInbox before keep t).2 = tbl_seq t.
Proof.
  unfold PruneInbox, delete_where.
  repeat (case_match; simplify_eq; cbn [snd tbl_rows tbl_seq]); split; try done;
    repeat (etransitivity; [apply sublist_filter|]); done.
Qed.

Lemma sublist_table_ok t t' :
  tbl_rows t' `sublist_of` tbl_rows t -> tbl_seq t' = tbl_seq t -> table_ok t -> table_ok t'.
Proof.
  intros Hsub Hseq (Hs & Hr & Hb). unfold table_ok. rewrite Hseq. split_and!; [| |lia|lia].
  - eapply increasing_sublist; [by apply fmap_sublist|done].
  - intros r H. apply Hr. by eapply elem_of_sublist.
Qed.

Lemma inbox_step_ok op t id t' :
  table_ok t -> inbox_step op t = (id, t') ->
  table_ok t' /\ tbl_seq t <= tbl_seq t' /\ (forall i, id = Some i -> i = tbl_seq t + 1 /\ tbl_seq t' = i).
Proof.
  intros Hok H. destruct op as [rec|marks|before keep]; cbn in H.
  - destruct (AddInboxRecord rec t) as [r t1] eqn:E. injection H as <- <-.
    split; [by eapply AddInboxRecord_ok|]. destruct r as [i|e].
    + apply AddInboxRecord_Ok in E as (_ & -> & -> & _). split; [lia|]. naive_solver.
    + unfold AddInboxRecord in E. destruct (MaxInt64 <=? _); simplify_eq. split; [lia|done].
  - injection H as <- <-. split; [by apply MarkInboxRead_ok|]. unfold MarkInboxRead. destruct (mark_rows _ _). cbn. split; [lia|done].
  - injection H as <- <-. destruct (PruneInbox_sublist before keep t) as [Hsub Hseq].
    split; [by eapply sublist_table_ok|]. rewrite Hseq. split; [lia|done].
Qed.

Lemma inbox_run_seq ops t : table_ok t -> tbl_seq t <= tbl_seq (inbox_run ops t).2.
Proof.
  revert t. induction ops as [|op ops IH]; intros t Hok; cbn; [lia|].
  destruct (inbox_step op t) as [id t1] eqn:E1. destruct (inbox_step_ok op t id t1 Hok E1) as (Hok1 & Hle & _).
  specialize (IH t1 Hok1). destruct (inbox_run ops t1). cbn in *. lia.
Qed.

(** Where the rows of a table come from. *)
Lemma inbox_step_rows op t i :
  i ∈ ids (tbl_rows (inbox_step op t).2) -> i ∈ ids (tbl_rows t) \/ (inbox_step op t).1 = Some i.
Proof.
  destruct op as [rec|marks|before keep]; cbn.
  - destruct (AddInboxRecord rec t) as [[id|e] t1] eqn:E; cbn.
    + apply AddInboxRecord_Ok in E as (_ & _ & _ & r & -> & Hr & _). rewrite fmap_app, elem_of_app. cbn.
      rewrite list_elem_of_singleton, Hr. naive_solver.
    + unfold AddInboxRecord in E. destruct (MaxInt64 <=? _); simplify_eq. by left.
  - unfold MarkInboxRead. rewrite mark_rows_run. cbn. rewrite <- list_fmap_compose.
    intros (r & -> & Hr)%list_elem_of_fmap. left. cbn. replace (row_id _) with (row_id r) by by destruct (marked_by marks r).
    by apply list_elem_of_fmap_2.
  - intros Hi. left. eapply elem_of_sublist; [exact Hi|]. apply fmap_sublist, PruneInbox_sublist.
Qed.

(** Whatever is added, marked and pruned in whatever order, the IDs that adding assigns grow
    strictly: each is greater than every ID assigned before, also of entries deleted since, so
    an ID works as a cursor; and the rows stay in that order. *)
Theorem inbox_run_spec ops t assigned t' :
  table_ok t -> inbox_run ops t = (assigned, t') ->
  table_ok t' /\ increasing assigned /\ (forall i, i ∈ assigned -> tbl_seq t < i <= tbl_seq t')
  /\ forall r, r ∈ ids (tbl_rows t') -> r ∈ ids (tbl_rows t) \/ r ∈ assigned.
Proof.
  revert t assigned. induction ops as [|op ops IH]; intros t assigned Hok H; cbn in H.
  - injection H as <- <-. split_and!; [done|constructor|by intros i ?%elem_of_nil|by left].
  - destruct (inbox_step op t) as [id t1] eqn:E1.
    destruct (inbox_run ops t1) as [more t2] eqn:E2. injection H as <- <-.
    destruct (inbox_step_ok op t id t1 Hok E1) as (Hok1 & Hle & Hid).
    destruct (IH t1 more Hok1 E2) as (Hok2 & Hinc & Hb & Hrows).
    split; [done|]. split; [|split].
    + apply increasing_app. split_and!; [destruct id; repeat constructor|done|].
      intros x y Hx Hy. apply Hb in Hy. destruct id as [i|]; [|by apply elem_of_nil in Hx].
      apply list_elem_of_singleton in Hx as ->. destruct (Hid i eq_refl). lia.
    + intros i [Hi|Hi]%elem_of_app; [|apply Hb in Hi; lia].
      destruct id as [j|]; [|by apply elem_of_nil in Hi]. apply list_elem_of_singleton in Hi as ->.
      destruct (Hid j eq_refl). split; [lia|]. destruct more as [|k more].
      * pose proof (inbox_run_seq ops t1 Hok1) as Hq. rewrite E2 in Hq. cbn in Hq. lia.
      * specialize (Hb k). rewrite elem_of_cons in Hb. lia.
    + intros i Hi. rewrite elem_of_app. destruct (Hrows i Hi) as [H1|H1]; [|by right; right].
      pose proof (inbox_step_rows op t i) as Hstep. rewrite E1 in Hstep. cbn in Hstep.
      destruct (Hstep H1) as [H2| ->]; [by left|right; left]. by apply list_elem_of_singleton.
Qed.

(** ** Summaries by chat *)

Lemma max_id_elem rows : rows <> [] -> (forall r, r ∈ rows -> 1 <= row_id r) ->
  exists r, r ∈ rows /\ row_id r = max_id rows.
Proof.
  induction rows as [|r rows IH]; [done|]. intros _ Hp. cbn [max_id foldr].
  destruct (decide (rows = [])) as [->|Hne].
  - exists r. split; [by left|]. cbn. assert (1 <= row_id r) by (apply Hp; by left). lia.
  - destruct IH as (r' & Hr' & E); [done|intros x Hx; apply Hp; by right|]. fold (max_id rows).
    destruct (Z.max_spec (row_id r) (max_id rows)) as [[_ ->]|[_ ->]]; [exists r'|exists r]; split; try done; [by right|by left].
Qed.

Lemma max_id_ge rows r : r ∈ rows -> row_id r <= max_id rows.
Proof. induction 1; cbn; [lia|]. unfold max_id in *. lia. Qed.

Lemma find_unique rows r :
  increasing (ids rows) -> r ∈ rows -> find (fun r' => row_id r' =? row_id r) rows = Some r.
Proof.
  intros Hs Hr. destruct (find _ rows) as [r'|] eqn:E.
  - apply find_some in E as [H1%list_elem_of_In H2%Z.eqb_eq]. f_equal. by eapply increasing_row_unique.
  - exfalso. apply list_elem_of_In in Hr. pose proof (find_none _ _ E r Hr) as H. cbn in H. by rewrite Z.eqb_refl in H.
Qed.

(** The summary of a chat that has rows. *)
Lemma chat_group_Some t chat :
  table_ok t -> chat ∈ row_chat <$> tbl_rows t ->
  exists last, last ∈ tbl_rows t /\ row_chat last = chat
    /\ (forall r, r ∈ tbl_rows t -> row_chat r = chat -> row_id r <= row_id last)
    /\ chat_group (tbl_rows t) chat
       = Some (mkInboxChatRecord chat (len (filter (fun r => row_chat r = chat) (tbl_rows t)))
                 (unread_sum (filter (fun r => row_chat r = chat) (tbl_rows t))) (scanInboxRecord last)).
Proof.
  intros (Hs & Hp & _) (r0 & -> & Hr0)%list_elem_of_fmap. set (rs := filter (fun r => row_chat r = row_chat r0) (tbl_rows t)).
  assert (Hmem : forall r, r ∈ rs <-> row_chat r = row_chat r0 /\ r ∈ tbl_rows t) by (intros r; unfold rs; by rewrite list_elem_of_filter).
  destruct (max_id_elem rs) as (last & Hl & Hmax).
  { intros E. assert (H : r0 ∈ rs) by by apply Hmem. rewrite E in H. by apply elem_of_nil in H. }
  { intros r [_ Hr]%Hmem. apply Hp in Hr. lia. }
  exists last. apply Hmem in Hl as [Hc Hin]. split_and!; [done|done| |].
  - intros r Hr Hrc. rewrite Hmax. apply max_id_ge. by apply Hmem.
  - unfold chat_group. fold rs. rewrite <- Hmax. by rewrite (find_unique _ last).
Qed.

(** The summary by chat: every chat with a row, and only those with a key, appear once, the one
    with the newest row first; the counts are those of the chat's rows and unread rows, and
    the last entry is the chat's row with the greatest ID. *)
Theorem InboxChats_spec t :
  table_ok t ->
  NoDup (icr_Chat <$> InboxChats t)
  /\ (forall c, c ∈ icr_Chat <$> InboxChats t <-> c <> ""%string /\ c ∈ row_chat <$> tbl_rows t)
  /\ Sorted (fun a b => rec_ID (icr_Last b) <= rec_ID (icr_Last a)) (InboxChats t)
  /\ forall c, c ∈ InboxChats t ->
       let rs := filter (fun r => row_chat r = icr_Chat c) (tbl_rows t) in
       icr_Entries c = len rs /\ icr_Unread c = len (filter (fun r => row_unread r = true) rs)
       /\ exists last, last ∈ rs /\ icr_Last c = scanInboxRecord last /\ forall r, r ∈ rs -> row_id r <= row_id last.
Proof.
  intros Hok. unfold InboxChats. set (chats := dedup_by id _).
  assert (Hc : forall c, c ∈ chats <-> c <> ""%string /\ c ∈ row_chat <$> tbl_rows t).
  { intros c. unfold chats. pose proof (dedup_by_keys (@id string) (row_chat <$> filter (fun r => row_chat r <> ""%string) (tbl_rows t)) c) as H.
    rewrite !list_fmap_id in H. rewrite H, !list_elem_of_fmap. setoid_rewrite list_elem_of_filter. naive_solver. }
  assert (Hnd : NoDup chats).
  { pose proof (dedup_by_NoDup (@id string) (row_chat <$> filter (fun r => row_chat r <> ""%string) (tbl_rows t))) as H.
    by rewrite list_fmap_id in H. }
  set (P := fun (c : string) (s : InboxChatRecord) => icr_Chat s = c /\
    let rs := filter (fun r => row_chat r = icr_Chat s) (tbl_rows t) in
       icr_Entries s = len rs /\ icr_Unread s = len (filter (fun r => row_unread r = true) rs)
       /\ exists last, last ∈ rs /\ icr_Last s = scanInboxRecord last /\ forall r, r ∈ rs -> row_id r <= row_id last).
  assert (H2 : Forall2 P chats (omap (chat_group (tbl_rows t)) chats)).
  { apply omap_all_some. intros c [_ Hin]%Hc. destruct (chat_group_Some t c Hok Hin) as (last & Hl & Hlc & Hmax & E).
    eexists. split; [exact E|]. unfold P. cbn. split_and!; try done. exists last. split_and!; [by apply list_elem_of_filter|done|].
    intros r [H1 H2]%list_elem_of_filter. by apply Hmax. }
  set (l := omap _ chats) in *. set (leb := fun a b : InboxChatRecord => _).
  assert (Hl : icr_Chat <$> l = chats).
  { clear -H2. induction H2 as [|c s cs ss [Hcs _] _ IH]; [done|]. cbn. by rewrite Hcs, IH. }
  assert (Hperm : icr_Chat <$> sort_by leb l ≡ₚ chats) by (rewrite <- Hl; apply fmap_Permutation, sort_by_perm).
  split_and!.
  - by rewrite Hperm.
  - intros c. by rewrite Hperm.
  - eapply Sorted_weaken; [|apply (sort_by_sorted leb)]; unfold leb; intros a b; rewrite ?Z.leb_le, ?Z.leb_gt; lia.
  - intros c Hin. rewrite sort_by_perm in Hin. apply list_elem_of_lookup in Hin as [i Hi].
    destruct (Forall2_lookup_r _ _ _ _ _ H2 Hi) as (k & _ & _ & H). exact H.
Qed.

(** ** Witnesses *)

Section witnesses.
Definition demo_record (chat sender : string) (ts at_ : Z) (unread : bool) : InboxRecord :=
  mkInboxRecord 0 (of_UnixMilli at_) (of_UnixMilli at_) chat sender ts unread "{}".

(** Two unread messages of a chat and one event without a chat. *)
Definition demo_table : table :=
  (AddInboxRecord (demo_record "a" "a" 12 30 true)
    (AddInboxRecord (demo_record "" "" 0 20 false)
      (AddInboxRecord (demo_record "a" "a" 11 10 true) empty_table).2).2).2.

Lemma demo_table_ok : table_ok demo_table.
Proof. unfold demo_table. do 3 (eapply AddInboxRecord_ok; [|apply surjective_pairing]). apply empty_table_ok. Defined.

Definition demo_filter : InboxFilter := mkInboxFilter 1 0 "a" zero_time true 1 true.

Lemma InboxRecords_spec_witness :
  table_ok demo_table /\ (rec_ID <$> InboxRecords demo_filter demo_table) = [3]
  /\ increasing (rec_ID <$> InboxRecords demo_filter demo_table).
Proof.
  split; [exact demo_table_ok|]. split; [vm_compute; reflexivity|].
  exact (proj1 (InboxRecords_spec demo_filter demo_table demo_table_ok)).
Defined.

Lemma MarkInboxRead_spec_witness :
  exists t', MarkInboxRead [mkInboxMark "a" 11; mkInboxMark "a" 11] demo_table = (1, t')
    /\ MarkInboxRead [mkInboxMark "a" 11; mkInboxMark "a" 11] t' = (0, t').
Proof.
  eassert (H : MarkInboxRead [mkInboxMark "a" 11; mkInboxMark "a" 11] demo_table = (1, _)) by (vm_compute; reflexivity).
  eexists. split; [exact H|]. apply (MarkInboxRead_spec _ _ _ _ H).
Defined.

Lemma PruneInbox_spec_witness :
  exists t', table_ok demo_table /\ PruneInbox (of_UnixMilli 20) 1 demo_table = (2, t') /\ tbl_seq t' = 3.
Proof.
  eassert (H : PruneInbox (of_UnixMilli 20) 1 demo_table = (2, _)) by (vm_compute; reflexivity).
  eexists. split; [exact demo_table_ok|]. split; [exact H|].
  exact (proj1 (PruneInbox_spec _ _ _ _ _ demo_table_ok H)).
Defined.

(** Adding after everything was pruned goes on with the next ID. *)
Definition demo_ops : list inbox_op :=
  [OpAdd (demo_record "a" "a" 11 10 true); OpMark [mkInboxMark "a" 11]; OpPrune (of_UnixMilli 40) 0;
   OpAdd (demo_record "b" "b" 12 50 true)].

Lemma inbox_run_spec_witness :
  exists t', table_ok empty_table /\ inbox_run demo_ops empty_table = ([1; 2], t') /\ increasing [1; 2] /\ table_ok t'.
Proof.
  eassert (H : inbox_run demo_ops empty_table = ([1; 2], _)) by (vm_compute; reflexivity).
  destruct (inbox_run_spec demo_ops empty_table _ _ empty_table_ok H) as (H1 & H2 & _).
  eexists. split; [exact empty_table_ok|]. split; [exact H|]. exact (conj H2 H1).
Defined.

Lemma InboxChats_spec_witness :
  table_ok demo_table /\ (icr_Entries <$> InboxChats demo_table) = [2] /\ NoDup (icr_Chat <$> InboxChats demo_table).
Proof.
  split; [exact demo_table_ok|]. split; [vm_compute; reflexivity|]. exact (proj1 (InboxChats_spec demo_table demo_table_ok)).
Defined.
End witnesses.
