(* ===== verification/InboxEvents.v ===== *)
(** * Stored events (internal/signal/inbox.go)

    How the inbox encodes an event: a type name, the event as JSON and its chat. [encoding/json]
    and the text of an error are a class, [Encoding], with the operations the code calls; the
    switches between them are the code's. *)

From S2P Require Import Prelude Errors Types.

(** The dynamic type of an [Event]. *)
Inductive event_type :=
  | TMessage | TStory | TEdit | TDelete | TReaction | TTyping | TReceipt | TReadSync | TUnsupported
  | TDecryptionFailure | TIdentityChanged | TQueueEmpty | TConnection | TPollVote | TPollClose | TPin | TUnpin.

#[export] Instance event_type_eq_dec : EqDecision event_type.
Proof. solve_decision. Defined.

Definition type_of (evt : Event) : event_type :=
  match evt with
  | EvMessage _ _ => TMessage | EvStory _ _ _ _ _ => TStory | EvEdit _ _ _ _ => TEdit
  | EvDelete _ _ => TDelete | EvReaction _ _ _ _ _ => TReaction | EvTyping _ _ => TTyping
  | EvReceipt _ _ _ => TReceipt | EvReadSync _ _ => TReadSync | EvUnsupported _ _ => TUnsupported
  | EvDecryptionFailure _ _ _ => TDecryptionFailure | EvIdentityChanged _ _ _ _ => TIdentityChanged
  | EvQueueEmpty => TQueueEmpty | EvConnection _ _ => TConnection | EvPollVote _ _ => TPollVote
  | EvPollClose _ _ => TPollClose | EvPin _ _ => TPin | EvUnpin _ _ => TUnpin
  end.

Record storedEvent := mkStoredEvent { se_Type : string; se_Event : string; se_Chat : Chat }.
Record storedFailure := mkStoredFailure { sf_Sender : Recipient; sf_Timestamp : Z; sf_Err : string }.

(** [json.Marshal] and [json.Unmarshal] at the types the code uses them at ([None] for an error);
    [json_decode ty] unmarshals into a new struct of the event type. [err_text] is [Error()]. *)
Class Encoding := {
  json_event : Event -> option string;
  json_failure : storedFailure -> option string;
  json_stored : storedEvent -> option string;
  json_decode : event_type -> string -> option Event;
  json_decode_failure : string -> option storedFailure;
  json_decode_stored : string -> option storedEvent;
  err_text : err -> string;
}.

Definition storedPin : string := "pin".
Definition storedUnpin : string := "unpin".
Definition storedMessage : string := "message".
Definition storedStory : string := "story".
Definition storedEdit : string := "edit".
Definition storedDelete : string := "delete".
Definition storedReaction : string := "reaction".
Definition storedTyping : string := "typing".
Definition storedReceipt : string := "receipt".
Definition storedReadSync : string := "readSync".
Definition storedUnsupported : string := "unsupported".
Definition storedDecryptionFailure : string := "decryptionFailure".
Definition storedIdentityChanged : string := "identityChanged".

Definition UnreadableEntry : string := "unreadableInboxEntry".

(** The type names of [marshalEvent]'s switch; the default case fails. *)
Definition stored_type (ty : event_type) : option string :=
  match ty with
  | TPin => Some storedPin
  | TUnpin => Some storedUnpin
  | TPollVote => Some "pollVote"%string
  | TPollClose => Some "pollClose"%string
  | TStory => Some storedStory
  | TMessage => Some storedMessage
  | TEdit => Some storedEdit
  | TDelete => Some storedDelete
  | TReaction => Some storedReaction
  | TTyping => Some storedTyping
  | TReceipt => Some storedReceipt
  | TReadSync => Some storedReadSync
  | TUnsupported => Some storedUnsupported
  | TDecryptionFailure => Some storedDecryptionFailure
  | TIdentityChanged => Some storedIdentityChanged
  | TConnection | TQueueEmpty => None
  end.

(** The zero [Envelope]. *)
Definition zeroEnvelope : Envelope := mkEnvelope zeroRecipient zeroChat 0 0 false.
Definition unreadable : Event := EvUnsupported zeroEnvelope UnreadableEntry.

Section codec.
Context {J : Encoding}.

Definition errText (e : error) : string := match e with None => ""%string | Some e => err_text e end.

Definition encode_error : err := Wrap [Opaque "json"].

Definition marshalEvent (evt : Event) (chat : Chat) : res string :=
  match stored_type (type_of evt) with
  | None => Err (errorf ErrNotStorable)
  | Some typ =>
      let payload :=
        match evt with
        | EvDecryptionFailure sender timestamp cause => json_failure (mkStoredFailure sender timestamp (errText cause))
        | _ => json_event evt
        end in
      match payload with
      | None => Err encode_error
      | Some raw =>
          match json_stored (mkStoredEvent typ raw chat) with
          | None => Err encode_error
          | Some out => Ok out
          end
      end
  end.

(** The event that the stored type names: the switch of [decodeEvent]. *)
Definition decode_type (typ : string) : option event_type :=
  if typ == storedPin then Some TPin
  else if typ == storedUnpin then Some TUnpin
  else if typ == "pollVote"%string then Some TPollVote
  else if typ == "pollClose"%string then Some TPollClose
  else if typ == storedStory then Some TStory
  else if typ == storedMessage then Some TMessage
  else if typ == storedEdit then Some TEdit
  else if typ == storedDelete then Some TDelete
  else if typ == storedReaction then Some TReaction
  else if typ == storedTyping then Some TTyping
  else if typ == storedReceipt then Some TReceipt
  else if typ == storedReadSync then Some TReadSync
  else if typ == storedUnsupported then Some TUnsupported
  else if typ == storedIdentityChanged then Some TIdentityChanged
  else if typ == storedDecryptionFailure then Some TDecryptionFailure
  else None.

Definition decodeEvent (stored : storedEvent) : res Event :=
  match decode_type (se_Type stored) with
  | None => Err (errorf ErrNotStorable)
  | Some TDecryptionFailure =>
      match json_decode_failure (se_Event stored) with
      | None => Err encode_error
      | Some failure =>
          Ok (EvDecryptionFailure (sf_Sender failure) (sf_Timestamp failure)
                (if sf_Err failure != ""%string then Some (Opaque (sf_Err failure)) else None))
      end
  | Some ty =>
      match json_decode ty (se_Event stored) with
      | None => Err encode_error
      | Some evt => Ok evt
      end
  end.

(** An event that can't be decoded becomes an [Unsupported]. *)
Definition unmarshalEvent (data : string) : Event * Chat :=
  match json_decode_stored data with
  | None => (unreadable, zeroChat)
  | Some stored =>
      match decodeEvent stored with
      | Err _ => (unreadable, se_Chat stored)
      | Ok evt => (evt, se_Chat stored)
      end
  end.

(** ** The round trip *)

(** JSON keeps this event and this chat: [json.Unmarshal] gives back what [json.Marshal] took,
    which holds of values whose strings are valid UTF-8. *)
Definition json_keeps (evt : Event) (chat : Chat) : Prop :=
  (forall raw, json_event evt = Some raw -> json_decode (type_of evt) raw = Some evt)
  /\ (forall sender ts cause raw, evt = EvDecryptionFailure sender ts cause ->
        json_failure (mkStoredFailure sender ts (errText cause)) = Some raw ->
        json_decode_failure raw = Some (mkStoredFailure sender ts (errText cause)))
  /\ (forall typ raw data, json_stored (mkStoredEvent typ raw chat) = Some data ->
        json_decode_stored data = Some (mkStoredEvent typ raw chat)).

(** Only the text of a failure's error is stored. *)
Definition restored (evt : Event) : Event :=
  match evt with
  | EvDecryptionFailure sender ts cause =>
      EvDecryptionFailure sender ts
        (if errText cause != ""%string then Some (Opaque (errText cause)) else None)
  | _ => evt
  end.

Definition storable (evt : Event) : Prop := evt <> EvQueueEmpty /\ forall s e, evt <> EvConnection s e.

Lemma decode_stored_type ty typ : stored_type ty = Some typ -> decode_type typ = Some ty.
Proof. destruct ty; intros [= <-]; vm_compute; reflexivity. Qed.

(** C37. Storing an event and reading it back: whenever encoding succeeds, decoding gives the
    event and its chat again (of a decryption failure's error, its text); encoding fails with
    [ErrNotStorable] for connection changes and the end of the queue, and for no other
    event. *)
Theorem marshalEvent_roundtrip evt chat :
  json_keeps evt chat ->
  match marshalEvent evt chat with
  | Ok data => storable evt /\ unmarshalEvent data = (restored evt, chat)
  | Err e => errIs e ErrNotStorable = true <-> ~ storable evt
  end.
Proof.
  intros (He & Hf & Hs). unfold marshalEvent, storable.
  destruct (stored_type (type_of evt)) as [typ|] eqn:Et.
  - assert (Hst : evt <> EvQueueEmpty /\ forall s e, evt <> EvConnection s e).
    { split; [by intros ->|]. by intros s e ->. }
    apply decode_stored_type in Et as Ed. destruct (match evt with EvDecryptionFailure _ _ _ => _ | _ => _ end) as [raw|] eqn:Er.
    + destruct (json_stored (mkStoredEvent typ raw chat)) as [data|] eqn:Ej; [|by cbn; intuition].
      split; [done|]. unfold unmarshalEvent. rewrite (Hs _ _ _ Ej). cbn [se_Chat].
      unfold decodeEvent. cbn [se_Type se_Event]. rewrite Ed.
      destruct evt; cbn [type_of restored] in *; try (rewrite (He _ Er); done); try done.
      rewrite (Hf _ _ _ _ eq_refl Er). done.
    + by cbn; intuition.
  - split; [|by rewrite errIs_errorf, bool_decide_eq_true_2]. intros _ [Hq Hc].
    destruct evt; try done; by eapply Hc.
Qed.
End codec.

(** ** Witness *)

Section witnesses.
Definition demo_reaction : Event := EvReaction zeroEnvelope "+" false zeroRecipient 5.

(** An encoding that knows one reaction, without a chat. *)
Definition demo_keeping : Encoding := {|
  json_event := fun _ => Some "r"%string;
  json_failure := fun _ => None;
  json_stored := fun s => if (se_Type s == storedReaction) && (se_Event s == "r"%string) && (se_Chat s == zeroChat)
                          then Some "stored"%string else None;
  json_decode := fun _ _ => Some demo_reaction;
  json_decode_failure := fun _ => None;
  json_decode_stored := fun _ => Some (mkStoredEvent storedReaction "r" zeroChat);
  err_text := fun _ => "error"%string |}.

Lemma marshalEvent_roundtrip_witness :
  json_keeps (J:=demo_keeping) demo_reaction zeroChat
  /\ marshalEvent (J:=demo_keeping) demo_reaction zeroChat = Ok "stored"%string
  /\ unmarshalEvent (J:=demo_keeping) "stored" = (demo_reaction, zeroChat).
Proof.
  assert (K : json_keeps (J:=demo_keeping) demo_reaction zeroChat).
  { split; [intros raw H; reflexivity|]. split; [intros; discriminate|].
    intros typ raw data H. cbn in H. destruct (_ && _) eqn:E in H; [|discriminate H]. bool_hyps. cbn in *. subst. reflexivity. }
  split; [exact K|]. split; [vm_compute; reflexivity|].
  exact (proj2 (marshalEvent_roundtrip (J:=demo_keeping) demo_reaction zeroChat K)).
Defined.
End witnesses.
