(* ===== verification/PollStore.v ===== *)
(** * Poll projections (internal/store/poll_projections.go, internal/signal/meow_poll_projection.go)

    The account database keeps the evidence of polls and, for every poll with evidence, its
    reduced state. [ProjectPolls] runs in one transaction: an error leaves the database as it
    was. Go ranges over the changed polls in any order, so the order is an argument. *)

From S2P Require Import Prelude Errors Uuid Utf8 Strconv Types SendCheck PollReduce InboxStore InboxEvents.

Record PollKey := mkPollKey { pk_Chat : string; pk_Author : string; pk_Timestamp : Z }.

#[export] Instance PollKey_eq_dec : EqDecision PollKey.
Proof. solve_decision. Defined.
#[export] Instance PollKey_countable : Countable PollKey.
Proof.
  refine (inj_countable' (fun k => (pk_Chat k, pk_Author k, pk_Timestamp k))
            (fun x => mkPollKey x.1.1 x.1.2 x.2) _). by intros [].
Defined.

Record PollObservation := mkPollObservation { po_Key : PollKey; po_Hash : string; po_Event : string }.

(** The key columns: the timestamp is exact unsigned text. *)
Notation columns := (string * string * string)%type.
Definition key_columns (k : PollKey) : columns := (pk_Chat k, pk_Author k, FormatUint (pk_Timestamp k)).

(** A row of [gosignal_poll_evidence]; the rows are in the order of their IDs. *)
Record evidence_row := mkEvidence { ev_key : columns; ev_hash : string; ev_event : string }.

(** The account database as far as polls and the inbox go; [db_seeded] is the Meta entry
    "poll-projections-seeded". *)
Record polldb := mkPollDB {
  db_inbox : table; db_seeded : bool; db_evidence : list evidence_row; db_projections : gmap columns string }.

Definition pollSeedBatchSize : Z := 1000.

Section project.
(** The two callbacks and the order of the [range] over the changed polls. *)
Context (seed : InboxRecord -> res (option PollObservation)) (reduce : PollKey -> list string -> res string)
        (order : gset PollKey -> list PollKey).

Notation M := (io polldb err).

Definition db_get : M polldb := fun db => (Ok db, db).
Definition db_put (db : polldb) : M unit := fun _ => (Ok tt, db).

Definition same_evidence (o : PollObservation) (r : evidence_row) : bool :=
  (ev_key r == key_columns (po_Key o)) && (ev_hash r == po_Hash o).

(** [addPollEvidence]: the polls whose evidence changed so far, with this one if it is new. *)
Definition addPollEvidence (o : PollObservation) (changed : gset PollKey) : M (gset PollKey) :=
  let* db := db_get in
  if existsb (same_evidence o) (db_evidence db) then io_ret changed
  else
    let* _ := db_put (mkPollDB (db_inbox db) (db_seeded db)
               (db_evidence db ++ [mkEvidence (key_columns (po_Key o)) (po_Hash o) (po_Event o)]) (db_projections db)) in
    io_ret ({[po_Key o]} ∪ changed).

Fixpoint seed_records (recs : list InboxRecord) (changed : gset PollKey) : M (gset PollKey) :=
  match recs with
  | [] => io_ret changed
  | rec :: rest =>
      match seed rec with
      | Err e => io_err (Wrap [e])
      | Ok observation =>
          let* changed := match observation with
                          | Some o => addPollEvidence o changed
                          | None => io_ret changed
                          end in
          seed_records rest changed
      end
  end.

Definition seed_filter (after : Z) : InboxFilter :=
  mkInboxFilter after 0 "" zero_time false pollSeedBatchSize false.

(** The loop of [seedPolls]; the fuel bounds the number of batches. *)
Fixpoint seed_batches (fuel : nat) (after : Z) (changed : gset PollKey) : M (gset PollKey) :=
  match fuel with
  | O => io_err (Opaque "out of fuel")
  | S fuel =>
      let* db := db_get in
      let records := InboxRecords (seed_filter after) (db_inbox db) in
      match last records with
      | None => io_ret changed
      | Some rec => let* changed := seed_records records changed in seed_batches fuel (rec_ID rec) changed
      end
  end.

Definition seedPolls (changed : gset PollKey) : M (gset PollKey) :=
  let* db := db_get in seed_batches (S (length (tbl_rows (db_inbox db)))) 0 changed.

Definition evidence_for (key : PollKey) (rows : list evidence_row) : list string :=
  ev_event <$> filter (fun r => ev_key r = key_columns key) rows.

Definition reducePoll (key : PollKey) : M unit :=
  let* db := db_get in
  match reduce key (evidence_for key (db_evidence db)) with
  | Err e => io_err (Wrap [e])
  | Ok state => db_put (mkPollDB (db_inbox db) (db_seeded db) (db_evidence db)
                   (<[key_columns key := state]> (db_projections db)))
  end.

Fixpoint reduce_all (keys : list PollKey) : M unit :=
  match keys with
  | [] => io_ret tt
  | key :: rest => let* _ := reducePoll key in reduce_all rest
  end.

Definition set_seeded : M unit :=
  let* db := db_get in db_put (mkPollDB (db_inbox db) true (db_evidence db) (db_projections db)).

Definition project_body (next : option PollObservation) : M unit :=
  let* db := db_get in
  let* changed := (if db_seeded db then io_ret ∅
                   else let* changed := seedPolls ∅ in let* _ := set_seeded in io_ret changed) in
  let* changed := match next with Some o => addPollEvidence o changed | None => io_ret changed end in
  reduce_all (order changed).

(** [DoTxn] rolls back on an error. *)
Definition ProjectPolls (next : option PollObservation) : M unit := fun db =>
  match project_body next db with
  | (Ok _, db') => (Ok tt, db')
  | (Err e, _) => (Err (Wrap [e]), db)
  end.

Definition PollProjectionRecord (key : PollKey) (db : polldb) : option string := db_projections db !! key_columns key.
End project.

(** ** The client's callbacks *)

(** The state as it is stored: with its source and the number of observations. *)
Record durable_state := mkDurable { ds_State : PollState; ds_Source : string; ds_Observations : Z }.

(** [encoding/json] at [PollState], [crypto/sha256] in hexadecimal, [fmt]'s [%q]. *)
Class PollEncoding := {
  json_state : durable_state -> option string;
  json_decode_state : durable_state -> string -> option durable_state;
  sha256_hex : string -> string;
  quote_poll : string -> list string -> string;
}.

Section client.
Context {U : UuidLib} {J : Encoding} {PJ : PollEncoding}.

Definition pollStoreKey (ref : PollReference) : PollKey :=
  mkPollKey (Chat_Key (pref_Chat ref)) (ACI (pref_Author ref)) (pref_Timestamp ref).

Definition pollObservation (event : Event) : res (option PollObservation) :=
  match PollEvidence quote_poll event with
  | None => Ok None
  | Some (ref, evidence) =>
      match marshalEvent evidence (pref_Chat ref) with
      | Err e => Err e
      | Ok encoded => Ok (Some (mkPollObservation (pollStoreKey ref) (sha256_hex encoded) encoded))
      end
  end.

Definition pollSeed (record : InboxRecord) : res (option PollObservation) :=
  pollObservation (unmarshalEvent (rec_Event record)).1.

Definition key_reference (key : PollKey) : PollReference :=
  match cut_prefix "group:" (pk_Chat key) with
  | Some groupID => mkPollRef (mkChat groupID zeroRecipient) (ofACI (pk_Author key)) (pk_Timestamp key)
  | None => mkPollRef (mkChat "" (ofACI (pk_Chat key))) (ofACI (pk_Author key)) (pk_Timestamp key)
  end.

Definition unreadable_event (e : Event) : bool :=
  match e with EvUnsupported _ typ => typ == UnreadableEntry | _ => false end.

Definition pollReduce (key : PollKey) (encoded : list string) : res string :=
  let events := (fun data => (unmarshalEvent data).1) <$> encoded in
  if existsb unreadable_event events then Err (errorf ErrNotStorable)
  else
    match ReducePoll (key_reference key) events with
    | None => Err (Opaque "panic: index out of range")
    | Some state =>
        match json_state (mkDurable state "durable" (len events)) with
        | Some data => Ok data
        | None => Err encode_error
        end
    end.

(** What [PollProjection] does in the store: bring the projections up to date, read the poll's
    and decode it over [state], the state of no evidence. *)
Definition read_projection (order : gset PollKey -> list PollKey) (ref : PollReference) (state : durable_state)
    : io polldb err durable_state :=
  let* _ := ProjectPolls pollSeed pollReduce order None in
  let* db := db_get in
  match PollProjectionRecord (pollStoreKey ref) db with
  | None => io_ret state
  | Some encoded =>
      if encoded == ""%string then io_ret state
      else match json_decode_state state encoded with
           | Some state => io_ret state
           | None => io_err (Wrap [encode_error])
           end
  end.
End client.

(** ** Reading the inbox in batches *)

Lemma seed_filter_records t after :
  table_ok t -> 0 <= after ->
  InboxRecords (seed_filter after) t
  = take 1000 (scanInboxRecord <$> filter (fun r => after < row_id r) (tbl_rows t)).
Proof.
  intros (_ & Hr & _) Ha. rewrite (InboxRecords_limit (seed_filter after) t). cbn [seed_filter fil_Limit fil_Newest].
  f_equal. f_equal. unfold where_, seed_filter; cbn. destruct (0 <? after) eqn:E; bool_hyps; cbn.
  - apply list_filter_iff. intros r. rewrite andb_true_r. apply Z.ltb_lt.
  - rewrite !filter_all; [done| |done]. intros r Hin. apply Hr in Hin. lia.
Qed.

Section project_spec.
Context (seed : InboxRecord -> res (option PollObservation)) (reduce : PollKey -> list string -> res string)
        (order : gset PollKey -> list PollKey).

Lemma addPollEvidence_inbox o changed db r db' :
  addPollEvidence o changed db = (r, db') -> db_inbox db' = db_inbox db /\ db_projections db' = db_projections db.
Proof. unfold addPollEvidence, io_bind, db_get, db_put. cbn. destruct (existsb _ _); cbn; by intros [= <- <-]. Qed.

Lemma seed_records_inbox recs changed db r db' :
  seed_records seed recs changed db = (r, db') -> db_inbox db' = db_inbox db /\ db_projections db' = db_projections db.
Proof.
  revert changed db. induction recs as [|rec recs IH]; intros changed db; cbn; [by intros [= <- <-]|].
  destruct (seed rec) as [[o|]|e]; [| |by intros [= <- <-]].
  - unfold io_bind. destruct (addPollEvidence o changed db) as [[c|e] db1] eqn:E; intros H.
    + apply addPollEvidence_inbox in E as [<- <-]. by eapply IH.
    + injection H as <- <-. by eapply addPollEvidence_inbox.
  - unfold io_bind, io_ret. apply IH.
Qed.

Lemma seed_records_app a b changed db :
  seed_records seed (a ++ b) changed db
  = io_bind (seed_records seed a changed) (fun changed => seed_records seed b changed) db.
Proof.
  revert changed db. induction a as [|rec a IH]; intros changed db; [done|]. cbn.
  destruct (seed rec) as [[o|]|e]; [| |done].
  - unfold io_bind at 1 2 3. destruct (addPollEvidence o changed db) as [[c|e] db1]; [|done]. apply IH.
  - unfold io_bind at 1 2 3, io_ret. apply IH.
Qed.

(** The batches read every record of the inbox once, in order. *)
Lemma seed_batches_all fuel after changed db :
  table_ok (db_inbox db) -> 0 <= after ->
  (length (filter (fun r => (after < row_id r)%Z) (tbl_rows (db_inbox db))) < fuel)%nat ->
  seed_batches seed fuel after changed db
  = seed_records seed (scanInboxRecord <$> filter (fun r => after < row_id r) (tbl_rows (db_inbox db))) changed db.
Proof.
  revert after changed db. induction fuel as [|fuel IH]; intros after changed db Hok Ha Hf; [lia|]. cbn [seed_batches].
  unfold io_bind at 1, db_get at 1. rewrite seed_filter_records by done.
  set (rest := filter _ (tbl_rows (db_inbox db))) in *. rewrite <- fmap_take, fmap_last.
  destruct (last (take 1000 rest)) as [r|] eqn:El; cbn [fmap option_fmap option_map].
  - assert (Hs : increasing (row_id <$> rest)).
    { eapply increasing_sublist; [apply sublist_fmap_filter|apply Hok]. }
    assert (Hr : after < row_id r).
    { apply last_Some in El as [l' El]. assert (Hin : r ∈ take 1000 rest) by (rewrite El, elem_of_app, list_elem_of_singleton; by right).
      apply elem_of_take in Hin as (i & Hi & _). apply list_elem_of_lookup_2, list_elem_of_filter in Hi. by destruct Hi. }
    assert (Hrest : filter (fun a => row_id r < row_id a) (tbl_rows (db_inbox db)) = drop 1000 rest).
    { rewrite <- (page_rest row_id rest 1000 r) by done. unfold rest. rewrite list_filter_filter.
      apply list_filter_iff. intros x. lia. }
    rewrite <- (take_drop 1000 rest) at 2. rewrite fmap_app, seed_records_app. unfold io_bind.
    destruct (seed_records seed (scanInboxRecord <$> take 1000 rest) changed db) as [[c|e] db1] eqn:E1; [|done].
    apply seed_records_inbox in E1 as [E1 _]. cbn [scanInboxRecord rec_ID]. rewrite IH; rewrite ?E1; [by rewrite Hrest|done|lia|].
    rewrite Hrest, length_drop. destruct rest; [done|]. cbn in *. lia.
  - apply last_None in El. assert (E : rest = []) by (destruct rest; done). by rewrite E.
Qed.

Lemma seedPolls_all changed db :
  table_ok (db_inbox db) ->
  seedPolls seed changed db = seed_records seed (scanInboxRecord <$> tbl_rows (db_inbox db)) changed db.
Proof.
  intros Hok. unfold seedPolls, io_bind at 1, db_get at 1. destruct Hok as (? & Hr & ?).
  assert (E : filter (fun r => 0 < row_id r) (tbl_rows (db_inbox db)) = tbl_rows (db_inbox db)).
  { apply filter_all. intros r Hin. apply Hr in Hin. lia. }
  rewrite seed_batches_all; [by rewrite E|done|lia|rewrite E; lia].
Qed.

(** ** The projections agree with the evidence *)

Definition key_ok (k : PollKey) : Prop := is_uint64 (pk_Timestamp k).

Lemma key_columns_inj k k' : key_ok k -> key_ok k' -> key_columns k = key_columns k' -> k = k'.
Proof.
  intros Hk Hk' E. pose proof (f_equal fst (f_equal fst E)) as Ec. pose proof (f_equal snd (f_equal fst E)) as Ea.
  pose proof (FormatUint_inj _ _ Hk Hk' (f_equal snd E)) as Et. destruct k, k'. cbn [fst snd pk_Chat pk_Author pk_Timestamp key_columns] in *.
  congruence.
Qed.

(** The projection of a poll: none without evidence, else its evidence reduced. *)
Definition projected (db : polldb) (k : PollKey) : Prop :=
  match evidence_for k (db_evidence db) with
  | [] => PollProjectionRecord k db = None
  | es => exists state, reduce k es = Ok state /\ PollProjectionRecord k db = Some state
  end.

(** While a transaction collects the changed polls, the others stay projected. *)
Definition current (changed : gset PollKey) (db : polldb) : Prop :=
  (forall k, k ∈ changed -> key_ok k /\ evidence_for k (db_evidence db) <> [])
  /\ forall k, key_ok k -> k ∉ changed -> projected db k.

(** Evidence is kept once per poll and hash. *)
Definition add_row (rows : list evidence_row) (o : PollObservation) : list evidence_row :=
  if existsb (same_evidence o) rows then rows
  else rows ++ [mkEvidence (key_columns (po_Key o)) (po_Hash o) (po_Event o)].

Lemma evidence_for_app k rows r :
  evidence_for k (rows ++ [r]) = evidence_for k rows ++ (if decide (ev_key r = key_columns k) then [ev_event r] else []).
Proof. unfold evidence_for. rewrite filter_app, fmap_app, filter_cons. by destruct (decide _). Qed.

Lemma addPollEvidence_run o changed db :
  exists changed' db', addPollEvidence o changed db = (Ok changed', db')
    /\ db_evidence db' = add_row (db_evidence db) o /\ db_seeded db' = db_seeded db /\ db_inbox db' = db_inbox db
    /\ (key_ok (po_Key o) -> current changed db -> current changed' db').
Proof.
  unfold addPollEvidence, add_row, io_bind, db_get, db_put. cbn. destruct (existsb _ _) eqn:E; cbn; do 2 eexists.
  { split_and!; [reflexivity|done..]. }
  split_and!; [reflexivity|done|done|done|]. intros Hk [Hc Hp]. split; cbn [db_evidence].
  - intros k Hin. rewrite evidence_for_app. cbn. apply elem_of_union in Hin as [->%elem_of_singleton|Hin].
    + split; [done|]. rewrite decide_True by done. by destruct (evidence_for _ _).
    + destruct (Hc k Hin) as [? Hne]. split; [done|]. by destruct (evidence_for k _).
  - intros k Hk' Hn. rewrite not_elem_of_union, not_elem_of_singleton in Hn. destruct Hn as [Hne Hn].
    specialize (Hp k Hk' Hn). unfold projected in *. cbn [db_evidence]. rewrite evidence_for_app. cbn.
    rewrite decide_False by (intros Heq; apply Hne; symmetry; by apply key_columns_inj). by rewrite app_nil_r.
Qed.

Definition seeds (recs : list InboxRecord) : list PollObservation :=
  omap (fun rec => match seed rec with Ok o => o | Err _ => None end) recs.

Lemma seed_records_Ok recs changed db changed' db' :
  (forall rec o, seed rec = Ok (Some o) -> key_ok (po_Key o)) ->
  seed_records seed recs changed db = (Ok changed', db') -> current changed db ->
  db_evidence db' = foldl add_row (db_evidence db) (seeds recs) /\ db_seeded db' = db_seeded db
  /\ db_inbox db' = db_inbox db /\ current changed' db'.
Proof.
  intros Hseed. revert changed db. induction recs as [|rec recs IH]; intros changed db H Hc; cbn in H |- *.
  { by injection H as <- <-. }
  destruct (seed rec) as [[o|]|e] eqn:E; [| |done].
  - unfold io_bind in H. destruct (addPollEvidence_run o changed db) as (c & db1 & E1 & Hev & Hs & Hi & Hcur).
    rewrite E1 in H. destruct (IH c db1 H) as (-> & -> & -> & ?); [by apply Hcur; [eapply Hseed|]|].
    by rewrite Hev.
  - unfold io_bind, io_ret in H. by eapply IH.
Qed.

Lemma reduce_all_Ok keys db u db' :
  Forall key_ok keys -> (forall k, k ∈ keys -> evidence_for k (db_evidence db) <> []) ->
  reduce_all reduce keys db = (Ok u, db') ->
  db_evidence db' = db_evidence db /\ db_seeded db' = db_seeded db /\ db_inbox db' = db_inbox db
  /\ forall k, key_ok k -> k ∈ keys \/ projected db k -> projected db' k.
Proof.
  revert db. induction keys as [|key keys IH]; intros db Hok Hne H; cbn in H.
  { injection H as _ <-. split_and!; try done. intros k _ [?%elem_of_nil|?]; done. }
  inversion Hok as [|? ? Hkey Hkeys]; subst.
  unfold io_bind at 1, reducePoll, io_bind at 1, db_get at 1 in H.
  destruct (reduce key (evidence_for key (db_evidence db))) as [state|e] eqn:Er; [|done]. cbn in H.
  apply IH in H as (Hev & Hs & Hi & Hp); [|done|intros k Hk; apply Hne; by right]. cbn in Hev, Hs, Hi.
  split_and!; [done..|]. intros k Hk Hor. apply Hp; [done|].
  destruct (decide (k = key)) as [->|Hnk].
  - right. unfold projected, PollProjectionRecord. cbn [db_evidence db_projections]. rewrite lookup_insert_eq.
    assert (Hn : evidence_for key (db_evidence db) <> []) by (apply Hne; by left).
    destruct (evidence_for key (db_evidence db)); [done|]. by exists state.
  - destruct Hor as [Hin|Hproj]; [apply elem_of_cons in Hin as [?|Hin]; [done|by left]|right].
    unfold projected, PollProjectionRecord in *. cbn [db_evidence db_projections].
    assert (Hcol : key_columns key <> key_columns k) by (intros Heq; apply Hnk; symmetry; by apply key_columns_inj).
    by rewrite lookup_insert_ne.
Qed.

Lemma reduce_all_inbox keys db r db' : reduce_all reduce keys db = (r, db') -> db_inbox db' = db_inbox db.
Proof.
  revert db. induction keys as [|key keys IH]; intros db; cbn; [by intros [= <- <-]|].
  unfold io_bind, reducePoll, io_bind, db_get. destruct (reduce key _); cbn; [|by intros [= <- <-]].
  intros H. by apply IH in H.
Qed.

Lemma seed_batches_inbox fuel after changed db r db' :
  seed_batches seed fuel after changed db = (r, db') -> db_inbox db' = db_inbox db.
Proof.
  revert after changed db. induction fuel as [|fuel IH]; intros after changed db; cbn; [by intros [= <- <-]|].
  unfold io_bind, db_get. destruct (last _); [|by intros [= <- <-]].
  destruct (seed_records seed _ changed db) as [[c|e] db1] eqn:E; apply seed_records_inbox in E as [<- _].
  - apply IH.
  - by intros [= <- <-].
Qed.

(** A projection run leaves the inbox alone. *)
Lemma ProjectPolls_inbox next db r db' : ProjectPolls seed reduce order next db = (r, db') -> db_inbox db' = db_inbox db.
Proof.
  unfold ProjectPolls. destruct (project_body seed reduce order next db) as [[u|e] db1] eqn:E; intros [= <- <-]; [|done].
  unfold project_body in E. apply io_bind_Ok in E as (? & ? & [= <- <-] & E).
  apply io_bind_Ok in E as (c1 & db2 & E1 & E). apply io_bind_Ok in E as (c2 & db3 & E2 & E).
  apply reduce_all_inbox in E as ->. assert (H2 : db_inbox db3 = db_inbox db2).
  { destruct next as [o|]; [|by injection E2 as <- <-]. by eapply addPollEvidence_inbox. }
  rewrite H2. destruct (db_seeded db); [by injection E1 as <- <-|].
  apply io_bind_Ok in E1 as (c & s1 & E1 & E3). apply io_bind_Ok in E3 as (? & ? & E3 & [= <- <-]).
  cbn in E3. injection E3 as _ <-. cbn. unfold seedPolls, io_bind, db_get in E1. by eapply seed_batches_inbox.
Qed.

(** C17. A projection run is all or nothing: on an error the database is unchanged; otherwise the
    evidence grew by the observations of the inbox (the first time only) and the new one,
    each kept once, and every poll's projection is exactly its evidence reduced in the order
    it was observed, whatever order the changed polls were reduced in. *)
Theorem ProjectPolls_spec next db :
  (forall rec o, seed rec = Ok (Some o) -> key_ok (po_Key o)) -> (forall o, next = Some o -> key_ok (po_Key o)) ->
  (forall s, order s ≡ₚ elements s) -> table_ok (db_inbox db) -> (forall k, key_ok k -> projected db k) ->
  match ProjectPolls seed reduce order next db with
  | (Err _, db') => db' = db
  | (Ok _, db') =>
      db_seeded db' = true /\ db_inbox db' = db_inbox db
      /\ db_evidence db'
         = foldl add_row (db_evidence db)
             ((if db_seeded db then [] else seeds (scanInboxRecord <$> tbl_rows (db_inbox db))) ++ option_list next)
      /\ forall k, key_ok k -> projected db' k
  end.
Proof.
  intros Hseed Hnext Horder Hok Hproj. unfold ProjectPolls.
  destruct (project_body seed reduce order next db) as [[u|e] db'] eqn:E; [|done].
  unfold project_body in E. apply io_bind_Ok in E as (db0 & s0 & [= <- <-] & E).
  assert (H0 : current ∅ db) by (split; [set_solver|intros k Hk _; by apply Hproj]).
  apply io_bind_Ok in E as (c1 & db1 & E1 & E).
  assert (H1 : db_seeded db1 = true /\ db_inbox db1 = db_inbox db /\ current c1 db1
    /\ db_evidence db1 = foldl add_row (db_evidence db)
         (if db_seeded db then [] else seeds (scanInboxRecord <$> tbl_rows (db_inbox db)))).
  { destruct (db_seeded db) eqn:Es; [by injection E1 as <- <-|].
    apply io_bind_Ok in E1 as (c & s1 & E1 & E2). rewrite seedPolls_all in E1 by done.
    destruct (seed_records_Ok _ _ _ _ _ Hseed E1 H0) as (Hev & _ & Hi & Hc).
    apply io_bind_Ok in E2 as ([] & s2 & E2 & [= <- <-]). cbn in E2. injection E2 as <-. done. }
  destruct H1 as (Hs1 & Hi1 & Hc1 & Hev1). apply io_bind_Ok in E as (c2 & db2 & E2 & E).
  assert (H2 : db_seeded db2 = true /\ db_inbox db2 = db_inbox db /\ current c2 db2
    /\ db_evidence db2 = foldl add_row (db_evidence db1) (option_list next)).
  { destruct next as [o|]; [|by injection E2 as <- <-].
    destruct (addPollEvidence_run o c1 db1) as (c & s & Er & Hev & Hs & Hi & Hcur).
    rewrite Er in E2. injection E2 as <- <-. rewrite Hs, Hi. split_and!; [done|done|by apply Hcur; [apply Hnext|]|done]. }
  destruct H2 as (Hs2 & Hi2 & [Hc2 Hp2] & Hev2).
  assert (Hel : forall k, k ∈ order c2 <-> k ∈ c2) by (intros k; rewrite Horder; apply elem_of_elements).
  apply reduce_all_Ok in E as (Hev & Hs & Hi & Hp); [|apply Forall_forall; intros k Hk; apply (Hc2 k), Hel, Hk|intros k Hk; apply Hc2, Hel, Hk].
  rewrite Hs, Hi, Hev, Hev2, Hev1, foldl_app. split_and!; try done. intros k Hk. apply Hp; [done|]. rewrite Hel.
  destruct (decide (k ∈ c2)); [by left|right; by apply Hp2].
Qed.
End project_spec.

(** ** Witness *)

Section witnesses.
(** Every inbox record is evidence for the poll of its chat; the state is the number of pieces. *)
Definition demo_seed (rec : InboxRecord) : res (option PollObservation) :=
  if rec_Chat rec == ""%string then Ok None
  else Ok (Some (mkPollObservation (mkPollKey (rec_Chat rec) "x" 5) (FormatUint (rec_ID rec)) (rec_Event rec))).
Definition demo_reduce (key : PollKey) (events : list string) : res string := Ok (FormatUint (len events)).
Definition demo_db : polldb := mkPollDB demo_table false [] ∅.

Lemma ProjectPolls_spec_witness :
  table_ok (db_inbox demo_db)
  /\ let '(r, db') := ProjectPolls demo_seed demo_reduce elements None demo_db in
     r = Ok tt /\ PollProjectionRecord (mkPollKey "a" "x" 5) db' = Some "2"%string /\ db_inbox db' = demo_table.
Proof.
  assert (Hs : forall rec o, demo_seed rec = Ok (Some o) -> key_ok (po_Key o)).
  { intros rec o H. unfold demo_seed in H. destruct (bool_decide _); [discriminate H|]. injection H as <-.
    split; vm_compute; discriminate. }
  assert (Hn : forall o : PollObservation, None = Some o -> key_ok (po_Key o)) by discriminate.
  assert (Hp : forall k, key_ok k -> projected demo_reduce demo_db k) by (intros k _; reflexivity).
  split; [exact demo_table_ok|].
  pose proof (ProjectPolls_spec demo_seed demo_reduce elements None demo_db Hs Hn (fun s => Permutation_refl _) demo_table_ok Hp) as S.
  assert (E : match ProjectPolls demo_seed demo_reduce elements None demo_db with
              | (Ok tt, db') => PollProjectionRecord (mkPollKey "a" "x" 5) db' = Some "2"%string
              | (Err _, _) => False
              end) by (vm_compute; reflexivity).
  destruct (ProjectPolls demo_seed demo_reduce elements None demo_db) as [[[]|e] db']; [|contradiction E].
  destruct S as (_ & S & _). split; [reflexivity|]. split; [exact E|exact S].
Defined.
End witnesses.
