(* ===== verification/InboxClient.v ===== *)
(** * The client's inbox (internal/signal/meow_inbox.go, inbox.go, meow_poll_projection.go)

    The inbox operations of [meowClient] on the account's store, and the interface the
    application uses them through: the class [InboxBackend] with its laws [InboxLaws], stated on
    a view of the backend as a list of stored entries. The client implements them. *)

From S2P Require Import Prelude Errors Uuid Strconv Types SendCheck PollReduce InboxStore InboxEvents PollStore.

Record InboxEntry := mkEntry {
  ie_ID : Z; ie_ReceivedAt : time; ie_Time : time; ie_Chat : Chat; ie_Event : Event; ie_Unread : bool }.

Record InboxQuery := mkQuery {
  iq_After : Z; iq_Until : Z; iq_Chat : string; iq_Since : time; iq_Unread : bool; iq_Limit : Z; iq_Newest : bool }.

Record InboxChat := mkInboxChat { ic_Chat : Chat; ic_Entries : Z; ic_Unread : Z; ic_Last : InboxEntry }.

(** ** The interface *)

Class InboxBackend (W : Type) := {
  inbox_Add : InboxEntry -> io W err InboxEntry;
  inbox_List : InboxQuery -> io W err (list InboxEntry);
  inbox_Chats : io W err (list InboxChat);
  inbox_MarkRead : list ReadMark -> io W err Z;
  inbox_Prune : time -> Z -> io W err Z;
}.

(** An entry as it is stored: with the chat's key and the message that read marks identify. *)
Record stored_entry := mkStored { st_chat : string; st_sender : string; st_timestamp : Z; st_entry : InboxEntry }.

Notation entry_ids v := ((fun x => ie_ID (st_entry x)) <$> v).

(** What a query selects, and what its limit leaves. *)
Definition query_selects (q : InboxQuery) (x : stored_entry) : Prop :=
  (0 < iq_After q -> iq_After q < ie_ID (st_entry x)) /\ (0 < iq_Until q -> ie_ID (st_entry x) <= iq_Until q)
  /\ (iq_Chat q <> ""%string -> st_chat x = iq_Chat q)
  /\ (iq_Since q <> zero_time -> UnixMilli (iq_Since q) <= UnixMilli (ie_Time (st_entry x)))
  /\ (iq_Unread q = true -> ie_Unread (st_entry x) = true).

#[export] Instance query_selects_dec q x : Decision (query_selects q x).
Proof. unfold query_selects. apply _. Defined.

Definition query_view (q : InboxQuery) (v : list stored_entry) : list stored_entry :=
  let all := filter (query_selects q) v in
  if 0 <? iq_Limit q then
    if iq_Newest q then lastn (Z.to_nat (iq_Limit q)) all else take (Z.to_nat (iq_Limit q)) all
  else all.

Definition mark_matches (marks : list ReadMark) (x : stored_entry) : bool :=
  ie_Unread (st_entry x)
  && existsb (fun m => (st_sender x == ACI (mark_Sender m)) && (st_timestamp x =? timestampArg (mark_Timestamp m))) marks.

Definition read_entry (x : stored_entry) : stored_entry :=
  let e := st_entry x in
  mkStored (st_chat x) (st_sender x) (st_timestamp x)
    (mkEntry (ie_ID e) (ie_ReceivedAt e) (ie_Time e) (ie_Chat e) (ie_Event e) false).

Definition mark_view (marks : list ReadMark) (v : list stored_entry) : list stored_entry :=
  (fun x => if mark_matches marks x then read_entry x else x) <$> v.

(** [entry] with the ID the store gave it. *)
Definition with_ID (entry : InboxEntry) (id : Z) : InboxEntry :=
  mkEntry id (ie_ReceivedAt entry) (ie_Time entry) (ie_Chat entry) (ie_Event entry) (ie_Unread entry).

(** What the backend promises: the IDs increase, a list is the query on the view and changes
    nothing, marks make the matching entries read, a new entry follows all others. *)
Class InboxLaws (W : Type) (B : InboxBackend W) := {
  inbox_inv : W -> Prop;
  inbox_view : W -> list stored_entry;
  inbox_increasing : forall w, inbox_inv w ->
    increasing (entry_ids (inbox_view w)) /\ forall x, x ∈ inbox_view w -> 1 <= ie_ID (st_entry x) <= MaxInt64;
  inbox_List_law : forall q w r w', inbox_inv w -> inbox_List q w = (r, w') ->
    inbox_inv w' /\ inbox_view w' = inbox_view w /\ forall es, r = Ok es -> es = st_entry <$> query_view q (inbox_view w);
  inbox_MarkRead_law : forall marks w r w', inbox_inv w -> inbox_MarkRead marks w = (r, w') ->
    inbox_inv w' /\ match r with
                    | Err _ => inbox_view w' = inbox_view w
                    | Ok n => inbox_view w' = mark_view marks (inbox_view w)
                              /\ n = len (filter (fun x => mark_matches marks x = true) (inbox_view w))
                    end;
  inbox_Add_law : forall e w r w', inbox_inv w -> inbox_Add e w = (r, w') ->
    inbox_inv w' /\ match r with
                    | Err _ => inbox_view w' = inbox_view w
                    | Ok e' => exists x, inbox_view w' = inbox_view w ++ [x] /\ e' = with_ID e (ie_ID (st_entry x))
                                 /\ st_chat x = Chat_Key (ie_Chat e) /\ ie_Unread (st_entry x) = ie_Unread e
                    end;
  inbox_Prune_law : forall before keep w r w', inbox_inv w -> inbox_Prune before keep w = (r, w') ->
    inbox_inv w' /\ inbox_view w' `sublist_of` inbox_view w;
}.

(** ** The client *)

(** [mc_closing] is set by [Close]; [mc_device] is the error of looking up the account's device,
    nil once it is known. *)
Record mclient := mkClient { mc_closing : bool; mc_device : error; mc_data : polldb }.

Section client.
Context {U : UuidLib} {J : Encoding} {PJ : PollEncoding} (order : gset PollKey -> list PollKey).

Notation M := (io mclient err).

(** [withStore]: on the open store, unless the client is closing. *)
Definition withStore {A} (use : io polldb err A) : M A := fun c =>
  if mc_closing c then (Err (Sent ErrClosed), c)
  else match mc_device c with
       | Some e => (Err e, c)
       | None => let (r, data) := use (mc_data c) in (r, mkClient (mc_closing c) (mc_device c) data)
       end.

(** An operation on the inbox table of the store. *)
Definition on_inbox {A} (op : table -> res A * table) : io polldb err A := fun db =>
  let (r, t) := op (db_inbox db) in (r, mkPollDB t (db_seeded db) (db_evidence db) (db_projections db)).

Definition learnPollProjection (event : Event) : M unit :=
  match pollObservation event with
  | Err e => io_err e
  | Ok None => io_ret tt
  | Ok (Some observation) => withStore (ProjectPolls pollSeed pollReduce order (Some observation))
  end.

Definition PollProjection (ref : PollReference) : M durable_state :=
  match PollReference_Check ref with
  | Some e => io_err e
  | None =>
      match ReducePoll ref [] with
      | None => io_err (Opaque "panic: index out of range")
      | Some initial =>
          let* r := io_try (withStore (read_projection order ref (mkDurable initial "durable" 0))) in
          match r with Ok state => io_ret state | Err e => io_err (Wrap [e]) end
      end
  end.

Definition inboxEntry (rec : InboxRecord) : InboxEntry :=
  let (evt, chat) := unmarshalEvent (rec_Event rec) in
  mkEntry (rec_ID rec) (rec_ReceivedAt rec) (rec_Time rec) chat evt (rec_Unread rec).

(** The record of a new entry: a message's sender and timestamp identify it for read marks. *)
Definition entry_record (entry : InboxEntry) (event : string) : InboxRecord :=
  let (sender, timestamp) := match ie_Event entry with
                             | EvMessage env _ => (ACI (env_Sender env), env_Timestamp env)
                             | _ => (""%string, 0)
                             end in
  mkInboxRecord 0 (ie_ReceivedAt entry) (ie_Time entry) (Chat_Key (ie_Chat entry)) sender timestamp
    (ie_Unread entry) event.

Definition InboxAdd (entry : InboxEntry) : M InboxEntry :=
  let* _ := learnPollProjection (ie_Event entry) in
  let* event := io_of (marshalEvent (ie_Event entry) (ie_Chat entry)) in
  let* id := withStore (on_inbox (AddInboxRecord (entry_record entry event))) in
  io_ret (with_ID entry id).

Definition query_filter (q : InboxQuery) : InboxFilter :=
  mkInboxFilter (iq_After q) (iq_Until q) (iq_Chat q) (iq_Since q) (iq_Unread q) (iq_Limit q) (iq_Newest q).

Definition InboxList (query : InboxQuery) : M (list InboxEntry) :=
  let* recs := withStore (on_inbox (fun t => (Ok (InboxRecords (query_filter query) t), t))) in
  io_ret (inboxEntry <$> recs).

Definition client_InboxChats : M (list InboxChat) :=
  let* recs := withStore (on_inbox (fun t => (Ok (InboxStore.InboxChats t), t))) in
  io_ret ((fun rec => let last := inboxEntry (icr_Last rec) in
                      mkInboxChat (ie_Chat last) (icr_Entries rec) (icr_Unread rec) last) <$> recs).

Definition InboxMarkRead (marks : list ReadMark) : M Z :=
  let storeMarks := (fun m => mkInboxMark (ACI (mark_Sender m)) (mark_Timestamp m)) <$> marks in
  withStore (on_inbox (fun t => let (n, t) := MarkInboxRead storeMarks t in (Ok n, t))).

Definition InboxPrune (before : time) (keep : Z) : M Z :=
  withStore (on_inbox (fun t => let (n, t) := PruneInbox before keep t in (Ok n, t))).

#[export] Instance client_backend : InboxBackend mclient := {|
  inbox_Add := InboxAdd; inbox_List := InboxList; inbox_Chats := client_InboxChats;
  inbox_MarkRead := InboxMarkRead; inbox_Prune := InboxPrune |}.

(** ** The laws *)

Definition row_entry (r : row) : stored_entry :=
  mkStored (row_chat r) (row_sender r) (row_timestamp r) (inboxEntry (scanInboxRecord r)).

Definition client_view (c : mclient) : list stored_entry := row_entry <$> tbl_rows (db_inbox (mc_data c)).
Definition client_inv (c : mclient) : Prop := table_ok (db_inbox (mc_data c)).

Lemma inboxEntry_fields rec :
  ie_ID (inboxEntry rec) = rec_ID rec /\ ie_Time (inboxEntry rec) = rec_Time rec /\ ie_Unread (inboxEntry rec) = rec_Unread rec.
Proof. unfold inboxEntry. by destruct (unmarshalEvent _). Qed.

Lemma row_entry_fields r :
  ie_ID (st_entry (row_entry r)) = row_id r /\ ie_Time (st_entry (row_entry r)) = of_UnixMilli (row_time r)
  /\ ie_Unread (st_entry (row_entry r)) = row_unread r.
Proof. unfold row_entry. cbn. destruct (inboxEntry_fields (scanInboxRecord r)) as (-> & -> & ->). done. Qed.

Lemma withStore_inbox {A} (op : table -> res A * table) c r c' :
  withStore (on_inbox op) c = (r, c') ->
  (is_ok r = false /\ c' = c) \/ exists t, op (db_inbox (mc_data c)) = (r, t) /\ db_inbox (mc_data c') = t.
Proof.
  unfold withStore, on_inbox. destruct (mc_closing c), (mc_device c); try (intros [= <- <-]; by left).
  destruct (op _) as [r0 t]. intros [= <- <-]. right. by exists t.
Qed.

Lemma query_filter_selects q r : selects (query_filter q) (scanInboxRecord r) <-> query_selects q (row_entry r).
Proof.
  unfold selects, query_selects, query_filter. destruct (row_entry_fields r) as (-> & -> & ->). cbn. tauto.
Qed.

Lemma lastn_fmap {A B} (f : A -> B) n l : f <$> lastn n l = lastn n (f <$> l).
Proof. unfold lastn. by rewrite fmap_drop, length_fmap. Qed.

Lemma InboxRecords_view q t :
  inboxEntry <$> InboxRecords (query_filter q) t = st_entry <$> query_view q (row_entry <$> tbl_rows t).
Proof.
  rewrite (InboxRecords_limit (query_filter q) t). unfold query_view. cbv zeta. cbn [query_filter fil_Limit fil_Newest].
  rewrite (filter_fmap row_entry).
  rewrite (list_filter_iff (fun r => forallb (fun c => holds c r) (where_ (query_filter q)) = true)
             (fun r => query_selects q (row_entry r))).
  2: { intros r. by rewrite where_selects, query_filter_selects. }
  assert (E : forall l : list row, inboxEntry <$> (scanInboxRecord <$> l) = st_entry <$> (row_entry <$> l)).
  { intros l. by rewrite <- !list_fmap_compose. }
  repeat split_if; by rewrite ?lastn_fmap, ?fmap_take, E.
Qed.

Lemma view_rows c rows :
  tbl_rows (db_inbox (mc_data c)) = rows -> client_view c = row_entry <$> rows.
Proof. unfold client_view. by intros ->. Qed.

Lemma mark_matches_row marks r :
  mark_matches marks (row_entry r)
  = marked_by ((fun m => mkInboxMark (ACI (mark_Sender m)) (mark_Timestamp m)) <$> marks) r.
Proof.
  unfold mark_matches, marked_by. destruct (row_entry_fields r) as (_ & _ & ->). cbn [row_entry st_sender st_timestamp].
  induction marks as [|m marks IH]; cbn [existsb fmap list_fmap]; [by rewrite andb_false_r|].
  rewrite <- IH. unfold marks_row. cbn [im_Sender im_Timestamp]. by destruct (row_unread r); cbn.
Qed.

Lemma read_row r : row_entry (set_read r) = read_entry (row_entry r).
Proof.
  unfold row_entry, read_entry, set_read, inboxEntry, scanInboxRecord. cbn. by destruct (unmarshalEvent _).
Qed.

Lemma learn_inbox event c r c' : learnPollProjection event c = (r, c') -> db_inbox (mc_data c') = db_inbox (mc_data c).
Proof.
  unfold learnPollProjection. destruct (pollObservation event) as [[o|]|e]; [|by intros [= <- <-]..].
  unfold withStore. destruct (mc_closing c), (mc_device c); try (by intros [= <- <-]).
  destruct (ProjectPolls _ _ _ _ (mc_data c)) as [r0 db] eqn:E. intros [= <- <-]. cbn [mc_data].
  by eapply ProjectPolls_inbox.
Qed.

Lemma client_increasing c : client_inv c ->
  increasing (entry_ids (client_view c)) /\ forall x, x ∈ client_view c -> 1 <= ie_ID (st_entry x) <= MaxInt64.
Proof.
  intros (Hs & Hr & Hb). unfold client_view. split.
  - rewrite <- list_fmap_compose. erewrite list_fmap_ext; [exact Hs|]. intros i r _. cbn. apply row_entry_fields.
  - intros x (r & -> & Hin)%list_elem_of_fmap. destruct (row_entry_fields r) as (-> & _). apply Hr in Hin. lia.
Qed.

Lemma client_List_law q c r c' : client_inv c -> InboxList q c = (r, c') ->
  client_inv c' /\ client_view c' = client_view c /\ forall es, r = Ok es -> es = st_entry <$> query_view q (client_view c).
Proof.
  intros Hi H. unfold InboxList, io_bind in H.
  destruct (withStore _ c) as [r0 c1] eqn:E. apply withStore_inbox in E as [[Hr ->]|(t & [= <- <-] & Ht)].
  - destruct r0; [done|]. injection H as <- <-. done.
  - injection H as <- <-. unfold client_inv, client_view. rewrite Ht. split_and!; [done|done|].
    intros es [= <-]. apply InboxRecords_view.
Qed.

Lemma client_MarkRead_law marks c r c' : client_inv c -> InboxMarkRead marks c = (r, c') ->
  client_inv c' /\ match r with
                   | Err _ => client_view c' = client_view c
                   | Ok n => client_view c' = mark_view marks (client_view c)
                             /\ n = len (filter (fun x => mark_matches marks x = true) (client_view c))
                   end.
Proof.
  intros Hi H. unfold InboxMarkRead in H. apply withStore_inbox in H as [[Hr ->]|(t & H & Ht)]; [by destruct r|].
  unfold MarkInboxRead in H. rewrite mark_rows_run in H. injection H as <- <-.
  pose proof (MarkInboxRead_ok ((fun m => mkInboxMark (ACI (mark_Sender m)) (mark_Timestamp m)) <$> marks) _ Hi) as Hok.
  unfold MarkInboxRead in Hok. rewrite mark_rows_run in Hok. unfold client_inv, client_view, mark_view. rewrite Ht. cbn [tbl_rows].
  split_and!; [done| |].
  - rewrite <- !list_fmap_compose. apply list_fmap_ext. intros i r _. cbn. rewrite mark_matches_row.
    destruct (marked_by _ r); [apply read_row|done].
  - rewrite filter_fmap. unfold len. rewrite length_fmap. do 2 f_equal. apply list_filter_iff. intros r. by rewrite mark_matches_row.
Qed.

Lemma client_Add_law e c r c' : client_inv c -> InboxAdd e c = (r, c') ->
  client_inv c' /\ match r with
                   | Err _ => client_view c' = client_view c
                   | Ok e' => exists x, client_view c' = client_view c ++ [x] /\ e' = with_ID e (ie_ID (st_entry x))
                                /\ st_chat x = Chat_Key (ie_Chat e) /\ ie_Unread (st_entry x) = ie_Unread e
                   end.
Proof.
  intros Hi H. unfold InboxAdd, io_bind at 1 in H.
  destruct (learnPollProjection (ie_Event e) c) as [r1 c1] eqn:E1. apply learn_inbox in E1.
  unfold client_inv, client_view in *. destruct r1; [|injection H as <- <-; by rewrite E1].
  unfold io_bind at 1, io_of in H. destruct (marshalEvent _ _) as [event|] eqn:Em; [|injection H as <- <-; by rewrite E1].
  unfold io_bind in H. destruct (withStore _ c1) as [r2 c2] eqn:E2.
  apply withStore_inbox in E2 as [[Hr ->]|(t & E2 & Ht)]; [destruct r2; [done|]; injection H as <- <-; by rewrite E1|].
  rewrite E1 in E2. pose proof (AddInboxRecord_ok _ _ _ _ Hi E2) as Hok. rewrite <- Ht in Hok. destruct r2 as [id|x].
  - apply AddInboxRecord_Ok in E2 as (_ & _ & _ & rw & Hrows & Hid & _ & Hscan). injection H as <- <-.
    split; [done|]. exists (row_entry rw). rewrite Ht, Hrows, fmap_app. destruct (row_entry_fields rw) as (-> & _ & ->).
    rewrite Hid. split_and!; [done|done| |].
    + apply (f_equal rec_Chat) in Hscan. cbn in Hscan |- *. rewrite Hscan. unfold entry_record. by case_match.
    + apply (f_equal rec_Unread) in Hscan. cbn in Hscan |- *. rewrite Hscan. unfold entry_record. by case_match.
  - injection H as <- <-. split; [done|]. rewrite Ht. unfold AddInboxRecord in E2.
    destruct (MaxInt64 <=? tbl_seq _); [by injection E2 as _ <-|done].
Qed.

Lemma client_Prune_law before keep c r c' : client_inv c -> InboxPrune before keep c = (r, c') ->
  client_inv c' /\ client_view c' `sublist_of` client_view c.
Proof.
  intros Hi H. unfold InboxPrune in H. apply withStore_inbox in H as [[Hr ->]|(t & H & Ht)]; [done|].
  destruct (PruneInbox before keep _) as [n t0] eqn:E. injection H as _ <-.
  pose proof (PruneInbox_sublist before keep (db_inbox (mc_data c))) as [Hsub Hseq]. rewrite E in Hsub, Hseq. cbn in Hsub, Hseq.
  unfold client_inv, client_view. rewrite Ht. split; [by eapply sublist_table_ok|by apply fmap_sublist].
Qed.

#[export] Instance client_laws : InboxLaws mclient client_backend := {|
  inbox_inv := client_inv; inbox_view := client_view; inbox_increasing := client_increasing;
  inbox_List_law := client_List_law; inbox_MarkRead_law := client_MarkRead_law;
  inbox_Add_law := client_Add_law; inbox_Prune_law := client_Prune_law |}.
End client.
