(* ===== verification/InboxApp.v ===== *)
(** * The inbox of the application (internal/app/inbox.go)

    [Run] stores the received events, [List] pages through them, [MarkRead] sends the read
    receipts and marks the messages. The definitions use the client through [InboxBackend]; the
    theorems are proved from [InboxLaws]. *)

From S2P Require Import Prelude Errors Uuid Utf8 Strconv Types SendCheck Recipients SendFlow InboxStore InboxEvents PollStore InboxClient.

Definition DefaultMessagesLimit : Z := 50.
Definition MaxMessagesLimit : Z := 200.

Record InboxOptions := mkOptions { opt_MaxAge : Z; opt_MaxCount : Z }.

Record ConnectionStatus := mkStatus {
  cs_State : ConnectionState; cs_Since : time; cs_Err : error; cs_LastEvent : time }.

(** An [Inbox] and its [App]: [ix_changed] counts how often waiters were woken, [ix_added] has
    the entries [Added] was called with. *)
Record Inbox (W : Type) := mkInbox {
  ix_app : App W; ix_conn : ConnectionStatus; ix_changed : Z; ix_added : list InboxEntry }.
Arguments mkInbox {W}. Arguments ix_app {W}. Arguments ix_conn {W}. Arguments ix_changed {W}. Arguments ix_added {W}.

Record MessagesRequest := mkMessagesRequest { mr_Chat : string; mr_Cursor : string; mr_Since : time; mr_Limit : Z }.
Record MessagesPage := mkPage { pg_Entries : list InboxEntry; pg_Cursor : string; pg_More : bool }.
Record MarkReadRequest := mkMarkReadRequest { mrr_Chat : string; mrr_Cursor : string }.
Record MarkReadResult := mkMarkReadResult { mrs_Messages : Z; mrs_Senders : Z }.

(** ** Cursors *)

Definition FormatCursor (id : Z) : string := FormatInt id.

Definition parseCursor (cursor : string) : res Z :=
  if cursor == ""%string then Ok 0
  else match ParseInt cursor with
       | None => Err (errorf ErrInvalidCursor)
       | Some id => if id <? 0 then Err (errorf ErrInvalidCursor) else Ok id
       end.

(** ** Events *)

Definition envelopeOf (evt : Event) : option Envelope :=
  match evt with
  | EvStory env _ _ _ _ | EvMessage env _ | EvPollVote env _ | EvPollClose env _ | EvPin env _ | EvUnpin env _
  | EvEdit env _ _ _ | EvDelete env _ | EvReaction env _ _ _ _ | EvTyping env _ | EvUnsupported env _ => Some env
  | _ => None
  end.

Definition eventChat (evt : Event) : Chat :=
  match evt with
  | EvDecryptionFailure sender _ _ => mkChat "" sender
  | EvIdentityChanged rcpt _ _ _ => mkChat "" rcpt
  | _ => match envelopeOf evt with Some env => env_Chat env | None => zeroChat end
  end.

(** A sender's timestamp as a time, if it is one. *)
Definition sent_time (sent : Z) (received : time) : time :=
  if (sent =? 0) || (MaxInt64 <? sent) then received else of_UnixMilli sent.

Definition eventTime (evt : Event) (received : time) : time :=
  match evt with
  | EvDecryptionFailure _ timestamp _ => sent_time timestamp received
  | EvIdentityChanged _ _ _ t => if negb (IsZeroTime t) then t else sent_time 0 received
  | _ => sent_time (match envelopeOf evt with Some env => env_Timestamp env | None => 0 end) received
  end.

Definition isIncoming (evt : Event) : bool := match incomingMessage evt with Some _ => true | None => false end.

(** [LostConnection]: the error of a connection that is lost for good. *)
Definition LostConnection (evt : Event) : error :=
  match evt with
  | EvConnection StateLoggedOut cause =>
      match cause with
      | None => Some (Sent ErrDeviceUnlinked)
      | Some e => if errIs e ErrDeviceUnlinked then Some e else Some (Wrap [Sent ErrDeviceUnlinked; e])
      end
  | EvConnection StateFailed cause =>
      match cause with None => Some (Sent ErrConnectionFailed) | Some e => Some e end
  | _ => None
  end.

Section inbox.
Context {W : Type} {C : Client W} {B : InboxBackend W} (opts : InboxOptions).

Notation M := (io (App W) err).
Notation N := (io (Inbox W) err).

(** ** Reading *)

Definition wrap_inbox {A} (m : M A) : M A :=
  let* r := io_try m in match r with Ok a => io_ret a | Err e => io_err (Wrap [e]) end.

Definition latestCursor : M string :=
  let* latest := wrap_inbox (lift (inbox_List (mkQuery 0 0 "" zero_time false 1 true))) in
  match latest with [] => io_ret (FormatCursor 0) | e :: _ => io_ret (FormatCursor (ie_ID e)) end.

Definition page_limit (limit : Z) : Z := Z.min (if limit <=? 0 then DefaultMessagesLimit else limit) MaxMessagesLimit.

Definition List_ (req : MessagesRequest) : M MessagesPage :=
  let* after := io_of (parseCursor (mr_Cursor req)) in
  let limit := page_limit (mr_Limit req) in
  let newest := (mr_Cursor req == ""%string) && IsZeroTime (mr_Since req) in
  let query := mkQuery after 0 (mr_Chat req) (mr_Since req) false (if newest then limit else limit + 1) newest in
  let* entries := wrap_inbox (lift (inbox_List query)) in
  let more := limit <? len entries in
  let entries := if more then take (Z.to_nat limit) entries else entries in
  match last entries with
  | Some e => io_ret (mkPage entries (FormatCursor (ie_ID e)) more)
  | None =>
      if mr_Cursor req != ""%string then io_ret (mkPage entries (mr_Cursor req) more)
      else let* cursor := latestCursor in io_ret (mkPage entries cursor more)
  end.

Definition Chats : M (list InboxChat) := wrap_inbox (lift inbox_Chats).

(** [Message]: the message of an entry by its ID. *)
Definition Message_ (entryID : string) : M (Envelope * MessageContent) :=
  match parseCursor entryID with
  | Err _ => io_err (errorf ErrUnknownEntry)
  | Ok id =>
      if id =? 0 then io_err (errorf ErrUnknownEntry)
      else
        let* entries := wrap_inbox (lift (inbox_List (mkQuery (id - 1) id "" zero_time false 0 false))) in
        match entries with
        | [] => io_err (errorf ErrUnknownEntry)
        | e :: _ => match ie_Event e with
                    | EvMessage env m => io_ret (env, m)
                    | _ => io_err (errorf ErrNotAMessage)
                    end
        end
  end.

(** ** Marking read *)

Definition markReadEntries (req : MarkReadRequest) : M (list InboxEntry) :=
  let* until := io_of (parseCursor (mrr_Cursor req)) in
  if (mrr_Cursor req != ""%string) && (until =? 0) then io_ret []
  else wrap_inbox (lift (inbox_List (mkQuery 0 until (mrr_Chat req) zero_time true 0 false))).

(** The receipts, one per sender: those sent, and the errors of the others. *)
Fixpoint send_read (pending : list pendingReceipt) : M (list pendingReceipt * list err) :=
  match pending with
  | [] => io_ret ([], [])
  | p :: rest =>
      let* r := io_try (send_receipt (pr_sender p) ReceiptRead (pr_timestamps p)) in
      let* out := send_read rest in
      let (sent, errs) := out : list pendingReceipt * list err in
      io_ret (match r with Ok _ => (p :: sent, errs) | Err e => (sent, Wrap [e] :: errs) end)
  end.

Definition receipt_marks (p : pendingReceipt) : list ReadMark := mkReadMark (pr_sender p) <$> pr_timestamps p.

(** The result comes with the joined errors. *)
Definition MarkRead (req : MarkReadRequest) : M (MarkReadResult * error) :=
  let* r := io_try (markReadEntries req) in
  match r with
  | Err e => io_ret (mkMarkReadResult 0 0, Some e)
  | Ok [] => io_ret (mkMarkReadResult 0 0, None)
  | Ok entries =>
      let* out := send_read (queued (ie_Event <$> entries)) in
      let (sent, errs) := out : list pendingReceipt * list err in
      let marks := mbind receipt_marks sent in
      if 0 <? len marks then
        let* marked := io_try (lift (inbox_MarkRead marks)) in
        match marked with
        | Ok n => io_ret (mkMarkReadResult n (len sent), errorsJoin errs)
        | Err e => io_ret (mkMarkReadResult 0 (len sent), errorsJoin (errs ++ [Wrap [e]]))
        end
      else io_ret (mkMarkReadResult 0 (len sent), errorsJoin errs)
  end.

(** ** Receiving *)

Definition on_app {A} (m : M A) : N A := fun i =>
  let (r, s) := m (ix_app i) in (r, mkInbox s (ix_conn i) (ix_changed i) (ix_added i)).

Definition app_now : M time := fun s =>
  let (t, w) := client_now (app_world s) in
  (Ok t, mkApp (app_lastTimestamp s) (app_resolved s) (app_sent s) (app_receipts s) w).

Definition observe (evt : Event) : N unit :=
  let* now := on_app app_now in
  fun i =>
    let c := ix_conn i in
    let c := match evt with
             | EvConnection state cause => mkStatus state now cause now
             | _ => mkStatus (cs_State c) (cs_Since c) (cs_Err c) now
             end in
    (Ok tt, mkInbox (ix_app i) c (ix_changed i) (ix_added i)).

(** A failure is only logged. *)
Definition prune : N unit :=
  if (opt_MaxAge opts <=? 0) && (opt_MaxCount opts <=? 0) then io_ret tt
  else
    let* before := (if 0 <? opt_MaxAge opts then let* now := on_app app_now in io_ret (now - opt_MaxAge opts)
                    else io_ret zero_time) in
    let* _ := io_try (on_app (lift (inbox_Prune before (Z.max (opt_MaxCount opts) 0)))) in
    io_ret tt.

(** Waking the waiters and calling [Added]. *)
Definition notify (entry : InboxEntry) : N unit := fun i =>
  (Ok tt, mkInbox (ix_app i) (ix_conn i) (ix_changed i + 1) (ix_added i ++ [entry])).

Definition new_entry (evt : Event) (now : time) : InboxEntry :=
  mkEntry 0 now (eventTime evt now) (eventChat evt) evt (isIncoming evt).

Definition store (evt : Event) : N unit :=
  match evt with
  | EvReadSync _ messages => let* _ := io_try (on_app (lift (inbox_MarkRead messages))) in io_ret tt
  | EvTyping _ _ | EvReceipt _ _ _ | EvConnection _ _ | EvQueueEmpty => io_ret tt
  | _ =>
      let* now := on_app app_now in
      let* r := io_try (on_app (lift (inbox_Add (new_entry evt now)))) in
      match r with
      | Err e => io_err (Wrap [e])
      | Ok entry => let* _ := prune in notify entry
      end
  end.

(** [Run] on the events until the channel is closed. *)
Fixpoint run_events (events : list Event) : N unit :=
  match events with
  | [] => io_ret tt
  | evt :: rest =>
      let* _ := observe evt in
      match LostConnection evt with
      | Some e => io_err e
      | None => let* _ := store evt in run_events rest
      end
  end.

Definition Run (events : list Event) : N unit := let* _ := prune in run_events events.
End inbox.

(** ** Cursors *)

Lemma FormatCursor_nonempty id : 0 <= id <= MaxInt64 -> FormatCursor id <> ""%string.
Proof.
  intros H E. apply ParseInt_FormatInt in H. unfold FormatCursor in E. by rewrite E in H.
Qed.

Lemma parse_FormatCursor id : 0 <= id <= MaxInt64 -> parseCursor (FormatCursor id) = Ok id.
Proof.
  intros H. unfold parseCursor. rewrite bool_decide_eq_false_2 by by apply FormatCursor_nonempty.
  unfold FormatCursor. rewrite ParseInt_FormatInt by done. by rewrite (proj2 (Z.ltb_ge _ _)) by lia.
Qed.

(** ** Paging *)

(** The following requests of a client that reads page by page, until a page says that no more
    follow; [None] when [fuel] pages were not enough. *)
Fixpoint read_pages {W} {B : InboxBackend W} (fuel : nat) (req : MessagesRequest)
    : io (App W) err (option (list InboxEntry)) :=
  match fuel with
  | O => io_ret None
  | S fuel =>
      let* page := List_ req in
      if pg_More page then
        let* rest := read_pages fuel (mkMessagesRequest (mr_Chat req) (pg_Cursor page) (mr_Since req) (mr_Limit req)) in
        io_ret (app (pg_Entries page) <$> rest)
      else io_ret (Some (pg_Entries page))
  end.

Section paging.
Context {W : Type} {B : InboxBackend W} {L : InboxLaws W B}.

(** The entries a request with a cursor or a time asks for. *)
Definition asked_for (req : MessagesRequest) (after : Z) (v : list stored_entry) : list stored_entry :=
  filter (query_selects (mkQuery after 0 (mr_Chat req) (mr_Since req) false 0 false)) v.

Definition view_of (s : App W) : list stored_entry := inbox_view (app_world s).

Lemma lift_List q s r s' :
  inbox_inv (app_world s) -> lift (inbox_List q) s = (r, s') ->
  inbox_inv (app_world s') /\ view_of s' = view_of s /\ logs s' = logs s
  /\ match r with
     | Ok es => es = st_entry <$> query_view q (view_of s)
     | Err e => inbox_List q (app_world s) = (Err e, app_world s')
     end.
Proof.
  intros Hi H. unfold lift in H. destruct (inbox_List q (app_world s)) as [r0 w] eqn:E. injection H as <- <-. cbn.
  destruct (inbox_List_law _ _ _ _ Hi E) as (? & ? & ?). split_and!; try done. destruct r0; [auto|done].
Qed.

Lemma wrap_List q s r s' :
  inbox_inv (app_world s) -> wrap_inbox (lift (inbox_List q)) s = (r, s') ->
  inbox_inv (app_world s') /\ view_of s' = view_of s /\ logs s' = logs s
  /\ match r with
     | Ok es => es = st_entry <$> query_view q (view_of s)
     | Err _ => exists e, inbox_List q (app_world s) = (Err e, app_world s')
     end.
Proof.
  intros Hi H. unfold wrap_inbox, io_bind, io_try in H. destruct (lift (inbox_List q) s) as [r0 s1] eqn:E.
  apply lift_List in E as (? & ? & ? & Hr); [|done]. destruct r0; injection H as <- <-; split_and!; eauto.
Qed.

Lemma page_limit_bounds n : 1 <= page_limit n <= 200.
Proof. unfold page_limit, DefaultMessagesLimit, MaxMessagesLimit. destruct (n <=? 0) eqn:E; bool_hyps; lia. Qed.

Lemma asked_increasing req after s :
  inbox_inv (app_world s) -> increasing (entry_ids (asked_for req after (view_of s))).
Proof.
  intros Hi. eapply increasing_sublist; [|by apply inbox_increasing in Hi as [Hs _]]. apply sublist_fmap_filter.
Qed.

(** One page of a request with a cursor or a time. *)
Lemma List_page req after s r s' :
  inbox_inv (app_world s) -> parseCursor (mr_Cursor req) = Ok after ->
  mr_Cursor req <> ""%string \/ mr_Since req <> zero_time ->
  List_ req s = (r, s') ->
  inbox_inv (app_world s') /\ view_of s' = view_of s
  /\ match r with
     | Err _ => exists q w w' e, inbox_inv w /\ inbox_view w = view_of s /\ inbox_List q w = (Err e, w')
     | Ok page =>
         let limit := Z.to_nat (page_limit (mr_Limit req)) in
         let all := asked_for req after (view_of s) in
         pg_Entries page = st_entry <$> take limit all /\ pg_More page = bool_decide (limit < length all)%nat
         /\ forall x, last (take limit all) = Some x -> pg_Cursor page = FormatCursor (ie_ID (st_entry x))
     end.
Proof.
  intros Hi Hp Hor H. unfold List_, io_bind at 1, io_of in H. rewrite Hp in H.
  assert (Hnew : bool_decide (mr_Cursor req = ""%string) && IsZeroTime (mr_Since req) = false).
  { unfold IsZeroTime. apply andb_false_iff. destruct Hor; [left; by apply bool_decide_eq_false|right; by apply Z.eqb_neq]. }
  rewrite Hnew in H. set (n := page_limit (mr_Limit req)) in *.
  assert (Hn : 1 <= n <= 200) by apply page_limit_bounds.
  unfold io_bind at 1 in H. destruct (wrap_inbox _ s) as [[es|e] s1] eqn:E.
  2: { apply wrap_List in E as (? & ? & _ & e' & ?); [|done]. injection H as <- <-. split_and!; [done|done|]. eauto 10. }
  pose proof (wrap_List _ _ _ _ Hi E) as (Hi1 & Hv1 & _ & Hes). unfold query_view in Hes. cbn in Hes.
  rewrite (proj2 (Z.ltb_lt _ _)) in Hes by lia.
  assert (Hall : filter (query_selects (mkQuery after 0 (mr_Chat req) (mr_Since req) false (n + 1) false)) (view_of s)
                 = asked_for req after (view_of s)) by by apply list_filter_iff.
  rewrite Hall in Hes. clear Hall. set (all := asked_for req after (view_of s)) in *.
  assert (Hmore : (n <? len es) = bool_decide (Z.to_nat n < length all)%nat).
  { rewrite Hes. unfold len. rewrite length_fmap, length_take.
    apply Bool.eq_iff_eq_true. rewrite Z.ltb_lt, bool_decide_eq_true. lia. }
  assert (Htake : (if n <? len es then take (Z.to_nat n) es else es) = st_entry <$> take (Z.to_nat n) all).
  { rewrite Hmore, Hes. destruct (bool_decide (Z.to_nat n < length all)%nat) eqn:Hlt; bool_hyps.
    - rewrite <- fmap_take, take_take. do 2 f_equal. lia.
    - f_equal. rewrite !take_ge by lia. done. }
  rewrite Htake, Hmore in H. rewrite fmap_last in H. destruct (last (take (Z.to_nat n) all)) as [x|] eqn:El; cbn in H.
  - injection H as <- <-. split_and!; [done|done|]. cbv zeta. split_and!; [done|done|]. rewrite El. by intros y [= <-].
  - destruct (bool_decide (mr_Cursor req = "")) eqn:Ec; cbn in H.
    + unfold latestCursor, io_bind at 2 in H. unfold io_bind in H.
      destruct (wrap_inbox _ s1) as [[es'|e] s2] eqn:E2.
      * apply wrap_List in E2 as (? & Hv2 & _ & _); [|done].
        destruct es'; injection H as <- <-; (split_and!; [done|congruence|]); cbv zeta; rewrite El; split_and!; done.
      * apply wrap_List in E2 as (? & Hv2 & _ & e' & Herr); [|done]. injection H as <- <-.
        split_and!; [done|congruence|]. eauto 10.
    + injection H as <- <-. split_and!; [done|done|]. cbv zeta. rewrite El. split_and!; done.
Qed.

(** C34. Paging: a client that starts with a cursor or a time and follows the cursors of the
    pages gets every entry after the cursor, of the chat and not before the time, once and in
    order, after finitely many pages (unless the store fails). *)
Theorem read_pages_complete fuel req after s :
  inbox_inv (app_world s) -> parseCursor (mr_Cursor req) = Ok after ->
  mr_Cursor req <> ""%string \/ mr_Since req <> zero_time ->
  (length (asked_for req after (view_of s)) < fuel)%nat ->
  match read_pages fuel req s with
  | (Ok None, _) => False
  | (Ok (Some es), s') => es = st_entry <$> asked_for req after (view_of s) /\ view_of s' = view_of s
  | (Err _, _) => exists q w w' e, inbox_inv w /\ inbox_view w = view_of s /\ inbox_List q w = (Err e, w')
  end.
Proof.
  revert req after s. induction fuel as [|fuel IH]; intros req after s Hi Hp Hor Hf; [lia|]. cbn [read_pages].
  unfold io_bind at 1. destruct (List_ req s) as [[page|e] s1] eqn:E;
    destruct (List_page _ _ _ _ _ Hi Hp Hor E) as (Hi1 & Hv1 & H); [|done].
  cbv zeta in H. set (all := asked_for req after (view_of s)) in *.
  set (n := Z.to_nat (page_limit (mr_Limit req))) in *. pose proof (page_limit_bounds (mr_Limit req)) as Hn.
  destruct H as (He & Hm & Hc). rewrite Hm. case_bool_decide as Hlt; [|rewrite He, take_ge by lia; done].
  destruct (last (take n all)) as [x|] eqn:El.
  2: { apply last_None in El. apply (f_equal length) in El. rewrite length_take in El. cbn in El. lia. }
  rewrite (Hc x eq_refl). set (req' := mkMessagesRequest _ _ _ _).
  assert (Hx : x ∈ all).
  { apply last_Some in El as [l' El]. assert (Hin : x ∈ take n all) by (rewrite El, elem_of_app, list_elem_of_singleton; by right).
    eapply elem_of_sublist; [exact Hin|apply take_sublist]. }
  apply list_elem_of_filter in Hx as [(Ha & _) Hxv]. cbn in Ha.
  destruct (inbox_increasing _ Hi) as [_ Hids]. apply Hids in Hxv as Hxid.
  assert (Hrest : asked_for req' (ie_ID (st_entry x)) (view_of s1) = drop n all).
  { rewrite Hv1, <- (page_rest (fun x => ie_ID (st_entry x)) all n x); [|by apply asked_increasing|done].
    unfold all, asked_for. rewrite list_filter_filter. apply list_filter_iff. intros y. unfold query_selects; cbn.
    split; [intros (H1 & H2 & H3 & H4 & H5)|intros (H1 & H2 & H3 & H4 & H5 & H6)]; split_and!; try done; intros; lia. }
  assert (Hp' : parseCursor (mr_Cursor req') = Ok (ie_ID (st_entry x))) by (apply parse_FormatCursor; lia).
  assert (Hne : mr_Cursor req' <> ""%string) by (apply FormatCursor_nonempty; lia).
  specialize (IH req' _ s1 Hi1 Hp' (or_introl Hne)). rewrite Hrest, length_drop in IH.
  specialize (IH ltac:(lia)). unfold io_bind. destruct (read_pages fuel req' s1) as [[[es|]|e] s2]; [|done|].
  - destruct IH as [-> Hv2]. cbn. rewrite He, <- fmap_app, take_drop. split; [done|congruence].
  - by rewrite Hv1 in IH.
Qed.
End paging.

(** ** Read receipts *)

Section marking.
Context {W : Type} {C : Client W} {B : InboxBackend W} {L : InboxLaws W B}.

(** A receipt goes to the server: it leaves the inbox alone. *)
Definition receipts_keep_inbox : Prop := forall rcpt typ ts w r w',
  client_SendReceipt rcpt typ ts w = (r, w') -> inbox_inv w -> inbox_inv w' /\ inbox_view w' = inbox_view w.

Lemma send_receipt_keeps rcpt typ ts (s : App W) r s' :
  receipts_keep_inbox -> inbox_inv (app_world s) -> send_receipt rcpt typ ts s = (r, s') ->
  inbox_inv (app_world s') /\ view_of s' = view_of s /\ logs s' = (app_lastTimestamp s, app_sent s, app_receipts s ++ [(rcpt, typ, ts)]).
Proof.
  intros Hk Hi H. unfold send_receipt, io_bind, get, put, lift in H. cbn in H.
  destruct (client_SendReceipt _ _ _ (app_world s)) as [r0 w] eqn:E. injection H as <- <-.
  destruct (Hk _ _ _ _ _ _ E Hi) as [? ?]. done.
Qed.

Definition receipt_of (p : pendingReceipt) : Recipient * ReceiptType * list Z := (pr_sender p, ReceiptRead, pr_timestamps p).

Lemma send_read_run q (s : App W) :
  receipts_keep_inbox -> inbox_inv (app_world s) ->
  exists sent errs s', send_read q s = (Ok (sent, errs), s')
    /\ inbox_inv (app_world s') /\ view_of s' = view_of s
    /\ logs s' = (app_lastTimestamp s, app_sent s, app_receipts s ++ (receipt_of <$> q))
    /\ sent `sublist_of` q /\ (errs = [] <-> sent = q) /\ len sent + len errs = len q.
Proof.
  intros Hk. revert s. induction q as [|p q IH]; intros s Hi; cbn [send_read].
  { exists [], [], s. unfold logs. cbn. rewrite app_nil_r. split_and!; done. }
  unfold io_bind, io_try. destruct (send_receipt (pr_sender p) ReceiptRead (pr_timestamps p) s) as [r s1] eqn:E.
  destruct (send_receipt_keeps _ _ _ _ _ _ Hk Hi E) as (Hi1 & Hv1 & Hl1).
  destruct (IH s1 Hi1) as (sent & errs & s2 & -> & Hi2 & Hv2 & Hl2 & Hsub & Hiff & Hlen).
  assert (Hl : logs s2 = (app_lastTimestamp s, app_sent s, app_receipts s ++ (receipt_of <$> p :: q))).
  { rewrite Hl2. unfold logs in Hl1. injection Hl1 as -> -> ->. cbn. by rewrite <- app_assoc. }
  cbn. unfold len in *. destruct r; cbn; do 3 eexists; (split; [reflexivity|]); split_and!; try done; try congruence.
  - by constructor.
  - rewrite Hiff. split; [by intros ->|by intros [= ->]].
  - cbn in *. lia.
  - by constructor.
  - split; [done|]. intros ->. apply sublist_length in Hsub. cbn in Hsub. lia.
  - cbn in *. lia.
Qed.

(** No entry is asked for: an explicit cursor before all entries, or no unread entry up to it. *)
Definition nothing_to_mark (req : MarkReadRequest) (v : list stored_entry) : Prop :=
  exists until, parseCursor (mrr_Cursor req) = Ok until
    /\ ((mrr_Cursor req <> ""%string /\ until = 0)
        \/ query_view (mkQuery 0 until (mrr_Chat req) zero_time true 0 false) v = []).

(** Marking read: the client gets one read receipt per sender, for exactly the unread
    entries of the chat up to the cursor; what becomes read in the inbox is only what the
    receipts that were sent cover; without an error every receipt was sent and all of those
    messages are read. *)
Theorem MarkRead_spec req (s : App W) :
  receipts_keep_inbox -> inbox_inv (app_world s) ->
  match MarkRead req s with
  | (Err _, _) => False
  | (Ok (out, e), s') =>
      (view_of s' = view_of s /\ logs s' = logs s /\ out = mkMarkReadResult 0 0
       /\ (is_set e = false -> nothing_to_mark req (view_of s)))
      \/ exists until sent,
        parseCursor (mrr_Cursor req) = Ok until
        /\ (let entries := st_entry <$> query_view (mkQuery 0 until (mrr_Chat req) zero_time true 0 false) (view_of s) in
            let q := queued (ie_Event <$> entries) in
            logs s' = (app_lastTimestamp s, app_sent s, app_receipts s ++ (receipt_of <$> q))
            /\ sent `sublist_of` q /\ mrs_Senders out = len sent
            /\ (view_of s' = view_of s \/ view_of s' = mark_view (mbind receipt_marks sent) (view_of s))
            /\ (e = None -> sent = q /\ (mbind receipt_marks sent = [] \/ view_of s' = mark_view (mbind receipt_marks sent) (view_of s))))
  end.
Proof.
  intros Hk Hi. unfold MarkRead. unfold io_bind at 1, io_try at 1.
  unfold markReadEntries, io_bind at 1, io_of. destruct (parseCursor (mrr_Cursor req)) as [until|e] eqn:Ep; [|by left].
  destruct ((mrr_Cursor req != ""%string) && (until =? 0)) eqn:Ez.
  { left. split_and!; try done. intros _. exists until. split; [done|left]. by bool_hyps. }
  destruct (wrap_inbox _ s) as [[es|e] s1] eqn:E; apply wrap_List in E as (Hi1 & Hv1 & Hl1 & Hes); [| done | |done].
  2: { by left. }
  destruct es as [|e0 es0] eqn:Ees.
  { left. split_and!; try done. intros _. exists until. split; [done|right]. by destruct (query_view _ _). } rewrite <- Ees in *. clear Ees e0 es0.
  unfold io_bind at 1. destruct (send_read_run (queued (ie_Event <$> es)) s1 Hk Hi1)
    as (sent & errs & s2 & -> & Hi2 & Hv2 & Hl2 & Hsub & Hiff & Hlen).
  assert (Hl : logs s2 = (app_lastTimestamp s, app_sent s, app_receipts s ++ (receipt_of <$> queued (ie_Event <$> es)))).
  { rewrite Hl2. unfold logs in Hl1. by injection Hl1 as -> -> ->. }
  assert (Hv : view_of s2 = view_of s) by congruence. cbn [io_ret].
  destruct (0 <? len (mbind receipt_marks sent)) eqn:Em; bool_hyps.
  - unfold io_bind, io_try, lift. destruct (inbox_MarkRead (mbind receipt_marks sent) (app_world s2)) as [r w] eqn:E2.
    apply inbox_MarkRead_law in E2 as [Hi3 Hm]; [|done]. unfold view_of in Hv. destruct r as [n|e].
    + destruct Hm as [Hm ->]. right. exists until, sent. split; [done|]. cbv zeta. rewrite <- Hes. unfold view_of. cbn.
      rewrite Hm, Hv. split_and!; [by rewrite <- Hl|done|done|by right|]. intros ->%errorsJoin_None. split; [by apply Hiff|by right].
    + right. exists until, sent. split; [done|]. cbv zeta. rewrite <- Hes. unfold view_of. cbn.
      rewrite Hm, Hv. split_and!; [by rewrite <- Hl|done|done|by left|]. intros Hn%errorsJoin_None. by destruct errs.
  - right. exists until, sent. split; [done|]. cbv zeta. rewrite <- Hes. unfold view_of in *. cbn [app_world].
    split_and!; [by rewrite <- Hl|done|done|by left|]. intros ->%errorsJoin_None. split; [by apply Hiff|left].
    unfold len in *. destruct (mbind receipt_marks sent); [done|cbn in *; lia].
Qed.
End marking.

(** ** The receive loop *)

Section receiving.
Context {W : Type} {C : Client W} {B : InboxBackend W} {L : InboxLaws W B} (opts : InboxOptions).

(** Reading the clock leaves the inbox alone. *)
Definition clock_keeps_inbox : Prop := forall w t w', client_now w = (t, w') -> inbox_inv w -> inbox_inv w'.

(** The events that become entries. *)
Definition kept (evt : Event) : bool :=
  match evt with
  | EvReadSync _ _ | EvTyping _ _ | EvReceipt _ _ _ | EvConnection _ _ | EvQueueEmpty => false
  | _ => true
  end.

(** An entry made for [evt]. *)
Definition entry_for (evt : Event) (e : InboxEntry) : Prop :=
  ie_Event e = evt /\ ie_Chat e = eventChat evt /\ ie_Unread e = isIncoming evt
  /\ ie_Time e = eventTime evt (ie_ReceivedAt e).

Definition conn_state (old : ConnectionState) (evt : Event) : ConnectionState :=
  match evt with EvConnection state _ => state | _ => old end.

(** The invariant of the loop and what a step leaves unchanged. *)
Definition ok (i : Inbox W) : Prop := inbox_inv (app_world (ix_app i)).

Lemma on_app_now_run i : clock_keeps_inbox -> ok i ->
  exists t i', on_app app_now i = (Ok t, i') /\ ok i' /\ ix_conn i' = ix_conn i /\ ix_added i' = ix_added i.
Proof.
  intros Hc Hi. unfold on_app, app_now. destruct (client_now (app_world (ix_app i))) as [t w] eqn:E.
  do 2 eexists. split_and!; [reflexivity| |done|done]. by eapply Hc.
Qed.

Lemma observe_run evt i : clock_keeps_inbox -> ok i ->
  exists i', observe evt i = (Ok tt, i') /\ ok i' /\ ix_added i' = ix_added i
    /\ cs_State (ix_conn i') = conn_state (cs_State (ix_conn i)) evt.
Proof.
  intros Hc Hi. unfold observe, io_bind. destruct (on_app_now_run i Hc Hi) as (t & i1 & -> & Hi1 & Hcn & Ha).
  eexists. split_and!; [reflexivity|done|done|]. cbn. rewrite Hcn. by destruct evt.
Qed.

Lemma prune_run i : clock_keeps_inbox -> ok i ->
  exists i', prune opts i = (Ok tt, i') /\ ok i' /\ ix_added i' = ix_added i /\ ix_conn i' = ix_conn i.
Proof.
  intros Hc Hi. unfold prune. destruct (_ && _); [by eexists|].
  assert (Hb : exists t i1, (if 0 <? opt_MaxAge opts then let* now := on_app app_now in io_ret (now - opt_MaxAge opts)
                             else io_ret zero_time) i = (@Ok err _ t, i1) /\ ok i1 /\ ix_conn i1 = ix_conn i /\ ix_added i1 = ix_added i).
  { destruct (0 <? opt_MaxAge opts); [|by do 2 eexists].
    unfold io_bind. destruct (on_app_now_run i Hc Hi) as (t & i1 & -> & ?). by do 2 eexists. }
  unfold io_bind at 1. destruct Hb as (t & i1 & -> & Hi1 & Hcn & Ha). unfold io_bind, io_try, on_app, lift.
  destruct (inbox_Prune t _ _) as [r w] eqn:E. cbn. eexists. split_and!; [reflexivity| |done|done].
  apply inbox_Prune_law in E as [? _]; done.
Qed.

Lemma store_run evt i r i' : clock_keeps_inbox -> ok i -> store opts evt i = (r, i') ->
  ok i' /\ ix_conn i' = ix_conn i
  /\ match r with
     | Err _ => kept evt = true /\ ix_added i' = ix_added i
     | Ok _ => if kept evt then exists e, ix_added i' = ix_added i ++ [e] /\ entry_for evt e else ix_added i' = ix_added i
     end.
Proof.
  intros Hc Hi H.
  assert (Hadd : forall r i', (let* now := on_app app_now in
      let* r := io_try (on_app (lift (inbox_Add (new_entry evt now)))) in
      match r with
      | Err e => io_err (Wrap [e])
      | Ok entry => let* _ := prune opts in notify entry
      end) i = (r, i') ->
    ok i' /\ ix_conn i' = ix_conn i
    /\ match r with
       | Err _ => ix_added i' = ix_added i
       | Ok _ => exists e, ix_added i' = ix_added i ++ [e] /\ entry_for evt e
       end).
  { clear r i' H. intros r i' H. unfold io_bind at 1 in H.
    destruct (on_app_now_run i Hc Hi) as (t & i1 & Hr1 & Hi1 & Hcn & Ha). rewrite Hr1 in H.
    unfold io_bind at 1, io_try at 1, on_app, lift in H.
    destruct (inbox_Add (new_entry evt t) (app_world (ix_app i1))) as [r2 w] eqn:E2.
    apply inbox_Add_law in E2 as [Hi2 Hr2]; [|done]. destruct r2 as [e|e].
    - destruct Hr2 as (x & _ & -> & _). unfold io_bind in H.
      match type of H with context [prune opts ?j] => destruct (prune_run j Hc Hi2) as (i3 & Hp & Hi3 & Ha3 & Hc3) end.
      rewrite Hp in H. injection H as <- <-. cbn in *. split_and!; [done|congruence|].
      eexists. rewrite Ha3, Ha. by split.
    - injection H as <- <-. cbn. by split_and!. }
  unfold store in H. destruct evt; cbn [kept];
    try (apply Hadd in H as (? & ? & H); split_and!; [done|done|]; destruct r; [exact H|by split]);
    try (injection H as <- <-; by split_and!).
  unfold io_bind, io_try, on_app, lift in H. destruct (inbox_MarkRead _ _) as [r2 w] eqn:E2.
  apply inbox_MarkRead_law in E2 as [Hi2 _]; [|done]. injection H as <- <-. by split_and!.
Qed.

End receiving.

(** ** Witnesses *)

Section witnesses.
Import DemoUuid.

Definition demo_sender : string := "22222222-2222-4222-8222-222222222222".
Definition demo_message : Event :=
  EvMessage (mkEnvelope (ofACI demo_sender) (mkChat "" (ofACI demo_sender)) 11 0 false) (mkMessage "hi" [] [] None None None false []).

(** An encoding that knows one message; no polls. *)
#[local] Instance demo_encoding : Encoding := {|
  json_event := fun _ => Some "m"%string; json_failure := fun _ => None; json_stored := fun _ => Some "stored"%string;
  json_decode := fun _ _ => Some demo_message; json_decode_failure := fun _ => None;
  json_decode_stored := fun _ => Some (mkStoredEvent storedMessage "m" (mkChat "" (ofACI demo_sender)));
  err_text := fun _ => "error"%string |}.
#[local] Instance demo_poll_encoding : PollEncoding := {|
  json_state := fun _ => None; json_decode_state := fun _ _ => None; sha256_hex := id; quote_poll := fun s _ => s |}.
#[local] Instance demo_backend : InboxBackend mclient := client_backend elements.
#[local] Instance demo_laws : InboxLaws mclient demo_backend := client_laws elements.
#[local] Instance demo_sender_client : Client mclient := {|
  client_Account := io_ret (mkAccount "+4915112345678" "11111111-1111-4111-8111-111111111111" "" 1 "" 0 0 zero_time);
  client_Connect := io_ret tt;
  client_Resolve := fun rs => io_ret rs;
  client_Send := fun req => io_ret (mkSigResult (req_Timestamp req) [] None);
  client_SendReceipt := fun _ _ _ => io_ret tt;
  client_now := fun w => (9000000, w) |}.

(** Three messages, all unread. *)
Definition demo_client : mclient :=
  mkClient false None (mkPollDB
    (mkTable 5 [mkRow 1 10 10 "a" demo_sender 11 true "stored"; mkRow 2 20 20 "a" demo_sender 11 true "stored";
                mkRow 5 30 30 "a" demo_sender 12 true "stored"]) true [] ∅).
Definition demo_app : App mclient := mkApp 0 ∅ [] [] demo_client.

Lemma demo_inv : inbox_inv (app_world demo_app).
Proof.
  cbn. unfold client_inv. cbn. split; [|split].
  - repeat constructor; lia.
  - intros r Hr. repeat (apply elem_of_cons in Hr as [->|Hr]; [cbn; lia|]). by apply elem_of_nil in Hr.
  - cbn. unfold MaxInt64. lia.
Defined.

(** Two entries after the first, one per page. *)
Lemma read_pages_complete_witness :
  match read_pages 3 (mkMessagesRequest "a" "1" zero_time 1) demo_app with
  | (Ok (Some es), _) => (ie_ID <$> es) = [2; 5]
  | _ => False
  end.
Proof.
  set (req := mkMessagesRequest "a" "1" zero_time 1).
  assert (Hp : parseCursor (mr_Cursor req) = Ok 1) by (vm_compute; reflexivity).
  assert (Hc : mr_Cursor req <> ""%string) by discriminate.
  assert (Hf : (length (asked_for req 1 (view_of demo_app)) < 3)%nat) by (vm_compute; lia).
  pose proof (read_pages_complete 3 req 1 demo_app demo_inv Hp (or_introl Hc) Hf) as S.
  assert (E : match (read_pages 3 req demo_app).1 with Ok (Some _) => true | _ => false end = true) by (vm_compute; reflexivity).
  destruct (read_pages 3 req demo_app) as [[[es|]|e] s']; [|discriminate E|discriminate E].
  destruct S as [-> _]. vm_compute. reflexivity.
Defined.

Lemma demo_receipts : receipts_keep_inbox.
Proof. intros rcpt typ ts w r w' H Hi. cbn in H. injection H as _ <-. exact (conj Hi eq_refl). Defined.

Lemma MarkRead_spec_witness :
  match MarkRead (mkMarkReadRequest "a" "2") demo_app with
  | (Ok (out, e), s') => out = mkMarkReadResult 2 1 /\ e = None
      /\ app_receipts s' = [(ofACI demo_sender, ReceiptRead, [11])]
  | (Err _, _) => False
  end.
Proof.
  pose proof (MarkRead_spec (mkMarkReadRequest "a" "2") demo_app demo_receipts demo_inv) as S.
  assert (E : match MarkRead (mkMarkReadRequest "a" "2") demo_app with
              | (Ok (out, e), _) => out = mkMarkReadResult 2 1 /\ e = None | _ => False end) by (vm_compute; split; reflexivity).
  destruct (MarkRead (mkMarkReadRequest "a" "2") demo_app) as [[[out e]|e] s']; [|contradiction E].
  destruct E as [-> ->]. split; [reflexivity|]. split; [reflexivity|].
  destruct S as [(_ & _ & H & _)|(until & sent & Hp & Hl & _)]; [discriminate H|].
  assert (Hu : until = 2) by (vm_compute in Hp; injection Hp as <-; reflexivity). subst until.
  unfold logs in Hl. apply (f_equal snd) in Hl. cbn [snd] in Hl. rewrite Hl. vm_compute. reflexivity.
Defined.

Lemma demo_clock : clock_keeps_inbox.
Proof. intros w t w' H Hi. cbn in H. injection H as _ <-. exact Hi. Defined.

Definition demo_stored : list Event :=
  [EvQueueEmpty; demo_message; EvConnection StateConnected None; EvConnection StateFailed None; demo_message].
Definition demo_inbox : Inbox mclient := mkInbox demo_app (mkStatus StateNone zero_time None zero_time) 0 [].

End witnesses.
