(* ===== verification/InboxWait.v ===== *)
(** * Waiting for messages (internal/app/inbox.go)

    [Wait] looks into the inbox and then waits for the receive loop to store something, for its timer or for the
    end of its context. The receive loop runs meanwhile: [turn] says which events it takes between the steps of
    [Wait], so that the theorem holds however the two are interleaved. *)

From S2P Require Import Prelude Errors Uuid Strconv Types SendCheck Recipients SendFlow InboxStore InboxEvents PollStore InboxClient InboxApp.

Definition DefaultWait : Z := 30 * 1000000000.
Definition MaxWait : Z := 60 * 1000000000.

(** The case that the select takes; the channel of [changed] must have been closed for the first. *)
Inductive wake := Woken | TimerFired | Canceled.
(** What the receive loop takes after the channel has been read and before the inbox is, and then before the select. *)
Record turn := mkTurn { tn_before : list Event; tn_after : list Event; tn_wake : wake }.

Section wait.
Context {W : Type} {C : Client W} {B : InboxBackend W} (opts : InboxOptions).
Notation N := (io (Inbox W) err).

Definition receive (events : list Event) : N unit := let* _ := io_try (run_events opts events) in io_ret tt.

Definition with_cursor (req : MessagesRequest) (cursor : string) : MessagesRequest :=
  mkMessagesRequest (mr_Chat req) cursor (mr_Since req) (mr_Limit req).

(** The loop; after the last turn nothing happens until the timer fires. A select that may not take the case of
    the channel waits for the timer, too. *)
Fixpoint wait_loop (turns : list turn) (req : MessagesRequest) : N MessagesPage :=
  match turns with
  | [] => on_app (List_ req)
  | t :: rest =>
      let* changed := (fun i => (Ok (ix_changed i), i)) in
      let* _ := receive (tn_before t) in
      let* page := on_app (List_ req) in
      if (0 <? len (pg_Entries page))%Z then io_ret page
      else
        let* _ := receive (tn_after t) in
        let* now := (fun i => (Ok (ix_changed i), i)) in
        match tn_wake t with
        | Woken => if now == changed then io_ret page else wait_loop rest req
        | TimerFired => io_ret page
        | Canceled => io_err (Wrap [Sent ContextCanceled])
        end
  end.

(** [turns] is what happens until a timer of the duration fires. *)
Definition Wait (req : MessagesRequest) (timeout : Z) (turns : Z -> list turn) : N MessagesPage :=
  let timeout := if timeout <=? 0 then DefaultWait else timeout in
  let turns := turns (Z.min timeout MaxWait) in
  if mr_Cursor req == ""%string then
    let* cursor := on_app latestCursor in wait_loop turns (with_cursor req cursor)
  else wait_loop turns req.
End wait.

(** ** What the receive loop does to a waiting client *)

Section quiet.
Context {W : Type} {C : Client W} {B : InboxBackend W} {L : InboxLaws W B} (opts : InboxOptions).

(** Reading the clock leaves the inbox alone. *)
Definition clock_keeps_view : Prop := forall w t w', client_now w = (t, w') -> inbox_inv w -> inbox_inv w' /\ inbox_view w' = inbox_view w.

Definition inbox_entries (i : Inbox W) : list stored_entry := view_of (ix_app i).
(** The inbox has nothing that the request selects after its cursor. *)
Definition nothing_new (req : MessagesRequest) (after : Z) (i : Inbox W) : Prop := asked_for req after (inbox_entries i) = [].

(** Unless the waiters are woken, nothing new is in the inbox that was not there before. *)
Definition quiet (i i' : Inbox W) : Prop :=
  ok i' /\ ix_changed i <= ix_changed i'
  /\ (ix_changed i' = ix_changed i -> forall req after, nothing_new req after i -> nothing_new req after i').

Lemma quiet_refl i : ok i -> quiet i i.
Proof. intros. by split; [|split]. Qed.
Lemma quiet_trans i1 i2 i3 : quiet i1 i2 -> quiet i2 i3 -> quiet i1 i3.
Proof. intros (? & ? & H1) (? & ? & H2). split; [done|]. split; [lia|]. intros Heq req after Hn. apply H2; [lia|]. apply H1; [lia|done]. Qed.
(** Entries may go, be read, or stay. *)
Lemma quiet_same i i' : ok i' -> ix_changed i' = ix_changed i -> inbox_entries i' = inbox_entries i -> quiet i i'.
Proof. intros Hi Hc Hv. split; [done|]. split; [lia|]. unfold nothing_new. by rewrite Hv. Qed.
Lemma quiet_woken i i' : ok i' -> ix_changed i < ix_changed i' -> quiet i i'.
Proof. intros Hi Hc. split; [done|]. split; lia. Qed.

Lemma nothing_sublist req after v v' : v' `sublist_of` v -> asked_for req after v = [] -> asked_for req after v' = [].
Proof.
  intros Hs Hn. apply elem_of_nil_inv. intros x [Hx Hin]%list_elem_of_filter. apply (not_elem_of_nil x). rewrite <- Hn.
  apply list_elem_of_filter. split; [done|]. by eapply elem_of_sublist.
Qed.
Lemma nothing_marked req after marks v : asked_for req after v = [] -> asked_for req after (mark_view marks v) = [].
Proof.
  unfold asked_for, mark_view. induction v as [|x v IH]; [done|]. rewrite fmap_cons, !filter_cons. destruct (decide _) as [|Hx]; [done|]. intros Hn.
  rewrite decide_False; [by apply IH|]. intros Hs. apply Hx. revert Hs. unfold query_selects. destruct (mark_matches marks x); [|done]. cbn. intros (H1 & H2 & H3 & H4 & _). by repeat (split; [assumption|]).
Qed.

Section steps.
Context (Hclock : clock_keeps_view).

Lemma quiet_now i : ok i -> exists t i', on_app app_now i = (Ok t, i') /\ quiet i i' /\ ix_changed i' = ix_changed i.
Proof.
  intros Hi. unfold on_app, app_now. destruct (client_now (app_world (ix_app i))) as [t w] eqn:E. destruct (Hclock _ _ _ E Hi) as [Hi' Hv].
  do 2 eexists. split; [reflexivity|]. split; [by apply quiet_same|done].
Qed.

Lemma quiet_observe evt i : ok i -> exists i', observe evt i = (Ok tt, i') /\ quiet i i'.
Proof.
  intros Hi. unfold observe, io_bind. destruct (quiet_now i Hi) as (t & i1 & -> & Hq & _). eexists. split; [reflexivity|].
  eapply quiet_trans; [exact Hq|]. apply quiet_same; [apply Hq|done|done].
Qed.

Lemma quiet_prune i : ok i -> exists i', prune opts i = (Ok tt, i') /\ quiet i i' /\ ix_changed i' = ix_changed i.
Proof.
  intros Hi. unfold prune. destruct (_ && _); [exists i; split; [done|]; split; [by apply quiet_refl|done]|].
  assert (Hb : exists t i1, (if 0 <? opt_MaxAge opts then let* now := on_app app_now in io_ret (now - opt_MaxAge opts)
                             else io_ret zero_time) i = (@Ok err _ t, i1) /\ quiet i i1 /\ ix_changed i1 = ix_changed i).
  { destruct (0 <? opt_MaxAge opts); [|exists zero_time, i; split; [done|]; split; [by apply quiet_refl|done]].
    unfold io_bind. destruct (quiet_now i Hi) as (t & i1 & -> & ?). by do 2 eexists. }
  unfold io_bind at 1. destruct Hb as (t & i1 & -> & Hq & Hc). unfold io_bind, io_try, on_app, lift.
  destruct (inbox_Prune t _ _) as [r w] eqn:E. apply inbox_Prune_law in E as [Hi2 Hs]; [|apply Hq]. cbn. eexists. split; [reflexivity|].
  split; [|done]. eapply quiet_trans; [exact Hq|]. split; [done|]. split; [done|]. intros _ req after. by apply nothing_sublist.
Qed.

Lemma quiet_store evt i r i' : ok i -> store opts evt i = (r, i') -> quiet i i'.
Proof.
  intros Hi H.
  assert (Hadd : (let* now := on_app app_now in
      let* r := io_try (on_app (lift (inbox_Add (new_entry evt now)))) in
      match r with
      | Err e => io_err (Wrap [e])
      | Ok entry => let* _ := prune opts in notify entry
      end) i = (r, i') -> quiet i i').
  { clear H. intros H. unfold io_bind at 1 in H. destruct (quiet_now i Hi) as (t & i1 & Hr1 & Hq1 & Hc1). rewrite Hr1 in H.
    unfold io_bind at 1, io_try at 1, on_app, lift in H. destruct (inbox_Add (new_entry evt t) (app_world (ix_app i1))) as [r2 w] eqn:E2.
    apply inbox_Add_law in E2 as [Hi2 Hr2]; [|apply Hq1]. destruct r2 as [e|e].
    - unfold io_bind in H. match type of H with context [prune opts ?j] => destruct (quiet_prune j Hi2) as (i3 & Hp & Hq3 & Hc3) end.
      rewrite Hp in H. injection H as <- <-. apply quiet_woken; [apply Hq3|]. cbn in *. lia.
    - injection H as <- <-. eapply quiet_trans; [exact Hq1|]. by apply quiet_same. }
  unfold store in H. destruct evt; try (by apply Hadd); try (injection H as <- <-; by apply quiet_refl).
  unfold io_bind, io_try, on_app, lift in H. destruct (inbox_MarkRead _ _) as [r2 w] eqn:E2. apply inbox_MarkRead_law in E2 as [Hi2 Hv]; [|done].
  injection H as <- <-. split; [done|]. split; [done|]. intros _ req after Hn. unfold nothing_new, inbox_entries, view_of. cbn.
  destruct r2; [destruct Hv as [-> _]; by apply nothing_marked|by rewrite Hv].
Qed.

Lemma quiet_run events i r i' : ok i -> run_events opts events i = (r, i') -> quiet i i'.
Proof.
  revert i r i'. induction events as [|evt rest IH]; intros i r i' Hi; cbn [run_events]; [intros [= _ <-]; by apply quiet_refl|].
  unfold io_bind at 1. destruct (quiet_observe evt i Hi) as (i1 & -> & Hq1). destruct (LostConnection evt); [by intros [= _ <-]|].
  unfold io_bind. destruct (store opts evt i1) as [r2 i2] eqn:E2. apply quiet_store in E2; [|apply Hq1].
  pose proof (quiet_trans _ _ _ Hq1 E2) as Hq. destruct r2; [|by intros [= _ <-]]. intros H. apply IH in H; [|apply Hq]. by eapply quiet_trans.
Qed.

Lemma quiet_receive events i : ok i -> exists i', receive opts events i = (Ok tt, i') /\ quiet i i'.
Proof.
  intros Hi. unfold receive, io_bind, io_try. destruct (run_events opts events i) as [r i'] eqn:E. apply quiet_run in E; [|done].
  exists i'. by split.
Qed.
End steps.
End quiet.

(** ** The result *)

Section waiting.
Context {W : Type} {C : Client W} {B : InboxBackend W} {L : InboxLaws W B} (opts : InboxOptions).

(** A page with the first entries after the cursor that are in the inbox, and a cursor that resumes after them. *)
Definition page_found (req : MessagesRequest) (after : Z) (page : MessagesPage) (i : Inbox W) : Prop :=
  let limit := Z.to_nat (page_limit (mr_Limit req)) in
  let all := asked_for req after (inbox_entries i) in
  pg_Entries page <> [] /\ pg_Entries page = st_entry <$> take limit all /\ pg_More page = bool_decide (limit < length all)%nat
  /\ exists x, last (take limit all) = Some x /\ pg_Cursor page = FormatCursor (ie_ID (st_entry x)).
(** No entries, and the cursor to go on waiting with. *)
Definition page_empty (req : MessagesRequest) (page : MessagesPage) : Prop := page = mkPage [] (mr_Cursor req) false.

Definition store_failed : Prop := exists q w w' e, inbox_inv w /\ inbox_List q w = (Err e, w').

Lemma List_empty_cursor req (s : App W) page s' : mr_Cursor req <> ""%string -> List_ req s = (Ok page, s') -> pg_Entries page = [] ->
  pg_Cursor page = mr_Cursor req.
Proof.
  intros Hne H He. unfold List_, io_bind at 1, io_of in H. destruct (parseCursor (mr_Cursor req)) as [after|e]; [|done].
  unfold io_bind in H. destruct (wrap_inbox _ s) as [[es|e] s1]; [|done]. rewrite (bool_decide_eq_false_2 (mr_Cursor req = ""%string)) in H by done.
  cbn [negb andb] in H. match type of H with context [last ?l] => destruct (last l) as [x|] eqn:El end; [|by injection H as <- _].
  injection H as <- _. cbn in He. rewrite He in El. done.
Qed.

Lemma look_run req after i r i' : ok i -> parseCursor (mr_Cursor req) = Ok after -> mr_Cursor req <> ""%string -> on_app (List_ req) i = (r, i') ->
  ok i' /\ ix_changed i' = ix_changed i
  /\ match r with
     | Err _ => store_failed
     | Ok page => (page_empty req page /\ nothing_new req after i') \/ page_found req after page i'
     end.
Proof.
  intros Hi Hp Hne H. unfold on_app in H. destruct (List_ req (ix_app i)) as [r1 s1] eqn:E. injection H as -> <-.
  destruct (List_page _ _ _ _ _ Hi Hp (or_introl Hne) E) as (Hi1 & Hv1 & H1). split; [done|]. split; [done|]. destruct r as [page|e].
  2: { destruct H1 as (q & w & w' & e' & Hw & _ & Hl). by exists q, w, w', e'. }
  cbv zeta in H1. destruct H1 as (He & Hm & Hc). rewrite <- Hv1 in He, Hm, Hc. pose proof (page_limit_bounds (mr_Limit req)) as Hn.
  unfold nothing_new, page_found, inbox_entries. cbn [ix_app]. cbv zeta. set (all := asked_for req after (view_of s1)) in *.
  set (n := Z.to_nat (page_limit (mr_Limit req))) in *. destruct all as [|x rest] eqn:Eall.
  - left. split; [|done]. rewrite take_nil in He. pose proof (List_empty_cursor _ _ _ _ Hne E He) as Hcur. destruct page as [es c m]. cbn in *.
    subst. unfold page_empty. done.
  - right. destruct n as [|n0] eqn:En; [lia|]. split; [by rewrite He|]. split; [done|]. split; [done|].
    destruct (last (take (S n0) (x :: rest))) as [y|] eqn:El; [|by apply last_None in El]. exists y. split; [done|]. by apply Hc.
Qed.

Lemma wait_loop_spec turns req after i : clock_keeps_view -> ok i -> parseCursor (mr_Cursor req) = Ok after -> mr_Cursor req <> ""%string ->
  let (r, i') := wait_loop opts turns req i in
  match r with
  | Ok page => (page_empty req page /\ (Forall (fun t => tn_wake t <> TimerFired) turns -> nothing_new req after i')) \/ page_found req after page i'
  | Err e => store_failed \/ (e = Wrap [Sent ContextCanceled] /\ Exists (fun t => tn_wake t = Canceled) turns)
  end.
Proof.
  intros Hclock Hi Hp Hne. revert i Hi. induction turns as [|t rest IH]; intros i Hi; cbn [wait_loop].
  { destruct (on_app (List_ req) i) as [r i'] eqn:E. apply (look_run _ after) in E as (_ & _ & H); try done. destruct r as [page|e]; [|by left].
    destruct H as [[Hpe Hn]|H]; [left; by split|by right]. }
  unfold io_bind at 1. unfold io_bind at 1. destruct (quiet_receive opts Hclock (tn_before t) i Hi) as (i1 & -> & Hq1).
  unfold io_bind at 1. destruct (on_app (List_ req) i1) as [r i2] eqn:E. apply (look_run _ after) in E as (Hi2 & Hc2 & H); try done; [|apply Hq1].
  destruct r as [page|e]; [|by left]. destruct H as [[-> Hn2]|H].
  2: { destruct H as (Hpage & Hrest). destruct page as [[|x es] c m]; [done|]. cbn [pg_Entries]. rewrite (proj2 (Z.ltb_lt _ _)) by (unfold len; cbn; lia).
       right. by split. }
  cbn [pg_Entries]. change (0 <? len []) with false. cbv iota. unfold io_bind at 1.
  destruct (quiet_receive opts Hclock (tn_after t) i2 Hi2) as (i3 & -> & Hq3). unfold io_bind at 1. destruct (tn_wake t) eqn:Ew.
  - case_bool_decide as Hsame.
    + left. split; [done|]. intros _. destruct Hq1 as (_ & Hle & _), Hq3 as (_ & Hle3 & Hq3). apply Hq3; [lia|done].
    + specialize (IH i3 (proj1 Hq3)). destruct (wait_loop opts rest req i3) as [[page|e] i4].
      * destruct IH as [[Hpe Hall]|IH]; [left|by right]. split; [done|]. intros HF. by apply Forall_cons in HF as [_ ?%Hall].
      * destruct IH as [IH|[He Hex]]; [by left|right]. split; [done|by right].
  - left. split; [done|]. intros HF. apply Forall_cons in HF as [HF _]. done.
  - right. split; [done|by left].
Qed.

(** Where a wait starts: at its cursor, or after the newest entry. *)
Definition wait_start (cursor : string) (i : Inbox W) : res Z :=
  if cursor == ""%string then Ok (default 0 ((fun x => ie_ID (st_entry x)) <$> last (inbox_entries i))) else parseCursor cursor.

Lemma latest_run i r i' : ok i -> on_app latestCursor i = (r, i') ->
  ok i' /\ match r with Ok cursor => cursor <> ""%string /\ Ok (default 0 ((fun x => ie_ID (st_entry x)) <$> last (inbox_entries i))) = parseCursor cursor
                     | Err _ => store_failed end.
Proof.
  intros Hi H. unfold on_app, latestCursor, io_bind in H. destruct (wrap_inbox _ (ix_app i)) as [r1 s1] eqn:E.
  apply wrap_List in E as (Hi1 & _ & _ & Hr); [|done]. destruct r1 as [es|e].
  2: { injection H as <- <-. split; [done|]. destruct Hr as [e' Hl]. do 4 eexists. split; [exact Hi|exact Hl]. }
  assert (Hes : es = st_entry <$> lastn 1 (inbox_entries i)).
  { rewrite Hr. unfold query_view. cbn. do 2 f_equal. unfold inbox_entries, view_of. generalize (inbox_view (app_world (ix_app i))) as v.
    induction v as [|x v IH]; [done|]. rewrite filter_cons, decide_True by (unfold query_selects; cbn; by split_and!). by rewrite IH. }
  destruct (inbox_increasing _ Hi) as [_ Hids]. unfold inbox_entries, view_of in *. set (v := inbox_view (app_world (ix_app i))) in *. clearbody v.
  destruct (last v) as [x|] eqn:El; cbn.
  - assert (Hone : es = [st_entry x]).
    { rewrite Hes. apply last_Some in El as [v' ->]. unfold lastn. rewrite length_app, drop_app_le by (cbn; lia). cbn.
      rewrite drop_ge by lia. done. }
    rewrite Hone in H. injection H as <- <-. apply last_Some in El as [v' Ev].
    assert (Hx : 1 <= ie_ID (st_entry x) <= MaxInt64) by (apply Hids; rewrite Ev; apply elem_of_app; right; by left).
    split; [done|]. split; [apply FormatCursor_nonempty; lia|]. symmetry. apply parse_FormatCursor. lia.
  - apply last_None in El. subst v. rewrite Hes in H. injection H as <- <-. split; [done|]. split; [done|]. by vm_compute.
Qed.

(** C27. Waiting, however the receive loop runs in between: what it returns is either the first entries after the cursor it started from (that of
    the request, or the newest entry at the start), with a cursor that resumes after them, or nothing, with the cursor it started from, so that a
    client that goes on with the returned cursor misses no entry; and no wakeup is lost: when it returns nothing although the select never preferred
    the timer to a closed channel, there is nothing after the cursor in the inbox. It fails only for an invalid cursor, a failing store or the
    end of its context. *)
Theorem Wait_spec req timeout turns i : clock_keeps_view -> ok i ->
  let (r, i') := Wait opts req timeout turns i in
  let happened := turns (Z.min (if timeout <=? 0 then DefaultWait else timeout) MaxWait) in
  match r with
  | Ok page => exists after cursor, wait_start (mr_Cursor req) i = Ok after /\ parseCursor cursor = Ok after
      /\ (mr_Cursor req <> ""%string -> cursor = mr_Cursor req)
      /\ ((page_empty (with_cursor req cursor) page /\ (Forall (fun t => tn_wake t <> TimerFired) happened -> nothing_new req after i'))
          \/ page_found (with_cursor req cursor) after page i')
  | Err e => store_failed \/ (e = Wrap [Sent ContextCanceled] /\ Exists (fun t => tn_wake t = Canceled) happened) \/ wait_start (mr_Cursor req) i = Err e
  end.
Proof.
  intros Hclock Hi. unfold Wait, wait_start. cbv zeta. set (happened := turns _). case_bool_decide as Hc.
  - unfold io_bind. destruct (on_app latestCursor i) as [[cursor|e] i1] eqn:E; destruct (latest_run _ _ _ Hi E) as [Hi1 H]; [|by left].
    destruct H as [Hne ->]. destruct (parseCursor cursor) as [after|e] eqn:Ep.
    2: { exfalso. destruct (latest_run _ _ _ Hi E) as [_ [_ H]]. by rewrite Ep in H. }
    pose proof (wait_loop_spec happened (with_cursor req cursor) after i1 Hclock Hi1 Ep Hne) as S.
    destruct (wait_loop opts happened (with_cursor req cursor) i1) as [[page|e] i']; [|destruct S as [S|S]; [by left|by right; left]].
    exists after, cursor. split; [done|]. split; [done|]. split; [done|]. exact S.
  - destruct (parseCursor (mr_Cursor req)) as [after|e] eqn:Ep.
    + pose proof (wait_loop_spec happened req after i Hclock Hi Ep Hc) as S.
      destruct (wait_loop opts happened req i) as [[page|e] i']; [|destruct S as [S|S]; [by left|by right; left]].
      exists after, (mr_Cursor req). split; [done|]. split; [done|]. split; [done|]. by destruct req.
    + assert (Hl : forall j, List_ req (ix_app j) = (Err e, ix_app j)) by (intros j; unfold List_, io_bind at 1, io_of; by rewrite Ep).
      destruct happened as [|t rest]; cbn [wait_loop]; [unfold on_app; rewrite Hl; by right; right|].
      unfold io_bind at 1. unfold io_bind at 1. destruct (quiet_receive opts Hclock (tn_before t) i Hi) as (i1 & -> & _).
      unfold io_bind at 1, on_app. rewrite Hl. by right; right.
Qed.
End waiting.

(** ** A witness *)

Section witnesses.
#[local] Existing Instance InboxApp.demo_encoding.
#[local] Existing Instance InboxApp.demo_poll_encoding.
#[local] Existing Instance InboxApp.demo_backend.
#[local] Existing Instance InboxApp.demo_laws.
#[local] Existing Instance InboxApp.demo_sender_client.

Lemma demo_clock_view : clock_keeps_view.
Proof. intros w t w' H Hi. cbn in H. injection H as _ <-. split; [exact Hi|reflexivity]. Defined.

(** A message that arrives right after the inbox was looked into. *)
Definition demo_turns : Z -> list turn := const [mkTurn [] [InboxApp.demo_message] Woken].
Definition demo_request : MessagesRequest := mkMessagesRequest "" "" zero_time 10.

Lemma Wait_spec_witness :
  match Wait (mkOptions 0 0) demo_request 0 demo_turns InboxApp.demo_inbox with
  | (Ok page, _) => (ie_ID <$> pg_Entries page) = [6] /\ exists after cursor, parseCursor cursor = Ok after /\ wait_start "" InboxApp.demo_inbox = Ok after
  | _ => False
  end.
Proof.
  pose proof (Wait_spec (mkOptions 0 0) demo_request 0 demo_turns InboxApp.demo_inbox demo_clock_view InboxApp.demo_inv) as S.
  assert (E : match Wait (mkOptions 0 0) demo_request 0 demo_turns InboxApp.demo_inbox with
              | (Ok page, _) => (ie_ID <$> pg_Entries page) = [6] | _ => False end) by (vm_compute; reflexivity).
  destruct (Wait (mkOptions 0 0) demo_request 0 demo_turns InboxApp.demo_inbox) as [[page|e] i']; [|contradiction E]. split; [exact E|].
  destruct S as (after & cursor & H1 & H2 & _). exists after, cursor. exact (conj H2 H1).
Defined.
End witnesses.
