(* ===== verification/PollShow.v ===== *)
(** * Showing a poll (internal/app/poll_show.go)

    [PollShow] reduces a bounded snapshot of a chat's inbox entries to the state of a poll, or reads the durable
    projection. It composes the inbox through [InboxLaws] with [ReducePoll]; the client's projection is the class [PollClient]. *)

From S2P Require Import Prelude Errors Uuid Utf8 Strconv Types SendCheck Groups PollReduce Recipients SendFlow Content FilePath Attachments AppSend AppWrite InboxStore InboxEvents PollStore InboxClient InboxApp InboxWait.

Definition DefaultPollScanLimit : Z := 1000.
Definition chatOf (req : PollShowRequest) : Chat :=
  if psh_Recipient req != ""%string then mkChat "" (ofACI (psh_Recipient req)) else mkChat (psh_GroupID req) zeroRecipient.

(** What the scan of the inbox saw, and the state of the poll in it. *)
Record scan := mkScan { sn_Scanned : Z; sn_FirstEntryID : Z; sn_LastEntryID : Z; sn_Truncated : bool }.
Inductive poll_view := Snapshot (state : PollState) (s : scan) | Projected (state : durable_state).

(** The IDs are pairwise different, so any sort gives this list. *)
Definition boundPollSnapshot (entries : list InboxEntry) (limit : Z) : list InboxEntry * scan :=
  let entries := sort_by (fun a b => ie_ID a <=? ie_ID b) entries in
  let truncated := limit <? len entries in
  let entries := if truncated then drop (length entries - Z.to_nat limit) entries else entries in
  (entries, mkScan (len entries) (from_option ie_ID 0 (head entries)) (from_option ie_ID 0 (last entries)) truncated).

Class PollClient (W : Type) := { client_PollProjection : PollReference -> io W err durable_state }.

Section show.
Context {U : UuidLib} {W : Type} {B : InboxBackend W} {P : PollClient W}.

Definition scan_limit (req : PollShowRequest) : Z := if psh_ScanLimit req =? 0 then DefaultPollScanLimit else psh_ScanLimit req.

Definition PollShow (req : PollShowRequest) : io (App W) err poll_view :=
  match PollShowRequest_Check req with
  | Some e => io_err (Wrap [e])
  | None =>
      let '(author, timestamp) := match ParseTarget (psh_Target req) with Ok at_ => at_ | Err _ => (mkTarget zeroRecipient "" false, 0) end in
      let ref := mkPollRef (chatOf req) (tgt_Recipient author) timestamp in
      if psh_Durable req then let* state := wrap_inbox (lift (client_PollProjection ref)) in io_ret (Projected state)
      else
        let limit := scan_limit req in
        let* entries := wrap_inbox (lift (inbox_List (mkQuery 0 0 (Chat_Key (chatOf req)) zero_time false (limit + 1) true))) in
        let (entries, s) := boundPollSnapshot entries limit in
        match ReducePoll ref (ie_Event <$> entries) with
        | None => io_err index_panic
        | Some state => io_ret (Snapshot state s)
        end
  end.
End show.

(** ** What is shown *)

Lemma sort_by_same {A} (leb : A -> A -> bool) l : StronglySorted (fun a b => leb a b = true) l -> sort_by leb l = l.
Proof.
  induction 1 as [|x l Hs IH Hall]; [done|]. change (sort_by leb (x :: l)) with (sort_insert leb x (sort_by leb l)). rewrite IH. destruct l as [|y l]; [done|]. apply Forall_cons in Hall as [Hxy _]. cbn. by rewrite Hxy.
Qed.

Section shown.
Context {U : UuidLib} {W : Type} {B : InboxBackend W} {L : InboxLaws W B} {P : PollClient W}.

Lemma entries_sorted (v : list stored_entry) : increasing (entry_ids v) -> StronglySorted (fun a b => (ie_ID a <=? ie_ID b) = true) (st_entry <$> v).
Proof.
  unfold increasing, entry_ids. induction v as [|x v IH]; [constructor|]. cbn. intros Hs. inversion Hs as [|? ? Hs' Hall]; subst. constructor; [by apply IH|].
  apply Forall_forall. intros e (y & -> & Hy)%list_elem_of_fmap. apply Z.leb_le. rewrite Forall_forall in Hall.
  assert (ie_ID (st_entry x) < ie_ID (st_entry y)); [|lia]. apply Hall, list_elem_of_fmap. by exists y.
Qed.

Lemma lastn_lastn {A} (n m : nat) (l : list A) : (n <= m)%nat -> lastn n (lastn m l) = lastn n l.
Proof. intros H. unfold lastn. rewrite drop_drop, length_drop. f_equal. lia. Qed.
Lemma lastn_all {A} (n : nat) (l : list A) : (length l <= n)%nat -> lastn n l = l.
Proof. intros H. unfold lastn. replace (length l - n)%nat with O by lia. done. Qed.
Lemma lastn_length {A} (n : nat) (l : list A) : length (lastn n l) = Nat.min n (length l).
Proof. unfold lastn. rewrite length_drop. lia. Qed.

(** Of the newest [limit + 1] entries, [limit] are kept, and the last one only tells that there are more. *)
Lemma bound_newest (v : list stored_entry) limit : increasing (entry_ids v) -> 0 <= limit ->
  boundPollSnapshot (st_entry <$> lastn (Z.to_nat (limit + 1)) v) limit =
    let kept := st_entry <$> lastn (Z.to_nat limit) v in
    (kept, mkScan (len kept) (from_option ie_ID 0 (head kept)) (from_option ie_ID 0 (last kept)) (limit <? len v)).
Proof.
  intros Hv Hl. unfold boundPollSnapshot. rewrite sort_by_same.
  2: { apply entries_sorted. eapply increasing_sublist; [|exact Hv]. unfold entry_ids, lastn. apply fmap_sublist. apply sublist_drop. }
  assert (Htr : (limit <? len (st_entry <$> lastn (Z.to_nat (limit + 1)) v)) = (limit <? len v)).
  { unfold len. rewrite length_fmap, lastn_length. apply Bool.eq_iff_eq_true. rewrite !Z.ltb_lt. lia. }
  rewrite Htr. cbv zeta. destruct (limit <? len v) eqn:E.
  - assert (Hd : drop (length (st_entry <$> lastn (Z.to_nat (limit + 1)) v) - Z.to_nat limit) (st_entry <$> lastn (Z.to_nat (limit + 1)) v) = st_entry <$> lastn (Z.to_nat limit) v).
    { fold (lastn (Z.to_nat limit) (st_entry <$> lastn (Z.to_nat (limit + 1)) v)). rewrite <- lastn_fmap, lastn_lastn by lia. done. }
    by rewrite Hd.
  - apply Z.ltb_ge in E. unfold len in E. by rewrite !lastn_all by lia.
Qed.

Lemma checked_chat req : PollShowRequest_Check req = None -> Chat_Key (chatOf req) <> ""%string.
Proof.
  unfold PollShowRequest_Check, checkChat, pollRecipient, chatOf, Chat_Key, Chat_IsGroup.
  destruct (Bool.eqb _ _) eqn:E; [done|]. intros _. destruct (bool_decide (psh_Recipient req = ""%string)) eqn:Hr; cbn.
  - destruct (bool_decide (psh_GroupID req = ""%string)); [done|]. by cbn.
  - apply bool_decide_eq_false in Hr. by rewrite Recipient_String_ACI.
Qed.

(** The entries of the poll's chat in the inbox, and the events that the reduction sees. *)
Definition chat_rows (req : PollShowRequest) (a : App W) : list stored_entry := filter (fun x => st_chat x = Chat_Key (chatOf req)) (view_of a).
Definition scanned (req : PollShowRequest) (a : App W) : list InboxEntry := st_entry <$> lastn (Z.to_nat (scan_limit req)) (chat_rows req a).

Lemma scan_bounds req : PollShowRequest_Check req = None -> 0 <= scan_limit req.
Proof.
  unfold PollShowRequest_Check, scan_limit, DefaultPollScanLimit. destruct (checkChat req); [done|]. cbn. destruct (ParseTarget _) as [[author ts]|]; [|done].
  destruct (tgt_Self author || _ || _ || _); [done|]. unfold checkScan. destruct (_ && _); [done|]. destruct (_ || _) eqn:E; [done|]. intros _.
  apply orb_false_iff in E as [E _]. apply Z.ltb_ge in E. destruct (psh_ScanLimit req =? 0); lia.
Qed.

End shown.

(** ** A witness *)

Section witnesses.
Import DemoUuid.
#[local] Existing Instance InboxApp.demo_encoding.
#[local] Existing Instance InboxApp.demo_poll_encoding.
#[local] Existing Instance InboxApp.demo_backend.
#[local] Existing Instance InboxApp.demo_laws.
#[local] Instance demo_polls : PollClient mclient := {| client_PollProjection := PollProjection (fun s => base.elements s) |}.

Definition demo_chat_aci : string := "22222222-2222-4222-8222-222222222222".
Definition demo_show : PollShowRequest := mkPollShow false "" demo_chat_aci (demo_chat_aci ++ ":11") 2.
Definition demo_rows : mclient :=
  mkClient false None (mkPollDB
    (mkTable 5 [mkRow 1 10 10 demo_chat_aci demo_chat_aci 11 true "stored"; mkRow 2 20 20 demo_chat_aci demo_chat_aci 11 true "stored";
                mkRow 4 30 30 "other" demo_chat_aci 12 true "stored"; mkRow 5 30 30 demo_chat_aci demo_chat_aci 12 true "stored"]) true [] ∅).
Lemma demo_rows_inv : inbox_inv demo_rows.
Proof.
  cbn. unfold client_inv. cbn. split; [|split].
  - repeat constructor; lia.
  - intros r Hr. repeat (apply elem_of_cons in Hr as [->|Hr]; [cbn; lia|]). by apply elem_of_nil in Hr.
  - cbn. unfold MaxInt64. lia.
Defined.

End witnesses.
