(* ===== verification/Reconnect.v ===== *)
(** * Reconnecting (internal/signal/reconnect.go)

    The supervisor of the receive loops as a state machine. An input is what the environment
    decides next: which branch a [select] takes, what the loops report, how a restart ends. The
    context can be canceled at any moment, and a canceled context does not keep a [select] from
    taking another ready branch. *)

From S2P Require Import Prelude Errors Types.

Record ReconnectPolicy := mkPolicy { MaxAttempts : Z; InitialBackoff : Z; MaxBackoff : Z }.

Definition defaultPolicy : ReconnectPolicy := mkPolicy 5 (2 * Second) (60 * Second).

(** The doubling loop of [backoff], which runs at most [n - 1] times. *)
Fixpoint double_until (k : nat) (delay limit : Z) : Z :=
  match k with
  | O => delay
  | S k => if delay <? limit then double_until k (wrap64 (delay * 2)) limit else delay
  end.

Definition backoff (p : ReconnectPolicy) (n : Z) : Z :=
  Z.min (double_until (Z.to_nat (n - 1)) (InitialBackoff p) (MaxBackoff p)) (MaxBackoff p).

Record loopStatus := mkLoopStatus { ls_State : ConnectionState; ls_Err : error; ls_Stopped : bool }.

(** A [*Connection] event. *)
Record Connection := mkConnection { con_State : ConnectionState; con_Err : error }.

(** Where [run] is: reading statuses, at the head of [restart]'s loop with the attempts so far
    and the cause, or returned. *)
Inductive phase :=
  | Watching (attempts : Z)
  | Restarting (attempts : Z) (cause : error)
  | Returned.

(** The supervisor with logs of what it did: the events it emitted, the delays it waited before
    each call of [start], and whether loops are running. *)
Record supervisor := mkSupervisor {
  sup_state : ConnectionState; sup_phase : phase; sup_canceled : bool; sup_running : bool;
  sup_emitted : list Connection; sup_delays : list Z }.

Inductive input :=
  | Cancel                        (* the context ends *)
  | SeeDone                       (* a select takes [<-ctx.Done()] *)
  | Receive (status : loopStatus) (* [next] receives a status *)
  | Closed                        (* [next] finds the channel closed *)
  | TimerThenStart (result : error) (* the backoff is over and [start] returns *)
  | GiveUp.                       (* [restart] finds no attempt left *)

Lemma seqZ_snoc n : 0 <= n -> seqZ 1 (n + 1) = seqZ 1 n ++ [n + 1].
Proof. intros Hn. rewrite seqZ_app by lia. f_equal. rewrite seqZ_cons by lia. rewrite seqZ_nil by lia. f_equal. lia. Qed.

Section supervisor.
Context (policy : ReconnectPolicy) (loggedOut : error -> error).

Definition transition (conn : Connection) (s : supervisor) : supervisor :=
  if con_State conn == sup_state s then s
  else mkSupervisor (con_State conn) (sup_phase s) (sup_canceled s) (sup_running s)
         (if sup_canceled s then sup_emitted s else sup_emitted s ++ [conn]) (sup_delays s).

Definition stopLoops (s : supervisor) : supervisor :=
  mkSupervisor (sup_state s) (sup_phase s) (sup_canceled s) false (sup_emitted s) (sup_delays s).

Definition goto (p : phase) (s : supervisor) : supervisor :=
  mkSupervisor (sup_state s) p (sup_canceled s) (sup_running s) (sup_emitted s) (sup_delays s).

Definition started (delay : Z) (ok : bool) (s : supervisor) : supervisor :=
  mkSupervisor (sup_state s) (sup_phase s) (sup_canceled s) ok (sup_emitted s) (sup_delays s ++ [delay]).

(** One turn of [run]'s loop with the status that [next] returned. *)
Definition run_status (attempts : Z) (status : loopStatus) (s : supervisor) : supervisor :=
  if ls_State status == StateLoggedOut then
    goto Returned (transition (mkConnection StateLoggedOut (loggedOut (ls_Err status))) (stopLoops s))
  else if ls_Stopped status then
    let s := stopLoops s in
    if sup_canceled s then goto Returned s
    else goto (Restarting attempts (ls_Err status)) (transition (mkConnection StateDisconnected (ls_Err status)) s)
  else if ls_State status == StateConnected then
    goto (Watching 0) (transition (mkConnection StateConnected None) s)
  else if ls_State status != StateNone then transition (mkConnection (ls_State status) (ls_Err status)) s
  else s.

Definition gave_up (cause : error) : error :=
  Some (match cause with
        | None => Wrap [Sent ErrConnectionFailed]
        | Some e => Wrap [Wrap [Sent ErrConnectionFailed]; e]
        end).

(** One input; [None] when the program is not where it could happen. *)
Definition step (i : input) (s : supervisor) : option supervisor :=
  match sup_phase s, i with
  | _, Cancel => Some (mkSupervisor (sup_state s) (sup_phase s) true (sup_running s) (sup_emitted s) (sup_delays s))
  | Watching _, SeeDone => if sup_canceled s then Some (goto Returned s) else None
  | Watching attempts, Receive status => Some (run_status attempts status s)
  | Watching attempts, Closed =>
      if sup_canceled s then Some (goto Returned s)
      else Some (run_status attempts (mkLoopStatus StateDisconnected None true) s)
  | Restarting attempts cause, GiveUp =>
      if MaxAttempts policy <? attempts + 1
      then Some (goto Returned (transition (mkConnection StateFailed (gave_up cause)) s)) else None
  | Restarting attempts _, SeeDone =>
      if negb (MaxAttempts policy <? attempts + 1) && sup_canceled s then Some (goto Returned s) else None
  | Restarting attempts _, TimerThenStart result =>
      if MaxAttempts policy <? attempts + 1 then None
      else
        let delay := backoff policy (attempts + 1) in
        match result with
        | None => Some (goto (Watching (attempts + 1)) (started delay true s))
        | Some e => Some (goto (Restarting (attempts + 1) (Some e)) (started delay false s))
        end
  | _, _ => None
  end.

(** A supervisor that [run] is called on, with loops running. *)
Definition initial : supervisor := mkSupervisor StateNone (Watching 0) false true [] [].

Fixpoint steps (ins : list input) (s : supervisor) : option supervisor :=
  match ins with [] => Some s | i :: rest => s' ← step i s; steps rest s' end.

Lemma steps_app a b s : steps (a ++ b) s = steps a s ≫= steps b.
Proof. revert s. induction a as [|i a IH]; intros s; [done|]. cbn. destruct (step i s); [apply IH|done]. Qed.

Definition reachable (s : supervisor) : Prop := exists ins, steps ins initial = Some s.

(** ** The invariant *)

Definition last_state (l : list Connection) : ConnectionState := from_option con_State StateNone (last l).

(** No two neighbours have the same state. *)
Fixpoint changes (old : ConnectionState) (l : list Connection) : Prop :=
  match l with [] => True | c :: rest => con_State c <> old /\ changes (con_State c) rest end.

Lemma changes_snoc old l c :
  changes old (l ++ [c]) <-> changes old l /\ con_State c <> from_option con_State old (last l).
Proof.
  revert old. induction l as [|d l IH]; intros old; cbn; [tauto|]. rewrite IH.
  replace (from_option con_State old (last (d :: l))) with (from_option con_State (con_State d) (last l)); [tauto|].
  destruct l as [|e l]; [done|]. rewrite !last_cons_cons. by destruct (last (e :: l)) eqn:E; [|by apply last_None in E].
Qed.

(** The delays since the loops last were connected: at most [MaxAttempts], those of the attempts
    from the first on. *)
Definition attempts_of (p : phase) : option Z :=
  match p with Watching n | Restarting n _ => Some n | Returned => None end.

Definition delays_end (n : Z) (l : list Z) : Prop :=
  exists before, l = before ++ (backoff policy <$> seqZ 1 n).

Definition inv (s : supervisor) : Prop :=
  changes StateNone (sup_emitted s)
  /\ (sup_canceled s = false -> last_state (sup_emitted s) = sup_state s)
  /\ (forall n, attempts_of (sup_phase s) = Some n -> 0 <= n <= Z.max 0 (MaxAttempts policy) /\ delays_end n (sup_delays s))
  /\ match sup_phase s with
     | Watching _ => True
     | Restarting _ _ => sup_running s = false
     | Returned => sup_canceled s = false ->
         (sup_state s = StateLoggedOut \/ sup_state s = StateFailed) /\ sup_running s = false
     end.

Lemma transition_inv conn s :
  changes StateNone (sup_emitted s) -> (sup_canceled s = false -> last_state (sup_emitted s) = sup_state s) ->
  let s' := transition conn s in
  changes StateNone (sup_emitted s') /\ (sup_canceled s' = false -> last_state (sup_emitted s') = sup_state s')
  /\ sup_state s' = con_State conn /\ sup_phase s' = sup_phase s /\ sup_canceled s' = sup_canceled s
  /\ sup_running s' = sup_running s /\ sup_delays s' = sup_delays s.
Proof.
  intros Hc Hl. unfold transition. cbv zeta. case_bool_decide as E; [by split_and!|].
  cbn. destruct (sup_canceled s) eqn:Ecan; split_and!; try done.
  - apply changes_snoc. split; [done|]. change (con_State conn <> last_state (sup_emitted s)). by rewrite Hl.
  - intros _. unfold last_state. by rewrite last_snoc.
Qed.

Lemma delays_end_0 l : delays_end 0 l.
Proof. exists l. cbn. by rewrite app_nil_r. Qed.

Lemma delays_end_S n l : 0 <= n -> delays_end n l -> delays_end (n + 1) (l ++ [backoff policy (n + 1)]).
Proof.
  intros Hn (before & ->). exists before. by rewrite seqZ_snoc, fmap_app, <- app_assoc.
Qed.

Lemma run_status_inv attempts status s :
  sup_phase s = Watching attempts -> inv s -> inv (run_status attempts status s).
Proof.
  intros Hp (Hc & Hl & Ha & _). rewrite Hp in Ha. specialize (Ha attempts eq_refl). destruct Ha as [Hn Hd].
  unfold run_status, inv. destruct (bool_decide (ls_State status = StateLoggedOut)).
  { destruct (transition_inv (mkConnection StateLoggedOut (loggedOut (ls_Err status))) (stopLoops s) Hc Hl)
      as (H1 & H2 & H3 & H4 & H5 & H6 & H7). cbn in *. split_and!; [done|done|done|]. intros _. rewrite H3, H6. by split; [left|]. }
  destruct (ls_Stopped status).
  { destruct (sup_canceled (stopLoops s)) eqn:Ecan.
    - cbn in *. split_and!; [done|done|done|]. by rewrite Ecan.
    - destruct (transition_inv (mkConnection StateDisconnected (ls_Err status)) (stopLoops s) Hc Hl)
        as (H1 & H2 & H3 & H4 & H5 & H6 & H7). cbn in *. split_and!; [done|done| |done]. intros n [= <-]. by rewrite H7. }
  destruct (bool_decide (ls_State status = StateConnected)).
  { destruct (transition_inv (mkConnection StateConnected None) s Hc Hl) as (H1 & H2 & H3 & H4 & H5 & H6 & H7).
    cbn. split_and!; [done|done| |done]. intros n [= <-]. split; [lia|apply delays_end_0]. }
  destruct (ls_State status != StateNone).
  { destruct (transition_inv (mkConnection (ls_State status) (ls_Err status)) s Hc Hl) as (H1 & H2 & H3 & H4 & H5 & H6 & H7).
    rewrite H4, Hp. split_and!; [done|done| |done]. intros n [= <-]. by rewrite H7. }
  rewrite Hp. split_and!; [done|done| |done]. by intros n [= <-].
Qed.

Lemma step_inv i s s' : step i s = Some s' -> inv s -> inv s'.
Proof.
  intros H Hi. pose proof Hi as (Hc & Hl & Ha & Hp). unfold step in H.
  assert (Hcancel : i = Cancel -> inv s').
  { intros ->. assert (E : s' = mkSupervisor (sup_state s) (sup_phase s) true (sup_running s) (sup_emitted s) (sup_delays s))
      by by destruct (sup_phase s); injection H as <-. subst s'. split_and!; cbn; [done|done|done|]. by destruct (sup_phase s). }
  destruct (sup_phase s) as [attempts|attempts cause|] eqn:Ep, i as [| |status| |result|]; try done; try (by apply Hcancel).
  - destruct (sup_canceled s) eqn:Ecan; [|done]. injection H as <-. split_and!; cbn; try done; by rewrite Ecan.
  - injection H as <-. by apply run_status_inv.
  - destruct (sup_canceled s) eqn:Ecan; injection H as <-.
    + split_and!; cbn; try done; by rewrite Ecan.
    + by apply run_status_inv.
  - destruct (_ && _) eqn:Eb; [|done]. injection H as <-. apply andb_true_iff in Eb as [_ Ecan].
    split_and!; cbn; try done; by rewrite Ecan.
  - destruct (_ <? _) eqn:Em; [done|]. bool_hyps. destruct (Ha attempts eq_refl) as [Hn Hd].
    destruct result as [e|]; injection H as <-; (split; [done|split; [done|split; [|done]]]); intros n [= <-];
      (split; [lia|cbn [goto started sup_delays]; apply delays_end_S; [lia|done]]).
  - destruct (_ <? _) eqn:Em; [|done]. injection H as <-.
    destruct (transition_inv (mkConnection StateFailed (gave_up cause)) s Hc Hl) as (H1 & H2 & H3 & H4 & H5 & H6 & H7).
    split_and!; cbn; [done|done|done|]. intros _. rewrite H3, H6. by split; [right|].
Qed.

Lemma reachable_inv s : reachable s -> inv s.
Proof.
  intros (ins & H). assert (Hi : inv initial).
  { split_and!; cbn; try done. intros n [= <-]. split; [lia|apply delays_end_0]. }
  revert H Hi. generalize initial. induction ins as [|i ins IH]; intros s0 H Hi; cbn in H; [by injection H as <-|].
  destruct (step i s0) as [s1|] eqn:E; [|done]. apply (IH s1); [done|]. by eapply step_inv.
Qed.


(** If restarting keeps failing, the supervisor gives up after exactly [MaxAttempts] attempts,
    with the backoffs of all attempts waited for and a final failure event that carries the
    error of the last attempt; before that it never gives up. *)
Theorem gives_up cause errs s :
  sup_phase s = Restarting 0 cause -> sup_canceled s = false -> sup_state s <> StateFailed ->
  len errs = MaxAttempts policy ->
  (forall k, (k < length errs)%nat -> steps ((fun e => TimerThenStart (Some e)) <$> take k errs) s ≫= step GiveUp = None)
  /\ exists s', steps (((fun e => TimerThenStart (Some e)) <$> errs) ++ [GiveUp]) s = Some s'
       /\ sup_phase s' = Returned
       /\ sup_emitted s' = sup_emitted s ++ [mkConnection StateFailed (gave_up (match last errs with Some e => Some e | None => cause end))]
       /\ sup_delays s' = sup_delays s ++ (backoff policy <$> seqZ 1 (MaxAttempts policy)).
Proof.
  intros Hp Hcan Hst Hlen.
  assert (Hrun : forall k, (k <= length errs)%nat -> exists s',
    steps ((fun e => TimerThenStart (Some e)) <$> take k errs) s = Some s'
    /\ sup_phase s' = Restarting (Z.of_nat k) (match last (take k errs) with Some e => Some e | None => cause end)
    /\ sup_canceled s' = false /\ sup_state s' = sup_state s /\ sup_emitted s' = sup_emitted s
    /\ sup_delays s' = sup_delays s ++ (backoff policy <$> seqZ 1 (Z.of_nat k))).
  { induction k as [|k IH]; intros Hk.
    - exists s. cbn. rewrite app_nil_r. by split_and!.
    - destruct IH as (s1 & Hs & Hp1 & Hc1 & Hst1 & He1 & Hd1); [lia|].
      destruct (lookup_lt_is_Some_2 errs k) as [e He]; [lia|].
      erewrite take_S_r by done. rewrite fmap_app, steps_app, Hs. cbn [mbind option_bind fmap list_fmap steps].
      unfold step. rewrite Hp1. unfold len in Hlen. rewrite (proj2 (Z.ltb_ge _ _)) by lia.
      eexists. split; [reflexivity|]. cbn. rewrite last_snoc. split_and!; try done; [f_equal; lia|].
      by rewrite Hd1, Nat2Z.inj_succ, <- Z.add_1_r, seqZ_snoc, fmap_app, <- app_assoc by lia. }
  unfold len in Hlen. split.
  - intros k Hk. destruct (Hrun k) as (s1 & -> & Hp1 & _); [lia|]. cbn. unfold step. rewrite Hp1.
    by rewrite (proj2 (Z.ltb_ge _ _)) by lia.
  - destruct (Hrun (length errs)) as (s1 & Hs & Hp1 & Hc1 & Hst1 & He1 & Hd1); [lia|]. rewrite take_ge in Hs, Hp1 by lia.
    rewrite steps_app, Hs. cbn [mbind option_bind steps]. unfold step. rewrite Hp1, (proj2 (Z.ltb_lt _ _)) by lia.
    eexists. split; [reflexivity|]. cbn. unfold transition. cbn [con_State].
    rewrite bool_decide_eq_false_2 by (rewrite Hst1; intros Heq; by apply Hst). cbn. rewrite Hc1, He1, Hd1, Hlen. by split_and!.
Qed.
End supervisor.

(** ** Backoff *)


Lemma double_until_spec k delay limit :
  0 <= delay -> limit <= MaxInt64 / 2 ->
  Z.min (double_until k delay limit) limit = Z.min (delay * 2 ^ Z.of_nat k) limit.
Proof.
  intros Hd Hl. revert delay Hd. induction k as [|k IH]; intros delay Hd; cbn [double_until].
  - f_equal. change (2 ^ Z.of_nat 0) with 1. lia.
  - assert (Hpow : 2 ^ Z.of_nat (S k) = 2 * 2 ^ Z.of_nat k) by (rewrite Nat2Z.inj_succ, Z.pow_succ_r by lia; done).
    assert (0 < 2 ^ Z.of_nat k) by (apply Z.pow_pos_nonneg; lia). rewrite Hpow.
    destruct (Z.ltb_spec delay limit) as [Hlt|Hge].
    + assert (Hh : MaxInt64 / 2 = 4611686018427387903) by done.
      rewrite wrap64_id by (unfold MaxInt64; lia). rewrite IH by lia. f_equal. lia.
    + rewrite !Z.min_r by nia. done.
Qed.

(** The delay before the n-th restart is the initial backoff doubled n - 1 times, at most
      [MaxBackoff]; it never overflows for policies below half the range of a [Duration], and never
      shrinks from one attempt to the next. *)
Theorem backoff_spec p n :
  0 <= InitialBackoff p -> MaxBackoff p <= MaxInt64 / 2 -> 1 <= n ->
  backoff p n = Z.min (InitialBackoff p * 2 ^ (n - 1)) (MaxBackoff p) /\ backoff p n <= backoff p (n + 1).
Proof.
  intros Hi Hm Hn.
  assert (H : forall m, 1 <= m -> backoff p m = Z.min (InitialBackoff p * 2 ^ (m - 1)) (MaxBackoff p)).
  { intros m Hm1. unfold backoff. rewrite double_until_spec, Z2Nat.id by lia. done. }
  rewrite !H by lia. split; [done|]. apply Z.min_le_compat_r. replace (n + 1 - 1) with (Z.succ (n - 1)) by lia.
  rewrite Z.pow_succ_r by lia. assert (0 < 2 ^ (n - 1)) by (apply Z.pow_pos_nonneg; lia). nia.
Qed.

(** ** Witnesses *)

Section witnesses.
Definition demo_loggedOut (cause : error) : error := cause.

(** Connected, the loops end, one restart fails and one succeeds, then a logout. *)
Definition demo_inputs : list input :=
  [Receive (mkLoopStatus StateConnected None false); Closed; TimerThenStart (Some (Opaque "net")); TimerThenStart None;
   Receive (mkLoopStatus StateConnected None false); Receive (mkLoopStatus StateLoggedOut None false)].


Definition demo_restarting : supervisor := mkSupervisor StateDisconnected (Restarting 0 None) false false [] [].
Definition demo_errors : list err := [Opaque "1"; Opaque "2"; Opaque "3"; Opaque "4"; Opaque "5"].

Lemma gives_up_witness :
  len demo_errors = MaxAttempts defaultPolicy
  /\ exists s', steps defaultPolicy demo_loggedOut (((fun e => TimerThenStart (Some e)) <$> demo_errors) ++ [GiveUp]) demo_restarting = Some s'
       /\ sup_phase s' = Returned.
Proof.
  split; [reflexivity|].
  assert (N : StateDisconnected <> StateFailed) by discriminate.
  destruct (gives_up defaultPolicy demo_loggedOut None demo_errors demo_restarting eq_refl eq_refl N eq_refl) as (_ & s' & H1 & H2 & _).
  exists s'. exact (conj H1 H2).
Defined.

Lemma backoff_spec_witness : backoff defaultPolicy 3 = 8 * Second /\ backoff defaultPolicy 3 <= backoff defaultPolicy 4.
Proof.
  split; [vm_compute; reflexivity|]. apply (backoff_spec defaultPolicy 3); vm_compute; discriminate.
Defined.
End witnesses.
