(* ===== verification/Convert.v ===== *)
(** * Incoming events (internal/signal/convert.go, convert_mentions.go, convert_stories.go, meow_poll.go, meow_pin.go)

    [convertEvent] maps what signalmeow hands over to the events of the facade. Content that cannot be
    shown becomes [EvUnsupported] with a name, so that nothing is dropped silently. *)

From S2P Require Import Prelude Errors Uuid Utf8 Strconv Base64 Types SendCheck GroupChange GroupInvite Reconnect Wire.

(** ** The events of signalmeow *)

Record MessageInfo {U : UuidLib} := mkInfo { mi_Sender : uuid; mi_ChatID : string; mi_ServerTimestamp : Z }.

Record WireGradient := mkWireGradient {
  wg_StartColor : option Z; wg_EndColor : option Z; wg_Angle : option Z; wg_Colors : list Z; wg_Positions : list Z }.
Record WirePreview := mkWirePreview {
  wv_Url : option string; wv_Title : option string; wv_Description : option string; wv_Date : option Z; wv_Image : option AttachmentPointer }.
Inductive background := BackColor (color : Z) | BackGradient (gradient : WireGradient).
(** [ta_TextStyle] is the name of the style's constant. *)
Record TextAttachment := mkTextAttachment {
  ta_Text : option string; ta_TextStyle : string; ta_TextForegroundColor : option Z; ta_TextBackgroundColor : option Z;
  ta_Background : option background; ta_Preview : option WirePreview }.
Inductive story_attachment := FileAttachment (file : AttachmentPointer) | StoryTextAttachment (text : TextAttachment).
Record StoryMessage := mkStoryMessage {
  sm_AllowsReplies : option bool; sm_Attachment : option story_attachment; sm_BodyRanges : list BodyRange }.

Inductive typing_action := STARTED | STOPPED.
Inductive receipt_type := DELIVERY | READ | VIEWED | OtherReceipt.

(** The content of a chat event; of other types, Go's name of the type. *)
Inductive ChatContent :=
  | CCData (msg : DataMessage)
  | CCEdit (edit : EditMessage)
  | CCTyping (timestamp : option Z) (action : option typing_action)
  | CCOther (type_name : string).

Record ContactTimer {U : UuidLib} := mkContactTimer {
  ct_ACI : uuid; ct_ExpireTimer : option Z; ct_ExpireTimerVersion : option Z }.

Inductive SignalEvent {U : UuidLib} :=
  | SEStory (info : MessageInfo) (timestamp : Z) (content : StoryMessage)
  | SEChat (info : MessageInfo) (content : ChatContent)
  | SEReceipt (sender : uuid) (typ : receipt_type) (timestamps : list Z)
  | SEReadSelf (timestamp : Z) (messages : list (option string * option Z))
  | SECall (info : MessageInfo) (timestamp : Z)
  | SEDeleteForMe (timestamp : Z)
  | SEMessageRequestResponse (timestamp : Z) (threadACI : uuid) (groupID : option string)
  | SEDecryptionError (sender : uuid) (timestamp : Z) (cause : error)
  | SEQueueEmpty
  | SELoggedOut (cause : error)
  | SEContactList (isFromDB : bool) (timers : list ContactTimer)
  | SEACIFound.

(** [signalmeow.SignalConnectionStatus]. *)
Inductive status_event :=
  | EventNone | EventConnected | EventDisconnected | EventLoggedOut | EventError | EventFatalError | CleanShutdown.
Record SignalConnectionStatus := mkStatus { st_Event : status_event; st_Err : error }.

(** [libsignalgo.ServiceIDFromString], and the text of an error. *)
Class ConvertLib {U : UuidLib} := {
  ServiceIDFromString : string -> option ServiceID;
  error_text : err -> string;
}.

(** ** Parts of messages *)

Definition convertAttachment (att : AttachmentPointer) : Attachment :=
  mkAttachment (default "" (ptr_ContentType att)) (default "" (ptr_FileName att)) (default 0 (ptr_Size att))
    (default "" (ptr_Caption att))
    (mkRemote (default 0 (ptr_CdnNumber att)) (default 0 (ptr_CdnId att)) (default "" (ptr_CdnKey att)) (ptr_Key att) (ptr_Digest att)).

Definition has {A} (x : option A) : bool := match x with Some _ => true | None => false end.
Definition nonempty {A} (l : list A) : bool := match l with [] => false | _ => true end.

Definition hasWirePin (msg : DataMessage) : bool := has (dm_PinMessage msg) || has (dm_UnpinMessage msg).

Definition wirePollCount (msg : DataMessage) : Z :=
  (if has (dm_PollCreate msg) then 1 else 0) + (if has (dm_PollVote msg) then 1 else 0) + (if has (dm_PollTerminate msg) then 1 else 0).
Definition hasWirePoll (msg : DataMessage) : bool := 0 <? wirePollCount msg.

Definition unsupportedParts (msg : DataMessage) : list string :=
  ((if dm_Contact msg then ["contact"%string] else []) ++ (if dm_Payment msg then ["payment"%string] else [])
   ++ (if dm_GiftBadge msg then ["giftBadge"%string] else []) ++ (if dm_AdminDelete msg then ["adminDelete"%string] else [])
   ++ (if dm_StoryContext msg then ["storyReply"%string] else []))%list.

Definition endSessionFlag : Z := 1.
(** [flags & mask != 0]. *)
Definition flagged (msg : DataMessage) (mask : Z) : bool := negb (Z.land (default 0 (dm_Flags msg)) mask =? 0).

Definition pollHasOrdinaryContent (msg : DataMessage) : bool :=
  has (dm_Body msg) || nonempty (dm_Attachments msg) || has (dm_Sticker msg) || has (dm_Quote msg)
  || nonempty (dm_BodyRanges msg) || dm_Preview msg || dm_IsViewOnce msg.

Definition invalidPollType : string := "invalidPoll".
Definition invalidPinType : string := "invalidPin".
Definition pollIncomingQuestionLimit : Z := 200.

Section convert.
Context {U : UuidLib} {P : SignalPb} {L : ConvertLib}.

Definition aciRecipient (id : uuid) : Recipient := if bool_decide (id = uuid_nil) then zeroRecipient else ofACI (uuid_string id).

Definition parseChat (chatID : string) : Chat :=
  match ServiceIDFromString chatID with
  | None => mkChat chatID zeroRecipient
  | Some id =>
      if sid_IsPNI id then mkChat "" (ofPNI (uuid_string (sid_UUID id))) else mkChat "" (aciRecipient (sid_UUID id))
  end.

Definition envelope (info : MessageInfo) (ownACI : string) : Envelope :=
  mkEnvelope (aciRecipient (mi_Sender info)) (parseChat (mi_ChatID info)) 0 (mi_ServerTimestamp info)
    (uuid_string (mi_Sender info) == ownACI).
Definition syncEnvelope (ownACI : string) (chat : Chat) (timestamp : Z) : Envelope :=
  mkEnvelope (ofACI ownACI) chat timestamp 0 true.
Definition with_Timestamp (env : Envelope) (timestamp : Z) : Envelope :=
  mkEnvelope (env_Sender env) (env_Chat env) timestamp (env_ServerTimestamp env) (env_Sync env).

(** [GetMentionAci] and [GetMentionAciBinary]. *)
Definition mention_aci (r : BodyRange) : string * string :=
  match br_Value r with
  | Some (MentionAci aci) => (aci, ""%string)
  | Some (MentionAciBinary aci) => (""%string, aci)
  | _ => (""%string, ""%string)
  end.

Definition convertMention (r : BodyRange) : option Mention :=
  match ParseStringOrBinaryUUID (mention_aci r).1 (mention_aci r).2 with
  | None => None
  | Some aci =>
      if bool_decide (aci = uuid_nil) then None
      else Some (mkMention (default 0 (br_Start r)) (default 0 (br_Length r)) (aciRecipient aci))
  end.
Definition convertMentions (ranges : list BodyRange) : list Mention := omap convertMention ranges.

Definition convertQuote (quote : option WireQuote) : option Quote :=
  match quote with
  | None => None
  | Some q =>
      let author := default uuid_nil (ParseStringOrBinaryUUID (default "" (wq_AuthorAci q)) (wq_AuthorAciBinary q)) in
      Some (mkQuote (aciRecipient author) (default 0 (wq_Id q)) (default "" (wq_Text q)) (convertMentions (wq_BodyRanges q)))
  end.

(** ** Polls and pins *)

Definition pollHasControlContent (msg : DataMessage) : bool :=
  has (dm_Reaction msg) || has (dm_Delete msg) || nonempty (unsupportedParts msg)
  || flagged msg (Z.lor (Z.lor endSessionFlag pb_EXPIRATION_TIMER_UPDATE) pb_PROFILE_KEY_UPDATE).
Definition pollHasWireContent (msg : DataMessage) : bool := pollHasOrdinaryContent msg || pollHasControlContent msg.

Definition convertPollVote (env : Envelope) (wire : WirePollVote) : Event :=
  match uuid_FromBytes (wpv_TargetAuthorAciBinary wire) with
  | None => EvUnsupported env invalidPollType
  | Some authorID =>
      let vote := mkPollVote (ofACI (uuid_string authorID)) (default 0 (wpv_TargetSentTimestamp wire)) (wpv_OptionIndexes wire)
                    (default 0 (wpv_VoteCount wire)) in
      if is_set (OutgoingPollVote_check vote) then EvUnsupported env invalidPollType else EvPollVote env vote
  end.

Definition poll_message (poll : Poll) : MessageContent := mkMessage "" [] [] None (Some poll) None false [].

Definition convertPoll (env : Envelope) (msg : DataMessage) : Event :=
  if negb (wirePollCount msg =? 1) || (env_Timestamp env =? 0) || pollHasWireContent msg then EvUnsupported env invalidPollType
  else match dm_PollCreate msg, dm_PollVote msg with
       | Some p, _ =>
           let poll := mkPoll (default "" (wpc_Question p)) (wpc_Options p) (default false (wpc_AllowMultiple p)) in
           if is_set (Poll_check poll pollIncomingQuestionLimit) then EvUnsupported env invalidPollType
           else EvMessage env (poll_message poll)
       | None, Some vote => convertPollVote env vote
       | None, None =>
           let closePoll := mkPollClose (default 0 (match dm_PollTerminate msg with Some t => wpt_TargetSentTimestamp t | None => None end)) in
           if is_set (OutgoingPollClose_Check closePoll) then EvUnsupported env invalidPollType else EvPollClose env closePoll
       end.

Definition pinHasWireContent (msg : DataMessage) : bool :=
  negb (default 0 (dm_Flags msg) =? 0) || dm_GroupCallUpdate msg || hasWirePoll msg || pollHasWireContent msg.

(** [GetPinDurationSeconds] and [GetPinDurationForever]. *)
Definition pin_seconds (w : WirePin) : Z := match wp_PinDuration w with Some (PinDurationSeconds s) => s | _ => 0 end.
Definition pin_forever (w : WirePin) : bool := match wp_PinDuration w with Some (PinDurationForever f) => f | _ => false end.

Definition convertPinMessage (env : Envelope) (wire : WirePin) : Event :=
  match uuid_FromBytes (wp_TargetAuthorAciBinary wire) with
  | None => EvUnsupported env invalidPinType
  | Some author =>
      let pin := mkPin (ofACI (uuid_string author)) (default 0 (wp_TargetSentTimestamp wire)) (pin_seconds wire) (pin_forever wire) in
      if is_set (OutgoingPin_Check pin) then EvUnsupported env invalidPinType else EvPin env pin
  end.

Definition convertPin (env : Envelope) (msg : DataMessage) : Event :=
  if (env_Timestamp env =? 0) || (has (dm_PinMessage msg) && has (dm_UnpinMessage msg)) || pinHasWireContent msg
  then EvUnsupported env invalidPinType
  else match dm_PinMessage msg, dm_UnpinMessage msg with
       | Some wire, _ => convertPinMessage env wire
       | None, wire =>
           match uuid_FromBytes (match wire with Some w => wu_TargetAuthorAciBinary w | None => ""%string end) with
           | None => EvUnsupported env invalidPinType
           | Some author =>
               let unpin := mkUnpin (ofACI (uuid_string author)) (default 0 (match wire with Some w => wu_TargetSentTimestamp w | None => None end)) in
               if is_set (OutgoingUnpin_Check unpin) then EvUnsupported env invalidPinType else EvUnpin env unpin
           end
       end.

(** ** Data messages and chat events *)

Definition controlType (msg : DataMessage) (unsupported : list string) : string :=
  match unsupported with
  | part :: _ => part
  | [] =>
      if flagged msg endSessionFlag then "endSession"
      else if flagged msg pb_EXPIRATION_TIMER_UPDATE then "expirationTimerUpdate"
      else if flagged msg pb_PROFILE_KEY_UPDATE then "profileKeyUpdate"
      else if dm_GroupV2 msg then "groupUpdate"
      else "dataMessage"
  end.

Definition convertSticker (sticker : WireSticker) : Sticker :=
  mkSticker (hex_EncodeToString (ws_PackId sticker)) (ws_PackKey sticker) (default 0 (ws_StickerId sticker))
    (default "" (ws_Emoji sticker)) (convertAttachment <$> ws_Data sticker).

Definition convertDataMessage (env : Envelope) (msg : DataMessage) : Event :=
  if hasWirePin msg then convertPin env msg
  else if hasWirePoll msg then convertPoll env msg
  else match dm_Reaction msg with
  | Some reaction =>
      EvReaction env (default "" (wr_Emoji reaction)) (default false (wr_Remove reaction))
        (ofACI (default "" (wr_TargetAuthorAci reaction))) (default 0 (wr_TargetSentTimestamp reaction))
  | None =>
      match dm_Delete msg with
      | Some del => EvDelete env (default 0 (wd_TargetSentTimestamp del))
      | None =>
          let unsupported := unsupportedParts msg in
          if (default "" (dm_Body msg) == ""%string) && negb (nonempty (dm_Attachments msg)) && negb (has (dm_Sticker msg))
          then EvUnsupported env (controlType msg unsupported)
          else EvMessage env (mkMessage (default "" (dm_Body msg)) (convertMentions (dm_BodyRanges msg))
                 (convertAttachment <$> dm_Attachments msg) (convertSticker <$> dm_Sticker msg) None
                 (convertQuote (dm_Quote msg)) (dm_IsViewOnce msg) unsupported)
      end
  end.

Definition convertChatEvent (info : MessageInfo) (content : ChatContent) (ownACI : string) : Event :=
  let env := envelope info ownACI in
  match content with
  | CCData msg => convertDataMessage (with_Timestamp env (default 0 (dm_Timestamp msg))) msg
  | CCEdit edit =>
      let msg := default zero_data (em_DataMessage edit) in
      let env := with_Timestamp env (default 0 (dm_Timestamp msg)) in
      if hasWirePin msg then EvUnsupported env invalidPinType
      else if hasWirePoll msg then EvUnsupported env invalidPollType
      else EvEdit env (default 0 (em_TargetSentTimestamp edit)) (default "" (dm_Body msg)) (convertMentions (dm_BodyRanges msg))
  | CCTyping timestamp action =>
      EvTyping (with_Timestamp env (default 0 timestamp)) (match action with Some STOPPED => false | _ => true end)
  | CCOther name => EvUnsupported env name
  end.

(** ** Stories *)

(** Neither NaN nor infinite, of the bits of a float32. *)
Definition is_finite (bits : Z) : bool := negb ((bits / 2 ^ 23) mod 256 =? 255).

Definition convertGradient (g : WireGradient) : option StoryGradient :=
  if forallb is_finite (wg_Positions g)
  then Some (mkGradient (wg_StartColor g) (wg_EndColor g) (wg_Angle g) (wg_Colors g) (wg_Positions g))
  else None.

Definition convertPreview (p : WirePreview) : StoryPreview :=
  mkPreview (default "" (wv_Url p)) (default "" (wv_Title p)) (default "" (wv_Description p)) (default 0 (wv_Date p))
    (convertAttachment <$> wv_Image p).

Definition convertStoryText (raw : TextAttachment) : option StoryText :=
  let text color gradient :=
    Some (mkStoryText (default "" (ta_Text raw)) (ascii_lower (ta_TextStyle raw)) (ta_TextForegroundColor raw)
            (ta_TextBackgroundColor raw) color gradient (convertPreview <$> ta_Preview raw)) in
  match ta_Background raw with
  | None => text None None
  | Some (BackColor color) => text (Some color) None
  | Some (BackGradient g) => match convertGradient g with None => None | Some g => text None (Some g) end
  end.

Definition invalidStoryType : string := "invalidStory".

Definition convertStory (info : MessageInfo) (timestamp : Z) (msg : StoryMessage) (ownACI : string) : Event :=
  let env := with_Timestamp (envelope info ownACI) timestamp in
  let story := EvStory env (default false (sm_AllowsReplies msg)) in
  match sm_Attachment msg with
  | Some (FileAttachment file) => story (Some (convertAttachment file)) None (convertMentions (sm_BodyRanges msg))
  | Some (StoryTextAttachment raw) =>
      match convertStoryText raw with
      | None => EvUnsupported env invalidStoryType
      | Some text => story None (Some text) (convertMentions (sm_BodyRanges msg))
      end
  | None => EvUnsupported env invalidStoryType
  end.

(** ** Events and the status of the connection *)

Definition convertReceiptType (typ : receipt_type) : ReceiptType :=
  match typ with DELIVERY => ReceiptDelivery | READ => ReceiptRead | VIEWED => ReceiptViewed | OtherReceipt => ReceiptNone end.

Definition convertEvent (raw : SignalEvent) (ownACI : string) : option Event :=
  match raw with
  | SEStory info timestamp content => Some (convertStory info timestamp content ownACI)
  | SEChat info content => Some (convertChatEvent info content ownACI)
  | SEReceipt sender typ timestamps => Some (EvReceipt (aciRecipient sender) (convertReceiptType typ) timestamps)
  | SEReadSelf timestamp messages =>
      Some (EvReadSync timestamp ((fun m => mkReadMark (ofACI (default "" (fst m))) (default 0 (snd m))) <$> messages))
  | SECall info timestamp => Some (EvUnsupported (with_Timestamp (envelope info ownACI) timestamp) "call")
  | SEDeleteForMe timestamp => Some (EvUnsupported (syncEnvelope ownACI zeroChat timestamp) "deleteForMe")
  | SEMessageRequestResponse timestamp threadACI groupID =>
      let chat := match groupID with
                  | Some id => mkChat (EncodeToString StdEncoding id) zeroRecipient
                  | None => mkChat "" (aciRecipient threadACI)
                  end in
      Some (EvUnsupported (syncEnvelope ownACI chat timestamp) "messageRequestResponse")
  | SEDecryptionError sender timestamp cause => Some (EvDecryptionFailure (aciRecipient sender) timestamp cause)
  | SEQueueEmpty => Some EvQueueEmpty
  | SELoggedOut cause => Some (EvConnection StateLoggedOut cause)
  | SEContactList _ _ | SEACIFound => None
  end.

Definition websocketUnauthorized : string := "opening websocket: 401".

(** [strings.Contains]. *)
Fixpoint contains (s part : string) : bool :=
  HasPrefix s part || match s with EmptyString => false | String _ t => contains t part end.

Definition isUnauthorized (e : error) : bool :=
  match e with Some e => contains (error_text e) websocketUnauthorized | None => false end.

Definition convertStatus (status : SignalConnectionStatus) : option (ConnectionState * error) :=
  match st_Event status with
  | EventConnected => Some (StateConnected, None)
  | EventDisconnected => Some (StateDisconnected, st_Err status)
  | EventLoggedOut => Some (StateLoggedOut, st_Err status)
  | EventFatalError =>
      if isUnauthorized (st_Err status) then Some (StateLoggedOut, st_Err status) else Some (StateError, st_Err status)
  | EventError => Some (StateError, st_Err status)
  | EventNone | CleanShutdown => None
  end.

Definition convertLoopStatus (status : SignalConnectionStatus) : loopStatus :=
  let stopped := match st_Event status with EventFatalError => true | _ => false end in
  match convertStatus status with
  | Some (state, e) => mkLoopStatus state e stopped
  | None => mkLoopStatus StateNone None stopped
  end.
End convert.

(** ** What was sent reads back *)

Section roundtrip.
Context {U : UuidLib} {UL : UuidLaws U} {P : SignalPb} {PL : SignalPbLaws P} {L : ConvertLib}.

(** The account a recipient names, and the recipient that account is read as. *)
Definition account_of (r : Recipient) : uuid := default uuid_nil (uuid_parse (ACI r)).
Definition read_user (r : Recipient) : Recipient := ofACI (uuid_string (account_of r)).
(** Mentions as they are read: those of the nil UUID are left out. *)
Definition read_mentions (ms : list Mention) : list Mention :=
  omap (fun m => if bool_decide (account_of (men_Recipient m) = uuid_nil) then None
                 else Some (mkMention (men_Start m) (men_Length m) (read_user (men_Recipient m)))) ms.
Definition read_quote (q : Quote) : Quote :=
  mkQuote (aciRecipient (account_of (quo_Author q))) (quo_Timestamp q) (quo_Text q) (read_mentions (quo_Mentions q)).

(** The event that a request means, for the receiver. The author of a reaction's target is not read. *)
Definition meant (env : Envelope) (req : SendRequest) (pointers : list AttachmentPointer) : Event :=
  match req_Pin req, req_Unpin req with
  | Some p, _ => EvPin env (mkPin (read_user (pin_TargetAuthor p)) (pin_TargetTimestamp p) (DurationSeconds p) (Forever p))
  | None, Some u => EvUnpin env (mkUnpin (read_user (unpin_TargetAuthor u)) (unpin_TargetTimestamp u))
  | None, None =>
      match req_PollCreate req, req_PollVote req, req_PollClose req with
      | Some p, _, _ => EvMessage env (poll_message p)
      | None, Some v, _ => EvPollVote env (mkPollVote (read_user (vote_TargetAuthor v)) (vote_TargetTimestamp v) (OptionIndexes v) (VoteCount v))
      | None, None, Some c => EvPollClose env c
      | None, None, None =>
          match req_Sticker req, req_Reaction req with
          | Some s, _ =>
              EvMessage env (mkMessage "" [] [] (Some (mkSticker (ref_PackID (out_Reference s)) (ref_PackKey (out_Reference s))
                (ref_StickerID (out_Reference s)) (out_Emoji s) (convertAttachment <$> head pointers))) None None false [])
          | None, Some r => EvReaction env (rea_Emoji r) (rea_Remove r) zeroRecipient (rea_TargetTimestamp r)
          | None, None =>
              if negb (req_EditTarget req =? 0) then EvEdit env (req_EditTarget req) (req_Body req) (read_mentions (req_Mentions req))
              else if negb (req_DeleteTarget req =? 0) then EvDelete env (req_DeleteTarget req)
              else EvMessage env (mkMessage (req_Body req) (read_mentions (req_Mentions req)) (convertAttachment <$> pointers)
                     None None (read_quote <$> req_Quote req) false [])
          end
      end
  end.

(** The uploads of a request ([meowClient.message]), whose pointers are sent. *)
Definition uploads (req : SendRequest) : list UploadedAttachment :=
  match req_Sticker req with Some s => [out_Image s] | None => req_Attachments req end.

(** What is added on the way: the chat's timer and the group. *)
Definition delivered (group : bool) (timer : option (Z * Z)) (msg : DataMessage) : DataMessage :=
  set_GroupV2 (match timer with Some (seconds, version) => set_Timer msg seconds version | None => msg end) group.
Definition received (c : Content) : ChatContent := match c with CData msg => CCData msg | CEdit edit => CCEdit edit end.

(** A request that is not an empty message. *)
Definition says_something (req : SendRequest) : bool :=
  hasPin req || hasPoll req || is_set (req_Sticker req) || is_set (req_Reaction req) || negb (req_DeleteTarget req =? 0)
  || (req_Body req != ""%string) || nonempty (req_Attachments req).

Lemma aciBytes_Ok r b : aciBytes r = Ok b -> b = uuid_bytes (account_of r).
Proof.
  unfold aciBytes, aciServiceID, account_of. destruct (_ == _); [done|]. destruct (uuid_parse (ACI r)); [|done]. cbn. by intros [= <-].
Qed.

Lemma mentionBodyRanges_Ok ms ranges : mentionBodyRanges ms = Ok ranges -> convertMentions ranges = read_mentions ms.
Proof.
  revert ranges. induction ms as [|m ms IH]; intros ranges; cbn [mentionBodyRanges]; [by intros [= <-]|].
  destruct (aciBytes _) as [aci|] eqn:Ha; [|done]. apply aciBytes_Ok in Ha as ->. cbn. destruct (mentionBodyRanges ms) as [rs|]; [|done]. cbn.
  intros [= <-]. specialize (IH rs eq_refl). unfold convertMentions, read_mentions in *. cbn [omap list_omap]. cbn [omap list_omap] in IH. rewrite IH. unfold convertMention at 1.
  cbn [mention_aci br_Value fst snd br_Start br_Length default]. rewrite Binary_bytes. unfold aciRecipient, read_user.
  destruct (bool_decide (account_of _ = uuid_nil)); done.
Qed.

Lemma style_ranges_unread styles : convertMentions ((fun s => mkBodyRange (Some (sty_Start s)) (Some (sty_Length s)) (Some (RangeStyle (wireStyle (sty_Style s))))) <$> styles) = [].
Proof.
  induction styles as [|s styles IH]; [done|]. unfold convertMentions in *. cbn [fmap list_fmap omap list_omap]. unfold convertMention at 1.
  cbn [mention_aci br_Value fst snd]. by rewrite Binary_neither.
Qed.

Lemma addTextStyles_Ok msg styles msg' : addTextStyles msg styles = Ok msg' ->
  exists ranges, msg' = set_BodyRanges msg ranges /\ convertMentions ranges = convertMentions (dm_BodyRanges msg) /\ (styles = [] -> ranges = dm_BodyRanges msg).
Proof.
  unfold addTextStyles. destruct (len styles =? 0) eqn:E.
  - intros [= <-]. exists (dm_BodyRanges msg). by destruct msg.
  - destruct (CheckTextStyles _ _); [done|]. intros [= <-]. eexists. split; [done|]. split; [|by intros ->]. unfold convertMentions. rewrite omap_app.
    pose proof (style_ranges_unread styles) as Hs. unfold convertMentions in Hs. by rewrite Hs, app_nil_r.
Qed.

(** A request without ordinary content. *)
Lemma bare req : hasContent req = false ->
  req_Body req = ""%string /\ req_Attachments req = [] /\ req_Quote req = None /\ req_Mentions req = [] /\ req_Styles req = [].
Proof.
  unfold hasContent. rewrite !orb_false_iff, !negb_false_iff. destruct (req_Attachments req), (req_Quote req), (req_Mentions req), (req_Styles req);
    intros [[[[Hb Ha] Hq] Hm] Hs]; try done. split_and!; try done. by apply bool_decide_eq_true_1 in Hb.
Qed.

Lemma is_set_false {A} (x : option A) : is_set x = false -> x = None.
Proof. by destruct x. Qed.

Lemma nonnil_read r : nonnil_uuid (ACI r) = true -> nonnil_uuid (ACI (read_user r)) = true.
Proof. unfold nonnil_uuid, read_user, account_of. cbn. rewrite uuid_parse_string. by destruct (uuid_parse (ACI r)). Qed.

(** The timestamp is kept and the message reads as [event]. *)
Definition arrives (env : Envelope) (ts : Z) (msg : DataMessage) (event : Event) : Prop :=
  forall group timer, dm_Timestamp (delivered group timer msg) = Some ts /\ convertDataMessage env (delivered group timer msg) = event.

Lemma pin_arrives env rs gid ts p u key msg : env_Timestamp env <> 0 ->
  let req := mkSendRequest rs gid "" ts 0 [] None None None None None p u None [] [] None 0 in
  hasPin req = true -> checkPin req = None -> match p with Some p => 0 <= DurationSeconds p | None => True end ->
  dataMessage req [] key = Ok msg -> arrives env ts msg (meant env req []).
Proof.
  intros He req Hp Hc Hr H group timer. apply Z.eqb_neq in He. unfold dataMessage, addPin in H. cbn in H. destruct p as [p|], u as [u|]; [done| | |done].
  - destruct (aciBytes (pin_TargetAuthor p)) as [b|] eqn:Hb; [|done]. apply aciBytes_Ok in Hb as ->. cbn in H. injection H as <-.
    unfold checkPin in Hc. cbn in Hc. unfold OutgoingPin_Check, OutgoingUnpin_Check in Hc. cbn in Hc. destruct (Bool.eqb _ _) eqn:Ed; [done|].
    destruct (nonnil_uuid (ACI (pin_TargetAuthor p))) eqn:Hn; [|done]. cbn in Hc. destruct (pin_TargetTimestamp p =? 0) eqn:Ht; [done|].
    apply nonnil_read in Hn. assert (E : convertPinMessage env (mkWirePin (uuid_bytes (account_of (pin_TargetAuthor p))) (Some (pin_TargetTimestamp p))
      (Some (if Forever p then PinDurationForever true else PinDurationSeconds (DurationSeconds p)))) = meant env req []).
    { unfold convertPinMessage. cbn [wp_TargetAuthorAciBinary]. rewrite FromBytes_bytes. unfold OutgoingPin_Check, OutgoingUnpin_Check.
      cbn [pin_TargetAuthor pin_TargetTimestamp DurationSeconds Forever wp_TargetSentTimestamp from_option id unpin_TargetAuthor unpin_TargetTimestamp].
      unfold pin_seconds, pin_forever. cbn [wp_PinDuration]. fold (read_user (pin_TargetAuthor p)). rewrite Hn, Ht. cbn [meant req_Pin req_Unpin req].
      destruct (Forever p) eqn:Ef; cbn [negb orb]; [|by rewrite Ed]. replace (DurationSeconds p) with 0; [done|].
      destruct (0 <? DurationSeconds p) eqn:E; [done|]. apply Z.ltb_ge in E. lia. }
    rewrite <- E. destruct timer as [[s v]|]; (split; [done|]); unfold convertDataMessage, convertPin; cbn -[convertPinMessage]; by rewrite He.
  - destruct (aciBytes (unpin_TargetAuthor u)) as [b|] eqn:Hb; [|done]. apply aciBytes_Ok in Hb as ->. cbn in H. injection H as <-.
    unfold checkPin in Hc. cbn in Hc. unfold OutgoingUnpin_Check in Hc. cbn in Hc.
    destruct (nonnil_uuid (ACI (unpin_TargetAuthor u))) eqn:Hn; [|done]. cbn in Hc. destruct (unpin_TargetTimestamp u =? 0) eqn:Ht; [done|]. apply nonnil_read in Hn.
    destruct timer as [[s v]|]; (split; [done|]); unfold convertDataMessage, convertPin; cbn -[OutgoingUnpin_Check]; rewrite He; cbn -[OutgoingUnpin_Check];
      rewrite FromBytes_bytes; fold (read_user (unpin_TargetAuthor u)); unfold OutgoingUnpin_Check; cbn [unpin_TargetAuthor unpin_TargetTimestamp]; by rewrite Hn, Ht.
Qed.

Lemma pollText_weaken text n m : n <= m -> pollText text n = true -> pollText text m = true.
Proof. unfold pollText. rewrite !andb_true_iff, !Z.leb_le. intros Hnm [H1 H2]. split; [done|lia]. Qed.

Lemma Poll_Check_weaken p : Poll_Check p = None -> Poll_check p pollIncomingQuestionLimit = None.
Proof.
  unfold Poll_Check, Poll_check. destruct (pollText (Question p) pollTextLimit) eqn:E; [|done].
  assert (H : pollText (Question p) pollIncomingQuestionLimit = true) by (eapply pollText_weaken; [|exact E]; unfold pollTextLimit, pollIncomingQuestionLimit; lia).
  by rewrite H.
Qed.

(** A message with one poll part and nothing else. *)
Lemma poll_reads env msg : env_Timestamp env <> 0 -> hasWirePin msg = false -> wirePollCount msg = 1 -> pollHasWireContent msg = false ->
  convertDataMessage env msg =
    match dm_PollCreate msg, dm_PollVote msg with
    | Some p, _ =>
        if is_set (Poll_check (mkPoll (default "" (wpc_Question p)) (wpc_Options p) (default false (wpc_AllowMultiple p))) pollIncomingQuestionLimit)
        then EvUnsupported env invalidPollType
        else EvMessage env (poll_message (mkPoll (default "" (wpc_Question p)) (wpc_Options p) (default false (wpc_AllowMultiple p))))
    | None, Some vote => convertPollVote env vote
    | None, None =>
        let closed := mkPollClose (default 0 (match dm_PollTerminate msg with Some t => wpt_TargetSentTimestamp t | None => None end)) in
        if is_set (OutgoingPollClose_Check closed) then EvUnsupported env invalidPollType else EvPollClose env closed
    end.
Proof.
  intros He%Z.eqb_neq Hp Hc Hw. unfold convertDataMessage, hasWirePoll, convertPoll. by rewrite Hp, Hc, He, Hw.
Qed.

Lemma poll_arrives env rs gid ts c v x key msg : env_Timestamp env <> 0 ->
  let req := mkSendRequest rs gid "" ts 0 [] None None c v x None None None [] [] None 0 in
  checkPoll req = None -> dataMessage req [] key = Ok msg -> arrives env ts msg (meant env req []).
Proof.
  intros He req Hc H group timer. unfold checkPoll in Hc. destruct (_ || _) in Hc; [done|].
  destruct (negb _) eqn:Hn in Hc; [done|]. unfold dataMessage, addPin, addPoll in H. cbn in H, Hc, Hn.
  destruct c as [p|], v as [v|], x as [x|]; try done.
  - injection H as <-. apply Poll_Check_weaken in Hc.
    assert (E : (if is_set (Poll_check (mkPoll (Question p) (Options p) (AllowMultiple p)) pollIncomingQuestionLimit)
      then EvUnsupported env invalidPollType else EvMessage env (poll_message (mkPoll (Question p) (Options p) (AllowMultiple p)))) = meant env req []).
    { assert (Ep : mkPoll (Question p) (Options p) (AllowMultiple p) = p) by (by destruct p). by rewrite Ep, Hc. }
    rewrite <- E. destruct timer as [[s w]|]; (split; [done|]); by rewrite poll_reads.
  - destruct (aciBytes (vote_TargetAuthor v)) as [b|] eqn:Hb; [|done]. apply aciBytes_Ok in Hb as ->. cbn in H. injection H as <-.
    unfold OutgoingPollVote_Check in Hc. destruct (VoteCount v =? 0); [done|]. unfold OutgoingPollVote_check in Hc.
    destruct (nonnil_uuid (ACI (vote_TargetAuthor v))) eqn:Hnn; [|done]. apply nonnil_read in Hnn.
    assert (E : convertPollVote env (mkWirePollVote (uuid_bytes (account_of (vote_TargetAuthor v))) (Some (vote_TargetTimestamp v)) (OptionIndexes v) (Some (VoteCount v)))
      = meant env req []).
    { unfold convertPollVote. cbn [wpv_TargetAuthorAciBinary]. rewrite FromBytes_bytes. fold (read_user (vote_TargetAuthor v)). unfold OutgoingPollVote_check.
      cbn [vote_TargetAuthor vote_TargetTimestamp OptionIndexes wpv_TargetSentTimestamp wpv_OptionIndexes from_option id]. rewrite Hnn.
      destruct (_ || _) in Hc |- *; [done|]. by rewrite Hc. }
    rewrite <- E. destruct timer as [[s w]|]; (split; [done|]); by rewrite poll_reads.
  - injection H as <-.
    assert (E : (if is_set (OutgoingPollClose_Check (mkPollClose (close_TargetTimestamp x)))
      then EvUnsupported env invalidPollType else EvPollClose env (mkPollClose (close_TargetTimestamp x))) = meant env req []).
    { assert (Ex : mkPollClose (close_TargetTimestamp x) = x) by (by destruct x). by rewrite Ex, Hc. }
    rewrite <- E. destruct timer as [[s w]|]; (split; [done|]); by rewrite poll_reads.
Qed.

(** ** Ordinary content, stickers, reactions, deletions and edits *)

Lemma hex_char_value a v : hex_value a = Some v -> is_upper a = false -> hex_char v = a /\ 0 <= v < 16.
Proof.
  unfold hex_value, is_upper, in_range. intros H Hu. rewrite andb_false_iff, !Z.leb_gt in Hu. revert H.
  destruct ((48 <=? byte_of a) && _) eqn:E1; [|destruct ((97 <=? byte_of a) && _) eqn:E2; [|destruct ((65 <=? byte_of a) && _) eqn:E3; [|done]]]; intros [= <-]; rewrite ?andb_true_iff, ?Z.leb_le in *; try lia.
  - split; [|lia]. unfold hex_char. replace (_ <? 10) with true by (symmetry; apply Z.ltb_lt; lia). replace (48 + _) with (byte_of a) by lia. apply ascii_of_byte.
  - split; [|lia]. unfold hex_char. replace (_ <? 10) with false by (symmetry; apply Z.ltb_ge; lia). replace (87 + _) with (byte_of a) by lia. apply ascii_of_byte.
Qed.

(** A lower-case hexadecimal text is the encoding of what it decodes to. *)
Lemma hex_Encode_Decode s raw : hex_DecodeString s = Some raw -> string_forallb (fun a => negb (is_upper a)) s = true -> hex_EncodeToString raw = s.
Proof.
  revert raw. induction s as [s IH] using (well_founded_induction (Wf_nat.well_founded_ltof _ String.length)). intros raw.
  destruct s as [|a [|b t]]; cbn [hex_DecodeString string_forallb]; [by intros [= <-]|done|].
  destruct (hex_value a) as [h|] eqn:Ha; [|done]. destruct (hex_value b) as [l|] eqn:Hb; [|done]. cbn. destruct (hex_DecodeString t) as [rest|] eqn:Ht; [|done]. cbn.
  intros [= <-]. rewrite !andb_true_iff, !negb_true_iff. intros (Ua & Ub & Ut). apply hex_char_value in Ha as [Ea Ra], Hb as [Eb Rb]; [|done..].
  cbn [hex_EncodeToString]. rewrite byte_of_ascii by lia. rewrite (IH t) by (done || (unfold Wf_nat.ltof; cbn; lia)).
  replace ((h * 16 + l) / 16) with h by (apply Z.div_unique with l; lia). replace ((h * 16 + l) mod 16) with l by (apply Z.mod_unique with h; lia). by rewrite Ea, Eb.
Qed.

(** A message without pins and polls. *)
Definition plain (req : SendRequest) (key : string) (pointers : list AttachmentPointer) (sticker : option WireSticker) (version : option Z)
    (reaction : option WireReaction) (ranges : list BodyRange) (quote : option WireQuote) : DataMessage :=
  mkData (if req_Body req != ""%string then Some (req_Body req) else None) pointers false None key (Some (req_Timestamp req)) None None quote false false sticker
    version false reaction (if negb (req_DeleteTarget req =? 0) then Some (mkWireDelete (Some (req_DeleteTarget req))) else None) ranges
    false false false false None None None None None false "".

Lemma addPin_none msg req : hasPin req = false -> addPin msg req = Ok (set_Pin msg None None).
Proof. unfold hasPin, addPin. rewrite orb_false_iff. by intros [->%is_set_false ->%is_set_false]. Qed.

Lemma addPoll_none msg req : hasPoll req = false -> addPoll msg req = Ok (set_Poll msg (dm_RequiredProtocolVersion msg) None None None).
Proof. intros (Hc%is_set_false & Hv%is_set_false & Hx%is_set_false)%hasPoll_false. unfold addPoll. by rewrite Hc, Hv, Hx. Qed.

Lemma addQuote_Ok msg quote msg' : addQuote msg quote = Ok msg' ->
  exists q, msg' = match q with Some q => set_Quote msg q | None => msg end /\ convertQuote q = read_quote <$> quote.
Proof.
  unfold addQuote. destruct quote as [q|]; [|intros [= <-]; by exists None].
  destruct (aciBytes _) as [aci|] eqn:Ha; [|done]. apply aciBytes_Ok in Ha as ->. cbn. destruct (mentionBodyRanges _) as [ranges|] eqn:Hr; [|done]. cbn. intros [= <-].
  eexists (Some _). split; [done|]. unfold convertQuote. cbn [wq_AuthorAci wq_AuthorAciBinary wq_Id wq_Text wq_BodyRanges default from_option id fmap option_fmap option_map].
  rewrite Binary_bytes. cbn [default from_option id]. rewrite (mentionBodyRanges_Ok _ _ Hr). unfold read_quote. do 2 f_equal. by destruct (quo_Text q == ""%string) eqn:E; [apply bool_decide_eq_true_1 in E as ->|].
Qed.

(** Without a sticker. *)
Lemma plain_Ok req pointers key msg : hasPin req = false -> hasPoll req = false -> req_Sticker req = None -> dataMessage req pointers key = Ok msg ->
  exists version reaction ranges quote, msg = plain req key pointers None version reaction ranges quote
    /\ convertMentions ranges = read_mentions (req_Mentions req) /\ convertQuote quote = read_quote <$> req_Quote req
    /\ match req_Reaction req with
       | None => reaction = None
       | Some r => exists aci, reaction = Some (mkWireReaction (Some (rea_Emoji r)) (Some (rea_Remove r)) None aci (Some (rea_TargetTimestamp r)))
       end.
Proof.
  intros Hp Hpo Hs. unfold dataMessage. rewrite bind_Ok. intros (m1 & E1 & H). rewrite addPin_none in E1 by done. injection E1 as <-.
  apply bind_Ok in H as (m2 & E2 & H). rewrite addPoll_none in E2 by done. injection E2 as <-.
  apply bind_Ok in H as (m3 & E3 & H). rewrite Hs in E3. injection E3 as <-.
  apply bind_Ok in H as (rs & Hm & H). apply mentionBodyRanges_Ok in Hm.
  apply bind_Ok in H as (m4 & E4 & H). apply addTextStyles_Ok in E4 as (ranges & -> & Hr & _). rewrite <- Hm.
  apply bind_Ok in H as (m5 & E5 & (q & -> & Hq)%addQuote_Ok). unfold addReactionOrDelete in E5. destruct (req_Reaction req) as [r|].
  - apply bind_Ok in E5 as (aci & Ha & E5). injection E5 as <-. exists (Some pb_REACTIONS); eexists _, ranges, q. split; [|split; [exact Hr|split; [exact Hq|by eexists]]].
    unfold plain. by destruct q, (negb (req_DeleteTarget req =? 0)).
  - injection E5 as <-. exists None, None, ranges, q. split; [|split; [exact Hr|split; [exact Hq|done]]]. unfold plain. by destruct q, (negb (req_DeleteTarget req =? 0)).
Qed.

Lemma plain_reads env req key pointers sticker version reaction ranges quote group timer :
  convertDataMessage env (delivered group timer (plain req key pointers sticker version reaction ranges quote)) =
    match reaction with
    | Some r => EvReaction env (default "" (wr_Emoji r)) (default false (wr_Remove r)) (ofACI (default "" (wr_TargetAuthorAci r))) (default 0 (wr_TargetSentTimestamp r))
    | None =>
        if negb (req_DeleteTarget req =? 0) then EvDelete env (req_DeleteTarget req)
        else if (req_Body req == ""%string) && negb (nonempty pointers) && negb (has sticker)
        then EvUnsupported env (controlType (delivered group timer (plain req key pointers sticker version reaction ranges quote)) [])
        else EvMessage env (mkMessage (req_Body req) (convertMentions ranges) (convertAttachment <$> pointers) (convertSticker <$> sticker) None (convertQuote quote) false [])
    end.
Proof.
  assert (Eb : default ""%string (if req_Body req != ""%string then Some (req_Body req) else None) = req_Body req).
  { destruct (req_Body req == ""%string) eqn:E; [by apply bool_decide_eq_true_1 in E as ->|done]. }
  unfold convertDataMessage. destruct timer as [[s v]|], reaction, (negb (req_DeleteTarget req =? 0)) eqn:Hd; cbn; rewrite ?Hd, ?Eb; done.
Qed.



(** With a sticker, which comes alone. *)
Lemma sticker_Ok req s pointer key msg : hasPin req = false -> hasPoll req = false -> req_Sticker req = Some s ->
  hasContent req = false -> req_Reaction req = None -> req_DeleteTarget req = 0 -> dataMessage req [pointer] key = Ok msg ->
  exists packID, hex_DecodeString (ref_PackID (out_Reference s)) = Some packID
    /\ msg = plain req key [] (Some (mkWireSticker packID (ref_PackKey (out_Reference s)) (Some (ref_StickerID (out_Reference s))) (Some (out_Emoji s)) (Some pointer))) None None [] None.
Proof.
  intros Hp Hpo Hs (Eb & _ & Eq & Em & Es)%bare Hr Hd. unfold dataMessage. rewrite bind_Ok. intros (m1 & E1 & H). rewrite addPin_none in E1 by done. injection E1 as <-.
  apply bind_Ok in H as (m2 & E2 & H). rewrite addPoll_none in E2 by done. injection E2 as <-.
  apply bind_Ok in H as (m3 & E3 & H). rewrite Hs in E3. cbn [addSticker] in E3. destruct (hex_DecodeString _) as [packID|]; [|done]. injection E3 as <-.
  exists packID. split; [done|]. rewrite Em in H. apply bind_Ok in H as (rs & [= <-] & H). rewrite Es in H. apply bind_Ok in H as (m4 & [= <-] & H).
  unfold addReactionOrDelete in H. rewrite Hd, Hr, Eq in H. injection H as <-. unfold plain. by rewrite Hd, Eb.
Qed.

Lemma sticker_arrives env req s pointers key msg : hasPin req = false -> hasPoll req = false -> req_Sticker req = Some s -> checkSticker req s = None ->
  length pointers = length (uploads req) -> dataMessage req pointers key = Ok msg -> arrives env (req_Timestamp req) msg (meant env req pointers).
Proof.
  intros Hp Hpo Hs Hc Hl H. unfold uploads in Hl. rewrite Hs in Hl. destruct pointers as [|pointer [|? ?]]; [done| |done].
  unfold checkSticker in Hc. destruct (_ || _) eqn:E in Hc; [done|]. rewrite !orb_false_iff, !negb_false_iff, !Z.eqb_eq in E. destruct E as [[[Eh Er%is_set_false] Ed] _].
  destruct (sticker_Ok req s pointer key msg) as (packID & Hx & ->); try done.
  unfold StickerReference_Check in Hc. destruct (_ || _) eqn:E in Hc; [done|]. rewrite !orb_false_iff, !negb_false_iff in E. destruct E as [_ Hu].
  apply bare in Eh as (Eb & _). intros group timer. split; [by destruct timer as [[]|]|].
  apply hasPin_false in Hp as [Hp1%is_set_false Hp2%is_set_false]. apply hasPoll_false in Hpo as (Hc1%is_set_false & Hc2%is_set_false & Hc3%is_set_false).
  rewrite plain_reads. unfold meant. rewrite Hp1, Hp2, Hc1, Hc2, Hc3, Hs, Ed, Eb. cbn [negb Z.eqb has nonempty andb convertMentions omap list_omap convertQuote fmap list_fmap option_fmap option_map].
  unfold convertSticker. cbn [ws_PackId ws_PackKey ws_StickerId ws_Emoji ws_Data]. by rewrite (hex_Encode_Decode _ _ Hx Hu).
Qed.

Lemma text_arrives env req pointers key msg : hasPin req = false -> hasPoll req = false -> req_Sticker req = None -> req_EditTarget req = 0 ->
  match req_Reaction req with Some r => True | None => req_DeleteTarget req <> 0 \/ req_Body req <> ""%string \/ pointers <> [] end ->
  dataMessage req pointers key = Ok msg -> arrives env (req_Timestamp req) msg (meant env req pointers).
Proof.
  intros Hp Hpo Hs Ht Hsay H. destruct (plain_Ok req pointers key msg) as (version & reaction & ranges & quote & -> & Hm & Hq & Hr); try done.
  intros group timer. split; [by destruct timer as [[]|]|].
  apply hasPin_false in Hp as [Hp1%is_set_false Hp2%is_set_false]. apply hasPoll_false in Hpo as (Hc1%is_set_false & Hc2%is_set_false & Hc3%is_set_false).
  rewrite plain_reads, Hm, Hq. unfold meant. rewrite Hp1, Hp2, Hc1, Hc2, Hc3, Hs, Ht. cbn [negb Z.eqb].
  destruct (req_Reaction req) as [r|]; [by destruct Hr as [aci ->]|rewrite Hr]. destruct (negb _) eqn:Hd; [done|]. apply negb_false_iff, Z.eqb_eq in Hd.
  destruct (req_Body req == ""%string) eqn:Eb; [|done]. apply bool_decide_eq_true_1 in Eb. destruct pointers; [naive_solver|done].
Qed.

Lemma edit_arrives info own group timer req pointers key msg : hasPin req = false -> hasPoll req = false -> req_Sticker req = None -> req_EditTarget req <> 0 -> checkEdit req = None ->
  dataMessage req pointers key = Ok msg ->
  convertChatEvent info (received (wrapOutgoing (delivered group timer msg) (req_EditTarget req))) own = meant (with_Timestamp (envelope info own) (req_Timestamp req)) req pointers.
Proof.
  intros Hp Hpo Hs Ht Hc H. destruct (plain_Ok req pointers key msg) as (version & reaction & ranges & quote & -> & Hm & Hq & Hr); try done.
  unfold checkEdit in Hc. destruct (_ || _) eqn:E in Hc; [done|]. rewrite !orb_false_iff, !negb_false_iff, !Z.eqb_eq in E. destruct E as [[Er%is_set_false Ed] _].
  rewrite Er in Hr. subst reaction. apply Z.eqb_neq in Ht.
  apply hasPin_false in Hp as [Hp1%is_set_false Hp2%is_set_false]. apply hasPoll_false in Hpo as (Hc1%is_set_false & Hc2%is_set_false & Hc3%is_set_false).
  assert (Eb : default ""%string (if req_Body req != ""%string then Some (req_Body req) else None) = req_Body req).
  { destruct (req_Body req == ""%string) eqn:E; [by apply bool_decide_eq_true_1 in E as ->|done]. }
  unfold meant. rewrite Hp1, Hp2, Hc1, Hc2, Hc3, Hs, Er, Ht. unfold wrapOutgoing. rewrite Ht. rewrite <- Hm, <- Eb. by destruct timer as [[]|].
Qed.

Lemma convertChatEvent_data info own msg ts event : arrives (with_Timestamp (envelope info own) ts) ts msg event -> forall group timer editTarget, editTarget = 0 ->
  convertChatEvent info (received (wrapOutgoing (delivered group timer msg) editTarget)) own = event.
Proof. intros H group timer editTarget ->. destruct (H group timer) as [Et Ee]. cbn [wrapOutgoing negb Z.eqb received convertChatEvent]. by rewrite Et. Qed.

(** What a client sends is what the other client reads: the message that [dataMessage] builds for a
    request which passed [SendRequest.Check], sent to a group or a user with any timer and wrapped
    as an edit or not, is converted by [convertChatEvent] to the event that the request means, with
    its timestamp, text, mentions, quote, attachments, sticker, poll, vote or pin. *)
Lemma sent_reads_back req pointers key msg group timer info own :
  Check req = None -> req_Story req = None -> req_Timestamp req <> 0 -> length pointers = length (uploads req) -> says_something req = true ->
  match req_Pin req with Some p => 0 <= DurationSeconds p | None => True end ->
  dataMessage req pointers key = Ok msg ->
  convertChatEvent info (received (wrapOutgoing (delivered group timer msg) (req_EditTarget req))) own
  = meant (with_Timestamp (envelope info own) (req_Timestamp req)) req pointers.
Proof.
  intros Hc Hst Hts Hl Hsay Hd H.
  assert (Hstrip : pollHasContent req = false -> pointers = []
    /\ req = mkSendRequest (req_Recipients req) (req_GroupID req) "" (req_Timestamp req) 0 [] None None (req_PollCreate req) (req_PollVote req) (req_PollClose req)
         (req_Pin req) (req_Unpin req) None [] [] None 0).
  { intros ((Eb & Ea & Eq & Em & Es)%bare & Esk%is_set_false & Er%is_set_false & Ed & Ee)%pollHasContent_false. unfold uploads in Hl. rewrite Esk, Ea in Hl.
    split; [by destruct pointers|]. destruct req; cbn in *; by subst. }
  destruct (Check_None_cases req Hc Hst) as [[Hp Hk]|[(Hp & Hpo & Hk)|(Hp & Hpo & Hk)]].
  - destruct (checkPin_None req Hk) as (_ & [-> Er]%Hstrip & (Ec%is_set_false & Ev%is_set_false & Ex%is_set_false)%hasPoll_false).
    rewrite Ec, Ev, Ex in Er. apply (convertChatEvent_data _ _ _ (req_Timestamp req)); [|by rewrite Er].
    pose proof (pin_arrives (with_Timestamp (envelope info own) (req_Timestamp req)) (req_Recipients req) (req_GroupID req) (req_Timestamp req) (req_Pin req) (req_Unpin req)
      key msg Hts) as Hx. cbn zeta in Hx. rewrite <- Er in Hx. by apply Hx.
  - destruct (checkPoll_None req Hk) as (_ & [-> Er]%Hstrip & _). apply hasPin_false in Hp as [Ep%is_set_false Eu%is_set_false].
    rewrite Ep, Eu in Er. apply (convertChatEvent_data _ _ _ (req_Timestamp req)); [|by rewrite Er].
    pose proof (poll_arrives (with_Timestamp (envelope info own) (req_Timestamp req)) (req_Recipients req) (req_GroupID req) (req_Timestamp req) (req_PollCreate req) (req_PollVote req)
      (req_PollClose req) key msg Hts) as Hx. cbn zeta in Hx. rewrite <- Er in Hx. by apply Hx.
  - destruct Hk as [(s & Es & Hk)|[(Es & Ee & Hk)|Hk]].
    + apply (convertChatEvent_data _ _ _ (req_Timestamp req)); [by eapply sticker_arrives|]. unfold checkSticker in Hk. destruct (_ || _) eqn:E in Hk; [done|].
      rewrite !orb_false_iff, !negb_false_iff, !Z.eqb_eq in E. by destruct E as [_ E].
    + by eapply edit_arrives.
    + assert (Hk' : req_Sticker req = None /\ req_EditTarget req = 0) by (destruct Hk as [(r & ? & ? & _)|(? & ? & _)]; done). destruct Hk' as [Es Ee].
      apply (convertChatEvent_data _ _ _ (req_Timestamp req)); [|done]. eapply text_arrives; try done. destruct (req_Reaction req) as [r|] eqn:Er; [done|].
      unfold says_something in Hsay. rewrite Hp, Hpo, Es in Hsay. change (is_set (@None OutgoingSticker)) with false in Hsay. change (is_set (@None OutgoingReaction)) with false in Hsay. cbn [orb] in Hsay. unfold uploads in Hl. rewrite Es in Hl.
      rewrite !orb_true_iff, !negb_true_iff, Z.eqb_neq in Hsay. destruct Hsay as [[Hx|Hx]|Hx]; [left; destruct Hx as [Hx|]; [by rewrite Er in Hx|done]| |]. 
      * right; left. by apply bool_decide_eq_false_1 in Hx.
      * right; right. intros ->. by destruct (req_Attachments req).
Qed.

End roundtrip.

(** ** What is converted can be relied on *)

Section checked.
Context {U : UuidLib} {P : SignalPb} {L : ConvertLib}.

(** A poll, vote, closure or pin that is reported has passed its check, in a message with a timestamp. *)
Definition event_checked (e : Event) : Prop :=
  match e with
  | EvMessage env content =>
      match msg_Poll content with
      | Some p => env_Timestamp env <> 0 /\ Poll_check p pollIncomingQuestionLimit = None /\ content = poll_message p
      | None => msg_Body content <> ""%string \/ msg_Attachments content <> [] \/ is_Some (msg_Sticker content)
      end
  | EvPollVote env v => env_Timestamp env <> 0 /\ OutgoingPollVote_check v = None
  | EvPollClose env p => env_Timestamp env <> 0 /\ OutgoingPollClose_Check p = None
  | EvPin env p => env_Timestamp env <> 0 /\ OutgoingPin_Check p = None
  | EvUnpin env u => env_Timestamp env <> 0 /\ OutgoingUnpin_Check u = None
  | _ => True
  end.

Lemma convertPin_checked env msg : event_checked (convertPin env msg).
Proof.
  unfold convertPin. destruct (env_Timestamp env =? 0) eqn:Et; [done|]. cbn [orb]. destruct (_ && _ || _); [done|]. apply Z.eqb_neq in Et.
  destruct (dm_PinMessage msg) as [wire|].
  - unfold convertPinMessage. destruct (uuid_FromBytes _); [|done]. destruct (OutgoingPin_Check _) eqn:E; [done|]. split; [exact Et|exact E].
  - destruct (uuid_FromBytes _); [|done]. destruct (OutgoingUnpin_Check _) eqn:E; [done|]. split; [exact Et|exact E].
Qed.

Lemma convertPoll_checked env msg : event_checked (convertPoll env msg).
Proof.
  unfold convertPoll. destruct (negb _); [done|]. destruct (env_Timestamp env =? 0) eqn:Et; [done|]. destruct (pollHasWireContent _); [done|]. apply Z.eqb_neq in Et. cbn [orb].
  destruct (dm_PollCreate msg) as [p|], (dm_PollVote msg) as [v|].
  1,2: destruct (Poll_check _ _) eqn:E; [done|]; cbn -[Poll_check]; split; [exact Et|split; [exact E|done]].
  - unfold convertPollVote. destruct (uuid_FromBytes _); [|done]. destruct (OutgoingPollVote_check _) eqn:E; [done|]. split; [exact Et|exact E].
  - destruct (OutgoingPollClose_Check _) eqn:E; [done|]. split; [exact Et|exact E].
Qed.

Lemma convertDataMessage_checked env msg : event_checked (convertDataMessage env msg).
Proof.
  unfold convertDataMessage. destruct (hasWirePin msg); [apply convertPin_checked|]. destruct (hasWirePoll msg); [apply convertPoll_checked|].
  destruct (dm_Reaction msg); [done|]. destruct (dm_Delete msg); [done|]. destruct (_ && _ && _) eqn:E; [done|]. cbn -[fmap].
  rewrite !andb_false_iff, bool_decide_eq_false, !negb_false_iff in E. destruct E as [[E|E]|E]; [by left|right; left; by destruct (dm_Attachments msg)|right; right].
  destruct (dm_Sticker msg); [by eexists|done].
Qed.

(** C9. Every event of signalmeow other than the two without one is converted to an event, and what is
    reported can be relied on: a poll, vote, closure, pin or unpin has passed its check and has a
    timestamp, a poll comes alone in its message, and a message has a text, an attachment or a
    sticker; anything else is an [Unsupported]. *)
Theorem convertEvent_checked raw ownACI :
  match convertEvent raw ownACI with
  | Some e => event_checked e
  | None => raw = SEACIFound \/ exists fromDB timers, raw = SEContactList fromDB timers
  end.
Proof.
  destruct raw; cbn [convertEvent]; try done; [| |right; by eexists _, _|by left].
  - unfold convertStory. destruct (sm_Attachment _) as [[file|text]|]; [done| |done]. by destruct (convertStoryText text).
  - unfold convertChatEvent. destruct content as [msg|edit| |]; try done; [apply convertDataMessage_checked|].
    set (msg := default zero_data (em_DataMessage edit)). by destruct (hasWirePin msg), (hasWirePoll msg).
Qed.
End checked.

(** ** At a concrete input *)

Import DemoUuid.

Definition demo_pb : SignalPb := {|
  pb_REACTIONS := 6; pb_EXPIRATION_TIMER_UPDATE := 2; pb_PROFILE_KEY_UPDATE := 4;
  uuid_bytes := uuid_string; uuid_FromBytes := uuid_parse;
  ParseStringOrBinaryUUID := fun s b => if s != ""%string then uuid_parse s else uuid_parse b |}.

Lemma demo_pb_laws : SignalPbLaws demo_pb.
Proof. split; [intros u; apply uuid_parse_string|intros u; apply uuid_parse_string|done]. Qed.
#[local] Existing Instance demo_pb.
#[local] Existing Instance demo_pb_laws.

Definition demo_convert : ConvertLib := {| ServiceIDFromString := fun s => mkServiceID false <$> uuid_parse s; error_text := fun _ => ""%string |}.
#[local] Existing Instance demo_convert.

Definition demo_hello : SendRequest :=
  mkSendRequest [ofACI demo_aci] "" "hello" 7 0 [] None None None None None None None
    (Some (mkQuote (ofACI demo_aci) 5 "before" [])) [mkMention 0 5 (ofACI demo_aci)] [] None 0.
Definition demo_info : MessageInfo := mkInfo _ (default uuid_nil (uuid_parse demo_aci)) demo_aci 9.
