(* ===== verification/StoreCounters.v ===== *)
(** * Vote counters and chat timers (internal/store/poll_counters.go, chat_timers.go)

    Two tables of the account database as finite maps, with the upserts of the code. *)

From S2P Require Import Prelude Errors Uuid Utf8 Strconv Types SendCheck.

(** ** Poll vote counters *)

(** The table [gosignal_poll_counters]: chat, author and timestamp text to the counter. *)
Notation counters := (gmap (string * string * string) Z).

Record reservation := mkReservation { rsv_chat : string; rsv_author : string; rsv_timestamp : Z; rsv_explicit : Z }.

Definition counter_key (r : reservation) : string * string * string :=
  (rsv_chat r, rsv_author r, FormatUint (rsv_timestamp r)).

(** [ReservePollVote]: both statements insert the initial value; on a conflict the first keeps
    the maximum, the second increments, and has no row when the counter is at its end. *)
Definition ReservePollVote (r : reservation) (m : counters) : res Z * counters :=
  let key := counter_key r in
  if rsv_explicit r =? 0 then
    match m !! key with
    | None => (Ok 1, <[key := 1]> m)
    | Some counter =>
        if counter <? MaxUint32 then (Ok (counter + 1), <[key := counter + 1]> m)
        else (Err (Sent ErrPollVoteExhausted), m)
    end
  else
    let counter := match m !! key with None => rsv_explicit r | Some counter => Z.max counter (rsv_explicit r) end in
    (Ok (rsv_explicit r), <[key := counter]> m).

(** Reservations one after the other, as the database serializes them. *)
Fixpoint reserve_all (rs : list reservation) (m : counters) : list (reservation * res Z) * counters :=
  match rs with
  | [] => ([], m)
  | r :: rest =>
      let (x, m) := ReservePollVote r m in
      let (log, m) := reserve_all rest m in
      ((r, x) :: log, m)
  end.

Definition counters_ok (m : counters) : Prop := forall k c, m !! k = Some c -> 1 <= c <= MaxUint32.

Lemma ReservePollVote_step r m x m' :
  counters_ok m -> is_uint32 (rsv_explicit r) -> ReservePollVote r m = (x, m') ->
  counters_ok m'
  /\ (forall k c, m !! k = Some c -> exists c', m' !! k = Some c' /\ c <= c')
  /\ match x with
     | Ok n => exists c', m' !! counter_key r = Some c' /\ n <= c' /\ 1 <= n <= MaxUint32
               /\ if rsv_explicit r =? 0 then c' = n /\ (forall c, m !! counter_key r = Some c -> c < n) else n = rsv_explicit r
     | Err e => e = Sent ErrPollVoteExhausted /\ rsv_explicit r = 0 /\ m' = m /\ m !! counter_key r = Some MaxUint32
     end.
Proof.
  intros Hok Hu H. unfold is_uint32, MaxUint32 in *. unfold ReservePollVote in H.
  assert (Hins : forall v, 1 <= v <= 4294967295 -> (forall c, m !! counter_key r = Some c -> c <= v) ->
    counters_ok (<[counter_key r := v]> m)
    /\ forall k c, m !! k = Some c -> exists c', <[counter_key r := v]> m !! k = Some c' /\ c <= c').
  { intros v Hv Hc. split.
    - intros k c. destruct (decide (k = counter_key r)) as [->|Hne]; [rewrite lookup_insert_eq; by intros [= <-]|].
      rewrite lookup_insert_ne by done. apply Hok.
    - intros k c Hk. destruct (decide (k = counter_key r)) as [->|Hne]; [rewrite lookup_insert_eq; eauto|].
      rewrite lookup_insert_ne by done. exists c. split; [done|lia]. }
  destruct (rsv_explicit r =? 0) eqn:Ee; bool_hyps.
  - destruct (m !! counter_key r) as [c|] eqn:Em.
    + pose proof (Hok _ _ Em) as Hc. unfold MaxUint32 in *. destruct (c <? 4294967295) eqn:El; bool_hyps; injection H as <- <-.
      * destruct (Hins (c + 1)) as [H1 H2]; [lia|intros ? [= <-]; lia|]. split_and!; [done|done|]. exists (c + 1).
        rewrite lookup_insert_eq. split_and!; try done; try lia. intros ? [= <-]. lia.
      * split_and!; try done; [intros k c' Hk; exists c'; split; [done|lia]|]. f_equal. lia.
    + injection H as <- <-. destruct (Hins 1) as [H1 H2]; [lia|done|]. split_and!; [done|done|]. exists 1.
      rewrite lookup_insert_eq. split_and!; try done; lia.
  - injection H as <- <-. assert (Hmax : forall c, m !! counter_key r = Some c -> 1 <= c <= 4294967295) by (intros c Hc; by apply Hok in Hc).
    destruct (m !! counter_key r) as [c|] eqn:Em.
    + specialize (Hmax c eq_refl). destruct (Hins (Z.max c (rsv_explicit r))) as [H1 H2]; [lia|intros ? [= <-]; lia|].
      split_and!; [done|done|]. exists (Z.max c (rsv_explicit r)). rewrite lookup_insert_eq. split_and!; try done; lia.
    + destruct (Hins (rsv_explicit r)) as [H1 H2]; [lia|done|]. split_and!; [done|done|]. exists (rsv_explicit r).
      rewrite lookup_insert_eq. split_and!; try done; lia.
Qed.

(** What a later result owes to an earlier one of the same poll. *)
Definition after_reserved (m : counters) (log : list (reservation * res Z)) : Prop :=
  forall r x c, (r, x) ∈ log -> m !! counter_key r = Some c ->
    match x with Ok n => rsv_explicit r = 0 -> c < n | Err _ => True end.

Lemma reserve_all_after rs m log m' :
  counters_ok m -> Forall (fun r => is_uint32 (rsv_explicit r)) rs -> reserve_all rs m = (log, m') ->
  after_reserved m log.
Proof.
  revert m log. induction rs as [|r rs IH]; intros m log Hok Hu H; cbn in H.
  { injection H as <- <-. by intros r x c ?%elem_of_nil. }
  inversion Hu as [|? ? Hur Hurs]; subst. destruct (ReservePollVote r m) as [x m1] eqn:E1.
  destruct (reserve_all rs m1) as [log1 m2] eqn:E2. injection H as <- <-.
  destruct (ReservePollVote_step r m x m1 Hok Hur E1) as (Hok1 & Hmono & Hx).
  intros r' x' c [[= -> ->]|Hin]%elem_of_cons Hc.
  - destruct x as [n|]; [|done]. intros He. destruct Hx as (c' & _ & _ & _ & Hz). rewrite He in Hz. cbn in Hz.
    by apply Hz.
  - destruct (Hmono _ _ Hc) as (c' & Hc' & Hle). pose proof (IH m1 log1 Hok1 Hurs E2 r' x' c' Hin Hc') as H.
    destruct x'; [|done]. intros He. specialize (H He). lia.
Qed.

(** A counter at its end stays there. *)
Lemma reserve_all_end rs m log m' k :
  counters_ok m -> Forall (fun r => is_uint32 (rsv_explicit r)) rs -> reserve_all rs m = (log, m') ->
  m !! k = Some MaxUint32 -> m' !! k = Some MaxUint32.
Proof.
  revert m log. induction rs as [|r rs IH]; intros m log Hok Hu H Hk; cbn in H; [by injection H as _ <-|].
  inversion Hu as [|? ? Hur Hurs]; subst. destruct (ReservePollVote r m) as [x m1] eqn:E1.
  destruct (reserve_all rs m1) as [log1 m2] eqn:E2. injection H as _ <-.
  destruct (ReservePollVote_step r m x m1 Hok Hur E1) as (Hok1 & Hmono & _).
  eapply IH; [done|done|exact E2|]. destruct (Hmono _ _ Hk) as (c & Hc & Hle).
  assert (c <= MaxUint32) by (eapply Hok1, Hc). rewrite Hc. f_equal. lia.
Qed.

(** However automatic and explicit reservations of any polls follow one another, an automatic
    reservation gets a counter greater than every counter reserved for that poll before, from
    1 on and within [uint32]; an explicit value is returned unchanged; and the only failure is an
    automatic reservation of a poll whose counter is at its end. *)
Theorem reserve_all_spec rs m log m' :
  counters_ok m -> Forall (fun r => is_uint32 (rsv_explicit r)) rs -> reserve_all rs m = (log, m') ->
  counters_ok m' /\ log.*1 = rs
  /\ (forall r n, (r, Ok n) ∈ log -> 1 <= n <= MaxUint32 /\ (rsv_explicit r <> 0 -> n = rsv_explicit r))
  /\ (forall r e, (r, Err e) ∈ log -> e = Sent ErrPollVoteExhausted /\ rsv_explicit r = 0 /\ m' !! counter_key r = Some MaxUint32)
  /\ forall before r n after r' n', log = before ++ (r, Ok n) :: after -> (r', Ok n') ∈ after ->
       counter_key r' = counter_key r -> rsv_explicit r' = 0 -> n < n'.
Proof.
  revert m log. induction rs as [|r rs IH]; intros m log Hok Hu H; cbn in H.
  { injection H as <- <-. split_and!; try done; [by intros r n ?%elem_of_nil|by intros r e ?%elem_of_nil|]. by intros []. }
  inversion Hu as [|? ? Hur Hurs]; subst. destruct (ReservePollVote r m) as [x m1] eqn:E1.
  destruct (reserve_all rs m1) as [log1 m2] eqn:E2. injection H as <- <-.
  destruct (ReservePollVote_step r m x m1 Hok Hur E1) as (Hok1 & Hmono & Hx).
  pose proof (reserve_all_after rs m1 log1 m2 Hok1 Hurs E2) as Hafter.
  destruct (IH m1 log1 Hok1 Hurs E2) as (Hok2 & Hlog & Hn & He & Hord). split_and!.
  - done.
  - cbn. by rewrite Hlog.
  - intros r' n [[= -> <-]|Hin]%elem_of_cons; [|by apply Hn]. destruct Hx as (c & _ & _ & Hb & Hz). split; [done|].
    intros Hne. by rewrite (proj2 (Z.eqb_neq _ _) Hne) in Hz.
  - intros r' e [[= -> <-]|Hin]%elem_of_cons; [|by apply He]. destruct Hx as (-> & Hz & -> & Hm). split_and!; [done|done|].
    eapply reserve_all_end; [|exact Hurs|exact E2|exact Hm]; done.
  - intros before r1 n after r' n' Heq Hin Hk Hz. destruct before as [|y before].
    + cbn in Heq. injection Heq as Er Ex El. subst r1 x after. destruct Hx as (c & Hc & Hle & _).
      rewrite <- Hk in Hc. pose proof (Hafter r' (Ok n') c Hin Hc Hz). lia.
    + injection Heq as _ Heq. by eapply Hord.
Qed.

(** ** Chat timers *)

Record ChatTimerRecord := mkTimer { tim_ACI : string; tim_Seconds : Z; tim_Version : Z }.

(** The table [gosignal_chat_timers]: seconds and version by ACI. *)
Notation timers := (gmap string (Z * Z)).

Section timers.
Context {U : UuidLib}.

Definition validateChatTimerACI (aci : string) : error :=
  if canonical_uuid aci then None else Some (errorf errInvalidChatTimerACI).

Definition ChatTimer (aci : string) (m : timers) : res (option ChatTimerRecord) :=
  match validateChatTimerACI aci with
  | Some e => Err e
  | None => Ok ((fun t => mkTimer aci t.1 t.2) <$> m !! aci)
  end.

(** The upsert: an unknown chat is inserted, a known one updated for a newer version only. *)
Definition merge_one (m : timers) (rec : ChatTimerRecord) : timers :=
  match m !! tim_ACI rec with
  | None => <[tim_ACI rec := (tim_Seconds rec, tim_Version rec)]> m
  | Some (_, version) =>
      if version <? tim_Version rec then <[tim_ACI rec := (tim_Seconds rec, tim_Version rec)]> m else m
  end.

Definition MergeChatTimers (records : list ChatTimerRecord) (m : timers) : error * timers :=
  match first_error (fun rec => validateChatTimerACI (tim_ACI rec)) records with
  | Some e => (Some e, m)
  | None => (None, foldl merge_one m records)
  end.

Definition MergeChatTimer (rec : ChatTimerRecord) (m : timers) : error * timers := MergeChatTimers [rec] m.

(** [m] knows every timer of [l] at least as new. *)
Definition knows (m : timers) (rec : ChatTimerRecord) : Prop :=
  exists s v, m !! tim_ACI rec = Some (s, v) /\ tim_Version rec <= v.

Lemma merge_one_knows m rec : knows (merge_one m rec) rec.
Proof.
  unfold knows, merge_one. destruct (m !! tim_ACI rec) as [[s v]|] eqn:E.
  - destruct (Z.ltb_spec v (tim_Version rec)); [do 2 eexists; by rewrite lookup_insert_eq|].
    exists s, v. split; [done|lia].
  - do 2 eexists. by rewrite lookup_insert_eq.
Qed.

(** A merge only ever replaces a timer by a newer one. *)
Definition grows (m m' : timers) : Prop :=
  forall aci s v, m !! aci = Some (s, v) -> exists s' v', m' !! aci = Some (s', v') /\ (v < v' \/ (s', v') = (s, v)).

Lemma merge_one_grows m rec : grows m (merge_one m rec).
Proof.
  intros aci s v H. unfold merge_one. destruct (decide (aci = tim_ACI rec)) as [->|Hne].
  - rewrite H. destruct (Z.ltb_spec v (tim_Version rec)); [rewrite lookup_insert_eq; by eauto 10|]. by eauto 10.
  - exists s, v. split; [|by right]. destruct (m !! tim_ACI rec) as [[s0 v0]|]; [destruct (v0 <? _)|]; rewrite ?lookup_insert_ne by done; done.
Qed.

Lemma grows_refl m : grows m m.
Proof. intros aci s v H. exists s, v. split; [done|by right]. Qed.

Lemma grows_trans m1 m2 m3 : grows m1 m2 -> grows m2 m3 -> grows m1 m3.
Proof.
  intros H12 H23 aci s v H. destruct (H12 _ _ _ H) as (s2 & v2 & H2 & Hor2).
  destruct (H23 _ _ _ H2) as (s3 & v3 & H3 & Hor3). exists s3, v3. split; [done|].
  destruct Hor2 as [?|[= -> ->]], Hor3 as [?|[= -> ->]]; [left; lia|by left|by left|by right].
Qed.

Lemma foldl_grows records m : grows m (foldl merge_one m records).
Proof.
  revert m. induction records as [|r rs IH]; intros m; cbn; [apply grows_refl|].
  eapply grows_trans; [apply merge_one_grows|apply IH].
Qed.

Lemma knows_grows m m' rec : grows m m' -> knows m rec -> knows m' rec.
Proof.
  intros Hg (s & v & H & Hle). destruct (Hg _ _ _ H) as (s' & v' & H' & Hor). exists s', v'. split; [done|].
  destruct Hor as [?|[= -> ->]]; lia.
Qed.

Lemma foldl_knows records m rec : rec ∈ records -> knows (foldl merge_one m records) rec.
Proof.
  revert m. induction records as [|r rs IH]; intros m; cbn; [by intros ?%elem_of_nil|].
  intros [->|Hin]%elem_of_cons; [|by apply IH]. eapply knows_grows; [apply foldl_grows|apply merge_one_knows].
Qed.

Lemma merge_one_known m rec : knows m rec -> merge_one m rec = m.
Proof.
  intros (s & v & H & Hle). unfold merge_one. rewrite H. by rewrite (proj2 (Z.ltb_ge _ _)).
Qed.

Lemma foldl_known records m : (forall rec, rec ∈ records -> knows m rec) -> foldl merge_one m records = m.
Proof.
  induction records as [|r rs IH]; intros H; cbn; [done|]. rewrite merge_one_known by (apply H; by left).
  apply IH. intros rec Hin. apply H. by right.
Qed.

Lemma foldl_origin records m aci t :
  foldl merge_one m records !! aci = Some t ->
  m !! aci = Some t \/ exists rec, rec ∈ records /\ tim_ACI rec = aci /\ t = (tim_Seconds rec, tim_Version rec).
Proof.
  revert m. induction records as [|r rs IH]; intros m H; cbn in H; [by left|].
  destruct (IH _ H) as [Hm|(rec & ? & ?)]; [|right; exists rec; split; [by right|done]].
  assert (Hor : m !! aci = Some t \/ (tim_ACI r = aci /\ t = (tim_Seconds r, tim_Version r))).
  { unfold merge_one in Hm. destruct (decide (aci = tim_ACI r)) as [->|Hne].
    - destruct (m !! tim_ACI r) as [[s v]|] eqn:Em; [destruct (v <? tim_Version r)|]; rewrite ?lookup_insert_eq, ?Em in Hm;
        first [by left|right; split; [done|congruence]].
    - left. destruct (m !! tim_ACI r) as [[s v]|]; [destruct (v <? tim_Version r)|]; rewrite ?lookup_insert_ne in Hm by done; done. }
  destruct Hor as [?|?]; [by left|right]. exists r. split; [by left|done].
Qed.

(** Merging timers is all or nothing: an invalid ACI leaves the table as it was. Otherwise
    every chat has a timer at least as new as each one merged, which is one of those merged or
    the one it had; a timer it had is replaced by a newer version only; and merging the same
    timers again changes nothing. *)
Theorem MergeChatTimers_spec records m :
  let (e, m') := MergeChatTimers records m in
  match e with
  | Some _ => m' = m /\ exists rec, rec ∈ records /\ canonical_uuid (tim_ACI rec) = false
  | None =>
      (forall rec, rec ∈ records -> canonical_uuid (tim_ACI rec) = true /\ knows m' rec)
      /\ grows m m'
      /\ (forall aci s v, m' !! aci = Some (s, v) -> m !! aci = Some (s, v) \/ mkTimer aci s v ∈ records)
      /\ MergeChatTimers records m' = (None, m')
  end.
Proof.
  unfold MergeChatTimers. destruct (first_error _ records) as [e|] eqn:E.
  - split; [done|]. clear -E. induction records as [|r rs IH]; cbn in E; [done|].
    unfold validateChatTimerACI in E at 1. destruct (canonical_uuid (tim_ACI r)) eqn:Ec.
    + destruct (IH E) as (rec & ? & ?). exists rec. split; [by right|done].
    + exists r. split; [by left|done].
  - apply first_error_None in E as Hall. rewrite Forall_forall in Hall. split_and!.
    + intros rec Hin. split; [|by apply foldl_knows]. specialize (Hall rec Hin). unfold validateChatTimerACI in Hall.
      by destruct (canonical_uuid (tim_ACI rec)).
    + apply foldl_grows.
    + intros aci s v H. apply foldl_origin in H as [?|(rec & Hin & <- & E')]; [by left|right]. injection E' as -> ->. by destruct rec.
    + f_equal. apply foldl_known. intros rec Hin. by apply foldl_knows.
Qed.
End timers.

(** ** Witness *)

Section witnesses.
(** Automatic, explicit, automatic, and one for another poll. *)
Definition demo_reservations : list reservation :=
  [mkReservation "c" "a" 5 0; mkReservation "c" "a" 5 4294967295; mkReservation "c" "a" 5 0; mkReservation "c" "b" 5 0].

Lemma reserve_all_spec_witness :
  counters_ok ∅ /\ Forall (fun r => is_uint32 (rsv_explicit r)) demo_reservations
  /\ (reserve_all demo_reservations ∅).1.*2 = [Ok 1; Ok 4294967295; Err (Sent ErrPollVoteExhausted); Ok 1]
  /\ (reserve_all demo_reservations ∅).1.*1 = demo_reservations.
Proof.
  assert (H0 : counters_ok ∅) by (intros k c H; discriminate H).
  assert (H1 : Forall (fun r => is_uint32 (rsv_explicit r)) demo_reservations)
    by (repeat (constructor; [unfold is_uint32, MaxUint32; cbn; lia|]); constructor).
  split; [exact H0|]. split; [exact H1|]. split; [vm_compute; reflexivity|].
  exact (proj1 (proj2 (reserve_all_spec _ _ _ _ H0 H1 (surjective_pairing _)))).
Defined.
End witnesses.
