(* ===== verification/ClientSend.v ===== *)
(** * Sending of the client (internal/signal/meow_send.go, meow_chat_timers.go, meow_receipt.go, meow_stories_send.go, meow_attachments.go)

    What [meowClient] does with a request once the application has built it: uploading, building
    the message ([Wire.v]), giving it each chat's timer ([StoreCounters.v]), handing it to
    signalmeow and reporting the result per recipient; and how it learns the timers from received
    messages. The calls to signalmeow are logged in a trace; its answers are arbitrary. *)

From S2P Require Import Prelude Errors Uuid Utf8 Strconv Base64 Types SendCheck Attachments GroupChange Protowire Trace Wire Reconnect Convert StoreCounters.

(** ** signalmeow *)

(** [signalpb.Content] as far as this client sends it. *)
Inductive message_content := MContent (content : Content) | MReceipt (typ : receipt_type) (timestamps : list Z).

Inductive mcall {U : UuidLib} :=
  | UploadAttachment (data : string)
  | DownloadAttachment (att : Attachment)
  | SendMessage (to : uuid) (content : message_content)
  | SendGroupMessage (gid : string) (content : Content)
  | SendGroupStory (gid : string) (story : StoryMessage) (timestamp : Z)
  | SendPrivateStory (distribution : uuid) (recipients : list uuid) (story : StoryMessage) (timestamp : Z).

Record SendMessageResult := mkSMR { smr_WasSuccessful : bool; smr_Unidentified : bool; smr_Error : error }.
Record GroupMessageSendResult {U : UuidLib} := mkGMSR {
  gmsr_SuccessfullySentTo : list (ServiceID * bool); gmsr_FailedToSendTo : list (ServiceID * error) }.

(** What the library, the server, the clock and the device's store answer, given the calls so far. *)
Class Signalmeow {U : UuidLib} := {
  on_UploadAttachment : list mcall -> string -> res AttachmentPointer;
  on_DownloadAttachment : list mcall -> Attachment -> res string;
  on_SendMessage : list mcall -> uuid -> message_content -> SendMessageResult;
  on_SendGroupMessage : list mcall -> string -> Content -> res (option GroupMessageSendResult);
  on_SendGroupStory : list mcall -> string -> StoryMessage -> Z -> res (GroupMessageSendResult * error);
  on_SendPrivateStory : list mcall -> uuid -> list uuid -> StoryMessage -> Z -> res (GroupMessageSendResult * error);
  on_MyProfileKey : list mcall -> res (option string);
  on_NewString : list mcall -> string;
  on_UnixMilli : list mcall -> Z;
  (** [GroupIdentifier.Bytes] *)
  GroupIdentifier_Bytes : string -> error;
  (** [len(web.CDNHosts)] *)
  CDNHosts : Z;
}.

(** [protowire.ConsumeField]: the number and length of the first field. *)
Class FieldWire := { ConsumeField : string -> option (Z * nat) }.
Class FieldWireLaws (F : FieldWire) : Prop := {
  ConsumeField_law msg num n : ConsumeField msg = Some (num, n) -> (1 <= n <= String.length msg)%nat;
}.

(** [meowClient], with [cancelLoops != nil] and [closing] as booleans; [chat_timers] is the table of the
    account database and [deviceACI] is [cli.Store.ACI]. *)
Record meow {U : UuidLib} := mkMeow {
  meow_connected : bool; meow_closing : bool; meow_ownACI : string; meow_deviceACI : uuid;
  meow_uploads : gmap string AttachmentPointer; meow_lost : error; meow_timers : gmap string (Z * Z) }.

Definition with_uploads {U : UuidLib} (uploads : gmap string AttachmentPointer) (c : meow) : meow :=
  mkMeow _ (meow_connected c) (meow_closing c) (meow_ownACI c) (meow_deviceACI c) uploads (meow_lost c) (meow_timers c).
Definition with_lost {U : UuidLib} (lost : error) (c : meow) : meow :=
  mkMeow _ (meow_connected c) (meow_closing c) (meow_ownACI c) (meow_deviceACI c) (meow_uploads c) lost (meow_timers c).
Definition with_timers {U : UuidLib} (timers : gmap string (Z * Z)) (c : meow) : meow :=
  mkMeow _ (meow_connected c) (meow_closing c) (meow_ownACI c) (meow_deviceACI c) (meow_uploads c) (meow_lost c) timers.

Section client.
Context {U : UuidLib} {P : SignalPb} {L : ConvertLib} {S : Signalmeow} {F : FieldWire}.
Notation W := (trace mcall meow).
Notation M := (io W err).

Definition gets {A} (f : list mcall -> meow -> A) : M A := fun w => (Ok (f (tr_calls w) (tr_result w)), w).
(** A call whose answer may be an error. *)
Definition ask {A} (c : mcall) (answer : list mcall -> res A) : M A := let* r := call c answer in io_of r.

(** [cancelLoops == nil], then [begin]. *)
Definition begin_sending : M unit :=
  let* connected := gets (fun _ c => meow_connected c) in
  let* _ := fail_if (if connected then None else Some (Sent ErrNotConnected)) in
  let* closing := gets (fun _ c => meow_closing c) in
  fail_if (if closing then Some (Sent ErrClosed) else None).

(** ** A connection lost for good *)

Definition connectionLost : M unit :=
  let* lost := gets (fun _ c => meow_lost c) in
  fail_if (match lost with Some e => Some (Wrap [e]) | None => None end).

Definition lost_error (evt : Event) : error :=
  match evt with
  | EvConnection StateLoggedOut cause => Some (default (Sent ErrDeviceUnlinked) cause)
  | EvConnection StateFailed cause => Some (default (Sent ErrConnectionFailed) cause)
  | _ => None
  end.

Definition noteConnection (evt : Event) (c : meow) : meow :=
  match lost_error evt with
  | None => c
  | Some e => match meow_lost c with None => with_lost (Some e) c | Some _ => c end
  end.

(** ** Uploads and downloads *)

Definition pointerMetadata (pointer : AttachmentPointer) (att : OutgoingAttachment) (now : Z) : AttachmentPointer :=
  let sized := (0 <? oat_Width att) && (0 <? oat_Height att) in
  mkPointer (ptr_CdnId pointer) (ptr_CdnKey pointer) (Some (oat_ContentType att)) (ptr_Key pointer) (ptr_Size pointer)
    (ptr_Digest pointer) (if oat_Filename att != ""%string then Some (oat_Filename att) else ptr_FileName pointer)
    (ptr_Caption pointer) (ptr_CdnNumber pointer) (Some now)
    (if sized then Some (oat_Width att) else ptr_Width pointer)
    (if sized then Some (oat_Height att) else ptr_Height pointer).

Definition addUpload (pointer : AttachmentPointer) : M UploadedAttachment :=
  let* id := gets (fun calls _ => on_NewString calls) in
  let* _ := set_result (fun c => with_uploads (<[id := pointer]> (meow_uploads c)) c) in
  io_ret (mkUploaded id (default "" (ptr_ContentType pointer)) (default "" (ptr_FileName pointer)) (default 0 (ptr_Size pointer)))%string.

Fixpoint upload_loop (attachments : list OutgoingAttachment) : M (list UploadedAttachment) :=
  match attachments with
  | [] => io_ret []
  | att :: rest =>
      let* pointer := ask (UploadAttachment (oat_Data att)) (fun calls => on_UploadAttachment calls (oat_Data att)) in
      let* now := gets (fun calls _ => on_UnixMilli calls) in
      let* up := addUpload (pointerMetadata pointer att now) in
      let* ups := upload_loop rest in
      io_ret (up :: ups)
  end.

Definition meow_Upload (attachments : list OutgoingAttachment) : M (list UploadedAttachment) :=
  let* _ := begin_sending in
  let* _ := connectionLost in
  upload_loop attachments.

Fixpoint uploadedPointers (uploads : gmap string AttachmentPointer) (attachments : list UploadedAttachment) : res (list AttachmentPointer) :=
  match attachments with
  | [] => Ok []
  | att :: rest =>
      match uploads !! upl_ID att with
      | None => Err (errorf ErrUnknownAttachment)
      | Some pointer => out ← uploadedPointers uploads rest; Ok (pointer :: out)
      end
  end.

Definition Located (r : RemoteAttachment) : bool := (CDNKey r != ""%string) || negb (CDNID r =? 0).
Definition attachmentKeyLength : Z := 64.
Definition attachmentDigestLength : Z := 32.

Definition checkDownload (att : Attachment) : error :=
  let remote := att_Remote att in
  if negb (Located remote) then Some (Sent ErrAttachmentNotFound)
  else if CDNHosts <=? CDNNumber remote then Some (errorf ErrAttachmentInvalid)
  else if negb (slen (rem_Key remote) =? attachmentKeyLength) then Some (errorf ErrAttachmentInvalid)
  else if negb (slen (rem_Digest remote) =? attachmentDigestLength) then Some (errorf ErrAttachmentInvalid)
  else if att_Size att =? 0 then Some (errorf ErrAttachmentInvalid)
  else None.

Definition downloadError (e : err) : err :=
  if errIs e meow_ErrAttachmentNotFound then Sent ErrAttachmentNotFound
  else if errIs e meow_ErrInvalidDigest || errIs e meow_ErrInvalidMAC then Wrap [Sent ErrAttachmentInvalid; e]
  else Wrap [e].

(** The wait that the context can cut short is not modelled. *)
Definition meow_Download (att : Attachment) : M string :=
  let* _ := fail_if (checkDownload att) in
  let* r := call (DownloadAttachment att) (fun calls => on_DownloadAttachment calls att) in
  match r with Ok data => io_ret data | Err e => io_err (downloadError e) end.

(** ** Results *)

Definition sendError (rcpt : Recipient) (e : err) : err :=
  if errIs e libsignal_UntrustedIdentity then errorf ErrUntrustedIdentity else e.

Definition recipientResult (rcpt : Recipient) (self : bool) (sent : SendMessageResult) : RecipientResult :=
  if smr_WasSuccessful sent then mkRcptResult rcpt (smr_Unidentified sent) None
  else match smr_Error sent with
       | Some e => mkRcptResult rcpt false (Some (sendError rcpt e))
       | None => mkRcptResult rcpt false (Some (Sent (if self then ErrSyncFailed else signal_ErrSendFailed)))
       end.

Definition groupResults (sent : option GroupMessageSendResult) : list RecipientResult :=
  match sent with
  | None => []
  | Some sent =>
      ((fun ok => mkRcptResult (serviceRecipient ok.1) ok.2 None) <$> gmsr_SuccessfullySentTo sent)
      ++ ((fun failed => let rcpt := serviceRecipient failed.1 in
             mkRcptResult rcpt false (Some (sendError rcpt (default (Sent signal_ErrSendFailed) failed.2)))) <$> gmsr_FailedToSendTo sent)
  end.

(** ** Messages *)

Definition ownProfileKey : M string :=
  gets (fun calls _ => match on_MyProfileKey calls with Ok (Some key) => key | _ => ""%string end).

(** [message]: every recipient gets a copy of the result. *)
Definition message (req : SendRequest) : M DataMessage :=
  let* _ := fail_if (Check req) in
  let* uploads := gets (fun _ c => meow_uploads c) in
  let* pointers := io_of (uploadedPointers uploads (match req_Sticker req with Some s => [out_Image s] | None => req_Attachments req end)) in
  let* key := ownProfileKey in
  io_of (dataMessage req pointers key).

(** The timer of the chat, or the fallback for an unknown one. *)
Definition directMessage (timers : gmap string (Z * Z)) (rcpt : Recipient) (msg : DataMessage) : res DataMessage :=
  id ← aciServiceID rcpt;
  known ← ChatTimer (uuid_string id) timers;
  let timer := match known with Some t => t | None => mkTimer "" 0 1 end in
  Ok (set_Timer msg (tim_Seconds timer) (tim_Version timer)).

Definition send_direct (req : SendRequest) (fresh : DataMessage) (rcpt : Recipient) : M RecipientResult :=
  match aciServiceID rcpt with
  | Err e => io_ret (mkRcptResult rcpt false (Some e))
  | Ok id =>
      let* timers := gets (fun _ c => meow_timers c) in
      match directMessage timers rcpt fresh with
      | Err e => io_ret (mkRcptResult rcpt false (Some e))
      | Ok msg =>
          let content := MContent (wrapOutgoing msg (req_EditTarget req)) in
          let* sent := call (SendMessage id content) (fun calls => on_SendMessage calls id content) in
          let* own := gets (fun _ c => meow_ownACI c) in
          io_ret (recipientResult rcpt (ACI rcpt == own) sent)
      end
  end.

Fixpoint send_loop (req : SendRequest) (fresh : DataMessage) (recipients : list Recipient) : M (list RecipientResult) :=
  match recipients with
  | [] => io_ret []
  | rcpt :: rest =>
      let* r := send_direct req fresh rcpt in
      let* rs := send_loop req fresh rest in
      io_ret (r :: rs)
  end.

Definition sendDirectRecipients (req : SendRequest) (fresh : DataMessage) : M SignalSendResult :=
  let* results := send_loop req fresh (req_Recipients req) in
  io_ret (mkSigResult (req_Timestamp req) results None).

Definition sendGroup (groupID : string) (msg : Content) : M (list RecipientResult) :=
  let* _ := fail_if (match GroupIdentifier_Bytes groupID with Some e => Some (Wrap [Sent ErrUnknownGroup; e]) | None => None end) in
  let* r := call (SendGroupMessage groupID msg) (fun calls => on_SendGroupMessage calls groupID msg) in
  match r with
  | Err e => io_err (if errIs e meow_ErrGroupMasterKeyNotFound then errorf ErrUnknownGroup else Wrap [e])
  | Ok sent => io_ret (groupResults sent)
  end.

(** ** Stories *)

Definition storyTextWhite : Z := 0xffffffff.
Definition storyBackgroundBlack : Z := 0xff000000.

Definition outgoingStoryMessage (story : OutgoingStory) (pointer : option AttachmentPointer) : res StoryMessage :=
  match story_File story with
  | Some _ =>
      match pointer with
      | None => Err (Sent ErrUnknownAttachment)
      | Some pointer => Ok (mkStoryMessage (Some (story_AllowsReplies story)) (Some (FileAttachment pointer)) [])
      end
  | None =>
      Ok (mkStoryMessage (Some (story_AllowsReplies story))
            (Some (StoryTextAttachment (mkTextAttachment (Some (story_Text story)) "DEFAULT" (Some storyTextWhite) None
               (Some (BackColor storyBackgroundBlack)) None))) [])
  end.

Fixpoint story_recipients (deviceACI : uuid) (recipients : list Recipient) : res (list uuid) :=
  match recipients with
  | [] => Ok []
  | r :: rest =>
      match uuid_parse (ACI r) with
      | None => Err (Sent ErrInvalidStory)
      | Some aci =>
          if bool_decide (aci = deviceACI) then Err (Sent ErrInvalidStory)
          else out ← story_recipients deviceACI rest; Ok (aci :: out)
      end
  end.

Definition submitStory (req : SendRequest) (story : OutgoingStory) (msg : StoryMessage) : M (GroupMessageSendResult * error) :=
  if req_GroupID req != ""%string then
    ask (SendGroupStory (req_GroupID req) msg (req_Timestamp req)) (fun calls => on_SendGroupStory calls (req_GroupID req) msg (req_Timestamp req))
  else
    match uuid_parse (DistributionListID story) with
    | None => io_err (Sent ErrInvalidStory)
    | Some distribution =>
        let* own := gets (fun _ c => meow_deviceACI c) in
        let* recipients := io_of (story_recipients own (req_Recipients req)) in
        ask (SendPrivateStory distribution recipients msg (req_Timestamp req))
          (fun calls => on_SendPrivateStory calls distribution recipients msg (req_Timestamp req))
    end.

Definition storyError (e : err) : err :=
  if errIs e meow_ErrStoryNotMember then Sent ErrNotAMember
  else if errIs e meow_ErrGroupMasterKeyNotFound then Sent ErrUnknownGroup
  else Wrap [e].

Definition sendStory (req : SendRequest) (story : OutgoingStory) : M SignalSendResult :=
  let* _ := fail_if (Check req) in
  let* uploads := gets (fun _ c => meow_uploads c) in
  let* pointer := io_of (match story_File story with
                         | None => Ok None
                         | Some file => pointers ← uploadedPointers uploads [file]; Ok (head pointers)
                         end) in
  let* msg := io_of (outgoingStoryMessage story pointer) in
  let* _ := connectionLost in
  let* sent := io_try (submitStory req story msg) in
  match sent with
  | Err e => io_err (storyError e)
  | Ok (results, syncError) =>
      io_ret (mkSigResult (req_Timestamp req) (groupResults (Some results)) (match syncError with Some e => Some (Wrap [e]) | None => None end))
  end.

(** ** Send and SendReceipt *)

Definition with_stamp (ts : Z) (req : SendRequest) : SendRequest :=
  mkSendRequest (req_Recipients req) (req_GroupID req) (req_Body req) ts (req_EditTarget req) (req_Attachments req) (req_Sticker req)
    (req_Story req) (req_PollCreate req) (req_PollVote req) (req_PollClose req) (req_Pin req) (req_Unpin req) (req_Quote req) (req_Mentions req)
    (req_Styles req) (req_Reaction req) (req_DeleteTarget req).

Definition stamped (calls : list mcall) (req : SendRequest) : SendRequest :=
  if req_Timestamp req =? 0 then with_stamp (on_UnixMilli calls) req else req.

Definition send_message (req : SendRequest) : M SignalSendResult :=
  let* msg := message req in
  let* _ := connectionLost in
  if req_GroupID req != ""%string then
    let* results := sendGroup (req_GroupID req) (wrapOutgoing msg (req_EditTarget req)) in
    io_ret (mkSigResult (req_Timestamp req) results None)
  else sendDirectRecipients req msg.

Definition meow_Send (req : SendRequest) : M SignalSendResult :=
  let* _ := begin_sending in
  let* req := gets (fun calls _ => stamped calls req) in
  match req_Story req with
  | Some story => sendStory req story
  | None => send_message req
  end.

Definition receiptContent (typ : ReceiptType) (timestamps : list Z) : res message_content :=
  match typ with
  | ReceiptNone => Err (errorf ErrInvalidReceipt)
  | ReceiptDelivery | ReceiptRead | ReceiptViewed =>
      if len timestamps =? 0 then Err (errorf ErrInvalidReceipt)
      else Ok (MReceipt (match typ with ReceiptDelivery => DELIVERY | ReceiptRead => READ | _ => VIEWED end) timestamps)
  end.

Definition wrapped {A} (r : res A) : res A := match r with Err e => Err (Wrap [e]) | Ok a => Ok a end.

Definition meow_SendReceipt (sender : Recipient) (typ : ReceiptType) (timestamps : list Z) : M unit :=
  let* connected := gets (fun _ c => meow_connected c) in
  let* _ := fail_if (if connected then None else Some (Sent ErrNotConnected)) in
  let* content := io_of (receiptContent typ timestamps) in
  let* id := io_of (wrapped (aciServiceID sender)) in
  let* closing := gets (fun _ c => meow_closing c) in
  let* _ := fail_if (if closing then Some (Sent ErrClosed) else None) in
  let* _ := connectionLost in
  let* sent := call (SendMessage id content) (fun calls => on_SendMessage calls id content) in
  fail_if (match rr_Err (recipientResult sender false sent) with Some e => Some (Wrap [e]) | None => None end).

(** ** Learning chat timers *)

(** A field 3, groupV1, or a malformed rest; the fuel is the length, which a field shortens. *)
Fixpoint legacy_group_loop (fuel : nat) (unknown : string) : bool :=
  match fuel, unknown with
  | _, EmptyString => false
  | O, _ => true
  | Datatypes.S fuel, _ =>
      match ConsumeField unknown with
      | None => true
      | Some (number, length) => (number =? 3) || legacy_group_loop fuel (sdrop length unknown)
      end
  end.
Definition hasLegacyChatGroup (msg : DataMessage) : bool := legacy_group_loop (String.length (dm_Unknown msg)) (dm_Unknown msg).

Definition eligibleChatTimer (msg : option DataMessage) : bool :=
  match msg with
  | None => false
  | Some msg =>
      if dm_GroupV2 msg || hasLegacyChatGroup msg then false
      else
        let update := flagged msg pb_EXPIRATION_TIMER_UPDATE in
        (has (dm_Body msg) || update) && (has (dm_ExpireTimer msg) || has (dm_ExpireTimerVersion msg) || update)
  end.

Definition chatTimerMessage (content : ChatContent) : option DataMessage :=
  match content with CCData msg => Some msg | CCEdit edit => em_DataMessage edit | _ => None end.

Definition chatTimerDestination (chatID : string) : uuid :=
  match ServiceIDFromString chatID with
  | Some id => if sid_IsPNI id then uuid_nil else sid_UUID id
  | None => uuid_nil
  end.

Definition chatTimerRecord (ownACI : string) (info : MessageInfo) (content : ChatContent) : option ChatTimerRecord :=
  let msg := chatTimerMessage content in
  if negb (eligibleChatTimer msg) then None
  else
    let aci := if uuid_string (mi_Sender info) == ownACI then chatTimerDestination (mi_ChatID info) else mi_Sender info in
    if bool_decide (aci = uuid_nil) then None
    else
      let msg := default zero_data msg in
      Some (mkTimer (uuid_string aci) (default 0 (dm_ExpireTimer msg)) (default 0 (dm_ExpireTimerVersion msg))).

Definition contactTimerRecords (isFromDB : bool) (timers : list ContactTimer) : list ChatTimerRecord :=
  if isFromDB then []
  else omap (fun t =>
    match ct_ExpireTimer t, ct_ExpireTimerVersion t with
    | Some seconds, Some version => if bool_decide (ct_ACI t = uuid_nil) then None else Some (mkTimer (uuid_string (ct_ACI t)) seconds version)
    | _, _ => None
    end) timers.

Definition timer_records (ownACI : string) (raw : SignalEvent) : list ChatTimerRecord :=
  match raw with
  | SEChat info content => option_list (chatTimerRecord ownACI info content)
  | SEContactList isFromDB timers => contactTimerRecords isFromDB timers
  | _ => []
  end.

Definition learnChatTimers (raw : SignalEvent) (c : meow) : error * meow :=
  let records := timer_records (meow_ownACI c) raw in
  if len records =? 0 then (None, c)
  else let (e, timers) := MergeChatTimers records (meow_timers c) in
       (match e with Some e => Some (Wrap [e]) | None => None end, with_timers timers c).
End client.

(** ** What Send does *)

Section send.
Context {U : UuidLib} {UL : UuidLaws U} {P : SignalPb} {L : ConvertLib} {S : Signalmeow}.
Context {PL : SignalPbLaws P}.
Notation W := (trace mcall meow).

(** The call that sends to a recipient: none to one without a usable ACI. *)
Definition direct_call (timers : gmap string (Z * Z)) (req : SendRequest) (msg : DataMessage) (rcpt : Recipient) : option mcall :=
  match aciServiceID rcpt, directMessage timers rcpt msg with
  | Ok id, Ok m => Some (SendMessage id (MContent (wrapOutgoing m (req_EditTarget req))))
  | _, _ => None
  end.

(** A result is for its recipient, and the one of an attempted send is what signalmeow answered. *)
Definition direct_outcome (c : meow) (req : SendRequest) (msg : DataMessage) (rcpt : Recipient) (r : RecipientResult) : Prop :=
  rr_Recipient r = rcpt /\
  match direct_call (meow_timers c) req msg rcpt with
  | Some (SendMessage id content) => exists calls, r = recipientResult rcpt (ACI rcpt == meow_ownACI c) (on_SendMessage calls id content)
  | _ => rr_Err r <> None
  end.

Lemma recipientResult_Recipient rcpt self sent : rr_Recipient (recipientResult rcpt self sent) = rcpt.
Proof. unfold recipientResult. by destruct (smr_WasSuccessful sent), (smr_Error sent). Qed.

Lemma send_direct_run req msg rcpt w : let (r, w') := send_direct req msg rcpt w in
  exists res, r = Ok res /\ tr_result w' = tr_result w
    /\ tr_calls w' = tr_calls w ++ option_list (direct_call (meow_timers (tr_result w)) req msg rcpt)
    /\ direct_outcome (tr_result w) req msg rcpt res.
Proof.
  unfold send_direct, direct_outcome, direct_call. destruct (aciServiceID rcpt) as [id|e] eqn:E; cbn -[directMessage recipientResult].
  - destruct (directMessage _ _ _) as [m|e]; cbn -[recipientResult].
    + eexists. split_and!; [done..| |by eexists]. apply recipientResult_Recipient.
    + eexists. rewrite app_nil_r. by split_and!.
  - eexists. rewrite app_nil_r. by split_and!.
Qed.

Lemma send_loop_run req msg rcpts w : let (r, w') := send_loop req msg rcpts w in
  exists res, r = Ok res /\ tr_result w' = tr_result w
    /\ tr_calls w' = tr_calls w ++ omap (direct_call (meow_timers (tr_result w)) req msg) rcpts
    /\ Forall2 (direct_outcome (tr_result w) req msg) rcpts res.
Proof.
  revert w. induction rcpts as [|rcpt rcpts IH]; intros w; cbn [send_loop].
  - exists []. rewrite app_nil_r. by split_and!.
  - unfold io_bind at 1. pose proof (send_direct_run req msg rcpt w) as H1. destruct (send_direct req msg rcpt w) as [r1 w1].
    destruct H1 as (res1 & -> & Es1 & Ec1 & Ho1). unfold io_bind at 1. specialize (IH w1). destruct (send_loop req msg rcpts w1) as [r2 w2].
    destruct IH as (res2 & -> & Es2 & Ec2 & Ho2). rewrite Es1 in *. exists (res1 :: res2). cbn [omap list_omap]. split_and!; [done|congruence| |by constructor].
    rewrite Ec2, Ec1, <- app_assoc. f_equal. by destruct (direct_call _ _ _ _).
Qed.

(** [message] as a function of the state. *)
Definition message_of (calls : list mcall) (c : meow) (req : SendRequest) : res DataMessage :=
  do! Check req;
  pointers ← uploadedPointers (meow_uploads c) (uploads req);
  dataMessage req pointers (match on_MyProfileKey calls with Ok (Some key) => key | _ => ""%string end).

Lemma message_run req w : message req w = (message_of (tr_calls w) (tr_result w) req, w).
Proof.
  unfold message, message_of, io_bind, fail_if, gets, ownProfileKey, io_of, uploads. destruct (Check req); [done|]. cbn -[dataMessage uploadedPointers].
  by destruct (uploadedPointers _ _).
Qed.

(** [meow_Send] after the checks. *)
Definition sendable (c : meow) : Prop := meow_connected c = true /\ meow_closing c = false.

Lemma begin_sending_run w : begin_sending w = (Ok tt, w) /\ sendable (tr_result w) \/ exists e, begin_sending w = (Err e, w).
Proof.
  unfold begin_sending, sendable, io_bind, gets, fail_if. destruct (meow_connected _); [|by right; eexists]. cbn.
  destruct (meow_closing _); [by right; eexists|by left].
Qed.

Lemma connectionLost_run w : connectionLost w = (Ok tt, w) /\ meow_lost (tr_result w) = None \/ exists e, connectionLost w = (Err e, w).
Proof. unfold connectionLost, io_bind, gets, fail_if. destruct (meow_lost _); [by right; eexists|by left]. Qed.

Lemma sendGroup_run gid content w : let (r, w') := sendGroup gid content w in
  tr_result w' = tr_result w /\ tr_calls w' = tr_calls w ++ (if is_set (GroupIdentifier_Bytes gid) then [] else [SendGroupMessage gid content])
  /\ (is_set (GroupIdentifier_Bytes gid) = true -> exists e, r = Err e).
Proof.
  unfold sendGroup, io_bind, fail_if. destruct (GroupIdentifier_Bytes gid); cbn; [rewrite app_nil_r; by split_and!; eauto|].
  destruct (on_SendGroupMessage _ _ _); by split_and!.
Qed.

(** Whoever receives [msg], from whatever chat and with whatever timer, reads the event that the request means. *)
Definition reads_as (req : SendRequest) (pointers : list AttachmentPointer) (msg : DataMessage) : Prop :=
  forall group timer info ownACI,
    convertChatEvent info (received (wrapOutgoing (delivered group timer msg) (req_EditTarget req))) ownACI
    = meant (with_Timestamp (envelope info ownACI) (req_Timestamp req)) req pointers.

(** A request that is not empty, with a timestamp; a duration is an unsigned number. *)
Definition meaningful (req : SendRequest) : Prop :=
  says_something req = true /\ req_Timestamp req <> 0 /\ match req_Pin req with Some p => 0 <= DurationSeconds p | None => True end.

Lemma uploadedPointers_length m l pointers : uploadedPointers m l = Ok pointers -> length pointers = length l.
Proof.
  revert pointers. induction l as [|x l IH]; intros pointers; cbn; [by intros [= <-]|]. destruct (m !! upl_ID x); [|done].
  intros (out & Ho & [= <-])%bind_Ok. cbn. f_equal. by apply IH.
Qed.

Lemma message_of_reads calls c req msg : req_Story req = None -> message_of calls c req = Ok msg ->
  Check req = None /\ exists pointers, uploadedPointers (meow_uploads c) (uploads req) = Ok pointers /\ (meaningful req -> reads_as req pointers msg).
Proof.
  intros Hs (Hc & (pointers & Hp & Hd)%bind_Ok)%check_then_Ok. split; [done|]. exists pointers. split; [done|].
  intros (Hsay & Hts & Hpin) group timer info ownACI. eapply sent_reads_back; try done. by apply uploadedPointers_length in Hp.
Qed.

(** C7. A send with ordinary content changes nothing in the client. One that fails made no call, or the
    call to the group that failed. One that succeeds was made by a connected client for a request
    that passed its check, stamped with the request's time or the clock; it sent the message of the
    request to the group at once, or to each recipient with a usable ACI, once, in order, with the
    timer of that chat; and it reports a result for each recipient, in order, which is what
    signalmeow answered where something was sent and an error where not. *)
Theorem meow_Send_spec req w : req_Story req = None ->
  let req' := stamped (tr_calls w) req in
  let (r, w') := meow_Send req w in
  tr_result w' = tr_result w /\
  match r with
  | Err _ => tr_calls w' = tr_calls w \/ exists content, req_GroupID req' <> ""%string /\ tr_calls w' = tr_calls w ++ [SendGroupMessage (req_GroupID req') content]
  | Ok res =>
      sendable (tr_result w) /\ meow_lost (tr_result w) = None /\ Check req' = None
      /\ sr_Timestamp res = req_Timestamp req' /\ sr_SyncErr res = None
      /\ exists pointers msg, uploadedPointers (meow_uploads (tr_result w)) (uploads req') = Ok pointers
         /\ message_of (tr_calls w) (tr_result w) req' = Ok msg /\ (meaningful req' -> reads_as req' pointers msg) /\
         if req_GroupID req' != ""%string
         then tr_calls w' = tr_calls w ++ [SendGroupMessage (req_GroupID req') (wrapOutgoing msg (req_EditTarget req'))]
         else tr_calls w' = tr_calls w ++ omap (direct_call (meow_timers (tr_result w)) req' msg) (req_Recipients req')
              /\ Forall2 (direct_outcome (tr_result w) req' msg) (req_Recipients req') (sr_Results res)
  end.
Proof.
  intros Hs req'. unfold meow_Send. unfold io_bind at 1. destruct (begin_sending_run w) as [[-> Hr]|[e ->]]; [|by split; [|left]].
  unfold io_bind at 1. unfold gets at 1. fold req'. assert (Hs' : req_Story req' = None) by (unfold req', stamped; by destruct (_ =? 0)). rewrite Hs'.
  unfold send_message. unfold io_bind at 1. rewrite message_run. destruct (message_of _ _ req') as [msg|e] eqn:Em; [|by split; [|left]].
  destruct (message_of_reads _ _ _ _ Hs' Em) as (Hc & pointers & Hp & Hm).
  unfold io_bind at 1. destruct (connectionLost_run w) as [[-> Hl]|[e ->]]; [|by split; [|left]].
  destruct (req_GroupID req' != "")%string eqn:Eg.
  - unfold io_bind. pose proof (sendGroup_run (req_GroupID req') (wrapOutgoing msg (req_EditTarget req')) w) as H.
    destruct (sendGroup _ _ w) as [[results|e] w']; destruct H as (Es & Ec & Hb); destruct (is_set (GroupIdentifier_Bytes _)).
    + by destruct (Hb eq_refl).
    + cbn. split_and!; try done. by exists pointers, msg.
    + rewrite app_nil_r in Ec. by split; [|left].
    + split; [done|right]. eexists. split; [|exact Ec]. bool_hyps. done.
  - unfold sendDirectRecipients, io_bind. pose proof (send_loop_run req' msg (req_Recipients req') w) as H.
    destruct (send_loop _ _ _ w) as [r w']. destruct H as (results & -> & Es & Ec & Ho). cbn. split_and!; try done. by exists pointers, msg.
Qed.
End send.

(** ** Chat timers are learned and sent *)

Section timers.
Context {U : UuidLib} {UL : UuidLaws U} {P : SignalPb} {L : ConvertLib} {S : Signalmeow} {F : FieldWire}.

Lemma canonical_of id : id <> uuid_nil -> canonical_uuid (uuid_string id) = true.
Proof. intros H. unfold canonical_uuid. rewrite uuid_parse_string. apply andb_true_iff. split; [by apply negb_true_iff, bool_decide_eq_false_2|by apply bool_decide_eq_true_2]. Qed.

(** Every record learned names a user. *)
Lemma timer_records_user own raw rec : rec ∈ timer_records own raw -> exists id, id <> uuid_nil /\ tim_ACI rec = uuid_string id.
Proof.
  destruct raw; cbn [timer_records]; try by intros ?%elem_of_nil.
  - unfold chatTimerRecord. destruct (negb _); [by intros ?%elem_of_nil|]. case_bool_decide as Hn; [by intros ?%elem_of_nil|].
    cbn. intros ->%list_elem_of_singleton. by eexists.
  - unfold contactTimerRecords. destruct isFromDB; [by intros ?%elem_of_nil|]. intros (t & _ & Ht)%list_elem_of_omap.
    destruct (ct_ExpireTimer t); [|done]. destruct (ct_ExpireTimerVersion t); [|done]. case_bool_decide as Hn; [done|]. injection Ht as <-. by eexists.
Qed.

Lemma directMessage_timer timers id msg : id <> uuid_nil ->
  directMessage timers (ofACI (uuid_string id)) msg
  = Ok (let (s, v) := default (0, 1) (timers !! uuid_string id) in set_Timer msg s v).
Proof.
  intros Hn. unfold directMessage, aciServiceID. cbn [ACI ofACI]. pose proof (canonical_of id Hn) as Hc.
  rewrite (bool_decide_eq_false_2 (uuid_string id = ""%string)) by (intros E; rewrite E in Hc; unfold canonical_uuid in Hc; by rewrite uuid_parse_empty in Hc).
  rewrite uuid_parse_string. cbn -[set_Timer ChatTimer]. unfold ChatTimer, validateChatTimerACI. rewrite Hc. cbn -[set_Timer].
  by destruct (timers !! uuid_string id) as [[s v]|].
Qed.

(** Learning timers from what signalmeow received does not fail, and from then on a message to a
    user goes out with a timer at least as new as each one learned for them; it is one that was
    learned just now or the one stored before, which only a newer version replaces. *)
Theorem learned_timers_are_sent raw c : exists timers', learnChatTimers raw c = (None, with_timers timers' c) /\
  forall rec msg, rec ∈ timer_records (meow_ownACI c) raw -> exists seconds version,
    directMessage timers' (ofACI (tim_ACI rec)) msg = Ok (set_Timer msg seconds version)
    /\ tim_Version rec <= version
    /\ (meow_timers c !! tim_ACI rec = Some (seconds, version)
        \/ (mkTimer (tim_ACI rec) seconds version ∈ timer_records (meow_ownACI c) raw
            /\ forall s v, meow_timers c !! tim_ACI rec = Some (s, v) -> v < version \/ (s, v) = (seconds, version))).
Proof.
  unfold learnChatTimers. destruct (timer_records (meow_ownACI c) raw) as [|r0 rs] eqn:Er.
  { exists (meow_timers c). split; [by destruct c|]. by intros rec msg ?%elem_of_nil. }
  rewrite <- Er. replace (len (timer_records (meow_ownACI c) raw) =? 0) with false by (symmetry; apply Z.eqb_neq; rewrite Er; unfold len; cbn [length]; lia).
  pose proof (MergeChatTimers_spec (timer_records (meow_ownACI c) raw) (meow_timers c)) as H. destruct (MergeChatTimers _ _) as [[e|] timers'].
  { destruct H as (_ & rec & Hin & Hc). apply timer_records_user in Hin as (id & Hn & E). rewrite E, canonical_of in Hc; done. }
  destruct H as (Hk & Hg & Ho & _). exists timers'. split; [done|]. intros rec msg Hin. destruct (timer_records_user _ _ _ Hin) as (id & Hn & E).
  destruct (Hk rec Hin) as (_ & s & v & Hs & Hv). exists s, v. rewrite E in Hs |- *. rewrite directMessage_timer by done. rewrite Hs. split_and!; [done..|].
  destruct (Ho _ _ _ Hs) as [Hold|Hnew]; [by left|right]. split; [done|]. intros s0 v0 H0. destruct (Hg _ _ _ H0) as (s' & v' & H' & Hor).
  rewrite Hs in H'. injection H' as -> ->. destruct Hor as [?|?]; [by left|by right].
Qed.

(** The fuel of the search for a field groupV1 is enough. *)
Lemma legacy_group_loop_fuel {FL : FieldWireLaws F} fuel unknown : (String.length unknown <= fuel)%nat ->
  legacy_group_loop fuel unknown = legacy_group_loop (String.length unknown) unknown.
Proof.
  revert unknown. induction fuel as [fuel IH] using lt_wf_ind. intros [|a u] Hl; [by destruct fuel|]. destruct fuel as [|fuel]; [cbn in Hl; lia|].
  cbn [legacy_group_loop String.length]. destruct (ConsumeField (String a u)) as [[num n]|] eqn:E; [|done]. apply ConsumeField_law in E. destruct (num =? 3); [done|]. cbn [orb].
  cbn [String.length] in E, Hl. rewrite (IH fuel), (IH (String.length u)); [done|lia| |lia|]; rewrite length_sdrop; cbn [String.length]; lia.
Qed.
End timers.

(** ** Uploads *)

Section uploads.
Context {U : UuidLib} {S : Signalmeow}.
Notation W := (trace mcall meow).

(** Random UUIDs do not repeat: those made after different numbers of calls differ. *)
Class FreshIDs : Prop := { fresh_id : forall calls calls', on_NewString calls = on_NewString calls' -> length calls = length calls' }.

(** The handles given out so far. *)
Definition uploads_ok (w : W) : Prop := forall id, is_Some (meow_uploads (tr_result w) !! id) ->
  exists calls, id = on_NewString calls /\ (length calls <= length (tr_calls w))%nat.

(** A pointer describes the file that was uploaded. *)
Definition describes (att : OutgoingAttachment) (up : UploadedAttachment) (p : AttachmentPointer) : Prop :=
  ptr_ContentType p = Some (oat_ContentType att) /\ (oat_Filename att <> ""%string -> ptr_FileName p = Some (oat_Filename att))
  /\ (0 < oat_Width att -> 0 < oat_Height att -> ptr_Width p = Some (oat_Width att) /\ ptr_Height p = Some (oat_Height att))
  /\ upl_ContentType up = oat_ContentType att /\ upl_Size up = default 0 (ptr_Size p).

Lemma pointerMetadata_describes p att now id : let q := pointerMetadata p att now in
  describes att (mkUploaded id (default "" (ptr_ContentType q)) (default "" (ptr_FileName q)) (default 0 (ptr_Size q)))%string q.
Proof.
  unfold describes, pointerMetadata. cbn. split_and!; try done.
  - intros H. by rewrite (bool_decide_eq_false_2 (oat_Filename att = ""%string)).
  - intros ->%Z.ltb_lt ->%Z.ltb_lt. done.
Qed.

Lemma uploadedPointers_grows m m' ups pointers : m ⊆ m' -> uploadedPointers m ups = Ok pointers -> uploadedPointers m' ups = Ok pointers.
Proof.
  intros Hm. revert pointers. induction ups as [|up ups IH]; intros pointers; cbn; [done|]. destruct (m !! upl_ID up) as [p|] eqn:E; [|done].
  rewrite (lookup_weaken _ _ _ _ E Hm). intros (out & Ho & [= <-])%bind_Ok. by rewrite (IH _ Ho).
Qed.

Lemma upload_loop_run {FI : FreshIDs} atts w : uploads_ok w -> let (r, w') := upload_loop atts w in
  uploads_ok w' /\ meow_uploads (tr_result w) ⊆ meow_uploads (tr_result w') /\
  match r with
  | Err _ => True
  | Ok ups => tr_calls w' = tr_calls w ++ ((fun a => UploadAttachment (oat_Data a)) <$> atts)
      /\ exists pointers, uploadedPointers (meow_uploads (tr_result w')) ups = Ok pointers /\ Forall3 describes atts ups pointers
  end.
Proof.
  revert w. induction atts as [|att atts IH]; intros w Hw; cbn [upload_loop].
  { split_and!; [done..|cbn; by rewrite app_nil_r|]. exists []. split; [done|constructor]. }
  unfold ask, io_bind at 1, io_bind at 1, call, io_of, gets, addUpload, set_result. destruct (on_UploadAttachment _ _) as [p|e]; cbn -[pointerMetadata upload_loop].
  2: { split_and!; try done. intros id Hid. destruct (Hw id Hid) as (calls & -> & Hl). exists calls. split; [done|]. cbn. rewrite length_app. cbn. lia. }
  unfold io_bind, io_ret. cbn -[pointerMetadata upload_loop]. set (q := pointerMetadata _ _ _). set (id := on_NewString _).
  assert (Hnew : meow_uploads (tr_result w) !! id = None).
  { apply eq_None_not_Some. intros (calls & E & Hl)%Hw. apply fresh_id in E. rewrite length_app in E. cbn in E. lia. }
  match goal with |- context [upload_loop atts ?x] => set (w1 := x) end.
  assert (Hw1 : uploads_ok w1).
  { intros i. cbn. destruct (decide (i = id)) as [->|Hne]; [intros _; eexists; split; [done|cbn; lia]|].
    rewrite lookup_insert_ne by done. intros (calls & -> & Hl)%Hw. exists calls. split; [done|]. rewrite length_app. cbn. lia. }
  specialize (IH w1 Hw1). destruct (upload_loop atts w1) as [r w2]. destruct IH as (Hw2 & Hsub & Hr).
  assert (Hsub0 : meow_uploads (tr_result w) ⊆ meow_uploads (tr_result w2)) by (etransitivity; [|exact Hsub]; by apply insert_subseteq).
  destruct r as [ups|e]; [|by split_and!]. destruct Hr as (Hc & pointers & Hp & Hd). split_and!; [done..| |].
  - rewrite Hc. cbn. by rewrite <- app_assoc.
  - exists (q :: pointers). cbn [uploadedPointers upl_ID]. rewrite (lookup_weaken _ _ _ q (lookup_insert_eq _ id q) Hsub), Hp. split; [done|]. constructor; [|done]. apply pointerMetadata_describes.
Qed.

(** What is uploaded can be sent: a successful upload sends each file once, in order, and gives a
    handle for each, whose pointer describes that file; later sends find the pointers under these
    handles, and no upload replaces a handle given out before. *)
Theorem meow_Upload_spec {FI : FreshIDs} atts w : uploads_ok w -> let (r, w') := meow_Upload atts w in
  uploads_ok w' /\ meow_uploads (tr_result w) ⊆ meow_uploads (tr_result w') /\
  match r with
  | Err _ => True
  | Ok ups => tr_calls w' = tr_calls w ++ ((fun a => UploadAttachment (oat_Data a)) <$> atts)
      /\ exists pointers, uploadedPointers (meow_uploads (tr_result w')) ups = Ok pointers /\ Forall3 describes atts ups pointers
  end.
Proof.
  intros Hw. unfold meow_Upload. unfold io_bind at 1. destruct (begin_sending_run w) as [[-> _]|[e ->]]; [|by split_and!].
  unfold io_bind at 1. destruct (connectionLost_run w) as [[-> _]|[e ->]]; [|by split_and!]. by apply upload_loop_run.
Qed.
End uploads.

(** ** Stories and lost connections *)

Section others.
Context {U : UuidLib} {P : SignalPb} {L : ConvertLib}.

(** A story reads back: its file, or its text as white on black in the default style. *)
Lemma story_reads_back info timestamp ownACI story pointer msg : outgoingStoryMessage story pointer = Ok msg ->
  convertStory info timestamp msg ownACI
  = EvStory (with_Timestamp (envelope info ownACI) timestamp) (story_AllowsReplies story)
      (match story_File story with Some _ => convertAttachment <$> pointer | None => None end)
      (match story_File story with
       | Some _ => None
       | None => Some (mkStoryText (story_Text story) "default" (Some storyTextWhite) None (Some storyBackgroundBlack) None None)
       end) [].
Proof. unfold outgoingStoryMessage. destruct (story_File story); [destruct pointer; [|done]|]; by intros [= <-]. Qed.

(** The error that is kept is the first that ended the connection. *)
Lemma noteConnection_first evts c : meow_lost (foldl (fun c evt => noteConnection evt c) c evts)
  = match meow_lost c with Some e => Some e | None => head (omap lost_error evts) end.
Proof.
  revert c. induction evts as [|evt evts IH]; intros c; cbn [foldl omap list_omap]; [by destruct (meow_lost c)|]. rewrite IH. unfold noteConnection.
  destruct (lost_error evt); [|done]. by destruct (meow_lost c) as [e0|] eqn:E; [rewrite E|].
Qed.
End others.

(** ** At a concrete input *)

Import DemoUuid.

#[local] Existing Instance demo_pb.
#[local] Existing Instance demo_pb_laws.
#[local] Existing Instance demo_convert.

Fixpoint demo_id (n : nat) : string := match n with O => EmptyString | Datatypes.S n => String (ascii_of 120) (demo_id n) end.

(** Every call succeeds; IDs count the calls. *)
#[local] Instance demo_signalmeow : Signalmeow := {|
  on_UploadAttachment := fun _ _ => Ok (mkPointer (Some 1) None None "key" (Some 3) "digest" None None None None None None);
  on_DownloadAttachment := fun _ _ => Ok "data"%string;
  on_SendMessage := fun _ _ _ => mkSMR true true None;
  on_SendGroupMessage := fun _ _ _ => Ok None;
  on_SendGroupStory := fun _ _ _ _ => Ok (mkGMSR _ [] [], None);
  on_SendPrivateStory := fun _ _ _ _ _ => Ok (mkGMSR _ [] [], None);
  on_MyProfileKey := fun _ => Ok (Some "profile"%string);
  on_NewString := fun calls => demo_id (length calls);
  on_UnixMilli := fun _ => 7;
  GroupIdentifier_Bytes := fun _ => None;
  CDNHosts := 4 |}.

Lemma demo_fresh : FreshIDs.
Proof.
  assert (H : forall n, String.length (demo_id n) = n) by (induction n; cbn; congruence).
  split. intros calls calls' E. apply (f_equal String.length) in E. cbn in E. by rewrite !H in E.
Qed.

Definition demo_meow : meow := mkMeow _ true false "" uuid_nil ∅ None {[demo_aci := (60, 2)]}.
Definition demo_trace : trace mcall meow := mkTrace [] demo_meow.
Definition demo_timed : SignalEvent := SEChat demo_info (CCData (set_Timer (set_Text (new_data 5 []) (Some "hi"%string) "") 30 3)).
Definition no_fields : FieldWire := {| ConsumeField := fun _ => None |}.
#[local] Existing Instance no_fields.

Lemma meow_Send_spec_witness : let (r, w') := meow_Send demo_hello demo_trace in
  match r with
  | Ok res => len (sr_Results res) = 1 /\ len (tr_calls w') = 1 /\ (exists pointers msg, reads_as demo_hello pointers msg)
  | Err _ => False
  end.
Proof.
  pose proof (meow_Send_spec (UL:=laws) (PL:=demo_pb_laws) demo_hello demo_trace eq_refl) as H. cbn zeta in H.
  assert (B : (let (r, w') := meow_Send demo_hello demo_trace in
    match r with Ok res => (len (sr_Results res) =? 1) && (len (tr_calls w') =? 1) | Err _ => false end) = true) by (vm_compute; reflexivity).
  destruct (meow_Send demo_hello demo_trace) as [[res|e] w']; [|discriminate]. apply andb_true_iff in B as [Hr%Z.eqb_eq Hc%Z.eqb_eq].
  split; [exact Hr|split; [exact Hc|]]. destruct H as (_ & _ & _ & _ & _ & _ & pointers & msg & _ & _ & Hread & _). exists pointers, msg. apply Hread.
  split; [vm_compute; reflexivity|split; [vm_compute; discriminate|exact I]].
Defined.

Lemma learned_timers_are_sent_witness : exists timers', learnChatTimers demo_timed demo_meow = (None, with_timers timers' demo_meow)
  /\ exists seconds version, directMessage timers' (ofACI demo_aci) zero_data = Ok (set_Timer zero_data seconds version) /\ 3 <= version.
Proof.
  destruct (learned_timers_are_sent (UL:=laws) demo_timed demo_meow) as (timers' & E & H). exists timers'. split; [exact E|].
  destruct (H (mkTimer demo_aci 30 3) zero_data) as (s & v & Hd & Hv & _); [vm_compute; left|]. exists s, v. split; [exact Hd|exact Hv].
Defined.

Definition demo_file : OutgoingAttachment := mkOutgoing "abc" "text/plain" "a.txt" 0 0.
Lemma meow_Upload_spec_witness : uploads_ok demo_trace /\ let (r, w') := meow_Upload [demo_file] demo_trace in
  match r with
  | Ok ups => exists pointers, uploadedPointers (meow_uploads (tr_result w')) ups = Ok pointers /\ Forall3 describes [demo_file] ups pointers
  | Err _ => False
  end.
Proof.
  assert (H0 : uploads_ok demo_trace) by (intros id [x Hx]; vm_compute in Hx; discriminate). split; [exact H0|].
  pose proof (meow_Upload_spec (FI:=demo_fresh) [demo_file] demo_trace H0) as H.
  assert (B : is_ok (meow_Upload [demo_file] demo_trace).1 = true) by (vm_compute; reflexivity).
  destruct (meow_Upload [demo_file] demo_trace) as [[ups|e] w']; [|discriminate]. destruct H as (_ & _ & _ & H). exact H.
Defined.
