(* ===== verification/Accounts.v ===== *)
(** * Choosing the account (internal/signal/select.go) and what a sync achieved (sync.go) *)

From S2P Require Import Prelude Errors Uuid Utf8 Types Recipients.

Section select.
Context {U : UuidLib}.

(** [accountMatcher]: the predicate for the account that [want] names. *)
Definition accountMatcher (want : string) : res (Account -> bool) :=
  if e164 want then Ok (fun acc => acc_Number acc == want)
  else match uuid_parse want with
       | None => Err (errorf ErrInvalidAccount)
       | Some aci => Ok (fun acc => EqualFold (acc_ACI acc) (uuid_string aci))
       end.

Definition findAccount (accounts : list Account) (want : string) : res Account :=
  match accountMatcher want with
  | Err e => Err e
  | Ok matches =>
      match find matches accounts with
      | Some acc => Ok acc
      | None => Err (errorf ErrAccountNotFound)
      end
  end.

Definition SelectAccount (accounts : list Account) (want : string) : res Account :=
  if want != ""%string then findAccount accounts want
  else match accounts with
       | [] => Err (Sent ErrNotLinked)
       | [acc] => Ok acc
       | _ => Err (errorf ErrAccountRequired)
       end.

(** What it means that [want] names an account. *)
Definition names_account (want : string) (acc : Account) : Prop :=
  (e164 want = true /\ acc_Number acc = want)
  \/ (e164 want = false /\ exists aci, uuid_parse want = Some aci /\ EqualFold (acc_ACI acc) (uuid_string aci) = true).

Definition account_name (want : string) : Prop := e164 want = true \/ exists aci, uuid_parse want = Some aci.

Lemma accountMatcher_Ok want matches :
  accountMatcher want = Ok matches -> account_name want /\ forall acc, matches acc = true <-> names_account want acc.
Proof.
  unfold accountMatcher, names_account, account_name. destruct (e164 want).
  - intros [= <-]. split; [by left|]. intros acc. rewrite bool_decide_eq_true. naive_solver.
  - destruct (uuid_parse want) as [aci|]; [|done]. intros [= <-]. split; [by eauto|]. intros acc. naive_solver.
Qed.

Lemma find_Some_first {A} (f : A -> bool) l x :
  find f l = Some x -> exists before after, l = before ++ x :: after /\ f x = true /\ forall y, y ∈ before -> f y = false.
Proof.
  induction l as [|a l IH]; cbn; [done|]. destruct (f a) eqn:E.
  - intros [= <-]. exists [], l. split_and!; [done|done|]. by intros y ?%elem_of_nil.
  - intros (before & after & -> & Hx & Hb)%IH. exists (a :: before), after. split_and!; [done|done|].
    intros y [->|?]%elem_of_cons; auto.
Qed.

(** Selecting an account: without a choice exactly one account must be linked; a choice that
    is neither a number nor an ACI is invalid; otherwise the first linked account it names
    is taken, and it is not found only if no linked account has the name. *)
Theorem SelectAccount_spec accounts want :
  match SelectAccount accounts want with
  | Ok acc =>
      (want = ""%string /\ accounts = [acc])
      \/ (want <> ""%string /\ exists before after, accounts = before ++ acc :: after /\ names_account want acc
            /\ forall other, other ∈ before -> ~ names_account want other)
  | Err e =>
      (errIs e ErrNotLinked = true /\ want = ""%string /\ accounts = [])
      \/ (errIs e ErrAccountRequired = true /\ want = ""%string /\ (2 <= length accounts)%nat)
      \/ (errIs e ErrInvalidAccount = true /\ want <> ""%string /\ ~ account_name want)
      \/ (errIs e ErrAccountNotFound = true /\ want <> ""%string /\ account_name want
          /\ forall acc, acc ∈ accounts -> ~ names_account want acc)
  end.
Proof.
  unfold SelectAccount, findAccount. destruct (bool_decide (want = ""%string)) eqn:Ew; bool_hyps; cbn [negb].
  - destruct accounts as [|acc [|acc' rest]]; [by left|by left|]. right. left. split_and!; [done|done|cbn; lia].
  - destruct (accountMatcher want) as [matches|e] eqn:Em.
    + apply accountMatcher_Ok in Em as [Hn Hm]. destruct (find matches accounts) as [acc|] eqn:Ef.
      * apply find_Some_first in Ef as (before & after & -> & Hx & Hb). right. split; [done|]. exists before, after.
        split_and!; [done|by apply Hm|]. intros other Hin Ho. apply Hm in Ho. by rewrite Hb in Ho.
      * right. right. right. split_and!; [done|done|done|]. intros acc Hin Ho. apply Hm in Ho.
        apply list_elem_of_In in Hin. by rewrite (find_none _ _ Ef acc Hin) in Ho.
    + right. right. left. unfold accountMatcher, account_name in *. destruct (e164 want); [done|].
      destruct (uuid_parse want); [done|]. injection Em as <-. split_and!; [done|done|]. by intros [?|[? ?]].
Qed.
End select.

(** ** What a sync achieved *)

Record SyncResult := mkSyncResult {
  syn_Contacts : Z; syn_Groups : Z; MasterKey : bool; Storage : bool; ContactList : bool }.

Definition SyncResult_Complete (r : SyncResult) : bool := MasterKey r && Storage r && ContactList r.

Definition SyncResult_Missing (r : SyncResult) : list string :=
  (if MasterKey r then [] else ["storage key"%string])
  ++ (if Storage r then [] else ["storage service"%string])
  ++ (if ContactList r then [] else ["contact list"%string]).

Lemma Missing_Complete r : SyncResult_Missing r = [] <-> SyncResult_Complete r = true.
Proof. unfold SyncResult_Missing, SyncResult_Complete. by destruct (MasterKey r), (Storage r), (ContactList r). Qed.
