(* ===== verification/PinList.v ===== *)
(** * Pinned messages from the inbox (internal/app/pin_list.go)

    [PinList] reads one bounded snapshot of a chat's inbox and reduces the pins, unpins and
    deletes in it. Go's maps are [gmap]s and a [gset]; the final sort makes the order of the
    [range] over them irrelevant. A canceled context is not modelled. *)

From S2P Require Import Prelude Errors Uuid Utf8 Types SendCheck Recipients InboxStore InboxClient InboxApp.

Definition DefaultPinScanLimit : Z := 1000.
Definition MaxPinScanLimit : Z := 10000.
Definition pinOperation : string := "pin".
Definition unpinOperation : string := "unpin".

Record PinListRequest := mkPinListRequest { plr_Chat : string; ScanLimit : Z }.

Record PinObservation := mkPinObservation {
  obs_TargetAuthor : Recipient; obs_Sender : Recipient; obs_TargetTimestamp : Z; obs_Timestamp : Z;
  obs_Operation : string; obs_EntryID : Z; obs_ReceivedAt : time; obs_ExpiresAt : time;
  obs_DurationSeconds : Z; obs_Forever : bool; obs_ExpiryReached : bool; obs_TargetDeleted : bool }.

Record PinState := mkPinState {
  pin_Chat : Chat; pin_Observations : list PinObservation; pin_Completeness : string; pin_Scanned : Z;
  pin_FirstEntryID : Z; pin_LastEntryID : Z; pin_Truncated : bool; pin_IgnoredInvalid : Z; pin_Conflicts : Z }.

(** An author and a timestamp: a target message, or a sent pin. *)
Notation reference := (string * Z)%type.

Record pinPayload := mkPayload { pay_reference : reference; pay_operation : string; pay_duration : Z; pay_forever : bool }.

#[export] Instance pinPayload_eq_dec : EqDecision pinPayload.
Proof. solve_decision. Defined.

(** [pinReducer]: the counters of the state, and the three maps. *)
Record pinReducer := mkReducer {
  rdc_invalid : Z; rdc_conflicts : Z; rdc_observations : gmap reference PinObservation;
  rdc_identities : gmap reference pinPayload; rdc_deleted : gset reference }.

Section pins.
Context {U : UuidLib}.

Definition canonicalPinACI (aci : string) : bool := canonical_uuid aci.

Definition PinListRequest_Check (req : PinListRequest) : error :=
  match ParseRecipient (plr_Chat req) with
  | Err e => Some e
  | Ok target =>
      check_seq
        (if Target_IsGroup target then
           if plr_Chat req != (GroupPrefix ++ tgt_GroupID target)%string then Some (errorf ErrInvalidRecipient) else None
         else if negb (canonicalPinACI (plr_Chat req)) then Some (errorf ErrInvalidRecipient) else None)
        (if (ScanLimit req <? 0) || (MaxPinScanLimit <? ScanLimit req) then Some (errorf ErrInvalidPin) else None)
  end.

(** [boundSnapshot]: the last [limit] entries by ID, and whether some were left out. *)
Definition boundSnapshot (entries : list InboxEntry) (limit : Z) : list InboxEntry * bool :=
  let sorted := sort_by (fun a b => ie_ID a <=? ie_ID b) entries in
  if limit <? len sorted then (drop (length sorted - Z.to_nat limit) sorted, true) else (sorted, false).

Definition pinObservation (entry : InboxEntry) : option PinObservation :=
  match ie_Event entry with
  | EvPin env p =>
      Some (mkPinObservation (pin_TargetAuthor p) (env_Sender env) (pin_TargetTimestamp p) (env_Timestamp env)
              pinOperation (ie_ID entry) (ie_ReceivedAt entry) zero_time (DurationSeconds p) (Forever p) false false)
  | EvUnpin env u =>
      Some (mkPinObservation (unpin_TargetAuthor u) (env_Sender env) (unpin_TargetTimestamp u) (env_Timestamp env)
              unpinOperation (ie_ID entry) (ie_ReceivedAt entry) zero_time 0 false false false)
  | _ => None
  end.

Definition validPinObservation (obs : PinObservation) : bool :=
  if negb (canonicalPinACI (ACI (obs_Sender obs))) || negb (canonicalPinACI (ACI (obs_TargetAuthor obs)))
     || (obs_Timestamp obs =? 0) || IsZeroTime (obs_ReceivedAt obs) then false
  else if obs_Operation obs == pinOperation then
    negb (is_set (OutgoingPin_Check (mkPin (obs_TargetAuthor obs) (obs_TargetTimestamp obs) (obs_DurationSeconds obs) (obs_Forever obs))))
  else negb (is_set (OutgoingUnpin_Check (mkUnpin (obs_TargetAuthor obs) (obs_TargetTimestamp obs)))).

Definition obs_reference (obs : PinObservation) : reference := (ACI (obs_TargetAuthor obs), obs_TargetTimestamp obs).
Definition obs_identity (obs : PinObservation) : reference := (ACI (obs_Sender obs), obs_Timestamp obs).
Definition obs_payload (obs : PinObservation) : pinPayload :=
  mkPayload (obs_reference obs) (obs_Operation obs) (obs_DurationSeconds obs) (obs_Forever obs).

Definition invalid (r : pinReducer) : pinReducer :=
  mkReducer (rdc_invalid r + 1) (rdc_conflicts r) (rdc_observations r) (rdc_identities r) (rdc_deleted r).

(** The expiry of a timed pin, by the local clock. *)
Definition with_expiry (now : time) (obs : PinObservation) : PinObservation :=
  if (obs_Operation obs == pinOperation) && negb (obs_Forever obs) then
    let expires := obs_ReceivedAt obs + obs_DurationSeconds obs * Second in
    mkPinObservation (obs_TargetAuthor obs) (obs_Sender obs) (obs_TargetTimestamp obs) (obs_Timestamp obs)
      (obs_Operation obs) (obs_EntryID obs) (obs_ReceivedAt obs) expires (obs_DurationSeconds obs) (obs_Forever obs)
      (negb (now <? expires)) (obs_TargetDeleted obs)
  else obs.

Definition observeValid (now : time) (obs : PinObservation) (r : pinReducer) : pinReducer :=
  if negb (validPinObservation obs) then invalid r
  else match rdc_identities r !! obs_identity obs with
       | Some first =>
           if first != obs_payload obs
           then mkReducer (rdc_invalid r) (rdc_conflicts r + 1) (rdc_observations r) (rdc_identities r) (rdc_deleted r)
           else r
       | None =>
           mkReducer (rdc_invalid r) (rdc_conflicts r) (<[obs_reference obs := with_expiry now obs]> (rdc_observations r))
             (<[obs_identity obs := obs_payload obs]> (rdc_identities r)) (rdc_deleted r)
       end.

(** A delete by the author of the target counts if it is valid. *)
Definition valid_delete (env : Envelope) (target : Z) (received : time) : bool :=
  canonicalPinACI (ACI (env_Sender env)) && negb (env_Timestamp env =? 0) && negb (target =? 0) && negb (IsZeroTime received).

Definition observeDelete (env : Envelope) (target : Z) (received : time) (r : pinReducer) : pinReducer :=
  if negb (valid_delete env target received) then invalid r
  else mkReducer (rdc_invalid r) (rdc_conflicts r) (rdc_observations r) (rdc_identities r)
         ({[(ACI (env_Sender env), target)]} ∪ rdc_deleted r).

(** Only entries whose event and stored chat are the asked chat count. *)
Definition of_chat (chat : Chat) (entry : InboxEntry) : bool :=
  match envelopeOf (ie_Event entry) with
  | None => false
  | Some env => (Chat_Key (env_Chat env) == Chat_Key chat) && (Chat_Key (ie_Chat entry) == Chat_Key chat)
  end.

Definition pin_observe (chat : Chat) (now : time) (r : pinReducer) (entry : InboxEntry) : pinReducer :=
  if negb (of_chat chat entry) then r
  else match ie_Event entry with
       | EvUnsupported _ typ => if typ == "invalidPin"%string then invalid r else r
       | EvDelete env target => observeDelete env target (ie_ReceivedAt entry) r
       | _ => match pinObservation entry with None => r | Some obs => observeValid now obs r end
       end.

Definition obs_leb (a b : PinObservation) : bool :=
  match String.compare (ACI (obs_TargetAuthor a)) (ACI (obs_TargetAuthor b)) with
  | Lt => true
  | Gt => false
  | Eq => obs_TargetTimestamp a <=? obs_TargetTimestamp b
  end.

Definition set_deleted (deleted : bool) (obs : PinObservation) : PinObservation :=
  mkPinObservation (obs_TargetAuthor obs) (obs_Sender obs) (obs_TargetTimestamp obs) (obs_Timestamp obs)
    (obs_Operation obs) (obs_EntryID obs) (obs_ReceivedAt obs) (obs_ExpiresAt obs) (obs_DurationSeconds obs)
    (obs_Forever obs) (obs_ExpiryReached obs) deleted.

Definition finalize (r : pinReducer) : list PinObservation :=
  sort_by obs_leb ((fun ro => set_deleted (bool_decide (ro.1 ∈ rdc_deleted r)) ro.2) <$> map_to_list (rdc_observations r)).

Definition empty_reducer : pinReducer := mkReducer 0 0 ∅ ∅ ∅.

(** The state of a snapshot. *)
Definition reduce_pins (chat : Chat) (now : time) (entries : list InboxEntry) (limit : Z) : PinState :=
  let (window, truncated) := boundSnapshot entries limit in
  let r := foldl (pin_observe chat now) empty_reducer window in
  mkPinState chat (finalize r) "unknown" (len window) (from_option ie_ID 0 (head window)) (from_option ie_ID 0 (last window))
    truncated (rdc_invalid r) (rdc_conflicts r).

Definition PinList {W} {C : Client W} {B : InboxBackend W} (req : PinListRequest) : io (App W) err PinState :=
  match PinListRequest_Check req, ParseRecipient (plr_Chat req) with
  | Some e, _ => io_err (Wrap [e])
  | None, Err e => io_err e
  | None, Ok target =>
      let chat := mkChat (tgt_GroupID target) (tgt_Recipient target) in
      let limit := if ScanLimit req =? 0 then DefaultPinScanLimit else ScanLimit req in
      let* now := app_now in
      let* entries := wrap_inbox (lift (inbox_List (mkQuery 0 0 (plr_Chat req) zero_time false (limit + 1) true))) in
      io_ret (reduce_pins chat now entries limit)
  end.
End pins.

(** ** What the reducer computes *)

Section pin_spec.
Context {U : UuidLib} (chat : Chat) (now : time).

(** The valid pins and unpins of the chat, in order, and of those the first one sent under each
    sender and timestamp. *)
Definition valid_pins (entries : list InboxEntry) : list PinObservation :=
  filter (fun obs => validPinObservation obs = true) (omap pinObservation (filter (fun e => of_chat chat e = true) entries)).
Definition accepted_pins (entries : list InboxEntry) : list PinObservation := dedup_by obs_identity (valid_pins entries).

(** A different pin under the identity of an accepted one. *)
Definition conflicting (accepted : list PinObservation) (obs : PinObservation) : bool :=
  existsb (fun a => (obs_identity a == obs_identity obs) && (obs_payload a != obs_payload obs)) accepted.

(** The targets that their authors deleted. *)
Definition deleted_targets (entries : list InboxEntry) : list reference :=
  omap (fun e => match ie_Event e with
                 | EvDelete env target =>
                     if of_chat chat e && valid_delete env target (ie_ReceivedAt e) then Some (ACI (env_Sender env), target) else None
                 | _ => None
                 end) entries.

Definition latest (ref : reference) (obs : list PinObservation) : option PinObservation :=
  last (filter (fun o => obs_reference o = ref) obs).

(** The reducer after [valid] pins and [dels] deletes. *)
Record reduced (valid : list PinObservation) (dels : list reference) (r : pinReducer) : Prop := mkReduced {
  red_identities : forall id p, rdc_identities r !! id = Some p <->
    exists a, a ∈ dedup_by obs_identity valid /\ obs_identity a = id /\ obs_payload a = p;
  red_observations : forall ref, rdc_observations r !! ref = with_expiry now <$> latest ref (dedup_by obs_identity valid);
  red_deleted : forall ref, ref ∈ rdc_deleted r <-> ref ∈ dels;
  red_conflicts : rdc_conflicts r = len (filter (fun o => conflicting (dedup_by obs_identity valid) o = true) valid) }.

Lemma latest_snoc ref l x : latest ref (l ++ [x]) = if decide (obs_reference x = ref) then Some x else latest ref l.
Proof.
  unfold latest. rewrite filter_app, filter_cons, filter_nil. destruct (decide (obs_reference x = ref)); [by rewrite last_snoc|].
  by rewrite app_nil_r.
Qed.

Lemma reduced_invalid valid dels r : reduced valid dels r -> reduced valid dels (invalid r).
Proof. by intros []. Qed.

Lemma conflicting_new acc x o :
  obs_identity x <> obs_identity o -> conflicting (acc ++ [x]) o = conflicting acc o.
Proof. intros H. unfold conflicting. rewrite existsb_app. cbn. rewrite bool_decide_eq_false_2 by done. cbn. by rewrite !orb_false_r. Qed.

Lemma conflicting_fresh acc x : obs_identity x ∉ obs_identity <$> acc -> conflicting (acc ++ [x]) x = false.
Proof.
  intros H. apply not_true_iff_false. unfold conflicting. intros (a & Ha%list_elem_of_In & Hb)%existsb_exists.
  apply andb_true_iff in Hb as [Hid Hp]. bool_hyps. apply elem_of_app in Ha as [Ha| ->%list_elem_of_singleton]; [|done].
  apply H. rewrite <- Hid. by apply list_elem_of_fmap_2.
Qed.

Lemma reduced_valid valid dels r obs :
  validPinObservation obs = true -> reduced valid dels r -> reduced (valid ++ [obs]) dels (observeValid now obs r).
Proof.
  intros Hv [Hi Ho Hd Hc]. unfold observeValid. rewrite Hv. cbn [negb].
  assert (Hin : obs_identity obs ∈ obs_identity <$> valid <-> exists p, rdc_identities r !! obs_identity obs = Some p).
  { rewrite <- (dedup_by_keys obs_identity), list_elem_of_fmap. split.
    - intros (a & -> & Ha). exists (obs_payload a). rewrite Hi. naive_solver.
    - intros (p & (a & Ha & Hid & _)%Hi). by exists a. }
  rewrite <- (dedup_by_keys obs_identity) in Hin.
  destruct (rdc_identities r !! obs_identity obs) as [first|] eqn:E.
  - assert (Hold : obs_identity obs ∈ obs_identity <$> valid) by (rewrite <- (dedup_by_keys obs_identity); apply Hin; eauto).
    assert (Hcf : conflicting (dedup_by obs_identity valid) obs = (first != obs_payload obs)).
    { apply Hi in E as (a & Ha & Hid & <-). apply Bool.eq_iff_eq_true. unfold conflicting. rewrite existsb_exists. split.
      - intros (b & Hb%list_elem_of_In & Hx). apply andb_true_iff in Hx as [Hb1 Hb2]. bool_hyps.
        assert (a = b) as ->; [|by rewrite bool_decide_eq_false_2].
        apply list_elem_of_lookup in Ha as [i Hia]. apply list_elem_of_lookup in Hb as [j Hjb].
        assert (i = j) as ->; [|congruence].
        eapply (NoDup_lookup (obs_identity <$> dedup_by obs_identity valid)); [apply dedup_by_NoDup|by rewrite list_lookup_fmap, Hia|].
        rewrite list_lookup_fmap, Hjb. cbn. congruence.
      - intros Hx. exists a. split; [by apply list_elem_of_In|]. rewrite bool_decide_eq_true_2 by done. done. }
    assert (Hlen : len (filter (fun o => conflicting (dedup_by obs_identity valid) o = true) (valid ++ [obs]))
                   = rdc_conflicts r + (if first != obs_payload obs then 1 else 0)).
    { rewrite filter_app, filter_cons, filter_nil. unfold len in *. rewrite length_app, Nat2Z.inj_add, <- Hc. f_equal.
      rewrite Hcf. by destruct (first != obs_payload obs). }
    assert (Hded : dedup_by obs_identity (valid ++ [obs]) = dedup_by obs_identity valid) by (rewrite dedup_by_snoc; by rewrite decide_True).
    destruct (first != obs_payload obs) eqn:Ef; split; rewrite ?Hded; try done; cbn [rdc_conflicts]; rewrite Hlen; lia.
  - assert (Hnew : obs_identity obs ∉ obs_identity <$> dedup_by obs_identity valid) by (intros H; apply Hin in H as [p Hp]; done).
    assert (Hded : dedup_by obs_identity (valid ++ [obs]) = dedup_by obs_identity valid ++ [obs]).
    { rewrite dedup_by_snoc, decide_False; [done|]. by rewrite <- (dedup_by_keys obs_identity). }
    split; rewrite ?Hded; cbn.
    + intros id p. destruct (decide (id = obs_identity obs)) as [->|Hne].
      * rewrite lookup_insert_eq. split.
        -- intros [= <-]. exists obs. rewrite elem_of_app, list_elem_of_singleton. by split_and!; [right|..].
        -- intros (a & [Ha| ->%list_elem_of_singleton]%elem_of_app & Hid & <-); [|done].
           exfalso. apply Hnew. rewrite <- Hid. by apply list_elem_of_fmap_2.
      * rewrite lookup_insert_ne by done. rewrite Hi. setoid_rewrite elem_of_app. setoid_rewrite list_elem_of_singleton. naive_solver.
    + intros ref. rewrite latest_snoc. destruct (decide (obs_reference obs = ref)) as [<-|Hne].
      * by rewrite lookup_insert_eq.
      * by rewrite lookup_insert_ne.
    + done.
    + rewrite Hc. rewrite filter_app, filter_cons, filter_nil, conflicting_fresh by done. rewrite decide_False by done. cbn. rewrite app_nil_r.
      f_equal. clear -Hin Hnew. assert (Hall : forall o, o ∈ valid -> obs_identity obs <> obs_identity o).
      { intros o Ho Heq. apply Hnew. rewrite (dedup_by_keys obs_identity), Heq. by apply list_elem_of_fmap_2. }
      clear Hin Hnew. generalize (dedup_by obs_identity valid). intros acc. induction valid as [|v valid IH]; [done|].
      rewrite !filter_cons, conflicting_new by (apply Hall; by left). rewrite IH; [done|]. intros o Ho. apply Hall. by right.
Qed.

Lemma reduced_delete valid dels r ref :
  reduced valid dels r ->
  reduced valid (dels ++ [ref])
    (mkReducer (rdc_invalid r) (rdc_conflicts r) (rdc_observations r) (rdc_identities r) ({[ref]} ∪ rdc_deleted r)).
Proof.
  intros [Hi Ho Hd Hc]. split; cbn; try done. intros x.
  rewrite elem_of_union, elem_of_singleton, elem_of_app, list_elem_of_singleton, Hd. tauto.
Qed.

Lemma valid_pins_snoc entries e :
  valid_pins (entries ++ [e]) = valid_pins entries
    ++ (if of_chat chat e then filter (fun o => validPinObservation o = true) (option_list (pinObservation e)) else []).
Proof.
  unfold valid_pins. rewrite filter_app, filter_cons, filter_nil, omap_app, filter_app. f_equal.
  destruct (of_chat chat e); [rewrite decide_True by done|by rewrite decide_False by done].
  cbn [omap list_omap]. by destruct (pinObservation e).
Qed.

Lemma observeValid_reduced valid dels r obs :
  reduced valid dels r ->
  reduced (valid ++ filter (fun o => validPinObservation o = true) [obs]) dels (observeValid now obs r).
Proof.
  intros H. rewrite filter_cons, filter_nil. destruct (validPinObservation obs) eqn:E.
  - rewrite decide_True by done. by apply reduced_valid.
  - rewrite decide_False by done. rewrite app_nil_r. unfold observeValid. rewrite E. by apply reduced_invalid.
Qed.

Lemma pin_observe_reduced entries e r :
  reduced (valid_pins entries) (deleted_targets entries) r ->
  reduced (valid_pins (entries ++ [e])) (deleted_targets (entries ++ [e])) (pin_observe chat now r e).
Proof.
  intros H. rewrite valid_pins_snoc. unfold deleted_targets at 1. rewrite omap_app. fold (deleted_targets entries).
  unfold pin_observe. cbn [omap list_omap]. destruct (of_chat chat e) eqn:Eo; cbn [negb andb].
  2: { rewrite app_nil_r. by destruct (ie_Event e); rewrite app_nil_r. }
  unfold pinObservation. destruct (ie_Event e) eqn:Ee; cbn [option_list]; rewrite ?app_nil_r, ?filter_nil, ?app_nil_r; try done.
  - unfold observeDelete. destruct (valid_delete env target (ie_ReceivedAt e)); cbn [negb andb].
    + by apply reduced_delete.
    + rewrite app_nil_r. by apply reduced_invalid.
  - destruct (bool_decide _); [by apply reduced_invalid|done].
  - by apply observeValid_reduced.
  - by apply observeValid_reduced.
Qed.

Lemma reduced_all entries :
  reduced (valid_pins entries) (deleted_targets entries) (foldl (pin_observe chat now) empty_reducer entries).
Proof.
  induction entries as [|e entries IH] using rev_ind; [|rewrite foldl_app; by apply pin_observe_reduced].
  split; cbn; try done.
  - intros id p. split; [done|]. by intros (a & ?%elem_of_nil & _).
  - intros ref. split; [by intros ?%elem_of_empty|by intros ?%elem_of_nil].
Qed.

Lemma obs_leb_total a b : obs_leb a b = false -> obs_leb b a = true.
Proof.
  unfold obs_leb. rewrite (String.compare_antisym (ACI (obs_TargetAuthor b))).
  destruct (String.compare (ACI (obs_TargetAuthor a)) (ACI (obs_TargetAuthor b))); cbn; [|done|done].
  intros H. bool_hyps. apply Z.leb_le. lia.
Qed.

Lemma latest_reference ref l o : latest ref l = Some o -> o ∈ l /\ obs_reference o = ref.
Proof. unfold latest. intros (l' & E)%last_Some. assert (H : o ∈ filter (fun o => obs_reference o = ref) l)
  by (rewrite E, elem_of_app, list_elem_of_singleton; by right). by apply list_elem_of_filter in H as [? ?]. Qed.

Lemma with_expiry_reference o : obs_reference (with_expiry now o) = obs_reference o.
Proof. unfold with_expiry. by destruct (_ && _). Qed.

(** The pinned messages of a snapshot: the last [limit] entries by ID are read; of the valid
    pins and unpins of the chat the first under each sender and timestamp counts, the others
    under it are conflicts if they differ; and every target has exactly one observation, the
    latest that counts, with its expiry by the local clock and whether its author deleted it,
    sorted by author and timestamp. *)
Theorem reduce_pins_spec entries limit :
  let st := reduce_pins chat now entries limit in
  exists window rest,
    rest ++ window ≡ₚ entries /\ (forall e e', e ∈ rest -> e' ∈ window -> ie_ID e <= ie_ID e')
    /\ pin_Scanned st = len window /\ len window <= Z.max 0 limit
    /\ (pin_Truncated st = true <-> limit < len entries) /\ (pin_Truncated st = false -> rest = [])
    /\ Sorted (fun a b => obs_leb a b = true) (pin_Observations st)
    /\ NoDup (obs_reference <$> pin_Observations st)
    /\ (forall o, o ∈ pin_Observations st <-> exists ref a, latest ref (accepted_pins window) = Some a
          /\ o = set_deleted (bool_decide (ref ∈ deleted_targets window)) (with_expiry now a))
    /\ pin_Conflicts st = len (filter (fun o => conflicting (accepted_pins window) o = true) (valid_pins window)).
Proof.
  cbv zeta. unfold reduce_pins, boundSnapshot. set (sorted := sort_by _ entries).
  assert (Hperm : sorted ≡ₚ entries) by apply sort_by_perm.
  assert (Hsorted : StronglySorted (fun a b => ie_ID a <= ie_ID b) sorted).
  { apply Sorted_StronglySorted; [intros a b c; lia|]. eapply Sorted_weaken; [|apply sort_by_sorted]; cbn; intros a b; lia. }
  assert (Hlen : len sorted = len entries) by (unfold len; by rewrite Hperm).
  set (n := if limit <? len sorted then (length sorted - Z.to_nat limit)%nat else 0%nat).
  assert (Hw : (if limit <? len sorted then (drop (length sorted - Z.to_nat limit) sorted, true) else (sorted, false))
               = (drop n sorted, limit <? len sorted)) by (unfold n; by destruct (limit <? len sorted)).
  rewrite Hw. clear Hw. exists (drop n sorted), (take n sorted). cbn [pin_Scanned pin_Truncated pin_Observations pin_Conflicts].
  set (window := drop n sorted). destruct (reduced_all window) as [_ Ho Hd Hc]. set (r := foldl _ _ window) in *.
  assert (Hobs : forall o, o ∈ finalize r <-> exists ref a, latest ref (accepted_pins window) = Some a
          /\ o = set_deleted (bool_decide (ref ∈ deleted_targets window)) (with_expiry now a)).
  { intros o. unfold finalize. rewrite sort_by_perm, list_elem_of_fmap. split.
    - intros ([ref a] & -> & Hin). apply elem_of_map_to_list in Hin. rewrite Ho in Hin.
      apply fmap_Some in Hin as (b & Hb & ->). exists ref, b. split; [done|]. cbn. f_equal. apply bool_decide_ext, Hd.
    - intros (ref & a & Ha & ->). exists (ref, with_expiry now a). cbn. split; [f_equal; apply bool_decide_ext; symmetry; apply Hd|].
      apply elem_of_map_to_list. rewrite Ho. unfold accepted_pins in Ha. by rewrite Ha. }
  split_and!.
  - unfold window. by rewrite take_drop.
  - intros e e' He He'. rewrite <- (take_drop n sorted) in Hsorted. exact (StronglySorted_app_1_elem_of _ _ _ _ _ Hsorted He He').
  - done.
  - unfold window, len, n. rewrite length_drop. unfold len. destruct (Z.ltb_spec limit (Z.of_nat (length sorted))); lia.
  - rewrite <- Hlen. apply Z.ltb_lt.
  - unfold n. by intros ->.
  - apply sort_by_sorted, obs_leb_total.
  - unfold finalize. rewrite sort_by_perm, <- list_fmap_compose.
    assert (Hk : forall ro, ro ∈ map_to_list (rdc_observations r) ->
      (obs_reference ∘ (fun ro : reference * PinObservation => set_deleted (bool_decide (ro.1 ∈ rdc_deleted r)) ro.2)) ro = ro.1).
    { intros [ref o] Hin. apply elem_of_map_to_list in Hin. rewrite Ho in Hin. apply fmap_Some in Hin as (b & Hb & ->).
      apply latest_reference in Hb as [_ <-]. cbn. apply with_expiry_reference. }
    erewrite list_fmap_ext; [apply NoDup_fst_map_to_list|]. intros i ro Hi. cbn. apply Hk. by eapply list_elem_of_lookup_2.
  - exact Hobs.
  - exact Hc.
Qed.
End pin_spec.
