(* ===== verification/Identity.v ===== *)
(** * Trust levels and safety numbers (internal/signal/identity.go)

    The names of the trust levels, as the database and the output hold them, and the text form of
    safety numbers: what [identities trust --safety-number] accepts and what [identities show]
    prints. *)

From S2P Require Import Prelude Errors Utf8 Strconv Types.

(** ** Trust levels *)

(** [TrustLevel] is an [int]; its constants. *)
Notation TrustLevel := Z (only parsing).
Definition TrustUntrusted : TrustLevel := 1.
Definition TrustUnverified : TrustLevel := 2.
Definition TrustVerified : TrustLevel := 3.

Definition TrustLevel_String (l : TrustLevel) : string :=
  if l =? TrustUntrusted then "untrusted"
  else if l =? TrustUnverified then "trusted-unverified"
  else if l =? TrustVerified then "trusted-verified"
  else "TrustLevel(" ++ FormatInt l ++ ")".

Definition Trusted (l : TrustLevel) : bool := (l =? TrustUnverified) || (l =? TrustVerified).

Definition ParseTrustLevel (name : string) : TrustLevel :=
  default 0 (head (filter (fun level => TrustLevel_String level = name)
    [TrustUntrusted; TrustUnverified; TrustVerified])).

(** A level of the enumeration. *)
Definition is_level (l : TrustLevel) : Prop := 1 <= l <= 3.

(** ** Safety numbers *)

Definition SafetyNumberDigits : Z := 60.

(** [strings.Fields]: the maximal runs of runes that are not white space. *)
Fixpoint fields_of (cs : list chunk) (word : string) : list string :=
  let flush := if word == ""%string then [] else [word] in
  match cs with
  | [] => flush
  | c :: rest =>
      if IsSpace (ch_rune c) then flush ++ fields_of rest ""
      else fields_of rest (word ++ ch_text c)
  end.
Definition Fields (s : string) : list string := fields_of (decode s) "".

(** [strings.Join(words, "")]. *)
Definition join_empty (words : list string) : string := foldr String.append ""%string words.

(** [strings.Trim(s, "0123456789")]. *)
Definition trim_digits (s : string) : string := text_of (trim (fun c => in_range 48 57 (ch_rune c)) (decode s)).

Definition NormalizeSafetyNumber (s : string) : res string :=
  let digits := join_empty (Fields s) in
  if (slen digits != SafetyNumberDigits) || (trim_digits digits != ""%string)
  then Err (errorf ErrInvalidSafetyNumber)
  else Ok digits.

(** The loop cuts off five bytes while more than five are left. *)
Fixpoint GroupSafetyNumber (number : string) : list string :=
  match number with
  | EmptyString => []
  | String a (String b (String c (String d (String e (String _ _ as rest))))) =>
      String a (String b (String c (String d (String e EmptyString)))) :: GroupSafetyNumber rest
  | _ => [number]
  end.

(** ** Trust levels *)

Lemma ParseTrustLevel_String l : is_level l -> ParseTrustLevel (TrustLevel_String l) = l.
Proof.
  intros Hl. assert (l = 1 \/ l = 2 \/ l = 3) as [->|[-> | ->]] by (unfold is_level in Hl; lia); reflexivity.
Qed.

Lemma ParseTrustLevel_range name :
  ParseTrustLevel name = 0 \/ (is_level (ParseTrustLevel name) /\ TrustLevel_String (ParseTrustLevel name) = name).
Proof.
  unfold ParseTrustLevel. rewrite !filter_cons, filter_nil.
  repeat case_decide; cbn; [right..|by left]; (split; [by unfold is_level|assumption]).
Qed.

Lemma Trusted_level l : Trusted l = true -> is_level l.
Proof. unfold Trusted, is_level, TrustUnverified, TrustVerified. lia. Qed.

Lemma Trusted_parse name : Trusted (ParseTrustLevel name) = true <-> name = TrustLevel_String TrustUnverified \/ name = TrustLevel_String TrustVerified.
Proof.
  split; [|by intros [-> | ->]]. intros H. destruct (ParseTrustLevel_range name) as [E|[Hl E]]; [by rewrite E in H|].
  unfold Trusted in H. apply orb_true_iff in H as [H|H]; apply Z.eqb_eq in H; rewrite H in E; eauto.
Qed.

(** ** Text lemmas *)

Definition ascii_char (a : Ascii.ascii) : bool := byte_of a <? 128.

(** Decoding ASCII is byte by byte. *)
Definition ascii_chunk (a : Ascii.ascii) : chunk := mkChunk (byte_of a) (String a EmptyString) true.

Fixpoint chars (s : string) : list Ascii.ascii :=
  match s with EmptyString => [] | String a t => a :: chars t end.

Lemma decode_ascii s : string_forallb ascii_char s = true -> decode s = ascii_chunk <$> chars s.
Proof.
  induction s as [|a s IH]; [done|]. cbn [string_forallb]. intros [Ha Hs]%andb_true_iff.
  cbn [decode chars fmap list_fmap]. unfold ascii_char in Ha. rewrite Ha. cbn. by rewrite IH.
Qed.

(** Joining the fields removes the white space and nothing else. *)
Lemma join_fields_of cs word :
  join_empty (fields_of cs word) = (word ++ text_of (filter (fun c => IsSpace (ch_rune c) = false) cs))%string.
Proof.
  assert (Hflush : forall w rest, join_empty ((if w == ""%string then [] else [w]) ++ rest) = (w ++ join_empty rest)%string).
  { intros w rest. case_bool_decide as Hw; [by subst|done]. }
  revert word. induction cs as [|c cs IH]; intros word; cbn [fields_of].
  - case_bool_decide as Hw; [by subst|done].
  - rewrite filter_cons. destruct (IsSpace (ch_rune c)) eqn:Hc.
    + rewrite decide_False by done. by rewrite Hflush, IH.
    + rewrite decide_True by done. rewrite IH, text_of_cons. by rewrite string_app_assoc.
Qed.

Definition despace (s : string) : string := text_of (filter (fun c => IsSpace (ch_rune c) = false) (decode s)).

Lemma join_Fields s : join_empty (Fields s) = despace s.
Proof. unfold Fields. by rewrite join_fields_of. Qed.

Definition digit (a : Ascii.ascii) : bool := in_range 48 57 (byte_of a).

Lemma digit_visible a : digit a = true -> visible a = true.
Proof. unfold digit, visible, in_range. lia. Qed.

(** A rune below 128 is one byte. *)
Lemma decode_ascii_chunk s c : c ∈ decode s -> ch_rune c < 128 -> exists a, c = ascii_chunk a.
Proof.
  induction s as [s IH] using string_len_ind.
  decode_cases s; [by rewrite elem_of_nil|..];
    rewrite elem_of_cons, ?elem_of_nil; intros Hc Hr;
    (destruct Hc as [->|Hc]; [|try done; (eapply IH; [|exact Hc|exact Hr]; cbn; lia)]);
    cbn [ch_rune bad] in *; first [eexists; reflexivity | exfalso];
    unfold rune2, rune3, rune4, RuneError, second3, second4, cont, in_range in *;
    repeat match goal with a : Ascii.ascii |- _ =>
      lazymatch goal with _ : 0 <= byte_of a < 256 |- _ => fail | _ => pose proof (byte_of_bound a) end end;
    repeat match goal with H : context [if ?b then _ else _] |- _ => destruct b eqn:? end;
    lia.
Qed.

Lemma decode_digits_rune s :
  forallb (fun c => in_range 48 57 (ch_rune c)) (decode s) = true <-> string_forallb digit s = true.
Proof.
  split.
  - rewrite <- (decode_text s) at 2. intros H. rewrite forallb_forall in H.
    assert (Hall : forall c, c ∈ decode s -> exists a, c = ascii_chunk a /\ digit a = true).
    { intros c Hc. pose proof (H c ltac:(by apply list_elem_of_In)) as Hd. cbn beta in Hd.
      destruct (decode_ascii_chunk s c Hc) as [a ->]; [unfold in_range in Hd; lia|]. by exists a. }
    clear H. induction (decode s) as [|c cs IH]; [done|].
    destruct (Hall c) as (a & -> & Ha); [by left|]. rewrite text_of_cons, string_forallb_app. cbn. rewrite Ha. cbn.
    apply IH. intros c Hc. apply Hall. by right.
  - intros H. rewrite decode_ascii.
    + rewrite forallb_forall. intros c Hc%list_elem_of_In%list_elem_of_fmap. destruct Hc as (a & -> & Ha). cbn.
      induction s as [|b s IH]; cbn in *; [by apply elem_of_nil in Ha|].
      apply andb_true_iff in H as [Hb Hs]. apply elem_of_cons in Ha as [->|Ha]; [done|by apply IH].
    + revert H. clear. induction s as [|b s IH]; [done|]. cbn. intros [Hb Hs]%andb_true_iff. rewrite IH by done.
      unfold digit, ascii_char, in_range in *. lia.
Qed.

Lemma trim_digits_empty s : trim_digits s = ""%string <-> string_forallb digit s = true.
Proof.
  rewrite <- decode_digits_rune, <- trim_nil. unfold trim_digits. split; [|by intros ->].
  intros H. destruct (trim _ (decode s)) as [|c cs] eqn:E; [done|]. exfalso.
  assert (Hc : c ∈ decode s) by (eapply trim_sublist; rewrite E; by left).
  apply ch_text_nonempty in Hc. rewrite text_of_cons in H. by destruct (ch_text c).
Qed.

Lemma decode_ascii_app s t : string_forallb ascii_char s = true -> decode (s ++ t) = decode s ++ decode t.
Proof.
  induction s as [|a s IH]; [done|]. cbn [string_forallb]. intros [Ha Hs]%andb_true_iff.
  rewrite string_app_cons. cbn [decode]. unfold ascii_char in Ha. rewrite Ha. cbn. by rewrite IH.
Qed.

Lemma digits_ascii s : string_forallb digit s = true -> string_forallb ascii_char s = true.
Proof.
  induction s as [|b s IH]; [done|]. cbn. intros [Hb Hs]%andb_true_iff. rewrite IH by done.
  unfold digit, ascii_char, in_range in *. lia.
Qed.

Lemma text_of_app cs ds : text_of (cs ++ ds) = (text_of cs ++ text_of ds)%string.
Proof. induction cs as [|c cs IH]; [done|]. cbn [app]. rewrite !text_of_cons, IH. by rewrite string_app_assoc. Qed.

Lemma despace_app s t : string_forallb ascii_char s = true -> despace (s ++ t) = (despace s ++ despace t)%string.
Proof. intros Hs. unfold despace. rewrite decode_ascii_app by done. by rewrite filter_app, text_of_app. Qed.

Lemma despace_digits s : string_forallb digit s = true -> despace s = s.
Proof.
  intros Hs. unfold despace. rewrite <- (decode_text s) at 2. f_equal. apply decode_digits_rune in Hs.
  rewrite forallb_forall in Hs. induction (decode s) as [|c cs IH]; [done|]. rewrite filter_cons, decide_True.
  - f_equal. apply IH. intros x Hx. apply Hs. by right.
  - pose proof (Hs c (or_introl eq_refl)) as Hc. unfold in_range, IsSpace in *. unfold in_range. lia.
Qed.

Lemma despace_concat blocks : Forall (fun b => string_forallb digit b = true) blocks ->
  despace (String.concat " " blocks) = join_empty blocks.
Proof.
  induction 1 as [|b blocks Hb _ IH]; [done|]. cbn [String.concat]. destruct blocks as [|b' blocks].
  - cbn. by rewrite string_app_empty, despace_digits.
  - rewrite despace_app by by apply digits_ascii. rewrite despace_digits by done.
    rewrite despace_app by done. by rewrite IH.
Qed.

Lemma GroupSafetyNumber_step number : 5 < slen number ->
  exists block rest, number = (block ++ rest)%string /\ slen block = 5 /\ rest <> ""%string
    /\ GroupSafetyNumber number = block :: GroupSafetyNumber rest.
Proof.
  unfold slen. intros H.
  do 6 (destruct number as [|? number]; [cbn in H; lia|]).
  eexists (String _ (String _ (String _ (String _ (String _ ""))))), (String _ number). split_and!; done.
Qed.

Lemma GroupSafetyNumber_short number : slen number <= 5 -> number <> ""%string -> GroupSafetyNumber number = [number].
Proof. unfold slen. intros H Hne. do 6 (destruct number as [|? number]; [done|]). cbn in H. lia. Qed.

Lemma slen_zero s : slen s = 0 -> s = ""%string.
Proof. destruct s; [done|]. unfold slen. cbn. lia. Qed.

Lemma join_GroupSafetyNumber number : join_empty (GroupSafetyNumber number) = number.
Proof.
  induction number as [number IH] using string_len_ind.
  destruct (Z.lt_ge_cases 5 (slen number)) as [Hlong|Hshort].
  - destruct (GroupSafetyNumber_step number Hlong) as (block & rest & Hn & Hb & Hrest & ->). cbn.
    rewrite IH; [done|]. rewrite Hn. pose proof (slen_app block rest). unfold slen in *. lia.
  - destruct (decide (number = ""%string)) as [->|Hne]; [done|].
    rewrite GroupSafetyNumber_short by done. apply string_app_empty.
Qed.

(** [GroupSafetyNumber] only splits: the blocks joined give the number back, every block but
    the last has five bytes and the last has one to five, so a number of [n] bytes gives
    [ceil(n/5)] blocks and the empty number gives none. *)
Theorem GroupSafetyNumber_spec number :
  join_empty (GroupSafetyNumber number) = number
  /\ Forall (fun b => 1 <= slen b <= 5) (GroupSafetyNumber number)
  /\ (forall i b, GroupSafetyNumber number !! i = Some b -> (S i < length (GroupSafetyNumber number))%nat -> slen b = 5)
  /\ len (GroupSafetyNumber number) = (slen number + 4) / 5.
Proof.
  split; [apply join_GroupSafetyNumber|]. induction number as [number IH] using string_len_ind.
  destruct (Z.lt_ge_cases 5 (slen number)) as [Hlong|Hshort].
  - destruct (GroupSafetyNumber_step number Hlong) as (block & rest & Hn & Hb & Hrest & ->).
    destruct (IH rest) as (IH2 & IH3 & IH4).
    { rewrite Hn. pose proof (slen_app block rest). unfold slen in *. lia. }
    split_and!.
    + constructor; [lia|done].
    + intros [|i] b; cbn; [by intros [= <-] _|]. intros Hi Hlen. eapply IH3; [exact Hi|lia].
    + unfold len in *. cbn [length]. rewrite Hn, slen_app, Hb. rewrite Nat2Z.inj_succ, IH4.
      replace (5 + slen rest + 4) with (1 * 5 + (slen rest + 4)) by lia. rewrite Z.div_add_l by lia. lia.
  - destruct (decide (number = ""%string)) as [->|Hne]; [by repeat constructor|].
    rewrite GroupSafetyNumber_short by done.
    assert (1 <= slen number). { destruct number; [done|]. unfold slen. cbn. lia. }
    split_and!; [by repeat constructor| |].
    + intros [|i] b; cbn; [lia|done].
    + cbn. unfold len. cbn. apply (Z.div_unique _ 5 1 (slen number - 1)); lia.
Qed.

Lemma digits_blocks blocks : string_forallb digit (join_empty blocks) = true ->
  Forall (fun b => string_forallb digit b = true) blocks.
Proof.
  induction blocks as [|b blocks IH]; [done|]. cbn. rewrite string_forallb_app. intros [Hb Hr]%andb_true_iff.
  constructor; [done|by apply IH].
Qed.

(** [NormalizeSafetyNumber] removes the white space, of any kind and anywhere, and accepts
    exactly what then has sixty decimal digits; everything else fails with
    [ErrInvalidSafetyNumber]. The result is a fixed point. *)
Theorem NormalizeSafetyNumber_spec s :
  let digits := despace s in
  (slen digits = 60 /\ string_forallb digit digits = true ->
     NormalizeSafetyNumber s = Ok digits /\ NormalizeSafetyNumber digits = Ok digits)
  /\ (~ (slen digits = 60 /\ string_forallb digit digits = true) ->
     fails_with (NormalizeSafetyNumber s) ErrInvalidSafetyNumber).
Proof.
  intros digits. unfold NormalizeSafetyNumber. rewrite !join_Fields. fold digits. split.
  - intros [Hl Hd]. rewrite (despace_digits digits) by done. rewrite Hl.
    rewrite (proj2 (trim_digits_empty digits)) by done. done.
  - intros H. destruct ((slen digits != SafetyNumberDigits) || (trim_digits digits != ""%string)) eqn:E; [auto with go|].
    exfalso. bool_hyps. apply H. split; [done|by apply trim_digits_empty].
Qed.

(** The safety number as it is shown (blocks of five digits with spaces between) is accepted
    when it is typed back in, and means the same number. *)
Theorem safety_number_roundtrip number : slen number = 60 -> string_forallb digit number = true ->
  NormalizeSafetyNumber (String.concat " " (GroupSafetyNumber number)) = Ok number.
Proof.
  intros Hl Hd.
  assert (Hs : despace (String.concat " " (GroupSafetyNumber number)) = number).
  { rewrite despace_concat; [apply join_GroupSafetyNumber|]. apply digits_blocks. by rewrite join_GroupSafetyNumber. }
  unfold NormalizeSafetyNumber. rewrite join_Fields, Hs, Hl. by rewrite (proj2 (trim_digits_empty number)).
Qed.
