(* ===== verification/IdentityStore.v ===== *)
(** * Identity tables (internal/store/identities.go, identity_sync.go, storage_identity.go)

    The tables [gosignal_identities], [gosignal_identity_sync], [gosignal_storage_identities] and
    [gosignal_meta] of the account database, next to signalmeow's own tables, which stay abstract:
    [SignalTables] states what the code relies on. Every statement may fail; a list of faults says
    which ones do. *)

From S2P Require Import Prelude Errors Uuid Strconv Types GroupChange Identity.

(** ** Rows *)

Record IdentityRecord := mkIdentityRecord {
  ir_ServiceID : string; ir_Key : string; ir_Trust : string; ir_FirstSeen : time; ir_ChangedAt : time;
  ir_PreviousKey : string; ir_PendingEvent : bool }.

(** A row of [gosignal_identities]: times are milliseconds, 0 for the zero time. *)
Record identity_row := mkIdentityRow {
  row_identity_key : string; row_trust : string; row_first_seen : Z; row_changed_at : Z;
  row_previous_key : string; row_pending_event : bool }.

Record IdentitySync := mkIdentitySync { is_ServiceID : string; is_Key : string; is_Trust : string; is_Token : string }.

Record StorageIdentity := mkStorageIdentity {
  si_ServiceID : string; si_RemoteKey : string; si_RemoteTrust : string; si_LocalKey : string; si_LocalTrust : string;
  si_Dirty : bool }.

#[export] Instance IdentityRecord_eq_dec : EqDecision IdentityRecord.
Proof. solve_decision. Defined.
#[export] Instance identity_row_eq_dec : EqDecision identity_row.
Proof. solve_decision. Defined.
#[export] Instance IdentitySync_eq_dec : EqDecision IdentitySync.
Proof. solve_decision. Defined.
#[export] Instance StorageIdentity_eq_dec : EqDecision StorageIdentity.
Proof. solve_decision. Defined.

(** [unixMilli], [fromUnixMilli]. *)
Definition unixMilli (t : time) : Z := if IsZeroTime t then 0 else UnixMilli t.
Definition fromUnixMilli (ms : Z) : time := if ms =? 0 then zero_time else of_UnixMilli ms.

Definition row_of (rec : IdentityRecord) : identity_row :=
  mkIdentityRow (ir_Key rec) (ir_Trust rec) (unixMilli (ir_FirstSeen rec)) (unixMilli (ir_ChangedAt rec))
    (ir_PreviousKey rec) (ir_PendingEvent rec).

Definition scanIdentity (serviceID : string) (row : identity_row) : IdentityRecord :=
  mkIdentityRecord serviceID (row_identity_key row) (row_trust row) (fromUnixMilli (row_first_seen row))
    (fromUnixMilli (row_changed_at row)) (row_previous_key row) (row_pending_event row).

(** ** signalmeow and libsignal *)

Inductive serviceStore := ACIStore | PNIStore.
#[export] Instance serviceStore_eq_dec : EqDecision serviceStore.
Proof. solve_decision. Defined.

(** signalmeow's tables [P] of the account and the parts of libsignal that read identity keys.
    [identity_keys] is what SQL sees of [signalmeow_identity_keys]: the key of an account and a
    service ID. Sessions have an address; the serialized record of one may be unreadable. *)
Class SignalTables {U : UuidLib} (P : Type) := {
  IdentityKey : Type;
  key_Serialize : IdentityKey -> res string;
  DeserializeIdentityKey : string -> res IdentityKey;
  ServiceID_String : ServiceID -> string;
  ServiceIDFromString : string -> res ServiceID;
  dev_ACI : uuid; dev_PNI : uuid;
  identity_keys : P -> gmap (string * string) string;
  GetIdentityKey : serviceStore -> ServiceID -> P -> res (option IdentityKey);
  SaveIdentityKey : serviceStore -> ServiceID -> IdentityKey -> P -> res bool * P;
  Address : Type;
  AllSessionsForServiceID : serviceStore -> ServiceID -> P -> res (list (Address * res string));
  RemoveSession : serviceStore -> Address -> P -> res unit * P;
}.

(** Documented: a service ID is stored as the ACI or as PNI:<uuid> and read back; a key that was
    parsed serializes to the same bytes; the identity stores read and write the table under the account's
    ACI, and saving a key touches no session; removing a session removes that one and touches no key. *)
Class SignalLaws {U : UuidLib} (P : Type) (S : SignalTables P) : Prop := {
  ServiceIDFromString_String : forall id : ServiceID, ServiceIDFromString (ServiceID_String id) = Ok id;
  ServiceID_String_ACI : forall u : uuid, ServiceID_String (NewACIServiceID u) = uuid_string u;
  ServiceID_String_PNI : forall u : uuid, ServiceID_String (NewPNIServiceID u) = ("PNI:" ++ uuid_string u)%string;
  identity_keys_names : forall p a name k, identity_keys p !! (a, name) = Some k -> exists id, name = ServiceID_String id;
  Deserialize_Serialize : forall k K, DeserializeIdentityKey k = Ok K -> key_Serialize K = Ok k;
  GetIdentityKey_law : forall s id p known, GetIdentityKey s id p = Ok known ->
    match known with
    | None => identity_keys p !! (uuid_string dev_ACI, ServiceID_String id) = None
    | Some K => forall k, key_Serialize K = Ok k -> identity_keys p !! (uuid_string dev_ACI, ServiceID_String id) = Some k
    end;
  SaveIdentityKey_law : forall s id K k p b p', SaveIdentityKey s id K p = (Ok b, p') -> key_Serialize K = Ok k ->
    identity_keys p' = <[(uuid_string dev_ACI, ServiceID_String id) := k]> (identity_keys p)
    /\ forall s' id', AllSessionsForServiceID s' id' p' = AllSessionsForServiceID s' id' p;
  RemoveSession_keys : forall s a p r p', RemoveSession s a p = (r, p') -> identity_keys p' = identity_keys p;
  RemoveSession_law : forall s a p p', RemoveSession s a p = (Ok tt, p') ->
    forall s' id ts, AllSessionsForServiceID s' id p = Ok ts ->
      exists ts', AllSessionsForServiceID s' id p' = Ok ts' /\ ts' `sublist_of` ts
        /\ (s' = s -> forall r, (a, r) ∉ ts');
}.

(** ** The database and the client's memory around it *)

Record iddb (P : Type) := mkIdDB {
  db_identities : gmap string identity_row; db_queue : gmap string IdentitySync;
  db_observed : gmap string StorageIdentity; db_meta : gmap string string; db_signal : P }.
Arguments mkIdDB {P}.
Arguments db_identities {P}.
Arguments db_queue {P}.
Arguments db_observed {P}.
Arguments db_meta {P}.
Arguments db_signal {P}.

(** The database, which statements fail next, the clock, fresh tokens, and the event side: the
    flag [pending] and the changes handed to [Events] so far. *)
Record idworld (P : Type) := mkIdWorld {
  iw_db : iddb P; iw_faults : list bool; iw_now : time; iw_tokens : list string;
  iw_pending : bool; iw_emitted : list Event }.
Arguments mkIdWorld {P}.
Arguments iw_db {P}.
Arguments iw_faults {P}.
Arguments iw_now {P}.
Arguments iw_tokens {P}.
Arguments iw_pending {P}.
Arguments iw_emitted {P}.

Section store.
Context {U : UuidLib} {P : Type} {S : SignalTables P}.

Notation M := (io (idworld P) err).
Notation DB := (iddb P).

Definition with_db (f : DB -> DB) (w : idworld P) : idworld P :=
  mkIdWorld (f (iw_db w)) (iw_faults w) (iw_now w) (iw_tokens w) (iw_pending w) (iw_emitted w).
Definition with_identities (f : gmap string identity_row -> gmap string identity_row) (db : DB) : DB :=
  mkIdDB (f (db_identities db)) (db_queue db) (db_observed db) (db_meta db) (db_signal db).
Definition with_queue (f : gmap string IdentitySync -> gmap string IdentitySync) (db : DB) : DB :=
  mkIdDB (db_identities db) (f (db_queue db)) (db_observed db) (db_meta db) (db_signal db).
Definition with_observed (f : gmap string StorageIdentity -> gmap string StorageIdentity) (db : DB) : DB :=
  mkIdDB (db_identities db) (db_queue db) (f (db_observed db)) (db_meta db) (db_signal db).
Definition with_meta (f : gmap string string -> gmap string string) (db : DB) : DB :=
  mkIdDB (db_identities db) (db_queue db) (db_observed db) (f (db_meta db)) (db_signal db).
Definition with_signal (p : P) (db : DB) : DB :=
  mkIdDB (db_identities db) (db_queue db) (db_observed db) (db_meta db) p.

(** One SQL statement: it fails if the next fault says so, and then changes nothing. *)
Definition faulty (w : idworld P) : bool := default false (head (iw_faults w)).
Definition tick (w : idworld P) : idworld P :=
  mkIdWorld (iw_db w) (tail (iw_faults w)) (iw_now w) (iw_tokens w) (iw_pending w) (iw_emitted w).

Definition statement {A} (f : DB -> A * DB) : M A := fun w =>
  if faulty w then (Err (Wrap [Opaque "database"]), tick w)
  else let (a, db) := f (iw_db w) in (Ok a, with_db (fun _ => db) (tick w)).

Definition select {A} (f : DB -> A) : M A := statement (fun db => (f db, db)).
Definition exec (f : DB -> DB) : M unit := statement (fun db => (tt, f db)).

(** ** identities.go *)

Definition Identity (serviceID : string) : M (option IdentityRecord) :=
  select (fun db => scanIdentity serviceID <$> db_identities db !! serviceID).

Definition rows_by_id (rows : gmap string identity_row) : list (string * identity_row) :=
  sort_by (fun a b => String.leb a.1 b.1) (map_to_list rows).

Definition Identities : M (list IdentityRecord) :=
  select (fun db => (fun x => scanIdentity x.1 x.2) <$> rows_by_id (db_identities db)).

(** [ORDER BY changed_at, service_id]. *)
Definition changed_before (a b : string * identity_row) : bool :=
  (row_changed_at a.2 <? row_changed_at b.2)
  || ((row_changed_at a.2 =? row_changed_at b.2) && String.leb a.1 b.1).

Definition PendingIdentityChanges : M (list IdentityRecord) :=
  select (fun db => (fun x => scanIdentity x.1 x.2)
    <$> sort_by changed_before (filter (fun x => row_pending_event x.2 = true) (map_to_list (db_identities db)))).

Definition PutIdentity (rec : IdentityRecord) : M unit :=
  exec (with_identities (<[ir_ServiceID rec := row_of rec]>)).

Definition reported (row : identity_row) : identity_row :=
  mkIdentityRow (row_identity_key row) (row_trust row) (row_first_seen row) (row_changed_at row)
    (row_previous_key row) false.

Definition MarkIdentityReported (serviceID key : string) : M unit :=
  exec (with_identities (alter (fun row => if row_identity_key row == key then reported row else row) serviceID)).

(** The rows of the account, by service ID. *)
Definition StoredIdentityKeys (accountID : string) : M (gmap string string) :=
  select (fun db => list_to_map ((fun x => (x.1.2, x.2))
    <$> filter (fun x => x.1.1 = accountID) (map_to_list (identity_keys (db_signal db))))).

(** [INSERT ... SELECT ... ON CONFLICT DO UPDATE ... WHERE]: the number of rows it affects. *)
Definition ApplyIdentityTrust (accountID serviceID key trust : string) : M bool :=
  statement (fun db =>
    if identity_keys (db_signal db) !! (accountID, serviceID) == Some key then
      match db_identities db !! serviceID with
      | None => (true, with_identities (<[serviceID := mkIdentityRow key trust 0 0 "" false]>) db)
      | Some row =>
          if row_identity_key row == key then
            (true, with_identities (<[serviceID := mkIdentityRow (row_identity_key row) trust (row_first_seen row)
                     (row_changed_at row) (row_previous_key row) false]>) db)
          else (false, db)
      end
    else (false, db)).

(** ** identity_sync.go *)

Definition QueueIdentitySync (update : IdentitySync) : M unit :=
  exec (with_queue (<[is_ServiceID update := update]>)).

Definition DeleteIdentitySync (serviceID : string) : M unit := exec (with_queue (delete serviceID)).

(** The join of [PendingIdentitySync] and [IdentitySyncCurrent]. *)
Definition sync_current (accountID : string) (db : DB) (pending : IdentitySync) : bool :=
  match db_identities db !! is_ServiceID pending with
  | Some row =>
      (row_identity_key row == is_Key pending)
      && (identity_keys (db_signal db) !! (accountID, is_ServiceID pending) == Some (is_Key pending))
      && (row_trust row == is_Trust pending)
  | None => false
  end.

Definition PendingIdentitySync (accountID : string) : M (list IdentitySync) :=
  let* _ := exec (fun db => with_queue (filter (fun x => sync_current accountID db x.2 = true)) db) in
  select (fun db => snd <$> sort_by (fun a b => String.leb a.1 b.1) (map_to_list (db_queue db))).

Definition IdentitySyncCurrent (accountID : string) (update : IdentitySync) : M bool :=
  select (fun db => match db_queue db !! is_ServiceID update with
                    | Some pending => (is_Token pending == is_Token update) && sync_current accountID db pending
                    | None => false
                    end).

Definition MarkIdentitySynced (update : IdentitySync) : M unit :=
  exec (with_queue (fun q => match q !! is_ServiceID update with
                             | Some pending => if is_Token pending == is_Token update
                                               then delete (is_ServiceID update) q else q
                             | None => q
                             end)).

(** ** storage_identity.go *)

Definition StorageIdentity_ (serviceID : string) : M (option StorageIdentity) :=
  select (fun db => db_observed db !! serviceID).

Definition PutStorageIdentity (rec : StorageIdentity) : M unit :=
  exec (with_observed (<[si_ServiceID rec := rec]>)).

(** A new row has the columns' defaults: empty keys and trusts. *)
Definition protected_row (serviceID : string) (rec : option StorageIdentity) : StorageIdentity :=
  match rec with
  | Some r => mkStorageIdentity serviceID (si_RemoteKey r) (si_RemoteTrust r) (si_LocalKey r) (si_LocalTrust r) true
  | None => mkStorageIdentity serviceID "" "" "" "" true
  end.

Definition ProtectStorageIdentity (serviceID : string) : M unit :=
  exec (with_observed (fun m => <[serviceID := protected_row serviceID (m !! serviceID)]> m)).

(** ** store.go *)

Definition Meta (key : string) : M (string * bool) :=
  select (fun db => match db_meta db !! key with Some v => (v, true) | None => (""%string, false) end).
Definition SetMeta (key value : string) : M unit := exec (with_meta (<[key := value]>)).
End store.
