(* ===== verification/IdentityTrust.v ===== *)
(** * Trust on first use (internal/signal/meow_identity.go: identityTrust, trustStore)

    libsignal calls [IsTrustedIdentity] before it encrypts and [SaveIdentityKey] after it has
    encrypted or decrypted; both go through [observe], which keeps the trust records. [report]
    turns changes into events. *)

From S2P Require Import Prelude Errors Uuid Utf8 Strconv Types GroupChange Identity IdentityStore Protowire.

(** [hex.EncodeToString] of a key. *)
Definition fingerprint (key : string) : string := hex_EncodeToString key.

(** ** Session records *)

Section wire.
Context {W : Protowire}.

Definition recordCurrentSession : Z := 1.
Definition sessionRemoteIdentityKey : Z := 3.

(** The loop of [protoBytesField]; the fuel bounds its turns. A nil slice is "". *)
Fixpoint field_loop (fuel : nat) (msg : string) (num : Z) : option string :=
  match fuel with
  | O => None
  | S fuel =>
      if msg == ""%string then Some ""%string
      else match ConsumeTag msg with
      | None => Some ""%string
      | Some (field, typ, n) =>
          let msg := sdrop n msg in
          if (field =? num) && (typ == BytesType) then
            match ConsumeBytes msg with None => Some ""%string | Some (value, _) => Some value end
          else match ConsumeFieldValue field typ msg with
               | None => Some ""%string
               | Some m => field_loop fuel (sdrop m msg) num
               end
      end
  end.

Definition protoBytesField (msg : string) (num : Z) : option string := field_loop (S (String.length msg)) msg num.

Definition sessionRemoteIdentity (record : string) : option string :=
  session ← protoBytesField record recordCurrentSession; protoBytesField session sessionRemoteIdentityKey.

(** The loop ends within the bytes of the message. *)
Lemma field_loop_total {WL : ProtowireLaws W} fuel msg num :
  (String.length msg < fuel)%nat -> is_Some (field_loop fuel msg num).
Proof.
  revert msg. induction fuel as [|fuel IH]; intros msg Hf; [lia|]. cbn.
  case_bool_decide; [done|]. destruct (ConsumeTag msg) as [[[field typ] n]|] eqn:Ht; [|done].
  apply ConsumeTag_law in Ht. destruct (_ && _); [by destruct (ConsumeBytes _) as [[??]|]|].
  destruct (ConsumeFieldValue _ _ _) as [m|]; [|done]. apply IH. rewrite !length_sdrop. lia.
Qed.

Lemma protoBytesField_total {WL : ProtowireLaws W} msg num : is_Some (protoBytesField msg num).
Proof. apply field_loop_total. lia. Qed.

Lemma sessionRemoteIdentity_total {WL : ProtowireLaws W} record : is_Some (sessionRemoteIdentity record).
Proof.
  unfold sessionRemoteIdentity. destruct (protoBytesField_total record recordCurrentSession) as [s ->].
  apply protoBytesField_total.
Qed.
End wire.

Section trust.
Context {U : UuidLib} {W : Protowire} {P : Type} {S : SignalTables P}.
(** Whether the event channel takes another event: not once the client is closing. *)
Context (takes : list Event -> bool).

Notation M := (io (idworld P) err).

Definition signal_read {A} (f : P -> res A) : M A := fun w => (f (db_signal (iw_db w)), w).
Definition signal_write {A} (f : P -> res A * P) : M A := fun w =>
  let (r, p) := f (db_signal (iw_db w)) in (r, with_db (with_signal p) w).
Definition wrap {A} (r : res A) : res A := match r with Ok a => Ok a | Err e => Err (Wrap [e]) end.
Definition id_now : M time := fun w => (Ok (iw_now w), w).
Definition set_pending (b : bool) : M unit := fun w =>
  (Ok tt, mkIdWorld (iw_db w) (iw_faults w) (iw_now w) (iw_tokens w) b (iw_emitted w)).

(** ** Sessions *)

(** Whether the session's other side has another key than [key], or cannot be read. *)
Definition stale_session (key : string) (record : res string) : bool :=
  match record with
  | Ok r => negb (bool_decide (sessionRemoteIdentity r = Some key))
  | Err _ => true
  end.

Fixpoint remove_tuples (s : serviceStore) (key : string) (tuples : list (Address * res string)) (removed : Z) : M Z :=
  match tuples with
  | [] => io_ret removed
  | (address, record) :: rest =>
      if stale_session key record then
        let* r := io_try (signal_write (RemoveSession s address)) in
        match r with
        | Err e => io_err (Wrap [e])
        | Ok _ => remove_tuples s key rest (removed + 1)
        end
      else remove_tuples s key rest removed
  end.

Fixpoint remove_stores (stores : list (option serviceStore)) (id : ServiceID) (key : string) (removed : Z) : M Z :=
  match stores with
  | [] => io_ret removed
  | None :: rest => remove_stores rest id key removed
  | Some s :: rest =>
      let* tuples := io_try (signal_read (AllSessionsForServiceID s id)) in
      match tuples with
      | Err e => io_err (Wrap [e])
      | Ok tuples => let* removed := remove_tuples s key tuples removed in remove_stores rest id key removed
      end
  end.

(** The function; the number removed before an error only goes to the log. *)
Definition removeStaleSessions (stores : list (option serviceStore)) (id : ServiceID) (key : string) : M Z :=
  remove_stores stores id key 0.

Definition device_sessions : list (option serviceStore) := [Some ACIStore; Some PNIStore].

(** ** Observing keys *)

Definition knownKey (s : serviceStore) (id : ServiceID) : M (option string) :=
  let* known := signal_read (GetIdentityKey s id) in
  match known with
  | None => io_ret None
  | Some K => let* key := io_of (wrap (key_Serialize K)) in io_ret (Some key)
  end.

(** The record [observe] starts from: nil only before the first key. *)
Definition legacy_record (name key : string) : IdentityRecord :=
  mkIdentityRecord name key (TrustLevel_String TrustUnverified) zero_time zero_time "" false.

Definition first_record (name key : string) (now : time) : IdentityRecord :=
  mkIdentityRecord name key (TrustLevel_String TrustUnverified) now zero_time "" false.

(** [rec] after a change to [key] was noticed. *)
Definition changed_record (rec : IdentityRecord) (key : string) (now : time) : IdentityRecord :=
  mkIdentityRecord (ir_ServiceID rec) key (TrustLevel_String TrustUntrusted) (ir_FirstSeen rec) now
    (if Trusted (ParseTrustLevel (ir_Trust rec)) then ir_Key rec else ir_PreviousKey rec) true.

Definition observe_change (id : ServiceID) (rec : IdentityRecord) (key : string) : M bool :=
  if ir_Key rec == key then io_ret (Trusted (ParseTrustLevel (ir_Trust rec)))
  else
    let* _ := ProtectStorageIdentity (ServiceID_String id) in
    let* now := id_now in
    let* _ := PutIdentity (changed_record rec key now) in
    let* _ := io_try (removeStaleSessions device_sessions id key) in
    let* _ := set_pending true in
    io_ret false.

Definition observe (id : ServiceID) (key : string) (known : option string) : M bool :=
  let name := ServiceID_String id in
  let* rec := Identity name in
  match rec, known with
  | Some rec, _ => observe_change id rec key
  | None, Some known => observe_change id (legacy_record name known) key
  | None, None =>
      let* now := id_now in
      let* _ := ProtectStorageIdentity name in
      let* _ := PutIdentity (first_record name key now) in
      io_ret true
  end.

(** ** trustStore *)

Definition SaveIdentityKey_ (s : serviceStore) (id : ServiceID) (identityKey : IdentityKey) : M bool :=
  let* key := io_of (wrap (key_Serialize identityKey)) in
  let* known := knownKey s id in
  let* replaced := signal_write (SaveIdentityKey s id identityKey) in
  let* _ := observe id key known in
  io_ret replaced.

Definition IsTrustedIdentity (s : serviceStore) (id : ServiceID) (identityKey : IdentityKey) (receiving : bool) : M bool :=
  if receiving then io_ret true
  else
    let* key := io_of (wrap (key_Serialize identityKey)) in
    let* known := knownKey s id in
    observe id key known.

(** ** Reporting changes *)

Definition identityChangedEvent (rec : IdentityRecord) : option Event :=
  match ServiceIDFromString (ir_ServiceID rec) with
  | Err _ => None
  | Ok id => Some (EvIdentityChanged (serviceRecipient id) (fingerprint (ir_PreviousKey rec))
                     (fingerprint (ir_Key rec)) (ir_ChangedAt rec))
  end.

Definition emit_event (evt : Event) : M bool := fun w =>
  if takes (iw_emitted w) then
    (Ok true, mkIdWorld (iw_db w) (iw_faults w) (iw_now w) (iw_tokens w) (iw_pending w) (iw_emitted w ++ [evt]))
  else (Ok false, w).

Fixpoint report_records (records : list IdentityRecord) : M bool :=
  match records with
  | [] => io_ret true
  | rec :: rest =>
      let* taken := match identityChangedEvent rec with Some evt => emit_event evt | None => io_ret true end in
      if negb taken then let* _ := set_pending true in io_ret false
      else
        let* _ := io_try (MarkIdentityReported (ir_ServiceID rec) (ir_Key rec)) in
        report_records rest
  end.

Definition report : M bool := fun w =>
  if negb (iw_pending w) then (Ok true, w)
  else
    (let* _ := set_pending false in
     let* records := io_try PendingIdentityChanges in
     match records with
     | Err _ => let* _ := set_pending true in io_ret true
     | Ok records => report_records records
     end) w.

(** ** How the operations change the world *)

Lemma run_select {A} (f : iddb P -> A) w :
  select f w = if faulty w then (Err (Wrap [Opaque "database"]), tick w) else (Ok (f (iw_db w)), with_db (fun _ => iw_db w) (tick w)).
Proof. done. Qed.

Lemma run_exec (f : iddb P -> iddb P) w :
  exec f w = if faulty w then (Err (Wrap [Opaque "database"]), tick w) else (Ok tt, with_db (fun _ => f (iw_db w)) (tick w)).
Proof. done. Qed.

(** What removing sessions leaves alone: everything but signalmeow's sessions. *)
Definition same_but_sessions (w w' : idworld P) : Prop :=
  exists p, w' = with_db (with_signal p) w /\ identity_keys p = identity_keys (db_signal (iw_db w)).

Lemma same_but_sessions_refl w : same_but_sessions w w.
Proof. exists (db_signal (iw_db w)). by destruct w as [[] ? ? ? ? ?]. Qed.

Lemma same_but_sessions_trans w1 w2 w3 :
  same_but_sessions w1 w2 -> same_but_sessions w2 w3 -> same_but_sessions w1 w3.
Proof. intros (p & -> & Hp) (q & -> & Hq). exists q. split; [done|]. cbn in *. congruence. Qed.

Context {SL : SignalLaws P S}.

Lemma remove_tuples_frame s key tuples n w r w' :
  remove_tuples s key tuples n w = (r, w') -> same_but_sessions w w'.
Proof.
  revert n w. induction tuples as [|[a rec] rest IH]; intros n w; cbn; [intros [= _ <-]; apply same_but_sessions_refl|].
  destruct (stale_session key rec); [|apply IH].
  unfold io_bind, io_try, signal_write. destruct (RemoveSession s a (db_signal (iw_db w))) as [q p'] eqn:Hr.
  apply RemoveSession_keys in Hr.
  assert (Hs : same_but_sessions w (with_db (with_signal p') w)) by (by exists p').
  destruct q; [|intros [= _ <-]; done]. intros H. eapply same_but_sessions_trans; [exact Hs|by eapply IH].
Qed.

Lemma removeStaleSessions_frame stores id key w r w' :
  removeStaleSessions stores id key w = (r, w') -> same_but_sessions w w'.
Proof.
  unfold removeStaleSessions. generalize 0 as n. revert w. induction stores as [|[s|] stores IH]; intros w n; cbn.
  - intros [= _ <-]. apply same_but_sessions_refl.
  - unfold io_bind, io_try, signal_read. destruct (AllSessionsForServiceID s id (db_signal (iw_db w))) as [ts|e].
    + destruct (remove_tuples s key ts n w) as [q w1] eqn:E. apply remove_tuples_frame in E. destruct q.
      * intros H. eapply same_but_sessions_trans; [exact E|by eapply IH].
      * by intros [= _ <-].
    + intros [= _ <-]. apply same_but_sessions_refl.
  - apply IH.
Qed.

(** The record a key is checked against: ours, else signalmeow's key, trusted on first use. *)
Definition effective (db : iddb P) (name : string) (known : option string) : option IdentityRecord :=
  match db_identities db !! name with
  | Some row => Some (scanIdentity name row)
  | None => legacy_record name <$> known
  end.

(** What [observe] never touches: other records, the queue, the meta data, the keys, the events. *)
Definition observe_frame (name : string) (w w' : idworld P) : Prop :=
  (forall n, n <> name -> db_identities (iw_db w') !! n = db_identities (iw_db w) !! n
                       /\ db_observed (iw_db w') !! n = db_observed (iw_db w) !! n)
  /\ db_queue (iw_db w') = db_queue (iw_db w) /\ db_meta (iw_db w') = db_meta (iw_db w)
  /\ identity_keys (db_signal (iw_db w')) = identity_keys (db_signal (iw_db w))
  /\ iw_now w' = iw_now w /\ iw_tokens w' = iw_tokens w /\ iw_emitted w' = iw_emitted w.

Definition dirty (db : iddb P) (name : string) : Prop :=
  exists o, db_observed db !! name = Some o /\ si_Dirty o = true.

(** What an observation of [key] by [w -> w'] answered and stored. *)
Definition observed (id : ServiceID) (key : string) (known : option string) (w : idworld P) (r : res bool) (w' : idworld P) : Prop :=
  let name := ServiceID_String id in
  match r, effective (iw_db w) name known with
  | Err _, _ => db_identities (iw_db w') = db_identities (iw_db w) /\ iw_pending w' = iw_pending w
  | Ok b, None =>
      b = true /\ db_identities (iw_db w') = <[name := row_of (first_record name key (iw_now w))]> (db_identities (iw_db w))
      /\ dirty (iw_db w') name /\ iw_pending w' = iw_pending w
  | Ok b, Some rec =>
      if bool_decide (ir_Key rec = key) then
        b = Trusted (ParseTrustLevel (ir_Trust rec)) /\ iw_db w' = iw_db w /\ iw_pending w' = iw_pending w
      else
        b = false
        /\ db_identities (iw_db w') = <[name := row_of (changed_record rec key (iw_now w))]> (db_identities (iw_db w))
        /\ dirty (iw_db w') name /\ iw_pending w' = true
  end.

Lemma observe_change_run id rec key w r w' :
  ir_ServiceID rec = ServiceID_String id -> observe_change id rec key w = (r, w') ->
  observe_frame (ServiceID_String id) w w'
  /\ match r with
     | Err _ => db_identities (iw_db w') = db_identities (iw_db w) /\ iw_pending w' = iw_pending w
     | Ok b => if bool_decide (ir_Key rec = key) then b = Trusted (ParseTrustLevel (ir_Trust rec)) /\ w' = w
               else b = false
                 /\ db_identities (iw_db w') = <[ServiceID_String id := row_of (changed_record rec key (iw_now w))]> (db_identities (iw_db w))
                 /\ dirty (iw_db w') (ServiceID_String id) /\ iw_pending w' = true
     end.
Proof.
  intros Hname. unfold observe_change. set (name := ServiceID_String id) in *.
  case_bool_decide as Hk; [intros [= <- <-]; by split|].
  unfold io_bind, ProtectStorageIdentity, PutIdentity, id_now, io_try, set_pending. rewrite !run_exec.
  destruct (faulty w); [intros [= <- <-]; by split|].
  cbn beta iota zeta. rewrite run_exec. destruct (faulty _).
  - intros [= <- <-]. split; [|done]. split; [|done]. intros n Hn. split; [done|]. cbn. by rewrite lookup_insert_ne.
  - match goal with |- context [removeStaleSessions _ _ _ ?w1] => destruct (removeStaleSessions device_sessions id key w1) as [q w2] eqn:Hr end.
    apply removeStaleSessions_frame in Hr as (p & -> & Hp). intros [= <- <-]. cbn in Hp |- *. rewrite Hname. split.
    + split; [|done]. intros n Hn. cbn. by rewrite !lookup_insert_ne.
    + split_and!; [done|done| |done]. eexists. cbn. rewrite lookup_insert_eq. split; [done|].
      by destruct (db_observed (iw_db w) !! name).
Qed.

Lemma observe_key_run id key known w r w' : observe id key known w = (r, w') ->
  observe_frame (ServiceID_String id) w w' /\ observed id key known w r w'.
Proof.
  unfold observe, Identity, observed, effective. set (name := ServiceID_String id).
  unfold io_bind at 1. rewrite run_select.
  destruct (faulty w); [intros [= <- <-]; by split|].
  replace (with_db (fun _ => iw_db w) (tick w)) with (tick w) by done.
  destruct (db_identities (iw_db w) !! name) as [row|] eqn:Hrow; [|destruct known as [known|]]; cbn -[observe_change observe_frame].
  1,2: intros H; apply observe_change_run in H as [Hf H]; [|done]; fold name in Hf, H; (split; [exact Hf|]);
    destruct r as [b|e]; [|exact H]; cbn [ir_Key ir_Trust scanIdentity legacy_record] in H;
    match type of H with (if ?c then _ else _) => destruct c end; [destruct H as [-> ->]; done|exact H].
  unfold io_bind, id_now, ProtectStorageIdentity, PutIdentity. rewrite run_exec.
  destruct (faulty (tick w)); [intros [= <- <-]; by split|]. cbn beta iota zeta. rewrite run_exec.
  destruct (faulty _); intros [= <- <-].
  - split; [|done]. split; [|done]. intros n Hn. split; [done|]. cbn. by rewrite lookup_insert_ne.
  - split; [split; [|done]|].
    + intros n Hn. cbn. by rewrite !lookup_insert_ne.
    + split_and!; [done|done| |done]. eexists. cbn. rewrite lookup_insert_eq. split; [done|].
      by destruct (db_observed (iw_db w) !! name).
Qed.

(** signalmeow's key of a user, and the record a key is checked against. *)
Definition protocol_key (db : iddb P) (id : ServiceID) : option string :=
  identity_keys (db_signal db) !! (uuid_string dev_ACI, ServiceID_String id).
Definition current_identity (db : iddb P) (id : ServiceID) : option IdentityRecord :=
  effective db (ServiceID_String id) (protocol_key db id).

Lemma knownKey_run s id w r w' : knownKey s id w = (r, w') ->
  w' = w /\ forall known, r = Ok known -> known = protocol_key (iw_db w) id.
Proof.
  unfold knownKey, signal_read, io_bind. destruct (GetIdentityKey s id (db_signal (iw_db w))) as [known|e] eqn:Hg; [|by intros [= <- <-]].
  apply GetIdentityKey_law in Hg. destruct known as [K|]; cbn; [|intros [= <- <-]; split; [done|by intros ? [= <-]]].
  unfold io_of, wrap. destruct (key_Serialize K) as [k|e] eqn:Hk; intros [= <- <-]; (split; [done|]); intros ? [= <-].
  symmetry. by apply Hg.
Qed.

Lemma IsTrustedIdentity_run s id K k w r w' :
  key_Serialize K = Ok k -> IsTrustedIdentity s id K false w = (r, w') ->
  observe_frame (ServiceID_String id) w w' /\ observed id k (protocol_key (iw_db w) id) w r w'.
Proof.
  intros Hk. unfold IsTrustedIdentity, io_bind, io_of, wrap. rewrite Hk.
  destruct (knownKey s id w) as [q w1] eqn:Hkn. apply knownKey_run in Hkn as [-> Hkn].
  destruct q as [known|e]; [|by intros [= <- <-]]. rewrite (Hkn known) by done. apply observe_key_run.
Qed.

(** What saving a key does to the records: an observation, or nothing if a step before it failed. *)
Lemma SaveIdentityKey_run s id K w r w' :
  SaveIdentityKey_ s id K w = (r, w') ->
  db_identities (iw_db w') = db_identities (iw_db w)
  \/ exists k q w1, key_Serialize K = Ok k /\ db_identities (iw_db w1) = db_identities (iw_db w)
       /\ db_queue (iw_db w1) = db_queue (iw_db w)
       /\ observe_frame (ServiceID_String id) w1 w' /\ observed id k (protocol_key (iw_db w) id) w1 q w'.
Proof.
  unfold SaveIdentityKey_, io_bind, io_of, wrap. destruct (key_Serialize K) as [k|e] eqn:Hk; [|intros [= <- <-]; by left].
  destruct (knownKey s id w) as [q w1] eqn:Hkn. apply knownKey_run in Hkn as [-> Hkn].
  destruct q as [known|e]; [|intros [= <- <-]; by left]. rewrite (Hkn known) by done.
  unfold signal_write. destruct (SaveIdentityKey s id K (db_signal (iw_db w))) as [q p] eqn:Hs.
  destruct q as [b|e]; [|intros [= <- <-]; by left].
  destruct (observe id k _ _) as [q w2] eqn:Ho. apply observe_key_run in Ho as [Hf Ho].
  intros Hend. assert (w2 = w') as -> by (destruct q; by injection Hend).
  right. eexists k, q, _. split_and!; [done| | |exact Hf|exact Ho]; done.
Qed.

(** ** Only the current, trusted key *)

Lemma scan_row_Key name row : ir_Key (scanIdentity name row) = row_identity_key row.
Proof. done. Qed.

Lemma current_identity_row db id row : db_identities db !! ServiceID_String id = Some row ->
  current_identity db id = Some (scanIdentity (ServiceID_String id) row).
Proof. unfold current_identity, effective. by intros ->. Qed.

(** Trust on first use. When libsignal asks whether it may encrypt for a key, the answer is yes
    only if the key is the user's current one afterwards and trusted, and before the call it
    was so already or no key of the user was known at all. A no means the current key is now
    this one, untrusted. A key other than the known one is always refused, even the one trusted
    before the last change: the record becomes untrusted with the key last trusted kept, the
    change is marked for an event, and contact storage may not override it. For receiving the
    answer is always yes and changes nothing. *)
Theorem IsTrustedIdentity_spec s id K k w r w' :
  key_Serialize K = Ok k -> IsTrustedIdentity s id K false w = (r, w') ->
  let cur := current_identity (iw_db w) id in
  let cur' := current_identity (iw_db w') id in
  (r = Ok true ->
     (cur = None \/ exists rec, cur = Some rec /\ ir_Key rec = k /\ Trusted (ParseTrustLevel (ir_Trust rec)) = true)
     /\ exists rec', cur' = Some rec' /\ ir_Key rec' = k /\ Trusted (ParseTrustLevel (ir_Trust rec')) = true)
  /\ (r = Ok false -> exists rec', cur' = Some rec' /\ ir_Key rec' = k /\ Trusted (ParseTrustLevel (ir_Trust rec')) = false)
  /\ (forall rec, cur = Some rec -> ir_Key rec <> k -> is_ok r = true ->
       r = Ok false /\ iw_pending w' = true /\ dirty (iw_db w') (ServiceID_String id)
       /\ exists rec', cur' = Some rec' /\ ir_Trust rec' = TrustLevel_String TrustUntrusted /\ ir_PendingEvent rec' = true
            /\ ir_PreviousKey rec' = (if Trusted (ParseTrustLevel (ir_Trust rec)) then ir_Key rec else ir_PreviousKey rec))
  /\ IsTrustedIdentity s id K true w = (Ok true, w).
Proof.
  intros Hk H cur cur'. apply (IsTrustedIdentity_run _ _ _ _ _ _ _ Hk) in H as [Hf H].
  unfold observed in H. fold (current_identity (iw_db w) id) in H. fold cur in H.
  destruct r as [b|e]; [|split_and!; done].
  destruct cur as [rec|] eqn:Hcur.
  - case_bool_decide as Hkey.
    + destruct H as (-> & Hdb & _).
      assert (Hcur' : cur' = Some rec) by (unfold cur'; by rewrite Hdb).
      split_and!; [| | |done].
      * intros [= Ht]. split; [right|]; exists rec; split_and!; congruence.
      * intros [= Ht]. exists rec. split_and!; congruence.
      * intros ? [= <-]. done.
    + destruct H as (-> & Hdb & Hdirty & Hp).
      assert (Hcur' : cur' = Some (scanIdentity (ServiceID_String id) (row_of (changed_record rec k (iw_now w))))).
      { apply current_identity_row. by rewrite Hdb, lookup_insert_eq. }
      split_and!; [done| | |done].
      * intros _. eexists. split; [exact Hcur'|]. done.
      * intros ? [= <-] _ _. split_and!; [done..|]. eexists. split; [exact Hcur'|]. done.
  - destruct H as (-> & Hdb & _).
    assert (Hcur' : cur' = Some (scanIdentity (ServiceID_String id) (row_of (first_record (ServiceID_String id) k (iw_now w))))).
    { apply current_identity_row. by rewrite Hdb, lookup_insert_eq. }
    split_and!; [|done|done|done]. intros _. split; [by left|]. eexists. split; [exact Hcur'|done].
Qed.

(** *** Any number of observations *)

Inductive observation :=
  | OSave (s : serviceStore) (id : ServiceID) (K : IdentityKey)
  | OTrusted (s : serviceStore) (id : ServiceID) (K : IdentityKey) (receiving : bool)
  | OReport.

Definition run_observation (o : observation) (w : idworld P) : idworld P :=
  match o with
  | OSave s id K => snd (SaveIdentityKey_ s id K w)
  | OTrusted s id K receiving => snd (IsTrustedIdentity s id K receiving w)
  | OReport => snd (report w)
  end.

Definition run_observations (os : list observation) (w : idworld P) : idworld P := foldl (fun w o => run_observation o w) w os.

(** What becomes of a record: the same key at the same level, or an untrusted key. *)
Definition not_raised (row row' : identity_row) : Prop :=
  (row_identity_key row' = row_identity_key row /\ row_trust row' = row_trust row)
  \/ row_trust row' = TrustLevel_String TrustUntrusted.

Lemma not_raised_trans r1 r2 r3 : not_raised r1 r2 -> not_raised r2 r3 -> not_raised r1 r3.
Proof. unfold not_raised. intros [[? ?]|?] [[? ?]|?]; intuition congruence. Qed.

Lemma observed_row id k known w q w' name row :
  observe_frame (ServiceID_String id) w w' -> observed id k known w q w' ->
  db_identities (iw_db w) !! name = Some row ->
  exists row', db_identities (iw_db w') !! name = Some row' /\ not_raised row row'.
Proof.
  intros [Hn _] Ho Hrow. assert (Hsame : not_raised row row) by (by left).
  destruct (decide (name = ServiceID_String id)) as [->|Hne]; [|exists row; by rewrite (proj1 (Hn _ Hne))].
  unfold observed, effective in Ho. rewrite Hrow in Ho. destruct q as [b|e]; [|exists row; destruct Ho as [-> _]; done].
  case_bool_decide.
  - destruct Ho as (_ & -> & _). by exists row.
  - destruct Ho as (_ & -> & _). rewrite lookup_insert_eq. eexists. split; [done|]. by right.
Qed.

(** *** Reporting *)

Definition pending_changes (db : iddb P) : list IdentityRecord :=
  (fun x => scanIdentity x.1 x.2)
    <$> sort_by changed_before (filter (fun x => row_pending_event x.2 = true) (map_to_list (db_identities db))).

(** A row after [report]: at most its pending mark is gone. *)
Definition at_most_reported (rows rows' : gmap string identity_row) (names : list string) : Prop :=
  forall n, rows' !! n = rows !! n \/ (n ∈ names /\ rows' !! n = reported <$> (rows !! n)).

Lemma reported_idemp row : reported (reported row) = reported row.
Proof. done. Qed.

Lemma at_most_reported_trans rows1 rows2 rows3 l1 l2 :
  at_most_reported rows1 rows2 l1 -> at_most_reported rows2 rows3 l2 -> at_most_reported rows1 rows3 (l1 ++ l2).
Proof.
  intros H1 H2 n. destruct (H1 n) as [E1|[Hn1 E1]], (H2 n) as [E2|[Hn2 E2]]; rewrite E2, E1.
  - by left.
  - right. split; [apply elem_of_app; by right|done].
  - right. split; [apply elem_of_app; by left|done].
  - right. split; [apply elem_of_app; by left|]. by destruct (rows1 !! n).
Qed.

Lemma mark_reported_run name key (w : idworld P) r w' : MarkIdentityReported name key w = (r, w') ->
  at_most_reported (db_identities (iw_db w)) (db_identities (iw_db w')) [name]
  /\ iw_emitted w' = iw_emitted w /\ iw_pending w' = iw_pending w /\ iw_faults w' = tail (iw_faults w)
  /\ (iw_faults w = [] -> forall row, db_identities (iw_db w') !! name = Some row -> row_identity_key row = key -> row_pending_event row = false).
Proof.
  unfold MarkIdentityReported. rewrite run_exec. destruct (faulty w) eqn:Hf; intros [= <- <-]; (split; [|split_and!; [done..|]]).
  - intros n. by left.
  - intros Hno. unfold faulty in Hf. by rewrite Hno in Hf.
  - intros n. cbn. destruct (decide (n = name)) as [->|Hn]; [|left; by rewrite lookup_alter_ne].
    rewrite lookup_alter_eq. destruct (db_identities (iw_db w) !! name) as [row|]; [|by left]. cbn.
    case_bool_decide; [|by left]. right. split; [by left|done].
  - intros _ row. cbn. rewrite lookup_alter_eq. destruct (db_identities (iw_db w) !! name) as [row0|]; [|done]. cbn.
    case_bool_decide as Hk; intros [= <-]; done.
Qed.

(** The loop takes the records in order until an event is not taken. *)
Lemma report_records_run records w r w' : report_records records w = (r, w') ->
  exists done rest b, records = done ++ rest /\ r = Ok b /\ (b = true <-> rest = [])
    /\ iw_emitted w' = iw_emitted w ++ omap identityChangedEvent done
    /\ (rest = [] -> iw_pending w' = iw_pending w) /\ (rest <> [] -> iw_pending w' = true)
    /\ at_most_reported (db_identities (iw_db w)) (db_identities (iw_db w')) (ir_ServiceID <$> done)
    /\ (iw_faults w = [] -> forall rec row, rec ∈ done -> db_identities (iw_db w') !! ir_ServiceID rec = Some row ->
          row_identity_key row = ir_Key rec -> row_pending_event row = false).
Proof.
  revert w. induction records as [|rec records IH]; intros w.
  - intros [= <- <-]. exists [], [], true. split_and!; try done.
    + by rewrite app_nil_r.
    + intros n. by left.
    + intros _ rec row Hin. by apply elem_of_nil in Hin.
  - cbn [report_records]. unfold io_bind at 1.
    set (taking := match identityChangedEvent rec with Some evt => emit_event evt | None => io_ret true end).
    assert (Ht : (taking w = (Ok false, w))
      \/ exists w1, taking w = (Ok true, w1) /\ iw_emitted w1 = iw_emitted w ++ option_list (identityChangedEvent rec)
          /\ iw_db w1 = iw_db w /\ iw_faults w1 = iw_faults w /\ iw_pending w1 = iw_pending w).
    { unfold taking. destruct (identityChangedEvent rec) as [evt|].
      - unfold emit_event. destruct (takes _); [right; eexists; split; [done|done]|by left].
      - right. exists w. cbn. by rewrite app_nil_r. }
    destruct Ht as [-> | (w1 & -> & He & Hdb & Hf & Hp)].
    { cbn. intros [= <- <-]. exists [], (rec :: records), false. split_and!; try done.
      + by rewrite app_nil_r.
      + intros n. by left.
      + intros _ r row Hin. by apply elem_of_nil in Hin. }
    cbn [negb]. unfold io_bind, io_try. destruct (MarkIdentityReported (ir_ServiceID rec) (ir_Key rec) w1) as [q w2] eqn:Hm.
    apply mark_reported_run in Hm as (Hrows & He2 & Hp2 & Hf2 & Hclear). intros H.
    apply IH in H as (done & rest & b & -> & -> & Hb & He3 & Hp3 & Hp3' & Hrows3 & Hclear3).
    exists (rec :: done), rest, b. split_and!; try done.
    + rewrite He3, He2, He. cbn. destruct (identityChangedEvent rec); cbn; by rewrite <- app_assoc.
    + intros Hr. rewrite Hp3 by done. congruence.
    + rewrite Hdb in Hrows. by apply (at_most_reported_trans _ _ _ [ir_ServiceID rec] _ Hrows).
    + intros Hno x row Hx Hrow Hk. rewrite Hf in Hf2. apply elem_of_cons in Hx as [->|Hx].
      * destruct (Hrows3 (ir_ServiceID rec)) as [E|[_ E]]; rewrite Hrow in E.
        -- apply Hclear; [by rewrite Hf|done|done].
        -- destruct (db_identities (iw_db w2) !! ir_ServiceID rec); [by injection E as ->|done].
      * apply (Hclear3 ltac:(by rewrite Hf2, Hno) x); done.
Qed.

(** [report] hands the pending identity changes to [Events] in the order they happened and
    clears their marks. It stops at the first one the channel does not take: then it says so, and
    that change and all later ones stay pending, with the flag set for the next call. A failing
    read leaves every change for the next call too. Nothing but pending marks of records handed
    over changes, and without database faults all of those are cleared. *)
Theorem report_spec w r w' : report w = (r, w') ->
  (iw_pending w = false /\ r = Ok true /\ w' = w)
  \/ (exists done rest b, iw_pending w = true /\ pending_changes (iw_db w) = done ++ rest /\ r = Ok b
       /\ (b = false -> rest <> []) /\ (rest <> [] -> iw_pending w' = true)
       /\ iw_emitted w' = iw_emitted w ++ omap identityChangedEvent done
       /\ at_most_reported (db_identities (iw_db w)) (db_identities (iw_db w')) (ir_ServiceID <$> done)
       /\ (iw_faults w = [] -> (b = true <-> rest = [])
            /\ forall rec row, rec ∈ done -> db_identities (iw_db w') !! ir_ServiceID rec = Some row ->
                 row_identity_key row = ir_Key rec -> row_pending_event row = false)).
Proof.
  unfold report. destruct (iw_pending w) eqn:Hpend; cbn [negb]; [|intros [= <- <-]; by left].
  intros H. right. unfold io_bind at 1 in H. cbn [set_pending] in H. unfold io_bind at 1, io_try in H.
  unfold PendingIdentityChanges in H. rewrite run_select in H.
  destruct (faulty _) eqn:Hf.
  - cbn in H. injection H as <- <-. exists [], (pending_changes (iw_db w)), true.
    split_and!; try done.
    + cbn. by rewrite app_nil_r.
    + intros n. by left.
    + intros Hno. unfold faulty in Hf. cbn in Hf. by rewrite Hno in Hf.
  - apply report_records_run in H as (done & rest & b & Hd & -> & Hb & He & _ & Hp & Hrows & Hclear).
    exists done, rest, b. split_and!; [done|exact Hd|done| |exact Hp|exact He|exact Hrows|].
    + intros -> ->. by pose proof (proj2 Hb eq_refl).
    + intros Hno. split; [done|]. apply Hclear. cbn. by rewrite Hno.
Qed.

Lemma report_rows w r w' n : report w = (r, w') ->
  db_identities (iw_db w') !! n = db_identities (iw_db w) !! n
  \/ db_identities (iw_db w') !! n = reported <$> db_identities (iw_db w) !! n.
Proof.
  unfold report. destruct (iw_pending w); cbn [negb]; [|intros [= _ <-]; by left].
  unfold io_bind at 1. cbn [set_pending]. unfold io_bind at 1, io_try, PendingIdentityChanges. rewrite run_select.
  destruct (faulty _); [intros [= _ <-]; by left|]. intros H.
  apply report_records_run in H as (dn & rest & b & _ & _ & _ & _ & _ & _ & Hrows & _).
  destruct (Hrows n) as [E|[_ E]]; [by left|by right].
Qed.

Lemma run_observation_row o w name row :
  db_identities (iw_db w) !! name = Some row ->
  exists row', db_identities (iw_db (run_observation o w)) !! name = Some row' /\ not_raised row row'.
Proof.
  intros Hrow. assert (Hsame : not_raised row row) by (by left). destruct o as [s id K|s id K receiving|]; unfold run_observation.
  - destruct (SaveIdentityKey_ s id K w) as [r w'] eqn:H. cbn.
    apply SaveIdentityKey_run in H as [->|(k & q & w1 & _ & Hrows & _ & Hf & Ho)]; [by exists row|].
    eapply observed_row; [exact Hf|exact Ho|by rewrite Hrows].
  - destruct receiving; [by exists row|]. destruct (key_Serialize K) as [k|e] eqn:Hk.
    + destruct (IsTrustedIdentity s id K false w) as [r w'] eqn:H. apply (IsTrustedIdentity_run _ _ _ _ _ _ _ Hk) in H as [Hf Ho].
      by eapply observed_row.
    + exists row. cbn. unfold io_bind, io_of, wrap. by rewrite Hk.
  - destruct (report w) as [r w'] eqn:H. cbn. destruct (report_rows _ _ _ name H) as [E|E]; rewrite E, Hrow; [by exists row|].
    exists (reported row). split; [done|by left].
Qed.

(** C32. Observing never raises trust. Whatever keys libsignal saves or asks about, in any order and
    with any failures of the database, and however often changes are reported, a user's record
    keeps its key and level or becomes untrusted: a changed key is never trusted by itself, and an
    untrusted one stays so. *)
Theorem observations_never_trust os w name row :
  db_identities (iw_db w) !! name = Some row ->
  exists row', db_identities (iw_db (run_observations os w)) !! name = Some row' /\
    ((row_identity_key row' = row_identity_key row /\ row_trust row' = row_trust row)
     \/ row_trust row' = TrustLevel_String TrustUntrusted).
Proof.
  revert w row. induction os as [|o os IH]; intros w row Hrow; [exists row; split; [done|by left]|].
  destruct (run_observation_row o w name row Hrow) as (row1 & Hrow1 & H1).
  destruct (IH _ _ Hrow1) as (row2 & Hrow2 & H2). exists row2. split; [exact Hrow2|].
  by apply (not_raised_trans _ row1).
Qed.
End trust.
