(* ===== verification/IdentityClient.v ===== *)
(** * Trust decisions of the client (internal/signal/meow_identity*.go)

    Who decides to trust a key: the user ([TrustIdentity]), another device of the account
    ([handleIdentityVerification]), the account's contact storage ([reconcileStorageIdentities]).
    Local decisions wait in a queue until the linked devices got them ([flushIdentityVerification]). *)

From S2P Require Import Prelude Errors Uuid Utf8 Strconv Types GroupChange Identity IdentityStore Protowire IdentityTrust.

(** ** Data *)

(** [signal.Identity] and [storedIdentity]. *)
Record SignalIdentity := mkSignalIdentity {
  id_Recipient : Recipient; id_Fingerprint : string; id_Trust : TrustLevel; id_FirstSeen : time; id_ChangedAt : time }.
Record storedIdentity := mkStoredIdentity { sti_Identity : SignalIdentity; sti_key : string; sti_record : IdentityRecord }.

(** The states of signalpb.Verified and signalpb.ContactRecord: the three known values. *)
Inductive verified_state := StDEFAULT | StVERIFIED | StUNVERIFIED | StOther (n : Z).

#[export] Instance verified_state_eq_dec : EqDecision verified_state.
Proof. solve_decision. Defined.

Definition state_level (s : verified_state) : option TrustLevel :=
  match s with
  | StDEFAULT => Some TrustUnverified
  | StVERIFIED => Some TrustVerified
  | StUNVERIFIED => Some TrustUntrusted
  | StOther _ => None
  end.

(** The sync message about a verified identity. *)
Record VerifiedMessage := mkVerifiedMessage { vm_DestinationAci : string; vm_IdentityKey : string; vm_State : verified_state }.

Record ContactRecord := mkContactRecord {
  cr_Aci : string; cr_AciBinary : string; cr_IdentityKey : string; cr_IdentityState : verified_state }.

(** libsignal's fingerprints and signalmeow's contact IDs. *)
Class FingerprintLib {U : UuidLib} := {
  PublicKey : Type; Fingerprint : Type;
  DeserializePublicKey : string -> res PublicKey;
  own_public_key : PublicKey;
  ServiceID_Bytes : ServiceID -> string;
  NewFingerprint : Z -> Z -> string -> PublicKey -> string -> PublicKey -> res Fingerprint;
  DisplayString : Fingerprint -> res string;
  ScannableEncoding : Fingerprint -> res string;
  ParseStringOrBinaryUUID : string -> string -> option uuid;
  uuid_FromBytes : string -> option uuid;
}.

Section client.
Context {U : UuidLib} {W : Protowire} {P : Type} {S : SignalTables P} {F : FingerprintLib}.

Notation M := (io (idworld P) err).

Record contactIdentity := mkContactIdentity { ci_aci : uuid; ci_key : string; ci_level : TrustLevel }.

(** [nil], or the version, the records signalmeow could not read and the contacts it read. *)
Record StorageUpdate := mkStorageUpdate {
  su_Version : Z; su_MissingRecords : list string; su_NewRecords : list (option (option ContactRecord)) }.

Record IdentityVerification := mkIdentityVerification { iv_ACI : uuid; iv_IdentityKey : string; iv_State : verified_state }.

(** The client around the database: whether it is closing, what loading the device answers,
    whether it is connected, and sending a sync message, which may take long enough for anything
    to happen to the database in the meantime. *)
Context (closing : bool) (deviceError : error) (connected : bool) (lockError : error)
        (send : VerifiedMessage -> M unit).

Definition check (e : error) : M unit := match e with None => io_ret tt | Some e => io_err e end.

(** A database transaction: an error, also of the commit, undoes its statements. *)
Definition rollback (w w' : idworld P) : idworld P :=
  mkIdWorld (iw_db w) (iw_faults w') (iw_now w') (iw_tokens w') (iw_pending w') (iw_emitted w').
Definition DoDecryptionTxn {A} (body : M A) : M A := fun w =>
  match body w with
  | (Ok a, w') => if faulty w' then (Err (Wrap [Opaque "commit"]), rollback w (tick w')) else (Ok a, tick w')
  | (Err e, w') => (Err e, rollback w w')
  end.

Definition new_token : M string := fun w =>
  (Ok (default ""%string (head (iw_tokens w))),
   mkIdWorld (iw_db w) (iw_faults w) (iw_now w) (tail (iw_tokens w)) (iw_pending w) (iw_emitted w)).

(** ** Listing *)

Definition ownACI : string := uuid_string dev_ACI.
Definition ownPNI : string := ServiceID_String (NewPNIServiceID dev_PNI).

(** [aciServiceID] (meow_send.go). *)
Definition aciServiceID (rcpt : Recipient) : res ServiceID :=
  if ACI rcpt == ""%string then Err (errorf ErrUnresolvable)
  else match uuid_parse (ACI rcpt) with
       | None => Err (errorf ErrUnresolvable)
       | Some aci => Ok (NewACIServiceID aci)
       end.

Definition identityServiceID (rcpt : Recipient) : res ServiceID :=
  if ACI rcpt != ""%string then aciServiceID rcpt
  else match uuid_parse (PNI rcpt) with
       | None => Err (errorf ErrUnresolvable)
       | Some pni => if pni == uuid_nil then Err (errorf ErrUnresolvable) else Ok (NewPNIServiceID pni)
       end.

Definition mergeRecipient (stored rcpt : Recipient) : Recipient :=
  mkRecipient (ACI stored) (PNI stored)
    (if Number stored == ""%string then Number rcpt else Number stored)
    (if Username stored == ""%string then Username rcpt else Username stored).

Definition id_merged (s : storedIdentity) (rcpt : Recipient) : storedIdentity :=
  let i := sti_Identity s in
  mkStoredIdentity (mkSignalIdentity (mergeRecipient (id_Recipient i) rcpt) (id_Fingerprint i) (id_Trust i)
                      (id_FirstSeen i) (id_ChangedAt i)) (sti_key s) (sti_record s).

Definition stored_identity (id : ServiceID) (rec : IdentityRecord) : storedIdentity :=
  mkStoredIdentity (mkSignalIdentity (serviceRecipient id) (fingerprint (ir_Key rec)) (ParseTrustLevel (ir_Trust rec))
                      (ir_FirstSeen rec) (ir_ChangedAt rec)) (ir_Key rec) rec.

(** [byID]: the records over the bare keys. *)
Definition merged_records (records : list IdentityRecord) (keys : gmap string string) : gmap string IdentityRecord :=
  list_to_map ((fun rec => (ir_ServiceID rec, rec)) <$> records) ∪ map_imap (fun id key => Some (legacy_record id key)) keys.

Definition others (x : string * IdentityRecord) : option storedIdentity :=
  match ServiceIDFromString x.1 with
  | Err _ => None
  | Ok id => if (x.1 == ownACI) || (x.1 == ownPNI) then None else Some (stored_identity id x.2)
  end.

Definition id_name (s : storedIdentity) : string := Recipient_String (id_Recipient (sti_Identity s)).

Definition identities : M (list storedIdentity) :=
  let* records := Identities in
  let* keys := StoredIdentityKeys ownACI in
  io_ret (sort_by (fun a b => String.leb (id_name a) (id_name b))
            (omap others (map_to_list (merged_records records keys)))).

Definition identityOf (rcpt : Recipient) : M storedIdentity :=
  let* serviceID := io_of (identityServiceID rcpt) in
  let* all := identities in
  match head (filter (fun s => id_name s = ServiceID_String serviceID) all) with
  | None => io_err (errorf ErrUnknownIdentity)
  | Some s => io_ret (id_merged s rcpt)
  end.

(** [Client.Identities]; [None] asks for all of them. *)
Definition ClientIdentities (rcpt : option Recipient) : M (list SignalIdentity) :=
  if closing then io_err (Sent ErrClosed)
  else
    let* _ := check deviceError in
    let* filter_ := match rcpt with
                    | None => io_ret ""%string
                    | Some r => let* id := io_of (identityServiceID r) in io_ret (ServiceID_String id)
                    end in
    let* all := identities in
    io_ret (omap (fun stored =>
      if filter_ == ""%string then Some (sti_Identity stored)
      else if id_name stored == filter_
           then Some (sti_Identity (id_merged stored (default zeroRecipient rcpt)))
           else None) all).

(** ** Safety numbers *)

Definition fingerprintIterations : Z := 5200.
Definition fingerprintVersion : Z := 2.

Definition computeServiceSafetyNumber (theirID : ServiceID) (theirKey : string) : res (string * string) :=
  match DeserializePublicKey theirKey with
  | Err e => Err (Wrap [e])
  | Ok remote =>
      match NewFingerprint fingerprintIterations fingerprintVersion (ServiceID_Bytes (NewACIServiceID dev_ACI)) own_public_key
              (ServiceID_Bytes theirID) remote with
      | Err e => Err (Wrap [e])
      | Ok generated =>
          match DisplayString generated with
          | Err e => Err (Wrap [e])
          | Ok number =>
              match ScannableEncoding generated with
              | Err e => Err (Wrap [e])
              | Ok scannable => Ok (number, scannable)
              end
          end
      end
  end.

Definition safetyNumberFor (rcpt : Recipient) (key : string) : res (string * string) :=
  match identityServiceID rcpt with
  | Err e => Err e
  | Ok their => computeServiceSafetyNumber their key
  end.

Definition SafetyNumber (rcpt : Recipient) : M (SignalIdentity * string * string) :=
  if closing then io_err (Sent ErrClosed)
  else
    let* _ := check deviceError in
    let* identity := identityOf rcpt in
    let* number := io_of (safetyNumberFor (id_Recipient (sti_Identity identity)) (sti_key identity)) in
    io_ret (sti_Identity identity, number.1, number.2).

Definition trustLevelFor (identity : storedIdentity) (number : string) : res TrustLevel :=
  if number == ""%string then Ok (Z.max TrustUnverified (id_Trust (sti_Identity identity)))
  else match NormalizeSafetyNumber number with
  | Err e => Err e
  | Ok want =>
      match safetyNumberFor (id_Recipient (sti_Identity identity)) (sti_key identity) with
      | Err e => Err e
      | Ok (got, _) => if got != want then Err (errorf ErrSafetyNumberMismatch) else Ok TrustVerified
      end
  end.

(** ** Linked devices: the queue *)

Definition queueLocalIdentitySync (theirID : ServiceID) (key : string) (level : TrustLevel) : M unit :=
  let* _ := ProtectStorageIdentity (ServiceID_String theirID) in
  let* token := new_token in
  QueueIdentitySync (mkIdentitySync (ServiceID_String theirID) key (TrustLevel_String level) token).

(** A serialized key: 33 bytes, the first of them 5. *)
Definition key_shape (key : string) : bool :=
  (slen key =? 33) && match key with String a _ => byte_of a =? 5 | EmptyString => false end.

Definition identityVerificationMessage (update : IdentitySync) : res VerifiedMessage :=
  match uuid_parse (is_ServiceID update) with
  | None => Err (Sent errInvalidIdentitySync)
  | Some aci =>
      if negb (slen (is_ServiceID update) =? 36) || (aci == uuid_nil) then Err (Sent errInvalidIdentitySync)
      else if negb (key_shape (is_Key update)) then Err (Sent errInvalidIdentitySync)
      else match DeserializeIdentityKey (is_Key update) with
      | Err e => Err (Wrap [e])
      | Ok _ =>
          let level := ParseTrustLevel (is_Trust update) in
          if level =? TrustUntrusted then Err (Sent errInvalidIdentitySync)
          else Ok (mkVerifiedMessage (uuid_string aci) (is_Key update)
                     (if level =? TrustVerified then StVERIFIED else StDEFAULT))
      end
  end.

Definition sendIdentityVerification (accountID : string) (update : IdentitySync) : M unit :=
  let* current := io_try (IdentitySyncCurrent accountID update) in
  match current with
  | Err e => io_err (Wrap [e])
  | Ok false => io_ret tt
  | Ok true =>
      let* msg := io_of (identityVerificationMessage update) in
      let* sent := io_try (send msg) in
      match sent with
      | Err e => io_err (Wrap [e])
      | Ok _ => MarkIdentitySynced update
      end
  end.

Fixpoint send_updates (accountID : string) (updates : list IdentitySync) : M unit :=
  match updates with
  | [] => io_ret tt
  | update :: rest => let* _ := sendIdentityVerification accountID update in send_updates accountID rest
  end.

Definition flushIdentityVerification : M unit :=
  let* _ := check ((fun e => Wrap [e]) <$> lockError) in
  let* _ := check deviceError in
  let* updates := io_try (PendingIdentitySync ownACI) in
  match updates with
  | Err e => io_err (Wrap [e])
  | Ok updates => send_updates ownACI updates
  end.

Definition syncPendingIdentityVerification : M unit := if connected then flushIdentityVerification else io_ret tt.

(** ** The user's decision *)

Definition trusted_record (rec : IdentityRecord) (key trust : string) : IdentityRecord :=
  mkIdentityRecord (ir_ServiceID rec) key trust (ir_FirstSeen rec) (ir_ChangedAt rec) (ir_PreviousKey rec) false.

Definition trust_body (identity : storedIdentity) (theirID : ServiceID) (level : TrustLevel) (number : string) : M TrustLevel :=
  let* current := identityOf (id_Recipient (sti_Identity identity)) in
  if sti_key current != sti_key identity then io_err (Sent errIdentityTrustChanged)
  else
    let level := if number == ""%string then Z.max TrustUnverified (id_Trust (sti_Identity current)) else level in
    let* key := io_of (wrap (DeserializeIdentityKey (sti_key identity))) in
    let* _ := SaveIdentityKey_ ACIStore theirID key in
    let* _ := PutIdentity (trusted_record (sti_record current) (sti_key identity) (TrustLevel_String level)) in
    let* _ := removeStaleSessions device_sessions theirID (sti_key identity) in
    if sid_IsPNI theirID then io_ret level
    else let* _ := queueLocalIdentitySync theirID (sti_key identity) level in io_ret level.

Definition trustIdentityLocally (identity : storedIdentity) (theirID : ServiceID) (level : TrustLevel) (number : string) : M TrustLevel :=
  let* r := io_try (DoDecryptionTxn (trust_body identity theirID level number)) in
  match r with Err e => io_err (Wrap [e]) | Ok level => io_ret level end.

Definition with_trust (i : SignalIdentity) (level : TrustLevel) : SignalIdentity :=
  mkSignalIdentity (id_Recipient i) (id_Fingerprint i) level (id_FirstSeen i) (id_ChangedAt i).

(** The identity comes with the error of the sync that is still pending. *)
Definition TrustIdentity (rcpt : Recipient) (number : string) : M (SignalIdentity * error) :=
  if closing then io_err (Sent ErrClosed)
  else
    let* _ := check deviceError in
    let* identity := identityOf rcpt in
    let* level := io_of (trustLevelFor identity number) in
    let* theirID := io_of (identityServiceID (id_Recipient (sti_Identity identity))) in
    let* level := trustIdentityLocally identity theirID level number in
    let i := with_trust (sti_Identity identity) level in
    if sid_IsPNI theirID then io_ret (i, None)
    else
      let* r := io_try syncPendingIdentityVerification in
      io_ret (i, match r with Err e => Some (Wrap [e]) | Ok _ => None end).

(** ** Another device's decision *)

Definition apply_body (update : IdentityVerification) (level : TrustLevel) : M unit :=
  let name := uuid_string (iv_ACI update) in
  let* applied := ApplyIdentityTrust ownACI name (iv_IdentityKey update) (TrustLevel_String level) in
  if negb applied then io_ret tt
  else
    let* _ := ProtectStorageIdentity name in
    let* _ := DeleteIdentitySync name in
    let* _ := removeStaleSessions device_sessions (NewACIServiceID (iv_ACI update)) (iv_IdentityKey update) in
    io_ret tt.

Definition applyIdentityVerification (update : IdentityVerification) (level : TrustLevel) : M unit :=
  DoDecryptionTxn (apply_body update level).

(** Whether the envelope is done with, and whether its acknowledgement has to be flushed. *)
Definition handleIdentityVerification (update : option IdentityVerification) : M (bool * bool) :=
  match update with
  | None => io_ret (true, false)
  | Some update =>
      if (iv_ACI update == uuid_nil) || (uuid_string (iv_ACI update) == ownACI) then io_ret (true, false)
      else match state_level (iv_State update) with
      | None => io_ret (true, false)
      | Some level =>
          let* r := io_try (applyIdentityVerification update level) in
          io_ret (is_ok r, is_ok r)
      end
  end.

(** ** Contact storage *)

Definition storageIdentityVersionKey : string := "storage_identity_version".

Definition contactIdentityACI (contact : ContactRecord) : option uuid :=
  match ParseStringOrBinaryUUID (cr_Aci contact) (cr_AciBinary contact) with
  | None => None
  | Some aci =>
      if aci == uuid_nil then None
      else if 0 <? slen (cr_AciBinary contact) then
        match uuid_FromBytes (cr_AciBinary contact) with
        | None => None
        | Some binary => if binary == aci then Some aci else None
        end
      else Some aci
  end.

Definition validStorageIdentityKey (key : string) : bool := key_shape key && is_ok (DeserializeIdentityKey key).

Definition parseContactIdentity (contact : option ContactRecord) : option contactIdentity :=
  match contact with
  | None => None
  | Some contact =>
      match contactIdentityACI contact with
      | None => None
      | Some aci =>
          if negb (validStorageIdentityKey (cr_IdentityKey contact)) then None
          else match state_level (cr_IdentityState contact) with
               | None => None
               | Some level => Some (mkContactIdentity aci (cr_IdentityKey contact) level)
               end
      end
  end.

Fixpoint contact_identities (records : list (option (option ContactRecord))) (seen : gmap uuid contactIdentity)
    (out : list contactIdentity) : res (list contactIdentity) :=
  match records with
  | [] => Ok out
  | None :: rest => contact_identities rest seen out
  | Some contact :: rest =>
      match parseContactIdentity contact with
      | None => contact_identities rest seen out
      | Some identity =>
          match seen !! ci_aci identity with
          | Some previous =>
              if (ci_key previous != ci_key identity) || (ci_level previous != ci_level identity)
              then Err (Wrap [Sent ErrStorageNotStored])
              else contact_identities rest seen out
          | None => contact_identities rest (<[ci_aci identity := identity]> seen) (out ++ [identity])
          end
      end
  end.

Definition storageContactIdentities (update : StorageUpdate) : res (list contactIdentity) :=
  contact_identities (su_NewRecords update) ∅ [].

Definition identityTupleMatches (current : option IdentityRecord) (key trust : string) : bool :=
  match current with Some rec => (ir_Key rec == key) && (ir_Trust rec == trust) | None => false end.

(** Whether to apply the remote tuple, and whether the local one stays protected. *)
Definition storageIdentityDecision (current : option IdentityRecord) (observation : option StorageIdentity)
    (remote : contactIdentity) (diverged : bool) : bool * bool :=
  let trust := TrustLevel_String (ci_level remote) in
  let aligned := identityTupleMatches current (ci_key remote) trust in
  if aligned && negb diverged then (false, false)
  else
    let '(protected, changed) :=
      match observation with
      | None => (bool_decide (is_Some current), true)
      | Some o =>
          let localChanged := bool_decide (is_Some current) && negb (identityTupleMatches current (si_LocalKey o) (si_LocalTrust o)) in
          (si_Dirty o || localChanged, (ci_key remote != si_RemoteKey o) || (trust != si_RemoteTrust o))
      end in
    let protected := protected || diverged in
    (negb protected && changed, protected).

Definition emptyIdentityStorageUpdate (update : option StorageUpdate) : bool :=
  match update with None => true | Some u => su_Version u =? 0 end.

Definition storageIdentityVersion : M Z :=
  let* raw := io_try (Meta storageIdentityVersionKey) in
  match raw with
  | Err e => io_err (Wrap [e])
  | Ok (raw, _) =>
      if raw == ""%string then io_ret 0
      else match ParseUint raw with None => io_err (Opaque "ParseUint") | Some version => io_ret version end
  end.

(** [storageProtocolKey], and [identityRecordForStorage]. *)
Definition storageProtocolKey (aci : uuid) : M (option string) :=
  let* r := io_try (knownKey ACIStore (NewACIServiceID aci)) in
  match r with Err e => io_err (Wrap [e]) | Ok key => io_ret key end.

Definition identityRecordForStorage (aci : uuid) : M (option IdentityRecord) :=
  let* rec := Identity (uuid_string aci) in
  match rec with
  | Some rec => io_ret (Some rec)
  | None =>
      let* key := storageProtocolKey aci in
      io_ret (legacy_record (uuid_string aci) <$> key)
  end.

Definition storage_record (current : option IdentityRecord) (remote : contactIdentity) (now : time) : IdentityRecord :=
  let trust := TrustLevel_String (ci_level remote) in
  match current with
  | None => mkIdentityRecord (uuid_string (ci_aci remote)) (ci_key remote) trust now zero_time "" false
  | Some rec =>
      if ir_Key rec != ci_key remote then
        mkIdentityRecord (ir_ServiceID rec) (ci_key remote) trust (ir_FirstSeen rec) now
          (if Trusted (ParseTrustLevel (ir_Trust rec)) then ir_Key rec else ir_PreviousKey rec) false
      else mkIdentityRecord (ir_ServiceID rec) (ci_key remote) trust (ir_FirstSeen rec) (ir_ChangedAt rec) (ir_PreviousKey rec) false
  end.

(** The wrapped store is signalmeow's own: saving is no observation here. *)
Definition applyStorageIdentity (current : option IdentityRecord) (remote : contactIdentity) : M IdentityRecord :=
  let id := NewACIServiceID (ci_aci remote) in
  let* key := io_of (wrap (DeserializeIdentityKey (ci_key remote))) in
  let* r := io_try (signal_write (SaveIdentityKey ACIStore id key)) in
  match r with
  | Err e => io_err (Wrap [e])
  | Ok _ =>
      let* now := id_now in
      let rec := storage_record current remote now in
      let* _ := PutIdentity rec in
      let* _ := removeStaleSessions device_sessions id (ci_key remote) in
      let* _ := DeleteIdentitySync (uuid_string (ci_aci remote)) in
      io_ret rec
  end.

Definition key_of (key : option string) : string := default ""%string key.

Definition next_observation (name : string) (observation : option StorageIdentity) (remote : contactIdentity)
    (current : option IdentityRecord) (protected : bool) : StorageIdentity :=
  let (localKey, localTrust) := match current, observation with
                                | Some rec, _ => (ir_Key rec, ir_Trust rec)
                                | None, Some o => (si_LocalKey o, si_LocalTrust o)
                                | None, None => (""%string, ""%string)
                                end in
  mkStorageIdentity name (ci_key remote) (TrustLevel_String (ci_level remote)) localKey localTrust protected.

Definition reconcileContactIdentity (remote : contactIdentity) : M unit :=
  let name := uuid_string (ci_aci remote) in
  let* observation := io_try (StorageIdentity_ name) in
  match observation with
  | Err e => io_err (Wrap [e])
  | Ok observation =>
      let* current := identityRecordForStorage (ci_aci remote) in
      let* protocolKey := storageProtocolKey (ci_aci remote) in
      let diverged := match current with Some rec => ir_Key rec != key_of protocolKey | None => false end in
      let (apply, protected) := storageIdentityDecision current observation remote diverged in
      let* current := (if apply then let* rec := applyStorageIdentity current remote in io_ret (Some rec)
                       else io_ret current) in
      PutStorageIdentity (next_observation name observation remote current protected)
  end.

Fixpoint reconcile_contacts (identities : list contactIdentity) : M unit :=
  match identities with
  | [] => io_ret tt
  | identity :: rest =>
      if ci_aci identity == dev_ACI then reconcile_contacts rest
      else let* _ := reconcileContactIdentity identity in reconcile_contacts rest
  end.

Definition reconcileStorageIdentities (update : option StorageUpdate) : M unit :=
  match update with
  | None => io_ret tt
  | Some update =>
      if emptyIdentityStorageUpdate (Some update) then io_ret tt
      else if 0 <? len (su_MissingRecords update) then io_err (Wrap [Sent ErrStorageNotStored])
      else
        let* version := storageIdentityVersion in
        if su_Version update <=? version then io_ret tt
        else
          let* identities := io_of (storageContactIdentities update) in
          let* _ := check deviceError in
          let* _ := reconcile_contacts identities in
          SetMeta storageIdentityVersionKey (FormatUint (su_Version update))
  end.

(** ** Listing: what is found *)

Context {UL : UuidLaws U} {SL : SignalLaws P S}.

(** What only statements ran on: the memory beside the database, but for the faults. *)
Definition same_memory (w w' : idworld P) : Prop :=
  iw_now w' = iw_now w /\ iw_tokens w' = iw_tokens w /\ iw_emitted w' = iw_emitted w.

(** A map built from pairs with distinct keys holds exactly these pairs. *)
Lemma list_to_map_iff {A} (l : list (string * A)) (m : string -> option A) :
  NoDup (fst <$> l) -> (forall n v, (n, v) ∈ l <-> m n = Some v) ->
  forall n, (list_to_map l : gmap string A) !! n = m n.
Proof. intros Hnd Hm n. apply option_eq. intros v. rewrite <- (elem_of_list_to_map (M:=gmap string)) by done. apply Hm. Qed.

Lemma records_lookup (rows : gmap string identity_row) name :
  (list_to_map ((fun rec => (ir_ServiceID rec, rec)) <$> ((fun x => scanIdentity x.1 x.2) <$> rows_by_id rows)) : gmap string IdentityRecord) !! name
  = scanIdentity name <$> rows !! name.
Proof.
  revert name. apply list_to_map_iff.
  - rewrite <- !list_fmap_compose.
    rewrite (list_fmap_ext _ fst) by (by intros ? [] ?). unfold rows_by_id. rewrite sort_by_perm. apply NoDup_fst_map_to_list.
  - intros n v. rewrite <- list_fmap_compose, list_elem_of_fmap. split.
    + intros ([m row] & [= -> ->] & Hin). unfold rows_by_id in Hin. rewrite sort_by_perm in Hin.
      apply elem_of_map_to_list in Hin. cbn. by rewrite Hin.
    + intros (row & Hrow & ->)%fmap_Some. exists (n, row). split; [done|].
      unfold rows_by_id. rewrite sort_by_perm. by apply elem_of_map_to_list.
Qed.

Lemma account_keys_lookup (keys : gmap (string * string) string) account name :
  (list_to_map ((fun x => (x.1.2, x.2)) <$> filter (fun x => x.1.1 = account) (map_to_list keys)) : gmap string string) !! name
  = keys !! (account, name).
Proof.
  revert name. apply list_to_map_iff.
  - rewrite <- list_fmap_compose. apply NoDup_fmap_2_strong; [|apply NoDup_filter, NoDup_map_to_list].
    intros [[a n] k] [[a' n'] k'] [Ha Hx]%list_elem_of_filter [Ha' Hx']%list_elem_of_filter. cbn in *. intros ->.
    apply elem_of_map_to_list in Hx, Hx'. congruence.
  - intros n v. rewrite list_elem_of_fmap. split.
    + intros ([[a m] k] & [= -> ->] & [Ha Hx]%list_elem_of_filter). cbn in Ha. subst a. by apply elem_of_map_to_list in Hx.
    + intros Hx. exists ((account, n), v). split; [done|]. apply list_elem_of_filter. split; [done|]. by apply elem_of_map_to_list.
Qed.

(** The identity of a service ID as the list has it. *)
Definition listed (db : iddb P) (name : string) : option IdentityRecord :=
  effective db name (identity_keys (db_signal db) !! (ownACI, name)).

Lemma merged_lookup rows keys name :
  merged_records ((fun x => scanIdentity x.1 x.2) <$> rows_by_id rows) keys !! name
  = match rows !! name with Some row => Some (scanIdentity name row) | None => legacy_record name <$> keys !! name end.
Proof.
  unfold merged_records. rewrite lookup_union, records_lookup, map_lookup_imap.
  destruct (rows !! name); cbn; [by rewrite union_Some_l|]. by destruct (keys !! name).
Qed.

Lemma identities_run w r w' : identities w = (r, w') ->
  iw_db w' = iw_db w /\ same_memory w w' /\ iw_pending w' = iw_pending w
  /\ forall all, r = Ok all ->
      Sorted (fun a b => String.leb (id_name a) (id_name b) = true) all
      /\ forall s, s ∈ all <-> exists name id rec, ServiceIDFromString name = Ok id /\ name <> ownACI /\ name <> ownPNI
           /\ listed (iw_db w) name = Some rec /\ s = stored_identity id rec.
Proof.
  unfold identities, Identities, StoredIdentityKeys. unfold io_bind at 1. rewrite run_select.
  destruct (faulty w); [by intros [= <- <-]|]. unfold io_bind. rewrite run_select. destruct (faulty _); [by intros [= <- <-]|].
  intros [= <- <-]. split_and!; [done..|]. intros all [= <-]. split.
  - apply sort_by_sorted. intros a b. apply string_leb_total.
  - intros s. rewrite sort_by_perm, list_elem_of_omap. split.
    + intros ([name rec] & Hin & Hs). apply elem_of_map_to_list in Hin. rewrite merged_lookup, account_keys_lookup in Hin.
      unfold others in Hs. cbn [fst snd] in Hs. destruct (ServiceIDFromString name) as [id|] eqn:Hid; [|done].
      destruct (_ || _) eqn:Hown; [done|]. bool_hyps. injection Hs as <-. by exists name, id, rec.
    + intros (name & id & rec & Hid & H1 & H2 & Hrec & ->). exists (name, rec). split.
      * apply elem_of_map_to_list. by rewrite merged_lookup, account_keys_lookup.
      * unfold others. cbn. rewrite Hid. by rewrite !bool_decide_eq_false_2 by done.
Qed.

Lemma serviceRecipient_String id : Recipient_String (serviceRecipient id) = ServiceID_String id.
Proof.
  destruct id as [[] u]; unfold serviceRecipient, Recipient_String; cbn;
    rewrite (bool_decide_eq_false_2 (uuid_string u = "")) by apply uuid_string_nonempty; symmetry;
    [apply ServiceID_String_PNI|apply ServiceID_String_ACI].
Qed.

Lemma ServiceID_String_inj id id' : ServiceID_String id = ServiceID_String id' -> id = id'.
Proof. intros H. apply (f_equal ServiceIDFromString) in H. rewrite !ServiceIDFromString_String in H. by injection H. Qed.

(** *** Well-formed databases *)

(** The levels and names that the tables hold are ones the code wrote. *)
Definition canonical (name : string) : Prop := exists id, name = ServiceID_String id.

Definition well_typed (db : iddb P) : Prop :=
  (forall name row, db_identities db !! name = Some row -> canonical name /\ is_level (ParseTrustLevel (row_trust row)))
  /\ (forall name q, db_queue db !! name = Some q ->
        is_ServiceID q = name /\ canonical name /\ Trusted (ParseTrustLevel (is_Trust q)) = true)
  /\ (forall name o, db_observed db !! name = Some o -> si_ServiceID o = name).

Lemma listed_canonical db name rec : well_typed db -> listed db name = Some rec ->
  canonical name /\ ir_ServiceID rec = name /\ is_level (ParseTrustLevel (ir_Trust rec)).
Proof.
  intros (Hrows & _) H. unfold listed, effective in H. destruct (db_identities db !! name) as [row|] eqn:Hrow.
  - injection H as <-. destruct (Hrows _ _ Hrow). by split_and!.
  - apply fmap_Some in H as (k & Hk & ->). apply identity_keys_names in Hk. by split_and!.
Qed.

Lemma identityServiceID_merge rcpt id : identityServiceID rcpt = Ok id ->
  identityServiceID (mergeRecipient (serviceRecipient id) rcpt) = Ok id.
Proof.
  unfold identityServiceID, aciServiceID. intros H.
  destruct (ACI rcpt != "") eqn:Ha.
  - destruct (ACI rcpt == ""); [done|]. destruct (uuid_parse (ACI rcpt)) as [u|]; [|done]. injection H as <-. cbn.
    rewrite bool_decide_eq_false_2 by apply uuid_string_nonempty. cbn. by rewrite uuid_parse_string.
  - destruct (uuid_parse (PNI rcpt)) as [u|]; [|done]. destruct (u == uuid_nil) eqn:Hn; [done|]. injection H as <-.
    cbn. rewrite uuid_parse_string. by rewrite Hn.
Qed.

(** What [identityOf] finds: the user's current identity. *)
Definition found (db : iddb P) (rcpt : Recipient) (id : ServiceID) (s : storedIdentity) : Prop :=
  current_identity db id = Some (sti_record s) /\ sti_key s = ir_Key (sti_record s)
  /\ id_Trust (sti_Identity s) = ParseTrustLevel (ir_Trust (sti_record s))
  /\ id_Fingerprint (sti_Identity s) = fingerprint (sti_key s)
  /\ id_Recipient (sti_Identity s) = mergeRecipient (serviceRecipient id) rcpt
  /\ ir_ServiceID (sti_record s) = ServiceID_String id /\ is_level (id_Trust (sti_Identity s)).

Lemma identityOf_run rcpt w r w' : well_typed (iw_db w) -> identityOf rcpt w = (r, w') ->
  iw_db w' = iw_db w /\ same_memory w w' /\ iw_pending w' = iw_pending w
  /\ forall s, r = Ok s -> exists id, identityServiceID rcpt = Ok id /\ found (iw_db w) rcpt id s.
Proof.
  intros Hwt. unfold identityOf, io_bind, io_of. destruct (identityServiceID rcpt) as [id|e] eqn:Hid; [|by intros [= <- <-]].
  destruct (identities w) as [[all|e] w1] eqn:Hall; [|intros [= <- <-]; by apply identities_run in Hall as (-> & ? & -> & _)].
  apply identities_run in Hall as (Hdb & Hnow & Hp & Hall). destruct (Hall all eq_refl) as [_ Hin]. clear Hall.
  destruct (head _) as [s|] eqn:Hhead; [|by intros [= <- <-]]. intros [= <- <-]. split_and!; [done..|].
  intros ? [= <-]. exists id. split; [done|].
  assert (Hs : s ∈ filter (fun s => id_name s = ServiceID_String id) all) by (apply head_Some_elem_of; done).
  apply list_elem_of_filter in Hs as [Hname Hs]. apply Hin in Hs as (name & id' & rec & Hparse & _ & _ & Hrec & ->).
  unfold id_name, stored_identity in Hname. cbn in Hname. rewrite serviceRecipient_String in Hname.
  apply ServiceID_String_inj in Hname as ->.
  destruct (listed_canonical _ _ _ Hwt Hrec) as ([id2 ->] & Hsid & Hl).
  rewrite ServiceIDFromString_String in Hparse. injection Hparse as ->. unfold found. cbn. by split_and!.
Qed.

(** *** Operations keep the database well-formed *)

Definition typed (w : idworld P) : Prop := well_typed (iw_db w).
Definition keeps {A} (m : M A) : Prop := triple typed m (fun _ => typed) typed.

Lemma keeps_select {A} (f : iddb P -> A) : keeps (select f).
Proof. intros w Hw. rewrite run_select. by destruct (faulty w). Qed.

Lemma keeps_exec (f : iddb P -> iddb P) : (forall db, well_typed db -> well_typed (f db)) -> keeps (exec f).
Proof. intros Hf w Hw. rewrite run_exec. destruct (faulty w); [done|]. by apply Hf. Qed.

Lemma keeps_io_bind {A B} (m : M A) (k : A -> M B) : keeps m -> (forall a, keeps (k a)) -> keeps (io_bind m k).
Proof. intros Hm Hk. exact (triple_bind _ _ _ _ _ _ Hm Hk). Qed.

Lemma keeps_io_try {A} (m : M A) : keeps m -> keeps (io_try m).
Proof. intros Hm w Hw. unfold io_try. specialize (Hm w Hw). by destruct (m w) as [[] ?]. Qed.

Lemma keeps_io_ret {A} (a : A) : keeps (io_ret a).
Proof. by intros w Hw. Qed.
Lemma keeps_io_err {A} (e : err) : keeps (io_err e : M A).
Proof. by intros w Hw. Qed.
Lemma keeps_io_of {A} (r : res A) : keeps (io_of r).
Proof. intros w Hw. by destruct r. Qed.
Lemma keeps_check (e : error) : keeps (check e).
Proof. intros w Hw. by destruct e. Qed.
Lemma keeps_signal_read {A} (f : P -> res A) : keeps (signal_read f).
Proof. intros w Hw. unfold signal_read. by destruct (f _). Qed.
Lemma keeps_signal_write {A} (f : P -> res A * P) : keeps (signal_write f).
Proof. intros w Hw. unfold signal_write. by destruct (f _) as [[] ?]. Qed.
Lemma keeps_now : keeps id_now.
Proof. by intros w Hw. Qed.
Lemma keeps_token : keeps new_token.
Proof. by intros w Hw. Qed.
Lemma keeps_set_pending b : keeps (set_pending b).
Proof. by intros w Hw. Qed.

Lemma keeps_Put rec : canonical (ir_ServiceID rec) -> is_level (ParseTrustLevel (ir_Trust rec)) -> keeps (PutIdentity rec).
Proof.
  intros Hc Hl. apply keeps_exec. intros db (H1 & H2 & H3). split_and!; [|done|done]. intros name row. cbn.
  intros [[<- <-]|[_ H]]%lookup_insert_Some; [by split|by apply H1].
Qed.

Lemma keeps_Protect name : keeps (ProtectStorageIdentity name).
Proof.
  apply keeps_exec. intros db (H1 & H2 & H3). split_and!; [done|done|]. intros n o. cbn.
  intros [[<- <-]|[_ H]]%lookup_insert_Some; [by destruct (db_observed db !! name)|by apply H3].
Qed.

Lemma keeps_PutStorage rec : keeps (PutStorageIdentity rec).
Proof.
  apply keeps_exec. intros db (H1 & H2 & H3). split_and!; [done|done|]. intros n o. cbn.
  intros [[<- <-]|[_ H]]%lookup_insert_Some; [done|by apply H3].
Qed.

Lemma keeps_queue f : (forall (q : gmap string IdentitySync) n x, f q !! n = Some x -> q !! n = Some x) -> keeps (exec (with_queue f)).
Proof.
  intros Hf. apply keeps_exec. intros db (H1 & H2 & H3). split_and!; [done| |done]. intros n q. cbn. intros H%Hf. by apply H2.
Qed.

Lemma keeps_Queue u : canonical (is_ServiceID u) -> Trusted (ParseTrustLevel (is_Trust u)) = true -> keeps (QueueIdentitySync u).
Proof.
  intros Hc Ht. apply keeps_exec. intros db (H1 & H2 & H3). split_and!; [done| |done]. intros n q. cbn.
  intros [[<- <-]|[_ H]]%lookup_insert_Some; [by split_and!|by apply H2].
Qed.

Lemma keeps_Delete name : keeps (DeleteIdentitySync name).
Proof. apply keeps_queue. by intros q n x [_ H]%lookup_delete_Some. Qed.

Lemma keeps_MarkSynced u : keeps (MarkIdentitySynced u).
Proof.
  apply keeps_queue. intros q n x. destruct (q !! is_ServiceID u) as [p|]; [|done]. case_bool_decide; [|done].
  by intros [_ Hx]%lookup_delete_Some.
Qed.

Lemma keeps_fork {A} (b : bool) (m k : M A) : keeps m -> keeps k -> keeps (if b then m else k).
Proof. by destruct b. Qed.

Lemma keeps_remove_tuples s key ts n : keeps (remove_tuples s key ts n).
Proof.
  intros w Hw. destruct (remove_tuples s key ts n w) as [r w'] eqn:H. apply remove_tuples_frame in H as (p & -> & _).
  by destruct r.
Qed.

Lemma same_but_sessions_typed w w' : same_but_sessions w w' -> typed w -> typed w'.
Proof. by intros (p & -> & _). Qed.

Lemma keeps_removeStale stores id key : keeps (removeStaleSessions stores id key).
Proof.
  intros w Hw. destruct (removeStaleSessions stores id key w) as [r w'] eqn:H.
  apply removeStaleSessions_frame in H. pose proof (same_but_sessions_typed _ _ H Hw). by destruct r.
Qed.

Lemma is_level_untrusted : is_level (ParseTrustLevel (TrustLevel_String TrustUntrusted)).
Proof. by apply (bool_decide_unpack _). Qed.
Lemma is_level_unverified : is_level (ParseTrustLevel (TrustLevel_String TrustUnverified)).
Proof. by apply (bool_decide_unpack _). Qed.

Lemma keeps_observe id key known : keeps (observe id key known).
Proof.
  assert (Hchange : forall rec, ir_ServiceID rec = ServiceID_String id -> keeps (observe_change id rec key)).
  { intros rec Hn. unfold observe_change. apply keeps_fork; [apply keeps_io_ret|].
    apply keeps_io_bind; [apply keeps_Protect|intros _]. apply keeps_io_bind; [apply keeps_now|intros now].
    apply keeps_io_bind; [apply keeps_Put; [by exists id|apply is_level_untrusted]|intros _].
    apply keeps_io_bind; [apply keeps_io_try, keeps_removeStale|intros _]. apply keeps_io_bind; [apply keeps_set_pending|intros _; apply keeps_io_ret]. }
  assert (Hfirst : keeps (let* now := id_now in
      let* _ := ProtectStorageIdentity (ServiceID_String id) in
      let* _ := PutIdentity (first_record (ServiceID_String id) key now) in io_ret true)).
  { apply keeps_io_bind; [apply keeps_now|intros now]. apply keeps_io_bind; [apply keeps_Protect|intros _].
    apply keeps_io_bind; [|intros _; apply keeps_io_ret]. apply keeps_Put; [by exists id|apply is_level_unverified]. }
  intros w Hw. unfold observe, Identity, io_bind at 1. rewrite run_select. destruct (faulty w); [done|].
  destruct (db_identities (iw_db w) !! ServiceID_String id) as [row|]; [by apply Hchange|]. cbn [fmap option_fmap].
  destruct known; [by apply Hchange|]. by apply Hfirst.
Qed.

#[local] Hint Resolve keeps_io_ret keeps_io_err keeps_io_of keeps_check keeps_signal_read keeps_signal_write keeps_now
  keeps_token keeps_set_pending keeps_select keeps_Protect keeps_PutStorage keeps_Delete keeps_MarkSynced
  keeps_removeStale keeps_observe keeps_io_try keeps_fork : keeps.

(** One bind after another, with the rest left to the hints. *)
Ltac keeps_run := repeat (first [solve [eauto with keeps] | apply keeps_io_bind; [solve [eauto with keeps]|intros ?] | apply keeps_fork]).

Lemma keeps_knownKey s id : keeps (knownKey s id).
Proof. unfold knownKey. keeps_run. destruct a; keeps_run. Qed.
#[local] Hint Resolve keeps_knownKey : keeps.

Lemma keeps_SaveIdentityKey s id K : keeps (SaveIdentityKey_ s id K).
Proof. unfold SaveIdentityKey_. keeps_run. Qed.

Lemma keeps_IsTrusted s id K receiving : keeps (IsTrustedIdentity s id K receiving).
Proof. unfold IsTrustedIdentity. keeps_run. Qed.

Lemma keeps_txn {A} (m : M A) : keeps m -> keeps (DoDecryptionTxn m).
Proof.
  intros Hm w Hw. unfold DoDecryptionTxn. specialize (Hm w Hw). destruct (m w) as [[a|e] w']; [|exact Hw].
  destruct (faulty w'); [exact Hw|exact Hm].
Qed.

#[local] Hint Resolve keeps_SaveIdentityKey keeps_IsTrusted keeps_txn : keeps.

Lemma keeps_identityOf rcpt : keeps (identityOf rcpt).
Proof.
  intros w Hw. destruct (identityOf rcpt w) as [r w'] eqn:H. apply identityOf_run in H as (Hdb & _); [|exact Hw].
  unfold typed. rewrite Hdb. by destruct r.
Qed.

Lemma keeps_MarkReported name key : keeps (MarkIdentityReported name key).
Proof.
  apply keeps_exec. intros db (H1 & H2 & H3). split_and!; [|done|done]. intros n row. cbn. intros H.
  destruct (decide (n = name)) as [->|Hn]; [|rewrite lookup_alter_ne in H by done; by apply H1].
  rewrite lookup_alter_eq in H. apply fmap_Some in H as (row0 & Hrow & ->). apply H1 in Hrow. by case_bool_decide.
Qed.

Lemma keeps_Apply account name key level : canonical name -> is_level level ->
  keeps (ApplyIdentityTrust account name key (TrustLevel_String level)).
Proof.
  intros Hc Hl w Hw. unfold ApplyIdentityTrust, statement. destruct (faulty w); [exact Hw|].
  assert (Hput : forall row, row_trust row = TrustLevel_String level -> well_typed (with_identities (<[name := row]>) (iw_db w))).
  { intros row Ht. destruct Hw as (H1 & H2 & H3). split_and!; [|done|done]. intros n r. cbn.
    intros [[<- <-]|[_ H]]%lookup_insert_Some; [|by apply H1]. by rewrite Ht, ParseTrustLevel_String. }
  case_bool_decide; [|exact Hw]. destruct (db_identities (iw_db w) !! name) as [row|]; [|by apply Hput].
  case_bool_decide; [by apply Hput|exact Hw].
Qed.

Lemma keeps_verification update level : is_level level -> keeps (applyIdentityVerification update level).
Proof.
  intros Hl. apply keeps_txn. unfold apply_body. apply keeps_io_bind.
  - apply keeps_Apply; [|done]. exists (NewACIServiceID (iv_ACI update)). symmetry. apply ServiceID_String_ACI.
  - intros applied. destruct applied; cbn [negb]; keeps_run.
Qed.

Lemma state_level_range st level : state_level st = Some level -> is_level level.
Proof. destruct st; intros [= <-]; by apply (bool_decide_unpack _). Qed.

Lemma keeps_handle update : keeps (handleIdentityVerification update).
Proof.
  unfold handleIdentityVerification. destruct update as [update|]; [|keeps_run].
  apply keeps_fork; [keeps_run|]. destruct (state_level _) as [level|] eqn:Hl; [|keeps_run].
  apply state_level_range in Hl. apply keeps_io_bind; [by apply keeps_io_try, keeps_verification|]. intros ?. keeps_run.
Qed.

Lemma max_trusted l : is_level l -> Trusted (Z.max TrustUnverified l) = true.
Proof. unfold is_level, Trusted, TrustUnverified, TrustVerified. intros ?. lia. Qed.

Lemma keeps_queueLocal id key level : Trusted level = true -> keeps (queueLocalIdentitySync id key level).
Proof.
  intros Hl. unfold queueLocalIdentitySync. apply keeps_io_bind; [keeps_run|intros _]. apply keeps_io_bind; [keeps_run|intros token].
  apply keeps_Queue; [by exists id|]. cbn. rewrite ParseTrustLevel_String; [done|by apply Trusted_level].
Qed.

Lemma keeps_trust_body identity id level number : number = ""%string \/ Trusted level = true ->
  keeps (trust_body identity id level number).
Proof.
  intros Hlevel w Hw. unfold trust_body, io_bind at 1. destruct (identityOf _ w) as [[current|e] w1] eqn:H;
    apply identityOf_run in H as (Hdb & _ & _ & Hs); [|exact Hw| |exact Hw]; [|by unfold typed; rewrite Hdb].
  destruct (Hs current eq_refl) as (id' & _ & Hfound). destruct Hfound as (_ & _ & _ & _ & _ & Hsid & Hl).
  assert (Hw1 : typed w1) by (unfold typed; by rewrite Hdb). clear Hw Hdb Hs.
  set (level' := if number == ""%string then Z.max TrustUnverified (id_Trust (sti_Identity current)) else level).
  assert (Hl' : Trusted level' = true).
  { unfold level'. case_bool_decide; [by apply max_trusted|by destruct Hlevel]. }
  revert w1 Hw1. change (keeps (if sti_key current != sti_key identity then io_err (Sent errIdentityTrustChanged) else
    let* key := io_of (wrap (DeserializeIdentityKey (sti_key identity))) in
    let* _ := SaveIdentityKey_ ACIStore id key in
    let* _ := PutIdentity (trusted_record (sti_record current) (sti_key identity) (TrustLevel_String level')) in
    let* _ := removeStaleSessions device_sessions id (sti_key identity) in
    if sid_IsPNI id then io_ret level'
    else let* _ := queueLocalIdentitySync id (sti_key identity) level' in io_ret level')).
  apply keeps_fork; [keeps_run|]. apply keeps_io_bind; [keeps_run|intros key]. apply keeps_io_bind; [keeps_run|intros _].
  apply keeps_io_bind; [|intros _].
  { apply keeps_Put; cbn; [by exists id'|]. rewrite ParseTrustLevel_String by (by apply Trusted_level). by apply Trusted_level. }
  apply keeps_io_bind; [keeps_run|intros _]. apply keeps_fork; [keeps_run|].
  apply keeps_io_bind; [by apply keeps_queueLocal|]. intros _. keeps_run.
Qed.

Lemma trustLevelFor_trusted identity number level : is_level (id_Trust (sti_Identity identity)) ->
  trustLevelFor identity number = Ok level -> number = ""%string \/ level = TrustVerified.
Proof.
  intros Hl. unfold trustLevelFor. case_bool_decide; [by left|]. destruct (NormalizeSafetyNumber number); [|done].
  destruct (safetyNumberFor _ _) as [[got ?]|]; [|done]. destruct (got != _); [done|]. intros [= <-]. by right.
Qed.

Lemma contact_levels records seen out ids :
  contact_identities records seen out = Ok ids -> Forall (fun i => is_level (ci_level i)) out ->
  Forall (fun i => is_level (ci_level i)) ids.
Proof.
  revert seen out. induction records as [|[contact|] rest IH]; intros seen out; cbn; [by intros [= <-]| |apply IH].
  destruct (parseContactIdentity contact) as [i|] eqn:Hp; [|apply IH].
  destruct (seen !! ci_aci i); [destruct (_ || _); [done|apply IH]|].
  intros H Hout. eapply IH; [exact H|]. apply Forall_app. split; [done|]. constructor; [|done].
  unfold parseContactIdentity in Hp. destruct contact as [c|]; [|done]. destruct (contactIdentityACI c); [|done].
  destruct (negb _); [done|]. destruct (state_level _) eqn:Hl; [|done]. injection Hp as <-. by eapply state_level_range.
Qed.

Lemma keeps_applyStorage current remote :
  (forall rec, current = Some rec -> ir_ServiceID rec = uuid_string (ci_aci remote)) -> is_level (ci_level remote) ->
  keeps (applyStorageIdentity current remote).
Proof.
  intros Hc Hl. unfold applyStorageIdentity. apply keeps_io_bind; [keeps_run|intros key]. apply keeps_io_bind; [keeps_run|intros r].
  destruct r; [|keeps_run]. apply keeps_io_bind; [keeps_run|intros now]. apply keeps_io_bind; [|intros _; keeps_run].
  assert (Hrec : ir_ServiceID (storage_record current remote now) = uuid_string (ci_aci remote)
    /\ ir_Trust (storage_record current remote now) = TrustLevel_String (ci_level remote)).
  { unfold storage_record. destruct current as [rec|]; [|done]. rewrite <- (Hc rec) by done. by destruct (_ != _). }
  destruct Hrec as [Hid Ht]. apply keeps_Put.
  - rewrite Hid. exists (NewACIServiceID (ci_aci remote)). symmetry. apply ServiceID_String_ACI.
  - rewrite Ht. by rewrite ParseTrustLevel_String.
Qed.

Lemma keeps_StorageIdentity name : keeps (StorageIdentity_ name).
Proof. apply keeps_select. Qed.
Lemma keeps_Meta key : keeps (Meta key).
Proof. apply keeps_select. Qed.
Lemma keeps_SetMeta key value : keeps (SetMeta key value).
Proof. by apply keeps_exec. Qed.
#[local] Hint Resolve keeps_StorageIdentity keeps_Meta keeps_SetMeta : keeps.

Lemma keeps_protocolKey aci : keeps (storageProtocolKey aci).
Proof. unfold storageProtocolKey. apply keeps_io_bind; [keeps_run|]. intros [?|?]; keeps_run. Qed.
#[local] Hint Resolve keeps_protocolKey : keeps.

Lemma keeps_recordForStorage aci :
  triple typed (identityRecordForStorage aci)
    (fun rec w => typed w /\ forall r, rec = Some r -> ir_ServiceID r = uuid_string aci) typed.
Proof.
  intros w Hw. unfold identityRecordForStorage, Identity, io_bind at 1. rewrite run_select. destruct (faulty w); [exact Hw|].
  destruct (db_identities (iw_db w) !! uuid_string aci) as [row|]; cbn [fmap option_fmap option_map].
  - split; [exact Hw|]. by intros r [= <-].
  - set (w1 := with_db _ _). assert (Hw1 : typed w1) by exact Hw. clearbody w1. clear Hw w.
    unfold io_bind. pose proof (keeps_protocolKey aci w1 Hw1) as Hk. destruct (storageProtocolKey aci w1) as [[key|e] w2]; [|exact Hk].
    split; [exact Hk|]. by intros r (k & _ & ->)%fmap_Some.
Qed.

Lemma keeps_reconcileContact remote : is_level (ci_level remote) -> keeps (reconcileContactIdentity remote).
Proof.
  intros Hl. unfold reconcileContactIdentity. apply keeps_io_bind; [keeps_run|intros [observation|e]]; [|keeps_run].
  eapply triple_bind; [apply keeps_recordForStorage|]. intros current. cbv beta.
  intros w [Hw Hc]. revert w Hw. apply keeps_io_bind; [keeps_run|intros key]. destruct (storageIdentityDecision _ _ _ _) as [apply protected]. apply keeps_io_bind; [|intros ?; keeps_run].
  apply keeps_fork; [|keeps_run]. apply keeps_io_bind; [by apply keeps_applyStorage|intros ?; keeps_run].
Qed.

Lemma keeps_reconcile update : keeps (reconcileStorageIdentities update).
Proof.
  unfold reconcileStorageIdentities. destruct update as [u|]; [|keeps_run]. apply keeps_fork; [keeps_run|].
  apply keeps_fork; [keeps_run|]. apply keeps_io_bind.
  { unfold storageIdentityVersion. apply keeps_io_bind; [keeps_run|]. intros [[raw ?]|?]; [|keeps_run].
    apply keeps_fork; [keeps_run|]. destruct (ParseUint raw); keeps_run. }
  intros version. apply keeps_fork; [keeps_run|].
  destruct (storageContactIdentities u) as [ids|e] eqn:Hids; [|by intros w Hw].
  apply contact_levels in Hids; [|constructor].
  assert (Hall : keeps (reconcile_contacts ids)).
  { induction Hids as [|i ids Hi _ IH]; cbn; [keeps_run|]. apply keeps_fork; [exact IH|].
    apply keeps_io_bind; [by apply keeps_reconcileContact|intros _; exact IH]. }
  intros w Hw. change (match (let* _ := check deviceError in let* _ := reconcile_contacts ids in
    SetMeta storageIdentityVersionKey (FormatUint (su_Version u))) w with (Ok _, w') => typed w' | (Err _, w') => typed w' end).
  revert w Hw. apply keeps_io_bind; [keeps_run|intros _]. apply keeps_io_bind; [exact Hall|intros _; keeps_run].
Qed.

Lemma keeps_report (takes : list Event -> bool) : keeps (report takes).
Proof.
  intros w Hw. unfold report. destruct (negb _); [exact Hw|]. revert w Hw. apply keeps_io_bind; [keeps_run|intros _].
  apply keeps_io_bind; [apply keeps_io_try, keeps_select|]. intros [records|e]; [|keeps_run].
  induction records as [|rec records IH]; cbn; [keeps_run|]. apply keeps_io_bind.
  - destruct (identityChangedEvent rec); [|keeps_run]. intros w Hw. unfold emit_event. by destruct (takes _).
  - intros taken. apply keeps_fork; [keeps_run|]. apply keeps_io_bind; [apply keeps_io_try, keeps_MarkReported|intros _; exact IH].
Qed.

(** *** The operations as steps *)

Lemma keeps_flush : (forall msg, keeps (send msg)) -> keeps flushIdentityVerification.
Proof.
  intros Hsend. unfold flushIdentityVerification. apply keeps_io_bind; [keeps_run|intros _]. apply keeps_io_bind; [keeps_run|intros _].
  apply keeps_io_bind.
  - apply keeps_io_try. unfold PendingIdentitySync. apply keeps_io_bind; [|intros _; apply keeps_select].
    intros w Hw. rewrite run_exec. destruct (faulty w); [exact Hw|]. destruct Hw as (H1 & H2 & H3).
    split_and!; [done| |done]. intros n q. cbn. intros [Hq _]%map_lookup_filter_Some. by apply H2.
  - intros [updates|e]; [|keeps_run]. induction updates as [|u updates IH]; cbn; [keeps_run|].
    apply keeps_io_bind; [|intros _; exact IH]. unfold sendIdentityVerification. apply keeps_io_bind; [apply keeps_io_try, keeps_select|].
    intros [[]|e]; [|keeps_run..]. apply keeps_io_bind; [keeps_run|intros msg].
    apply keeps_io_bind; [apply keeps_io_try, Hsend|]. intros [?|?]; keeps_run.
Qed.

Lemma keeps_trustLocally identity id level number : number = ""%string \/ Trusted level = true ->
  keeps (trustIdentityLocally identity id level number).
Proof.
  intros H. unfold trustIdentityLocally. apply keeps_io_bind; [by apply keeps_io_try, keeps_txn, keeps_trust_body|].
  intros [?|?]; keeps_run.
Qed.

Lemma keeps_TrustIdentity rcpt number : (forall msg, keeps (send msg)) -> keeps (TrustIdentity rcpt number).
Proof.
  intros Hsend. unfold TrustIdentity. apply keeps_fork; [keeps_run|]. apply keeps_io_bind; [keeps_run|intros _].
  intros w Hw. unfold io_bind at 1. destruct (identityOf rcpt w) as [[identity|e] w1] eqn:H;
    pose proof (keeps_identityOf rcpt w Hw) as Hw1; rewrite H in Hw1; [|exact Hw1].
  apply identityOf_run in H as (_ & _ & _ & Hs); [|exact Hw]. destruct (Hs identity eq_refl) as (id' & _ & Hfound).
  destruct Hfound as (_ & _ & _ & _ & _ & _ & Hl). clear Hw Hs.
  unfold io_bind at 1, io_of at 1. destruct (trustLevelFor identity number) as [level|e] eqn:Hlevel; [|exact Hw1].
  apply trustLevelFor_trusted in Hlevel; [|done].
  unfold io_bind at 1, io_of at 1. destruct (identityServiceID _) as [theirID|e]; [|exact Hw1].
  revert w1 Hw1. apply keeps_io_bind; [apply keeps_trustLocally; destruct Hlevel as [->| ->]; [by left|by right]|intros level'].
  apply keeps_fork; [keeps_run|]. apply keeps_io_bind; [|intros ?; keeps_run].
  apply keeps_io_try. unfold syncPendingIdentityVerification. apply keeps_fork; [by apply keeps_flush|keeps_run].
Qed.

(** Everything that touches the identity tables: libsignal's callbacks, the report, the user, the
    linked devices, contact storage in signalmeow's transaction, and the sync of the queue. *)
Inductive client_step (takes : list Event -> bool) : idworld P -> idworld P -> Prop :=
  | step_save s id K w : client_step takes w (snd (SaveIdentityKey_ s id K w))
  | step_trusted s id K receiving w : client_step takes w (snd (IsTrustedIdentity s id K receiving w))
  | step_report w : client_step takes w (snd (report takes w))
  | step_trust rcpt number w : client_step takes w (snd (TrustIdentity rcpt number w))
  | step_verification update w : client_step takes w (snd (handleIdentityVerification update w))
  | step_storage update w : client_step takes w (snd (DoDecryptionTxn (reconcileStorageIdentities update) w))
  | step_flush w : client_step takes w (snd (flushIdentityVerification w)).

Lemma keeps_snd {A} (m : M A) w : keeps m -> typed w -> typed (snd (m w)).
Proof. intros Hm Hw. specialize (Hm w Hw). by destruct (m w) as [[] ?]. Qed.

Lemma client_step_typed takes w w' : (forall msg, keeps (send msg)) -> client_step takes w w' -> typed w -> typed w'.
Proof.
  intros Hsend Hstep Hw. destruct Hstep; (apply keeps_snd; [|exact Hw]).
  - apply keeps_SaveIdentityKey.
  - apply keeps_IsTrusted.
  - apply keeps_report.
  - by apply keeps_TrustIdentity.
  - apply keeps_handle.
  - apply keeps_txn, keeps_reconcile.
  - by apply keeps_flush.
Qed.

(** C18. The identity tables stay well-formed. From a well-formed database (an empty one is), any
    sequence of key observations, reports, decisions of the user, of linked devices and of
    contact storage, and queue flushes keeps every record's trust at one of the three levels
    under a real service ID, and every queued decision a trusting one under its own name: so
    nothing the queue holds is ever refused for its level. Sending a message may run any steps
    that do the same. *)
Theorem identity_tables_typed takes w w' :
  (forall msg, keeps (send msg)) -> typed w -> rtc (client_step takes) w w' ->
  (forall name row, db_identities (iw_db w') !! name = Some row -> canonical name /\ is_level (ParseTrustLevel (row_trust row)))
  /\ (forall name q, db_queue (iw_db w') !! name = Some q ->
        is_ServiceID q = name /\ canonical name /\ Trusted (ParseTrustLevel (is_Trust q)) = true)
  /\ (forall name o, db_observed (iw_db w') !! name = Some o -> si_ServiceID o = name).
Proof.
  intros Hsend Hw Hrun. induction Hrun as [w|w w1 w' Hstep _ IH]; [exact Hw|]. apply IH. by eapply client_step_typed.
Qed.
End client.
