(* ===== verification/AppIdentities.v ===== *)
(** * Identity keys of other users, and syncing (internal/app/identities.go, sync.go)

    The commands turn their argument into another user and make one call of the facade, which [IdentityApi] states. *)

From S2P Require Import Prelude Errors Uuid Utf8 Strconv Types SendCheck Groups Recipients SendFlow GroupMembers GroupSettings GroupAccept GroupJoin Content FilePath Attachments AppSend AppWrite Directory AppGroups Accounts Identity IdentityStore IdentityTrust IdentityClient.

Record IdentitiesListRequest := mkIdentitiesList { ilr_Recipient : string }.
Record IdentitiesTrustRequest := mkIdentitiesTrust { itr_Recipient : string; itr_SafetyNumber : string }.
Record app_SyncRequest := mkAppSync { asq_Timeout : Z }.
Record app_SyncResult := mkAppSyncResult { asr_Result : SyncResult; asr_Incomplete : error }.

(** The calls of signal.Client: a safety number is an identity with its digits and the fingerprint that is scanned; a sync is bounded by a timeout if there is one. *)
Class IdentityApi (W : Type) := {
  client_Identities : option Recipient -> io W err (list SignalIdentity);
  client_SafetyNumber : Recipient -> io W err (SignalIdentity * string * string);
  client_TrustIdentity : Recipient -> string -> io W err SignalIdentity;
  client_Sync : option Z -> W -> (SyncResult * error) * W;
}.

Section identities.
Context {U : UuidLib} {W : Type} {C : Client W} {I : IdentityApi W}.
Notation M := (io (App W) err).

Definition identityUser (arg : string) : M Recipient :=
  if upper_prefix (TrimSpace arg) "PNI:" then
    let* target := io_of (parseRemovalMember arg) in
    let* own := lift client_Account in
    if PNI (tgt_Recipient target) == acc_PNI own then io_err (errorf ErrInvalidRecipient) else io_ret (tgt_Recipient target)
  else
    let* r := io_try (ResolveRecipients [arg]) in
    match r with
    | Err e => io_err (if errIs e ErrNotConnected then Wrap [e] else e)
    | Ok [] => io_err index_panic
    | Ok (target :: _) =>
        if Target_IsGroup target then io_err (errorf ErrInvalidRecipient)
        else if tgt_Self target then io_err (errorf ErrInvalidRecipient)
        else io_ret (tgt_Recipient target)
    end.

Definition IdentitiesList (req : IdentitiesListRequest) : M (list SignalIdentity) :=
  let* rcpt := (if ilr_Recipient req == "" then io_ret None
                else let* user := wrap_err (identityUser (ilr_Recipient req)) in io_ret (Some user)) in
  wrap_err (lift (client_Identities rcpt)).

Definition IdentitiesShow (recipient : string) : M (SignalIdentity * string * string) :=
  let* user := wrap_err (identityUser recipient) in wrap_err (lift (client_SafetyNumber user)).

Definition IdentitiesTrust (req : IdentitiesTrustRequest) : M SignalIdentity :=
  let* _ := (if itr_SafetyNumber req == "" then io_ret tt
             else wrap_err (let* _ := io_of (NormalizeSafetyNumber (itr_SafetyNumber req)) in io_ret tt)) in
  let* user := wrap_err (identityUser (itr_Recipient req)) in
  wrap_err (lift (client_TrustIdentity user (itr_SafetyNumber req))).

Definition DefaultSyncTimeout : Z := 60 * 1000000000.
(** The client must not be connected yet: connecting is not tried again, and an incomplete sync is a result. *)
Definition app_Sync (req : app_SyncRequest) : M app_SyncResult :=
  let* _ := wrap_err (lift client_Connect) in
  let* out := lift (fun w => let (out, w) := client_Sync (if 0 <? asq_Timeout req then Some (asq_Timeout req) else None) w in (Ok out, w)) in
  match out : SyncResult * error with
  | (res, None) => io_ret (mkAppSyncResult res None)
  | (res, Some e) => if errIs e ErrSyncIncomplete then io_ret (mkAppSyncResult res (Some e)) else io_err (Wrap [e])
  end.
End identities.

(** ** Whose keys are meant *)

Section users.
Context {U : UuidLib} {W : Type} {C : Client W} {I : IdentityApi W}.

(** An explicit PNI that is not ours, or what the argument resolves to, neither a group nor marked as ours. *)
Definition other_user (arg : string) (s : App W) (user : Recipient) : Prop :=
  (exists t own w, parseRemovalMember arg = Ok t /\ user = tgt_Recipient t /\ client_Account (app_world s) = (Ok own, w) /\ PNI user <> acc_PNI own)
  \/ (exists t rest s', ResolveRecipients [arg] s = (Ok (t :: rest), s') /\ Target_IsGroup t = false /\ tgt_Self t = false /\ user = tgt_Recipient t).

Lemma identityUser_other arg s user s' : identityUser arg s = (Ok user, s') -> other_user arg s user.
Proof.
  unfold identityUser. destruct (upper_prefix _ _).
  - unfold io_bind, io_of, lift. destruct (parseRemovalMember arg) as [t|e] eqn:Et; [|done]. destruct (client_Account (app_world s)) as [[own|e] w] eqn:Ea; [|done].
    case_bool_decide as Hp; [done|]. intros [= <- _]. left. by exists t, own, w.
  - unfold io_bind, io_try. destruct (ResolveRecipients [arg] s) as [[[|t rest]|e] s1] eqn:Er; [done| |done]. destruct (Target_IsGroup t) eqn:Eg; [done|].
    destruct (tgt_Self t) eqn:Es; [done|]. intros [= <- _]. right. by exists t, rest, s1.
Qed.

Lemma wrapped_call_Ok {A} (m : io (App W) err A) s a s' : wrap_err m s = (Ok a, s') -> m s = (Ok a, s').
Proof. unfold wrap_err, io_bind, io_try. destruct (m s) as [[x|e] s1]; cbn; [by intros [= -> ->]|done]. Qed.

(** An identity is trusted only for another user, whom the argument names, and after the safety number, if one was given, was found well-formed;
    whether it is the user's is the facade's to check, which gets it as it was typed. *)
Theorem IdentitiesTrust_spec req s id s' : IdentitiesTrust req s = (Ok id, s') ->
  (itr_SafetyNumber req <> ""%string -> exists digits, NormalizeSafetyNumber (itr_SafetyNumber req) = Ok digits)
  /\ exists user w w', other_user (itr_Recipient req) s user /\ client_TrustIdentity user (itr_SafetyNumber req) w = (Ok id, w').
Proof.
  unfold IdentitiesTrust. intros H. unfold io_bind at 1 in H. case_bool_decide as Hn.
  - split; [done|]. cbn in H. unfold io_bind at 1 in H. destruct (wrap_err (identityUser _) s) as [[user|e] s1] eqn:Eu; [|done].
    apply wrapped_call_Ok, identityUser_other in Eu. apply wrapped_call_Ok in H. unfold lift in H. destruct (client_TrustIdentity _ _ _) as [r w'] eqn:Et. injection H as -> _.
    by exists user, (app_world s1), w'.
  - destruct (wrap_err _ s) as [[[]|e] s0] eqn:E0; [|done]. apply wrapped_call_Ok in E0. unfold io_bind, io_of in E0.
    destruct (NormalizeSafetyNumber _) as [digits|e]; [|done]. injection E0 as <-. split; [intros _; by exists digits|].
    unfold io_bind at 1 in H. destruct (wrap_err (identityUser _) s) as [[user|e] s1] eqn:Eu; [|done].
    apply wrapped_call_Ok, identityUser_other in Eu. apply wrapped_call_Ok in H. unfold lift in H. destruct (client_TrustIdentity _ _ _) as [r w'] eqn:Et. injection H as -> _.
    by exists user, (app_world s1), w'.
Qed.

(** A sync of the application has a result without an error exactly when the facade says so, and else says why it is incomplete. *)
Lemma app_Sync_complete req s out s' : app_Sync req s = (Ok out, s') ->
  exists timeout w w', client_Sync timeout w = ((asr_Result out, asr_Incomplete out), w') /\ (forall e, asr_Incomplete out = Some e -> errIs e ErrSyncIncomplete = true).
Proof.
  unfold app_Sync, io_bind. destruct (wrap_err _ s) as [[[]|e] s1]; [|done]. unfold lift. set (timeout := if 0 <? asq_Timeout req then _ else _).
  destruct (client_Sync timeout (app_world s1)) as [[res [e|]] w'] eqn:E; cbn.
  - destruct (errIs e ErrSyncIncomplete) eqn:Ei; [|done]. intros [= <- _]. exists timeout, (app_world s1), w'. split; [done|]. by intros e' [= <-].
  - intros [= <- _]. by exists timeout, (app_world s1), w'.
Qed.
End users.
