(* ===== verification/IdentityDecisions.v ===== *)
(** * What the trust decisions do

    The theorems about the operations of [IdentityClient.v]: the sessions a decision removes, the
    outcome of another device's decision, of the user's, of contact storage, and the queue. *)

From S2P Require Import Prelude Errors Uuid Utf8 Strconv Types GroupChange Identity IdentityStore Protowire IdentityTrust IdentityClient.

Section decisions.
Context {U : UuidLib} {W : Protowire} {P : Type} {S : SignalTables P} {F : FingerprintLib}.
Context {UL : UuidLaws U} {SL : SignalLaws P S}.
Context (closing : bool) (deviceError : error) (connected : bool) (lockError : error).

Notation M := (io (idworld P) err).

Context (send : VerifiedMessage -> M unit).

(** ** What the decisions do *)

Lemma exec_Ok (f : iddb P -> iddb P) w a w' : exec f w = (Ok a, w') -> iw_db w' = f (iw_db w) /\ same_memory w w'.
Proof. rewrite run_exec. destruct (faulty w); [done|]. by intros [= _ <-]. Qed.

Lemma select_Ok {A} (f : iddb P -> A) w a w' : select f w = (Ok a, w') -> a = f (iw_db w) /\ iw_db w' = iw_db w /\ same_memory w w'.
Proof. rewrite run_select. destruct (faulty w); [done|]. by intros [= <- <-]. Qed.

(** Every session with the user has the key. *)
Definition clean (p : P) (id : ServiceID) (key : string) (s : serviceStore) : Prop :=
  exists ts, AllSessionsForServiceID s id p = Ok ts /\ forall x, x ∈ ts -> stale_session key x.2 = false.

Lemma RemoveSession_clean s a p p' id key s' : RemoveSession s a p = (Ok tt, p') -> clean p id key s' -> clean p' id key s'.
Proof.
  intros Hr (ts & Hts & Hc). destruct (RemoveSession_law _ _ _ _ Hr _ _ _ Hts) as (ts' & Hts' & Hsub & _).
  exists ts'. split; [done|]. intros x Hx. apply Hc. by eapply elem_of_sublist.
Qed.

Lemma remove_tuples_keep s key tuples n w r w' id key' s' :
  remove_tuples s key tuples n w = (Ok r, w') -> clean (db_signal (iw_db w)) id key' s' -> clean (db_signal (iw_db w')) id key' s'.
Proof.
  revert n w. induction tuples as [|[a rec] rest IH]; intros n w; cbn; [by intros [= _ <-]|].
  destruct (stale_session key rec); [|apply IH].
  unfold io_bind, io_try, signal_write. destruct (RemoveSession s a (db_signal (iw_db w))) as [[[]|e] p'] eqn:Hr; [|done].
  intros H Hc. apply (IH _ _ H). by eapply RemoveSession_clean.
Qed.

Lemma removeStale_keep_from stores id key n w m w' id' key' s' : remove_stores stores id key n w = (Ok m, w') ->
  clean (db_signal (iw_db w)) id' key' s' -> clean (db_signal (iw_db w')) id' key' s'.
Proof.
  revert n w. induction stores as [|[s|] stores IH]; intros n w; cbn; [by intros [= _ <-]| |apply IH].
  unfold io_bind, io_try, signal_read. destruct (AllSessionsForServiceID s id (db_signal (iw_db w))) as [ts|e]; [|done].
  destruct (remove_tuples s key ts n w) as [[k|e] w1] eqn:Hr; [|done]. intros H Hc. apply (IH _ _ H). by eapply remove_tuples_keep.
Qed.

Lemma remove_tuples_clean s id key tuples n w m w' ts :
  remove_tuples s key tuples n w = (Ok m, w') -> AllSessionsForServiceID s id (db_signal (iw_db w)) = Ok ts ->
  (forall x, x ∈ ts -> stale_session key x.2 = true -> x ∈ tuples) -> clean (db_signal (iw_db w')) id key s.
Proof.
  revert n w ts. induction tuples as [|[a rec] rest IH]; intros n w ts; cbn.
  - intros [= _ <-] Hts Hall. exists ts. split; [done|]. intros x Hx.
    destruct (stale_session key x.2) eqn:E; [|done]. by pose proof (Hall x Hx E) as H%elem_of_nil.
  - destruct (stale_session key rec) eqn:Hstale.
    + unfold io_bind, io_try, signal_write. destruct (RemoveSession s a (db_signal (iw_db w))) as [[[]|e] p'] eqn:Hr; [|done].
      intros H Hts Hall. destruct (RemoveSession_law _ _ _ _ Hr _ _ _ Hts) as (ts' & Hts' & Hsub & Hgone).
      apply (IH _ _ _ H Hts'). intros x Hx Hxs.
      assert (Hin : x ∈ (a, rec) :: rest) by (apply Hall; [by eapply elem_of_sublist|done]).
      apply elem_of_cons in Hin as [->|Hin]; [|done]. by destruct (Hgone eq_refl rec).
    + intros H Hts Hall. apply (IH _ _ _ H Hts).
      intros x Hx Hxs. pose proof (Hall x Hx Hxs) as Hin. apply elem_of_cons in Hin as [->|Hin]; [|done].
      cbn in Hxs. congruence.
Qed.

Lemma removeStale_clean stores id key w m w' s : removeStaleSessions stores id key w = (Ok m, w') ->
  Some s ∈ stores -> clean (db_signal (iw_db w')) id key s.
Proof.
  unfold removeStaleSessions. generalize 0 as n. revert w. induction stores as [|[s'|] stores IH]; intros w n; cbn.
  - intros _ H. by apply elem_of_nil in H.
  - unfold io_bind, io_try, signal_read. destruct (AllSessionsForServiceID s' id (db_signal (iw_db w))) as [ts|e] eqn:Hts; [|done].
    destruct (remove_tuples s' key ts n w) as [[k|e] w1] eqn:Hr; [|done]. intros H [[= ->]|Hin]%elem_of_cons; [|by apply (IH _ _ H)].
    eapply removeStale_keep_from; [exact H|]. apply (remove_tuples_clean _ _ _ _ _ _ _ _ ts Hr Hts). by intros x Hx _.
  - intros H [?|Hin]%elem_of_cons; [done|by apply (IH _ _ H)].
Qed.

Lemma removeStale_device id key w m w' : removeStaleSessions device_sessions id key w = (Ok m, w') ->
  same_but_sessions w w' /\ forall s, clean (db_signal (iw_db w')) id key s.
Proof.
  intros H. split; [by eapply removeStaleSessions_frame|]. intros s. apply (removeStale_clean _ _ _ _ _ _ _ H).
  destruct s; [by left|by right; left].
Qed.

(** *** A linked device's decision *)

Definition others_same (name : string) (db db' : iddb P) : Prop :=
  forall n, n <> name -> db_identities db' !! n = db_identities db !! n /\ db_queue db' !! n = db_queue db !! n
                      /\ db_observed db' !! n = db_observed db !! n.

Lemma io_bind_split {A B} (m : M A) (k : A -> M B) w r w' : io_bind m k w = (r, w') ->
  (exists a w1, m w = (Ok a, w1) /\ k a w1 = (r, w')) \/ (exists e, m w = (Err e, w') /\ r = Err e).
Proof. unfold io_bind. destruct (m w) as [[a|e] w1]; [left; eauto|]. intros [= <- <-]. right. eauto. Qed.

Lemma DoDecryptionTxn_run {A} (m : M A) w r w' : DoDecryptionTxn m w = (r, w') ->
  match r with
  | Ok a => exists w1, m w = (Ok a, w1) /\ iw_db w' = iw_db w1 /\ same_memory w1 w'
  | Err _ => iw_db w' = iw_db w
  end.
Proof.
  unfold DoDecryptionTxn. destruct (m w) as [[a|e] w1]; [|by intros [= <- <-]].
  destruct (faulty w1); intros [= <- <-]; [done|]. by exists w1.
Qed.

(** Both copies of the key, signalmeow's and ours if there is one, are [key]. *)
Definition both_copies (db : iddb P) (id : ServiceID) (key : string) : bool :=
  (protocol_key db id == Some key)
  && match db_identities db !! ServiceID_String id with Some row => row_identity_key row == key | None => true end.

(** What a linked device's decision leaves for the user [id]: the record has the key and the level,
    keeps its history and is no longer pending; a queued decision is superseded, the record is
    protected from contact storage, and every session with another key is gone. *)
Definition decided (id : ServiceID) (key : string) (level : TrustLevel) (db db' : iddb P) : Prop :=
  let name := ServiceID_String id in
  (exists row', db_identities db' !! name = Some row'
     /\ row_identity_key row' = key /\ row_trust row' = TrustLevel_String level /\ row_pending_event row' = false
     /\ (forall row, db_identities db !! name = Some row ->
           row_first_seen row' = row_first_seen row /\ row_changed_at row' = row_changed_at row
           /\ row_previous_key row' = row_previous_key row))
  /\ db_queue db' !! name = None /\ dirty db' name
  /\ protocol_key db' id = Some key /\ (forall s, clean (db_signal db') id key s)
  /\ others_same name db db'.

Lemma dirty_protected (m : gmap string StorageIdentity) name :
  exists o, <[name := protected_row name (m !! name)]> m !! name = Some o /\ si_Dirty o = true.
Proof. eexists. rewrite lookup_insert_eq. split; [done|]. by destruct (m !! name). Qed.

Lemma apply_tail_run id key level row' (w w1 : idworld P) :
  let name := ServiceID_String id in
  row_identity_key row' = key -> row_trust row' = TrustLevel_String level -> row_pending_event row' = false ->
  (forall row, db_identities (iw_db w) !! name = Some row ->
     row_first_seen row' = row_first_seen row /\ row_changed_at row' = row_changed_at row
     /\ row_previous_key row' = row_previous_key row) ->
  protocol_key (iw_db w) id = Some key ->
  (let* _ := ProtectStorageIdentity name in let* _ := DeleteIdentitySync name in
   let* _ := removeStaleSessions device_sessions id key in io_ret tt)
     (with_db (fun _ => with_identities (<[name := row']>) (iw_db w)) (tick w)) = (Ok tt, w1) ->
  decided id key level (iw_db w) (iw_db w1).
Proof.
  intros name H1 H2 H3 H4 Hproto H. apply io_bind_split in H as [([] & wa & Ha & H)|(e & _ & [=])].
  apply io_bind_split in H as [([] & wb & Hb & H)|(e & _ & [=])].
  apply io_bind_split in H as [(n & wc & Hc & [= <-])|(e & _ & [=])].
  apply exec_Ok in Ha as [Ha _], Hb as [Hb _]. apply removeStale_device in Hc as [(p & -> & Hp) Hclean].
  rewrite Ha in Hb. cbn in Hb. rewrite Hb in Hp. cbn in Hp. unfold decided. fold name. split_and!.
  - exists row'. cbn. rewrite Hb. cbn. rewrite lookup_insert_eq. by split_and!.
  - cbn. rewrite Hb. cbn. apply lookup_delete_eq.
  - unfold dirty. cbn. rewrite Hb. cbn. apply dirty_protected.
  - unfold protocol_key in *. cbn. by rewrite Hp.
  - exact Hclean.
  - intros n' Hn. cbn. rewrite Hb. cbn. rewrite !lookup_insert_ne, lookup_delete_ne by done. done.
Qed.

(** A linked device's verification changes trust only of the exact key that both copies agree
    on ([decided] says how). Any other key, and every failure, leaves the whole database as it
    was; no other user's rows ever change. *)
Theorem applyIdentityVerification_spec update level w r w' :
  applyIdentityVerification update level w = (r, w') ->
  let id := NewACIServiceID (iv_ACI update) in
  let key := iv_IdentityKey update in
  (is_ok r = false \/ both_copies (iw_db w) id key = false -> iw_db w' = iw_db w)
  /\ (is_ok r = true -> both_copies (iw_db w) id key = true -> decided id key level (iw_db w) (iw_db w')).
Proof.
  intros H id key. apply DoDecryptionTxn_run in H. destruct r as [[]|e]; [|split; [by intros _|done]].
  destruct H as (w1 & H & Hdb & _). rewrite Hdb. clear Hdb w'. cbn [is_ok]. revert H.
  unfold apply_body, both_copies. rewrite <- (ServiceID_String_ACI (iv_ACI update)). fold id key.
  set (name := ServiceID_String id). unfold io_bind at 1, ApplyIdentityTrust, statement at 1. destruct (faulty w); [done|].
  change (identity_keys (db_signal (iw_db w)) !! (ownACI, name)) with (protocol_key (iw_db w) id).
  destruct (bool_decide (protocol_key (iw_db w) id = Some key)) eqn:Hproto; cbn [andb];
    [|by intros [= <-]; split].
  apply bool_decide_eq_true_1 in Hproto.
  destruct (db_identities (iw_db w) !! name) as [row|] eqn:Hrow.
  - destruct (row_identity_key row == key) eqn:Hk; [|by intros [= <-]; split]. apply bool_decide_eq_true_1 in Hk.
    intros H. split; [by intros [?|?]|]. intros _ _. eapply apply_tail_run; [| | | |done|exact H]; [done..|].
    fold name. rewrite Hrow. by intros ? [= <-].
  - intros H. split; [by intros [?|?]|]. intros _ _. eapply apply_tail_run; [| | | |done|exact H]; [done..|].
    fold name. rewrite Hrow. done.
Qed.

(** *** The user's decision *)

(** Saving the current key again changes nothing but signalmeow's copy. *)
Lemma SaveIdentityKey_same s id K k rec w b w' :
  current_identity (iw_db w) id = Some rec -> ir_Key rec = k -> key_Serialize K = Ok k ->
  SaveIdentityKey_ s id K w = (Ok b, w') ->
  exists p, iw_db w' = with_signal p (iw_db w)
    /\ identity_keys p = <[(uuid_string dev_ACI, ServiceID_String id) := k]> (identity_keys (db_signal (iw_db w)))
    /\ iw_tokens w' = iw_tokens w.
Proof.
  intros Hcur Hkey Hk. unfold SaveIdentityKey_, io_bind, io_of, wrap. rewrite Hk.
  destruct (knownKey s id w) as [q w1] eqn:Hkn. apply knownKey_run in Hkn as [-> Hkn].
  destruct q as [known|e]; [|done]. rewrite (Hkn known) by done.
  unfold signal_write. destruct (SaveIdentityKey s id K (db_signal (iw_db w))) as [[c|e] p] eqn:Hs; [|done].
  destruct (SaveIdentityKey_law _ _ _ _ _ _ _ Hs Hk) as [Hkeys _].
  destruct (observe id k _ _) as [[q|e] w2] eqn:Ho; [|done]. intros [= _ <-].
  apply observe_key_run in Ho as [Hf Ho]. unfold observed in Ho.
  change (effective (iw_db (with_db (with_signal p) w)) (ServiceID_String id) (protocol_key (iw_db w) id))
    with (current_identity (iw_db w) id) in Ho.
  rewrite Hcur in Ho. cbn in Ho. rewrite bool_decide_eq_true_2 in Ho by done. destruct Ho as (_ & Hdb & _).
  exists p. split_and!; [exact Hdb|exact Hkeys|]. by destruct Hf as (_ & _ & _ & _ & _ & -> & _).
Qed.

(** The record of the decision: the current key at the level, its history kept; signalmeow's copy
    is the same key, sessions with another key are gone, and for an ACI the decision is queued
    for the linked devices and protected from contact storage. *)
Definition trusted_outcome (id : ServiceID) (rec : IdentityRecord) (level : TrustLevel) (token : string) (db db' : iddb P) : Prop :=
  let name := ServiceID_String id in
  db_identities db' !! name = Some (row_of (trusted_record rec (ir_Key rec) (TrustLevel_String level)))
  /\ protocol_key db' id = Some (ir_Key rec)
  /\ (forall s, clean (db_signal db') id (ir_Key rec) s)
  /\ (sid_IsPNI id = false ->
        db_queue db' !! name = Some (mkIdentitySync name (ir_Key rec) (TrustLevel_String level) token) /\ dirty db' name)
  /\ (sid_IsPNI id = true -> db_queue db' = db_queue db /\ db_observed db' = db_observed db)
  /\ others_same name db db'.

Lemma queueLocal_Ok id key level w a w' : queueLocalIdentitySync id key level w = (Ok a, w') ->
  let name := ServiceID_String id in
  iw_db w' = with_queue (<[name := mkIdentitySync name key (TrustLevel_String level) (default ""%string (head (iw_tokens w)))]>)
    (with_observed (fun m => <[name := protected_row name (m !! name)]> m) (iw_db w)).
Proof.
  unfold queueLocalIdentitySync. intros H. apply io_bind_split in H as [([] & w1 & H1 & H)|(e & _ & [=])].
  apply io_bind_split in H as [(t & w2 & [= <- <-] & H)|(e & _ & [=])].
  apply exec_Ok in H1 as [H1 Hm], H as [H _]. destruct Hm as (_ & -> & _) in H. cbn in H. by rewrite H, H1.
Qed.

Lemma trust_tail_run id rec level (w : idworld P) level' w' db :
  let name := ServiceID_String id in
  (if sid_IsPNI id then io_ret level
   else let* _ := queueLocalIdentitySync id (ir_Key rec) level in io_ret level) w = (Ok level', w') ->
  db_identities (iw_db w) = <[name := row_of (trusted_record rec (ir_Key rec) (TrustLevel_String level))]> (db_identities db) ->
  db_queue (iw_db w) = db_queue db -> db_observed (iw_db w) = db_observed db ->
  protocol_key (iw_db w) id = Some (ir_Key rec) -> (forall s, clean (db_signal (iw_db w)) id (ir_Key rec) s) ->
  level' = level /\ trusted_outcome id rec level (default ""%string (head (iw_tokens w))) db (iw_db w').
Proof.
  intros name H Hrows Hq Ho Hproto Hclean. unfold trusted_outcome. fold name. destruct (sid_IsPNI id) eqn:Hpni.
  - injection H as <- <-. rewrite Hrows, Hq, Ho. split; [done|].
    split_and!; [by rewrite lookup_insert_eq|exact Hproto|exact Hclean|done|done|].
    intros n Hn. rewrite Hrows, Hq, Ho. by rewrite lookup_insert_ne.
  - apply io_bind_split in H as [([] & w6 & Hqueue & [= <- <-])|(e & _ & [=])]. split; [done|].
    apply queueLocal_Ok in Hqueue. fold name in Hqueue. unfold dirty, protocol_key, others_same. rewrite Hqueue. cbn. rewrite Hrows, Hq, Ho.
    split_and!; [by rewrite lookup_insert_eq|exact Hproto|exact Hclean| |done|].
    + intros _. rewrite lookup_insert_eq. split; [done|]. apply dirty_protected.
    + intros n Hn. by rewrite !lookup_insert_ne.
Qed.

Lemma trust_body_Ok identity id level number w level' w' :
  typed w -> identityServiceID (id_Recipient (sti_Identity identity)) = Ok id ->
  trust_body identity id level number w = (Ok level', w') ->
  exists rec, current_identity (iw_db w) id = Some rec /\ ir_Key rec = sti_key identity
    /\ level' = (if number == ""%string then Z.max TrustUnverified (ParseTrustLevel (ir_Trust rec)) else level)
    /\ trusted_outcome id rec level' (default ""%string (head (iw_tokens w))) (iw_db w) (iw_db w').
Proof.
  intros Hw Hid H. apply io_bind_split in H as [(current & w1 & H1 & H)|(e & _ & [=])].
  apply identityOf_run in H1 as (Hdb1 & (_ & Ht1 & _) & _ & Hs); [|exact Hw].
  destruct (Hs current eq_refl) as (id' & Hid' & Hcur & Hkey & Hlevel & _ & _ & Hsid & _).
  rewrite Hid in Hid'. injection Hid' as <-. set (rec := sti_record current) in *.
  destruct (sti_key current != sti_key identity) eqn:Hne; [done|]. bool_hyps.
  apply io_bind_split in H as [(K & w2 & [= HK <-] & H)|(e & _ & [=])].
  apply io_bind_split in H as [(b & w3 & Hsave & H)|(e & _ & [=])].
  apply io_bind_split in H as [([] & w4 & Hput & H)|(e & _ & [=])].
  apply io_bind_split in H as [(n & w5 & Hstale & H)|(e & _ & [=])].
  assert (Hk : key_Serialize K = Ok (ir_Key rec)).
  { unfold wrap in HK. destruct (DeserializeIdentityKey (sti_key identity)) as [K'|] eqn:Hd; [|done]. injection HK as ->.
    rewrite <- Hkey, Hne. by apply Deserialize_Serialize. }
  rewrite <- Hdb1 in Hcur.
  destruct (SaveIdentityKey_same _ _ _ _ _ _ _ _ Hcur eq_refl Hk Hsave) as (p & Hdb3 & Hkeys & Ht3).
  apply exec_Ok in Hput as [Hdb4 (_ & Ht4 & _)]. apply removeStale_device in Hstale as [(p5 & -> & Hp5) Hclean].
  rewrite Hdb4, Hdb3 in Hp5. cbn in Hp5. rewrite <- Hne, Hkey in *.
  set (level1 := if number == ""%string then _ else level) in H.
  assert (Hrows : db_identities (iw_db w4) = <[ServiceID_String id := row_of (trusted_record rec (ir_Key rec) (TrustLevel_String level1))]> (db_identities (iw_db w))).
  { rewrite Hdb4, Hdb3, Hdb1. cbn. by rewrite Hsid. }
  apply (trust_tail_run _ rec level1 _ _ _ (iw_db w)) in H as [-> Ho]; [|exact Hrows|by cbn; rewrite Hdb4, Hdb3, Hdb1..| |exact Hclean].
  - exists rec. rewrite <- Hdb1 at 1. split_and!; [done|done|by unfold level1; rewrite Hlevel|].
    cbn in Ho. rewrite Ht4, Ht3, Ht1 in Ho. exact Ho.
  - unfold protocol_key. cbn. rewrite Hp5, Hkeys. apply lookup_insert_eq.
Qed.

Lemma trustLevelFor_Ok identity number level : trustLevelFor identity number = Ok level ->
  (number = ""%string -> level = Z.max TrustUnverified (id_Trust (sti_Identity identity)))
  /\ (number <> ""%string -> level = TrustVerified /\ exists digits scannable, NormalizeSafetyNumber number = Ok digits
        /\ safetyNumberFor (id_Recipient (sti_Identity identity)) (sti_key identity) = Ok (digits, scannable)).
Proof.
  unfold trustLevelFor. case_bool_decide as Hn; [by intros [= <-]; split|].
  destruct (NormalizeSafetyNumber number) as [want|]; [|done].
  destruct (safetyNumberFor _ _) as [[got sc]|]; [|done]. destruct (got != want) eqn:Hg; [done|]. bool_hyps.
  intros [= <-]. split; [done|]. intros _. split; [done|]. subst want. exists got, sc. by split_and!.
Qed.

Lemma trustLocally_run identity id level number w r w' :
  typed w -> identityServiceID (id_Recipient (sti_Identity identity)) = Ok id ->
  trustIdentityLocally identity id level number w = (r, w') ->
  (is_ok r = false -> iw_db w' = iw_db w)
  /\ forall level', r = Ok level' ->
       exists rec, current_identity (iw_db w) id = Some rec /\ ir_Key rec = sti_key identity
       /\ level' = (if number == ""%string then Z.max TrustUnverified (ParseTrustLevel (ir_Trust rec)) else level)
       /\ trusted_outcome id rec level' (default ""%string (head (iw_tokens w))) (iw_db w) (iw_db w').
Proof.
  intros Hw Hid. unfold trustIdentityLocally, io_bind, io_try.
  destruct (DoDecryptionTxn _ w) as [q w1] eqn:H. apply DoDecryptionTxn_run in H.
  destruct q as [l|e]; intros [= <- <-]; (split; [done|]); [|done].
  intros level' [= <-]. destruct H as (w2 & H & -> & _). by apply trust_body_Ok in H.
Qed.

(** In a database with that outcome only the key of the decision may be encrypted for. *)
Lemma trusted_outcome_gates id rec level token db (w : idworld P) s K k b w2 :
  trusted_outcome id rec level token db (iw_db w) -> Trusted level = true ->
  key_Serialize K = Ok k -> IsTrustedIdentity s id K false w = (Ok b, w2) -> b = bool_decide (ir_Key rec = k).
Proof.
  intros (Hrow & _) Hl HK H. apply (IsTrustedIdentity_run _ _ _ _ _ _ _ HK) in H as [_ H].
  unfold observed, effective in H. rewrite Hrow in H. cbn [ir_Key scanIdentity row_of row_identity_key trusted_record] in H.
  case_bool_decide; destruct H as [-> _]; [|done]. cbn. rewrite ParseTrustLevel_String; [done|by apply Trusted_level].
Qed.

(** Trusting an identity while offline, as one transaction. It fails with the database as it
    was, or it commits the user's current key at the new level: verified exactly when the safety
    number given is, spaces aside, the one of that key, and without a number at least unverified
    and never lower than before. Then signalmeow's copy is that key, no session with
    another key is left, other users are untouched, and for an ACI the decision is queued for
    the linked devices with the next token and protected from contact storage; for a PNI neither.
    From then on libsignal is told that it may encrypt for a key of that user exactly if it is
    the key that was trusted. *)
Theorem TrustIdentity_spec rcpt number w r w' :
  connected = false -> typed w -> TrustIdentity closing deviceError connected lockError send rcpt number w = (r, w') ->
  (is_ok r = false -> iw_db w' = iw_db w)
  /\ forall i e, r = Ok (i, e) -> e = None /\ exists id rec, identityServiceID rcpt = Ok id
      /\ current_identity (iw_db w) id = Some rec
      /\ (number = ""%string -> id_Trust i = Z.max TrustUnverified (ParseTrustLevel (ir_Trust rec)))
      /\ (number <> ""%string -> id_Trust i = TrustVerified /\ exists digits scannable,
            NormalizeSafetyNumber number = Ok digits /\ computeServiceSafetyNumber id (ir_Key rec) = Ok (digits, scannable))
      /\ trusted_outcome id rec (id_Trust i) (default ""%string (head (iw_tokens w))) (iw_db w) (iw_db w')
      /\ (forall s K k b w2, key_Serialize K = Ok k -> IsTrustedIdentity s id K false w' = (Ok b, w2) ->
            b = bool_decide (ir_Key rec = k)).
Proof.
  intros Hoff Hw H. unfold TrustIdentity, syncPendingIdentityVerification in H. rewrite Hoff in H.
  destruct closing; [by injection H as <- <-|].
  apply io_bind_split in H as [(? & w0 & H0 & H)|(e & H0 & ->)]; [|by destruct deviceError; injection H0 as _ <-].
  assert (w0 = w) as -> by (by destruct deviceError; injection H0 as _ <-). clear H0.
  apply io_bind_split in H as [(identity & w1 & H1 & H)|(e & H1 & ->)];
    apply identityOf_run in H1 as (Hdb & (_ & Ht & _) & _ & Hs); [|done| |done]; [|done].
  destruct (Hs identity eq_refl) as (id & Hid & Hcur & Hkey & Hlevel & _ & Hrcpt & _ & _). clear Hs.
  pose proof (identityServiceID_merge _ _ Hid) as Hmerge. rewrite <- Hrcpt in Hmerge.
  apply io_bind_split in H as [(level & w2 & [= Hl <-] & H)|(e & [= He <-] & ->)]; [|by split].
  apply io_bind_split in H as [(id' & w2 & [= Hid' <-] & H)|(e & [= He <-] & ->)]; [|by split].
  rewrite Hmerge in Hid'. injection Hid' as <-.
  assert (Hw1 : typed w1) by (unfold typed; by rewrite Hdb).
  apply io_bind_split in H as [(level' & w3 & H3 & H)|(e & H3 & ->)];
    apply (trustLocally_run _ _ _ _ _ _ _ Hw1 Hmerge) in H3 as [Hfail Hok]; [|split; [|done]; intros _; by rewrite Hfail].
  destruct (Hok level' eq_refl) as (rec & Hcur' & Hkey' & Hlevel' & Ho). rewrite Hdb in Hcur', Ho. rewrite Ht in Ho.
  apply trustLevelFor_Ok in Hl as [Hl1 Hl2].
  assert (Hend : r = Ok (with_trust (sti_Identity identity) level', None) /\ w' = w3).
  { destruct (sid_IsPNI id); by injection H as <- <-. }
  destruct Hend as [-> ->]. split; [done|]. intros i e [= <- <-]. split; [done|]. exists id, rec.
  assert (Htrusted : Trusted level' = true).
  { rewrite Hlevel'. case_bool_decide as Hn; [|by destruct (Hl2 Hn) as [-> _]]. apply max_trusted.
    by destruct (listed_canonical _ _ _ Hw Hcur') as (_ & _ & ?). }
  split_and!; [done|done| | |exact Ho|].
  - intros ->. cbn. exact Hlevel'.
  - intros Hn. rewrite bool_decide_eq_false_2 in Hlevel' by done. destruct (Hl2 Hn) as (-> & digits & sc & Hd & Hsafe).
    split; [exact Hlevel'|]. exists digits, sc. split; [done|]. unfold safetyNumberFor in Hsafe. rewrite Hmerge in Hsafe. by rewrite Hkey'.
  - intros s K k b w2 HK Hask. by apply (trusted_outcome_gates _ _ _ _ _ _ _ _ _ _ _ Ho Htrusted HK Hask).
Qed.

(** *** Contact storage *)

(** Propositional reasoning that knows the two booleans differ. *)
Ltac bool_tauto := pose proof Bool.diff_true_false; pose proof Bool.diff_false_true; pose proof (eq_refl true); pose proof (eq_refl false); tauto.

(** The decision about a remote tuple. It is applied only if nothing local stands against it:
    the two local copies agree, no local decision is protected, the local tuple is still the one
    last seen, and the remote one is news. A tuple equal to ours clears the protection; otherwise
    whatever is not applied because of a local decision stays protected. *)
Theorem storageIdentityDecision_spec current observation remote diverged apply protected :
  storageIdentityDecision current observation remote diverged = (apply, protected) ->
  let trust := TrustLevel_String (ci_level remote) in
  let aligned := identityTupleMatches current (ci_key remote) trust in
  let localChanged o := is_Some current /\ identityTupleMatches current (si_LocalKey o) (si_LocalTrust o) = false in
  (apply = true <->
     diverged = false /\ aligned = false
     /\ match observation with
        | None => current = None
        | Some o => si_Dirty o = false /\ ~ localChanged o /\ (ci_key remote <> si_RemoteKey o \/ trust <> si_RemoteTrust o)
        end)
  /\ (protected = true <->
     (aligned = false \/ diverged = true)
     /\ (diverged = true \/ match observation with None => is_Some current | Some o => si_Dirty o = true \/ localChanged o end)).
Proof.
  intros H trust aligned localChanged. unfold storageIdentityDecision in H. fold trust aligned in H. clearbody aligned.
  assert (Hlc : forall o, bool_decide (is_Some current) && negb (identityTupleMatches current (si_LocalKey o) (si_LocalTrust o)) = true
    <-> localChanged o).
  { intros o. unfold localChanged. rewrite andb_true_iff, negb_true_iff, bool_decide_eq_true. done. }
  assert (Hch : forall o, (ci_key remote != si_RemoteKey o) || (trust != si_RemoteTrust o) = true
    <-> ci_key remote <> si_RemoteKey o \/ trust <> si_RemoteTrust o).
  { intros o. rewrite orb_true_iff, !negb_true_iff, !bool_decide_eq_false. done. }
  destruct observation as [o|].
  - specialize (Hlc o). specialize (Hch o). generalize dependent (localChanged o). intros LC Hlc. clear localChanged.
    generalize dependent (ci_key remote <> si_RemoteKey o \/ trust <> si_RemoteTrust o). intros CH Hch.
    destruct (bool_decide (is_Some current) && _), ((ci_key remote != _) || _); cbv zeta in H; clear -H Hlc Hch.
    all: destruct aligned, diverged, (si_Dirty o); cbn in H; injection H as <- <-.
    all: bool_tauto.
  - clear Hlc Hch localChanged. destruct current as [rec|];
      [rewrite (bool_decide_eq_true_2 (is_Some (Some rec))) in H by done
      |rewrite (bool_decide_eq_false_2 (is_Some None)) in H by (by intros [? ?])].
    + assert (is_Some (Some rec)) by done. assert (Some rec <> None) by done. destruct aligned, diverged; cbn in H; injection H as <- <-.
      all: bool_tauto.
    + assert (~ is_Some (@None IdentityRecord)) by (by intros [? ?]). assert (@None IdentityRecord = None) by done. destruct aligned, diverged; cbn in H; injection H as <- <-.
      all: bool_tauto.
Qed.

Lemma protocolKey_Ok aci w key w' : storageProtocolKey aci w = (Ok key, w') ->
  key = protocol_key (iw_db w) (NewACIServiceID aci) /\ w' = w.
Proof.
  unfold storageProtocolKey, io_bind, io_try. destruct (knownKey _ _ w) as [[k|e] w1] eqn:H; [|done].
  apply knownKey_run in H as [-> H]. intros [= <- <-]. split; [by apply H|done].
Qed.

Lemma recordForStorage_Ok aci w rec w' : identityRecordForStorage aci w = (Ok rec, w') ->
  rec = current_identity (iw_db w) (NewACIServiceID aci) /\ iw_db w' = iw_db w /\ iw_now w' = iw_now w.
Proof.
  unfold identityRecordForStorage, current_identity, effective. rewrite ServiceID_String_ACI. intros H.
  apply io_bind_split in H as [(r & w1 & H1 & H)|(e & _ & [=])]. apply select_Ok in H1 as (-> & Hdb & Hm & _).
  destruct (db_identities (iw_db w) !! uuid_string aci) as [row|]; [by injection H as <- <-|]. cbn [fmap option_fmap option_map] in H.
  apply io_bind_split in H as [(k & w2 & H2 & [= <- <-])|(e & _ & [=])]. apply protocolKey_Ok in H2 as [-> ->]. by rewrite Hdb.
Qed.

Lemma applyStorage_Ok current remote w rec w' : applyStorageIdentity current remote w = (Ok rec, w') ->
  let id := NewACIServiceID (ci_aci remote) in
  let name := uuid_string (ci_aci remote) in
  rec = storage_record current remote (iw_now w)
  /\ db_identities (iw_db w') = <[ir_ServiceID rec := row_of rec]> (db_identities (iw_db w))
  /\ db_queue (iw_db w') = delete name (db_queue (iw_db w)) /\ db_observed (iw_db w') = db_observed (iw_db w)
  /\ identity_keys (db_signal (iw_db w')) = <[(ownACI, name) := ci_key remote]> (identity_keys (db_signal (iw_db w)))
  /\ (forall s, clean (db_signal (iw_db w')) id (ci_key remote) s).
Proof.
  intros H id name. unfold applyStorageIdentity in H.
  apply io_bind_split in H as [(K & w1 & [= HK <-] & H)|(e & _ & [=])].
  apply io_bind_split in H as [(q & w2 & H2 & H)|(e & _ & [=])]. destruct q as [b|e]; [|done].
  unfold io_try, signal_write in H2. fold id in H2, H.
  destruct (SaveIdentityKey ACIStore id K (db_signal (iw_db w))) as [[b'|e] p] eqn:Hsave; [|done]. injection H2 as -> <-.
  assert (Hk : key_Serialize K = Ok (ci_key remote)).
  { unfold wrap in HK. destruct (DeserializeIdentityKey _) as [K'|] eqn:Hd; [|done]. injection HK as ->. by apply Deserialize_Serialize. }
  destruct (SaveIdentityKey_law _ _ _ _ _ _ _ Hsave Hk) as [Hkeys _].
  apply io_bind_split in H as [(now & w3 & [= <- <-] & H)|(e & _ & [=])].
  apply io_bind_split in H as [([] & w4 & Hput & H)|(e & _ & [=])]. apply exec_Ok in Hput as [Hput _].
  apply io_bind_split in H as [(n & w5 & Hst & H)|(e & _ & [=])]. apply removeStale_device in Hst as [(p5 & -> & Hp5) Hclean].
  apply io_bind_split in H as [([] & w6 & Hdel & [= <- <-])|(e & _ & [=])]. apply exec_Ok in Hdel as [Hdel _].
  cbn in Hput, Hdel. rewrite Hput in Hp5. cbn in Hp5. rewrite ?Hput in Hdel. cbn in Hdel.
  rewrite Hdel. cbn. split_and!; [done..| |exact Hclean]. rewrite Hp5, Hkeys. unfold id. by rewrite ServiceID_String_ACI.
Qed.

Definition copies_diverge (current : option IdentityRecord) (protocol : option string) : bool :=
  match current with Some rec => ir_Key rec != key_of protocol | None => false end.

Lemma storage_record_id current remote now :
  (forall rec, current = Some rec -> ir_ServiceID rec = uuid_string (ci_aci remote)) ->
  ir_ServiceID (storage_record current remote now) = uuid_string (ci_aci remote).
Proof. intros H. unfold storage_record. destruct current as [rec|]; [|done]. rewrite <- (H rec) by done. by destruct (_ != _). Qed.

Lemma current_identity_id db id rec : current_identity db id = Some rec -> ir_ServiceID rec = ServiceID_String id.
Proof.
  unfold current_identity, effective. destruct (db_identities db !! _); [by intros [= <-]|]. by intros (k & _ & ->)%fmap_Some.
Qed.

Lemma protocol_key_ACI (db : iddb P) u : protocol_key db (NewACIServiceID u) = identity_keys (db_signal db) !! (ownACI, uuid_string u).
Proof. unfold protocol_key. by rewrite ServiceID_String_ACI. Qed.

Lemma next_observation_id name o remote c protected : si_ServiceID (next_observation name o remote c protected) = name.
Proof. unfold next_observation. by destruct c, o. Qed.

(** What reconciling one contact does to the rows of its user: a tuple that is applied becomes the
    record and signalmeow's key, drops the queued decision and every session with another key, and
    leaves no protection; one that is not applied changes no key, trust or queued decision. Either way the
    observation remembers the remote tuple and the local one. *)
Definition reconciled (remote : contactIdentity) (now : time) (db db' : iddb P) : Prop :=
  let id := NewACIServiceID (ci_aci remote) in
  let name := uuid_string (ci_aci remote) in
  let cur := current_identity db id in
  let observation := db_observed db !! name in
  let decision := storageIdentityDecision cur observation remote (copies_diverge cur (protocol_key db id)) in
  let rec := storage_record cur remote now in
  db_observed db' !! name
    = Some (next_observation name observation remote (if decision.1 then Some rec else cur) decision.2)
  /\ (if decision.1 then
        db_identities db' !! name = Some (row_of rec) /\ db_queue db' !! name = None
        /\ protocol_key db' id = Some (ci_key remote) /\ (forall s, clean (db_signal db') id (ci_key remote) s)
      else db_identities db' !! name = db_identities db !! name /\ db_queue db' !! name = db_queue db !! name
           /\ protocol_key db' id = protocol_key db id).

(** What it leaves alone for another user. *)
Definition user_same (name : string) (db db' : iddb P) : Prop :=
  db_identities db' !! name = db_identities db !! name /\ db_queue db' !! name = db_queue db !! name
  /\ db_observed db' !! name = db_observed db !! name
  /\ identity_keys (db_signal db') !! (ownACI, name) = identity_keys (db_signal db) !! (ownACI, name).

(** No operation here gives anybody a session with another key. *)
Definition sessions_kept (db db' : iddb P) : Prop :=
  forall id key s, clean (db_signal db) id key s -> clean (db_signal db') id key s.

Lemma applyStorage_sessions current remote w rec w' : applyStorageIdentity current remote w = (Ok rec, w') ->
  sessions_kept (iw_db w) (iw_db w') /\ iw_now w' = iw_now w /\ db_meta (iw_db w') = db_meta (iw_db w).
Proof.
  intros H. unfold applyStorageIdentity in H.
  apply io_bind_split in H as [(K & w1 & [= HK <-] & H)|(e & _ & [=])].
  apply io_bind_split in H as [(q & w2 & H2 & H)|(e & _ & [=])]. destruct q as [b|e]; [|done].
  unfold io_try, signal_write in H2. set (id := NewACIServiceID (ci_aci remote)) in *.
  destruct (SaveIdentityKey ACIStore id K (db_signal (iw_db w))) as [[b'|e] p] eqn:Hsave; [|done]. injection H2 as -> <-.
  assert (Hk : key_Serialize K = Ok (ci_key remote)).
  { unfold wrap in HK. destruct (DeserializeIdentityKey _) as [K'|] eqn:Hd; [|done]. injection HK as ->. by apply Deserialize_Serialize. }
  destruct (SaveIdentityKey_law _ _ _ _ _ _ _ Hsave Hk) as [_ Hsess].
  apply io_bind_split in H as [(now & w3 & [= <- <-] & H)|(e & _ & [=])].
  apply io_bind_split in H as [([] & w4 & Hput & H)|(e & _ & [=])]. apply exec_Ok in Hput as [Hput (Hn & _)].
  apply io_bind_split in H as [(n & w5 & Hst & H)|(e & _ & [=])].
  pose proof (fun id' key' s' => removeStale_keep_from _ _ _ _ _ _ _ id' key' s' Hst) as Hkeep.
  apply removeStaleSessions_frame in Hst as (p5 & -> & _).
  apply io_bind_split in H as [([] & w6 & Hdel & [= <- <-])|(e & _ & [=])]. apply exec_Ok in Hdel as [Hdel (Hn' & _)].
  cbn in Hput, Hdel, Hkeep. rewrite Hput in Hkeep. cbn in Hkeep. rewrite Hput in Hdel. cbn in Hdel. split_and!.
  - intros id' key' s' Hc. rewrite Hdel. cbn. apply Hkeep. destruct Hc as (ts & Hts & Hall). exists ts. by rewrite Hsess.
  - rewrite Hn'. cbn. by rewrite Hn.
  - by rewrite Hdel.
Qed.

Lemma reconcileContact_run remote w w' : reconcileContactIdentity remote w = (Ok tt, w') ->
  reconciled remote (iw_now w) (iw_db w) (iw_db w')
  /\ (forall n, n <> uuid_string (ci_aci remote) -> user_same n (iw_db w) (iw_db w'))
  /\ sessions_kept (iw_db w) (iw_db w') /\ iw_now w' = iw_now w /\ db_meta (iw_db w') = db_meta (iw_db w).
Proof.
  intros H. unfold reconciled. set (id := NewACIServiceID (ci_aci remote)). set (name := uuid_string (ci_aci remote)).
  set (cur := current_identity (iw_db w) id). set (observation := db_observed (iw_db w) !! name).
  set (decision := storageIdentityDecision cur observation remote (copies_diverge cur (protocol_key (iw_db w) id))).
  set (rec := storage_record cur remote (iw_now w)).
  apply io_bind_split in H as [(o & w1 & H1 & H)|(e & _ & [=])].
  destruct o as [o|e]; [|done]. unfold io_try in H1. destruct (StorageIdentity_ _ w) as [q w1'] eqn:Ho. injection H1 as -> ->.
  apply select_Ok in Ho as (-> & Hdb1 & Hm1 & _). fold name observation in H.
  apply io_bind_split in H as [(c & w2 & H2 & H)|(e & _ & [=])].
  apply recordForStorage_Ok in H2 as (-> & Hdb2 & Hm2). rewrite Hdb1 in H. fold id cur in H.
  apply io_bind_split in H as [(k & w3 & H3 & H)|(e & _ & [=])]. apply protocolKey_Ok in H3 as [-> ->].
  rewrite Hdb2, Hdb1 in H. fold id in H. fold (copies_diverge cur (protocol_key (iw_db w) id)) in H. cbv zeta in H. fold decision in H.
  rewrite Hdb1 in Hdb2. rewrite Hm1 in Hm2. clear Hdb1 Hm1 w1. unfold id. rewrite !protocol_key_ACI. fold id name.
  assert (Hsid : ir_ServiceID rec = name).
  { apply storage_record_id. intros r Hr. apply current_identity_id in Hr. rewrite Hr. apply ServiceID_String_ACI. }
  destruct decision as [apply protected]. cbn [fst snd]. destruct apply.
  - apply io_bind_split in H as [(c & w4 & H4 & Hput)|(e & _ & [=])].
    apply io_bind_split in H4 as [(r & w5 & H5 & [= <- <-])|(e & _ & [=])].
    destruct (applyStorage_sessions _ _ _ _ _ H5) as (Hkept & Hnow & Hmeta).
    apply applyStorage_Ok in H5 as (-> & Hrows & Hq & Hob & Hkeys & Hclean).
    rewrite Hm2 in *. fold rec in Hrows, Hput. rewrite Hsid in Hrows. rewrite Hdb2 in *.
    apply exec_Ok in Hput as [Hput (Hn & _)]. rewrite Hput. unfold user_same. cbn -[next_observation].
    rewrite Hrows, Hq, Hob, Hkeys, next_observation_id, !lookup_insert_eq, lookup_delete_eq.
    split_and!; [done..|exact Hclean| |exact Hkept|congruence|exact Hmeta].
    intros n Hne. rewrite !lookup_insert_ne, lookup_delete_ne; [by split_and!|intros E; apply Hne; first [by symmetry|injection E as E'; by symmetry]..].
  - apply io_bind_split in H as [(c & w4 & [= <- <-] & Hput)|(e & _ & [=])].
    apply exec_Ok in Hput as [Hput (Hn & _)]. rewrite Hput. unfold user_same, sessions_kept. cbn -[next_observation].
    rewrite Hdb2, next_observation_id, !lookup_insert_eq.
    split_and!; [done..| |done|congruence|done]. intros n Hne. fold name in Hne. rewrite lookup_insert_ne by done. by split_and!.
Qed.

Lemma user_same_refl n db : user_same n db db.
Proof. by split_and!. Qed.
Lemma user_same_trans n db1 db2 db3 : user_same n db1 db2 -> user_same n db2 db3 -> user_same n db1 db3.
Proof. unfold user_same. intros (-> & -> & -> & ->) (-> & -> & -> & ->). by split_and!. Qed.

(** Only the user's own rows and sessions matter. *)
Lemma user_same_current remote db db1 : user_same (uuid_string (ci_aci remote)) db db1 ->
  let id := NewACIServiceID (ci_aci remote) in
  current_identity db1 id = current_identity db id /\ protocol_key db1 id = protocol_key db id
  /\ db_observed db1 !! uuid_string (ci_aci remote) = db_observed db !! uuid_string (ci_aci remote).
Proof.
  intros (H1 & H2 & H3 & H4) id. unfold current_identity, effective, id. rewrite !protocol_key_ACI, ServiceID_String_ACI.
  by rewrite H1, H3, H4.
Qed.

Lemma reconciled_before remote now db db1 db2 :
  user_same (uuid_string (ci_aci remote)) db db1 -> reconciled remote now db1 db2 -> reconciled remote now db db2.
Proof.
  intros Hs. pose proof (user_same_current _ _ _ Hs) as (H1 & H2 & H3). destruct Hs as (Hr & Hq & _ & _).
  unfold reconciled. by rewrite H1, H2, H3, Hr, Hq.
Qed.

Lemma reconciled_after remote now db db1 db2 :
  reconciled remote now db db1 -> user_same (uuid_string (ci_aci remote)) db1 db2 -> sessions_kept db1 db2 -> reconciled remote now db db2.
Proof.
  intros H (Hr & Hq & Ho & Hk) Hkept. unfold reconciled in *.
  assert (Hp : protocol_key db2 (NewACIServiceID (ci_aci remote)) = protocol_key db1 (NewACIServiceID (ci_aci remote))).
  { by rewrite !protocol_key_ACI. }
  rewrite Ho, Hr, Hq, Hp. destruct H as [H1 H2]. split; [exact H1|].
  destruct (storageIdentityDecision _ _ _ _).1; [|exact H2]. destruct H2 as (? & ? & ? & Hc). split_and!; auto.
Qed.

Lemma reconcile_contacts_run ids w w' :
  NoDup (ci_aci <$> ids) -> reconcile_contacts ids w = (Ok tt, w') ->
  (forall remote, remote ∈ ids -> ci_aci remote <> dev_ACI -> reconciled remote (iw_now w) (iw_db w) (iw_db w'))
  /\ (forall n, (forall remote, remote ∈ ids -> ci_aci remote <> dev_ACI -> n <> uuid_string (ci_aci remote)) ->
       user_same n (iw_db w) (iw_db w'))
  /\ sessions_kept (iw_db w) (iw_db w') /\ db_meta (iw_db w') = db_meta (iw_db w).
Proof.
  revert w. induction ids as [|i ids IH]; intros w Hnd; cbn.
  - intros [= <-]. split_and!; [by intros ? ?%elem_of_nil|by intros; apply user_same_refl|by intros ? ? ?|done].
  - apply NoDup_cons in Hnd as [Hi Hnd]. case_bool_decide as Hown.
    { intros H. destruct (IH w Hnd H) as (H1 & H2 & H3). split_and!; [| |apply H3..].
      - intros remote [->|Hin]%elem_of_cons Hne; [by rewrite Hown in Hne|by apply H1].
      - intros n Hn. apply H2. intros r Hr. apply Hn. by right. }
    intros H. apply io_bind_split in H as [([] & w1 & Hrec & H)|(e & _ & [=])].
    apply reconcileContact_run in Hrec as (R1 & R2 & R3 & R4 & R5). destruct (IH w1 Hnd H) as (H1 & H2 & H3 & H4).
    rewrite R4 in H1. split_and!.
    + intros remote [->|Hin]%elem_of_cons Hne.
      * apply (reconciled_after _ _ _ _ _ R1); [|exact H3]. apply H2. intros r Hr _ E%(inj uuid_string).
        apply Hi. rewrite E. by apply list_elem_of_fmap_2.
      * apply (reconciled_before _ _ _ (iw_db w1)); [|by apply H1]. apply R2. intros E%(inj uuid_string).
        apply Hi. rewrite <- E. by apply list_elem_of_fmap_2.
    + intros n Hn. apply (user_same_trans _ _ (iw_db w1)).
      * apply R2, Hn; [by left|done].
      * apply H2. intros r Hr. apply Hn. by right.
    + intros id key s Hc. by apply H3, R3.
    + by rewrite H4.
Qed.

Lemma contact_identities_nodup records seen out ids :
  contact_identities records seen out = Ok ids -> NoDup (ci_aci <$> out) ->
  (forall a, is_Some (seen !! a) <-> a ∈ ci_aci <$> out) -> NoDup (ci_aci <$> ids).
Proof.
  revert seen out. induction records as [|[contact|] rest IH]; intros seen out; cbn; [by intros [= <-]| |apply IH].
  destruct (parseContactIdentity contact) as [i|]; [|apply IH].
  destruct (seen !! ci_aci i) as [p|] eqn:Hs; [destruct (_ || _); [done|apply IH]|].
  intros H Hnd Hseen. apply (IH _ _ H).
  - rewrite fmap_app. apply NoDup_app. split_and!; [done| |apply NoDup_singleton].
    intros a Ha ->%list_elem_of_singleton. apply Hseen in Ha as [p Hp]. cbn in Hp. congruence.
  - intros a. rewrite fmap_app, elem_of_app, <- Hseen. cbn. rewrite list_elem_of_singleton.
    destruct (decide (a = ci_aci i)) as [->|Hne]; [rewrite lookup_insert_eq; split; [by right|done]|].
    rewrite lookup_insert_ne by done. split; [by left|]. by intros [?|?].
Qed.

(** The version reconciled last; [None] if it cannot be read. *)
Definition stored_version (db : iddb P) : option Z :=
  match db_meta db !! storageIdentityVersionKey with
  | None => Some 0
  | Some raw => if raw == ""%string then Some 0 else ParseUint raw
  end.

(** Reconciling contact storage, inside signalmeow's transaction. It fails, with the database as
    it was, or it succeeds; an empty update or one that is not newer than the last changes nothing.
    A newer one is complete, its identities name each user once, every one of these users but the
    account itself is reconciled as [reconciled] says, nobody else's rows change, and the version
    is recorded. *)
Theorem reconcileStorageIdentities_spec u w r w' :
  DoDecryptionTxn (reconcileStorageIdentities deviceError (Some u)) w = (r, w') ->
  (is_ok r = false -> iw_db w' = iw_db w)
  /\ (is_ok r = true ->
       su_Version u = 0 /\ iw_db w' = iw_db w
       \/ exists version, stored_version (iw_db w) = Some version /\
          (su_Version u <= version /\ iw_db w' = iw_db w
           \/ version < su_Version u /\ su_MissingRecords u = []
              /\ db_meta (iw_db w') !! storageIdentityVersionKey = Some (FormatUint (su_Version u))
              /\ exists ids, storageContactIdentities u = Ok ids /\ NoDup (ci_aci <$> ids)
                 /\ (forall remote, remote ∈ ids -> ci_aci remote <> dev_ACI -> reconciled remote (iw_now w) (iw_db w) (iw_db w'))
                 /\ (forall n, (forall remote, remote ∈ ids -> ci_aci remote <> dev_ACI -> n <> uuid_string (ci_aci remote)) ->
                      user_same n (iw_db w) (iw_db w')))).
Proof.
  intros H. apply DoDecryptionTxn_run in H. destruct r as [[]|e]; (split; [done|]); [|done]. intros _.
  destruct H as (w1 & H & -> & _). clear w'. cbn in H.
  destruct (su_Version u =? 0) eqn:Hz; [injection H as <-; left; split; [lia|done]|]. right.
  destruct (0 <? len (su_MissingRecords u)) eqn:Hm; [done|].
  apply io_bind_split in H as [(version & wa & Hv & H)|(e & _ & [=])].
  assert (Hver : stored_version (iw_db w) = Some version /\ iw_db wa = iw_db w /\ iw_now wa = iw_now w).
  { unfold storageIdentityVersion, io_bind, io_try in Hv. destruct (Meta _ w) as [[[raw ok]|e] wb] eqn:Hmeta; [|done].
    apply select_Ok in Hmeta as (Hraw & Hdb & Hn & _). unfold stored_version. rewrite <- Hdb, <- Hn.
    rewrite <- Hdb in Hraw.
    destruct (db_meta (iw_db wb) !! storageIdentityVersionKey) as [v|]; injection Hraw as -> ->; [|by injection Hv as <- <-].
    destruct (v == ""%string); [by injection Hv as <- <-|]. destruct (ParseUint v); [|done]. by injection Hv as <- <-. }
  destruct Hver as (Hver & Hdba & Hna). exists version. split; [exact Hver|].
  destruct (su_Version u <=? version) eqn:Hle; [injection H as <-; left; split; [lia|done]|]. right.
  split; [lia|]. split; [apply len_zero; pose proof (len_nonneg (su_MissingRecords u)); lia|].
  apply io_bind_split in H as [(ids & wb & [= Hids <-] & H)|(e & _ & [=])].
  apply io_bind_split in H as [(? & wb & Hc & H)|(e & _ & [=])].
  assert (wb = wa) as -> by (by destruct deviceError; injection Hc as _ <-). clear Hc.
  apply io_bind_split in H as [([] & wb & Hrun & H)|(e & _ & [=])]. apply exec_Ok in H as [H _].
  assert (Hnd : NoDup (ci_aci <$> ids)).
  { apply (contact_identities_nodup _ _ _ _ Hids); [constructor|]. intros a. rewrite lookup_empty. cbn. rewrite elem_of_nil.
    split; [by intros [? ?]|done]. }
  apply reconcile_contacts_run in Hrun as (R1 & R2 & _ & R4); [|exact Hnd]. rewrite Hdba, Hna in *. rewrite H.
  split; [apply lookup_insert_eq|]. exists ids. split_and!; [exact Hids|exact Hnd|exact R1|exact R2].
Qed.

(** *** Sending the queue *)

(** The decision is still the queued one, and the tables still agree with it. *)
Definition still_in_force (db : iddb P) (update : IdentitySync) : Prop :=
  exists pending, db_queue db !! is_ServiceID update = Some pending /\ is_Token pending = is_Token update
    /\ sync_current ownACI db pending = true.

(** Only what is still in force is sent, and only what was sent is dequeued. A decision that was
    superseded, or no longer matches both copies of the key and the trust, is skipped. Otherwise
    the message is exactly the decision's; whatever happens while it is being sent, a failure
    leaves the queue as it then is, and a success removes the entry with this token alone: a newer
    decision, even about the same key, stays queued. *)
Theorem sendIdentityVerification_spec update w r w' :
  sendIdentityVerification send ownACI update w = (r, w') ->
  let name := is_ServiceID update in
  let in_force := still_in_force (iw_db w) update in
  (is_ok r = false /\ iw_db w' = iw_db w) \/ (r = Ok tt /\ iw_db w' = iw_db w /\ ~ in_force)
  \/ (in_force /\ exists msg w1 w2 q, identityVerificationMessage update = Ok msg /\ iw_db w1 = iw_db w /\ send msg w1 = (q, w2)
      /\ (is_ok r = false /\ iw_db w' = iw_db w2
          \/ is_ok q = true /\ r = Ok tt /\ db_identities (iw_db w') = db_identities (iw_db w2)
             /\ forall n p, db_queue (iw_db w') !! n = Some p <->
                 db_queue (iw_db w2) !! n = Some p /\ ~ (n = name /\ is_Token p = is_Token update))).
Proof.
  intros H name in_force. unfold sendIdentityVerification in H.
  apply io_bind_split in H as [(current & w1 & H1 & H)|(e & H1 & ->)]; [|by unfold io_try in H1; destruct (IdentitySyncCurrent _ _ w)].
  unfold io_try in H1. destruct (IdentitySyncCurrent ownACI update w) as [q w1'] eqn:Hc. injection H1 as <- <-.
  destruct q as [current|e]; cycle 1.
  { injection H as <- <-. left. split; [done|]. unfold IdentitySyncCurrent in Hc. rewrite run_select in Hc.
    destruct (faulty w); by injection Hc as _ <-. }
  apply select_Ok in Hc as (Hcur & Hdb & _). fold name in Hcur.
  assert (Hiff : current = true <-> in_force).
  { unfold in_force, still_in_force. fold name. rewrite Hcur. destruct (db_queue (iw_db w) !! name) as [p|]; [|split; [done|by intros (? & [=] & _)]].
    rewrite andb_true_iff, bool_decide_eq_true. split; [intros [? ?]; by exists p|by intros (? & [= ->] & ? & ?)]. }
  destruct current; cycle 1.
  { injection H as <- <-. right; left. split_and!; [done|done|]. intros Hin. by apply Hiff in Hin. }
  apply io_bind_split in H as [(msg & w2 & [= Hmsg <-] & H)|(e & [= _ <-] & ->)]; [|left; by split].
  right; right. split; [by apply Hiff|].
  apply io_bind_split in H as [(sent & w2 & H2 & H)|(e & H2 & ->)]; [|by unfold io_try in H2; destruct (send msg w1')].
  unfold io_try in H2. destruct (send msg w1') as [q w2'] eqn:Hsend. injection H2 as <- <-.
  exists msg, w1', w2', q. split_and!; [done..|].
  destruct q as [[]|e]; [|injection H as <- <-; by left].
  unfold MarkIdentitySynced in H. rewrite run_exec in H. destruct (faulty w2'); injection H as <- <-;
    [by left|right; split_and!; [done..|]].
  intros n p. cbn. fold name. destruct (db_queue (iw_db w2') !! name) as [p'|] eqn:Hp'; [|split; [|by intros []]; intros Hp; split; [done|];
    intros [-> _]; congruence].
  case_bool_decide as Ht.
  - rewrite lookup_delete_Some. split; [intros [? ?]; split; [done|]; by intros [-> _]|].
    intros [Hp Hn]. split; [|done]. intros <-. apply Hn. split; [done|]. congruence.
  - split; [|by intros []]. intros Hp. split; [done|]. intros [-> ?]. congruence.
Qed.

Lemma PendingIdentitySync_run account (w : idworld P) updates w' : PendingIdentitySync account w = (Ok updates, w') ->
  (forall u, u ∈ updates <-> exists name, db_queue (iw_db w) !! name = Some u /\ sync_current account (iw_db w) u = true)
  /\ (forall name u, db_queue (iw_db w') !! name = Some u <-> db_queue (iw_db w) !! name = Some u /\ sync_current account (iw_db w) u = true)
  /\ db_identities (iw_db w') = db_identities (iw_db w).
Proof.
  unfold PendingIdentitySync. intros H. apply io_bind_split in H as [([] & w1 & H1 & H)|(e & _ & [=])].
  apply exec_Ok in H1 as [H1 _]. apply select_Ok in H as (-> & Hdb & _). rewrite Hdb, H1. cbn. split_and!; [| |done].
  - intros u. rewrite list_elem_of_fmap. split.
    + intros ([name u'] & -> & Hin). rewrite sort_by_perm in Hin. apply elem_of_map_to_list, map_lookup_filter_Some in Hin as [? ?].
      by exists name.
    + intros (name & Hu & Hs). exists (name, u). split; [done|]. rewrite sort_by_perm. apply elem_of_map_to_list, map_lookup_filter_Some. by split.
  - intros name u. rewrite map_lookup_filter_Some. done.
Qed.
End decisions.
