(* ===== verification/IdentityDemo.v ===== *)
(** * Witnesses of the identity theorems

    A concrete instance of signalmeow's tables and libsignal's keys, used by the witnesses only:
    keys are their own serialization, tables are lists. *)

From S2P Require Import Prelude Errors Uuid Utf8 Strconv Types GroupChange Identity IdentityStore Protowire IdentityTrust IdentityClient IdentityDecisions.

(** The witness of a theorem about text alone. *)
Definition demo_number : string := "012345678901234567890123456789012345678901234567890123456789".

Lemma safety_number_roundtrip_witness :
  slen demo_number = 60 /\
  NormalizeSafetyNumber (String.concat " " (GroupSafetyNumber demo_number)) = Ok demo_number.
Proof. split; [reflexivity|]. apply (safety_number_roundtrip demo_number); reflexivity. Defined.

Module DemoSignal.
#[local] Existing Instance DemoUuid.lib.
#[local] Existing Instance DemoUuid.laws.

Record tables := mkTables {
  t_keys : list (string * ServiceID * string);
  t_sessions : list (serviceStore * ServiceID * nat * res string) }.

Definition own : uuid := "11111111-1111-1111-1111-111111111111" ↾ I.
Definition ownp : uuid := "22222222-2222-2222-2222-222222222222" ↾ I.

Definition sid_string (id : ServiceID) : string :=
  if sid_IsPNI id then "PNI:" ++ uuid_string (sid_UUID id) else uuid_string (sid_UUID id).
Definition sid_parse (s : string) : res ServiceID :=
  match cut_prefix "PNI:" s with
  | Some rest => match uuid_parse rest with Some u => Ok (NewPNIServiceID u) | None => Err (Opaque "parse") end
  | None => match uuid_parse s with Some u => Ok (NewACIServiceID u) | None => Err (Opaque "parse") end
  end.

Definition keys_of (p : tables) : gmap (string * string) string :=
  list_to_map ((fun x => ((x.1.1, sid_string x.1.2), x.2)) <$> t_keys p).

Definition at_session (s : serviceStore) (a : nat) (x : serviceStore * ServiceID * nat * res string) : Prop :=
  x.1.1.1 = s /\ x.1.2 = a.
#[local] Instance at_session_dec s a x : Decision (at_session s a x).
Proof. unfold at_session. apply _. Defined.

Definition sessions_of (s : serviceStore) (id : ServiceID) (p : tables) : list (nat * res string) :=
  (fun x => (x.1.2, x.2)) <$> filter (fun x => x.1.1.1 = s /\ x.1.1.2 = id) (t_sessions p).

#[export] Instance lib : SignalTables tables := {|
  IdentityKey := string;
  key_Serialize := Ok;
  DeserializeIdentityKey := fun k => if (slen k =? 33) then Ok k else Err (Opaque "key");
  ServiceID_String := sid_string;
  ServiceIDFromString := sid_parse;
  dev_ACI := own; dev_PNI := ownp;
  identity_keys := keys_of;
  GetIdentityKey := fun _ id p => Ok (keys_of p !! (uuid_string own, sid_string id));
  SaveIdentityKey := fun _ id K p => (Ok true, mkTables ((uuid_string own, id, K) :: t_keys p) (t_sessions p));
  Address := nat;
  AllSessionsForServiceID := fun s id p => Ok (sessions_of s id p);
  RemoveSession := fun s a p => (Ok tt, mkTables (t_keys p) (filter (fun x => ~ at_session s a x) (t_sessions p)));
|}.

Lemma no_prefix (u : uuid) : cut_prefix "PNI:" (uuid_string u) = None.
Proof.
  pose proof (uuid_string_chars u) as H. destruct (uuid_string u) as [|a s]; [done|].
  cbn [string_chars] in H. apply andb_true_iff in H as [H _]. cbn [cut_prefix].
  case_bool_decide as Ha; [|done]. by rewrite <- Ha in H.
Qed.

#[export] Instance laws : SignalLaws tables lib.
Proof.
  split.
  - intros [[] u]; cbn -[cut_prefix uuid_parse uuid_string]; unfold sid_parse, sid_string; cbn [sid_IsPNI sid_UUID].
    + rewrite cut_prefix_app. by rewrite uuid_parse_string.
    + rewrite no_prefix. by rewrite uuid_parse_string.
  - done.
  - done.
  - intros p a name k H. apply elem_of_list_to_map_2, list_elem_of_fmap in H as ([[b id] k'] & [= -> -> ->] & _). by exists id.
  - intros k K. cbn. by destruct (_ =? _); intros [= <-].
  - intros s id p known. cbn. intros [= <-]. destruct (keys_of p !! _) as [k|]; [|done]. by intros k' [= <-].
  - intros s id K k p b p'. cbn. intros [= <- <-] [= <-]. done.
  - intros s a p r p'. cbn. by intros [= <- <-].
  - intros s a p p'. cbn. intros [= <-] s' id ts [= <-]. eexists. split; [done|]. unfold sessions_of. cbn. split.
    + rewrite list_filter_filter. apply fmap_sublist.
      rewrite (list_filter_iff _ (fun x => ~ at_session s a x /\ (x.1.1.1 = s' /\ x.1.1.2 = id))) by (intros; tauto).
      rewrite <- list_filter_filter. apply sublist_filter.
    + intros -> r Hin. apply list_elem_of_fmap in Hin as (x & [= -> ->] & Hx). apply list_elem_of_filter in Hx as [[Hs _] Hx].
      apply list_elem_of_filter in Hx as [Hn _]. by apply Hn.
Qed.
End DemoSignal.

Section witnesses.
#[local] Existing Instance DemoUuid.lib.
#[local] Existing Instance DemoUuid.laws.
#[local] Existing Instance DemoSignal.lib.
#[local] Existing Instance DemoSignal.laws.
#[local] Existing Instance DemoWire.lib.

#[local] Instance demo_fingerprints : FingerprintLib := {|
  PublicKey := string; Fingerprint := string;
  DeserializePublicKey := Ok; own_public_key := "own"; ServiceID_Bytes := DemoSignal.sid_string;
  NewFingerprint := fun _ _ _ _ _ k => Ok k;
  DisplayString := fun _ => Ok demo_number; ScannableEncoding := Ok;
  ParseStringOrBinaryUUID := fun s _ => uuid_parse s; uuid_FromBytes := fun _ => None;
|}.

Definition demo_user : uuid := "33333333-3333-3333-3333-333333333333" ↾ I.
Definition demo_id : ServiceID := NewACIServiceID demo_user.
Definition demo_name : string := uuid_string demo_user.
Definition demo_rcpt : Recipient := ofACI demo_name.
Definition demo_key1 : string := String (ascii_of 5) "aaaaaaaaaaaaaaaaaaaaaaaaaaaaaaaa".
Definition demo_key2 : string := String (ascii_of 5) "bbbbbbbbbbbbbbbbbbbbbbbbbbbbbbbb".
(** A session record of the demo wire format: field 1 holds field 3, the key. *)
Definition demo_record (key : string) : string :=
  String (ascii_of 10) (String (ascii_of 35) (String (ascii_of 26) (String (ascii_of 33) key))).

Definition demo_tables : DemoSignal.tables :=
  DemoSignal.mkTables [(uuid_string DemoSignal.own, demo_id, demo_key1)]
    [(ACIStore, demo_id, 1%nat, Ok (demo_record demo_key1)); (PNIStore, demo_id, 2%nat, Err (Opaque "corrupt"))].
Definition demo_db : iddb DemoSignal.tables :=
  mkIdDB {[ demo_name := mkIdentityRow demo_key1 (TrustLevel_String TrustUnverified) 5 0 "" false ]} ∅ ∅ ∅ demo_tables.
Definition demo_world : idworld DemoSignal.tables := mkIdWorld demo_db [] 7000000 ["token-1"; "token-2"] false [].
Definition demo_takes (evts : list Event) : bool := true.
Definition demo_send (msg : VerifiedMessage) : io (idworld DemoSignal.tables) err unit := io_ret tt.

Lemma demo_typed : typed demo_world.
Proof.
  split_and!.
  - intros name row H. unfold demo_world, demo_db in H. cbn [iw_db db_identities] in H. apply lookup_singleton_Some in H as [<- <-].
    split; [by exists demo_id|by apply (bool_decide_unpack _)].
  - intros name q. cbn. by rewrite lookup_empty.
  - intros name o. cbn. by rewrite lookup_empty.
Defined.

(** The result of a run, apart from the world it ends in. *)
Definition answer {A} (m : io (idworld DemoSignal.tables) err A) (w : idworld DemoSignal.tables) : res A := fst (m w).
Definition after {A} (m : io (idworld DemoSignal.tables) err A) (w : idworld DemoSignal.tables) : idworld DemoSignal.tables := snd (m w).

Lemma run_pair {A} (m : io (idworld DemoSignal.tables) err A) w : m w = (answer m w, after m w).
Proof. unfold answer, after. by destruct (m w). Qed.

(** A changed key is refused, and the change is marked. *)
Lemma IsTrustedIdentity_spec_witness :
  let m := IsTrustedIdentity ACIStore demo_id demo_key2 false in
  answer m demo_world = Ok false /\ iw_pending (after m demo_world) = true
  /\ dirty (iw_db (after m demo_world)) (ServiceID_String demo_id).
Proof.
  intros m. assert (Ha : answer m demo_world = Ok false) by (vm_compute; reflexivity).
  destruct (IsTrustedIdentity_spec (S:=DemoSignal.lib) ACIStore demo_id demo_key2 demo_key2 demo_world _ _ eq_refl (run_pair m demo_world)) as (_ & _ & H & _).
  destruct (H (scanIdentity (ServiceID_String demo_id) (mkIdentityRow demo_key1 (TrustLevel_String TrustUnverified) 5 0 "" false)))
    as (_ & H1 & H2 & _); [vm_compute; reflexivity|discriminate|by rewrite Ha|].
  split; [exact Ha|]. split; [exact H1|exact H2].
Defined.

Definition demo_observations : list observation :=
  [OSave ACIStore demo_id demo_key2; OTrusted PNIStore demo_id demo_key1 false; OReport].

Lemma observations_never_trust_witness :
  exists row', db_identities (iw_db (run_observations demo_takes demo_observations demo_world)) !! demo_name = Some row'
    /\ ((row_identity_key row' = demo_key1 /\ row_trust row' = "trusted-unverified") \/ row_trust row' = "untrusted").
Proof.
  apply (observations_never_trust demo_takes demo_observations demo_world demo_name
           (mkIdentityRow demo_key1 (TrustLevel_String TrustUnverified) 5 0 "" false)).
  vm_compute; reflexivity.
Defined.

Definition demo_changed : idworld DemoSignal.tables :=
  after (IsTrustedIdentity ACIStore demo_id demo_key2 false) demo_world.

Lemma report_spec_witness :
  let w' := after (report demo_takes) demo_changed in
  iw_pending demo_changed = true /\ length (pending_changes (iw_db demo_changed)) = 1%nat
  /\ exists done, pending_changes (iw_db demo_changed) = done /\ iw_emitted w' = iw_emitted demo_changed ++ omap identityChangedEvent done.
Proof.
  intros w'. assert (Hp : iw_pending demo_changed = true) by (vm_compute; reflexivity).
  assert (Ha : answer (report demo_takes) demo_changed = Ok true) by (vm_compute; reflexivity).
  assert (Hf : iw_faults demo_changed = []) by (vm_compute; reflexivity).
  split; [exact Hp|]. split; [vm_compute; reflexivity|].
  destruct (report_spec demo_takes demo_changed _ _ (run_pair _ demo_changed))
    as [(Hno & _)|(dn & rest & b & _ & Hsplit & Hb & _ & _ & He & _ & Hall)].
  - rewrite Hp in Hno. discriminate.
  - destruct (Hall Hf) as [Hiff _]. rewrite Ha in Hb. injection Hb as <-. pose proof (proj1 Hiff eq_refl) as ->.
    exists dn. split; [by rewrite Hsplit, app_nil_r|exact He].
Defined.

Definition demo_update (st : verified_state) : IdentityVerification := mkIdentityVerification demo_user demo_key1 st.

Lemma applyIdentityVerification_spec_witness :
  let m := applyIdentityVerification (demo_update StVERIFIED) TrustVerified in
  answer m demo_world = Ok tt /\ decided demo_id demo_key1 TrustVerified demo_db (iw_db (after m demo_world)).
Proof.
  intros m. assert (Ha : answer m demo_world = Ok tt) by (vm_compute; reflexivity). split; [exact Ha|].
  destruct (applyIdentityVerification_spec (demo_update StVERIFIED) TrustVerified demo_world _ _ (run_pair m demo_world)) as [_ H].
  apply H; [by rewrite Ha|vm_compute; reflexivity].
Defined.

(** Trusting the user with the safety number typed in blocks. *)
Definition demo_typed_number : string := String.concat " " (GroupSafetyNumber demo_number).
Definition demo_trust : io (idworld DemoSignal.tables) err (SignalIdentity * error) :=
  TrustIdentity false None false None demo_send demo_rcpt demo_typed_number.

Lemma TrustIdentity_spec_witness :
  exists i id rec, answer demo_trust demo_world = Ok (i, None) /\ identityServiceID demo_rcpt = Ok id
    /\ id_Trust i = TrustVerified /\ current_identity (iw_db demo_world) id = Some rec
    /\ trusted_outcome id rec (id_Trust i) (default ""%string (head (iw_tokens demo_world))) (iw_db demo_world) (iw_db (after demo_trust demo_world)).
Proof.
  assert (Hok : is_ok (answer demo_trust demo_world) = true) by (vm_compute; reflexivity).
  assert (Hn : demo_typed_number <> ""%string) by (vm_compute; discriminate).
  destruct (TrustIdentity_spec false None false None demo_send demo_rcpt demo_typed_number demo_world _ _ eq_refl demo_typed (run_pair demo_trust demo_world)) as [_ H].
  revert Hok H. generalize (answer demo_trust demo_world) as r. intros [[i e]|e] Hok H; [|discriminate Hok].
  destruct (H i e eq_refl) as (-> & id & rec & Hid & Hcur & _ & Hlevel & Ho & _).
  destruct (Hlevel Hn) as [Hl _]. exists i, id, rec. exact (conj eq_refl (conj Hid (conj Hl (conj Hcur Ho)))).
Defined.

Lemma demo_send_keeps msg : keeps (demo_send msg).
Proof. apply keeps_io_ret. Defined.

Definition demo_step (w w' : idworld DemoSignal.tables) : Prop := client_step false None false None demo_send demo_takes w w'.
Definition demo_end : idworld DemoSignal.tables := after demo_trust demo_changed.

Lemma demo_run : rtc demo_step demo_world demo_end.
Proof.
  apply (rtc_l _ _ demo_changed); [exact (step_trusted _ _ _ _ _ _ ACIStore demo_id demo_key2 false demo_world)|].
  apply (rtc_l _ _ demo_end); [exact (step_trust _ _ _ _ _ _ demo_rcpt demo_typed_number demo_changed)|]. apply rtc_refl.
Defined.

Lemma identity_tables_typed_witness :
  typed demo_world /\ rtc demo_step demo_world demo_end
  /\ (forall name row, db_identities (iw_db demo_end) !! name = Some row -> canonical name /\ is_level (ParseTrustLevel (row_trust row))).
Proof.
  destruct (identity_tables_typed false None false None demo_send demo_takes demo_world demo_end demo_send_keeps demo_typed demo_run) as [H _].
  exact (conj demo_typed (conj demo_run H)).
Defined.

(** The user's key is sent by contact storage as verified, first without, then with an observation. *)
Definition demo_contact : ContactRecord := mkContactRecord demo_name "" demo_key2 StVERIFIED.
Definition demo_storage : StorageUpdate := mkStorageUpdate 7 [] [None; Some (Some demo_contact); Some (Some demo_contact)].
Definition demo_reconcile : io (idworld DemoSignal.tables) err unit := DoDecryptionTxn (reconcileStorageIdentities None (Some demo_storage)).

Lemma reconcileStorageIdentities_spec_witness :
  is_ok (answer demo_reconcile demo_world) = true
  /\ db_meta (iw_db (after demo_reconcile demo_world)) !! storageIdentityVersionKey = Some (FormatUint (su_Version demo_storage))
  /\ exists ids, storageContactIdentities demo_storage = Ok ids /\ NoDup (ci_aci <$> ids).
Proof.
  assert (Ha : is_ok (answer demo_reconcile demo_world) = true) by (vm_compute; reflexivity).
  assert (Hv : stored_version (iw_db demo_world) = Some 0) by (vm_compute; reflexivity).
  destruct (reconcileStorageIdentities_spec None demo_storage demo_world _ _ (run_pair demo_reconcile demo_world)) as [_ H].
  destruct (H Ha) as [[Hz _]|(version & Hver & [[Hle _]|(_ & _ & Hmeta & ids & Hids & Hnd & _)])].
  - discriminate Hz.
  - rewrite Hv in Hver. injection Hver as <-. cbn in Hle. lia.
  - split; [exact Ha|]. split; [exact Hmeta|]. exists ids. exact (conj Hids Hnd).
Defined.

Definition demo_remote : contactIdentity := mkContactIdentity demo_user demo_key2 TrustVerified.

(** A known key without an observation is protected from a different remote tuple. *)
Lemma storageIdentityDecision_spec_witness :
  let current := Some (legacy_record demo_name demo_key1) in
  storageIdentityDecision current None demo_remote false = (false, true)
  /\ ~ (false = false /\ identityTupleMatches current demo_key2 "trusted-verified" = false /\ current = None).
Proof.
  intros current. assert (H : storageIdentityDecision current None demo_remote false = (false, true)) by (vm_compute; reflexivity).
  split; [exact H|]. destruct (storageIdentityDecision_spec current None demo_remote false false true H) as [Happly _].
  intros Hall. assert (Hf : false = true) by (apply Happly; exact Hall). discriminate Hf.
Defined.

(** A queued decision in force, sent while a newer one arrives: the newer one stays. *)
Definition demo_queued : IdentitySync := mkIdentitySync demo_name demo_key1 (TrustLevel_String TrustUnverified) "token-1".
Definition demo_newer : IdentitySync := mkIdentitySync demo_name demo_key1 (TrustLevel_String TrustVerified) "token-2".
Definition demo_queue_world : idworld DemoSignal.tables := with_db (with_queue (<[demo_name := demo_queued]>)) demo_world.
Definition demo_racing_send (msg : VerifiedMessage) : io (idworld DemoSignal.tables) err unit := QueueIdentitySync demo_newer.
Definition demo_sync : io (idworld DemoSignal.tables) err unit := sendIdentityVerification demo_racing_send ownACI demo_queued.

Lemma sendIdentityVerification_spec_witness :
  answer demo_sync demo_queue_world = Ok tt
  /\ db_queue (iw_db (after demo_sync demo_queue_world)) !! demo_name = Some demo_newer
  /\ exists msg w1 w2 q, identityVerificationMessage demo_queued = Ok msg /\ demo_racing_send msg w1 = (q, w2).
Proof.
  assert (Ha : answer demo_sync demo_queue_world = Ok tt) by (vm_compute; reflexivity).
  assert (Hq : bool_decide (db_queue (iw_db (after demo_sync demo_queue_world)) !! demo_name = Some demo_newer) = true) by (vm_compute; reflexivity).
  assert (Hc : bool_decide (db_queue (iw_db demo_queue_world) !! is_ServiceID demo_queued = Some demo_queued)
               && sync_current ownACI (iw_db demo_queue_world) demo_queued = true) by (vm_compute; reflexivity).
  apply andb_true_iff in Hc as [Hc1 Hc2]. apply bool_decide_eq_true_1 in Hc1, Hq.
  split; [exact Ha|]. split; [exact Hq|].
  destruct (sendIdentityVerification_spec demo_racing_send demo_queued demo_queue_world _ _ (run_pair demo_sync demo_queue_world))
    as [[Hno _]|[(_ & _ & Hno)|(_ & msg & w1 & w2 & q & Hmsg & _ & Hsend & _)]].
  - rewrite Ha in Hno. discriminate Hno.
  - destruct Hno. exists demo_queued. exact (conj Hc1 (conj eq_refl Hc2)).
  - exists msg, w1, w2, q. exact (conj Hmsg Hsend).
Defined.
End witnesses.
