(* ===== verification/Receive.v ===== *)
(** * Receiving of the client (internal/signal/meow.go, meow_poll_counters.go)

    [handle] is signalmeow's event handler: what it returns decides whether the server forgets
    the envelope. It learns the chat's timer ([ClientSend.v]), converts the event ([Convert.v]),
    learns vote counters and polls ([StoreCounters.v], [InboxClient.v]), reports identity changes
    first ([IdentityTrust.v]) and hands the event over. *)

From S2P Require Import Prelude Errors Uuid Utf8 Strconv Types SendCheck PollReduce InboxStore InboxEvents PollStore InboxClient StoreCounters GroupChange Identity IdentityStore Protowire IdentityTrust IdentityClient IdentityDemo Wire Reconnect Convert ClientSend.

Inductive incoming {U : UuidLib} := Verification (update : option IdentityVerification) | Received (raw : SignalEvent).

(** The parts of the client that an event reaches; what was handed over on [Events] is in
    [iw_emitted], and [rc_dir] stands for the account registry and the stored contacts. *)
Record receiver {U : UuidLib} (P D : Type) := mkReceiver {
  rc_client : meow; rc_counters : gmap (string * string * string) Z; rc_inbox : mclient; rc_ids : idworld P; rc_dir : D }.
Arguments mkReceiver {U P D}.
Arguments rc_client {U P D}.
Arguments rc_counters {U P D}.
Arguments rc_inbox {U P D}.
Arguments rc_ids {U P D}.
Arguments rc_dir {U P D}.

Section receive.
Context {U : UuidLib} {B : SignalPb} {L : ConvertLib} {F : FieldWire} {J : Encoding} {PJ : PollEncoding} {W : Protowire}.
Context {P D : Type} {S : SignalTables P}.
(** The order of poll keys, whether [Events] takes another event, send-only mode, whether the
    identity store is there; what the registry and the contact list do is only logged. *)
Context (order : gset PollKey -> list PollKey) (takes : list Event -> bool) (sendOnly trusted : bool)
        (markUnlinked : D -> D) (contactsStored : bool -> list ContactTimer -> D -> D).
Notation R := (receiver P D).

Definition on_ids {A} (m : io (idworld P) err A) (r : R) : res A * R :=
  let (x, w) := m (rc_ids r) in (x, mkReceiver (rc_client r) (rc_counters r) (rc_inbox r) w (rc_dir r)).
Definition with_client (c : meow) (r : R) : R := mkReceiver c (rc_counters r) (rc_inbox r) (rc_ids r) (rc_dir r).
Definition with_dir (f : D -> D) (r : R) : R := mkReceiver (rc_client r) (rc_counters r) (rc_inbox r) (rc_ids r) (f (rc_dir r)).

(** [ReservePollVote] of the client. *)
Definition client_reserve (req : PollVoteCounterRequest) (r : R) : res Z * R :=
  match PollVoteCounterRequest_Check req with
  | Some e => (Err e, r)
  | None =>
      if mc_closing (rc_inbox r) then (Err (Wrap [Sent ErrClosed]), r)
      else match mc_device (rc_inbox r) with
           | Some e => (Err (Wrap [e]), r)
           | None =>
               let reservation := mkReservation (Chat_Key (ctr_Chat req)) (ACI (ctr_Author req)) (ctr_Timestamp req) (ctr_Explicit req) in
               let (x, m) := ReservePollVote reservation (rc_counters r) in
               let r := mkReceiver (rc_client r) m (rc_inbox r) (rc_ids r) (rc_dir r) in
               match x with
               | Ok n => (Ok n, r)
               | Err e => (Err (if errIs e ErrPollVoteExhausted then Sent ErrPollVoteExhausted else Wrap [e]), r)
               end
           end
  end.

Definition learnPollVoteCounter (evt : Event) (r : R) : error * R :=
  match OwnPollVoteCounter evt (meow_ownACI (rc_client r)) with
  | None => (None, r)
  | Some req => let (x, r) := client_reserve req r in (match x with Ok _ => None | Err e => Some e end, r)
  end.

Definition learnPollState (evt : Event) (r : R) : error * R :=
  let (e, r) := learnPollVoteCounter evt r in
  match e with
  | Some e => (Some e, r)
  | None =>
      let (x, inbox) := learnPollProjection order evt (rc_inbox r) in
      (match x with Ok _ => None | Err e => Some e end, mkReceiver (rc_client r) (rc_counters r) inbox (rc_ids r) (rc_dir r))
  end.

Definition is_connection (evt : Event) : bool := match evt with EvConnection _ _ => true | _ => false end.

(** [checkLoggedOut] with [markUnlinked]: the cause becomes [UnlinkedError]. *)
Definition checkLoggedOut (evt : option Event) (r : R) : option Event * R :=
  match evt with
  | Some (EvConnection StateLoggedOut _) => (Some (EvConnection StateLoggedOut (Some (errorf ErrDeviceUnlinked))), with_dir markUnlinked r)
  | _ => (evt, r)
  end.

Definition reportIdentityChanges (evt : Event) (r : R) : bool * R :=
  if is_connection evt || negb trusted then (true, r)
  else let (x, r) := on_ids (report takes) r in (match x with Ok b => b | Err _ => true end, r).

(** In send-only mode nobody reads the events. *)
Definition emit (evt : Event) (r : R) : bool * R :=
  if sendOnly then (true, with_client (noteConnection evt (rc_client r)) r)
  else let (x, r) := on_ids (emit_event takes evt) r in (match x with Ok b => b | Err _ => false end, r).

Definition handleReceivedEvent (raw : SignalEvent) (r : R) : bool * R :=
  let (e, c) := learnChatTimers raw (rc_client r) in
  let r := with_client c r in
  match e with
  | Some _ => (false, r)
  | None =>
      let r := match raw with SEContactList isFromDB timers => with_dir (contactsStored isFromDB timers) r | _ => r end in
      let (evt, r) := checkLoggedOut (convertEvent raw (meow_ownACI (rc_client r))) r in
      match evt with
      | None => (true, r)
      | Some evt =>
          if sendOnly && negb (is_connection evt) then (false, r)
          else
            let (e, r) := learnPollState evt r in
            match e with
            | Some _ => (false, r)
            | None =>
                let (reported, r) := reportIdentityChanges evt r in
                if negb reported then (false, r) else emit evt r
            end
      end
  end.

Definition handle (raw : incoming) (r : R) : bool * R :=
  if meow_closing (rc_client r) then (false, r)
  else match raw with
       | Verification update =>
           let (x, r) := on_ids (handleIdentityVerification update) r in
           (match x with Ok (done, _) => done | Err _ => false end, r)
       | Received raw => handleReceivedEvent raw r
       end.
End receive.

(** ** Every acknowledged event was handed over, once and in order *)

Section handed.
Context {U : UuidLib} {UL : UuidLaws U} {B : SignalPb} {L : ConvertLib} {F : FieldWire} {J : Encoding} {PJ : PollEncoding} {W : Protowire}.
Context {P D : Type} {S : SignalTables P}.
Context (order : gset PollKey -> list PollKey) (takes : list Event -> bool) (sendOnly trusted : bool)
        (markUnlinked : D -> D) (contactsStored : bool -> list ContactTimer -> D -> D).
Notation R := (receiver P D).
Notation handleReceivedEvent := (handleReceivedEvent order takes sendOnly trusted markUnlinked contactsStored).

Definition handed (r : R) : list Event := iw_emitted (rc_ids r).
Definition is_change (evt : Event) : bool := match evt with EvIdentityChanged _ _ _ _ => true | _ => false end.

(** The event that is handed over for what was received. *)
Definition public_event (ownACI : string) (raw : SignalEvent) : option Event :=
  match convertEvent raw ownACI with
  | Some (EvConnection StateLoggedOut _) => Some (EvConnection StateLoggedOut (Some (errorf ErrDeviceUnlinked)))
  | evt => evt
  end.

(** Raw events one after the other, with what [handle] said of each. *)
Fixpoint handle_all (raws : list SignalEvent) (r : R) : list (SignalEvent * bool) * R :=
  match raws with
  | [] => ([], r)
  | raw :: rest => let (ack, r) := handleReceivedEvent raw r in let (log, r) := handle_all rest r in ((raw, ack) :: log, r)
  end.
Definition acked (log : list (SignalEvent * bool)) : list SignalEvent := omap (fun x : SignalEvent * bool => if x.2 then Some x.1 else None) log.

Lemma convertEvent_change raw own evt : convertEvent raw own = Some evt -> is_change evt = false.
Proof.
  destruct raw; cbn [convertEvent]; try by intros [= <-].
  - intros [= <-]. unfold convertStory. destruct (sm_Attachment _) as [[?|t]|]; [done| |done]. by destruct (convertStoryText t).
  - intros [= <-]. unfold convertChatEvent. destruct content as [msg|edit| |]; try done.
    + unfold convertDataMessage, convertPin, convertPoll, convertPollVote, convertPinMessage. repeat (case_match; try done).
    + set (m := default zero_data (em_DataMessage edit)). by destruct (hasWirePin m), (hasWirePoll m).
Qed.

Lemma report_handed w r w' : report takes w = (r, w') -> exists changes, iw_emitted w' = iw_emitted w ++ changes /\ Forall (fun e => is_change e = true) changes /\ exists b, r = Ok b.
Proof.
  intros [(_ & -> & ->)|(done & rest & b & _ & _ & -> & _ & _ & -> & _)]%report_spec.
  - exists []. rewrite app_nil_r. split_and!; [done..|by eexists].
  - exists (omap identityChangedEvent done). split_and!; [done| |by eexists]. apply Forall_forall. intros e (rec & _ & He)%list_elem_of_omap.
    unfold identityChangedEvent in He. case_match; [|done]. by injection He as <-.
Qed.

Lemma client_reserve_same req (r : R) : rc_ids (client_reserve req r).2 = rc_ids r /\ rc_client (client_reserve req r).2 = rc_client r.
Proof.
  unfold client_reserve. destruct (PollVoteCounterRequest_Check req); [done|]. destruct (mc_closing _); [done|]. destruct (mc_device _); [done|].
  destruct (ReservePollVote _ _) as [[n|e] m]; done.
Qed.

Lemma learnPollState_same evt (r : R) : rc_ids (learnPollState order evt r).2 = rc_ids r /\ rc_client (learnPollState order evt r).2 = rc_client r.
Proof.
  unfold learnPollState, learnPollVoteCounter. destruct (OwnPollVoteCounter _ _) as [req|].
  - pose proof (client_reserve_same req r) as [H1 H2]. destruct (client_reserve req r) as [[n|e] r1]; cbn in *; [|done].
    destruct (learnPollProjection order evt (rc_inbox r1)) as [[]]; done.
  - cbn. destruct (learnPollProjection order evt (rc_inbox r)) as [[]]; done.
Qed.

Lemma reportIdentityChanges_run evt (r : R) : let (b, r') := reportIdentityChanges takes trusted evt r in
  rc_client r' = rc_client r /\ exists changes, handed r' = handed r ++ changes /\ Forall (fun e => is_change e = true) changes /\ (is_connection evt = true -> changes = []).
Proof.
  unfold reportIdentityChanges. destruct (is_connection evt || negb trusted) eqn:E.
  { split; [done|]. exists []. by rewrite app_nil_r. }
  unfold on_ids. destruct (report takes (rc_ids r)) as [x w] eqn:Er. apply report_handed in Er as (changes & He & Hf & _). split; [done|]. exists changes.
  split_and!; [done..|]. intros Hc. by rewrite Hc in E.
Qed.

Lemma emit_run evt (r : R) : let (b, r') := emit takes sendOnly evt r in
  handed r' = handed r ++ (if b && negb sendOnly then [evt] else [])
  /\ rc_client r' = (if sendOnly then noteConnection evt (rc_client r) else rc_client r) /\ (sendOnly = true -> b = true).
Proof.
  unfold emit. destruct sendOnly; cbn [negb andb]; [by rewrite app_nil_r|]. unfold on_ids, emit_event, handed. destruct (takes _); cbn; [done|]. by rewrite app_nil_r.
Qed.

Lemma noteConnection_same evt c : meow_ownACI (noteConnection evt c) = meow_ownACI c /\ meow_timers (noteConnection evt c) = meow_timers c.
Proof. unfold noteConnection. destruct (lost_error evt); [|done]. by destruct (meow_lost c). Qed.

(** One event: what is handed over, and that its timers were learned before. *)
Lemma handleReceivedEvent_run raw (r : R) : let (ack, r') := handleReceivedEvent raw r in
  let own := meow_ownACI (rc_client r) in
  meow_ownACI (rc_client r') = own
  /\ meow_timers (rc_client r') = meow_timers (learnChatTimers raw (rc_client r)).2
  /\ (ack = true -> sendOnly = true -> match public_event own raw with
       | None => True
       | Some evt => is_connection evt = true /\ rc_client r' = noteConnection evt (learnChatTimers raw (rc_client r)).2
       end)
  /\ exists changes, Forall (fun e => is_change e = true) changes /\ (sendOnly = true -> changes = [])
       /\ handed r' = handed r ++ changes ++ (if ack && negb sendOnly then option_list (public_event own raw) else []).
Proof.
  unfold handleReceivedEvent. destruct (learned_timers_are_sent raw (rc_client r)) as (timers & El & _). rewrite El. cbn [snd].
  set (r0 := match raw with SEContactList _ _ => _ | _ => _ end).
  assert (H0 : rc_client r0 = with_timers timers (rc_client r) /\ rc_ids r0 = rc_ids r) by (by destruct raw). destruct H0 as [Hc0 Hi0].
  destruct (checkLoggedOut markUnlinked (convertEvent raw (meow_ownACI (rc_client r0))) r0) as [evt r1] eqn:Ek.
  assert (H1 : evt = public_event (meow_ownACI (rc_client r)) raw /\ rc_client r1 = with_timers timers (rc_client r) /\ rc_ids r1 = rc_ids r).
  { rewrite Hc0 in Ek. cbn [with_timers meow_ownACI] in Ek. unfold checkLoggedOut, public_event in *. destruct (convertEvent _ _) as [e|]; [|by injection Ek as <- <-].
    destruct e; try by injection Ek as <- <-. destruct state; by injection Ek as <- <-. }
  destruct H1 as (-> & Hc1 & Hi1). clear Ek. destruct (public_event _ raw) as [evt|] eqn:Ep.
  2: { rewrite Hc1. split_and!; [done..|]. exists []. split_and!; [done..|]. unfold handed. rewrite Hi1. destruct (_ && _); by rewrite !app_nil_r. }
  assert (Hno : forall r' : R, rc_client r' = with_timers timers (rc_client r) -> forall changes, Forall (fun e => is_change e = true) changes -> (sendOnly = true -> changes = []) ->
    handed r' = handed r ++ changes ->
    meow_ownACI (rc_client r') = meow_ownACI (rc_client r) /\ meow_timers (rc_client r') = timers
    /\ (false = true -> sendOnly = true -> is_connection evt = true /\ rc_client r' = noteConnection evt (with_timers timers (rc_client r)))
    /\ exists changes, Forall (fun e => is_change e = true) changes /\ (sendOnly = true -> changes = [])
       /\ handed r' = handed r ++ changes ++ (if false && negb sendOnly then [evt] else [])).
  { intros r' Hc changes Hf Hs Hh. rewrite Hc. split_and!; [done..|]. exists changes. cbn [andb]. by rewrite app_nil_r. }
  destruct (sendOnly && negb (is_connection evt)) eqn:Es.
  { apply (Hno r1 Hc1 []); [done..|]. unfold handed. rewrite Hi1. by rewrite app_nil_r. }
  pose proof (learnPollState_same evt r1) as [Hi2 Hc2]. destruct (learnPollState order evt r1) as [[e|] r2]; cbn [fst snd] in Hi2, Hc2; rewrite Hc1 in Hc2; rewrite Hi1 in Hi2.
  { apply (Hno r2 Hc2 []); [done..|]. unfold handed. rewrite Hi2. by rewrite app_nil_r. }
  pose proof (reportIdentityChanges_run evt r2) as Hr. destruct (reportIdentityChanges _ _ evt r2) as [b r3]. destruct Hr as (Hc3 & changes & Hh3 & Hf3 & Hn3). rewrite Hc2 in Hc3.
  assert (Hs : sendOnly = true -> changes = []) by (intros E; rewrite E in Es; apply Hn3; by destruct (is_connection evt)).
  assert (Hh : handed r3 = handed r ++ changes) by (rewrite Hh3; unfold handed; by rewrite Hi2).
  destruct b; cbn [negb]; [|by apply (Hno r3 Hc3 changes)].
  pose proof (emit_run evt r3) as He. destruct (emit _ _ evt r3) as [b r4]. destruct He as (Hh4 & Hc4 & Hb4). rewrite Hc3 in Hc4.
  destruct (noteConnection_same evt (with_timers timers (rc_client r))) as [Ho Ht]. split_and!.
  - rewrite Hc4. by destruct sendOnly.
  - rewrite Hc4. by destruct sendOnly.
  - intros -> E. rewrite E in Hc4, Es. split; [by destruct (is_connection evt)|done].
  - exists changes. split_and!; [done..|]. rewrite Hh4, Hh. by rewrite <- app_assoc.
Qed.

Lemma no_changes_left changes : Forall (fun e => is_change e = true) changes -> filter (fun e => is_change e = false) changes = [].
Proof. induction 1 as [|e changes He _ IH]; [done|]. by rewrite filter_cons_False by (by rewrite He). Qed.

(** C8. Over any sequence of received events, redelivered ones included, and whatever fails: leaving
    out the identity changes that are reported in between, what the client handed over is exactly
    the events of the envelopes it acknowledged, once each and in order. In send-only mode it
    hands over nothing, and acknowledges only what makes no event or ends or changes the connection. *)
Theorem handle_all_spec raws (r : R) : let own := meow_ownACI (rc_client r) in
  let (log, r') := handle_all raws r in
  log.*1 = raws
  /\ exists news, handed r' = handed r ++ news
       /\ filter (fun e => is_change e = false) news = (if sendOnly then [] else omap (public_event own) (acked log))
       /\ (sendOnly = true -> news = []
            /\ forall raw evt, raw ∈ acked log -> public_event own raw = Some evt -> is_connection evt = true).
Proof.
  revert r. induction raws as [|raw raws IH]; intros r own; cbn [handle_all].
  { split; [done|]. exists []. rewrite app_nil_r. split_and!; [done|by destruct sendOnly|]. split; [done|]. by intros raw evt ?%elem_of_nil. }
  pose proof (handleReceivedEvent_run raw r) as H. destruct (handleReceivedEvent raw r) as [ack r1]. destruct H as (Ho & _ & Hs & changes & Hf & Hn & Hh).
  specialize (IH r1). rewrite Ho in IH. fold own in IH, Hs, Hh. destruct (handle_all raws r1) as [log r2]. destruct IH as (El & news & Hh2 & Hfil & Hs2).
  split; [cbn; by rewrite El|]. exists (changes ++ (if ack && negb sendOnly then option_list (public_event own raw) else []) ++ news). split_and!.
  - rewrite Hh2, Hh, <- !app_assoc. done.
  - rewrite !filter_app, Hfil. rewrite (no_changes_left changes Hf).
    destruct sendOnly; cbn [negb]; [by rewrite andb_false_r|]. rewrite andb_true_r. cbn [app]. unfold acked. cbn [omap list_omap snd fst].
    destruct ack; [|done]. cbn [omap list_omap]. destruct (public_event own raw) as [evt|] eqn:Ep; [|done]. cbn. assert (Hc : is_change evt = false).
    { unfold public_event in Ep. destruct (convertEvent raw own) as [e|] eqn:Ec; [|done]. apply convertEvent_change in Ec. destruct e; try (by injection Ep as <-). destruct state; by injection Ep as <-. }
    by rewrite decide_True by done.
  - intros E. rewrite E in *. cbn [negb]. rewrite andb_false_r. destruct (Hs2 eq_refl) as [-> Hconn]. rewrite Hn by done. split; [done|].
    intros raw' evt Hin Hev. unfold acked in Hin. cbn [omap list_omap snd fst] in Hin. destruct ack; [|by eapply Hconn].
    apply elem_of_cons in Hin as [->|Hin]; [|by eapply Hconn]. specialize (Hs eq_refl eq_refl). rewrite Hev in Hs. by destruct Hs.
Qed.
End handed.

(** ** At a concrete input *)

Section witness.
Import DemoUuid.
#[local] Existing Instance DemoWire.lib.
#[local] Existing Instance DemoSignal.lib.
#[local] Existing Instance demo_pb.
#[local] Existing Instance demo_convert.
#[local] Existing Instance no_fields.
#[local] Existing Instance demo_keeping.
#[local] Instance demo_projections : PollEncoding := {|
  json_state := fun _ => None; json_decode_state := fun _ _ => None; sha256_hex := id; quote_poll := fun s _ => s |}.

Definition demo_receiver : receiver DemoSignal.tables unit :=
  mkReceiver demo_meow ∅ (mkClient false None (mkPollDB (mkTable 0 []) true [] ∅)) demo_world tt.
Definition demo_handle_all (raws : list SignalEvent) : list (SignalEvent * bool) * receiver DemoSignal.tables unit :=
  handle_all elements demo_takes false true id (fun _ _ => id) raws demo_receiver.

Lemma handle_all_spec_witness :
  (len (acked (demo_handle_all [demo_timed; SEQueueEmpty; SEACIFound]).1) =? 3) = true
  /\ let own := meow_ownACI (rc_client demo_receiver) in
     let (log, r') := handle_all elements demo_takes false true id (fun _ _ => id) [demo_timed; SEQueueEmpty; SEACIFound] demo_receiver in
     log.*1 = [demo_timed; SEQueueEmpty; SEACIFound]
     /\ exists news, handed r' = handed demo_receiver ++ news
          /\ filter (fun e => is_change e = false) news = (if false then [] else omap (public_event own) (acked log))
          /\ (false = true -> news = [] /\ forall raw evt, raw ∈ acked log -> public_event own raw = Some evt -> is_connection evt = true).
Proof.
  split; [vm_compute; reflexivity|].
  pose proof (handle_all_spec (UL:=laws) elements demo_takes false true id (fun _ _ => id) [demo_timed; SEQueueEmpty; SEACIFound] demo_receiver) as H.
  cbv beta iota in H. cbv beta iota. exact H.
Defined.
End witness.
