(* ===== verification/Confirm.v ===== *)
(** * Confirming the calls of tools that write (internal/mcp/confirm.go)

    With [--confirm], a write tool first answers with a question to the user, and the client calls it again
    with the answer. The [confirmer] remembers the questions. Calls run concurrently: the map is locked
    for each [take_pending] and [add_pending] only, and [reaches] interleaves them in any way. *)

From S2P Require Import Prelude Errors.
From stdpp Require Import relations.
#[local] Open Scope Z_scope.

Definition confirmTTL : Z := 10 * 60 * 1000000000.

(** [encoding/json]: the arguments in a canonical form; [None] if they are no JSON. *)
Class CanonicalJson := { json_canonical : string -> option string }.

(** The parameters of a tool call. The answers to input requests are listed in the order in which the map
    is visited: the request's ID, and the action if the answer is one to an elicitation. *)
Record CallToolParams := mkParams { prm_Name : string; prm_Arguments : string; InputResponses : list (string * option string) }.

(** What a session's client can do; any of the pointers may be nil. *)
Record Capabilities := mkCapabilities { Elicitation : bool }.
Definition session := option (option (option Capabilities)).

Definition canElicit (s : session) : bool :=
  match s with Some (Some (Some caps)) => Elicitation caps | _ => false end.

Record pendingCall := mkPending { pc_call : string; pc_expires : Z }.

(** [nil, nil], which lets the call go ahead (with the ID of its question, which the code does not
    return); a question; an error. *)
Inductive outcome := Proceed (id : string) | Ask (id message : string) | Fails (e : err).

Section confirmer.
Context {J : CanonicalJson}.

Definition callKey (params : CallToolParams) : string :=
  (prm_Name params ++ " " ++ match json_canonical (prm_Arguments params) with Some c => c | None => prm_Arguments params end)%string.

Definition expired (now : Z) (p : pendingCall) : bool := pc_expires p <? now.

Definition add_pending (pending : gmap string pendingCall) (id call : string) (now : Z) : gmap string pendingCall :=
  <[id := mkPending call (now + confirmTTL)]> (omap (fun p => if expired now p then None else Some p) pending).

Definition take_pending (pending : gmap string pendingCall) (id : string) (now : Z) : option pendingCall * gmap string pendingCall :=
  (match pending !! id with Some p => if expired now p then None else Some p | None => None end, delete id pending).

(** The outcome for a question that was asked. *)
Definition judge (call id : string) (answer : option string) (p : pendingCall) : outcome :=
  if pc_call p != call then Fails (Sent errConfirmMismatch)
  else if answer != Some "accept"%string then Fails (Sent ErrNotConfirmed)
  else Proceed id.

Fixpoint check_responses (pending : gmap string pendingCall) (call : string) (now : Z) (responses : list (string * option string))
    : option outcome * gmap string pendingCall :=
  match responses with
  | [] => (None, pending)
  | (id, answer) :: rest =>
      let (found, pending) := take_pending pending id now in
      match found with
      | None => check_responses pending call now rest
      | Some p => (Some (judge call id answer p), pending)
      end
  end.

(** [check], with the time and the random ID it takes. *)
Definition confirmer_check (pending : gmap string pendingCall) (params : CallToolParams) (s : session) (message : string) (now : Z) (fresh : string)
    : outcome * gmap string pendingCall :=
  let call := callKey params in
  match check_responses pending call now (InputResponses params) with
  | (Some o, pending) => (o, pending)
  | (None, pending) =>
      if negb (canElicit s) then (Fails (Sent errNoElicitation), pending)
      else let id := ("confirm-" ++ fresh)%string in (Ask id message, add_pending pending id call now)
  end.

(** ** Calls that run at the same time *)

Inductive phase := Checking (rest : list (string * option string)) | Finished (o : outcome).
Record running := mkRunning { rn_params : CallToolParams; rn_session : session; rn_message : string; rn_now : Z; rn_phase : phase }.
Record system := mkSystem { sys_pending : gmap string pendingCall; sys_calls : list running }.

Definition in_phase (c : running) (p : phase) : running := mkRunning (rn_params c) (rn_session c) (rn_message c) (rn_now c) p.

(** One locked step of [check]. *)
Definition advance (pending : gmap string pendingCall) (c : running) (fresh : string) : gmap string pendingCall * running :=
  match rn_phase c with
  | Finished _ => (pending, c)
  | Checking ((id, answer) :: rest) =>
      let (found, pending) := take_pending pending id (rn_now c) in
      (pending, in_phase c (match found with
                            | None => Checking rest
                            | Some p => Finished (judge (callKey (rn_params c)) id answer p)
                            end))
  | Checking [] =>
      if negb (canElicit (rn_session c)) then (pending, in_phase c (Finished (Fails (Sent errNoElicitation))))
      else let id := ("confirm-" ++ fresh)%string in
           (add_pending pending id (callKey (rn_params c)) (rn_now c), in_phase c (Finished (Ask id (rn_message c))))
  end.

(** The questions that were asked. *)
Definition asked_id (c : running) : option string := match rn_phase c with Finished (Ask id _) => Some id | _ => None end.
Definition asked_ids (calls : list running) : list string := omap asked_id calls.

(** A call starts at any time with any parameters; a call that runs takes its next step, where
    [rand.Text] gives a text it has not given before. *)
Inductive confirm_step : system -> system -> Prop :=
  | step_start s params ses message now :
      confirm_step s (mkSystem (sys_pending s) (sys_calls s ++ [mkRunning params ses message now (Checking (InputResponses params))]))
  | step_advance s i c fresh pending c' :
      sys_calls s !! i = Some c -> ("confirm-" ++ fresh)%string ∉ asked_ids (sys_calls s) ->
      advance (sys_pending s) c fresh = (pending, c') ->
      confirm_step s (mkSystem pending (<[i := c']> (sys_calls s))).

Definition reaches : system -> Prop := rtc confirm_step (mkSystem ∅ []).

(** A call that runs alone takes the steps of [check]. *)
Fixpoint alone (n : nat) (pending : gmap string pendingCall) (c : running) (fresh : string) : gmap string pendingCall * running :=
  match n with
  | O => (pending, c)
  | Datatypes.S n => let (pending, c) := advance pending c fresh in alone n pending c fresh
  end.

Lemma alone_finished n pending c o fresh : rn_phase c = Finished o -> alone n pending c fresh = (pending, c).
Proof. intros H. induction n as [|n IH]; [done|]. cbn. unfold advance. by rewrite H. Qed.

(** [check] is what its locked steps amount to when no other call runs in between. *)
Lemma alone_check params ses message now pending fresh :
  let (o, pending') := confirmer_check pending params ses message now fresh in
  alone (Datatypes.S (length (InputResponses params))) pending (mkRunning params ses message now (Checking (InputResponses params))) fresh
  = (pending', mkRunning params ses message now (Finished o)).
Proof.
  unfold confirmer_check. generalize (InputResponses params) as rs. intros rs. revert pending. induction rs as [|[id answer] rs IH]; intros pending.
  - cbn. unfold advance. cbn. by destruct (negb (canElicit ses)).
  - cbn [check_responses length]. destruct (take_pending pending id now) as [found pending1] eqn:E. specialize (IH pending1).
    change (alone (Datatypes.S (Datatypes.S (length rs))) pending ?c fresh) with
      (let (p, c') := advance pending c fresh in alone (Datatypes.S (length rs)) p c' fresh).
    unfold advance at 1. cbn [rn_phase rn_now rn_params]. rewrite E. destruct found as [p|].
    + by rewrite alone_finished with (o:=judge (callKey params) id answer p).
    + exact IH.
Qed.

(** ** What a confirmation means *)

Definition proceeded_id (c : running) : option string := match rn_phase c with Finished (Proceed id) => Some id | _ => None end.

(** The question [id] was asked by the call [c']. *)
Definition question (calls : list running) (id : string) (c' : running) : Prop :=
  exists j m, calls !! j = Some c' /\ rn_phase c' = Finished (Ask id m).

(** The confirmation of a call: the accepting answer to a question for the same call. *)
Definition confirmed_by (calls : list running) (c : running) (id : string) : Prop :=
  (id, Some "accept"%string) ∈ InputResponses (rn_params c)
  /\ exists c', question calls id c' /\ callKey (rn_params c') = callKey (rn_params c) /\ rn_now c <= rn_now c' + confirmTTL.

Record sound (s : system) : Prop := {
  snd_pending : forall id p, sys_pending s !! id = Some p -> exists c', question (sys_calls s) id c'
    /\ pc_call p = callKey (rn_params c') /\ pc_expires p = rn_now c' + confirmTTL;
  snd_unused : forall id c, is_Some (sys_pending s !! id) -> c ∈ sys_calls s -> proceeded_id c <> Some id;
  snd_rest : forall c rest, c ∈ sys_calls s -> rn_phase c = Checking rest -> rest ⊆ InputResponses (rn_params c);
  snd_confirmed : forall c id, c ∈ sys_calls s -> proceeded_id c = Some id -> confirmed_by (sys_calls s) c id;
  snd_once : NoDup (omap proceeded_id (sys_calls s));
}.

(** *** Steps keep it *)

Lemma elem_of_insert {A} (l : list A) i x y : y ∈ <[i := x]> l -> y = x \/ y ∈ l.
Proof.
  intros [j Hj]%list_elem_of_lookup. destruct (decide (i = j)) as [->|Hne].
  - destruct (decide (j < length l)%nat).
    + rewrite list_lookup_insert_eq in Hj by done. left. congruence.
    + rewrite list_insert_ge in Hj by lia. right. by eapply list_elem_of_lookup_2.
  - rewrite list_lookup_insert_ne in Hj by done. right. by eapply list_elem_of_lookup_2.
Qed.

Lemma omap_insert_perm {A B} (f : A -> option B) (l : list A) i x y : l !! i = Some x -> f x = None ->
  omap f (<[i := y]> l) ≡ₚ option_list (f y) ++ omap f l.
Proof.
  intros Hx Hf. pose proof (lookup_lt_Some _ _ _ Hx) as Hi. rewrite insert_take_drop by done.
  assert (El : omap f l = omap f (take i l) ++ omap f (drop (Datatypes.S i) l)).
  { rewrite <- (take_drop_middle l i x Hx) at 1. rewrite omap_app. cbn. by rewrite Hf. }
  rewrite El, omap_app. cbn. destruct (f y) as [b|]; cbn; [|done]. symmetry. apply Permutation_middle.
Qed.

Lemma omap_twice {A B} (f : A -> option B) (l : list A) i j x y b : NoDup (omap f l) -> l !! i = Some x -> l !! j = Some y ->
  f x = Some b -> f y = Some b -> i = j.
Proof.
  revert i j. induction l as [|a l IH]; intros i j; [done|]. intros Hn Hi Hj Hx Hy.
  assert (Hin : forall k z, l !! k = Some z -> f z = Some b -> f a <> Some b).
  { intros k z Hk Hz Ha. cbn in Hn. rewrite Ha in Hn. apply NoDup_cons in Hn as [Hn _]. apply Hn, list_elem_of_omap. exists z. split; [by eapply list_elem_of_lookup_2|done]. }
  assert (Hn' : NoDup (omap f l)) by (cbn in Hn; destruct (f a); [by apply NoDup_cons in Hn as [_ ?]|done]).
  destruct i as [|i], j as [|j]; cbn in Hi, Hj; simplify_eq; [done|by edestruct Hin|by edestruct Hin|f_equal; by eapply IH].
Qed.

Lemma question_update calls i c c' id q : calls !! i = Some c -> (forall o, rn_phase c <> Finished o) ->
  question calls id q -> question (<[i := c']> calls) id q.
Proof.
  intros Hi Hc (j & m & Hj & Hq). exists j, m. split; [|done]. rewrite list_lookup_insert_ne; [done|]. intros ->. rewrite Hi in Hj.
  injection Hj as ->. by eapply Hc.
Qed.
Lemma question_new calls c id q : question calls id q -> question (calls ++ [c]) id q.
Proof. intros (j & m & Hj & Hq). exists j, m. split; [|done]. by apply lookup_app_l_Some. Qed.
Lemma question_asked calls id q : question calls id q -> id ∈ asked_ids calls.
Proof. intros (j & m & Hj & Hq). apply list_elem_of_omap. exists q. split; [by eapply list_elem_of_lookup_2|]. unfold asked_id. by rewrite Hq. Qed.
Lemma confirmed_mono calls calls' c id : (forall q, question calls id q -> question calls' id q) -> confirmed_by calls c id -> confirmed_by calls' c id.
Proof. intros H [Ha (q & Hq & Hk & Ht)]. split; [done|]. exists q. split_and!; [by apply H|done..]. Qed.

(** A step of one call that is still checking. *)
Lemma sound_update s i c rest0 ph pending' : sound s -> sys_calls s !! i = Some c -> rn_phase c = Checking rest0 ->
  (forall id p, pending' !! id = Some p -> sys_pending s !! id = Some p
     \/ exists m, ph = Finished (Ask id m) /\ p = mkPending (callKey (rn_params c)) (rn_now c + confirmTTL)) ->
  (forall rest, ph = Checking rest -> rest ⊆ rest0) ->
  (forall id, ph = Finished (Proceed id) -> confirmed_by (sys_calls s) c id /\ pending' !! id = None /\ is_Some (sys_pending s !! id)) ->
  (forall id m, ph = Finished (Ask id m) -> id ∉ asked_ids (sys_calls s)) ->
  sound (mkSystem pending' (<[i := in_phase c ph]> (sys_calls s))).
Proof.
  intros [Hp Hu Hr Hc Ho] Hi Hph Hp' Hr' Hpr Hask.
  assert (Hq : forall id q, question (sys_calls s) id q -> question (<[i := in_phase c ph]> (sys_calls s)) id q).
  { intros id q. eapply question_update; [exact Hi|]. intros o. by rewrite Hph. }
  assert (Hcin : c ∈ sys_calls s) by (by eapply list_elem_of_lookup_2).
  split; cbn [sys_pending sys_calls].
  - intros id p [H|(m & -> & ->)]%Hp'.
    + destruct (Hp _ _ H) as (q & ? & ? & ?). exists q. split_and!; [by apply Hq|done..].
    + exists (in_phase c (Finished (Ask id m))). split; [|done]. exists i, m. split; [|done]. apply list_lookup_insert_eq. by eapply lookup_lt_Some.
  - intros id c2 [p H] Hin Hpc. apply elem_of_insert in Hin as [->|Hin].
    { unfold proceeded_id in Hpc. cbn in Hpc. destruct ph as [|[id'| |]]; try done. injection Hpc as ->. destruct (Hpr id eq_refl) as (_ & Hn & _). congruence. }
    destruct (Hp' _ _ H) as [H0|(m & -> & _)]; [by apply (Hu id c2)|].
    destruct (Hc _ _ Hin Hpc) as [_ (q & Hqq & _)]. apply (Hask id m eq_refl). by eapply question_asked.
  - intros c2 rest [->|Hin]%elem_of_insert Hph2; [|by apply Hr]. cbn in Hph2 |- *. etrans; [by apply Hr'|by apply Hr].
  - intros c2 id [->|Hin]%elem_of_insert Hpc.
    + unfold proceeded_id in Hpc. cbn in Hpc. destruct ph as [|[id'| |]]; try done. injection Hpc as ->.
      destruct (Hpr id eq_refl) as ([Ha (q & Hqq & Hk & Ht)] & _ & _). split; [done|]. exists q. split_and!; [by apply Hq|done..].
    + eapply confirmed_mono; [intros q; by apply Hq|by apply Hc].
  - rewrite (omap_insert_perm proceeded_id _ _ c); [|done|unfold proceeded_id; by rewrite Hph]. unfold proceeded_id at 1. cbn.
    destruct ph as [|[id| |]]; cbn; try done. apply NoDup_cons. split; [|done]. intros (c2 & Hin & Hpc)%list_elem_of_omap.
    destruct (Hpr id eq_refl) as (_ & _ & Hs). by apply (Hu id c2).
Qed.

Lemma judge_Proceed call id answer p id' : judge call id answer p = Proceed id' -> id' = id /\ pc_call p = call /\ answer = Some "accept"%string.
Proof. unfold judge. case_bool_decide; [|done]. case_bool_decide; [|done]. by intros [= ->]. Qed.
Lemma judge_not_Ask call id answer p id' m : judge call id answer p <> Ask id' m.
Proof. unfold judge. by repeat split_if. Qed.

Lemma expired_false now p : expired now p = false -> now <= pc_expires p.
Proof. unfold expired. lia. Qed.

Lemma take_sound s i c id answer rest found pending' : sound s -> sys_calls s !! i = Some c -> rn_phase c = Checking ((id, answer) :: rest) ->
  take_pending (sys_pending s) id (rn_now c) = (found, pending') ->
  sound (mkSystem pending' (<[i := in_phase c (match found with None => Checking rest | Some p => Finished (judge (callKey (rn_params c)) id answer p) end)]> (sys_calls s))).
Proof.
  intros Hs Hi Hph [= Hf <-]. assert (Hcin : c ∈ sys_calls s) by (by eapply list_elem_of_lookup_2).
  eapply sound_update; [done..| | | |].
  - intros id' p H%lookup_delete_Some. left. apply H.
  - destruct found; [done|]. intros rest' [= <-]. intros x Hx. by right.
  - intros id' H. destruct found as [p|]; [|done]. injection H as H. apply judge_Proceed in H as (-> & Hk & ->).
    destruct (sys_pending s !! id) as [p0|] eqn:E; [|done]. destruct (expired (rn_now c) p0) eqn:Ex; [done|]. injection Hf as <-.
    apply expired_false in Ex. destruct (snd_pending _ Hs _ _ E) as (q & Hq & Hkq & He). split_and!.
    + split; [apply (snd_rest _ Hs c _ Hcin Hph); by left|]. exists q. split_and!; [done|congruence|lia].
    + apply lookup_delete_eq.
    + by eexists.
  - intros id' m H. destruct found; [|done]. injection H as H. by apply judge_not_Ask in H.
Qed.

Lemma step_sound s s' : confirm_step s s' -> sound s -> sound s'.
Proof.
  intros [s0 params ses message now|s0 i c fresh pending c' Hi Hfresh Hadv] Hs.
  - destruct Hs as [Hp Hu Hr Hc Ho]. split; cbn [sys_pending sys_calls].
    + intros id p H. destruct (Hp _ _ H) as (q & ? & ? & ?). exists q. split_and!; [by apply question_new|done..].
    + intros id c H [Hin|Hx]%elem_of_app; [by apply Hu|]. by apply list_elem_of_singleton in Hx as ->.
    + intros c rest [Hin|Hx]%elem_of_app Hph; [by apply Hr|]. apply list_elem_of_singleton in Hx as ->. by injection Hph as <-.
    + intros c id [Hin|Hx]%elem_of_app Hpc; [|by apply list_elem_of_singleton in Hx as ->].
      eapply confirmed_mono; [intros q; apply question_new|by apply Hc].
    + rewrite omap_app. cbn. by rewrite app_nil_r.
  - unfold advance in Hadv. destruct (rn_phase c) as [[|[id answer] rest]|o] eqn:Hph.
    + destruct (negb (canElicit (rn_session c))); injection Hadv as <- <-; (eapply sound_update; [done..| | | |]); try done.
      * intros id p H. by left.
      * intros id p. unfold add_pending. intros [[<- <-]|[Hne H]]%lookup_insert_Some; [right; by eexists|left].
        rewrite lookup_omap in H. destruct (sys_pending s0 !! id) as [p0|]; [|done]. cbn in H. destruct (expired _ _); [done|]. congruence.
      * intros id m [= <- _]. exact Hfresh.
    + destruct (take_pending (sys_pending s0) id (rn_now c)) as [found pending1] eqn:E. injection Hadv as <- <-. by eapply take_sound.
    + injection Hadv as <- <-. rewrite list_insert_id by done. by destruct s0.
Qed.

Lemma reaches_sound s : reaches s -> sound s.
Proof.
  intros H. assert (Hgen : forall a b, rtc confirm_step a b -> sound a -> sound b).
  { induction 1 as [|a b c Hab _ IH]; [done|]. intros Ha. apply IH. by eapply step_sound. }
  eapply Hgen; [exact H|]. split; cbn.
  - by intros id p ?%lookup_empty_Some.
  - by intros id c ? ?%elem_of_nil.
  - by intros c rest ?%elem_of_nil.
  - by intros c id ?%elem_of_nil.
  - constructor.
Qed.

End confirmer.

Section witnesses.
#[local] Instance demo_json : CanonicalJson := {| json_canonical := Some |}.

Definition demo_session : session := Some (Some (Some (mkCapabilities true))).
Definition demo_asks : running := mkRunning (mkParams "react" "{}" []) demo_session "Sure?" 5 (Finished (Ask "confirm-x" "Sure?")).
Definition demo_answered : CallToolParams := mkParams "react" "{}" [("other"%string, None); ("confirm-x"%string, Some "accept"%string)].
Definition demo_goes : running := mkRunning demo_answered demo_session "Sure?" 9 (Finished (Proceed "confirm-x")).

Lemma demo_reaches : reaches (mkSystem ∅ [demo_asks; demo_goes]).
Proof.
  eapply rtc_l; [exact (step_start _ (mkParams "react" "{}" []) demo_session "Sure?" 5)|].
  eapply rtc_l; [eapply (step_advance _ 0 _ "x"); [reflexivity|by apply not_elem_of_nil|reflexivity]|].
  eapply rtc_l; [exact (step_start _ demo_answered demo_session "Sure?" 9)|].
  eapply rtc_l; [eapply (step_advance _ 1 _ "y"); [reflexivity|apply (bool_decide_eq_true_1 _); vm_compute; reflexivity|reflexivity]|].
  eapply rtc_l; [eapply (step_advance _ 1 _ "y"); [reflexivity|apply (bool_decide_eq_true_1 _); vm_compute; reflexivity|reflexivity]|].
  match goal with |- rtc _ ?a ?b => assert (E : a = b) by (vm_compute; reflexivity); rewrite E end. apply rtc_refl.
Qed.

End witnesses.
