(* ===== verification/McpTools.v ===== *)
(** * The tools of the MCP server that write (internal/mcp/write.go, polls.go, confirm.go, server.go)

    [send_message], [react], [delete_message], [poll_create], [poll_vote] and [poll_close]: they resolve
    their chats and messages, ask for confirmation with [Confirm.confirmer_check] and call the application. *)

From S2P Require Import Prelude Errors Uuid Utf8 Strconv Base64 Types SendCheck Groups Recipients SendFlow Content FilePath Attachments AppSend AppWrite Directory InboxClient InboxApp Confirm.

(** ** Texts *)

(** [strconv.Quote], which [%q] prints. *)
Definition lower_hex (n : Z) : Ascii.ascii := ascii_of (if n <? 10 then 48 + n else 87 + n).
Fixpoint hex_digits (width : nat) (n : Z) : string :=
  match width with
  | O => ""
  | Datatypes.S w => String (lower_hex (Z.shiftr n (4 * Z.of_nat w) mod 16)) (hex_digits w n)
  end.
Definition back (a : Z) (rest : string) : string := String (ascii_of 92) (String (ascii_of a) rest).

Definition quote_chunk {T : UnicodeTables} (c : chunk) : string :=
  let r := ch_rune c in
  if negb (ch_valid c) then match ch_text c with String a _ => back 120 (hex_digits 2 (byte_of a)) | EmptyString => "" end
  else if (r =? 34) || (r =? 92) then back r ""
  else if IsPrint r then ch_text c
  else if r =? 7 then back 97 "" else if r =? 8 then back 98 "" else if r =? 12 then back 102 ""
  else if r =? 10 then back 110 "" else if r =? 13 then back 114 "" else if r =? 9 then back 116 "" else if r =? 11 then back 118 ""
  else if (r <? 32) || (r =? 127) then back 120 (hex_digits 2 r)
  else if r <? 65536 then back 117 (hex_digits 4 r) else back 85 (hex_digits 8 r).
Definition double_quote : string := String (ascii_of 34) EmptyString.
Definition quote {T : UnicodeTables} (s : string) : string :=
  (double_quote ++ foldr (fun c out => quote_chunk c ++ out) "" (decode s) ++ double_quote)%string.

Fixpoint join (sep : string) (parts : list string) : string :=
  match parts with [] => "" | [p] => p | p :: rest => (p ++ sep ++ join sep rest)%string end.
(** What [%q] and [%v] print for slices, and [%t]. *)
Definition in_brackets (parts : list string) : string := ("[" ++ join " " parts ++ "]")%string.
Definition show_bool (b : bool) : string := if b then "true" else "false".

(** ** Inputs and answers *)

Record sendMessageInput := mkSendInput {
  smi_Recipients : list string; smi_Text : string; smi_Attachments : list string; smi_Quote : string;
  smi_QuoteText : string; smi_EditTimestamp : option Z }.
Record reactInput := mkReactInput { rci_Message : string; rci_Chat : string; rci_Emoji : string; rci_Remove : bool }.
Record deleteMessageInput := mkDeleteInput { dmi_Chat : string; dmi_Timestamp : Z }.
Record pollCreateInput := mkPollCreateInput {
  pci_GroupID : string; pci_Recipient : string; pci_Question : string; pci_Options : list string; pci_SingleChoice : bool }.
Record pollVoteInput := mkPollVoteInput {
  pvi_GroupID : string; pvi_Recipient : string; pvi_Target : string; pvi_OptionIndexes : list Z; pvi_VoteCount : option Z; pvi_Clear : bool }.
Record pollCloseInput := mkPollCloseInput { pli_GroupID : string; pli_Recipient : string; pli_Timestamp : Z }.

(** What the handlers need: the confirmer is there with [--confirm]. *)
Record tools := mkTools { tls_attachDir : string; tls_confirm : bool; tls_readOnly : bool }.

(** A question to the user, or an answer with the error of a send that failed for some recipients. *)
Inductive answer (A : Type) := Asked (id message : string) | Answered (a : A) (sendErr : error).
Arguments Asked {A}. Arguments Answered {A}.

Record mcp (W : Type) := mkMcp { mcp_pending : gmap string pendingCall; mcp_app : App W }.
Arguments mkMcp {W}. Arguments mcp_pending {W}. Arguments mcp_app {W}.

(** [time.Now] and [rand.Text]. *)
Class McpEnv (W : Type) := { time_Now : W -> Z * W; rand_Text : W -> string * W }.

Definition zeroSendResult : SendResult := mkSendResult 0 [].

(** [sendSummary]. *)
Definition sendSummary {T : UnicodeTables} (inp : sendMessageInput) : string :=
  ((match smi_EditTimestamp inp with Some t => "Edit our message at " ++ FormatUint t ++ " to" | None => "Send" end)
   ++ (if smi_Quote inp != "" then " a reply" else "")
   ++ (if smi_Text inp != "" then " " ++ quote (smi_Text inp) else "")
   ++ (if (0 <? len (smi_Attachments inp))%Z then " with the attachments " ++ join ", " (smi_Attachments inp) else ""))%string.

(** [sendMessageInput.request]. *)
Definition message_request (inp : sendMessageInput) (attachDir : string) : res app_SendRequest :=
  if (0 <? len (smi_Attachments inp)) && (attachDir == "") then Err (Sent errNoAttachDir)
  else
    let request := mkAppSend [] (smi_Text inp) [] (smi_Attachments inp) None attachDir "" (smi_QuoteText inp) in
    match smi_EditTimestamp inp with
    | Some t => if t =? 0 then Err (errorf ErrInvalidEdit) else Ok (request t)
    | None => Ok (request 0)
    end.

Definition chatArg (chat : Chat) : string :=
  if Chat_IsGroup chat then (GroupPrefix ++ GroupID chat)%string
  else if ACI (ChatRecipient chat) != "" then ACI (ChatRecipient chat) else Recipient_String (ChatRecipient chat).

Definition chat_label (names : Names) (chat : string) : string :=
  match cut_prefix GroupPrefix chat with
  | Some groupID => if GroupTitle names groupID != "" then ("group " ++ GroupTitle names groupID)%string else chat
  | None =>
      let rcpt := ofACI chat in
      if IsSelf names rcpt then "yourself (note to self)"
      else if Names_Label names rcpt != "" then Names_Label names rcpt else chat
  end.
Definition chatLabels (chats : list string) (names : Names) : string := join ", " (chat_label names <$> chats).

Section tools.
Context {U : UuidLib} {W : Type} {C : Client W} {WC : WriteClient W} {F : Files W} {L : MediaLib} {T : UnicodeTables}.
Context {D : DirectoryClient W} {K : Casing} {B : InboxBackend W} {J : CanonicalJson} {E : McpEnv W}.
Context (allow : option Allowlist) (t : tools).
Notation M := (io (mcp W) err).
Notation A := (io (App W) err).

Definition in_app {X} (m : A X) : M X := fun s => let (r, a) := m (mcp_app s) in (r, mkMcp (mcp_pending s) a).

(** *** Chats and messages *)

(** [names]: without them if they can't be loaded. *)
Definition tool_names : A Names :=
  let* r := io_try App_Names in io_ret (match r with Ok n => n | Err _ => mkNames "" ∅ ∅ ∅ end).

Fixpoint chatArgs (args : list string) : A (list string) :=
  match args with
  | [] => io_ret []
  | arg :: rest => let* chat := ResolveChat arg in let* out := chatArgs rest in io_ret (chatArg chat :: out)
  end.

(** The reference as [<author>:<timestamp>], and the chat of an inbox entry. *)
Definition messageRef (ref : string) : A (string * string) :=
  let ref := TrimSpace ref in
  if contains ref ":" then io_ret (ref, ""%string)
  else match ParseInt ref with
       | None => io_err (errorf errMessageRef)
       | Some _ =>
           let* msg := Message_ ref in
           let (env, _) := msg : Envelope * MessageContent in
           let author := if ACI (env_Sender env) == "" then Recipient_String (env_Sender env) else ACI (env_Sender env) in
           io_ret ((author ++ ":" ++ FormatUint (env_Timestamp env))%string, chatArg (env_Chat env))
       end.

(** *** Confirmation *)

(** [confirmer.check] on the state. *)
Definition ask_user (params : CallToolParams) (ses : session) (message : string) : M (option (string * string)) := fun s =>
  let a := mcp_app s in
  let (now, w) := time_Now (app_world a) in
  let (fresh, w) := rand_Text w in
  let (o, pending) := confirmer_check (mcp_pending s) params ses message now fresh in
  (match o with Proceed _ => Ok None | Ask id m => Ok (Some (id, m)) | Fails e => Err e end,
   mkMcp pending (mkApp (app_lastTimestamp a) (app_resolved a) (app_sent a) (app_receipts a) w)).

Definition confirm (params : CallToolParams) (ses : session) (chats : list string) (names : Names) (action : string) : M (option (string * string)) :=
  if negb (tls_confirm t) then io_ret None
  else
    let* _ := in_app (CheckRecipients allow chats) in
    ask_user params ses (action ++ " to " ++ chatLabels chats names ++ "?").

(** The rest of a handler: the question, or the operation of the application, whose result is kept when
    sending failed for some recipients. *)
Definition finish {X} (asked : option (string * string)) (zero : X) (op : A (X * error)) : M (answer X) :=
  match asked with
  | Some (id, message) => io_ret (Asked id message)
  | None =>
      let* r := io_try (in_app op) in
      match r with
      | Ok (x, None) => io_ret (Answered x None)
      | Ok (x, Some e) => if errIs e ErrSendFailed then io_ret (Answered x (Some e)) else io_err e
      | Err e => if errIs e ErrSendFailed then io_ret (Answered zero (Some e)) else io_err e
      end
  end.

(** *** Handlers *)

Definition with_destination (req : app_SendRequest) (recipients : list string) (ref : string) : app_SendRequest :=
  mkAppSend recipients (snd_Body req) (snd_Styles req) (snd_Attachments req) (snd_Sticker req) (snd_AttachDir req)
    ref (snd_QuoteText req) (snd_EditTarget req).

Definition sendMessage (params : CallToolParams) (ses : session) (inp : sendMessageInput) : M (answer SendResult) :=
  let* send := io_of (message_request inp (tls_attachDir t)) in
  let* names := in_app tool_names in
  let* chats := in_app (chatArgs (smi_Recipients inp)) in
  let* ref := in_app (if smi_Quote inp != "" then wrap_err (let* r := messageRef (smi_Quote inp) in io_ret r.1) else io_ret ""%string) in
  let* asked := confirm params ses chats names (sendSummary inp) in
  finish asked zeroSendResult (Send allow (with_destination send chats ref)).

Definition react (params : CallToolParams) (ses : session) (inp : reactInput) : M (answer ReactResult) :=
  let* found := in_app (wrap_err (messageRef (rci_Message inp))) in
  let (target, chat) := found : string * string in
  let* chat := in_app (if rci_Chat inp != "" then let* resolved := ResolveChat (rci_Chat inp) in io_ret (chatArg resolved) else io_ret chat) in
  if chat == "" then io_err (Sent errNoChat)
  else
    let* names := in_app tool_names in
    let action := (if rci_Remove inp then "Take back the reaction " ++ rci_Emoji inp ++ " on message " ++ target
                   else "React with " ++ rci_Emoji inp ++ " to message " ++ target)%string in
    let* asked := confirm params ses [chat] names action in
    finish asked (mkReactResult zeroSendResult "" false (mkTarget zeroRecipient "" false) 0)
      (React allow (mkReactRequest [chat] target (rci_Emoji inp) (rci_Remove inp))).

Definition deleteMessage (params : CallToolParams) (ses : session) (inp : deleteMessageInput) : M (answer DeleteResult) :=
  let* chats := in_app (chatArgs [dmi_Chat inp]) in
  let* names := in_app tool_names in
  let* asked := confirm params ses chats names ("Delete our message " ++ FormatUint (dmi_Timestamp inp) ++ " for everyone") in
  finish asked (mkDeleteResult zeroSendResult 0) (Delete allow (mkDeleteRequest chats (dmi_Timestamp inp))).

Definition confirmPoll (params : CallToolParams) (ses : session) (groupID recipient action : string) : M (option (string * string)) :=
  let destination := if groupID != "" then (GroupPrefix ++ groupID)%string else recipient in
  let* names := in_app tool_names in
  confirm params ses [destination] names action.

(** [pollSendResult], which loads the names again for the output. *)
Definition finish_poll (asked : option (string * string)) (zero : PollSendResult) (op : A (PollSendResult * error)) : M (answer PollSendResult) :=
  let* a := finish asked zero op in
  match a with
  | Asked _ _ => io_ret a
  | Answered _ _ => let* _ := in_app tool_names in io_ret a
  end.

Definition zeroPollResult : PollSendResult := mkPollSendResult zeroSendResult "" None zeroRecipient 0 [] 0.
Definition checked_input (e : error) : M unit := match e with Some e => io_err e | None => io_ret tt end.

Definition pollCreate (params : CallToolParams) (ses : session) (inp : pollCreateInput) : M (answer PollSendResult) :=
  let req := mkPollCreate (pci_GroupID inp) (pci_Recipient inp) (pci_Question inp) (pci_Options inp) (pci_SingleChoice inp) in
  let* _ := checked_input (PollCreateRequest_Check req) in
  let action := ("Create poll " ++ quote (pci_Question inp) ++ " with options " ++ in_brackets (quote <$> pci_Options inp)
                 ++ " (single choice: " ++ show_bool (pci_SingleChoice inp) ++ ")")%string in
  let* asked := confirmPoll params ses (pci_GroupID inp) (pci_Recipient inp) action in
  finish_poll asked zeroPollResult (PollCreate allow req).

Definition pollVote (params : CallToolParams) (ses : session) (inp : pollVoteInput) : M (answer PollSendResult) :=
  if pvi_VoteCount inp == Some 0 then io_err (errorf ErrInvalidPoll)
  else
    let req := mkPollVoteRequest (pvi_GroupID inp) (pvi_Recipient inp) (pvi_Target inp) (pvi_OptionIndexes inp)
                 (default 0 (pvi_VoteCount inp)) (pvi_Clear inp) in
    let* _ := checked_input (PollVoteRequest_Check req) in
    let counter := match pvi_VoteCount inp with Some n => FormatUint n | None => "automatic"%string end in
    let action := ("Vote on poll " ++ pvi_Target inp ++ " with options " ++ in_brackets (FormatUint <$> pvi_OptionIndexes inp)
                   ++ " (clear: " ++ show_bool (pvi_Clear inp) ++ ", counter: " ++ counter ++ ")")%string in
    let* asked := confirmPoll params ses (pvi_GroupID inp) (pvi_Recipient inp) action in
    finish_poll asked zeroPollResult (PollVote allow req).

Definition pollClose (params : CallToolParams) (ses : session) (inp : pollCloseInput) : M (answer PollSendResult) :=
  let req := mkPollCloseRequest (pli_GroupID inp) (pli_Recipient inp) (pli_Timestamp inp) in
  let* _ := checked_input (PollCloseRequest_Check req) in
  let* asked := confirmPoll params ses (pli_GroupID inp) (pli_Recipient inp) ("Close our poll at " ++ FormatUint (pli_Timestamp inp)) in
  finish_poll asked zeroPollResult (PollClose allow req).

(** *** The server *)

(** The inputs of the tools that write, as the SDK hands them over. *)
Inductive tool_input :=
  | InSend (inp : sendMessageInput) | InReact (inp : reactInput) | InDelete (inp : deleteMessageInput)
  | InPollCreate (inp : pollCreateInput) | InPollVote (inp : pollVoteInput) | InPollClose (inp : pollCloseInput).
Inductive tool_result :=
  | OutSend (r : SendResult) | OutReact (r : ReactResult) | OutDelete (r : DeleteResult) | OutPoll (r : PollSendResult).

Definition map_answer {X Y} (f : X -> Y) (m : M (answer X)) : M (answer Y) :=
  let* a := m in io_ret (match a with Asked id message => Asked id message | Answered x e => Answered (f x) e end).

(** A read-only server does not have these tools ([addWriteTools] and [addPollTools] in [NewServer]). *)
Definition call_tool (params : CallToolParams) (ses : session) (inp : tool_input) : M (answer tool_result) :=
  if tls_readOnly t then io_err (Opaque "unknown tool")
  else match inp with
       | InSend inp => map_answer OutSend (sendMessage params ses inp)
       | InReact inp => map_answer OutReact (react params ses inp)
       | InDelete inp => map_answer OutDelete (deleteMessage params ses inp)
       | InPollCreate inp => map_answer OutPoll (pollCreate params ses inp)
       | InPollVote inp => map_answer OutPoll (pollVote params ses inp)
       | InPollClose inp => map_answer OutPoll (pollClose params ses inp)
       end.
End tools.

(** ** Nothing is sent without a confirmation *)

Section confirmed.
Context {U : UuidLib} {W : Type} {C : Client W} {WC : WriteClient W} {F : Files W} {L : MediaLib} {T : UnicodeTables}.
Context {D : DirectoryClient W} {K : Casing} {B : InboxBackend W} {J : CanonicalJson} {E : McpEnv W}.
Context (allow : option Allowlist) (t : tools).
Notation M := (io (mcp W) err).

Definition untouched {X} (m : M X) : Prop := forall s r s', m s = (r, s') -> logs (mcp_app s') = logs (mcp_app s) /\ mcp_pending s' = mcp_pending s.

Lemma untouched_app {X} (m : io (App W) err X) : keeps_logs m -> untouched (in_app m).
Proof. intros H s r s'. unfold in_app. destruct (m (mcp_app s)) as [r0 a] eqn:Em. intros [= <- <-]. split; [by eapply H|done]. Qed.
Lemma untouched_of {X} (x : res X) : untouched (io_of x).
Proof. by intros s r s' [= _ <-]. Qed.
Lemma untouched_check e : untouched (checked_input (W:=W) e).
Proof. intros s r s'. by destruct e; intros [= _ <-]. Qed.

Lemma wrap_keeps {X} (m : io (App W) err X) : keeps_logs m -> keeps_logs (wrap_err m).
Proof. intros H. apply keeps_bind; [by apply keeps_try|]. intros [|]; [apply keeps_ret|apply keeps_err]. Qed.

Lemma ResolveGroup_keeps arg : keeps_logs (ResolveGroup (W:=W) arg).
Proof.
  unfold ResolveGroup. repeat (case_match || split_if); try apply keeps_ret; try apply keeps_err;
    [apply keeps_bind; [apply keeps_of|intros; apply keeps_ret]|].
  apply keeps_bind; [apply wrap_keeps, keeps_lift|]. intros cached. cbv zeta. repeat case_match; first [apply keeps_ret|apply keeps_err].
Qed.
Lemma ResolveChat_keeps arg : keeps_logs (ResolveChat (W:=W) arg).
Proof.
  unfold ResolveChat. destruct (ParseRecipient arg).
  - apply keeps_bind; [apply ResolveRecipients_keeps|]. intros [|x ts]; [apply keeps_err|apply keeps_ret].
  - apply keeps_bind; [apply wrap_keeps, ResolveGroup_keeps|]. intros ?. apply keeps_ret.
Qed.
Lemma chatArgs_keeps args : keeps_logs (chatArgs (W:=W) args).
Proof.
  induction args as [|arg args IH]; cbn [chatArgs]; [apply keeps_ret|]. apply keeps_bind; [apply ResolveChat_keeps|]. intros chat.
  apply keeps_bind; [apply IH|]. intros ?. apply keeps_ret.
Qed.
Lemma App_Names_keeps : keeps_logs (App_Names (W:=W)).
Proof.
  unfold App_Names. apply keeps_bind; [apply wrap_keeps, keeps_lift|]. intros acc. apply keeps_bind; [apply wrap_keeps, keeps_lift|]. intros contacts.
  apply keeps_bind; [apply keeps_try, keeps_lift|]. intros [|]; apply keeps_ret.
Qed.
Lemma tool_names_keeps : keeps_logs (tool_names (W:=W)).
Proof. apply keeps_bind; [apply keeps_try, App_Names_keeps|]. intros ?. apply keeps_ret. Qed.
Lemma messageRef_keeps ref : keeps_logs (messageRef (W:=W) ref).
Proof.
  unfold messageRef. cbv zeta. destruct (contains _ _); [apply keeps_ret|]. destruct (ParseInt _); [|apply keeps_err].
  apply keeps_bind; [|intros [env m]; apply keeps_ret]. unfold Message_. destruct (parseCursor _) as [id|]; [|apply keeps_err].
  destruct (id =? 0); [apply keeps_err|]. apply keeps_bind.
  - apply keeps_bind; [apply keeps_try, keeps_lift|]. intros [|]; [apply keeps_ret|apply keeps_err].
  - intros [|e es]; [apply keeps_err|]. destruct (ie_Event e); first [apply keeps_ret|apply keeps_err].
Qed.
Lemma CheckRecipients_keeps chats : keeps_logs (CheckRecipients (W:=W) allow chats).
Proof. apply keeps_bind; [apply ResolveRecipients_keeps|]. intros ts. apply checkAllowed_keeps. Qed.

(** The acceptance of a question that was waiting, which is then gone. *)
Definition accepted (params : CallToolParams) (pending pending' : gmap string pendingCall) : Prop :=
  exists id p, (id, Some "accept"%string) ∈ InputResponses params /\ pending !! id = Some p /\ pc_call p = callKey params
    /\ (exists w, (time_Now w).1 <= pc_expires p) /\ pending' !! id = None.

(** A question names the chats, which the allowlist has passed. *)
Definition asks_about (message : string) : Prop :=
  exists action chats names s1 s2, message = (action ++ " to " ++ chatLabels chats names ++ "?")%string
    /\ CheckRecipients allow chats s1 = (Ok tt, s2).

Definition tool_step {X} (params : CallToolParams) (m : M (answer X)) : Prop := forall s, let (r, s') := m s in
  match r with
  | Ok (Asked id message) => logs (mcp_app s') = logs (mcp_app s) /\ asks_about message
      /\ exists now, mcp_pending s' !! id = Some (mkPending (callKey params) (now + confirmTTL))
  | Ok (Answered _ _) => accepted params (mcp_pending s) (mcp_pending s')
  | Err _ => logs (mcp_app s') = logs (mcp_app s) \/ accepted params (mcp_pending s) (mcp_pending s')
  end.

Lemma step_bind {X Y} params (m : M Y) (f : Y -> M (answer X)) : untouched m -> (forall y, tool_step params (f y)) -> tool_step params (let* y := m in f y).
Proof.
  intros Hm Hf s. unfold io_bind. destruct (m s) as [[y|e] s1] eqn:Em; destruct (Hm _ _ _ Em) as [Hl Hp]; [|by left].
  specialize (Hf y s1). destruct (f y s1) as [r s2]. by rewrite Hl, Hp in Hf.
Qed.
Lemma step_err {X} params e : tool_step (X:=X) params (io_err e).
Proof. intros s. by left. Qed.

Lemma step_then {X Y} params (m : M (answer X)) (f : answer X -> M (answer Y)) : tool_step params m ->
  (forall id message, f (Asked id message) = io_ret (Asked id message)) ->
  (forall x e s, mcp_pending (f (Answered x e) s).2 = mcp_pending s /\ (forall id message, (f (Answered x e) s).1 <> Ok (Asked id message))) ->
  tool_step params (let* a := m in f a).
Proof.
  intros Hm Ha Hf s. unfold io_bind. specialize (Hm s). destruct (m s) as [[[id message|x e]|e] s1]; [by rewrite Ha| |done].
  destruct (Hf x e s1) as [Hp Hn]. destruct (f (Answered x e) s1) as [[[id message|y e']|e'] s2]; cbn in Hp, Hn; rewrite Hp; [by edestruct Hn|done|by right].
Qed.

Lemma check_responses_Proceed pending call now rs id pending' : check_responses pending call now rs = (Some (Proceed id), pending') ->
  (id, Some "accept"%string) ∈ rs /\ exists p, pending !! id = Some p /\ pc_call p = call /\ now <= pc_expires p /\ pending' !! id = None.
Proof.
  revert pending. induction rs as [|[i a] rs IH]; intros pending; cbn [check_responses]; [done|].
  unfold take_pending. destruct (pending !! i) as [p|] eqn:Ei; [destruct (expired now p) eqn:Ex|].
  - intros [Hin (q & Hq & ?)]%IH. split; [by right|]. exists q. split; [|done]. by apply lookup_delete_Some in Hq as [_ ?].
  - intros [= Hj <-]. apply judge_Proceed in Hj as (-> & Hk & ->). apply expired_false in Ex. split; [by left|]. exists p. split_and!; try done. apply lookup_delete_eq.
  - intros [Hin (q & Hq & ?)]%IH. split; [by right|]. exists q. split; [|done]. by apply lookup_delete_Some in Hq as [_ ?].
Qed.

Lemma check_responses_never_asks pending call now rs id m : (check_responses pending call now rs).1 <> Some (Ask id m).
Proof.
  revert pending. induction rs as [|[i a] rs IH]; intros pending; cbn [check_responses]; [done|].
  destruct (take_pending pending i now) as [[p|] p1]; [|apply IH]. cbn. intros [= H]. by apply judge_not_Ask in H.
Qed.

Lemma confirm_step_spec params ses chats names action : tls_confirm t = true -> forall s, let (r, s') := confirm allow t params ses chats names action s in
  logs (mcp_app s') = logs (mcp_app s) /\
  match r with
  | Ok None => accepted params (mcp_pending s) (mcp_pending s')
  | Ok (Some (id, message)) => asks_about message /\ exists now, mcp_pending s' !! id = Some (mkPending (callKey params) (now + confirmTTL))
  | Err _ => True
  end.
Proof.
  intros Ht s. unfold confirm. rewrite Ht. cbn [negb]. unfold io_bind. destruct (in_app _ s) as [[[]|e] s1] eqn:Ec.
  2: { by destruct (untouched_app _ (CheckRecipients_keeps chats) _ _ _ Ec) as [-> _]. }
  destruct (untouched_app _ (CheckRecipients_keeps chats) _ _ _ Ec) as [Hl Hp]. unfold ask_user.
  destruct (time_Now (app_world (mcp_app s1))) as [now w1] eqn:En. destruct (rand_Text w1) as [fresh w2].
  destruct (confirmer_check _ _ _ _ _ _) as [o pending] eqn:Eo. split; [exact Hl|]. unfold confirmer_check in Eo. rewrite Hp in Eo. cbn [mcp_pending].
  destruct (check_responses _ _ _ _) as [[o'|] pending1] eqn:Er.
  - injection Eo as -> ->. destruct o as [id|id message|e]; [|by pose proof (check_responses_never_asks (mcp_pending s) (callKey params) now (InputResponses params) id message) as Hn; rewrite Er in Hn|done].
    apply check_responses_Proceed in Er as [Hin (p & Hq & Hk & Hnow & Hgone)]. exists id, p. split_and!; try done.
    exists (app_world (mcp_app s1)). by rewrite En.
  - destruct (negb (canElicit ses)); injection Eo as <- <-; [done|]. split.
    + unfold in_app in Ec. destruct (CheckRecipients allow chats (mcp_app s)) as [rc a] eqn:Ech. injection Ec as -> _. by exists action, chats, names, (mcp_app s), a.
    + exists now. apply lookup_insert_eq.
Qed.

Lemma finish_keeps_pending {X} (zero : X) op s r s' : finish (W:=W) None zero op s = (r, s') -> mcp_pending s' = mcp_pending s /\ (forall id m, r <> Ok (Asked id m)).
Proof.
  unfold finish, io_bind, io_try, in_app. destruct (op (mcp_app s)) as [[[x [e|]]|e] a]; cbn; [destruct (errIs e ErrSendFailed)| |destruct (errIs e ErrSendFailed)]; intros [= <- <-]; (split; [done|by intros]).
Qed.

Lemma confirm_finish {X} params ses chats names action (zero : X) op : tls_confirm t = true ->
  tool_step params (let* asked := confirm allow t params ses chats names action in finish asked zero op).
Proof.
  intros Ht s. unfold io_bind. pose proof (confirm_step_spec params ses chats names action Ht s) as H.
  destruct (confirm allow t params ses chats names action s) as [[[[id message]|]|e] s1]; destruct H as [Hl H]; [exact (conj Hl H)| |by left].
  destruct (finish None zero op s1) as [r s2] eqn:Ef. destruct (finish_keeps_pending _ _ _ _ _ Ef) as [-> Hn]. destruct r as [[id m|x e]|e]; [by edestruct Hn|done|by right].
Qed.

Lemma finish_poll_step params groupID recipient ses action op : tls_confirm t = true ->
  tool_step params (let* asked := confirmPoll allow t params ses groupID recipient action in finish_poll asked zeroPollResult op).
Proof.
  intros Ht s. pose proof (step_then params (let* asked := confirmPoll allow t params ses groupID recipient action in finish asked zeroPollResult op)
    (fun a => match a with Asked _ _ => io_ret a | Answered _ _ => let* _ := in_app tool_names in io_ret a end)) as H.
  assert (Hassoc : forall s, (let* asked := confirmPoll allow t params ses groupID recipient action in finish_poll asked zeroPollResult op) s
    = (let* a := (let* asked := confirmPoll allow t params ses groupID recipient action in finish asked zeroPollResult op) in
       match a with Asked _ _ => io_ret a | Answered _ _ => let* _ := in_app tool_names in io_ret a end) s).
  { intros s0. unfold io_bind, finish_poll. by destruct (confirmPoll allow t params ses groupID recipient action s0) as [[]]. }
  rewrite Hassoc. apply H; [|done|].
  - intros s0. pose proof (step_bind params (in_app tool_names) (fun names => let* asked := confirm allow t params ses [if groupID != "" then (GroupPrefix ++ groupID)%string else recipient] names action in finish asked zeroPollResult op)
      (untouched_app _ tool_names_keeps) (fun names => confirm_finish params ses _ names action zeroPollResult op Ht) s0) as Hs.
    unfold confirmPoll. unfold io_bind in Hs |- *. by destruct (in_app tool_names s0) as [[] ?].
  - intros x e s0. unfold io_bind. destruct (in_app tool_names s0) as [r0 s1] eqn:En. destruct (untouched_app _ tool_names_keeps _ _ _ En) as [_ Hp].
    by destruct r0.
Qed.

Lemma map_step {X Y} params (f : X -> Y) m : tool_step params m -> tool_step params (map_answer f m).
Proof. intros H. apply step_then; [done|done|]. by intros x e s. Qed.

Lemma poll_handler params ses groupID recipient action op e : tls_confirm t = true ->
  tool_step params (let* _ := checked_input e in let* asked := confirmPoll allow t params ses groupID recipient action in finish_poll asked zeroPollResult op).
Proof. intros Ht. apply step_bind; [apply untouched_check|]. intros _. by apply finish_poll_step. Qed.

Lemma call_tool_step params ses inp : tls_confirm t = true -> tls_readOnly t = false -> tool_step params (call_tool allow t params ses inp).
Proof.
  intros Ht Hr. unfold call_tool. rewrite Hr. destruct inp as [inp|inp|inp|inp|inp|inp]; apply map_step.
  - apply step_bind; [apply untouched_of|]. intros send. apply step_bind; [apply untouched_app, tool_names_keeps|]. intros names.
    apply step_bind; [apply untouched_app, chatArgs_keeps|]. intros chats. apply step_bind; [|intros ref; by apply confirm_finish].
    apply untouched_app. destruct (_ != _); [|apply keeps_ret]. apply wrap_keeps, keeps_bind; [apply messageRef_keeps|]. intros ?. apply keeps_ret.
  - apply step_bind; [apply untouched_app, wrap_keeps, messageRef_keeps|]. intros [target chat]. apply step_bind.
    { apply untouched_app. destruct (_ != _); [|apply keeps_ret]. apply keeps_bind; [apply ResolveChat_keeps|]. intros ?. apply keeps_ret. }
    intros chat2. destruct (_ == _); [apply step_err|]. apply step_bind; [apply untouched_app, tool_names_keeps|]. intros names. by apply confirm_finish.
  - apply step_bind; [apply untouched_app, chatArgs_keeps|]. intros chats. apply step_bind; [apply untouched_app, tool_names_keeps|]. intros names. by apply confirm_finish.
  - by apply poll_handler.
  - unfold pollVote. destruct (_ == _); [apply step_err|]. by apply poll_handler.
  - by apply poll_handler.
Qed.

End confirmed.

Section witnesses.
Import DemoUuid.

(** A world that counts the lookups of usernames: the name belongs to Alice first and to Bob later. *)
Definition demo_alice : string := "22222222-2222-4222-8222-222222222222".
Definition demo_bob : string := "33333333-3333-4333-8333-333333333333".
#[local] Instance demo_client : Client Z := {|
  client_Account := io_ret (mkAccount "" "11111111-1111-4111-8111-111111111111" "" 1 "" 0 0 zero_time);
  client_Connect := io_ret tt;
  client_Resolve := fun _ w => (Ok [ofACI (if w =? 0 then demo_alice else demo_bob)], w + 1);
  client_Send := fun req => io_ret (mkSigResult (req_Timestamp req) ((fun r => mkRcptResult r false None) <$> req_Recipients req) None);
  client_SendReceipt := fun _ _ _ => io_ret tt; client_now := fun w => (9000000, w) |}.
#[local] Instance demo_write : WriteClient Z := {|
  client_Upload := fun _ => io_ret []; client_FetchSticker := fun _ => io_err (Sent ErrClosed); client_ReservePollVote := fun _ => io_ret 1;
  client_Group := fun _ => io_err (Sent ErrUnknownGroup); client_StoryAudiences := io_err (Sent ErrClosed) |}.
#[local] Instance demo_files : Files Z := {|
  os_Stat := fun _ => io_err (Sent ErrClosed); os_Read := fun _ _ => io_err (Sent ErrClosed); os_Abs := io_ret;
  os_OpenRoot := fun _ => io_ret tt; root_Stat := fun _ _ => io_err (Sent ErrClosed); root_Read := fun _ _ _ => io_err (Sent ErrClosed) |}.
#[local] Instance demo_tables : UnicodeTables := {| IsLetter := fun _ => false; IsPrint := fun r => (32 <=? r) && (r <? 127) |}.
#[local] Instance demo_casing : Casing := {| strings_ToLower := lower_string; strings_EqualFold := EqualFold |}.
#[local] Instance demo_directory : DirectoryClient Z := {|
  client_Contacts := io_ret [mkContact (ofACI demo_alice) "" "Alice" "" false None; mkContact (ofACI demo_bob) "" "Bob" "" false None];
  client_Contact := fun _ => io_err (Sent ErrUnknownContact); client_GroupTitles := io_ret ∅; client_SetBlocked := fun _ _ => io_ret tt |}.
#[local] Instance demo_env : McpEnv Z := {| time_Now := fun w => (w, w); rand_Text := fun w => ("X"%string, w) |}.
#[local] Existing Instance Confirm.demo_json.
#[local] Existing Instance AppSend.demo_media.

Definition demo_tools : tools := mkTools "" true false.
Definition demo_input : tool_input := InSend (mkSendInput ["@friend.01"%string] "on my way" [] "" "" None).
Definition demo_call (responses : list (string * option string)) : CallToolParams := mkParams "send_message" "{}" responses.
Definition demo_start : mcp Z := mkMcp ∅ (mkApp 3 ∅ [] [] 0).
#[local] Instance demo_backend : InboxBackend Z := {|
  inbox_Add := fun _ => io_err (Sent ErrClosed); inbox_List := fun _ => io_ret []; inbox_Chats := io_ret []; inbox_MarkRead := fun _ => io_ret 0;
  inbox_Prune := fun _ _ => io_ret 0 |}.

(** The first call asks, whether to send to Alice. *)
Definition demo_asked : mcp Z := (call_tool None demo_tools (demo_call []) Confirm.demo_session demo_input demo_start).2.
Example demo_question : (call_tool None demo_tools (demo_call []) Confirm.demo_session demo_input demo_start).1
  = Ok (Asked "confirm-X" ("Send " ++ quote "on my way" ++ " to Alice?")).
Proof. vm_compute. reflexivity. Qed.

(** The call with the answer resolves the username again: what is sent goes to Bob, whom it names by then. *)
Example confirmed_name_resolved_again :
  req_Recipients <$> app_sent (mcp_app (call_tool None demo_tools (demo_call [("confirm-X"%string, Some "accept"%string)]) Confirm.demo_session demo_input demo_asked).2)
  = [[ofACI demo_bob]].
Proof. vm_compute. reflexivity. Qed.

End witnesses.
