(* ===== verification/Blocked.v ===== *)
(** * Blocked users (internal/signal/meow_contacts.go, contacts.go, internal/store/contacts.go)

    The phone keeps the list of blocked users, numbers and groups and writes it to contact storage. To block a
    user, the client sends the complete new list, and remembers what storage does not say yet as an
    override. signalmeow's recipient store, storage service and database driver are the class
    [ContactStore]; the ghost logs of [bstate] have the lists handed over
    for sending and the flags handed to signalmeow's store. *)

From S2P Require Import Prelude Errors Uuid Utf8 Base64 Types SendCheck GroupChange Wire Convert Directory.

Definition BlockOverrideTTL : Z := 7 * 24 * 3600 * Second.

(** ** The table of overrides (store/contacts.go) *)

Record BlockOverride := mkOverride { bo_ACI : string; bo_Blocked : bool; bo_SetAt : time; bo_StorageVersion : Z }.
Record override_row := mkOverrideRow { or_blocked : bool; or_set_at : Z; or_storage_version : Z }.

Definition override_row_of (o : BlockOverride) : override_row :=
  mkOverrideRow (bo_Blocked o) (UnixMilli (bo_SetAt o)) (to_int64 (bo_StorageVersion o)).
Definition scanBlockOverride (aci : string) (row : override_row) : BlockOverride :=
  mkOverride aci (or_blocked row) (of_UnixMilli (or_set_at row)) (Z.max (or_storage_version row) 0).

(** ** The blocked list *)

Record blockedEntry := mkEntry { be_number : string; be_at : Z }.
Definition zeroBlockedEntry : blockedEntry := mkEntry "" 0.

(** The sync message about blocked users, as far as the code fills it. *)
Record SyncBlocked := mkSyncBlocked {
  sb_Acis : list string; sb_AcisBinary : list string; sb_Numbers : list string; sb_GroupIds : list string;
  sb_BlockedAcis : list (string * option Z); sb_BlockedE164S : list (string * option Z); sb_BlockedGroups : list (string * option Z) }.

(** Records of the storage service: contacts, groups and others. *)
Record BlockContact := mkBlockContact {
  bcr_Aci : string; bcr_AciBinary : string; bcr_E164 : string; bcr_Blocked : bool; bcr_BlockedAt : Z }.
Record BlockGroup := mkBlockGroup { bgr_MasterKey : string; bgr_Blocked : bool }.
Inductive block_record := RecContact (c : BlockContact) | RecGroupV2 (g : BlockGroup) | RecOther.
Record block_update := mkBlockUpdate { bku_Version : Z; bku_NewRecords : list block_record; bku_MissingRecords : list string }.

Section blocked.
Context {U : UuidLib} {P : SignalPb}.

(** signalmeow's recipients, and the privacy guards of an imported account. *)
Record recipient_row := mkRecipientRow {
  rr_ACI : uuid; rr_PNI : uuid; rr_E164 : string; rr_ContactName : string; rr_ProfileName : string; rr_Nickname : string;
  rr_Blocked : bool; rr_Whitelisted : option bool }.
Inductive privacy_kind := PrivacyEntityACI | PrivacyEntityPNI | PrivacyEntityAccount.
Record PrivacyGuard := mkGuard { pg_Kind : privacy_kind; pg_ID : uuid; pg_FieldBlocked : bool; pg_Protected : bool; pg_ValueTrue : bool }.

(** The device's stores, the statements of the own database, which may fail, the storage service, and
    sending a sync message. [recipients_table] is what SQL sees of signalmeow's table. *)
Class ContactStore (W : Type) := {
  cs_own_ACI : W -> uuid;
  has_loader : bool;
  LoadAllContacts : io W err (list recipient_row);
  LoadRecipientByACI : uuid -> io W err (option recipient_row);
  LoadRecipientByPNI : uuid -> io W err (option recipient_row);
  LoadRecipientByE164 : string -> io W err (option recipient_row);
  LoadAndUpdateRecipient : uuid -> uuid -> (recipient_row -> bool * recipient_row) -> io W err unit;
  PrivacyGuards : option (io W err (list PrivacyGuard));
  SetRecipientBlocked : uuid -> bool -> io W err unit;
  recipients_table : W -> list (string * option string * bool);
  sql_fails : W -> error * W;
  storedStorageKey : io W err (option string);
  FetchStorage : string -> Z -> io W err (option block_update);
  SendSync : SyncBlocked -> W -> (bool * error) * W;
  GroupMasterKeyLength : Z;
  GroupIdentifier : string -> res string;
  cs_now : W -> Z * W;
  cs_begin : W -> bool;
  cs_connected : W -> bool;
  cs_client : W -> bool;
  cs_lost : W -> error;
  cs_device : io W err unit;
}.

Record blockedList := mkBlockedList {
  bl_acis : gmap uuid blockedEntry; bl_numbers : gmap string Z; bl_groups : gmap string Z }.
Definition newBlockedList : blockedList := mkBlockedList ∅ ∅ ∅.

Definition isBlocked (l : blockedList) (aci : uuid) : bool := bool_decide (is_Some (bl_acis l !! aci)).

(** [blockedList.set]. *)
Definition blocked_set (l : blockedList) (aci : uuid) (number : string) (blocked : bool) (when : time) : blockedList :=
  let entry := default zeroBlockedEntry (bl_acis l !! aci) in
  if negb blocked then
    let numbers := if isBlocked l aci && (be_number entry != "") then delete (be_number entry) (bl_numbers l) else bl_numbers l in
    mkBlockedList (delete aci (bl_acis l)) (if number != "" then delete number numbers else numbers) (bl_groups l)
  else
    let entry := if isBlocked l aci then entry else mkEntry (be_number entry) (to_uint64 (UnixMilli when)) in
    let entry := if number != "" then mkEntry number (be_at entry) else entry in
    mkBlockedList (<[aci := entry]> (bl_acis l)) (delete (be_number entry) (bl_numbers l)) (bl_groups l).

Definition optionalTimestamp (ms : Z) : option Z := if ms =? 0 then None else Some ms.

(** The keys of a map in the order of their texts. *)
Definition sorted_keys {V} (m : gmap string V) : list string := sort_by String.leb (map_to_list m).*1.
Definition sorted_acis (m : gmap uuid blockedEntry) : list uuid :=
  sort_by (fun a b => String.leb (uuid_string a) (uuid_string b)) (map_to_list m).*1.

Definition syncMessage (l : blockedList) : SyncBlocked :=
  let acis := (fun aci => (aci, default zeroBlockedEntry (bl_acis l !! aci))) <$> sorted_acis (bl_acis l) in
  let numbered := filter (fun x : uuid * blockedEntry => be_number x.2 <> ""%string) acis in
  let numbers := (fun n => (n, default 0 (bl_numbers l !! n))) <$> sorted_keys (bl_numbers l) in
  let groups := (fun g => (g, default 0 (bl_groups l !! g))) <$> sorted_keys (bl_groups l) in
  mkSyncBlocked
    ((fun x => uuid_string x.1) <$> acis) ((fun x => uuid_bytes x.1) <$> acis)
    (((fun x => be_number x.2) <$> numbered) ++ numbers.*1) groups.*1
    ((fun x => (uuid_bytes x.1, optionalTimestamp (be_at x.2))) <$> acis)
    (((fun x => (be_number x.2, optionalTimestamp (be_at x.2))) <$> numbered)
     ++ ((fun x => (x.1, optionalTimestamp x.2)) <$> numbers))
    ((fun x => (x.1, optionalTimestamp x.2)) <$> groups).

(** ** What a fetch of the storage service says *)

Record storageSnapshot := mkSnapshot {
  ss_version : Z; ss_list : blockedList; ss_read : gset uuid; ss_complete : bool; ss_problem : error }.

Section snapshot.
Context {W : Type} {S : ContactStore W}.

Definition addContact (l : blockedList) (c : BlockContact) : res blockedList :=
  if negb (bcr_Blocked c) then Ok l
  else
    let without_aci :=
      if bcr_E164 c != "" then Ok (mkBlockedList (bl_acis l) (<[bcr_E164 c := bcr_BlockedAt c]> (bl_numbers l)) (bl_groups l))
      else Err (errorf ErrBlockedListIncomplete) in
    match ParseStringOrBinaryUUID (bcr_Aci c) (bcr_AciBinary c) with
    | Some aci =>
        if aci == uuid_nil then without_aci
        else Ok (mkBlockedList (<[aci := mkEntry (bcr_E164 c) (bcr_BlockedAt c)]> (bl_acis l)) (bl_numbers l) (bl_groups l))
    | None => without_aci
    end.

Definition addGroup (l : blockedList) (g : BlockGroup) : res blockedList :=
  if negb (bgr_Blocked g) then Ok l
  else if negb (slen (bgr_MasterKey g) =? GroupMasterKeyLength) then Err (errorf ErrBlockedListIncomplete)
  else match GroupIdentifier (bgr_MasterKey g) with
       | Err e => Err (Wrap [e])
       | Ok id => Ok (mkBlockedList (bl_acis l) (bl_numbers l) (<[id := 0]> (bl_groups l)))
       end.

Definition read_contact (c : BlockContact) : gset uuid :=
  match ParseStringOrBinaryUUID (bcr_Aci c) (bcr_AciBinary c) with Some aci => if aci == uuid_nil then ∅ else {[ aci ]} | None => ∅ end.

(** A record of the loop of [readStorage]: a failing one changes only the first problem. *)
Definition read_record (seen : storageSnapshot) (record : block_record) : storageSnapshot :=
  let '(read, out) := match record with
    | RecContact c => (read_contact c ∪ ss_read seen, addContact (ss_list seen) c)
    | RecGroupV2 g => (ss_read seen, addGroup (ss_list seen) g)
    | RecOther => (ss_read seen, Ok (ss_list seen))
    end in
  match out with
  | Ok l => mkSnapshot (ss_version seen) l read (ss_complete seen) (ss_problem seen)
  | Err e => mkSnapshot (ss_version seen) (ss_list seen) read (ss_complete seen)
               (match ss_problem seen with Some p => Some p | None => Some e end)
  end.

Definition readStorage (update : option block_update) : option storageSnapshot :=
  match update with
  | None => None
  | Some update =>
      let complete := len (bku_MissingRecords update) =? 0 in
      let seen := mkSnapshot (bku_Version update) newBlockedList ∅ complete
                    (if complete then None else Some (errorf ErrBlockedListIncomplete)) in
      Some (foldl read_record seen (bku_NewRecords update))
  end.

Definition completeStorage (update : option block_update) : res storageSnapshot :=
  match readStorage update with
  | None => Err (errorf ErrBlockedListIncomplete)
  | Some seen => match ss_problem seen with Some e => Err e | None => Ok seen end
  end.
End snapshot.

Definition supersedes (s : option storageSnapshot) (o : BlockOverride) : bool :=
  match s with None => false | Some s => bo_StorageVersion o <? ss_version s end.
(** The blocked state of a user, if it is known. *)
Definition snapshot_state (s : option storageSnapshot) (aci : uuid) : option bool :=
  match s with
  | None => None
  | Some s => if isBlocked (ss_list s) aci then Some true
              else if ss_complete s || bool_decide (aci ∈ ss_read s) then Some false else None
  end.
Definition knows (s : option storageSnapshot) (aci : string) : bool :=
  match uuid_parse aci with None => false | Some aci => bool_decide (is_Some (snapshot_state s aci)) end.
Definition expired_override (o : BlockOverride) (now : Z) : bool := BlockOverrideTTL <? now - bo_SetAt o.

(** ** Operations *)

(** The table of overrides, the lists sent, the flags stored in signalmeow's recipients, and the rest. *)
Record bstate (W : Type) := mkBState {
  bs_overrides : gmap string override_row; bs_sent : list SyncBlocked; bs_stored : list (uuid * bool); bs_world : W }.
Arguments mkBState {W}. Arguments bs_overrides {W}. Arguments bs_sent {W}. Arguments bs_stored {W}. Arguments bs_world {W}.

(** A user to block or unblock. *)
Record blockTarget := mkBlockTarget { bt_aci : uuid; bt_number : string }.

Section operations.
Context {W : Type} {S : ContactStore W}.
Notation M := (io (bstate W) err).

Definition lift_b {A} (m : io W err A) : M A := fun s =>
  let (r, w) := m (bs_world s) in (r, mkBState (bs_overrides s) (bs_sent s) (bs_stored s) w).
Definition b_now : M Z := lift_b (fun w => let (t, w) := cs_now w in (Ok t, w)).
(** [fmt.Errorf] around what failed. *)
Definition wrap_b {A} (m : M A) : M A := let* r := io_try m in match r with Ok a => io_ret a | Err e => io_err (Wrap [e]) end.

(** *** Statements *)

Definition statement : M unit := lift_b (fun w => let (e, w) := sql_fails w in (match e with Some e => Err (Wrap [e]) | None => Ok tt end, w)).
Definition overrides_now : M (gmap string override_row) := fun s => (Ok (bs_overrides s), s).
Definition write_overrides (f : gmap string override_row -> gmap string override_row) : M unit := fun s =>
  (Ok tt, mkBState (f (bs_overrides s)) (bs_sent s) (bs_stored s) (bs_world s)).

Definition SetBlockOverride (o : BlockOverride) : M unit :=
  let* _ := statement in write_overrides (insert (bo_ACI o) (override_row_of o)).
Definition DeleteBlockOverride (aci : string) : M unit := let* _ := statement in write_overrides (delete aci).

Definition overrides_of (m : gmap string override_row) : list BlockOverride :=
  (fun aci => scanBlockOverride aci (default (mkOverrideRow false 0 0) (m !! aci))) <$> sorted_keys m.
Definition BlockOverrides : M (list BlockOverride) := let* _ := statement in let* m := overrides_now in io_ret (overrides_of m).

(** [SELECT aci_uuid ... WHERE account_id=$1 AND blocked AND aci_uuid IS NOT NULL ORDER BY aci_uuid]. *)
Definition BlockedACIs (accountACI : string) : M (list string) :=
  let* _ := statement in
  fun s => (Ok (sort_by String.leb (omap (fun row : string * option string * bool =>
              if (row.1.1 == accountACI) && row.2 then row.1.2 else None) (recipients_table (bs_world s)))), s).

(** *** Reading *)

(** [recipientStore]: the device of the account, which must load by ACI. *)
Definition recipientStore : M uuid :=
  let* _ := lift_b cs_device in
  if negb has_loader then io_err (Opaque "no loader") else fun s => (Ok (cs_own_ACI (bs_world s)), s).

Definition contactFrom (r : recipient_row) : Contact :=
  mkContact (mkRecipient (if rr_ACI r == uuid_nil then "" else uuid_string (rr_ACI r)) (if rr_PNI r == uuid_nil then "" else uuid_string (rr_PNI r))
               (rr_E164 r) "")
    (rr_ContactName r) (rr_ProfileName r) (rr_Nickname r) (rr_Blocked r) (rr_Whitelisted r).

Definition pendingOverrides (now : Z) : M (gmap string bool) :=
  let* overrides := BlockOverrides in
  io_ret (foldl (fun m o => if expired_override o now then m else <[bo_ACI o := bo_Blocked o]> m) ∅ overrides).

Definition withOverride (c : Contact) (pending : gmap string bool) : Contact :=
  match pending !! ACI (con_Recipient c) with
  | Some blocked => if ACI (con_Recipient c) != "" then
                      mkContact (con_Recipient c) (ContactName c) (ProfileName c) (Nickname c) blocked (Accepted c) else c
  | None => c
  end.

Fixpoint load_blocked (seen : gset uuid) (acis : list string) : M (list recipient_row) :=
  match acis with
  | [] => io_ret []
  | raw :: rest =>
      match uuid_parse raw with
      | None => load_blocked seen rest
      | Some aci =>
          if bool_decide (aci ∈ seen) then load_blocked seen rest
          else
            let* r := wrap_b (lift_b (LoadRecipientByACI aci)) in
            let* out := load_blocked seen rest in
            io_ret (match r with Some row => row :: out | None => out end)
      end
  end.
Definition loadContacts (own : uuid) : M (list recipient_row) :=
  let* known := wrap_b (lift_b LoadAllContacts) in
  let* blocked := BlockedACIs (uuid_string own) in
  let* more := load_blocked (list_to_set (rr_ACI <$> known)) blocked in
  io_ret (known ++ more).

Definition begin_sending : M unit := fun s => (if cs_begin (bs_world s) then Ok tt else Err (Sent ErrClosed), s).

Definition meow_Contacts : M (list Contact) :=
  let* _ := begin_sending in
  let* own := recipientStore in
  let* known := loadContacts own in
  let* now := b_now in
  let* pending := pendingOverrides now in
  io_ret ((fun r => withOverride (contactFrom r) pending)
            <$> filter (fun r => negb ((rr_ACI r != uuid_nil) && (rr_ACI r == own)) = true) known).

Definition loadRecipient (rcpt : Recipient) : M recipient_row :=
  let* found :=
    (if ACI rcpt != "" then
       match uuid_parse (ACI rcpt) with None => io_err (errorf ErrUnresolvable) | Some aci => wrap_b (lift_b (LoadRecipientByACI aci)) end
     else if PNI rcpt != "" then
       match uuid_parse (PNI rcpt) with None => io_err (errorf ErrUnresolvable) | Some pni => wrap_b (lift_b (LoadRecipientByPNI pni)) end
     else if Number rcpt != "" then wrap_b (lift_b (LoadRecipientByE164 (Number rcpt)))
     else io_ret None) in
  match found with None => io_err (errorf ErrUnknownContact) | Some r => io_ret r end.

Definition meow_Contact (rcpt : Recipient) : M Contact :=
  let* _ := begin_sending in
  let* _ := recipientStore in
  let* found := loadRecipient rcpt in
  let* now := b_now in
  let* pending := pendingOverrides now in
  io_ret (withOverride (contactFrom found) pending).

(** *** The list to send *)

Definition knownNumber (aci : uuid) (number : string) : M string :=
  if number != "" then io_ret number
  else if negb has_loader then io_ret ""%string
  else
    let* r := io_try (lift_b (LoadRecipientByACI aci)) in
    io_ret (match r with Ok (Some row) => rr_E164 row | _ => ""%string end).

Definition setPNI (l : blockedList) (pni : uuid) (blocked : bool) : M blockedList :=
  let* number :=
    (if has_loader then
       let* r := wrap_b (lift_b (LoadRecipientByPNI pni)) in io_ret (match r with Some row => rr_E164 row | None => ""%string end)
     else io_ret ""%string) in
  if number == "" then if blocked then io_err (errorf ErrBlockedListIncomplete) else io_ret l
  else io_ret (mkBlockedList (bl_acis l)
                 (if blocked then match bl_numbers l !! number with Some _ => bl_numbers l | None => <[number := 0]> (bl_numbers l) end
                  else delete number (bl_numbers l)) (bl_groups l)).

Definition protect (l : blockedList) (guard : PrivacyGuard) (now : time) : M blockedList :=
  let blocked := pg_ValueTrue guard in
  match pg_Kind guard with
  | PrivacyEntityACI =>
      if negb (Bool.eqb (isBlocked l (pg_ID guard)) blocked) then
        let* number := knownNumber (pg_ID guard) "" in io_ret (blocked_set l (pg_ID guard) number blocked now)
      else io_ret l
  | PrivacyEntityPNI => setPNI l (pg_ID guard) blocked
  | PrivacyEntityAccount => io_ret l
  end.

Fixpoint protect_all (l : blockedList) (guards : list PrivacyGuard) (now : time) : M blockedList :=
  match guards with
  | [] => io_ret l
  | guard :: rest =>
      if negb (pg_Protected guard) || negb (pg_FieldBlocked guard) then protect_all l rest now
      else let* l := protect l guard now in protect_all l rest now
  end.
Definition protectBlocked (l : blockedList) (now : time) : M blockedList :=
  match PrivacyGuards with
  | None => io_ret l
  | Some read => let* guards := wrap_b (lift_b read) in protect_all l guards now
  end.

Fixpoint apply_overrides (seen : storageSnapshot) (l : blockedList) (overrides : list BlockOverride) (now : time) : M blockedList :=
  match overrides with
  | [] => io_ret l
  | o :: rest =>
      if expired_override o now || supersedes (Some seen) o then apply_overrides seen l rest now
      else match uuid_parse (bo_ACI o) with
           | None => apply_overrides seen l rest now
           | Some aci =>
               if Bool.eqb (isBlocked l aci) (bo_Blocked o) then apply_overrides seen l rest now
               else let* number := knownNumber aci "" in
                    apply_overrides seen (blocked_set l aci number (bo_Blocked o) (bo_SetAt o)) rest now
           end
  end.

Definition pendingBlockedList (seen : storageSnapshot) (now : time) : M blockedList :=
  let* l := protectBlocked (ss_list seen) now in
  let* overrides := BlockOverrides in
  apply_overrides seen l overrides now.

(** *** Settling overrides *)

Definition update_blocked (blocked : bool) (r : recipient_row) : bool * recipient_row :=
  if Bool.eqb (rr_Blocked r) blocked then (false, r)
  else (true, mkRecipientRow (rr_ACI r) (rr_PNI r) (rr_E164 r) (rr_ContactName r) (rr_ProfileName r) (rr_Nickname r) blocked (rr_Whitelisted r)).
Definition store_log (aci : uuid) (blocked : bool) : M unit := fun s =>
  (Ok tt, mkBState (bs_overrides s) (bs_sent s) (bs_stored s ++ [(aci, blocked)]) (bs_world s)).

(** [setBlocked]. *)
Definition meow_setBlocked (aci : uuid) (blocked : bool) : M unit :=
  let* _ := store_log aci blocked in
  wrap_b (lift_b (LoadAndUpdateRecipient aci uuid_nil (update_blocked blocked))).

Definition storeBlockedState (aci : string) (state : uuid -> option bool) : M unit :=
  match uuid_parse aci with
  | None => io_ret tt
  | Some parsed =>
      match state parsed with
      | None => io_ret tt
      | Some blocked => let* _ := io_try (meow_setBlocked parsed blocked) in io_ret tt
      end
  end.
Definition dropOverride (o : BlockOverride) : M unit := let* _ := io_try (DeleteBlockOverride (bo_ACI o)) in io_ret tt.

Definition settle (seen : option storageSnapshot) (now : Z) (o : BlockOverride) : M unit :=
  if expired_override o now then
    let* _ := storeBlockedState (bo_ACI o) (snapshot_state seen) in dropOverride o
  else if supersedes seen o && knows seen (bo_ACI o) then
    let* _ := dropOverride o in storeBlockedState (bo_ACI o) (snapshot_state seen)
  else if supersedes seen o then io_ret tt
  else storeBlockedState (bo_ACI o) (fun _ => Some (bo_Blocked o)).
Fixpoint settle_all (seen : option storageSnapshot) (now : Z) (overrides : list BlockOverride) : M unit :=
  match overrides with [] => io_ret tt | o :: rest => let* _ := settle seen now o in settle_all seen now rest end.

Definition settleOverridesLocked (seen : option storageSnapshot) (now : Z) : M unit :=
  let* r := io_try BlockOverrides in
  match r with Err _ => io_ret tt | Ok overrides => settle_all seen now overrides end.
Definition settleOverrides (seen : option storageSnapshot) : M unit := let* now := b_now in settleOverridesLocked seen now.

(** *** Blocking *)

Definition store_target (seen : storageSnapshot) (blocked : bool) (now : time) (target : blockTarget) : M unit :=
  let aci := uuid_string (bt_aci target) in
  let* _ := wrap_b (if Bool.eqb (isBlocked (ss_list seen) (bt_aci target)) blocked then DeleteBlockOverride aci
                    else SetBlockOverride (mkOverride aci blocked now (ss_version seen))) in
  let* _ := store_log (bt_aci target) blocked in
  wrap_b (lift_b (SetRecipientBlocked (bt_aci target) blocked)).
Fixpoint store_targets (seen : storageSnapshot) (blocked : bool) (now : time) (targets : list blockTarget) : M unit :=
  match targets with [] => io_ret tt | t :: rest => let* _ := store_target seen blocked now t in store_targets seen blocked now rest end.
Definition storeBlocked (seen : storageSnapshot) (targets : list blockTarget) (blocked : bool) (now : time) : M unit :=
  let* _ := store_targets seen blocked now targets in settleOverridesLocked (Some seen) now.

(** [sendSyncMessage], with the list logged. *)
Definition sendSyncMessage (msg : SyncBlocked) : M unit := fun s =>
  let '(sent, e, w) := SendSync msg (bs_world s) in
  (if sent : bool then Ok tt else Err (default (Sent signal_ErrSendFailed) e), mkBState (bs_overrides s) (bs_sent s ++ [msg]) (bs_stored s) w).

Fixpoint set_targets (l : blockedList) (blocked : bool) (now : time) (targets : list blockTarget) : M blockedList :=
  match targets with
  | [] => io_ret l
  | t :: rest => let* number := knownNumber (bt_aci t) (bt_number t) in set_targets (blocked_set l (bt_aci t) number blocked now) blocked now rest
  end.

Definition applyBlocked (update : option block_update) (targets : list blockTarget) (blocked : bool) : M unit :=
  let* seen := io_of (completeStorage update) in
  let* now := b_now in
  let* l := pendingBlockedList seen now in
  let* l := set_targets l blocked now targets in
  let* _ := wrap_b (sendSyncMessage (syncMessage l)) in
  storeBlocked seen targets blocked now.

Definition fetchStorage (since : Z) : M (option block_update) :=
  let* key := lift_b storedStorageKey in
  match key with
  | None => io_err (Sent ErrStorageKeyUnknown)
  | Some key => wrap_b (lift_b (FetchStorage key since))
  end.

Fixpoint block_targets (recipients : list Recipient) : res (list blockTarget) :=
  match recipients with
  | [] => Ok []
  | r :: rest => id ← aciServiceID r; out ← block_targets rest; Ok (mkBlockTarget id (Number r) :: out)
  end.

Definition meow_SetBlocked (recipients : list Recipient) (blocked : bool) : M unit := fun s =>
  if negb (cs_connected (bs_world s)) then (Err (Sent ErrNotConnected), s)
  else
    (let* targets := io_of (block_targets recipients) in
     let* _ := begin_sending in
     let* _ := (fun s => (match cs_lost (bs_world s) with Some e => Err (Wrap [e]) | None => Ok tt end, s)) in
     let* update := fetchStorage 0 in
     applyBlocked update targets blocked) s.

(** *** After a storage sync *)

Definition storageSince (fetch : Z -> M (option block_update)) (since : Z) : M (option storageSnapshot) :=
  let* r := io_try (fetch since) in
  match r with
  | Err _ => io_ret None
  | Ok None => io_ret (Some (mkSnapshot since newBlockedList ∅ false None))
  | Ok (Some update) => io_ret (readStorage (Some update))
  end.

(** [changed] are the users that the sync changed. *)
Definition storageSyncedWith (changed : list (option recipient_row)) (fetch : Z -> M (option block_update)) : M unit :=
  let* r := io_try BlockOverrides in
  match r with
  | Err _ => io_ret tt
  | Ok overrides =>
      let changedACIs := omap (fun r => match r with
                                        | Some row => if rr_ACI row == uuid_nil then None else Some (uuid_string (rr_ACI row))
                                        | None => None end) changed in
      if negb (existsb (fun o => bool_decide (bo_ACI o ∈ changedACIs)) overrides) then io_ret tt
      else let* seen := storageSince fetch (foldl (fun m o => Z.min m (bo_StorageVersion o)) MaxUint64 overrides) in settleOverrides seen
  end.
(** [fetchStorageNow], with the current signalmeow client. *)
Definition fetchStorageNow (since : Z) : M (option block_update) := fun s =>
  if negb (cs_client (bs_world s)) then (Err (Sent ErrNotConnected), s) else fetchStorage since s.
(** [device]: whether the account's device is known. *)
Definition storageSynced (device : bool) (changed : list (option recipient_row)) : M unit :=
  if negb device then io_ret tt else storageSyncedWith changed fetchStorageNow.
Definition storageFetched (update : option block_update) : M unit := settleOverrides (readStorage update).
End operations.
End blocked.
#[global] Arguments mkBState {U W}.
#[global] Arguments bs_overrides {U W}.
#[global] Arguments bs_sent {U W}.
#[global] Arguments bs_stored {U W}.
#[global] Arguments bs_world {U W}.

(** ** What a list and its message say *)

Section lists.
Context {U : UuidLib} {UL : UuidLaws U} {P : SignalPb} {PL : SignalPbLaws P}.

Lemma isBlocked_set l aci number blocked when x :
  isBlocked (blocked_set l aci number blocked when) x = if bool_decide (x = aci) then blocked else isBlocked l x.
Proof.
  unfold isBlocked at 1. destruct (decide (x = aci)) as [->|Hne].
  - rewrite (bool_decide_eq_true_2 (aci = aci)) by done. destruct blocked; unfold blocked_set; cbn [negb bl_acis].
    + apply bool_decide_eq_true_2. rewrite lookup_insert_eq. by eexists.
    + apply bool_decide_eq_false_2. rewrite lookup_delete_eq. by intros [].
  - rewrite (bool_decide_eq_false_2 (x = aci)) by done. unfold isBlocked. destruct blocked; unfold blocked_set; cbn [negb bl_acis].
    + by rewrite lookup_insert_ne by congruence.
    + by rewrite lookup_delete_ne by congruence.
Qed.
Lemma groups_set l aci number blocked when : bl_groups (blocked_set l aci number blocked when) = bl_groups l.
Proof. unfold blocked_set. by destruct blocked. Qed.

Lemma sorted_acis_perm m : sorted_acis m ≡ₚ (map_to_list m).*1.
Proof. apply sort_by_perm. Qed.
Lemma elem_of_sorted_acis m aci : aci ∈ sorted_acis m <-> is_Some (m !! aci).
Proof.
  rewrite sorted_acis_perm, list_elem_of_fmap. split.
  - intros ([k e] & -> & H%elem_of_map_to_list). by exists e.
  - intros [e H]. exists (aci, e). split; [done|by apply elem_of_map_to_list].
Qed.
Lemma elem_of_sorted_keys {V} (m : gmap string V) k : k ∈ sorted_keys m <-> is_Some (m !! k).
Proof.
  unfold sorted_keys. rewrite sort_by_perm, list_elem_of_fmap. split.
  - intros ([k' e] & -> & H%elem_of_map_to_list). by exists e.
  - intros [e H]. exists (k, e). split; [done|by apply elem_of_map_to_list].
Qed.
Lemma sorted_keys_NoDup {V} (m : gmap string V) : NoDup (sorted_keys m).
Proof. unfold sorted_keys. rewrite sort_by_perm. apply NoDup_fst_map_to_list. Qed.

(** The message lists exactly the users of the list, each once and in order of their ACIs, with the time
    they were blocked; its numbers are those of listed users and those known by number only; its groups
    are the list's. *)
Definition message_lists (msg : SyncBlocked) (l : blockedList) : Prop :=
  Sorted (fun a b => String.leb a b = true) (sb_Acis msg) /\ NoDup (sb_Acis msg)
  /\ (forall aci, uuid_string aci ∈ sb_Acis msg <-> isBlocked l aci = true)
  /\ (forall aci, uuid_bytes aci ∈ sb_AcisBinary msg <-> isBlocked l aci = true)
  /\ (forall aci t, (uuid_bytes aci, t) ∈ sb_BlockedAcis msg <-> exists e, bl_acis l !! aci = Some e /\ t = optionalTimestamp (be_at e))
  /\ (forall n, n ∈ sb_Numbers msg <-> is_Some (bl_numbers l !! n) \/ (n <> ""%string /\ exists aci e, bl_acis l !! aci = Some e /\ be_number e = n))
  /\ (forall g, g ∈ sb_GroupIds msg <-> is_Some (bl_groups l !! g)).

Lemma uuid_bytes_inj u v : uuid_bytes u = uuid_bytes v -> u = v.
Proof. intros H. apply (f_equal uuid_FromBytes) in H. rewrite !FromBytes_bytes in H. by injection H. Qed.

Lemma Sorted_fmap {A B} (f : A -> B) (R : B -> B -> Prop) (l : list A) : Sorted (fun a b => R (f a) (f b)) l -> Sorted R (f <$> l).
Proof.
  induction 1 as [|a l Hs IH Hh]; [constructor|]. cbn. constructor; [done|]. inversion Hh; subst; [constructor|]. by constructor.
Qed.

Lemma syncMessage_lists l : message_lists (syncMessage l) l.
Proof.
  assert (Hin : forall x, x ∈ ((fun aci => (aci, default zeroBlockedEntry (bl_acis l !! aci))) <$> sorted_acis (bl_acis l))
    <-> bl_acis l !! x.1 = Some x.2).
  { intros [aci e]. rewrite list_elem_of_fmap. split.
    - intros (a & [= -> ->] & [e' He]%elem_of_sorted_acis). cbn. by rewrite He.
    - intros He. cbn in He. exists aci. rewrite He. split; [done|]. apply elem_of_sorted_acis. by eexists. }
  assert (Hb : forall aci, isBlocked l aci = true <-> exists e, bl_acis l !! aci = Some e).
  { intros aci. unfold isBlocked. rewrite bool_decide_eq_true. done. }
  unfold message_lists, syncMessage. cbn [sb_Acis sb_AcisBinary sb_BlockedAcis sb_Numbers sb_GroupIds]. split_and!.
  - rewrite <- list_fmap_compose. apply (Sorted_fmap (fun x => uuid_string x)). apply sort_by_sorted. intros a b. apply string_leb_total.
  - rewrite <- list_fmap_compose. apply (NoDup_fmap_2 (fun x => uuid_string x)). rewrite sorted_acis_perm. apply NoDup_fst_map_to_list.
  - intros aci. rewrite Hb, list_elem_of_fmap. split.
    + intros ([a e] & E & He%Hin). apply uuid_string_inj in E as ->. by exists e.
    + intros [e He]. exists (aci, e). split; [done|by apply Hin].
  - intros aci. rewrite Hb, list_elem_of_fmap. split.
    + intros ([a e] & E & He%Hin). apply uuid_bytes_inj in E as ->. by exists e.
    + intros [e He]. exists (aci, e). split; [done|by apply Hin].
  - intros aci t. rewrite list_elem_of_fmap. split.
    + intros ([a e] & [= E ->] & He%Hin). apply uuid_bytes_inj in E as ->. by exists e.
    + intros (e & He & ->). exists (aci, e). split; [done|by apply Hin].
  - intros n. rewrite elem_of_app, <- list_fmap_compose, !list_elem_of_fmap. split.
    + intros [([a e] & -> & [Hne He%Hin]%list_elem_of_filter)|(k & -> & Hk%elem_of_sorted_keys)]; [right|by left].
      split; [done|]. by exists a, e.
    + intros [Hn|(Hne & a & e & He & <-)]; [right|left].
      * exists n. split; [done|by apply elem_of_sorted_keys].
      * exists (a, e). split; [done|]. apply list_elem_of_filter. split; [done|by apply Hin].
  - intros g. rewrite <- list_fmap_compose, list_elem_of_fmap. split.
    + intros (k & -> & Hk). by apply elem_of_sorted_keys.
    + intros Hg. exists g. split; [done|by apply elem_of_sorted_keys].
Qed.
End lists.

(** ** Operations that change nothing but the world *)

Section calm.
Context {U : UuidLib} {P : SignalPb} {W : Type} {S : ContactStore W}.
Notation M := (io (bstate W) err).

Definition kept (s s' : bstate W) : Prop :=
  bs_overrides s' = bs_overrides s /\ bs_sent s' = bs_sent s /\ bs_stored s' = bs_stored s.

#[export] Instance kept_preorder : PreOrder kept.
Proof. split; [by intros s|]. intros s1 s2 s3 (?&?&?) (?&?&?). split_and!; congruence. Qed.

(** With the overrides [rows], [m] changes no override, sends nothing, stores no flag, and gives a result in [Q]. *)
Definition calm {A} (rows : gmap string override_row) (m : M A) (Q : A -> Prop) : Prop :=
  forall s, bs_overrides s = rows -> let (r, s') := m s in kept s s' /\ match r with Ok a => Q a | Err _ => True end.

Lemma calm_ret {A} rows (a : A) (Q : A -> Prop) : Q a -> calm rows (io_ret a) Q.
Proof. intros H s _. done. Qed.
Lemma calm_err {A} rows (e : err) (Q : A -> Prop) : calm rows (io_err e) Q.
Proof. intros s _. done. Qed.
Lemma calm_bind {A B} rows (m : M A) (f : A -> M B) Q R : calm rows m Q -> (forall a, Q a -> calm rows (f a) R) -> calm rows (let* a := m in f a) R.
Proof.
  intros Hm Hf s Hs. unfold io_bind. specialize (Hm s Hs). destruct (m s) as [[a|e] s1]; destruct Hm as [Hk Hq]; [|done].
  specialize (Hf a Hq s1). assert (Hs1 : bs_overrides s1 = rows) by (destruct Hk; congruence). specialize (Hf Hs1).
  destruct (f a s1) as [r s2]. destruct Hf as [Hk' Hr]. split; [by transitivity s1|done].
Qed.
Lemma calm_weaken {A} rows (m : M A) (Q R : A -> Prop) : calm rows m Q -> (forall a, Q a -> R a) -> calm rows m R.
Proof. intros Hm HR s Hs. specialize (Hm s Hs). destruct (m s) as [[a|e] s1]; destruct Hm; split; auto. Qed.
Lemma calm_try {A} rows (m : M A) Q : calm rows m Q -> calm rows (io_try m) (fun r => match r with Ok a => Q a | Err _ => True end).
Proof. intros Hm s Hs. unfold io_try. specialize (Hm s Hs). by destruct (m s) as [[a|e] s1]. Qed.
Lemma calm_lift {A} rows (m : io W err A) (Q : A -> Prop) : (forall w a w', m w = (Ok a, w') -> Q a) -> calm rows (lift_b m) Q.
Proof. intros HQ s _. unfold lift_b. destruct (m (bs_world s)) as [[a|e] w] eqn:E; split; try done. by eapply HQ. Qed.
Lemma calm_any {A} rows (m : io W err A) : calm rows (lift_b m) (fun _ => True).
Proof. by apply calm_lift. Qed.
Lemma calm_wrap {A} rows (m : M A) Q : calm rows m Q -> calm rows (wrap_b m) Q.
Proof. intros Hm. eapply calm_bind; [by apply calm_try|]. intros [a|e] Ha; [by apply calm_ret|apply calm_err]. Qed.
Lemma calm_of {A} rows (r : res A) : calm rows (io_of r) (fun a => r = Ok a).
Proof. intros s _. cbn. split; [done|by destruct r]. Qed.

Lemma calm_statement rows : calm rows statement (fun _ => True).
Proof. apply calm_any. Qed.
Lemma calm_overrides rows : calm rows BlockOverrides (fun os => os = overrides_of rows).
Proof.
  eapply calm_bind; [apply calm_statement|]. intros _ _. eapply calm_bind; [|intros m Hm; apply calm_ret, Hm].
  intros s Hs. cbn. by rewrite Hs.
Qed.
Lemma calm_number rows aci number : calm rows (knownNumber aci number) (fun n => number <> ""%string -> n = number).
Proof.
  unfold knownNumber. destruct (number != "") eqn:E; [by apply calm_ret|].
  bool_hyps. subst.
  destruct (negb has_loader); [by apply calm_ret|]. eapply calm_bind; [apply calm_try, calm_any|]. intros; by apply calm_ret.
Qed.

(** *** The list as the guards and the overrides change it *)

(** The last opinion of a list of them, or [b]. *)
Definition decided {A} (says : A -> option bool) (l : list A) (b : bool) : bool := foldl (fun b x => default b (says x)) b l.

Definition guard_says (aci : uuid) (g : PrivacyGuard) : option bool :=
  match pg_Kind g with
  | PrivacyEntityACI => if pg_Protected g && pg_FieldBlocked g && (pg_ID g == aci) then Some (pg_ValueTrue g) else None
  | _ => None
  end.
Definition override_says (seen : storageSnapshot) (now : Z) (aci : uuid) (o : BlockOverride) : option bool :=
  if expired_override o now || supersedes (Some seen) o then None
  else if bool_decide (uuid_parse (bo_ACI o) = Some aci) then Some (bo_Blocked o) else None.

(** What the store of guards answered. *)
Definition guards_read (guards : list PrivacyGuard) : Prop :=
  match PrivacyGuards with None => guards = [] | Some read => exists w w', read w = (Ok guards, w') end.

(** [l'] has the groups of [l] and the users that [says]. *)
Definition now_lists (l l' : blockedList) (says : uuid -> bool) : Prop :=
  bl_groups l' = bl_groups l /\ forall aci, isBlocked l' aci = says aci.

Lemma decided_cons {A} (says : A -> option bool) x l b : decided says (x :: l) b = decided says l (default b (says x)).
Proof. done. Qed.
Lemma decided_ext {A} (says : A -> option bool) l b b' : b = b' -> decided says l b = decided says l b'.
Proof. by intros ->. Qed.

Lemma calm_PNI rows l pni blocked : calm rows (setPNI l pni blocked) (fun l' => now_lists l l' (isBlocked l)).
Proof.
  unfold setPNI. eapply (calm_bind _ _ _ (fun _ => True)).
  - destruct has_loader; [|by apply calm_ret]. eapply calm_bind; [apply calm_wrap, calm_any|]. intros; by apply calm_ret.
  - intros number _. destruct (number == ""); [destruct blocked; [apply calm_err|by apply calm_ret]|]. by apply calm_ret.
Qed.
Lemma calm_protect rows l g now : pg_Protected g = true -> pg_FieldBlocked g = true ->
  calm rows (protect l g now) (fun l' => now_lists l l' (fun aci => default (isBlocked l aci) (guard_says aci g))).
Proof.
  intros Hp Hf. unfold protect, guard_says. rewrite Hp, Hf. destruct (pg_Kind g); cbn [andb].
  - destruct (Bool.eqb _ _) eqn:E; cbn [negb].
    + apply calm_ret. split; [done|]. intros aci. case_bool_decide; [|done]. subst. cbn. by apply Bool.eqb_prop in E.
    + eapply calm_bind; [apply calm_number|]. intros n _. apply calm_ret. split; [apply groups_set|]. intros aci. rewrite isBlocked_set.
      repeat case_bool_decide; cbn; congruence.
  - apply calm_PNI.
  - by apply calm_ret.
Qed.
Lemma calm_protect_all rows guards now : forall l,
  calm rows (protect_all l guards now) (fun l' => now_lists l l' (fun aci => decided (guard_says aci) guards (isBlocked l aci))).
Proof.
  induction guards as [|g guards IH]; intros l; cbn [protect_all]; [by apply calm_ret|].
  destruct (negb (pg_Protected g) || negb (pg_FieldBlocked g)) eqn:E.
  - eapply calm_weaken; [apply IH|]. intros l' [Hg Hl]. split; [done|]. intros aci. rewrite Hl, decided_cons. f_equal.
    unfold guard_says. destruct (pg_Kind g); try done. by destruct (pg_Protected g), (pg_FieldBlocked g).
  - bool_hyps. eapply calm_bind; [by apply calm_protect|]. intros l1 [Hg Hl]. eapply calm_weaken; [apply IH|].
    intros l' [Hg' Hl']. split; [congruence|]. intros aci. by rewrite Hl', decided_cons, Hl.
Qed.
Lemma calm_guards rows l now : calm rows (protectBlocked l now) (fun l' => exists guards, guards_read guards
  /\ now_lists l l' (fun aci => decided (guard_says aci) guards (isBlocked l aci))).
Proof.
  unfold protectBlocked, guards_read. destruct PrivacyGuards as [read|].
  - eapply calm_bind; [apply calm_wrap, (calm_lift _ _ (fun g => exists w w', read w = (Ok g, w'))); intros w g w' Hr; by exists w, w'|].
    intros guards Hg. eapply calm_weaken; [apply calm_protect_all|]. intros l' Hl. by exists guards.
  - apply calm_ret. by exists [].
Qed.

Lemma calm_apply rows seen overrides now : forall l, calm rows (apply_overrides seen l overrides now)
  (fun l' => now_lists l l' (fun aci => decided (override_says seen now aci) overrides (isBlocked l aci))).
Proof.
  induction overrides as [|o overrides IH]; intros l; cbn [apply_overrides]; [by apply calm_ret|].
  assert (Hskip : (forall aci, default (isBlocked l aci) (override_says seen now aci o) = isBlocked l aci) ->
    calm rows (apply_overrides seen l overrides now)
      (fun l' => now_lists l l' (fun aci => decided (override_says seen now aci) (o :: overrides) (isBlocked l aci)))).
  { intros Ho. eapply calm_weaken; [apply IH|]. intros l' [Hg Hl]. split; [done|]. intros aci. by rewrite Hl, decided_cons, Ho. }
  unfold override_says in Hskip at 1.
  destruct (_ || _) eqn:E; [by apply Hskip|]. destruct (uuid_parse (bo_ACI o)) as [a|] eqn:Ea; [|apply Hskip; intros aci; by case_bool_decide].
  destruct (Bool.eqb _ _) eqn:Eb.
  - apply Hskip. intros aci. apply Bool.eqb_prop in Eb. case_bool_decide; [|done]. by simplify_eq/=.
  - eapply calm_bind; [apply calm_number|]. intros n _. eapply calm_weaken; [apply IH|]. intros l' [Hg Hl].
    split; [by rewrite Hg, groups_set|]. intros aci. rewrite Hl, decided_cons, isBlocked_set.
    assert (override_says seen now aci o = if bool_decide (Some a = Some aci) then Some (bo_Blocked o) else None) as ->
      by (unfold override_says; by rewrite E, Ea).
    apply decided_ext. repeat case_bool_decide; cbn; congruence.
Qed.
Lemma calm_pending rows seen now : calm rows (pendingBlockedList seen now) (fun l => exists guards, guards_read guards
  /\ now_lists (ss_list seen) l (fun aci => decided (override_says seen now aci) (overrides_of rows)
       (decided (guard_says aci) guards (isBlocked (ss_list seen) aci)))).
Proof.
  eapply calm_bind; [apply calm_guards|]. intros l (guards & Hg & Hgr & Hl). eapply calm_bind; [apply calm_overrides|]. intros os ->.
  eapply calm_weaken; [apply calm_apply|]. intros l' [Hgr' Hl']. exists guards. split; [done|]. split; [congruence|].
  intros aci. by rewrite Hl', Hl.
Qed.
Lemma calm_targets rows blocked now targets : forall l, calm rows (set_targets l blocked now targets)
  (fun l' => now_lists l l' (fun aci => if bool_decide (aci ∈ bt_aci <$> targets) then blocked else isBlocked l aci)).
Proof.
  induction targets as [|t targets IH]; intros l; cbn [set_targets]; [by apply calm_ret|].
  eapply calm_bind; [apply calm_number|]. intros n _. eapply calm_weaken; [apply IH|]. intros l' [Hg Hl].
  split; [by rewrite Hg, groups_set|]. intros aci. rewrite Hl, isBlocked_set. cbn [fmap list_fmap].
  repeat case_bool_decide; set_solver.
Qed.
End calm.

(** ** Settling and blocking *)

Section safety.
Context {U : UuidLib} {UL : UuidLaws U} {P : SignalPb} {PL : SignalPbLaws P} {W : Type} {S : ContactStore W}.
Notation M := (io (bstate W) err).

(** *** What settling does to the rows and the stored flags *)

(** When a row is dropped. *)
Definition may_drop (seen : option storageSnapshot) (now : Z) (o : BlockOverride) : Prop :=
  expired_override o now = true \/ (supersedes seen o = true /\ knows seen (bo_ACI o) = true).
(** The flag that is stored for an override. *)
Definition settled_flag (seen : option storageSnapshot) (now : Z) (o : BlockOverride) (flag : uuid * bool) : Prop :=
  uuid_parse (bo_ACI o) = Some flag.1
  /\ (if expired_override o now || supersedes seen o then snapshot_state seen flag.1 = Some flag.2 else flag.2 = bo_Blocked o).

(** From [s] to [s'], settling the overrides [os] sent nothing, changed no row, dropped only rows it may drop, and stored only the
    flags of these overrides. *)
Definition settles (seen : option storageSnapshot) (now : Z) (os : list BlockOverride) (s s' : bstate W) : Prop :=
  bs_sent s' = bs_sent s
  /\ (forall aci row, bs_overrides s' !! aci = Some row -> bs_overrides s !! aci = Some row)
  /\ (forall aci row, bs_overrides s !! aci = Some row -> bs_overrides s' !! aci = None -> exists o, o ∈ os /\ bo_ACI o = aci /\ may_drop seen now o)
  /\ exists flags, bs_stored s' = bs_stored s ++ flags /\ forall flag, flag ∈ flags -> exists o, o ∈ os /\ settled_flag seen now o flag.

Lemma settles_kept seen now os s s' : kept s s' -> settles seen now os s s'.
Proof.
  intros (Ho & Hs & Hf). split_and!; [done|by rewrite Ho|rewrite Ho; congruence|]. exists []. rewrite app_nil_r. split; [done|].
  intros flag H. by apply not_elem_of_nil in H.
Qed.
Lemma settles_trans seen now os s1 s2 s3 : settles seen now os s1 s2 -> settles seen now os s2 s3 -> settles seen now os s1 s3.
Proof.
  intros (Hs & Hk & Hd & f1 & Hf & Hq) (Hs' & Hk' & Hd' & f2 & Hf' & Hq'). split_and!; [congruence|by eauto| |].
  - intros aci row H1 H3. destruct (bs_overrides s2 !! aci) as [row2|] eqn:E; [by eapply Hd'|by eapply Hd].
  - exists (f1 ++ f2). split; [by rewrite Hf', Hf, app_assoc|]. intros flag [H|H]%elem_of_app; by auto.
Qed.
Lemma settles_mono seen now os os' s s' : (forall o, o ∈ os -> o ∈ os') -> settles seen now os s s' -> settles seen now os' s s'.
Proof.
  intros Hin (Hs & Hk & Hd & f & Hf & Hq). split_and!; [done|done| |].
  - intros aci row H1 H2. destruct (Hd aci row H1 H2) as (o & ? & ? & ?). exists o. by auto.
  - exists f. split; [done|]. intros flag H. destruct (Hq flag H) as (o & ? & ?). exists o. by auto.
Qed.

(** [m] ends well and settles only. *)
Definition settling (seen : option storageSnapshot) (now : Z) (os : list BlockOverride) (m : M unit) : Prop :=
  forall s, exists s', m s = (Ok tt, s') /\ settles seen now os s s'.

Lemma settling_ret seen now os : settling seen now os (io_ret tt).
Proof. intros s. exists s. split; [done|by apply settles_kept]. Qed.
Lemma settling_seq seen now os (m k : M unit) : settling seen now os m -> settling seen now os k -> settling seen now os (let* _ := m in k).
Proof.
  intros Hm Hk s. destruct (Hm s) as (s1 & E1 & H1). destruct (Hk s1) as (s2 & E2 & H2). exists s2. unfold io_bind. rewrite E1.
  split; [done|by eapply settles_trans].
Qed.
Lemma settling_drop seen now o : may_drop seen now o -> settling seen now [o] (dropOverride o).
Proof.
  intros Hd s. unfold dropOverride, DeleteBlockOverride, io_bind, io_try, statement, lift_b, write_overrides, io_ret. destruct (sql_fails _) as [[e|] w].
  - eexists. split; [done|]. by apply settles_kept.
  - eexists. split; [done|]. split_and!; cbn.
    + done.
    + intros aci row [_ H]%lookup_delete_Some. done.
    + intros aci row H1 H2. exists o. split; [set_solver|]. split; [|done]. destruct (decide (bo_ACI o = aci)); [done|].
      rewrite lookup_delete_ne in H2 by done. congruence.
    + exists []. rewrite app_nil_r. split; [done|]. intros flag H. by apply not_elem_of_nil in H.
Qed.
Lemma settling_store seen now o state : (forall aci b, uuid_parse (bo_ACI o) = Some aci -> state aci = Some b -> settled_flag seen now o (aci, b)) ->
  settling seen now [o] (storeBlockedState (bo_ACI o) state).
Proof.
  intros Hs s. unfold storeBlockedState. destruct (uuid_parse (bo_ACI o)) as [aci|] eqn:Ea; [|apply settling_ret].
  destruct (state aci) as [b|] eqn:Eb; [|apply settling_ret].
  unfold meow_setBlocked, wrap_b, lift_b, io_bind, io_try, store_log, io_ret, io_err. cbn.
  destruct (LoadAndUpdateRecipient _ _ _ _) as [r w]. destruct r as [u|e]; (eexists; split; [done|]; split_and!; cbn; [done|done|congruence|];
    exists [(aci, b)]; split; [done|]; intros flag ->%list_elem_of_singleton; exists o; split; [set_solver|by apply Hs]).
Qed.
Lemma settling_settle seen now o : settling seen now [o] (settle seen now o).
Proof.
  unfold settle. destruct (expired_override o now) eqn:Ee; [|destruct (supersedes seen o) eqn:Es; cbn [andb]; [destruct (knows seen (bo_ACI o)) eqn:Ek|]].
  - apply settling_seq; [|apply settling_drop; by left]. apply settling_store. intros aci b Ha Hb. split; [done|]. by rewrite Ee.
  - apply settling_seq; [apply settling_drop; by right|]. apply settling_store. intros aci b Ha Hb. split; [done|]. by rewrite Ee, Es.
  - apply settling_ret.
  - apply settling_store. intros aci b Ha [= <-]. split; [done|]. by rewrite Ee, Es.
Qed.
Lemma settling_all seen now os : settling seen now os (settle_all seen now os).
Proof.
  induction os as [|o os IH]; cbn [settle_all]; [apply settling_ret|].
  apply settling_seq; intros s; [destruct (settling_settle seen now o s) as (s' & E & H)|destruct (IH s) as (s' & E & H)];
    exists s'; (split; [done|]); (eapply settles_mono; [|exact H]); set_solver.
Qed.
Lemma settling_locked seen now s : exists s', settleOverridesLocked seen now s = (Ok tt, s') /\ settles seen now (overrides_of (bs_overrides s)) s s'.
Proof.
  unfold settleOverridesLocked. pose proof (calm_overrides (bs_overrides s) s eq_refl) as Hc.
  unfold io_bind, io_try. destruct (BlockOverrides s) as [[os|e] s1]; destruct Hc as [Hk Hc].
  - subst os. destruct (settling_all seen now (overrides_of (bs_overrides s)) s1) as (s' & E & H). exists s'. split; [done|].
    eapply settles_trans; [by apply settles_kept|done].
  - exists s1. split; [done|by apply settles_kept].
Qed.

(** *** Recording the targets *)

(** What is remembered of a user after blocking: nothing if storage agrees. *)
Definition recorded (seen : storageSnapshot) (blocked : bool) (now : time) (aci : uuid) : option override_row :=
  if Bool.eqb (isBlocked (ss_list seen) aci) blocked then None
  else Some (override_row_of (mkOverride (uuid_string aci) blocked now (ss_version seen))).

Lemma store_target_sent seen blocked now t s : bs_sent (store_target seen blocked now t s).2 = bs_sent s.
Proof.
  unfold store_target, SetBlockOverride, DeleteBlockOverride, statement, wrap_b, lift_b, write_overrides, store_log, io_bind, io_try, io_ret, io_err.
  destruct (Bool.eqb _ _); (destruct (sql_fails _) as [[e|] w]; [done|]); cbn;
    destruct (SetRecipientBlocked _ _ _) as [[u|e] w']; done.
Qed.
Lemma store_target_Ok seen blocked now t s s' : store_target seen blocked now t s = (Ok tt, s') -> forall aci,
  bs_overrides s' !! uuid_string aci = if bool_decide (aci = bt_aci t) then recorded seen blocked now aci else bs_overrides s !! uuid_string aci.
Proof.
  unfold store_target, SetBlockOverride, DeleteBlockOverride, statement, wrap_b, lift_b, write_overrides, store_log, io_bind, io_try, io_ret, io_err.
  intros H aci. unfold recorded. destruct (decide (aci = bt_aci t)) as [->|Hne].
  - rewrite bool_decide_eq_true_2 by done.
    destruct (Bool.eqb _ _); (destruct (sql_fails _) as [[e|] w]; [done|]); cbn in H;
      destruct (SetRecipientBlocked _ _ _) as [[u|e] w']; simplify_eq/=; [by rewrite lookup_delete_eq|by rewrite lookup_insert_eq].
  - rewrite bool_decide_eq_false_2 by done. assert (uuid_string (bt_aci t) <> uuid_string aci) by (intros E%(inj uuid_string); congruence).
    destruct (Bool.eqb _ _); (destruct (sql_fails _) as [[e|] w]; [done|]); cbn in H;
      destruct (SetRecipientBlocked _ _ _) as [[u|e] w']; simplify_eq/=; [by rewrite lookup_delete_ne|by rewrite lookup_insert_ne].
Qed.
Lemma store_targets_sent seen blocked now targets : forall s, bs_sent (store_targets seen blocked now targets s).2 = bs_sent s.
Proof.
  induction targets as [|t targets IH]; intros s; cbn [store_targets]; [done|]. unfold io_bind.
  pose proof (store_target_sent seen blocked now t s) as Ht. destruct (store_target _ _ _ _ _) as [[[]|e] s1]; cbn in Ht; [by rewrite IH|done].
Qed.
Lemma store_targets_Ok seen blocked now targets : forall s s', store_targets seen blocked now targets s = (Ok tt, s') -> forall aci,
  bs_overrides s' !! uuid_string aci
    = if bool_decide (aci ∈ bt_aci <$> targets) then recorded seen blocked now aci else bs_overrides s !! uuid_string aci.
Proof.
  induction targets as [|t targets IH]; intros s s'; cbn [store_targets].
  - intros [= <-] aci. by rewrite bool_decide_eq_false_2 by (cbn; set_solver).
  - intros ([] & s1 & Ht & H)%io_bind_Ok aci. rewrite (IH _ _ H), (store_target_Ok _ _ _ _ _ _ Ht). cbn [fmap list_fmap].
    repeat case_bool_decide; set_solver.
Qed.

(** A fresh override survives settling against the snapshot it was made with. *)
Lemma fresh_override_stays seen blocked now aci : 0 <= ss_version seen <= MaxInt64 ->
  ~ may_drop (Some seen) now (scanBlockOverride aci (override_row_of (mkOverride aci blocked now (ss_version seen)))).
Proof.
  intros Hv [He|[Hs _]].
  - unfold expired_override, scanBlockOverride, override_row_of, UnixMilli, of_UnixMilli, BlockOverrideTTL in He. cbn in He.
    apply Z.ltb_lt in He. pose proof (Z.mod_pos_bound now 1000000 ltac:(lia)). pose proof (Z.div_mod now 1000000 ltac:(lia)). unfold Second in *. lia.
  - unfold supersedes, scanBlockOverride, override_row_of, to_int64 in Hs. cbn in Hs. apply Z.ltb_lt in Hs.
    destruct (_ <=? _) eqn:E; [lia|]. apply Z.leb_gt in E. lia.
Qed.
Lemma overrides_of_row rows o : o ∈ overrides_of rows -> exists row, rows !! bo_ACI o = Some row /\ o = scanBlockOverride (bo_ACI o) row.
Proof.
  intros (aci & -> & [row Hr]%elem_of_sorted_keys)%list_elem_of_fmap. exists row. cbn. by rewrite Hr.
Qed.
Lemma storeBlocked_sent seen targets blocked now s : bs_sent (storeBlocked seen targets blocked now s).2 = bs_sent s.
Proof.
  unfold storeBlocked, io_bind. pose proof (store_targets_sent seen blocked now targets s) as Ht.
  destruct (store_targets _ _ _ _ _) as [[[]|e] s1]; [|done]. destruct (settling_locked (Some seen) now s1) as (s' & -> & Hs & _). cbn in *. congruence.
Qed.
Lemma storeBlocked_Ok seen targets blocked now s s' : 0 <= ss_version seen <= MaxInt64 -> storeBlocked seen targets blocked now s = (Ok tt, s') ->
  forall t, t ∈ targets -> bs_overrides s' !! uuid_string (bt_aci t) = recorded seen blocked now (bt_aci t).
Proof.
  intros Hv ([] & s1 & Ht & H)%io_bind_Ok t Hin. pose proof (store_targets_Ok _ _ _ _ _ _ Ht (bt_aci t)) as Hr.
  rewrite bool_decide_eq_true_2 in Hr by (by apply list_elem_of_fmap_2). rewrite <- Hr.
  destruct (settling_locked (Some seen) now s1) as (s2 & E & _ & Hk & Hd & _). rewrite E in H. injection H as <-.
  destruct (bs_overrides s2 !! uuid_string (bt_aci t)) as [row|] eqn:E2; [by rewrite (Hk _ _ E2)|].
  destruct (bs_overrides s1 !! uuid_string (bt_aci t)) as [row|] eqn:E1; [|done]. exfalso.
  destruct (Hd _ _ E1 E2) as (o & (row' & Hrow & Ho)%overrides_of_row & Ha & Hdrop). rewrite Ha in Hrow, Ho. rewrite Hrow in E1. injection E1 as ->.
  symmetry in Hr. unfold recorded in Hr. destruct (Bool.eqb _ _); [done|]. injection Hr as <-.
  rewrite Ho in Hdrop. by eapply fresh_override_stays.
Qed.


(** Whether a list made from [seen] has a user: the targets' new state, else the latest override that counts, else the privacy
    guards, else storage. *)
Definition listed (seen : storageSnapshot) (guards : list PrivacyGuard) (rows : gmap string override_row) (now : Z) (targets : list blockTarget)
    (blocked : bool) (aci : uuid) : bool :=
  if bool_decide (aci ∈ bt_aci <$> targets) then blocked
  else decided (override_says seen now aci) (overrides_of rows) (decided (guard_says aci) guards (isBlocked (ss_list seen) aci)).

Definition unchanged (s s' : bstate W) : Prop := bs_overrides s' = bs_overrides s /\ bs_stored s' = bs_stored s.

Lemma calm_list rows seen targets blocked now :
  calm rows (let* l := pendingBlockedList seen now in set_targets l blocked now targets)
    (fun l => exists guards, guards_read guards /\ now_lists (ss_list seen) l (listed seen guards rows now targets blocked)).
Proof.
  eapply calm_bind; [apply calm_pending|]. intros l (guards & Hg & Hgr & Hl). eapply calm_weaken; [apply calm_targets|].
  intros l' [Hgr' Hl']. exists guards. split; [done|]. split; [congruence|]. intros aci. rewrite Hl'. unfold listed. by rewrite Hl.
Qed.

Lemma sendSync_wrapped msg s : let (r, s') := wrap_b (sendSyncMessage msg) s in
  unchanged s s' /\ bs_sent s' = bs_sent s ++ [msg] /\ (r = Ok tt -> exists e, (SendSync msg (bs_world s)).1 = (true, e)).
Proof.
  unfold wrap_b, sendSyncMessage, io_bind, io_try. destruct (SendSync msg (bs_world s)) as [[[] e] w] eqn:E; cbn; split_and!; try done.
  by eexists.
Qed.

(** What [applyBlocked] may have done when a list was handed over. *)
Definition list_sent (update : option block_update) (targets : list blockTarget) (blocked : bool) (s : bstate W) (r : res unit) (s' : bstate W) : Prop :=
  exists seen guards now l, completeStorage update = Ok seen /\ guards_read guards
    /\ bs_sent s' = bs_sent s ++ [syncMessage l] /\ message_lists (syncMessage l) l
    /\ now_lists (ss_list seen) l (listed seen guards (bs_overrides s) now targets blocked)
    /\ ((unchanged s s' /\ exists e, r = Err e)
        \/ ((exists w w' e, SendSync (syncMessage l) w = ((true, e), w'))
            /\ (r = Ok tt -> 0 <= ss_version seen <= MaxInt64 -> forall t, t ∈ targets ->
                  bs_overrides s' !! uuid_string (bt_aci t) = recorded seen blocked now (bt_aci t)))).

Lemma send_and_store seen guards now l update targets blocked s s1 : completeStorage update = Ok seen -> guards_read guards ->
  now_lists (ss_list seen) l (listed seen guards (bs_overrides s) now targets blocked) -> kept s s1 ->
  let (r, s') := (let* _ := wrap_b (sendSyncMessage (syncMessage l)) in storeBlocked seen targets blocked now) s1 in
  list_sent update targets blocked s r s'.
Proof.
  intros Hu Hg Hl (Ho & Hs & Hf). unfold io_bind at 1. pose proof (sendSync_wrapped (syncMessage l) s1) as Hm.
  destruct (wrap_b _ s1) as [[[]|e] s2]; destruct Hm as ([Ho2 Hf2] & Hs2 & Hok).
  - pose proof (storeBlocked_sent seen targets blocked now s2) as Hs3. pose proof (storeBlocked_Ok seen targets blocked now s2) as Hst.
    destruct (storeBlocked _ _ _ _ s2) as [r s'] eqn:E. cbn in Hs3. exists seen, guards, now, l. do 4 (split; [first [done | congruence | apply syncMessage_lists]|]). split; [done|].
    right. split.
    + destruct (Hok eq_refl) as [e He]. destruct (SendSync (syncMessage l) (bs_world s1)) as [[b e'] w'] eqn:Es. cbn in He. simplify_eq. by eauto.
    + intros -> Hv. by apply Hst.
  - exists seen, guards, now, l. do 4 (split; [first [done | congruence | apply syncMessage_lists]|]). split; [done|]. left. split; [|by eexists].
    split; congruence.
Qed.

(** C20. Blocking or unblocking users sends at most one list. Nothing is sent, remembered or stored unless storage was read completely, and
    an incomplete one fails with its problem. The list sent has, for each user, the state just asked for, else that of the
    latest override that storage has not superseded, else that of the privacy guards, else that of storage; its groups are storage's; and the
    message lists exactly these users and groups. A user is remembered only if the message was sent, and then exactly when storage still
    says the opposite. *)
Theorem applyBlocked_spec (update : option block_update) (targets : list blockTarget) (blocked : bool) (s : bstate W) :
  let (r, s') := applyBlocked update targets blocked s in
  (unchanged s s' /\ bs_sent s' = bs_sent s /\ match r with Ok _ => False | Err e => match completeStorage update with Err e' => e = e' | Ok _ => True end end)
  \/ list_sent update targets blocked s r s'.
Proof.
  unfold applyBlocked, io_of. unfold io_bind at 1. destruct (completeStorage update) as [seen|e] eqn:Hu; [|by left].
  unfold b_now, lift_b. unfold io_bind at 1. destruct (cs_now (bs_world s)) as [now w].
  set (s0 := mkBState (bs_overrides s) (bs_sent s) (bs_stored s) w).
  pose proof (calm_list (bs_overrides s) seen targets blocked now s0 eq_refl) as Hc. unfold io_bind at 1. unfold io_bind at 1 in Hc.
  destruct (pendingBlockedList seen now s0) as [[l0|e] s1].
  2: { left. destruct Hc as [(? & ? & ?) _]. done. }
  unfold io_bind at 1. destruct (set_targets l0 blocked now targets s1) as [[l|e] s2].
  2: { left. destruct Hc as [(? & ? & ?) _]. done. }
  destruct Hc as [Hk (guards & Hg & Hl)]. pose proof (send_and_store seen guards now l update targets blocked s s2 Hu Hg Hl Hk) as Hd.
  destruct (io_bind (wrap_b (sendSyncMessage (syncMessage l))) (fun _ => storeBlocked seen targets blocked now) s2) as [r s']. by right.
Qed.
End safety.

(** ** At a concrete input *)

Import DemoUuid.
#[local] Existing Instance demo_pb.
#[local] Existing Instance demo_pb_laws.

Definition demo_bob : string := "11111111-2222-3333-4444-555555555555".

(** A world that is the answer of the storage service and the clock. *)
Definition demo_contacts : ContactStore (option block_update * Z) := {|
  cs_own_ACI := fun _ => uuid_nil; has_loader := true;
  LoadAllContacts := io_ret []; LoadRecipientByACI := fun _ => io_ret None; LoadRecipientByPNI := fun _ => io_ret None;
  LoadRecipientByE164 := fun _ => io_ret None; LoadAndUpdateRecipient := fun _ _ _ => io_ret tt; PrivacyGuards := None;
  SetRecipientBlocked := fun _ _ => io_ret tt; recipients_table := fun _ => []; sql_fails := fun w => (None, w);
  storedStorageKey := io_ret (Some "key"%string); FetchStorage := fun _ _ w => (Ok w.1, w); SendSync := fun _ w => ((true, None), w);
  GroupMasterKeyLength := 32; GroupIdentifier := fun k => Ok k; cs_now := fun w => (w.2, w); cs_begin := fun _ => true;
  cs_connected := fun _ => true; cs_client := fun _ => true; cs_lost := fun _ => None; cs_device := io_ret tt |}.
#[local] Existing Instance demo_contacts.

Definition demo_blocked_contact (aci : string) : block_record := RecContact (mkBlockContact aci "" "+4915112345" true 7).
Definition demo_storage (version : Z) (records : list block_record) : option block_update * Z := (Some (mkBlockUpdate version records []), 9000000000).
Definition demo_bstate : bstate (option block_update * Z) := mkBState ∅ [] [] (demo_storage 5 [demo_blocked_contact demo_aci]).

Definition demo_block : res unit * bstate (option block_update * Z) := meow_SetBlocked [ofACI demo_bob] true demo_bstate.

(** Blocking Bob sends the whole list, with the user whom the phone blocked, and remembers Bob. *)
Example SetBlocked_sends_the_whole_list :
  demo_block.1 = Ok tt /\ (sb_Acis <$> bs_sent demo_block.2) = [[demo_aci; demo_bob]]
  /\ (bo_ACI <$> overrides_of (bs_overrides demo_block.2)) = [demo_bob].
Proof. by vm_compute. Qed.

(** Storage of the same version leaves the override; a later version without Bob drops it and unblocks him. *)
Example storage_wins_when_it_is_later :
  let at_version v := (storageFetched (demo_storage v [demo_blocked_contact demo_aci]).1 demo_block.2).2 in
  (bo_ACI <$> overrides_of (bs_overrides (at_version 5))) = [demo_bob]
  /\ bs_overrides (at_version 6) = ∅
  /\ (snd <$> bs_stored (at_version 6)) = (snd <$> bs_stored demo_block.2) ++ [false].
Proof. by vm_compute. Qed.

(** Without a complete storage nothing is sent. *)
Example incomplete_storage_sends_nothing :
  let out := meow_SetBlocked [ofACI demo_bob] true (mkBState ∅ [] [] (Some (mkBlockUpdate 5 [] ["id"%string]), 0)) in
  out.1 = Err (errorf ErrBlockedListIncomplete) /\ bs_sent out.2 = [] /\ bs_overrides out.2 = ∅.
Proof. by vm_compute. Qed.

Definition demo_targets : list blockTarget := [mkBlockTarget (default uuid_nil (uuid_parse demo_bob)) ""].
Definition demo_applied : res unit * bstate (option block_update * Z) :=
  applyBlocked (demo_storage 5 [demo_blocked_contact demo_aci]).1 demo_targets true demo_bstate.

Lemma applyBlocked_spec_witness : demo_applied.1 = Ok tt
  /\ list_sent (demo_storage 5 [demo_blocked_contact demo_aci]).1 demo_targets true demo_bstate demo_applied.1 demo_applied.2.
Proof.
  assert (Hok : (match demo_applied.1 with Ok tt => true | Err _ => false end) = true) by (vm_compute; reflexivity).
  pose proof (applyBlocked_spec (demo_storage 5 [demo_blocked_contact demo_aci]).1 demo_targets true demo_bstate) as H.
  fold demo_applied in H. destruct demo_applied as [r s']. cbn [fst snd] in *. destruct r as [[]|e]; [|discriminate].
  split; [reflexivity|]. destruct H as [(_ & _ & [])|H]. exact H.
Defined.

