(* ===== verification/Profile.v ===== *)
(** * The own profile (internal/signal/profile*.go, meow_profile.go, internal/app/profile.go)

    The profile on the server is encrypted: names and texts are padded with NUL to one of a few sizes and
    sealed with AES-GCM under the profile key. An update reads the profile, writes it once with the new
    texts and everything else as it was, and reads it again. libsignal's functions of the key, the
    cipher and encoding/json are the class [ProfileLib]; the connection is the class [ProfileEnv]. *)

From S2P Require Import Prelude Errors Uuid Utf8 Types SendCheck Recipients SendFlow.

Definition nul : Ascii.ascii := ascii_of 0.
#[global] Arguments nul : simpl never.
Definition has_nul (s : string) : bool := negb (string_forallb (fun a => negb (a == nul)) s).

(** ** Profiles and updates (profile.go) *)

Definition profileNameLimit : Z := 257.
Definition profileAboutLimit : Z := 512.
Definition profileEmojiLimit : Z := 32.

Record Profile := mkProfile {
  pf_ACI : string; GivenName : string; FamilyName : string; About : string; AboutEmoji : string; AvatarPath : string }.
Definition zeroProfile : Profile := mkProfile "" "" "" "" "" "".
#[export] Instance Profile_eq_dec : EqDecision Profile.
Proof. solve_decision. Defined.

Record ProfileUpdate := mkProfileUpdate {
  pu_GivenName : option string; pu_FamilyName : option string; pu_About : option string; pu_AboutEmoji : option string }.

Record ProfileUpdateResult := mkProfileResult { pr_Profile : Profile; pr_Changed : bool; pr_Accepted : bool; pr_Verified : bool }.
Definition zeroProfileResult : ProfileUpdateResult := mkProfileResult zeroProfile false false false.

Definition checkProfileText (text : string) (limit : Z) : error :=
  if negb (ValidString text) then Some (errorf ErrInvalidProfileUpdate)
  else if has_nul text then Some (errorf ErrInvalidProfileUpdate)
  else if limit <? slen text then Some (errorf ErrInvalidProfileUpdate)
  else None.
Definition checkProfileName (given family : string) : error :=
  let size := slen given + (if family != "" then 1 + slen family else 0) in
  if profileNameLimit <? size then Some (errorf ErrInvalidProfileUpdate) else None.

Definition check_supplied (field : option string) (limit : Z) : error :=
  match field with None => None | Some text => checkProfileText text limit end.
Definition ProfileUpdate_Check (u : ProfileUpdate) : error :=
  match pu_GivenName u, pu_FamilyName u, pu_About u, pu_AboutEmoji u with
  | None, None, None, None => Some (errorf ErrInvalidProfileUpdate)
  | _, _, _, _ =>
      check_supplied (pu_GivenName u) profileNameLimit ;!
      check_supplied (pu_FamilyName u) (profileNameLimit - 1) ;!
      check_supplied (pu_About u) profileAboutLimit ;!
      check_supplied (pu_AboutEmoji u) profileEmojiLimit ;!
      match pu_GivenName u, pu_FamilyName u with
      | Some given, Some family => checkProfileName given family
      | _, _ => None
      end
  end.

(** [Apply]: the merged profile, and whether it differs. *)
Definition ProfileUpdate_Apply (u : ProfileUpdate) (profile : Profile) : res (Profile * bool) :=
  match ProfileUpdate_Check u with
  | Some e => Err e
  | None =>
      let merged := mkProfile (pf_ACI profile) (default (GivenName profile) (pu_GivenName u)) (default (FamilyName profile) (pu_FamilyName u))
                      (default (About profile) (pu_About u)) (default (AboutEmoji profile) (pu_AboutEmoji u)) (AvatarPath profile) in
      match checkProfileName (GivenName merged) (FamilyName merged) with
      | Some e => Err e
      | None => Ok (merged, merged != profile)
      end
  end.

(** ** The encrypted profile (profile_wire.go, profile_crypto.go) *)

(** A [[]byte] is nil ([None]) or a string of bytes. *)
Notation bytes := (option string).
Definition blen (b : bytes) : Z := match b with Some s => slen s | None => 0 end.

Record rawOwnProfile := mkRaw {
  raw_ACI : string; raw_Name : bytes; raw_About : bytes; raw_AboutEmoji : bytes; raw_PaymentAddress : bytes;
  raw_PhoneNumberSharing : bytes; raw_Credential : bytes; raw_Avatar : string; raw_Badges : bytes;
  raw_Capabilities : option (list (string * bool)) }.

Record profileWriteRequest := mkProfileWrite {
  pw_Commitment : bytes; pw_Version : string; pw_Name : bytes; pw_About : bytes; pw_AboutEmoji : bytes;
  pw_PaymentAddress : bytes; pw_PhoneNumberSharing : bytes; pw_Avatar : bool; pw_SameAvatar : bool }.

(** The texts that an update encrypts, each with a nonce of its own. *)
Inductive profile_text := TextName | TextAbout | TextAboutEmoji.

(** A profile key has 32 bytes, so making the cipher never fails. [json_any] decodes into an [any], in which null is nil. *)
Class ProfileLib := {
  ProfileKey : Type;
  ProfileKey_eq_dec :: EqDecision ProfileKey;
  GetCommitment {U : UuidLib} : ProfileKey -> uuid -> res string;
  GetProfileKeyVersion {U : UuidLib} : ProfileKey -> uuid -> res string;
  gcm_Seal : ProfileKey -> string -> string -> string;
  gcm_Open : ProfileKey -> string -> string -> option string;
  json_value : Type;
  json_value_eq_dec :: EqDecision json_value;
  json_null : json_value;
  json_any : string -> option json_value;
  json_Valid : string -> bool;
  json_profile : string -> option rawOwnProfile;
  json_capabilities : string -> option (option (list (string * string)));
}.

Definition nonceSize : nat := 12.

(** [Seal] appends a tag of 16 bytes, and [Open] undoes it. *)
Class ProfileLaws (L : ProfileLib) : Prop := {
  Seal_length key nonce plain : String.length (gcm_Seal key nonce plain) = (String.length plain + 16)%nat;
  Open_Seal key nonce plain : gcm_Open key nonce (gcm_Seal key nonce plain) = Some plain;
}.

Definition profileCipherOverhead : Z := 28.
Definition profileCredentialSize : Z := 497.
Definition maxProfileResponse : Z := Z.shiftl 1 20.

Fixpoint zeros (n : nat) : string := match n with O => EmptyString | S n => String nul (zeros n) end.
(** [bytes.TrimRight(s, NUL)]. *)
Fixpoint trim_right_nul (s : string) : string :=
  match s with
  | EmptyString => EmptyString
  | String a t =>
      match trim_right_nul t with
      | EmptyString => if a == nul then EmptyString else String a EmptyString
      | t' => String a t'
      end
  end.
Fixpoint count_nul (s : string) : Z :=
  match s with EmptyString => 0 | String a t => (if a == nul then 1 else 0) + count_nul t end.

Section profile.
Context {U : UuidLib} {L : ProfileLib}.

(** [random] draws the nonce of a text. *)
Definition encryptProfileText (random : res string) (key : ProfileKey) (value : string) (sizes : list Z) : res string :=
  match find (fun size => slen value <=? size) sizes with
  | None => Err (errorf ErrInvalidProfileUpdate)
  | Some paddedSize =>
      let plain := (value ++ zeros (Z.to_nat paddedSize - String.length value))%string in
      match random with
      | Err e => Err (Wrap [e])
      | Ok nonce => Ok (nonce ++ gcm_Seal key nonce plain)%string
      end
  end.
Definition decryptProfileBytes (key : ProfileKey) (encrypted : bytes) (sizes : list Z) : res string :=
  if negb (bool_decide (blen encrypted - profileCipherOverhead ∈ sizes)) then Err (errorf ErrInvalidProfile)
  else
    let s := default ""%string encrypted in
    match gcm_Open key (String.substring 0 nonceSize s) (String.substring nonceSize (String.length s - nonceSize) s) with
    | Some plain => Ok plain
    | None => Err (errorf ErrInvalidProfile)
    end.
Definition decryptProfileText (key : ProfileKey) (encrypted : bytes) (sizes : list Z) : res string :=
  plain ← decryptProfileBytes key encrypted sizes; Ok (trim_right_nul plain).

(** [raw.Capabilities["profiles_v2"]] of a decoded object, in which the last of equal names counts. *)
Definition capability (caps : list (string * bool)) (name : string) : bool :=
  foldl (fun b (c : string * bool) => if c.1 == name then c.2 else b) false caps.

Definition checkRawProfile (raw : rawOwnProfile) (ownACI : string) : error :=
  if raw_ACI raw != ownACI then Some (errorf ErrInvalidProfile)
  else match raw_Capabilities raw with
  | None => Some (errorf ErrInvalidProfile)
  | Some caps =>
      if capability caps "profiles_v2" then Some (Sent ErrProfileV2Unsupported)
      else if blen (raw_Credential raw) =? 0 then Some (errorf ErrProfileKeyChanged)
      else if negb (blen (raw_Credential raw) =? profileCredentialSize) then Some (errorf ErrInvalidProfile)
      else match uuid_parse ownACI with None => Some (errorf ErrInvalidProfile) | Some _ => None end
  end.

Definition nameSizes : list Z := [53; 257].
Definition aboutSizes : list Z := [128; 254; 512].
Definition emojiSizes : list Z := [32].

(** A text of [decodeOptionalProfileText]. *)
Definition decode_optional (key : ProfileKey) (encrypted : bytes) (sizes : list Z) : res string :=
  if blen encrypted =? 0 then Ok ""%string
  else
    text ← decryptProfileText key encrypted sizes;
    if negb (ValidString text) || has_nul text then Err (errorf ErrInvalidProfile) else Ok text.
Definition decodeOptionalProfileText (raw : rawOwnProfile) (key : ProfileKey) (profile : Profile) : res Profile :=
  about ← decode_optional key (raw_About raw) aboutSizes;
  emoji ← decode_optional key (raw_AboutEmoji raw) emojiSizes;
  Ok (mkProfile (pf_ACI profile) (GivenName profile) (FamilyName profile) about emoji (AvatarPath profile)).

Definition check_opaque (key : ProfileKey) (encrypted : bytes) (size : Z) : error :=
  if 0 <? blen encrypted then match decryptProfileBytes key encrypted [size] with Err e => Some e | Ok _ => None end else None.
Definition checkOpaqueProfile (raw : rawOwnProfile) (key : ProfileKey) : error :=
  check_opaque key (raw_PaymentAddress raw) 554 ;!
  check_opaque key (raw_PhoneNumberSharing raw) 1 ;!
  (if (0 <? blen (raw_Badges raw)) && negb (json_Valid (default ""%string (raw_Badges raw))) then Some (errorf ErrInvalidProfile) else None).

Definition decodeOwnProfile (raw : rawOwnProfile) (ownACI : string) (key : ProfileKey) : res Profile :=
  match checkRawProfile raw ownACI with
  | Some e => Err e
  | None =>
      name ← decryptProfileText key (raw_Name raw) nameSizes;
      if negb (ValidString name) || (1 <? count_nul name) then Err (errorf ErrInvalidProfile)
      else
        let '(given, family) := default (name, ""%string) (cut_byte name nul) in
        profile ← decodeOptionalProfileText raw key (mkProfile ownACI given family "" "" (raw_Avatar raw));
        match checkOpaqueProfile raw key with Some e => Err e | None => Ok profile end
  end.

(** [UnmarshalJSON]. *)
Definition unmarshalProfile (data : string) : res rawOwnProfile :=
  match json_profile data with
  | None => Err (errorf ErrInvalidProfile)
  | Some decoded =>
      match json_capabilities data with
      | None | Some None => Err (errorf ErrInvalidProfile)
      | Some (Some caps) =>
          if existsb (fun c : string * string => negb (TrimSpace c.2 == "true") && negb (TrimSpace c.2 == "false")) caps
          then Err (errorf ErrInvalidProfile) else Ok decoded
      end
  end.

(** *** The request of an update *)

Definition encode_name (p : Profile) : string :=
  if FamilyName p != "" then (GivenName p ++ String nul (FamilyName p))%string else GivenName p.
Definition prepareProfileName (random : profile_text -> res string) (current proposed : Profile) (key : ProfileKey) (name : bytes) : res bytes :=
  if (GivenName proposed != GivenName current) || (FamilyName proposed != FamilyName current)
  then encrypted ← encryptProfileText (random TextName) key (encode_name proposed) nameSizes; Ok (Some encrypted)
  else Ok name.
Definition prepare_optional (random : res string) (old value : string) (key : ProfileKey) (sizes : list Z) (target : bytes) : res bytes :=
  if old == value then Ok target
  else if value == "" then Ok (Some ""%string)
  else encrypted ← encryptProfileText random key value sizes; Ok (Some encrypted).
Definition prepareOptionalProfileText (random : profile_text -> res string) (current proposed : Profile) (key : ProfileKey) (about emoji : bytes)
    : res (bytes * bytes) :=
  about ← prepare_optional (random TextAbout) (About current) (About proposed) key aboutSizes about;
  emoji ← prepare_optional (random TextAboutEmoji) (AboutEmoji current) (AboutEmoji proposed) key emojiSizes emoji;
  Ok (about, emoji).

Definition prepareOwnProfileUpdate (random : profile_text -> res string) (raw : rawOwnProfile) (current : Profile) (key : ProfileKey)
    (update : ProfileUpdate) : res (profileWriteRequest * Profile * bool) :=
  applied ← ProfileUpdate_Apply update current;
  let '(proposed, changed) := applied in
  let request := fun commitment version name about emoji =>
    mkProfileWrite commitment version name about emoji (raw_PaymentAddress raw) (raw_PhoneNumberSharing raw) true true in
  if negb changed then Ok (request None ""%string (raw_Name raw) (raw_About raw) (raw_AboutEmoji raw), current, false)
  else match uuid_parse (pf_ACI current) with
  | None => Err (errorf ErrInvalidProfile)
  | Some aci =>
      match GetCommitment key aci, GetProfileKeyVersion key aci with
      | Err e, _ | Ok _, Err e => Err (Wrap [e])
      | Ok commitment, Ok version =>
          name ← prepareProfileName random current proposed key (raw_Name raw);
          texts ← prepareOptionalProfileText random current proposed key (raw_About raw) (raw_AboutEmoji raw);
          Ok (request (Some commitment) version name texts.1 texts.2, proposed, true)
      end
  end.

(** *** Comparing what was read before and after *)

Definition sameProfileBytes (left right : bytes) : bool := left == right.

Definition badges_value (badges : bytes) : option json_value :=
  if 0 <? blen badges then json_any (default ""%string badges) else Some json_null.
Definition preservedProfileMetadata (before after : rawOwnProfile) : bool :=
  if (raw_Avatar before != raw_Avatar after)
     || negb (sameProfileBytes (raw_PaymentAddress before) (raw_PaymentAddress after))
     || negb (sameProfileBytes (raw_PhoneNumberSharing before) (raw_PhoneNumberSharing after)) then false
  else match badges_value (raw_Badges before), badges_value (raw_Badges after) with
       | Some l, Some r => l == r
       | _, _ => false
       end.
Definition matchesProfileSnapshot (before after : rawOwnProfile) (request : profileWriteRequest) : bool :=
  preservedProfileMetadata before after
  && forallb (fun f : bytes * bytes * bytes => let '(before, after, submitted) := f in
       negb (sameProfileBytes submitted before && negb (sameProfileBytes after before)))
     [(raw_Name before, raw_Name after, pw_Name request); (raw_About before, raw_About after, pw_About request);
      (raw_AboutEmoji before, raw_AboutEmoji after, pw_AboutEmoji request)].
End profile.

(** ** Updating the profile once (meow_profile.go) *)

(** What an update asked of the server and the store, with the answers. *)
Inductive profile_event :=
  | EFetch (r : res (rawOwnProfile * Profile))
  | ECheckKey (e : error)
  | EWrite (request : profileWriteRequest) (accepted : bool) (e : error)
  | ERefresh (e : error)
  | EPersist (profile : Profile) (e : error)
  | ENotify (e : error).

Record profile_state (W : Type) := mkProfileState { ps_log : list profile_event; ps_world : W }.
#[global] Arguments mkProfileState {W}.
#[global] Arguments ps_log {W}.
#[global] Arguments ps_world {W}.

Record profileUpdateHooks (W : Type) := mkHooks {
  hk_fetch : io W err (rawOwnProfile * Profile);
  hk_checkKey : W -> error * W;
  hk_write : profileWriteRequest -> W -> (bool * error) * W;
  hk_refresh : W -> error * W;
  hk_persist : Profile -> W -> error * W;
  hk_notify : W -> error * W }.
#[global] Arguments mkHooks {W}.
#[global] Arguments hk_fetch {W}.
#[global] Arguments hk_checkKey {W}.
#[global] Arguments hk_write {W}.
#[global] Arguments hk_refresh {W}.
#[global] Arguments hk_persist {W}.
#[global] Arguments hk_notify {W}.

(** [errors.Join] of errors that may be nil. *)
Definition joined (errs : list error) : error := errorsJoin (omap id errs).

Section update.
Context {U : UuidLib} {L : ProfileLib} {W : Type}.
(** [ctx.Err()], and the random source. *)
Context (ctx_Err : W -> error * W) (draw : W -> (profile_text -> res string) * W) (hooks : profileUpdateHooks W).
Notation M := (io (profile_state W) err).

Definition on_world {A} (m : W -> A * W) : M A := fun s => let (a, w) := m (ps_world s) in (Ok a, mkProfileState (ps_log s) w).
Definition asked {A} (event : A -> profile_event) (m : W -> A * W) : M A := fun s =>
  let (a, w) := m (ps_world s) in (Ok a, mkProfileState (ps_log s ++ [event a]) w).
Definition fails (e : error) : M unit := match e with Some e => io_err e | None => io_ret tt end.

Definition ask_fetch : M (res (rawOwnProfile * Profile)) := asked EFetch (hk_fetch hooks).
Definition ask_key : M error := asked ECheckKey (hk_checkKey hooks).

Definition checkProfileOperation (update : ProfileUpdate) : M unit :=
  let* _ := fails (ProfileUpdate_Check update) in
  let* e := on_world ctx_Err in
  match e with Some e => io_err (Wrap [e]) | None => io_ret tt end.

(** [verifyOwnProfile]: the verified profile, if it is, and the error. *)
Definition verifyOwnProfile (before : rawOwnProfile) (request : profileWriteRequest) (proposed : Profile) : M (option Profile * error) :=
  let* ce := on_world ctx_Err in
  match ce with
  | Some e => io_ret (None, Some (Wrap [Sent ErrProfileVerification; e]))
  | None =>
      let* r := ask_fetch in
      match r with
      | Err e => io_ret (None, Some (Wrap [Sent ErrProfileVerification; e]))
      | Ok (after, actual) =>
          let* ke := ask_key in
          match ke with
          | Some e => io_ret (None, Some (Wrap [Sent ErrProfileVerification; e]))
          | None =>
              if (actual != proposed) || negb (matchesProfileSnapshot before after request)
              then io_ret (None, Some (Sent ErrProfileVerification))
              else
                let* refreshErr := asked ERefresh (hk_refresh hooks) in
                let* persistErr := asked (EPersist actual) (hk_persist hooks actual) in
                io_ret (Some actual, joined [refreshErr; persistErr])
          end
      end
  end.

Definition updateOwnProfileOnce (ownACI : string) (key : ProfileKey) (update : ProfileUpdate) : M (ProfileUpdateResult * error) :=
  let* _ := checkProfileOperation update in
  let* r := ask_fetch in
  let* read := io_of r in
  let '(raw, current) := read in
  let* ke := ask_key in
  let* _ := fails ke in
  let* random := on_world draw in
  let* prepared := io_of (prepareOwnProfileUpdate random raw current key update) in
  let '(request, proposed, changed) := prepared in
  if negb changed then io_ret (mkProfileResult current false false true, None)
  else
    let* ke := ask_key in
    let* _ := fails ke in
    let* ce := on_world ctx_Err in
    let* _ := match ce with Some e => io_err (Wrap [e]) | None => io_ret tt end in
    let* answer := asked (fun a : bool * error => EWrite request a.1 a.2) (hk_write hooks request) in
    let '(accepted, writeErr) := answer in
    if negb accepted then io_ret (zeroProfileResult, writeErr)
    else
      let* v := verifyOwnProfile raw request proposed in
      let* notifyErr := asked ENotify (hk_notify hooks) in
      let result := match v.1 with
                    | Some actual => mkProfileResult actual true true true
                    | None => mkProfileResult (mkProfile ownACI "" "" "" "" "") true true false
                    end in
      io_ret (result, match joined [writeErr; v.2; notifyErr] with Some e => Some (Wrap [e]) | None => None end).

(** A call that fails returns the zero result. *)
Definition run_profile (m : M (ProfileUpdateResult * error)) (s : profile_state W) : (ProfileUpdateResult * error) * profile_state W :=
  let (r, s') := m s in (match r with Ok x => x | Err e => (zeroProfileResult, Some e) end, s').
End update.

(** ** The client (meow_profile.go, profile_wire.go) *)

(** The profile in a row of signalmeow's recipients. *)
Record stored_profile := mkStoredProfile {
  sp_Name : string; sp_About : string; sp_AboutEmoji : string; sp_AvatarPath : string; sp_FetchedAt : Z }.

(** What sending a request gives: a transport error, or a status and the body, as far as it is read. *)
Inductive http_answer := HttpFailed (e : err) | HttpStatus (status : Z) (body : res string).
Inductive http_method := MethodGet | MethodPut.
#[export] Instance http_method_eq_dec : EqDecision http_method.
Proof. solve_decision. Defined.

Definition profileResponseStatus (method : http_method) (status : Z) : error :=
  if (status =? 401) || ((method == MethodGet) && (status =? 403)) then Some (Sent ErrDeviceUnlinked)
  else if status =? 412 then Some (Sent ErrProfileV2Unsupported)
  else if (method == MethodPut) && (500 <=? status) then Some (errorf errServerStatus)
  else if (status <? 200) || (300 <=? status) then
    if method == MethodPut then Some (errorf ErrProfileRejected) else Some (errorf errServerStatus)
  else None.
Definition profileTransportError (method : http_method) (e : err) : err := Wrap [e].

(** The client's connection and stores. Waiting for a lock ends with the context. *)
Class ProfileEnv {U : UuidLib} {L : ProfileLib} (W : Type) := {
  pe_ownACI : string;
  pe_deviceACI : uuid;
  pe_connected : W -> bool;
  pe_begin : W -> bool;
  pe_lost : W -> error;
  pe_client : W -> bool;
  pe_begin_handling : W -> bool;
  pe_lock : W -> error * W;
  pe_ctx_Err : W -> error * W;
  pe_draw : W -> (profile_text -> res string) * W;
  pe_MyProfileKey : io W err (option ProfileKey);
  pe_ProfileKeyCredentialRequest : io W err string;
  pe_http : http_method -> string -> string -> W -> http_answer * W;
  pe_MarkUnlinked : W -> W;
  pe_Marshal : profileWriteRequest -> res string;
  pe_RetrieveProfileByID : W -> error * W;
  pe_sendLocalProfile : W -> error * W;
  pe_LoadAndUpdateRecipient : uuid -> (Z -> stored_profile -> stored_profile) -> W -> error * W;
}.

Section client.
Context {U : UuidLib} {L : ProfileLib} {W : Type} {E : ProfileEnv W}.

Definition readProfileResponse (body : res string) : res string :=
  match body with
  | Err e => Err (Wrap [e])
  | Ok data =>
      if maxProfileResponse <? slen data then Err (errorf ErrInvalidProfile)
      else if negb (TrimSpace data == "") && negb (json_Valid data) then Err (errorf ErrInvalidProfile)
      else Ok data
  end.
(** The reply or its error, and whether a write was accepted. *)
Definition profileHTTPRequest (method : http_method) (path body : string) (w : W) : (res string * bool) * W :=
  let (answer, w) := pe_http method path body w in
  (match answer with
   | HttpFailed e => (Err (profileTransportError method e), false)
   | HttpStatus status reply =>
       let accepted := (method == MethodPut) && (200 <=? status) && (status <? 300) in
       match profileResponseStatus method status with
       | Some e => (Err e, false)
       | None => (readProfileResponse reply, accepted)
       end
   end, w).

(** [profileOperation]: the checks before an operation. *)
Definition profileOperation : io W err unit := fun w =>
  if negb (pe_connected w) then (Err (Sent ErrNotConnected), w)
  else if negb (pe_begin w) then (Err (Sent ErrClosed), w)
  else match pe_lost w with
  | Some e => (Err (Wrap [e]), w)
  | None =>
      if negb (pe_client w) then (Err (Sent ErrNotConnected), w)
      else if negb (pe_begin_handling w) then (Err (Sent ErrClosed), w)
      else let (e, w) := pe_lock w in (match e with Some e => Err (Wrap [e]) | None => Ok tt end, w)
  end.

Definition profileKey : io W err ProfileKey :=
  let* r := io_try pe_MyProfileKey in
  match r with
  | Err e => io_err (Wrap [e])
  | Ok None => io_err (Sent ErrProfileKeyUnavailable)
  | Ok (Some key) => io_ret key
  end.
Definition checkProfileKey (key : ProfileKey) : W -> error * W := fun w =>
  let (e, w) := pe_ctx_Err w in
  match e with
  | Some e => (Some (Wrap [e]), w)
  | None => let (r, w) := profileKey w in
            (match r with Err e => Some e | Ok current => if current != key then Some (Sent ErrProfileKeyChanged) else None end, w)
  end.

(** [markUnlinked] after an error that says so. *)
Definition unlinked (e : error) (w : W) : error * W :=
  match e with
  | Some e' => if errIs e' ErrDeviceUnlinked then (Some (errorf ErrDeviceUnlinked), pe_MarkUnlinked w) else (e, w)
  | None => (None, w)
  end.
Definition error_of {A} (r : res A) : error := match r with Err e => Some e | Ok _ => None end.

Definition fetchOwnProfile (key : ProfileKey) : io W err (rawOwnProfile * Profile) :=
  let* version := io_of (match GetProfileKeyVersion key pe_deviceACI with Err e => Err (Wrap [e]) | Ok v => Ok v end) in
  let* credential := (fun w => let (r, w) := pe_ProfileKeyCredentialRequest w in (match r with Err e => Err (Wrap [e]) | Ok c => Ok c end, w)) in
  let* ke := (fun w => let (e, w) := checkProfileKey key w in (Ok e, w)) in
  let* _ := io_of (match ke with Some e => Err e | None => Ok tt end) in
  let* reply := (fun w => let (r, w) := profileHTTPRequest MethodGet
      ("/v1/profile/" ++ pe_ownACI ++ "/" ++ version ++ "/" ++ credential ++ "?credentialType=expiringProfileKey")%string "" w in (Ok r.1, w)) in
  let* ke := (fun w => let (e, w) := checkProfileKey key w in (Ok e, w)) in
  let* ue := (fun w => let (e, w) := unlinked (error_of reply) w in (Ok e, w)) in
  let* _ := io_of (match joined [ue; ke] with Some e => Err e | None => Ok tt end) in
  io_of (body ← reply;
         match unmarshalProfile body with
         | Err _ => Err (errorf ErrInvalidProfile)
         | Ok raw => profile ← decodeOwnProfile raw pe_ownACI key; Ok (raw, profile)
         end).

(** A follow-up on the websocket, which ends when the context does. *)
Definition profileWithCancel (operation : W -> error * W) : W -> error * W := fun w =>
  let (e, w) := pe_ctx_Err w in
  match e with
  | Some e => (Some (Wrap [e]), w)
  | None => let (oe, w) := operation w in let (ce, w) := pe_ctx_Err w in (joined [oe; ce], w)
  end.

Definition stored_from (profile : Profile) (now : Z) (_ : stored_profile) : stored_profile :=
  mkStoredProfile (if FamilyName profile != "" then GivenName profile ++ " " ++ FamilyName profile else GivenName profile)
    (About profile) (AboutEmoji profile) (AvatarPath profile) now.
Definition persistOwnProfile (profile : Profile) : W -> error * W := fun w =>
  match uuid_parse (pf_ACI profile) with
  | None => (Some (Wrap [Opaque "invalid UUID"]), w)
  | Some aci => let (e, w) := pe_LoadAndUpdateRecipient aci (stored_from profile) w in (match e with Some e => Some (Wrap [e]) | None => None end, w)
  end.

Definition write_profile (key : ProfileKey) (request : profileWriteRequest) : W -> (bool * error) * W := fun w =>
  match pe_Marshal request with
  | Err e => ((false, Some (Wrap [e])), w)
  | Ok body =>
      let (ke, w) := checkProfileKey key w in
      match ke with
      | Some e => ((false, Some e), w)
      | None => let '(reply, accepted, w) := profileHTTPRequest MethodPut "/v1/profile" body w in
                let (e, w) := unlinked (error_of reply) w in ((accepted, e), w)
      end
  end.
Definition notify_profile : W -> error * W := fun w =>
  let (e, w) := pe_ctx_Err w in
  match e with Some e => (Some (Wrap [e]), w) | None => profileWithCancel pe_sendLocalProfile w end.
Definition refresh_profile : W -> error * W :=
  profileWithCancel (fun w => let (e, w) := pe_RetrieveProfileByID w in (match e with Some e => Some (Wrap [e]) | None => None end, w)).

Definition ownProfileHooks (key : ProfileKey) : profileUpdateHooks W :=
  mkHooks (fetchOwnProfile key) (checkProfileKey key) (write_profile key) refresh_profile persistOwnProfile notify_profile.

Definition OwnProfile : io W err Profile :=
  let* _ := profileOperation in
  let* key := profileKey in
  let* read := fetchOwnProfile key in
  io_ret read.2.

Definition UpdateOwnProfile (update : ProfileUpdate) (w : W) : (ProfileUpdateResult * error) * W :=
  match ProfileUpdate_Check update with
  | Some e => ((zeroProfileResult, Some e), w)
  | None =>
      match (let* _ := profileOperation in profileKey) w with
      | (Err e, w) => ((zeroProfileResult, Some e), w)
      | (Ok key, w) =>
          let (r, s) := run_profile (updateOwnProfileOnce pe_ctx_Err pe_draw (ownProfileHooks key) pe_ownACI key update) (mkProfileState [] w) in
          (r, ps_world s)
      end
  end.
End client.

(** ** The application (internal/app/profile.go) *)

Class ProfileClient (W : Type) := {
  client_OwnProfile : io W err Profile;
  client_UpdateOwnProfile : ProfileUpdate -> W -> (ProfileUpdateResult * error) * W;
}.

Section app.
Context {U : UuidLib} {W : Type} {C : Client W} {P : ProfileClient W}.

Definition ProfileShow : io (App W) err Profile :=
  let* r := io_try connectSendOnly in
  match r with
  | Err e => io_err (Wrap [e])
  | Ok _ =>
      let* p := io_try (lift client_OwnProfile) in
      match p with Err e => io_err (Wrap [e]) | Ok profile => io_ret profile end
  end.

Definition app_ProfileUpdate (update : ProfileUpdate) (s : App W) : (ProfileUpdateResult * error) * App W :=
  match ProfileUpdate_Check update with
  | Some e => ((zeroProfileResult, Some (Wrap [e])), s)
  | None =>
      match connectSendOnly s with
      | (Err e, s) => ((zeroProfileResult, Some (Wrap [e])), s)
      | (Ok _, s) =>
          let '(result, e, w) := client_UpdateOwnProfile update (app_world s) in
          ((result, match e with Some e => Some (Wrap [e]) | None => None end),
           mkApp (app_lastTimestamp s) (app_resolved s) (app_sent s) (app_receipts s) w)
      end
  end.
End app.

(** ** What an update did *)

Section once.
Context {U : UuidLib} {L : ProfileLib} {W : Type}.
Context (ctx_Err : W -> error * W) (draw : W -> (profile_text -> res string) * W) (hooks : profileUpdateHooks W).
Notation M := (io (profile_state W) err).

Definition is_write (ev : profile_event) : bool := match ev with EWrite _ _ _ => true | _ => false end.
Definition no_write (evs : list profile_event) : Prop := forallb (fun ev => negb (is_write ev)) evs = true.

(** The events of a verification that succeeded. *)
Definition verified_by (raw : rawOwnProfile) (request : profileWriteRequest) (proposed : Profile) (evs : list profile_event) : Prop :=
  exists after re pe, evs = [EFetch (Ok (after, proposed)); ECheckKey None; ERefresh re; EPersist proposed pe]
    /\ matchesProfileSnapshot raw after request = true.
(** The events of one that did not: at most a read and a look at the key. *)
Definition unverified_by (evs : list profile_event) : Prop :=
  evs = [] \/ exists r, evs = [EFetch r] \/ exists e, evs = [EFetch r; ECheckKey e].

Lemma verifyOwnProfile_run before request proposed s : exists v e w evs,
  verifyOwnProfile ctx_Err hooks before request proposed s = (Ok (v, e), mkProfileState (ps_log s ++ evs) w)
  /\ match v with
     | Some actual => actual = proposed /\ verified_by before request proposed evs
     | None => unverified_by evs /\ checks_with e ErrProfileVerification
     end.
Proof.
  assert (Hw : forall e, checks_with (Some (Wrap [Sent ErrProfileVerification; e])) ErrProfileVerification).
  { intros e. eexists. split; [done|]. by rewrite errIs_Wrap. }
  unfold verifyOwnProfile, on_world, ask_fetch, ask_key, asked, io_bind. destruct (ctx_Err (ps_world s)) as [[ce|] w1]; cbn.
  { exists None, (Some (Wrap [Sent ErrProfileVerification; ce])), w1, []. rewrite app_nil_r. split; [done|]. split; [by left|done]. }
  destruct (hk_fetch hooks w1) as [[[after actual]|fe] w2]; cbn.
  2: { exists None, (Some (Wrap [Sent ErrProfileVerification; fe])), w2, [EFetch (Err fe)]. split; [done|]. split; [right; eexists; by left|done]. }
  destruct (hk_checkKey hooks w2) as [[ke|] w3]; cbn; rewrite <- app_assoc; cbn.
  { exists None, (Some (Wrap [Sent ErrProfileVerification; ke])), w3, [EFetch (Ok (after, actual)); ECheckKey (Some ke)]. split; [done|].
    split; [right; eexists; right; by eexists|done]. }
  destruct (_ || _) eqn:Em; cbn.
  { exists None, (Some (Sent ErrProfileVerification)), w3, [EFetch (Ok (after, actual)); ECheckKey None]. split; [done|].
    split; [right; eexists; right; by eexists|]. by eexists. }
  bool_hyps. subst actual.
  destruct (hk_refresh hooks w3) as [re w4]; cbn. destruct (hk_persist hooks proposed w4) as [pe w5]; cbn. rewrite <- !app_assoc; cbn.
  exists (Some proposed), (joined [re; pe]), w5, [EFetch (Ok (after, proposed)); ECheckKey None; ERefresh re; EPersist proposed pe]. split; [done|].
  split; [done|]. by exists after, re, pe.
Qed.

(** Nothing was written. *)
Definition not_written (update : ProfileUpdate) (res : ProfileUpdateResult) (e : error) (evs : list profile_event) : Prop :=
  no_write evs
  /\ match e with
     | Some _ => res = zeroProfileResult
     | None => exists raw current, evs = [EFetch (Ok (raw, current)); ECheckKey None]
                 /\ ProfileUpdate_Apply update current = Ok (current, false) /\ res = mkProfileResult current false false true
     end.
(** One write, of the request made from the profile just read, and what followed an acceptance. *)
Definition written (ownACI : string) (key : ProfileKey) (update : ProfileUpdate) (res : ProfileUpdateResult) (e : error) (evs : list profile_event) : Prop :=
  exists raw current random request proposed accepted we follow,
    evs = [EFetch (Ok (raw, current)); ECheckKey None; ECheckKey None; EWrite request accepted we] ++ follow
    /\ prepareOwnProfileUpdate random raw current key update = Ok (request, proposed, true)
    /\ (exists w w', hk_write hooks request w = ((accepted, we), w'))
    /\ if accepted : bool then
         (exists ne vs, follow = vs ++ [ENotify ne]
            /\ ((res = mkProfileResult proposed true true true /\ verified_by raw request proposed vs)
                \/ (res = mkProfileResult (mkProfile ownACI "" "" "" "" "") true true false /\ unverified_by vs /\ checks_with e ErrProfileVerification)))
       else follow = [] /\ res = zeroProfileResult /\ e = we.

Lemma joined_is e es s : e ∈ es -> checks_with e s -> checks_with (joined es) s.
Proof.
  intros Hin (x & -> & Hx). unfold joined.
  assert (Hxs : x ∈ omap id es) by (apply list_elem_of_omap; by exists (Some x)).
  destruct (omap id es) as [|y ys] eqn:E; [by apply not_elem_of_nil in Hxs|]. exists (Wrap (y :: ys)). split; [done|].
  rewrite errIs_Wrap. apply existsb_exists. exists x. split; [by apply list_elem_of_In|done].
Qed.
Lemma wrapped_is e s : checks_with e s -> checks_with (match e with Some e => Some (Wrap [e]) | None => None end) s.
Proof. intros (x & -> & Hx). eexists. split; [done|]. rewrite errIs_Wrap. cbn. by rewrite Hx. Qed.

Lemma prepare_unchanged random raw current key update request proposed :
  prepareOwnProfileUpdate random raw current key update = Ok (request, proposed, false) ->
  ProfileUpdate_Apply update current = Ok (current, false).
Proof.
  unfold prepareOwnProfileUpdate. destruct (ProfileUpdate_Apply update current) as [[p c]|e] eqn:Ha; [|done]. cbn. destruct c; cbn.
  - destruct (uuid_parse (pf_ACI current)) as [aci|]; [|done]. destruct (GetCommitment key aci), (GetProfileKeyVersion key aci); try done.
    destruct (prepareProfileName random current p key (raw_Name raw)); [|done]. cbn.
    by destruct (prepareOptionalProfileText random current p key (raw_About raw) (raw_AboutEmoji raw)).
  - intros _. unfold ProfileUpdate_Apply in *. destruct (ProfileUpdate_Check update); [done|]. destruct (checkProfileName _ _); [done|].
    injection Ha as <- Hc. apply negb_false_iff, bool_decide_eq_true in Hc. by rewrite Hc.
Qed.

(** After an accepted write. *)
Lemma follow_up ownACI raw request proposed we (s : profile_state W) :
  let m := (let* v := verifyOwnProfile ctx_Err hooks raw request proposed in
      let* notifyErr := asked ENotify (hk_notify hooks) in
      let result := match v.1 with
                    | Some actual => mkProfileResult actual true true true
                    | None => mkProfileResult (mkProfile ownACI "" "" "" "" "") true true false
                    end in
      io_ret (result, match joined [we; v.2; notifyErr] with Some e => Some (Wrap [e]) | None => None end)) in
  exists res e w vs ne, m s = (Ok (res, e), mkProfileState (ps_log s ++ vs ++ [ENotify ne]) w)
    /\ ((res = mkProfileResult proposed true true true /\ verified_by raw request proposed vs)
        \/ (res = mkProfileResult (mkProfile ownACI "" "" "" "" "") true true false /\ unverified_by vs /\ checks_with e ErrProfileVerification)).
Proof.
  cbn zeta. destruct (verifyOwnProfile_run raw request proposed s) as (v & ve & w1 & vs & Hv & Hs). unfold io_bind at 1. rewrite Hv.
  unfold io_bind, asked. cbn [ps_world ps_log]. destruct (hk_notify hooks w1) as [ne w2]. do 2 eexists. exists w2, vs, ne. cbn [fst snd]. rewrite <- app_assoc.
  split; [done|]. destruct v as [actual|]; [left; by destruct Hs as [-> ?]|right]. destruct Hs as [Hu Hc]. split; [done|]. split; [done|].
  apply wrapped_is. eapply joined_is; [|exact Hc]. set_solver.
Qed.

Lemma updateOwnProfileOnce_run (ownACI : string) (key : ProfileKey) (update : ProfileUpdate) (s : profile_state W) :
  let '(res, e, s') := run_profile (updateOwnProfileOnce ctx_Err draw hooks ownACI key update) s in
  exists evs, ps_log s' = ps_log s ++ evs /\ (not_written update res e evs \/ written ownACI key update res e evs).
Proof.
  assert (Hstop : forall evs e, no_write evs -> exists evs', ps_log s ++ evs = ps_log s ++ evs'
    /\ (not_written update zeroProfileResult (Some e) evs' \/ written ownACI key update zeroProfileResult (Some e) evs')).
  { intros evs e H. exists evs. split; [done|]. by left. }
  assert (Hnone : forall e, exists evs', ps_log s = ps_log s ++ evs'
    /\ (not_written update zeroProfileResult (Some e) evs' \/ written ownACI key update zeroProfileResult (Some e) evs')).
  { intros e. exists []. rewrite app_nil_r. split; [done|]. by left. }
  unfold run_profile, updateOwnProfileOnce, checkProfileOperation. unfold io_bind at 1 2 3. unfold fails at 1.
  destruct (ProfileUpdate_Check update) as [ce|]; [apply Hnone|]. cbn. unfold on_world at 1. destruct (ctx_Err (ps_world s)) as [[ce|] w1]; [apply Hnone|]. cbn.
  unfold io_bind at 1, ask_fetch at 1, asked at 1. cbn. destruct (hk_fetch hooks w1) as [[[raw current]|fe] w2]; cbn; [|by apply Hstop].
  unfold io_bind at 1, ask_key at 1, asked at 1, fails at 1, io_of. cbn. destruct (hk_checkKey hooks w2) as [[ke|] w3]; cbn; rewrite <- app_assoc; cbn; [by apply Hstop|].
  unfold io_bind at 1, on_world at 1. cbn. destruct (draw w3) as [random w4].
  destruct (prepareOwnProfileUpdate random raw current key update) as [[[request proposed] changed]|pe] eqn:Hp; cbn; [|by apply Hstop].
  destruct changed; cbn.
  2: { exists [EFetch (Ok (raw, current)); ECheckKey None]. split; [done|]. left. split; [done|]. exists raw, current. split_and!; try done. by eapply prepare_unchanged. }
  unfold io_bind at 1, ask_key at 1, asked at 1. cbn. destruct (hk_checkKey hooks w4) as [[ke|] w5]; cbn; rewrite <- app_assoc; cbn; [by apply Hstop|].
  unfold io_bind at 1, on_world at 1. cbn. destruct (ctx_Err w5) as [[ce|] w6]; cbn; [by apply Hstop|].
  unfold io_bind at 1, asked at 1. cbn. destruct (hk_write hooks request w6) as [[accepted we] w7] eqn:Hwrite. cbn. rewrite <- app_assoc. cbn.
  destruct accepted; cbn.
  2: { eexists. split; [done|]. right. exists raw, current, random, request, proposed, false, we, []. split_and!; try done. by eexists _, _. }
  match goal with |- context [io_bind (verifyOwnProfile _ _ _ _ _) _ ?s1] =>
    destruct (follow_up ownACI raw request proposed we s1) as (res & e & w & vs & ne & Hm & Hr) end.
  cbv zeta in Hm. rewrite Hm. cbn [ps_log]. rewrite <- app_assoc. eexists. split; [done|]. right.
  exists raw, current, random, request, proposed, true, we, (vs ++ [ENotify ne]). split; [done|]. split; [done|]. split; [by eexists _, _|]. by exists ne, vs.
Qed.
End once.

(** ** What is written reads back *)

Section roundtrip.
Context {U : UuidLib} {L : ProfileLib} {LL : ProfileLaws L}.

Lemma trim_zeros n : trim_right_nul (zeros n) = ""%string.
Proof. induction n as [|n IH]; [done|]. cbn [zeros trim_right_nul]. by rewrite IH. Qed.
Lemma trim_app_zeros v n : trim_right_nul (v ++ zeros n) = trim_right_nul v.
Proof. induction v as [|a v IH]; [apply trim_zeros|]. rewrite string_app_cons. cbn [trim_right_nul]. by rewrite IH. Qed.
Lemma zeros_length n : String.length (zeros n) = n.
Proof. induction n as [|n IH]; [done|]. cbn. by rewrite IH. Qed.

Lemma has_nul_cons a s : has_nul (String a s) = (a == nul) || has_nul s.
Proof. unfold has_nul. cbn. by rewrite negb_andb, negb_involutive. Qed.
Lemma trim_clean v : has_nul v = false -> trim_right_nul v = v.
Proof.
  induction v as [|a v IH]; [done|]. rewrite has_nul_cons. intros [Ha Hv]%orb_false_iff. cbn [trim_right_nul]. rewrite (IH Hv), Ha. by destruct v.
Qed.
Lemma trim_app v t : t <> ""%string -> trim_right_nul t = t -> trim_right_nul (v ++ t) = (v ++ t)%string.
Proof.
  intros Hne Ht. induction v as [|a v IH]; [done|]. rewrite string_app_cons. cbn [trim_right_nul]. rewrite IH.
  destruct (v ++ t)%string eqn:E; [|done]. by destruct v, t.
Qed.
Lemma cut_clean g : has_nul g = false -> cut_byte g nul = None.
Proof. induction g as [|a g IH]; [done|]. rewrite has_nul_cons. intros [Ha Hg]%orb_false_iff. cbn [cut_byte]. by rewrite Ha, (IH Hg). Qed.
Lemma cut_pair g f : has_nul g = false -> cut_byte (g ++ String nul f) nul = Some (g, f).
Proof.
  induction g as [|a g IH]; [done|].
  rewrite has_nul_cons. intros [Ha Hg]%orb_false_iff. rewrite string_app_cons. cbn [cut_byte]. by rewrite Ha, (IH Hg).
Qed.
Lemma cut_Some s g f : cut_byte s nul = Some (g, f) -> s = (g ++ String nul f)%string /\ has_nul g = false.
Proof.
  revert g. induction s as [|a s IH]; intros g; [done|]. cbn [cut_byte]. case_bool_decide as Ha; [by intros [= <- <-]; subst|].
  destruct (cut_byte s nul) as [[x y]|]; [|done]. intros [= <- <-]. destruct (IH x eq_refl) as [-> Hx]. split; [done|].
  rewrite has_nul_cons, Hx, orb_false_r. by apply bool_decide_eq_false_2.
Qed.
Lemma cut_None s : cut_byte s nul = None -> has_nul s = false.
Proof.
  induction s as [|a s IH]; [done|]. cbn [cut_byte]. rewrite has_nul_cons. case_bool_decide; [done|]. by destruct (cut_byte s nul) as [[]|]; [|apply IH].
Qed.
Lemma count_nul_bound s : 0 <= count_nul s.
Proof. induction s as [|a s IH]; cbn [count_nul]; [done|]. case_bool_decide; lia. Qed.
Lemma count_clean s : has_nul s = false <-> count_nul s = 0.
Proof.
  induction s as [|a s IH]; [done|]. rewrite has_nul_cons, orb_false_iff. cbn [count_nul]. pose proof (count_nul_bound s).
  case_bool_decide; [|rewrite IH]; naive_solver lia.
Qed.
Lemma count_app s t : count_nul (s ++ t) = count_nul s + count_nul t.
Proof. induction s as [|a s IH]; [done|]. rewrite string_app_cons. cbn [count_nul]. rewrite IH. lia. Qed.
Lemma Valid_pair g f : ValidString (g ++ String nul f) = ValidString g && ValidString f.
Proof.
  unfold ValidString. rewrite decode_app by done. by rewrite forallb_app.
Qed.

(** *** Sealing *)

Lemma encrypt_decrypt (random : res string) key value sizes enc :
  (forall nonce, random = Ok nonce -> String.length nonce = nonceSize) -> trim_right_nul value = value ->
  encryptProfileText random key value sizes = Ok enc -> 0 < slen enc /\ decryptProfileText key (Some enc) sizes = Ok value.
Proof.
  intros Hr Ht. unfold encryptProfileText. destruct (find _ sizes) as [size|] eqn:Ef; [|done]. destruct random as [nonce|]; [|done]. specialize (Hr nonce eq_refl).
  intros [= <-]. apply find_some in Ef as [Hin Hle%Z.leb_le]. apply list_elem_of_In in Hin.
  set (plain := (value ++ zeros (Z.to_nat size - String.length value))%string).
  assert (Hlen : Z.of_nat (String.length plain) = size).
  { unfold plain. rewrite string_length_app, zeros_length. unfold slen in Hle. lia. }
  assert (Hs : slen (nonce ++ gcm_Seal key nonce plain) = size + 28).
  { unfold slen. rewrite string_length_app, Seal_length, Hr. unfold nonceSize. lia. }
  split; [rewrite Hs; lia|]. unfold decryptProfileText, decryptProfileBytes. cbn [blen default]. cbv zeta. rewrite Hs.
  replace (size + 28 - profileCipherOverhead) with size by (unfold profileCipherOverhead; lia).
  rewrite bool_decide_eq_true_2 by done. cbn [negb]. unfold id. rewrite <- Hr, substring_app_left, substring_app_right, Open_Seal. cbn.
  unfold plain. by rewrite trim_app_zeros, Ht.
Qed.

(** *** Reading a profile, field by field *)

Definition decode_name (key : ProfileKey) (encrypted : bytes) : res (string * string) :=
  name ← decryptProfileText key encrypted nameSizes;
  if negb (ValidString name) || (1 <? count_nul name) then Err (errorf ErrInvalidProfile)
  else Ok (default (name, ""%string) (cut_byte name nul)).

Lemma decodeOwnProfile_Ok raw aci key p : decodeOwnProfile raw aci key = Ok p <->
  checkRawProfile raw aci = None /\ decode_name key (raw_Name raw) = Ok (GivenName p, FamilyName p)
  /\ decode_optional key (raw_About raw) aboutSizes = Ok (About p) /\ decode_optional key (raw_AboutEmoji raw) emojiSizes = Ok (AboutEmoji p)
  /\ checkOpaqueProfile raw key = None /\ pf_ACI p = aci /\ AvatarPath p = raw_Avatar raw.
Proof.
  unfold decodeOwnProfile, decode_name, decodeOptionalProfileText. destruct (checkRawProfile raw aci); [naive_solver|].
  destruct (decryptProfileText key (raw_Name raw) nameSizes) as [name|]; cbn; [|naive_solver].
  destruct (negb (ValidString name) || (1 <? count_nul name)); [naive_solver|]. destruct (default _ _) as [given family].
  destruct (decode_optional key (raw_About raw) aboutSizes) as [about|]; cbn; [|naive_solver].
  destruct (decode_optional key (raw_AboutEmoji raw) emojiSizes) as [emoji|]; cbn; [|naive_solver].
  destruct (checkOpaqueProfile raw key); [naive_solver|]. destruct p; cbn. naive_solver.
Qed.

(** A text that a profile may have. *)
Definition clean (text : string) : Prop := ValidString text = true /\ has_nul text = false.
Definition clean_profile (p : Profile) : Prop := clean (GivenName p) /\ clean (FamilyName p) /\ clean (About p) /\ clean (AboutEmoji p).

Lemma decode_name_clean key enc given family : decode_name key enc = Ok (given, family) -> clean given /\ clean family.
Proof.
  unfold decode_name. destruct (decryptProfileText _ _ _) as [name|]; [|done]. cbn. destruct (_ || _) eqn:E; [done|]. bool_hyps. intros [= Hcut].
  destruct (cut_byte name nul) as [[g f]|] eqn:Ec; cbn in Hcut; simplify_eq.
  - apply cut_Some in Ec as [-> Hg]. rewrite Valid_pair in *. bool_hyps. rewrite count_app in *. cbn [count_nul] in *.
    rewrite (bool_decide_eq_true_2 (nul = nul)) in * by done. split; [done|]. split; [done|]. apply count_clean.
    pose proof (count_nul_bound given). pose proof (count_nul_bound family). lia.
  - split; [split; [done|by apply cut_None]|]. done.
Qed.
Lemma decode_optional_clean key enc sizes text : decode_optional key enc sizes = Ok text -> clean text.
Proof.
  unfold decode_optional. destruct (blen enc =? 0); [by intros [= <-]|]. destruct (decryptProfileText _ _ _) as [t|]; [|done]. cbn.
  destruct (_ || _) eqn:E; [done|]. bool_hyps. by intros [= <-].
Qed.
Lemma check_supplied_clean field limit current : check_supplied field limit = None -> clean current -> clean (default current field).
Proof.
  destruct field as [text|]; [|done]. cbn. unfold checkProfileText. intros H _. repeat (split_if_in H; [done|]). bool_hyps. done.
Qed.

Lemma Apply_clean u p q changed : clean_profile p -> ProfileUpdate_Apply u p = Ok (q, changed) ->
  clean_profile q /\ pf_ACI q = pf_ACI p /\ AvatarPath q = AvatarPath p.
Proof.
  intros (Hg & Hf & Ha & He). unfold ProfileUpdate_Apply. destruct (ProfileUpdate_Check u) eqn:Hc; [done|]. destruct (checkProfileName _ _); [done|].
  intros [= <- _]. split; [|done].
  assert (Hall : check_supplied (pu_GivenName u) profileNameLimit = None /\ check_supplied (pu_FamilyName u) (profileNameLimit - 1) = None
    /\ check_supplied (pu_About u) profileAboutLimit = None /\ check_supplied (pu_AboutEmoji u) profileEmojiLimit = None).
  { unfold ProfileUpdate_Check in Hc. destruct (pu_GivenName u), (pu_FamilyName u), (pu_About u), (pu_AboutEmoji u); try done;
      rewrite !check_seq_None in Hc; tauto. }
  destruct Hall as (H1 & H2 & H3 & H4). split; [|split; [|split]]; by eapply check_supplied_clean.
Qed.

(** *** Writing a field *)

Lemma encode_name_trim p : clean (GivenName p) -> clean (FamilyName p) -> trim_right_nul (encode_name p) = encode_name p.
Proof.
  intros [_ Hg] [_ Hf]. unfold encode_name. destruct (bool_decide (FamilyName p = ""%string)) eqn:E; cbn [negb]; [by apply trim_clean|].
  bool_hyps. apply trim_app; [done|]. cbn [trim_right_nul]. rewrite (trim_clean _ Hf). by destruct (FamilyName p).
Qed.
Lemma encode_name_cut p : clean (GivenName p) -> clean (FamilyName p) ->
  ValidString (encode_name p) = true /\ count_nul (encode_name p) <= 1
  /\ default (encode_name p, ""%string) (cut_byte (encode_name p) nul) = (GivenName p, FamilyName p).
Proof.
  intros [Hvg Hg] [Hvf Hf]. unfold encode_name. destruct (bool_decide (FamilyName p = ""%string)) eqn:E; cbn [negb]; bool_hyps.
  - rewrite (cut_clean _ Hg). cbn. split; [done|]. split; [|by rewrite E]. apply count_clean in Hg. lia.
  - rewrite Valid_pair, Hvg, Hvf, count_app, cut_pair by done. split; [done|]. split; [|done]. cbn [count_nul].
    rewrite bool_decide_eq_true_2 by done. apply count_clean in Hg, Hf. lia.
Qed.

Context (random : profile_text -> res string).
Hypothesis random_nonce : forall t nonce, random t = Ok nonce -> String.length nonce = nonceSize.

Lemma prepared_name current proposed key name written : clean (GivenName proposed) -> clean (FamilyName proposed) ->
  prepareProfileName random current proposed key name = Ok written ->
  decode_name key name = Ok (GivenName current, FamilyName current) -> decode_name key written = Ok (GivenName proposed, FamilyName proposed).
Proof.
  intros Hg Hf. unfold prepareProfileName. destruct (_ || _) eqn:E.
  - destruct (encryptProfileText _ _ _ _) as [enc|] eqn:He; [|done]. cbn. intros [= <-] _.
    apply encrypt_decrypt in He as [_ He]; [|apply random_nonce|by apply encode_name_trim]. unfold decode_name. rewrite He. cbn.
    destruct (encode_name_cut proposed Hg Hf) as (Hv & Hc & ->). rewrite Hv. cbn. destruct (1 <? _) eqn:El; [|done]. apply Z.ltb_lt in El. lia.
  - apply orb_false_iff in E as [E1 E2]. bool_hyps. intros [= <-] Hname. by rewrite Hname, E1, E2.
Qed.
Lemma prepared_optional t old value key sizes target written : clean value ->
  prepare_optional (random t) old value key sizes target = Ok written ->
  decode_optional key target sizes = Ok old -> decode_optional key written sizes = Ok value.
Proof.
  intros [Hv Hn]. unfold prepare_optional. case_bool_decide as Eo; [by intros [= <-] H; subst|]. case_bool_decide as Ev; [by intros [= <-] _; subst|].
  destruct (encryptProfileText _ _ _ _) as [enc|] eqn:He; [|done]. cbn. intros [= <-] _.
  apply encrypt_decrypt in He as [Hl He]; [|apply random_nonce|by apply trim_clean]. unfold decode_optional. cbn [blen].
  destruct (slen enc =? 0) eqn:Ez; [apply Z.eqb_eq in Ez; lia|]. rewrite He. cbn. by rewrite Hv, Hn.
Qed.

(** What the server has after it stored a request: the texts of the request, and the avatar, badges and capabilities it had. *)
Definition server_stored (raw : rawOwnProfile) (request : profileWriteRequest) : rawOwnProfile :=
  mkRaw (raw_ACI raw) (pw_Name request) (pw_About request) (pw_AboutEmoji request) (pw_PaymentAddress request) (pw_PhoneNumberSharing request)
    (raw_Credential raw) (raw_Avatar raw) (raw_Badges raw) (raw_Capabilities raw).

(** C22. If the server stores what an update writes and nothing else changes, reading the profile again gives exactly the profile that was
    proposed: the texts supplied and the others as they were read before, the name split where it was. Everything else, the avatar
    included, is as before, so that the verification accepts it (badges that decode cannot tell apart from before). *)
Theorem prepared_profile_reads_back (raw : rawOwnProfile) (aci : string) (key : ProfileKey) (update : ProfileUpdate) (current proposed : Profile)
    (request : profileWriteRequest) :
  decodeOwnProfile raw aci key = Ok current -> prepareOwnProfileUpdate random raw current key update = Ok (request, proposed, true) ->
  decodeOwnProfile (server_stored raw request) aci key = Ok proposed
  /\ ProfileUpdate_Apply update current = Ok (proposed, true)
  /\ (is_Some (badges_value (raw_Badges raw)) -> matchesProfileSnapshot raw (server_stored raw request) request = true).
Proof.
  intros (Hc & Hn & Ha & He & Ho & Hid & Hav)%decodeOwnProfile_Ok. unfold prepareOwnProfileUpdate.
  assert (Hclean : clean_profile current).
  { apply decode_name_clean in Hn as [Hg Hf]. apply decode_optional_clean in Ha, He. split; [|split; [|split]]; done. }
  destruct (ProfileUpdate_Apply update current) as [[p changed]|] eqn:Hap; [|done]. cbn. destruct changed; [cbn|done].
  destruct (Apply_clean _ _ _ _ Hclean Hap) as ((Hg & Hf & Hab & Hem) & Hid' & Hav').
  destruct (uuid_parse (pf_ACI current)) as [id|]; [|done]. destruct (GetCommitment key id), (GetProfileKeyVersion key id); try done.
  destruct (prepareProfileName random current p key (raw_Name raw)) as [name|] eqn:Hpn; [|done]. cbn. unfold prepareOptionalProfileText.
  destruct (prepare_optional (random TextAbout) _ _ _ _ _) as [about|] eqn:Hpa; [|done]. cbn.
  destruct (prepare_optional (random TextAboutEmoji) _ _ _ _ _) as [emoji|] eqn:Hpe; [|done]. cbn. intros [= <- <-].
  split; [|split; [done|]].
  - apply decodeOwnProfile_Ok. unfold server_stored. cbn. split_and!; [done| | | |done|congruence|congruence].
    + by eapply prepared_name.
    + by eapply prepared_optional.
    + by eapply prepared_optional.
  - intros [v Hv]. unfold matchesProfileSnapshot, preservedProfileMetadata, sameProfileBytes, server_stored. cbn.
    rewrite Hv, !(bool_decide_eq_true_2 (_ = _)) by done. cbn. repeat case_bool_decide; try done; congruence.
Qed.
End roundtrip.

(** ** The client's update *)

Section hooks.
Context {U : UuidLib} {L : ProfileLib} {W : Type} {E : ProfileEnv W}.

Lemma unlinked_keeps e w : is_Some e -> is_Some (unlinked e w).1.
Proof. intros [x ->]. unfold unlinked. by destruct (errIs x ErrDeviceUnlinked); eexists. Qed.

Lemma http_explains method path body w : let '(reply, accepted, _) := profileHTTPRequest method path body w in
  accepted = true \/ method = MethodGet \/ is_Some (error_of reply).
Proof.
  unfold profileHTTPRequest. destruct (pe_http _ _ _ _) as [[e|status reply] w']; [right; right; by eexists|].
  destruct (profileResponseStatus method status) eqn:Es; [right; right; by eexists|]. unfold profileResponseStatus in Es. destruct method; [by right; left|].
  left. rewrite (bool_decide_eq_true_2 (MethodPut = MethodPut)) in * by done. cbn [andb] in *.
  destruct (_ || _); [done|]. destruct (status =? 412); [done|]. destruct (500 <=? status); [done|].
  destruct (status <? 200) eqn:E1; [done|]. destruct (300 <=? status) eqn:E2; [done|]. bool_hyps.
  apply andb_true_iff. split; [apply Z.leb_le|apply Z.ltb_lt]; done.
Qed.

(** A write that was not accepted has an error. *)
Lemma write_explains key request w w' : write_profile key request w <> ((false, None), w').
Proof.
  unfold write_profile. destruct (pe_Marshal request) as [body|e]; [|done]. destruct (checkProfileKey key w) as [[ke|] w1]; [done|].
  pose proof (http_explains MethodPut "/v1/profile" body w1) as H. destruct (profileHTTPRequest _ _ _ w1) as [[reply accepted] w2].
  destruct (unlinked (error_of reply) w2) as [e w3] eqn:Eu. intros [= -> -> _]. destruct H as [H|[H|H]]; [done|done|].
  apply (unlinked_keeps _ w2) in H as [x H]. by rewrite Eu in H.
Qed.

End hooks.

(** ** At a concrete input *)

Import DemoUuid.

Definition demo_seal (plain : string) : string := (plain ++ "0123456789abcdef")%string.
Definition demo_pf_nonce : string := "nonce-12byte".
Definition demo_sealed (text : string) (size : nat) : bytes := Some (demo_pf_nonce ++ demo_seal (text ++ zeros (size - String.length text)))%string.
Definition demo_raw (name : bytes) : rawOwnProfile :=
  mkRaw demo_aci name (demo_sealed "out and about" 128) None None None (Some (zeros 497)) "avatar" None (Some [("other"%string, true)]).
Definition demo_name : string := ("Ada" ++ String nul "Lovelace")%string.
Definition demo_before : rawOwnProfile := demo_raw (demo_sealed demo_name 53).

Definition demo_profile_lib : ProfileLib := {|
  ProfileKey := unit; GetCommitment := fun _ _ _ => Ok "commitment"%string; GetProfileKeyVersion := fun _ _ _ => Ok "version"%string;
  gcm_Seal := fun _ _ plain => demo_seal plain;
  gcm_Open := fun _ _ sealed => Some (String.substring 0 (String.length sealed - 16) sealed);
  json_value := unit; json_null := tt; json_any := fun _ => Some tt; json_Valid := fun _ => true;
  json_profile := fun body => Some (if body == "before" then demo_before else demo_raw (demo_sealed ("Countess" ++ String nul "Lovelace") 53));
  json_capabilities := fun _ => Some (Some []) |}.
#[local] Existing Instance demo_profile_lib.
Lemma demo_profile_laws : ProfileLaws demo_profile_lib.
Proof.
  split.
  - intros key nonce plain. cbn. unfold demo_seal. by rewrite string_length_app.
  - intros key nonce plain. cbn. unfold demo_seal. f_equal. rewrite string_length_app. cbn.
    rewrite Nat.add_sub. apply substring_app_left.
Qed.
#[local] Existing Instance demo_profile_laws.

Definition demo_profile_key : ProfileKey := (tt : @ProfileKey demo_profile_lib).
Definition demo_update : ProfileUpdate := mkProfileUpdate (Some "Countess"%string) None None None.
Definition demo_random (t : profile_text) : res string := Ok demo_pf_nonce.
Definition demo_current : Profile := mkProfile demo_aci "Ada" "Lovelace" "out and about" "" "avatar".
Definition demo_proposed : Profile := mkProfile demo_aci "Countess" "Lovelace" "out and about" "" "avatar".

Lemma prepared_profile_reads_back_witness : exists request,
  decodeOwnProfile demo_before demo_aci demo_profile_key = Ok demo_current
  /\ prepareOwnProfileUpdate demo_random demo_before demo_current demo_profile_key demo_update = Ok (request, demo_proposed, true)
  /\ decodeOwnProfile (server_stored demo_before request) demo_aci demo_profile_key = Ok demo_proposed.
Proof.
  assert (Hd : decodeOwnProfile demo_before demo_aci demo_profile_key = Ok demo_current) by (vm_compute; reflexivity).
  destruct (prepareOwnProfileUpdate demo_random demo_before demo_current demo_profile_key demo_update) as [[[request proposed] changed]|e] eqn:Hp; [|vm_compute in Hp; discriminate].
  assert (Hs : proposed = demo_proposed /\ changed = true) by (vm_compute in Hp; injection Hp as _ <- <-; split; vm_compute; reflexivity). destruct Hs as [-> ->].
  exists request. split; [exact Hd|]. split; [reflexivity|].
  apply (prepared_profile_reads_back demo_random (fun t nonce H => ltac:(injection H as <-; reflexivity)) demo_before demo_aci demo_profile_key demo_update demo_current demo_proposed request Hd Hp).
Defined.

(** A world that knows whether the profile was written. *)
Definition demo_profile_env : ProfileEnv bool := {|
  pe_ownACI := demo_aci; pe_deviceACI := uuid_nil; pe_connected := fun _ => true; pe_begin := fun _ => true; pe_lost := fun _ => None;
  pe_client := fun _ => true; pe_begin_handling := fun _ => true; pe_lock := fun w => (None, w); pe_ctx_Err := fun w => (None, w);
  pe_draw := fun w => (demo_random, w); pe_MyProfileKey := io_ret (Some demo_profile_key); pe_ProfileKeyCredentialRequest := io_ret "cred"%string;
  pe_http := fun method path body w => match method with
    | MethodGet => (HttpStatus 200 (Ok (if w : bool then "after" else "before")%string), w)
    | MethodPut => (HttpStatus 200 (Ok "{}"%string), true) end;
  pe_MarkUnlinked := id; pe_Marshal := fun _ => Ok "{}"%string; pe_RetrieveProfileByID := fun w => (None, w); pe_sendLocalProfile := fun w => (None, w);
  pe_LoadAndUpdateRecipient := fun _ _ w => (None, w) |}.
#[local] Existing Instance demo_profile_env.

Definition demo_updated : (ProfileUpdateResult * error) * profile_state bool :=
  run_profile (updateOwnProfileOnce pe_ctx_Err pe_draw (ownProfileHooks demo_profile_key) pe_ownACI demo_profile_key demo_update) (mkProfileState [] false).

