(* ===== verification/Sync.v ===== *)
(** * The initial sync (internal/signal/meow_sync.go, sync.go)

    A sync asks the phone for its contact list and, if it is unknown, for the storage key, stores the
    storage service's records and checks that they were stored, settles the block overrides ([Blocked.v]) and
    says what it achieved. The phone, signalmeow and the stores are the class [SyncEnv] on top of
    [ContactStore]. Waiting ends after finitely many looks at the device table or the channels, with
    the context or with Close. *)

From S2P Require Import Prelude Errors Uuid Types SendCheck Wire Convert Blocked Accounts.

Inductive SyncStage := SyncRequestingContacts | SyncWaitingForKey | SyncFetchingStorage | SyncWaitingForContacts | SyncDone.
Definition stage_number (s : SyncStage) : Z :=
  match s with
  | SyncRequestingContacts => 1 | SyncWaitingForKey => 2 | SyncFetchingStorage => 3 | SyncWaitingForContacts => 4 | SyncDone => 5
  end.
Definition SyncStage_String (s : SyncStage) : string :=
  match s with
  | SyncRequestingContacts => "requesting contacts from the phone"
  | SyncWaitingForKey => "waiting for the storage key from the phone"
  | SyncFetchingStorage => "fetching contacts and groups from the storage service"
  | SyncWaitingForContacts => "waiting for the contact list from the phone"
  | SyncDone => "done"
  end.

(** What [ResolveStorageServiceKey] says of a device. *)
Inductive storage_key_forms := KeyUnknown | KeyUnusable (e : err) | KeyIs (key : string).
(** How a wait ends. *)
Inductive wait_end := WaitContext (e : err) | WaitClosed.

Section sync.
Context {U : UuidLib} {P : SignalPb}.

Class SyncEnv (W : Type) := {
  syncPendingIdentityVerification : W -> error * W;
  SendContactSyncRequest : W -> error * W;
  DeviceByACI : io W err (option storage_key_forms);
  SendStorageMasterKeyRequest : W -> error * W;
  key_wait : W -> (nat * wait_end) * W;
  sync_FetchStorage : string -> io W err (option block_update);
  ApplyStorage : block_update -> W -> error * W;
  groupIDFromMasterKey : string -> res string;
  knownGroup : string -> io W err bool;
  contact_wait : W -> result wait_end Z * W;
  sync_done : W -> bool;
  GroupIdentifiers : string -> io W err (list string);
  SetMeta : Z -> W -> error * W;
}.

(** The overrides and stores, the stages reported and the time recorded in the database. *)
Record sync_state (W : Type) := mkSyncState { sy_b : bstate W; sy_stages : list SyncStage; sy_last : option Z }.
Arguments mkSyncState {W}. Arguments sy_b {W}. Arguments sy_stages {W}. Arguments sy_last {W}.

Section operations.
Context {W : Type} {S : ContactStore W} {E : SyncEnv W}.
Notation M := (io (sync_state W) err).

Definition on_b {A} (m : io (bstate W) err A) : M A := fun s => let (r, b) := m (sy_b s) in (r, mkSyncState b (sy_stages s) (sy_last s)).
Definition sync_call {A} (m : io W err A) : M A := on_b (lift_b m).
Definition sync_try {A} (m : W -> A * W) : M A := sync_call (fun w => let (a, w) := m w in (Ok a, w)).
Definition see {A} (f : W -> A) : M A := fun s => (Ok (f (bs_world (sy_b s))), s).
Definition Report (stage : SyncStage) : M unit := fun s => (Ok tt, mkSyncState (sy_b s) (sy_stages s ++ [stage]) (sy_last s)).
Definition wrap_sync {A} (m : M A) : M A := let* r := io_try m in match r with Ok a => io_ret a | Err e => io_err (Wrap [e]) end.

(** *** The storage key *)

Definition sync_storedStorageKey : M (option string) :=
  let* device := wrap_sync (sync_call DeviceByACI) in
  match device with
  | None | Some KeyUnknown => io_ret None
  | Some (KeyUnusable e) => io_err (Wrap [Sent errStorageKeyForms; e])
  | Some (KeyIs key) => io_ret (Some key)
  end.
Definition storageKeyDecided (r : res (option string)) : bool :=
  match r with
  | Ok (Some _) => true
  | Ok None => false
  | Err e => negb (errIs e errStorageKeyForms)
  end.

(** The loop of [storageKey], which looks at most [looks] times before the wait ends. *)
Fixpoint poll_key (looks : nat) (ends : wait_end) : M (option string) :=
  match looks with
  | O => io_err (match ends with WaitContext e => Wrap [e] | WaitClosed => Sent ErrClosed end)
  | Datatypes.S looks =>
      let* r := io_try sync_storedStorageKey in
      if storageKeyDecided r then io_of r else poll_key looks ends
  end.
Definition storageKey : M (option string) :=
  let* r := io_try sync_storedStorageKey in
  if storageKeyDecided r then io_of r
  else
    let* _ := Report SyncWaitingForKey in
    let* e := sync_try SendStorageMasterKeyRequest in
    match e with
    | Some e => io_err (Wrap [e])
    | None => let* wait := sync_try key_wait in poll_key wait.1 wait.2
    end.

(** *** Storing the storage service *)

Definition contactMissing (c : BlockContact) : M bool :=
  match ParseStringOrBinaryUUID (bcr_Aci c) (bcr_AciBinary c) with
  | Some aci =>
      if aci == uuid_nil then io_ret false
      else let* row := wrap_sync (sync_call (LoadRecipientByACI aci)) in io_ret (match row with None => true | Some _ => false end)
  | None => io_ret false
  end.
Definition groupMissing (g : BlockGroup) : M bool :=
  if negb (slen (bgr_MasterKey g) =? GroupMasterKeyLength) then io_ret false
  else match groupIDFromMasterKey (bgr_MasterKey g) with
       | Err e => io_err (Wrap [e])
       | Ok gid => let* known := wrap_sync (sync_call (knownGroup gid)) in io_ret (negb known)
       end.
Definition recordMissing (record : block_record) : M (bool * bool) :=
  match record with
  | RecContact c => let* missing := contactMissing c in io_ret (missing, false)
  | RecGroupV2 g => let* missing := groupMissing g in io_ret (false, missing)
  | RecOther => io_ret (false, false)
  end.

Fixpoint count_missing (records : list block_record) (contacts groups : Z) : M (Z * Z) :=
  match records with
  | [] => io_ret (contacts, groups)
  | record :: rest =>
      let* missing := recordMissing record in
      count_missing rest (if missing.1 then contacts + 1 else contacts) (if missing.2 then groups + 1 else groups)
  end.
Definition verifyStorageStored (update : option block_update) : M unit :=
  match update with
  | None => io_ret tt
  | Some update =>
      if negb has_loader then io_err (Opaque "no loader")
      else
        let* missing := count_missing (bku_NewRecords update) 0 0 in
        if (0 <? missing.1) || (0 <? missing.2) then io_err (errorf ErrStorageNotStored) else io_ret tt
  end.

Definition syncStorage (key : string) : M (option block_update) :=
  let* update := wrap_sync (sync_call (sync_FetchStorage key)) in
  match update with
  | None => io_ret None
  | Some u =>
      let* e := sync_try (ApplyStorage u) in
      match e with
      | Some e => io_err (Wrap [e])
      | None => let* _ := wrap_sync (verifyStorageStored (Some u)) in io_ret (Some u)
      end
  end.

Definition waitContactList : M bool :=
  let* r := sync_try contact_wait in
  match r with
  | Ok _ => io_ret true
  | Err (WaitContext e) => io_err (Wrap [e])
  | Err WaitClosed => io_err (Sent ErrClosed)
  end.

(** *** The stages *)

Definition with_master (r : SyncResult) : SyncResult := mkSyncResult (syn_Contacts r) (syn_Groups r) true (Storage r) (ContactList r).
Definition with_storage (r : SyncResult) : SyncResult := mkSyncResult (syn_Contacts r) (syn_Groups r) (MasterKey r) true (ContactList r).
Definition with_contacts (r : SyncResult) (arrived : bool) : SyncResult := mkSyncResult (syn_Contacts r) (syn_Groups r) (MasterKey r) (Storage r) arrived.
Definition zeroSync : SyncResult := mkSyncResult 0 0 false false false.

(** The storage stage of [runSync], when a key is known. *)
Definition sync_storage_stage (key : string) (res : SyncResult) : M (SyncResult * list err) :=
  let* _ := Report SyncFetchingStorage in
  let* r := io_try (syncStorage key) in
  match r with
  | Err e => io_ret (with_master res, [e])
  | Ok update => let* _ := on_b (storageFetched update) in io_ret (with_storage (with_master res), [])
  end.
Definition sync_contacts_stage (requested : bool) (res : SyncResult) : M (SyncResult * list err) :=
  if negb requested then io_ret (res, [])
  else
    let* _ := Report SyncWaitingForContacts in
    let* r := io_try waitContactList in
    io_ret (match r with Ok arrived => (with_contacts res arrived, []) | Err e => (with_contacts res false, [e]) end).

(** [runSync]: what was achieved and what went wrong. *)
Definition runSync : M (SyncResult * list err) :=
  let* ie := sync_try syncPendingIdentityVerification in
  let problems := match ie with Some e => [Wrap [Sent errIdentityVerificationPending; e]] | None => [] end in
  let* _ := Report SyncRequestingContacts in
  let* ce := sync_try SendContactSyncRequest in
  let problems := problems ++ match ce with Some e => [Wrap [e]] | None => [] end in
  let* kr := io_try storageKey in
  let problems := problems ++ match kr with Err e => [e] | Ok _ => [] end in
  let* stored := match kr with Ok (Some key) => sync_storage_stage key zeroSync | _ => io_ret (zeroSync, []) end in
  let* waited := sync_contacts_stage (match ce with None => true | Some _ => false end) stored.1 in
  io_ret (waited.1, problems ++ stored.2 ++ waited.2).

Definition syncCounts : M (Z * Z) :=
  let* contacts := wrap_sync (sync_call LoadAllContacts) in
  let* own := see cs_own_ACI in
  let* groups := wrap_sync (sync_call (GroupIdentifiers (uuid_string own))) in
  io_ret (len (filter (fun r => negb (rr_ACI r == own) = true) contacts), len groups).

Definition record_sync (now : Z) : M unit :=
  let* e := sync_try (SetMeta now) in
  match e with Some _ => io_ret tt | None => fun s => (Ok tt, mkSyncState (sy_b s) (sy_stages s) (Some now)) end.

Definition finishSync (res : SyncResult) (problems : list err) : M (SyncResult * error) :=
  let* closed := see sync_done in
  if closed || existsb (fun e => errIs e ErrClosed) problems then io_err (Sent ErrClosed)
  else
    let* lost := see cs_lost in
    match lost with
    | Some e => io_err (Wrap [e])
    | None =>
        let* counts := io_try syncCounts in
        match counts with
        | Err e => io_ret (mkSyncResult 0 0 (MasterKey res) (Storage res) (ContactList res), Some (Wrap [e]))
        | Ok (contacts, groups) =>
            let res := mkSyncResult contacts groups (MasterKey res) (Storage res) (ContactList res) in
            let* out :=
              (if existsb (fun e => errIs e errIdentityVerificationPending) problems then io_ret (Some (Wrap (Sent ErrSyncIncomplete :: problems)))
               else if SyncResult_Complete res then
                 let* now := on_b b_now in let* _ := record_sync now in io_ret None
               else io_ret (Some (Wrap (Sent ErrSyncIncomplete :: problems)))) in
            let* _ := Report SyncDone in
            io_ret (res, out)
        end
    end.

(** [Sync]; a failure without a result has the zero one. *)
Definition Sync : M (SyncResult * error) :=
  let* connected := see cs_connected in
  if negb connected then io_err (Sent ErrNotConnected)
  else
    let* _ := on_b begin_sending in
    let* lost := see cs_lost in
    match lost with
    | Some e => io_err (Wrap [e])
    | None => let* ran := runSync in finishSync ran.1 ran.2
    end.
End operations.
End sync.
#[global] Arguments mkSyncState {U W}.
#[global] Arguments sy_b {U W}.
#[global] Arguments sy_stages {U W}.
#[global] Arguments sy_last {U W}.

(** ** What a sync did *)

Section spec.
Context {U : UuidLib} {UL : UuidLaws U} {P : SignalPb} {PL : SignalPbLaws P} {W : Type} {S : ContactStore W} {E : SyncEnv W}.
Notation M := (io (sync_state W) err).

(** Steps that report nothing, record nothing and leave overrides, messages and flags alone. *)
Definition same (s s' : sync_state W) : Prop :=
  sy_stages s' = sy_stages s /\ sy_last s' = sy_last s /\ kept (sy_b s) (sy_b s').
#[export] Instance same_preorder : PreOrder same.
Proof.
  split; [by intros s|]. intros s1 s2 s3 (?&?&?) (?&?&?). split_and!; try congruence. by transitivity (sy_b s2).
Qed.
Definition still {A} (m : M A) (Q : A -> Prop) : Prop := forall s, let (r, s') := m s in
  same s s' /\ match r with Ok a => Q a | Err _ => True end.

Lemma still_ret {A} (a : A) (Q : A -> Prop) : Q a -> still (io_ret a) Q.
Proof. intros H s. done. Qed.
Lemma still_err {A} e (Q : A -> Prop) : still (io_err e) Q.
Proof. intros s. done. Qed.
Lemma still_of {A} (r : res A) (Q : A -> Prop) : (forall a, r = Ok a -> Q a) -> still (io_of r) Q.
Proof. intros H s. cbn. split; [done|]. destruct r; [by apply H|done]. Qed.
Lemma still_bind {A B} (m : M A) (f : A -> M B) Q R : still m Q -> (forall a, Q a -> still (f a) R) -> still (let* a := m in f a) R.
Proof.
  intros Hm Hf s. unfold io_bind. specialize (Hm s). destruct (m s) as [[a|e] s1]; destruct Hm as [Hs Hq]; [|done].
  specialize (Hf a Hq s1). destruct (f a s1) as [r s2]. destruct Hf as [Hs' Hr]. split; [by transitivity s1|done].
Qed.
Lemma still_try {A} (m : M A) Q : still m Q -> still (io_try m) (fun r => match r with Ok a => Q a | Err _ => True end).
Proof. intros Hm s. unfold io_try. specialize (Hm s). by destruct (m s) as [[a|e] s1]. Qed.
Lemma still_wrap {A} (m : M A) Q : still m Q -> still (wrap_sync m) Q.
Proof. intros Hm. eapply still_bind; [by apply still_try|]. intros [a|e] Ha; [by apply still_ret|apply still_err]. Qed.
Lemma still_call {A} (m : io W err A) (Q : A -> Prop) : (forall w a w', m w = (Ok a, w') -> Q a) -> still (sync_call m) Q.
Proof.
  intros HQ s. unfold sync_call, on_b, lift_b. destruct (m (bs_world (sy_b s))) as [[a|e] w] eqn:Em; split; try done. by eapply HQ.
Qed.
Lemma still_any {A} (m : io W err A) : still (sync_call m) (fun _ => True).
Proof. by apply still_call. Qed.
Lemma still_see {A} (f : W -> A) : still (see f) (fun _ => True).
Proof. intros s. done. Qed.
Lemma still_asked {A} (m : W -> A * W) : still (sync_try m) (fun a => exists w w', m w = (a, w')).
Proof.
  intros s. unfold sync_try, sync_call, on_b, lift_b. destruct (m (bs_world (sy_b s))) as [a w] eqn:Em. split; [done|]. by eauto.
Qed.

Lemma asked_run {A} (m : W -> A * W) s : exists a s', sync_try m s = (Ok a, s') /\ same s s'.
Proof. unfold sync_try, sync_call, on_b, lift_b. destruct (m (bs_world (sy_b s))) as [a w]. eexists _, _. by split. Qed.

Lemma still_stored_key : still sync_storedStorageKey (fun _ => True).
Proof.
  eapply still_bind; [apply still_wrap, still_any|]. intros [[|e|key]|] _; try by apply still_ret. apply still_err.
Qed.
Lemma still_poll looks ends : still (poll_key looks ends) (fun _ => True).
Proof.
  induction looks as [|looks IH]; cbn [poll_key]; [destruct ends; apply still_err|].
  eapply still_bind; [apply still_try, still_stored_key|]. intros r _. destruct (storageKeyDecided r); [by apply still_of|done].
Qed.

(** *** Records in the store *)

(** A record is in the store: the user or the group was found there. Records without a valid ACI or key are skipped. *)
Definition in_store (record : block_record) : Prop :=
  match record with
  | RecContact c => match ParseStringOrBinaryUUID (bcr_Aci c) (bcr_AciBinary c) with
      | Some aci => aci = uuid_nil \/ exists row w w', LoadRecipientByACI aci w = (Ok (Some row), w')
      | None => True end
  | RecGroupV2 g => slen (bgr_MasterKey g) <> GroupMasterKeyLength
      \/ exists gid w w', groupIDFromMasterKey (bgr_MasterKey g) = Ok gid /\ knownGroup gid w = (Ok true, w')
  | RecOther => True
  end.

Lemma still_missing record : still (recordMissing record) (fun m => m.1 = false -> m.2 = false -> in_store record).
Proof.
  destruct record as [c|g|]; cbn [recordMissing in_store].
  - eapply (still_bind _ _ (fun missing => missing = false -> in_store (RecContact c))); [|intros b Hb; apply still_ret; intros Hb1 _; exact (Hb Hb1)].
    unfold contactMissing, in_store. destruct (ParseStringOrBinaryUUID _ _) as [aci|]; [|by apply still_ret].
    destruct (aci == uuid_nil) eqn:En; [apply still_ret; intros _; left; by bool_hyps|].
    eapply still_bind; [apply still_wrap, (still_call _ (fun r => exists w w', LoadRecipientByACI aci w = (Ok r, w'))); intros w a w' Hl; by exists w, w'|].
    intros [row|] (w & w' & Hl); apply still_ret; [|done]. intros _. right. by exists row, w, w'.
  - eapply (still_bind _ _ (fun missing => missing = false -> in_store (RecGroupV2 g))); [|intros b Hb; apply still_ret; intros _ Hb2; exact (Hb Hb2)].
    unfold groupMissing, in_store. destruct (slen _ =? _) eqn:En; cbn [negb]; [|apply still_ret; intros _; left; by apply Z.eqb_neq].
    destruct (groupIDFromMasterKey _) as [gid|e]; [|apply still_err].
    eapply still_bind; [apply still_wrap, (still_call _ (fun b => exists w w', knownGroup gid w = (Ok b, w'))); intros w a w' Hl; by exists w, w'|].
    intros b (w & w' & Hk). apply still_ret. intros ->%negb_false_iff. right. by exists gid, w, w'.
  - by apply still_ret.
Qed.
Lemma still_count records : forall contacts groups, 0 <= contacts -> 0 <= groups ->
  still (count_missing records contacts groups) (fun n => contacts <= n.1 /\ groups <= n.2 /\ (n.1 = 0 -> n.2 = 0 -> Forall in_store records)).
Proof.
  induction records as [|record rest IH]; intros contacts groups Hc Hg; cbn [count_missing]; [apply still_ret; cbn; split_and!; try lia; by constructor|].
  eapply still_bind; [apply still_missing|]. intros [mc mg] Hm. cbn [fst snd] in *.
  intros s. specialize (IH (if mc then contacts + 1 else contacts) (if mg then groups + 1 else groups) ltac:(destruct mc; lia) ltac:(destruct mg; lia) s).
  destruct (count_missing _ _ _ s) as [[n|e] s']; destruct IH as [Hs IH]; (split; [done|]); [|done]. destruct IH as (H1 & H2 & H3).
  split; [destruct mc; lia|]. split; [destruct mg; lia|]. intros E1 E2. constructor; [|by apply H3].
  apply Hm; [destruct mc; [lia|done]|destruct mg; [lia|done]].
Qed.

(** The update was fetched, applied without an error, and everything of it is in the store. *)
Definition storage_stored (key : string) (update : option block_update) : Prop :=
  (exists w w', sync_FetchStorage key w = (Ok update, w'))
  /\ match update with
     | None => True
     | Some u => (exists w w', ApplyStorage u w = (None, w')) /\ Forall in_store (bku_NewRecords u)
     end.
Lemma still_verify u : still (verifyStorageStored (Some u)) (fun _ => Forall in_store (bku_NewRecords u)).
Proof.
  cbn [verifyStorageStored]. destruct (negb has_loader); [apply still_err|]. eapply still_bind; [apply still_count; lia|].
  intros [c g] (Hc & Hg & Hin). cbn [fst snd] in *. destruct (_ || _) eqn:En; [apply still_err|]. apply still_ret. bool_hyps. apply Hin; lia.
Qed.
Lemma still_storage key : still (syncStorage key) (storage_stored key).
Proof.
  eapply still_bind; [apply still_wrap, (still_call _ (fun u => exists w w', sync_FetchStorage key w = (Ok u, w'))); intros w a w' Hl; by exists w, w'|].
  intros [u|] Hf; [|by apply still_ret]. eapply still_bind; [apply still_asked|]. intros [e|] Ha; [apply still_err|].
  eapply still_bind; [apply still_wrap, still_verify|]. intros [] Hin. by apply still_ret.
Qed.

(** *** The stages *)

(** In increasing order. *)
Fixpoint increasing (last : Z) (stages : list SyncStage) : Prop :=
  match stages with [] => True | s :: rest => last < stage_number s /\ increasing (stage_number s) rest end.

(** A step that reports [new], sends nothing and records nothing. *)
Definition reports (new : list SyncStage) (s s' : sync_state W) : Prop :=
  sy_stages s' = sy_stages s ++ new /\ sy_last s' = sy_last s /\ bs_sent (sy_b s') = bs_sent (sy_b s).
Lemma same_reports s s' : same s s' -> reports [] s s'.
Proof. intros (Hs & Hl & _ & Hk & _). unfold reports. by rewrite app_nil_r. Qed.
Lemma reports_trans new new' s1 s2 s3 : reports new s1 s2 -> reports new' s2 s3 -> reports (new ++ new') s1 s3.
Proof. intros (H1 & H2 & H3) (H4 & H5 & H6). unfold reports. split_and!; try congruence. by rewrite H4, H1, app_assoc. Qed.

Lemma storageKey_run s : exists new, let (r, s') := storageKey s in
  reports new s s' /\ bs_overrides (sy_b s') = bs_overrides (sy_b s) /\ (new = [] \/ new = [SyncWaitingForKey]).
Proof.
  unfold storageKey. pose proof (still_try _ _ still_stored_key s) as H1. unfold io_bind at 1. destruct (io_try sync_storedStorageKey s) as [[r|e] s1].
  2: { exists []. destruct H1 as [H1 _]. split; [by apply same_reports|]. split; [apply H1|by left]. }
  destruct (storageKeyDecided r). { exists []. destruct H1 as [H1 _]. cbn. split; [by apply same_reports|]. split; [apply H1|by left]. }
  exists [SyncWaitingForKey]. unfold io_bind at 1, Report. set (s2 := mkSyncState _ _ _).
  assert (Hrest : still (let* e := sync_try SendStorageMasterKeyRequest in
      match e with Some e => io_err (Wrap [e]) | None => let* wait := sync_try key_wait in poll_key wait.1 wait.2 end) (fun _ => True)).
  { eapply still_bind; [apply still_asked|]. intros [e|] _; [apply still_err|]. eapply still_bind; [apply still_asked|]. intros wait _. apply still_poll. }
  specialize (Hrest s2). cbv beta in Hrest. destruct (io_bind _ _ s2) as [r2 s3]. destruct Hrest as [H3 _]. destruct H1 as [H1 _].
  split; [|split; [|by right]].
  - destruct H1 as (? & ? & ? & ? & ?), H3 as (? & ? & ? & ? & ?). unfold s2 in *. cbn in *. unfold reports. split_and!; congruence.
  - destruct H1 as (? & ? & ? & ? & ?), H3 as (? & ? & ? & ? & ?). unfold s2 in *. cbn in *. congruence.
Qed.

(** The overrides after a stage: as they were, or settled against what was fetched. *)
Definition maybe_settled (res : SyncResult) (s s' : sync_state W) : Prop :=
  if Storage res then
    exists key update now b, storage_stored key update /\ bs_overrides b = bs_overrides (sy_b s)
      /\ settles (readStorage update) now (overrides_of (bs_overrides (sy_b s))) b (sy_b s')
  else bs_overrides (sy_b s') = bs_overrides (sy_b s).

Lemma storage_stage_run key res s : Storage res = false -> exists res' es s',
  sync_storage_stage key res s = (Ok (res', es), s') /\ reports [SyncFetchingStorage] s s' /\ maybe_settled res' s s'
  /\ MasterKey res' = true /\ ContactList res' = ContactList res.
Proof.
  intros Hres. unfold sync_storage_stage, io_bind at 1, Report. set (s1 := mkSyncState _ _ _). unfold io_bind at 1, io_try.
  pose proof (still_storage key s1) as H. destruct (syncStorage key s1) as [[update|e] s2]; destruct H as [(H1 & H2 & H3 & H4 & H5) Hst].
  - unfold io_bind, on_b. unfold storageFetched, settleOverrides, b_now, lift_b, io_bind. destruct (cs_now (bs_world (sy_b s2))) as [now w].
    set (b := mkBState (bs_overrides (sy_b s2)) (bs_sent (sy_b s2)) (bs_stored (sy_b s2)) w).
    destruct (settling_locked (readStorage update) now b) as (b' & -> & Hb). cbn. do 3 eexists. split; [done|].
    split; [|split; [|done]].
    + destruct Hb as (Hsent & _). unfold reports, b, s1 in *. cbn in *. split_and!; congruence.
    + unfold maybe_settled. cbn. exists key, update, now, b. split; [done|]. split; [unfold b, s1 in *; cbn in *; congruence|].
      replace (bs_overrides (sy_b s)) with (bs_overrides b) by (unfold b, s1 in *; cbn in *; congruence). done.
  - do 3 eexists. split; [done|]. split; [unfold reports, s1 in *; cbn in *; split_and!; congruence|]. split; [|done].
    unfold maybe_settled. cbn. rewrite Hres. unfold s1 in *. cbn in *. congruence.
Qed.

Lemma contacts_stage_run requested res s : exists res' es s' new,
  sync_contacts_stage requested res s = (Ok (res', es), s') /\ reports new s s' /\ kept (sy_b s) (sy_b s')
  /\ (new = [] \/ new = [SyncWaitingForContacts]) /\ MasterKey res' = MasterKey res /\ Storage res' = Storage res
  /\ (ContactList res' = true -> ContactList res = true \/ exists w n w', contact_wait w = (Ok n, w')).
Proof.
  unfold sync_contacts_stage. destruct requested; cbn [negb].
  2: { exists res, [], s, []. split; [done|]. split; [by apply same_reports|]. split_and!; try done; by left. }
  unfold io_bind at 1, Report. set (s1 := mkSyncState _ _ _).
  assert (Hw : still waitContactList (fun b => b = true -> exists w n w', contact_wait w = (Ok n, w'))).
  { eapply still_bind; [apply still_asked|]. intros [n|[e|]] (w & w' & Hc); [|apply still_err|apply still_err]. apply still_ret. intros _. by exists w, n, w'. }
  unfold io_bind at 1, io_try. specialize (Hw s1). destruct (waitContactList s1) as [[b|e] s2]; destruct Hw as [(H1 & H2 & H3 & H4 & H5) Hb];
    (do 3 eexists; exists [SyncWaitingForContacts]; split; [done|]); unfold reports, kept, s1 in *; cbn in *; split_and!; try congruence; try (by right); auto; discriminate.
Qed.

Lemma maybe_settled_kept res res' s s' s'' : maybe_settled res s s' -> Storage res' = Storage res -> kept (sy_b s') (sy_b s'') -> maybe_settled res' s s''.
Proof.
  unfold maybe_settled. intros H -> Hk. destruct (Storage res); [|destruct Hk as [-> _]; done].
  destruct H as (key & update & now & b & Hst & Hb & Hs). exists key, update, now, b. split; [done|]. split; [done|].
  eapply settles_trans; [exact Hs|by apply settles_kept].
Qed.
Lemma maybe_settled_from res s0 s s' : bs_overrides (sy_b s) = bs_overrides (sy_b s0) -> maybe_settled res s s' -> maybe_settled res s0 s'.
Proof. unfold maybe_settled. by intros ->. Qed.

(** What the stages gave. *)
Definition stages_run (res : SyncResult) (s s' : sync_state W) : Prop :=
  maybe_settled res s s' /\ (Storage res = true -> MasterKey res = true)
  /\ (ContactList res = true -> exists w n w', contact_wait w = (Ok n, w')).

Lemma stages_tail (stored : M (SyncResult * list err)) requested problems s0 s :
  bs_overrides (sy_b s) = bs_overrides (sy_b s0) ->
  (exists res es s1 new, stored s = (Ok (res, es), s1) /\ reports new s s1 /\ maybe_settled res s s1 /\ (Storage res = true -> MasterKey res = true)
     /\ ContactList res = false /\ (new = [] \/ new = [SyncFetchingStorage])) ->
  exists ran s' new, (let* stored := stored in let* waited := sync_contacts_stage requested stored.1 in
      io_ret (waited.1, problems ++ stored.2 ++ waited.2)) s = (Ok ran, s')
    /\ reports new s s' /\ stages_run ran.1 s0 s' /\ (exists n1 n2, new = n1 ++ n2 /\ (n1 = [] \/ n1 = [SyncFetchingStorage]) /\ (n2 = [] \/ n2 = [SyncWaitingForContacts])).
Proof.
  intros H0 (res & es & s1 & new & Hst & Hr & Hm & Hmk & Hc & Hn). unfold io_bind at 1. rewrite Hst. cbn [fst snd].
  destruct (contacts_stage_run requested res s1) as (res' & es' & s2 & new' & Hw & Hr' & Hk & Hn' & Hmk' & Hst' & Hcl).
  unfold io_bind. rewrite Hw. cbn. exists (res', problems ++ es ++ es'), s2, (new ++ new'). split; [done|].
  split; [by eapply reports_trans|]. split; [|by exists new, new']. split; [|split].
  - eapply maybe_settled_from; [exact H0|]. by eapply maybe_settled_kept.
  - cbn. rewrite Hst', Hmk'. done.
  - intros H. destruct (Hcl H) as [H'|H']; [congruence|done].
Qed.

Lemma runSync_run s : exists ran s' new, runSync s = (Ok ran, s') /\ reports new s s' /\ stages_run ran.1 s s'
  /\ increasing 0 (new ++ [SyncDone]).
Proof.
  unfold runSync. unfold io_bind at 1. destruct (asked_run syncPendingIdentityVerification s) as (ie & s1 & -> & H1).
  unfold io_bind at 1, Report. set (s2 := mkSyncState (sy_b s1) _ _).
  unfold io_bind at 1. destruct (asked_run SendContactSyncRequest s2) as (ce & s3 & -> & H3).
  unfold io_bind at 1, io_try. destruct (storageKey_run s3) as (new & Hk). destruct (storageKey s3) as [kr s4]. destruct Hk as (Hr & Ho & Hn).
  assert (Hover : bs_overrides (sy_b s4) = bs_overrides (sy_b s)).
  { destruct H1 as (_ & _ & H1 & _), H3 as (_ & _ & H3 & _). unfold s2 in *. cbn in *. congruence. }
  assert (Hrep : reports ([SyncRequestingContacts] ++ new) s s4).
  { apply same_reports in H1, H3. eapply (reports_trans _ _ _ s3); [|done]. eapply (reports_trans [] [SyncRequestingContacts] _ s1); [done|].
    eapply (reports_trans [SyncRequestingContacts] [] _ s2); [|done]. done. }
  cbv zeta. match goal with |- context [io_bind ?st _ s4] => set (stage := st) end.
  assert (Hstage : exists res es s5 new, stage s4 = (Ok (res, es), s5) /\ reports new s4 s5 /\ maybe_settled res s4 s5
     /\ (Storage res = true -> MasterKey res = true) /\ ContactList res = false /\ (new = [] \/ new = [SyncFetchingStorage])).
  { assert (Hnone : exists res es s5 new, (io_ret (zeroSync, []) : M (SyncResult * list err)) s4 = (Ok (res, es), s5) /\ reports new s4 s5 /\ maybe_settled res s4 s5
     /\ (Storage res = true -> MasterKey res = true) /\ ContactList res = false /\ (new = [] \/ new = [SyncFetchingStorage])).
    { exists zeroSync, [], s4, []. split; [done|]. split; [by apply same_reports|]. split_and!; try done. by left. }
    unfold stage. destruct kr as [[key|]|e]; [|exact Hnone|exact Hnone].
    destruct (storage_stage_run key zeroSync s4 eq_refl) as (res & es & s5 & -> & Hr5 & Hm & Hmk & Hcl).
    exists res, es, s5, [SyncFetchingStorage]. split_and!; try done. by right. }
  match goal with |- context [sync_contacts_stage ?req _] => match goal with |- context [io_ret (_, ?problems ++ _ ++ _)] =>
    destruct (stages_tail stage req problems s s4 Hover Hstage) as (ran & s' & new' & Hrun & Hr' & Hs & n1 & n2 & -> & Hn1 & Hn2) end end. rewrite Hrun.
  exists ran, s', ([SyncRequestingContacts] ++ new ++ n1 ++ n2). split; [done|]. split; [rewrite app_assoc; by eapply reports_trans|]. split; [done|].
  destruct Hn as [->| ->], Hn1 as [->| ->], Hn2 as [->| ->]; cbn; lia.
Qed.

(** What [finishSync] says about the stages: [res] with the counts, and the error. *)
Definition outcome (res out : SyncResult) (e : error) (new : list SyncStage) (s s' : sync_state W) : Prop :=
  MasterKey out = MasterKey res /\ Storage out = Storage res /\ ContactList out = ContactList res
  /\ match e with
     | None => SyncResult_Complete out = true /\ new = [SyncDone]
     | Some e => sy_last s' = sy_last s
         /\ ((errIs e ErrSyncIncomplete = true /\ new = [SyncDone]) \/ (syn_Contacts out = 0 /\ syn_Groups out = 0 /\ new = []))
     end.

Lemma still_counts : still syncCounts (fun _ => True).
Proof.
  eapply still_bind; [apply still_wrap, still_any|]. intros cs _. eapply still_bind; [apply still_see|]. intros own _.
  eapply still_bind; [apply still_wrap, still_any|]. intros gs _. by apply still_ret.
Qed.
Lemma record_run now s : exists s', record_sync now s = (Ok tt, s') /\ sy_stages s' = sy_stages s /\ kept (sy_b s) (sy_b s').
Proof.
  unfold record_sync, io_bind. destruct (asked_run (SetMeta now) s) as (e & s1 & -> & (Hs & Hl & Hk)). destruct e; (eexists; split; [done|]); done.
Qed.

Lemma finishSync_run res problems s : let (r, s') := finishSync res problems s in exists new,
  sy_stages s' = sy_stages s ++ new /\ kept (sy_b s) (sy_b s')
  /\ match r with
     | Err _ => sy_last s' = sy_last s /\ new = []
     | Ok (out, e) => outcome res out e new s s'
     end.
Proof.
  assert (Hsame : forall s1, same s s1 -> exists new, sy_stages s1 = sy_stages s ++ new /\ kept (sy_b s) (sy_b s1) /\ sy_last s1 = sy_last s /\ new = []).
  { intros s1 (H1 & H2 & H3). exists []. by rewrite app_nil_r. }
  assert (Hfail : forall e, errIs (Wrap (Sent ErrSyncIncomplete :: e)) ErrSyncIncomplete = true) by (intros e; by rewrite errIs_Wrap).
  unfold finishSync, see. unfold io_bind at 1. destruct (_ || _); [by apply Hsame|].
  unfold io_bind at 1. destruct (cs_lost _); [by apply Hsame|]. unfold io_bind at 1, io_try. pose proof (still_counts s) as Hc.
  destruct (syncCounts s) as [[[contacts groups]|e] s1]; destruct Hc as [(H1 & H2 & H3) _].
  2: { cbn. exists []. rewrite app_nil_r. split; [done|]. split; [exact H3|]. do 3 (split; [done|]). split; [done|by right]. }
  unfold io_bind at 1. destruct (existsb _ problems).
  { cbn. exists [SyncDone]. split; [congruence|]. split; [exact H3|]. do 3 (split; [done|]). split; [done|left; by split; [apply Hfail|]]. }
  destruct (SyncResult_Complete _) eqn:Ec.
  2: { cbn. exists [SyncDone]. split; [congruence|]. split; [exact H3|]. do 3 (split; [done|]). split; [done|left; by split; [apply Hfail|]]. }
  unfold io_bind at 1, on_b, b_now, lift_b. destruct (cs_now (bs_world (sy_b s1))) as [now w].
  set (s2 := mkSyncState _ _ _). unfold io_bind at 1. destruct (record_run now s2) as (s3 & -> & Hs3 & Hk3). cbn.
  exists [SyncDone]. unfold s2 in *. cbn in *. split; [congruence|]. split; [by transitivity (sy_b s1); [|exact Hk3]|]. by split_and!.
Qed.

End spec.

(** ** At a concrete input *)

Import DemoUuid.
#[local] Existing Instance demo_pb.
#[local] Existing Instance demo_pb_laws.
#[local] Existing Instance demo_contacts.

(** The key arrives on the second look; storage has one blocked contact, who is not in the store, or nothing. *)
Definition demo_sync : SyncEnv (option block_update * Z) := {|
  syncPendingIdentityVerification := fun w => (None, w); SendContactSyncRequest := fun w => (None, w);
  DeviceByACI := fun w => (Ok (Some (if w.2 =? 0 then KeyUnknown else KeyIs "key")), w);
  SendStorageMasterKeyRequest := fun w => (None, (w.1, 1)); key_wait := fun w => ((2%nat, WaitClosed), w);
  sync_FetchStorage := fun _ w => (Ok w.1, w); ApplyStorage := fun _ w => (None, w); groupIDFromMasterKey := fun k => Ok k; knownGroup := fun _ => io_ret true;
  contact_wait := fun w => (Ok 3, w); sync_done := fun _ => false; GroupIdentifiers := fun _ => io_ret ["g"%string]; SetMeta := fun _ w => (None, w) |}.
#[local] Existing Instance demo_sync.

Definition demo_sync_state (update : option block_update) : sync_state (option block_update * Z) := mkSyncState (mkBState ∅ [] [] (update, 0)) [] None.
Definition demo_synced : res (SyncResult * error) * sync_state (option block_update * Z) := Sync (demo_sync_state (Some (mkBlockUpdate 4 [RecOther] []))).

(** A contact that storage has and the store lacks is an incomplete sync, which is not recorded. *)
Example a_missing_contact_is_reported :
  let out := Sync (demo_sync_state (Some (mkBlockUpdate 4 [demo_blocked_contact demo_aci] []))) in
  (match out.1 with Ok (res, Some e) => negb (Storage res) && errIs e ErrStorageNotStored | _ => false end) = true /\ sy_last out.2 = None.
Proof. by vm_compute. Qed.

