(* ===== verification/Downloads.v ===== *)
(** * Saving attachments (internal/app/download.go, stories.go, sticker.go, sticker_download.go, inbox.go)

    Received files are written to a download directory under names made from what their senders say.
    The files of directories are a map in [dstate]; the server and the failures of the operating system are the class
    [DownloadEnv]. Opening a file through an [os.Root] with [O_CREATE|O_EXCL] creates it or fails. *)

From S2P Require Import Prelude Errors Utf8 Strconv FilePath Types SendCheck.

Definition maxNameBytes : Z := 120.
Definition maxExtBytes : Z := 16.
Definition maxRenames : nat := 100.
#[global] Arguments maxRenames : simpl never.
Definition defaultName : string := "attachment".

(** ** File names *)

(** [strings.ToLower] and the non-ASCII letters, digits and marks. *)
Class NameTables := { name_ToLower : string -> string; letter_digit_mark : Z -> bool }.

Definition extension_of (contentType : string) : string :=
  if contentType == "application/pdf" then ".pdf"
  else if contentType == "audio/aac" then ".aac"
  else if contentType == "audio/mp4" then ".m4a"
  else if contentType == "audio/mpeg" then ".mp3"
  else if contentType == "audio/ogg" then ".ogg"
  else if contentType == "image/apng" then ".apng"
  else if contentType == "image/gif" then ".gif"
  else if contentType == "image/heic" then ".heic"
  else if contentType == "image/jpeg" then ".jpg"
  else if contentType == "image/png" then ".png"
  else if contentType == "image/webp" then ".webp"
  else if (contentType == "text/plain") || (contentType == "text/x-signal-plain") then ".txt"
  else if contentType == "video/mp4" then ".mp4"
  else if contentType == "video/quicktime" then ".mov"
  else "".

(** What follows the last separator of either kind, if there is one. *)
Fixpoint after_separator (s : string) : option string :=
  match s with
  | EmptyString => None
  | String a t => match after_separator t with
                  | Some rest => Some rest
                  | None => if (byte_of a =? 47) || (byte_of a =? 92) then Some t else None
                  end
  end.

Definition ascii_name_byte (b : Z) : bool :=
  in_range 97 122 b || in_range 65 90 b || in_range 48 57 b || (b =? 46) || (b =? 45) || (b =? 95).
Definition replacement : string := String (ascii_of 239) (String (ascii_of 191) (String (ascii_of 189) "")).
(** [WriteRune]. *)
Definition rune_text (c : chunk) : string := if ch_valid c then ch_text c else replacement.
Fixpoint ends_underscore (s : string) : bool :=
  match s with EmptyString => false | String a EmptyString => byte_of a =? 95 | String _ t => ends_underscore t end.
(** [strings.Trim] with a cutset of ASCII bytes. *)
Definition trim_bytes (f : Ascii.ascii -> bool) (s : string) : string := String.string_of_list_ascii (trim f (String.list_ascii_of_string s)).
Definition dot_underscore (a : Ascii.ascii) : bool := (byte_of a =? 46) || (byte_of a =? 95).

(** [strings.TrimSuffix]. *)
Definition TrimSuffix (s suffix : string) : string :=
  let n := (String.length s - String.length suffix)%nat in
  if String.substring n (String.length suffix) s == suffix then String.substring 0 n s else s.

Definition byte_at (s : string) (i : nat) : Z := match String.get i s with Some a => byte_of a | None => 0 end.
(** The loop of [shorten] back to a character boundary. *)
Fixpoint boundary (stem : string) (keep : nat) : nat :=
  match keep with O => O | S k => if cont (byte_at stem keep) then boundary stem k else keep end.
Definition shorten (name : string) (limit : Z) : string :=
  if slen name <=? limit then name
  else
    let ext := Ext name in
    let ext := if maxExtBytes <? slen ext then ""%string else ext in
    let stem := TrimSuffix name ext in
    (String.substring 0 (boundary stem (Z.to_nat (limit - slen ext))) stem ++ ext)%string.

Section names.
Context {T : NameTables}.

Definition extension (contentType : string) : string := extension_of (name_ToLower contentType).

Definition name_rune (r : Z) : bool := if r <? 128 then ascii_name_byte r else letter_digit_mark r.
Definition keep_rune (out : string) (c : chunk) : string :=
  if name_rune (ch_rune c) then (out ++ rune_text c)%string
  else if ends_underscore out then out
  else (out ++ "_")%string.
Definition sanitizeFilename (name : string) : string :=
  let name := default name (after_separator name) in
  let clean := trim_bytes dot_underscore (foldl keep_rune ""%string (decode name)) in
  if trim_bytes (fun a => byte_of a =? 45) clean == "" then ""%string else shorten clean maxNameBytes.

Definition AttachmentFilename (sent n : Z) (att : Attachment) : string :=
  let name := sanitizeFilename (att_Filename att) in
  let name := if name == "" then (defaultName ++ extension (att_ContentType att))%string else name in
  (FormatUint sent ++ "-" ++ FormatInt n ++ "-" ++ name)%string.
Definition sticker_name (sent id : Z) (contentType : string) : string :=
  (FormatUint sent ++ "-sticker-" ++ FormatUint id ++ extension contentType)%string.
End names.

(** [filepath.Join] of a directory and a name. *)
Definition Join (dir name : string) : string := Clean (if dir == "" then name else dir ++ String Separator name)%string.

(** ** Writing files *)

Record StickerData := mkStickerData { sd_Emoji : string; sd_Data : string; sd_ContentType : string }.

(** What opening a new file gives; the name may exist by then although the code did not create it. *)
Inductive create_answer := Created | Exists | CreateFailed (e : err).

Class DownloadEnv (W : Type) := {
  dl_Download : Attachment -> io W err string;
  dl_FetchSticker : StickerReference -> io W err StickerData;
  dl_MkdirAll : string -> W -> error * W;
  dl_Stat : string -> io W err bool;
  dl_OpenRoot : string -> W -> error * W;
  dl_create : string -> string -> W -> create_answer * W;
  dl_write : string -> W -> (string * error) * W;
  dl_Remove : string -> string -> W -> error * W;
}.

(** The files by directory and name. *)
Record dstate (W : Type) := mkDState { ds_files : gmap (string * string) string; ds_world : W }.
#[global] Arguments mkDState {W}.
#[global] Arguments ds_files {W}.
#[global] Arguments ds_world {W}.

Record SavedAttachment := mkSaved { sav_Image : option Attachment; sav_Path : string; sav_Err : error }.
Record MessageMediaResult := mkMedia { mmr_Attachments : list SavedAttachment; mmr_Sticker : option SavedAttachment }.
Record StoryMediaResult := mkStoryMedia { smr_File : option SavedAttachment; smr_Preview : option SavedAttachment }.
Record AttachmentResult := mkAttachmentResult { ar_Attachment : Attachment; ar_Path : string; ar_Data : string }.
Definition zeroAttachment : Attachment := mkAttachment "" "" 0 "" (mkRemote 0 0 "" "" "").
Definition zeroResult : AttachmentResult := mkAttachmentResult zeroAttachment "" "".

(** The names that [writeNewFile] tries. *)
Definition candidate (name : string) (i : nat) : string :=
  let ext := Ext name in
  if (1 <? i)%nat then (TrimSuffix name ext ++ "-" ++ FormatInt (Z.of_nat i) ++ ext)%string else name.

Section saving.
Context {T : NameTables} {W : Type} {D : DownloadEnv W}.
Notation M := (io (dstate W) err).

Definition on_disk {A} (m : io W err A) : M A := fun s => let (r, w) := m (ds_world s) in (r, mkDState (ds_files s) w).
Definition disk_try (m : W -> error * W) : M error := on_disk (fun w => let (e, w) := m w in (Ok e, w)).
Definition set_file (dir name : string) (f : option string) : M unit := fun s =>
  (Ok tt, mkDState (partial_alter (fun _ => f) (dir, name) (ds_files s)) (ds_world s)).
Definition wrap_disk {A} (m : M A) : M A := let* r := io_try m in match r with Ok a => io_ret a | Err e => io_err (Wrap [e]) end.

Definition PrepareDownloadDir (dir : string) : M unit :=
  let* e := disk_try (dl_MkdirAll dir) in
  match e with
  | Some e => io_err (Wrap [e])
  | None => let* isDir := wrap_disk (on_disk (dl_Stat dir)) in if isDir : bool then io_ret tt else io_err (errorf ErrNotADir)
  end.

(** [root.OpenFile]: whether the file was created; false if it exists. *)
Definition create_file (dir name : string) : M bool := fun s =>
  match ds_files s !! (dir, name) with
  | Some _ => (Ok false, s)
  | None => (let* answer := on_disk (fun w => let (a, w) := dl_create dir name w in (Ok a, w)) in
             match answer with
             | CreateFailed e => io_err (Wrap [e])
             | Exists => io_ret false
             | Created => let* _ := set_file dir name (Some ""%string) in io_ret true
             end) s
  end.
(** Writing and closing the new file, and removing it if that fails. *)
Definition fill_file (dir name data : string) : M unit :=
  let* written := on_disk (fun w => let (a, w) := dl_write data w in (Ok a, w)) in
  match written with
  | (_, None) => set_file dir name (Some data)
  | (part, Some e) =>
      let* _ := set_file dir name (Some part) in
      let* re := disk_try (dl_Remove dir name) in
      match re with
      | None => let* _ := set_file dir name None in io_err (Wrap [Wrap [e]])
      | Some re => io_err (Wrap [Wrap [e]; re])
      end
  end.

(** The loop of [writeNewFile], with the tries left. *)
Fixpoint write_tries (dir name data : string) (i tries : nat) : M string :=
  match tries with
  | O => io_err (errorf ErrFileExists)
  | S tries =>
      let* created := create_file dir (candidate name i) in
      if created then let* _ := fill_file dir (candidate name i) data in io_ret (Join dir (candidate name i))
      else write_tries dir name data (S i) tries
  end.
Definition writeNewFile (dir name data : string) : M string :=
  let* e := disk_try (dl_OpenRoot dir) in
  match e with Some e => io_err (Wrap [e]) | None => write_tries dir name data 1 maxRenames end.

Definition saveAttachment (dir name : string) (att : Attachment) : M string :=
  let* data := on_disk (dl_Download att) in wrap_disk (writeNewFile dir name data).

Definition saved_of (r : res string) : SavedAttachment :=
  match r with Ok path => mkSaved None path None | Err e => mkSaved None "" (Some e) end.
(** [i] is the index of the next attachment. *)
Fixpoint save_each (dir : string) (sent i : Z) (atts : list Attachment) : M (list SavedAttachment) :=
  match atts with
  | [] => io_ret []
  | att :: rest =>
      let* r := io_try (saveAttachment dir (AttachmentFilename sent (i + 1) att) att) in
      let* out := save_each dir sent (i + 1) rest in
      io_ret (saved_of r :: out)
  end.
Definition SaveAttachments (dir : string) (sent : Z) (atts : list Attachment) : M (list SavedAttachment) :=
  let* r := io_try (PrepareDownloadDir dir) in
  match r with
  | Err e => io_ret (const (mkSaved None "" (Some e)) <$> atts)
  | Ok _ => save_each dir sent 0 atts
  end.

(** *** Stickers *)

Definition stickerData (sticker : Sticker) : M (StickerData * bool) :=
  let ref := mkStickerRef (stk_PackID sticker) (stk_PackKey sticker) (stk_StickerID sticker) in
  let fetch : M (StickerData * bool) :=
    match StickerReference_Check ref with
    | Some e => io_err (Wrap [e])
    | None => let* data := wrap_disk (on_disk (dl_FetchSticker ref)) in io_ret (data, true)
    end in
  match stk_Image sticker with
  | None => fetch
  | Some image =>
      let* r := io_try (on_disk (dl_Download image)) in
      match r with
      | Ok data => io_ret (mkStickerData (stk_Emoji sticker) data (att_ContentType image), false)
      | Err e => if negb (errIs e ErrAttachmentNotFound) || is_set (StickerReference_Check ref) then io_err e else fetch
      end
  end.
Definition saveSticker (dir : string) (sent : Z) (msg : MessageContent) : M AttachmentResult :=
  match msg_Sticker msg with
  | None => io_err (Sent ErrNoAttachment)
  | Some sticker =>
      let* _ := PrepareDownloadDir dir in
      let* got := stickerData sticker in
      let '(data, fallback) := got in
      let* path := wrap_disk (writeNewFile dir (sticker_name sent (stk_StickerID sticker) (sd_ContentType data)) (sd_Data data)) in
      let '(filename, caption) := match stk_Image sticker with
        | Some image => if fallback : bool then (""%string, ""%string) else (att_Filename image, att_Caption image)
        | None => (""%string, ""%string) end in
      io_ret (mkAttachmentResult (mkAttachment (sd_ContentType data) filename (slen (sd_Data data) mod 2 ^ 32) caption (mkRemote 0 0 "" "" "")) path (sd_Data data))
  end.
Definition SaveMessageMedia (dir : string) (sent : Z) (msg : MessageContent) : M MessageMediaResult :=
  let* atts := SaveAttachments dir sent (msg_Attachments msg) in
  match msg_Sticker msg with
  | None => io_ret (mkMedia atts None)
  | Some sticker =>
      if negb (is_set (stk_Image sticker)) && (slen (stk_PackKey sticker) =? 0) then io_ret (mkMedia atts None)
      else
        let* r := io_try (saveSticker dir sent msg) in
        let '(saved, e) := match r with Ok saved => (saved, None) | Err e => (zeroResult, Some e) end in
        io_ret (mkMedia atts (Some (mkSaved (Some (ar_Attachment saved)) (ar_Path saved) e)))
  end.

(** *** Stories and the inbox *)

Definition save_story_part (dir : string) (sent : Z) (att : option Attachment) : M (option SavedAttachment) :=
  match att with
  | None => io_ret None
  | Some att => let* results := SaveAttachments dir sent [att] in io_ret (head results)
  end.
Definition SaveStoryMedia (dir : string) (sent : Z) (file : option Attachment) (text : option StoryText) : M StoryMediaResult :=
  let* f := save_story_part dir sent file in
  let* p := save_story_part dir sent (t ← text; preview ← Preview t; pre_Image preview) in
  io_ret (mkStoryMedia f p).

(** [Inbox.Message]. *)
Context (Message : string -> io W err (Envelope * MessageContent)).

Definition Inbox_Attachment (id : string) (number : Z) (dir : string) : M AttachmentResult :=
  let* r := io_try (on_disk (Message id)) in
  match r with
  | Err e => io_err (if errIs e ErrNotAMessage then Wrap [Sent ErrNoAttachment; e] else e)
  | Ok (env, msg) =>
      if (number <? 1) || (len (msg_Attachments msg) <? number) then io_err (errorf ErrNoAttachment)
      else match msg_Attachments msg !! Z.to_nat (number - 1) with
      | None => io_err (errorf ErrNoAttachment)
      | Some att =>
          let* _ := PrepareDownloadDir dir in
          let* data := wrap_disk (on_disk (dl_Download att)) in
          let* path := wrap_disk (writeNewFile dir (AttachmentFilename (env_Timestamp env) number att) data) in
          io_ret (mkAttachmentResult att path data)
      end
  end.
Definition Inbox_Sticker (id dir : string) : M AttachmentResult :=
  let* found := on_disk (Message id) in saveSticker dir (env_Timestamp found.1) found.2.
End saving.

(** ** Safe names *)

(** A byte of a saved name: a letter, digit, dash, dot or underscore, or part of a character outside ASCII; never a separator or NUL. *)
Definition safe_byte (a : Ascii.ascii) : bool :=
  let b := byte_of a in
  (128 <=? b) || in_range 97 122 b || in_range 65 90 b || in_range 48 57 b || (b =? 45) || (b =? 46) || (b =? 95).
Definition safe (s : string) : Prop := string_forallb safe_byte s = true.

(** The text of a chunk: one ASCII byte, or bytes from 128 only. *)
Definition text_class (c : chunk) : Prop := ch_valid c = true ->
  (exists a, ch_text c = String a "" /\ ch_rune c = byte_of a) \/ string_forallb (fun a => 128 <=? byte_of a) (ch_text c) = true.

Lemma second3_high b0 b1 : second3 b0 b1 = true -> 128 <= b1.
Proof. unfold second3, cont, in_range. repeat case_match; lia. Qed.
Lemma second4_high b0 b1 : second4 b0 b1 = true -> 128 <= b1.
Proof. unfold second4, cont, in_range. repeat case_match; lia. Qed.
Lemma cont_high b : cont b = true -> 128 <= b.
Proof. unfold cont, in_range. lia. Qed.

Lemma decode_class s : Forall text_class (decode s).
Proof.
  induction s as [s IH] using string_len_ind. destruct s as [|a0 t0]; [constructor|].
  assert (IHs : forall u, (String.length u <= String.length t0)%nat -> Forall text_class (decode u)) by (intros u Hu; apply IH; cbn; lia).
  assert (Hbad : Forall text_class (bad a0 :: decode t0)) by (constructor; [done|by apply IHs]).
  cbn [decode]. destruct (byte_of a0 <? 128) eqn:E0; [constructor; [intros _; left; by exists a0|by apply IHs]|]. apply Z.ltb_ge in E0.
  destruct t0 as [|a1 t1]; [by constructor|]. destruct (in_range 194 223 _).
  { destruct (cont (byte_of a1)) eqn:E1; [|done]. apply cont_high in E1. constructor; [|apply IHs; cbn; lia]. intros _. right. cbn. rewrite !andb_true_iff. by repeat split; apply Z.leb_le. }
  destruct t1 as [|a2 t2]; [done|]. destruct (in_range 224 239 _).
  { destruct (_ && _) eqn:E1; [|done]. apply andb_true_iff in E1 as [E1 E2]. apply second3_high in E1. apply cont_high in E2.
    constructor; [|apply IHs; cbn; lia]. intros _. right. cbn. rewrite !andb_true_iff. by repeat split; apply Z.leb_le. }
  destruct t2 as [|a3 t3]; [done|]. destruct (_ && _) eqn:E1; [|done]. apply andb_true_iff in E1 as [[[_ E1]%andb_true_iff E2]%andb_true_iff E3].
  apply second4_high in E1. apply cont_high in E2, E3. constructor; [|apply IHs; cbn; lia]. intros _. right. cbn. rewrite !andb_true_iff. by repeat split; apply Z.leb_le.
Qed.

Lemma safe_app s t : safe (s ++ t) <-> safe s /\ safe t.
Proof. unfold safe. by rewrite string_forallb_app, andb_true_iff. Qed.
Lemma safe_list s : safe s <-> Forall (fun a => safe_byte a = true) (String.list_ascii_of_string s).
Proof.
  unfold safe. induction s as [|a s IH]; [done|]. cbn. rewrite andb_true_iff, Forall_cons. by rewrite IH.
Qed.
Lemma safe_substring s : forall n m, safe s -> safe (String.substring n m s).
Proof.
  induction s as [|a s IH]; intros n m Hs; [by destruct n, m|]. apply andb_true_iff in Hs as [Ha Hs].
  destruct n as [|n]; [destruct m as [|m]; [done|]|by apply IH]. cbn. apply andb_true_iff. split; [done|by apply IH].
Qed.
Lemma safe_trim f s : safe s -> safe (trim_bytes f s).
Proof.
  unfold trim_bytes. rewrite !safe_list, String.list_ascii_of_string_of_list_ascii, !Forall_forall. intros H a Ha. apply H. by eapply trim_sublist.
Qed.
Lemma safe_TrimSuffix s suffix : safe s -> safe (TrimSuffix s suffix).
Proof. intros H. unfold TrimSuffix. case_match; [by apply safe_substring|done]. Qed.

Lemma cut_last_parts s sep x y : cut_last s sep = Some (x, y) -> s = (x ++ String sep y)%string.
Proof.
  revert x. induction s as [|a s IH]; intros x; [done|]. cbn [cut_last]. destruct (cut_last s sep) as [[u v]|].
  - intros [= <- <-]. rewrite string_app_cons. f_equal. by apply IH.
  - case_bool_decide; [|done]. intros [= <- <-]. by subst.
Qed.
Lemma safe_no_slash s : safe s -> no_slash s = true.
Proof.
  unfold safe, no_slash. induction s as [|a s IH]; [done|]. cbn. rewrite !andb_true_iff. intros [Ha Hs]. split; [|by apply IH].
  apply negb_true_iff, bool_decide_eq_false_2. intros ->. done.
Qed.
(** A safe name is its own last element, so its extension is a suffix of it. *)
Lemma Ext_suffix s : safe s -> exists stem, s = (stem ++ Ext s)%string.
Proof.
  intros Hs. unfold Ext, elements. rewrite (split_byte_plain _ (safe_no_slash _ Hs)). change (default ""%string (last [s])) with s.
  destruct (cut_last s (ascii_of 46)) as [[x y]|] eqn:E; [|exists s; symmetry; apply string_app_empty].
  exists x. by apply cut_last_parts in E.
Qed.
Lemma safe_Ext s : safe s -> safe (Ext s).
Proof. intros Hs. destruct (Ext_suffix s Hs) as [stem He]. rewrite He in Hs. by apply safe_app in Hs as [_ ?]. Qed.

(** *** Lengths *)

Lemma substring_length s : forall n m, (String.length (String.substring n m s) <= m)%nat.
Proof.
  induction s as [|a s IH]; intros n m; [destruct n, m; cbn; lia|]. destruct n as [|n]; [|apply IH]. destruct m as [|m]; [cbn; lia|]. cbn. specialize (IH O m). lia.
Qed.
Lemma boundary_le stem keep : (boundary stem keep <= keep)%nat.
Proof. induction keep as [|k IH]; cbn; [lia|]. destruct (cont _); lia. Qed.
Lemma shorten_length name limit : maxExtBytes <= limit -> slen (shorten name limit) <= limit.
Proof.
  intros Hl. unfold shorten. destruct (slen name <=? limit) eqn:E; [by apply Z.leb_le|].
  set (ext := if maxExtBytes <? slen (Ext name) then ""%string else Ext name).
  assert (He : 0 <= slen ext <= maxExtBytes) by (unfold ext; destruct (_ <? _) eqn:Ee; bool_hyps; unfold slen, maxExtBytes in *; cbn; lia).
  rewrite slen_app. set (stem := TrimSuffix name ext). pose proof (boundary_le stem (Z.to_nat (limit - slen ext))).
  pose proof (substring_length stem 0 (boundary stem (Z.to_nat (limit - slen ext)))). unfold slen at 1. lia.
Qed.
Lemma format_digits_length fuel : forall n acc, slen (format_digits fuel n acc) <= Z.of_nat fuel + slen acc.
Proof.
  induction fuel as [|fuel IH]; intros n acc; cbn [format_digits]; [lia|].
  assert (Hc : slen (String (char_of_digit (n mod 10)) acc) = 1 + slen acc) by (unfold slen; cbn [String.length]; lia).
  destruct (n <? 10); [lia|]. specialize (IH (n / 10) (String (char_of_digit (n mod 10)) acc)). lia.
Qed.
Lemma char_safe n : safe_byte (char_of_digit (n mod 10)) = true.
Proof.
  assert (Hd : n mod 10 ∈ [0;1;2;3;4;5;6;7;8;9]) by (pose proof (Z.mod_pos_bound n 10 ltac:(lia)); rewrite !elem_of_cons; lia).
  repeat (rewrite elem_of_cons in Hd; destruct Hd as [->|Hd]; [reflexivity|]). by rewrite elem_of_nil in Hd.
Qed.
Lemma format_digits_safe fuel : forall n acc, safe acc -> safe (format_digits fuel n acc).
Proof.
  induction fuel as [|fuel IH]; intros n acc Ha; cbn [format_digits]; [done|].
  assert (Hs : safe (String (char_of_digit (n mod 10)) acc)) by (apply andb_true_iff; split; [apply char_safe|done]).
  destruct (n <? 10); [done|by apply IH].
Qed.
Lemma FormatUint_safe n : safe (FormatUint n) /\ slen (FormatUint n) <= 20.
Proof. split; [by apply format_digits_safe|]. apply (format_digits_length 20). Qed.
Lemma FormatInt_safe n : safe (FormatInt n) /\ slen (FormatInt n) <= 21.
Proof.
  unfold FormatInt. destruct (n <? 0); [|destruct (FormatUint_safe n); split; [done|lia]]. destruct (FormatUint_safe (- n)) as [Hs Hl].
  split; [by apply andb_true_iff|]. unfold slen in *. cbn [String.length]. lia.
Qed.
Lemma extension_of_safe t : safe (extension_of t) /\ slen (extension_of t) <= 5.
Proof. unfold extension_of. repeat (case_match; [by split|]). by split. Qed.

(** *** Names *)

Section safe_names.
Context {T : NameTables}.

Lemma ascii_safe a : ascii_name_byte (byte_of a) = true -> safe_byte a = true.
Proof. unfold ascii_name_byte, safe_byte. intros H. rewrite !orb_true_iff in *. tauto. Qed.
Lemma keep_rune_safe c out : text_class c -> safe out -> safe (keep_rune out c).
Proof.
  intros Hc Ho. unfold keep_rune. destruct (name_rune (ch_rune c)) eqn:En.
  - apply safe_app. split; [done|]. unfold rune_text. destruct (ch_valid c) eqn:Ev; [|done]. destruct (Hc Ev) as [(a & -> & Ha)|Hh].
    + rewrite Ha in En. unfold name_rune in En. apply andb_true_iff. split; [|done]. destruct (byte_of a <? 128) eqn:E; [by apply ascii_safe|].
      apply Z.ltb_ge, Z.leb_le in E. unfold safe_byte. by rewrite E.
    + revert Hh. unfold safe. generalize (ch_text c) as t. induction t as [|b t IH]; [done|]. cbn. rewrite !andb_true_iff. intros [Hb Ht]. split; [|by apply IH].
      unfold safe_byte. by rewrite Hb.
  - destruct (ends_underscore out); [done|]. by apply safe_app.
Qed.
Lemma kept_safe cs : Forall text_class cs -> forall out, safe out -> safe (foldl keep_rune out cs).
Proof. induction 1 as [|c cs Hc _ IH]; intros out Ho; [done|]. cbn. by apply IH, keep_rune_safe. Qed.
Lemma shorten_safe name limit : safe name -> safe (shorten name limit).
Proof.
  intros Hs. unfold shorten. destruct (_ <=? _); [done|]. cbv zeta. apply safe_app.
  assert (He : safe (if maxExtBytes <? slen (Ext name) then "" else Ext name)) by (destruct (_ <? _); [done|by apply safe_Ext]).
  split; [|done]. by apply safe_substring, safe_TrimSuffix.
Qed.
Lemma sanitize_safe name : safe (sanitizeFilename name) /\ slen (sanitizeFilename name) <= maxNameBytes.
Proof.
  unfold sanitizeFilename. set (clean := trim_bytes dot_underscore _).
  assert (Hc : safe clean) by (apply safe_trim, kept_safe; [apply decode_class|done]).
  case_match; [by split|]. split; [by apply shorten_safe|by apply shorten_length].
Qed.

(** A name for a file in a directory: of safe bytes, beginning with a digit, and short enough for every file system. *)
Definition file_name (name : string) : Prop :=
  safe name /\ slen name <= 255 /\ exists d rest, name = String (char_of_digit d) rest /\ 0 <= d < 10.

Lemma format_digits_first fuel n acc : (0 < fuel)%nat -> 0 <= n -> exists d rest, format_digits fuel n acc = String (char_of_digit d) rest /\ 0 <= d < 10.
Proof.
  revert n acc. induction fuel as [|fuel IH]; intros n acc Hf Hn; [lia|]. cbn [format_digits]. destruct (n <? 10) eqn:E.
  - apply Z.ltb_lt in E. rewrite Z.mod_small by lia. by exists n, acc.
  - apply Z.ltb_ge in E. destruct fuel as [|fuel]; [cbn; exists (n mod 10), acc; split; [done|apply Z.mod_pos_bound; lia]|].
    apply IH; [lia|]. apply Z.div_pos; lia.
Qed.
Lemma FormatUint_first n : 0 <= n -> exists d rest, FormatUint n = String (char_of_digit d) rest /\ 0 <= d < 10.
Proof. apply format_digits_first. lia. Qed.
Lemma named_file sent rest : 0 <= sent -> safe rest -> slen rest <= 235 -> file_name (FormatUint sent ++ rest).
Proof.
  intros Hn Hs Hl. destruct (FormatUint_safe sent) as [Hf Hfl]. split; [by apply safe_app|]. split; [rewrite slen_app; lia|].
  destruct (FormatUint_first sent Hn) as (d & r & -> & Hd). by exists d, (r ++ rest)%string.
Qed.
End safe_names.

(** *** Candidates *)

Lemma TrimSuffix_app (x ext : string) : TrimSuffix (x ++ ext) ext = x.
Proof.
  unfold TrimSuffix. rewrite string_length_app, Nat.add_sub. pose proof (substring_app_right x ext) as H.
  rewrite string_length_app, (Nat.add_comm (String.length x)), Nat.add_sub in H. rewrite H, bool_decide_eq_true_2 by done. apply substring_app_left.
Qed.
Lemma candidate_file sent rest i : 0 <= sent -> safe rest -> slen rest <= 200 -> file_name (candidate (FormatUint sent ++ rest) i).
Proof.
  intros Hn Hs Hl. set (name := (FormatUint sent ++ rest)%string). assert (Hfile : file_name name) by (apply named_file; [done|done|lia]).
  unfold candidate. destruct (1 <? i)%nat; [|done]. destruct Hfile as (Hsafe & _ & d & tail & Hname & Hd).
  destruct (Ext_suffix name Hsafe) as [stem Hst]. set (ext := Ext name) in *. rewrite Hst at 1. rewrite TrimSuffix_app.
  destruct (FormatInt_safe (Z.of_nat i)) as [Hi Hil]. assert (Hparts : safe stem /\ safe ext) by (rewrite Hst in Hsafe; by apply safe_app).
  assert (Hlen : slen stem + slen ext = slen name) by (by rewrite Hst, slen_app).
  assert (Hnl : slen name <= 220) by (unfold name; rewrite slen_app; pose proof (FormatUint_safe sent); lia).
  destruct Hparts as [Hp1 Hp2]. split; [rewrite !safe_app; split; [done|]; split; [done|]; by split|]. split; [rewrite !slen_app; unfold slen at 2; cbn; lia|].
  destruct stem as [|a stem].
  - exfalso. rewrite Hname in Hst. cbn in Hst. unfold ext, Ext in Hst. destruct (cut_last _ _) as [[x y]|]; [|done]. injection Hst as Ha _.
    assert (H48 : digit_of (char_of_digit d) = Some d) by by apply digit_of_char. rewrite Ha in H48. done.
  - rewrite Hname in Hst. injection Hst as Ha _. subst a. by exists d, (stem ++ "-" ++ FormatInt (Z.of_nat i) ++ ext)%string.
Qed.

Section candidates.
Context {T : NameTables}.

(** The names that saving in a message uses. *)
Inductive saved_name : string -> Prop :=
  | attachment_name sent n att i : 0 <= sent -> saved_name (candidate (AttachmentFilename sent n att) i)
  | sticker_file sent id t i : 0 <= sent -> saved_name (candidate (sticker_name sent id t) i).

Lemma saved_name_file name : saved_name name -> file_name name.
Proof.
  intros [sent n att i Hs|sent id t i Hs]; unfold AttachmentFilename, sticker_name; apply candidate_file; try done.
  - destruct (FormatInt_safe n). rewrite !safe_app. split; [done|]. split; [done|]. split; [done|]. case_match; [|apply sanitize_safe].
    apply safe_app. split; [done|]. apply extension_of_safe.
  - destruct (FormatInt_safe n). rewrite !slen_app. pose proof (sanitize_safe (att_Filename att)) as [_ Hl]. unfold maxNameBytes in Hl.
    assert (slen (defaultName ++ extension (att_ContentType att)) <= 15).
    { rewrite slen_app. pose proof (extension_of_safe (name_ToLower (att_ContentType att))) as [_ ?]. unfold extension. change (slen defaultName) with 10. lia. }
    change (slen "-") with 1. case_match; lia.
  - destruct (FormatUint_safe id). rewrite !safe_app. split; [done|]. split; [done|]. apply extension_of_safe.
  - destruct (FormatUint_safe id). rewrite !slen_app. pose proof (extension_of_safe (name_ToLower t)) as [_ ?]. unfold extension. change (slen "-sticker-") with 9. lia.
Qed.

(** C26. Whatever a sender calls an attachment, the name it is saved under, also with a number after a collision, is a plain name in its directory:
    only letters, digits, dashes, dots, underscores and characters outside ASCII, so no separator of any system, beginning with a digit of the
    timestamp, so neither hidden nor a relative path, and short enough. *)
Theorem AttachmentFilename_safe (sent n : Z) (att : Attachment) (i : nat) : 0 <= sent -> file_name (candidate (AttachmentFilename sent n att) i).
Proof. intros Hs. apply saved_name_file. by constructor. Qed.
End candidates.

(** ** What saving does to the files *)

Section files.
Context {T : NameTables} {W : Type} {D : DownloadEnv W}.
Notation M := (io (dstate W) err).

(** From [s] to [s'], no file was changed or removed, and every new one is in [dir] under a safe name. *)
Definition grown (dir : string) (s s' : dstate W) : Prop :=
  (forall k v, ds_files s !! k = Some v -> ds_files s' !! k = Some v)
  /\ (forall k v, ds_files s' !! k = Some v -> ds_files s !! k = None -> k.1 = dir /\ saved_name k.2).
#[export] Instance grown_preorder dir : PreOrder (grown dir).
Proof.
  split; [intros s; split; [done|congruence]|]. intros s1 s2 s3 [H1 H2] [H3 H4]. split; [by auto|]. intros k v Hk Hn.
  destruct (ds_files s2 !! k) as [v2|] eqn:E; [by eapply H2|by eapply H4].
Qed.
Lemma grown_same dir s s' : ds_files s' = ds_files s -> grown dir s s'.
Proof. intros H. split; rewrite H; [done|congruence]. Qed.
Lemma grown_new dir s s' name v : ds_files s !! (dir, name) = None -> saved_name name -> ds_files s' = <[(dir, name) := v]> (ds_files s) -> grown dir s s'.
Proof.
  intros Hn Hs H. split; rewrite H; intros k u Hk.
  - rewrite lookup_insert_ne; [done|]. congruence.
  - intros Hk'. apply lookup_insert_Some in Hk as [[<- _]|[_ Hk]]; [done|congruence].
Qed.

(** [m] only adds files to [dir], and its results satisfy [Q] of the files before and after. *)
Definition adds {A} (dir : string) (m : M A) (Q : A -> dstate W -> dstate W -> Prop) : Prop :=
  forall s, let (r, s') := m s in grown dir s s' /\ match r with Ok a => Q a s s' | Err _ => True end.
Notation any := (fun _ _ _ => True).

Lemma adds_ret {A} dir (a : A) : adds dir (io_ret a) (fun a' s s' => a' = a /\ s' = s).
Proof. intros s. done. Qed.
Lemma adds_err {A} dir e Q : adds dir (io_err e : M A) Q.
Proof. intros s. done. Qed.
Lemma adds_any {A} dir (m : M A) Q : adds dir m Q -> adds dir m any.
Proof. intros H s. specialize (H s). destruct (m s) as [[a|e] s']; destruct H; done. Qed.
Lemma adds_bind {A B} dir (m : M A) (f : A -> M B) Q R : adds dir m Q -> (forall a s s1, Q a s s1 -> grown dir s s1 ->
    let (r, s') := f a s1 in grown dir s1 s' /\ match r with Ok b => R b s s' | Err _ => True end) -> adds dir (let* a := m in f a) R.
Proof.
  intros Hm Hf s. unfold io_bind. specialize (Hm s). destruct (m s) as [[a|e] s1]; destruct Hm as [Hg Hq]; [|done].
  specialize (Hf a s s1 Hq Hg). destruct (f a s1) as [r s2]. destruct Hf as [Hg' Hr]. split; [by transitivity s1|done].
Qed.
(** Sequencing when nothing is said of the results. *)
Lemma adds_seq {A B} dir (m : M A) (f : A -> M B) : adds dir m any -> (forall a, adds dir (f a) any) -> adds dir (let* a := m in f a) any.
Proof. intros Hm Hf. eapply adds_bind; [exact Hm|]. intros a s s1 _ _. apply Hf. Qed.
Lemma adds_try {A} dir (m : M A) Q : adds dir m Q -> adds dir (io_try m) (fun r s s' => match r with Ok a => Q a s s' | Err _ => True end).
Proof. intros Hm s. unfold io_try. specialize (Hm s). by destruct (m s) as [[a|e] s1]. Qed.
Lemma adds_wrap {A} dir (m : M A) Q : adds dir m Q -> adds dir (wrap_disk m) Q.
Proof.
  intros Hm s. unfold wrap_disk, io_bind, io_try. specialize (Hm s). by destruct (m s) as [[a|e] s1].
Qed.
Lemma adds_disk {A} dir (m : io W err A) : adds dir (on_disk m) (fun a s s' => ds_files s' = ds_files s /\ exists w w', m w = (Ok a, w')).
Proof.
  intros s. unfold on_disk. destruct (m (ds_world s)) as [[a|e] w] eqn:E; (split; [by apply grown_same|]); [|done]. split; [done|]. by eauto.
Qed.
Lemma adds_prepare dir dir' : adds dir' (PrepareDownloadDir dir) (fun _ s s' => ds_files s' = ds_files s).
Proof.
  intros s. unfold PrepareDownloadDir, disk_try, on_disk, wrap_disk, io_bind, io_try. destruct (dl_MkdirAll dir (ds_world s)) as [[e|] w]; cbn; [split; [by apply grown_same|done]|].
  unfold on_disk. cbn. destruct (dl_Stat dir w) as [[[]|e] w']; cbn; (split; [by apply grown_same|done]).
Qed.

(** Filling a file that was just created. *)
Lemma fill_file_run dir name data s : let (r, s') := fill_file dir name data s in
  match r with
  | Ok _ => ds_files s' = <[(dir, name) := data]> (ds_files s)
  | Err _ => ds_files s' = delete (dir, name) (ds_files s) \/ exists part, ds_files s' = <[(dir, name) := part]> (ds_files s)
  end.
Proof.
  unfold fill_file, io_bind, on_disk. destruct (dl_write data (ds_world s)) as [[part [e|]] w]; cbn; [|done].
  unfold disk_try, on_disk. cbn. destruct (dl_Remove dir name w) as [[re|] w']; cbn; [right; by exists part|].
  left. apply map_eq. intros k. destruct (decide (k = (dir, name))) as [->|Hne]; [by rewrite lookup_partial_alter_eq, lookup_delete_eq|].
  by rewrite !lookup_partial_alter_ne, lookup_delete_ne by congruence.
Qed.

(** A new file has the data under a name that was free; a failure leaves at most a new incomplete one. *)
Definition new_file (dir name data path : string) (s s' : dstate W) : Prop :=
  exists i, path = Join dir (candidate name i) /\ ds_files s !! (dir, candidate name i) = None
    /\ ds_files s' = <[(dir, candidate name i) := data]> (ds_files s).

Lemma adds_tries dir name data tries : (forall i, saved_name (candidate name i)) -> forall i, adds dir (write_tries dir name data i tries) (new_file dir name data).
Proof.
  intros Hsafe. induction tries as [|tries IH]; intros i s; cbn [write_tries]; [done|].
  unfold io_bind at 1, create_file. destruct (ds_files s !! (dir, candidate name i)) as [old|] eqn:Eold; [apply IH|].
  unfold io_bind at 1, on_disk. destruct (dl_create dir (candidate name i) (ds_world s)) as [[| |e] w]; cbn.
  - set (s1 := mkDState _ _). pose proof (fill_file_run dir (candidate name i) data s1) as Hf. unfold io_bind.
    assert (Hi : forall v, <[(dir, candidate name i) := v]> (ds_files s1) = <[(dir, candidate name i) := v]> (ds_files s)).
    { intros v. unfold s1. cbn. apply map_eq. intros k. destruct (decide (k = (dir, candidate name i))) as [->|Hne]; [by rewrite !lookup_insert_eq|].
      by rewrite !lookup_insert_ne, lookup_partial_alter_ne by congruence. }
    destruct (fill_file _ _ _ s1) as [[[]|e] s2]; cbn.
    + rewrite Hi in Hf. split; [by eapply grown_new|]. exists i. done.
    + split; [|done]. destruct Hf as [Hf|[part Hf]]; [|rewrite Hi in Hf; by eapply grown_new]. apply grown_same. rewrite Hf. unfold s1. cbn.
      apply map_eq. intros k. destruct (decide (k = (dir, candidate name i))) as [->|Hne]; [by rewrite lookup_delete_eq|].
      by rewrite lookup_delete_ne, lookup_partial_alter_ne by congruence.
  - set (s1 := mkDState _ _). specialize (IH (Datatypes.S i) s1). destruct (write_tries _ _ _ _ _ s1) as [[path|e] s2]; exact IH.
  - split; [by apply grown_same|done].
Qed.
Lemma adds_write dir name data : (forall i, saved_name (candidate name i)) -> adds dir (writeNewFile dir name data) (new_file dir name data).
Proof.
  intros Hsafe s. unfold writeNewFile, io_bind, disk_try, on_disk. destruct (dl_OpenRoot dir (ds_world s)) as [[e|] w]; cbn; [split; [by apply grown_same|done]|].
  set (s1 := mkDState _ _). pose proof (adds_tries dir name data maxRenames Hsafe 1 s1) as H. destruct (write_tries _ _ _ _ _ s1) as [[path|e] s2]; exact H.
Qed.

(** *** The operations *)

(** The file of a saved attachment: what the server gave, under a name that was free before. *)
Definition saved_as (dir : string) (s s' : dstate W) (att : Attachment) (o : SavedAttachment) (name : option string) : Prop :=
  match sav_Err o with
  | Some _ => name = None /\ sav_Path o = ""%string
  | None => exists n data w w', name = Some n /\ sav_Path o = Join dir n /\ saved_name n /\ dl_Download att w = (Ok data, w')
              /\ ds_files s !! (dir, n) = None /\ ds_files s' !! (dir, n) = Some data
  end.

Lemma adds_saveAttachment dir sent n att : 0 <= sent -> adds dir (saveAttachment dir (AttachmentFilename sent n att) att)
  (fun path s s' => exists name data w w', path = Join dir name /\ saved_name name /\ dl_Download att w = (Ok data, w')
     /\ ds_files s !! (dir, name) = None /\ ds_files s' = <[(dir, name) := data]> (ds_files s)).
Proof.
  intros Hs. eapply adds_bind; [apply adds_disk|]. intros data s s1 (Hf & w & w' & Hd) _.
  pose proof (adds_wrap _ _ _ (adds_write dir (AttachmentFilename sent n att) data (fun i => attachment_name sent n att i Hs)) s1) as H.
  destruct (wrap_disk _ s1) as [[path|e] s2]; destruct H as [Hg H]; (split; [done|]); [|done]. destruct H as (i & -> & Hn & Hw).
  exists (candidate (AttachmentFilename sent n att) i), data, w, w'. rewrite Hf in Hn, Hw. split_and!; try done. by constructor.
Qed.

Lemma saved_as_earlier dir s s1 s' att o name : saved_as dir s1 s' att o name -> grown dir s s1 -> saved_as dir s s' att o name
  /\ forall n, name = Some n -> ds_files s1 !! (dir, n) = None.
Proof.
  unfold saved_as. destruct (sav_Err o); [intros [-> ?] _; done|]. intros (n & data & w & w' & H1 & H2 & H3 & H4 & H5 & H6) [Hk _].
  split; [|intros n' Hn'; congruence]. exists n, data, w, w'. split_and!; try done.
  destruct (ds_files s !! (dir, n)) as [v|] eqn:E; [|done]. apply Hk in E. congruence.
Qed.

(** The results of a list of attachments, and the different names of the files. *)
Definition all_saved (dir : string) (s s' : dstate W) (atts : list Attachment) (out : list SavedAttachment) : Prop :=
  exists names : list (option string), Forall3 (saved_as dir s s') atts out names /\ NoDup (omap id names).

Lemma save_each_run dir sent atts : 0 <= sent -> forall i s, exists out s', save_each dir sent i atts s = (Ok out, s') /\ grown dir s s' /\ all_saved dir s s' atts out.
Proof.
  intros Hs. induction atts as [|att atts IH]; intros i s; cbn [save_each].
  { exists [], s. split; [done|]. split; [done|]. exists []. split; constructor. }
  unfold io_bind at 1, io_try. pose proof (adds_saveAttachment dir sent (i + 1) att Hs s) as H1.
  destruct (saveAttachment dir (AttachmentFilename sent (i + 1) att) att s) as [r s1]. destruct H1 as [Hg1 H1].
  destruct (IH (i + 1) s1) as (out & s2 & E & Hg2 & names & Hall & Hnd). unfold io_bind. rewrite E. cbn.
  exists (saved_of r :: out), s2. split; [done|]. split; [by transitivity s1|].
  assert (Hearlier : Forall3 (saved_as dir s s2) atts out names /\ forall n, Some n ∈ names -> ds_files s1 !! (dir, n) = None).
  { clear -Hall Hg1. induction Hall as [|a o n atts out names Ha Hall IH]; [split; [constructor|]; by intros n ?%not_elem_of_nil|]. destruct IH as [IH1 IH2].
    destruct (saved_as_earlier dir s s1 s2 a o n Ha Hg1) as [Hs Hn]. split; [by constructor|]. intros n' [Hin|Hin]%elem_of_cons; [by apply Hn|by apply IH2]. }
  destruct Hearlier as [Hold Hfree]. destruct r as [path|e].
  - destruct H1 as (name & data & w & w' & -> & Hn & Hd & Hfree1 & Hw). exists (Some name :: names). split.
    + constructor; [|done]. exists name, data, w, w'. split_and!; try done. apply Hg2. by rewrite Hw, lookup_insert_eq.
    + cbn. constructor; [|done]. intros Hin. apply list_elem_of_omap in Hin as (x & Hx & [= ->]). apply Hfree in Hx. by rewrite Hw, lookup_insert_eq in Hx.
  - exists (None :: names). split; [constructor; [|done]; done|done].
Qed.

Lemma SaveAttachments_run dir sent atts s : 0 <= sent -> exists out s', SaveAttachments dir sent atts s = (Ok out, s') /\ grown dir s s' /\ all_saved dir s s' atts out.
Proof.
  intros Hs. unfold SaveAttachments, io_bind at 1, io_try. pose proof (adds_prepare dir dir s) as Hp. destruct (PrepareDownloadDir dir s) as [[[]|e] s1]; destruct Hp as [Hg Hf].
  - destruct (save_each_run dir sent atts Hs 0 s1) as (out & s2 & E & Hg2 & names & Hall & Hnd). exists out, s2. split; [done|]. split; [by transitivity s1|].
    exists names. split; [|done]. clear -Hall Hg. induction Hall as [|a o n atts out names Ha Hall IH]; constructor; [|done]. by apply (saved_as_earlier dir s s1 s2).
  - exists (const (mkSaved None "" (Some e)) <$> atts), s1. split; [done|]. split; [done|]. exists (const None <$> atts). split.
    + clear. induction atts; constructor; done.
    + clear. induction atts; [constructor|done].
Qed.

(** C25. Saving the attachments of a message always ends, with one result for each in order. A result without an error is a file of the directory with
    exactly the bytes downloaded, under a safe name that no file had before; different results are different files. No file that existed
    is changed or removed, and nothing is created outside the directory or under another kind of name, whatever the server and the disk do. *)
Theorem SaveAttachments_spec (dir : string) (sent : Z) (atts : list Attachment) (s : dstate W) : 0 <= sent ->
  exists out s', SaveAttachments dir sent atts s = (Ok out, s') /\ length out = length atts /\ grown dir s s' /\ all_saved dir s s' atts out
    /\ forall name, saved_name name -> file_name name.
Proof.
  intros Hs. destruct (SaveAttachments_run dir sent atts s Hs) as (out & s' & E & Hg & Ha). exists out, s'. split; [done|]. split.
  - destruct Ha as (names & Hall & _). clear -Hall. induction Hall; cbn; congruence.
  - split; [done|]. split; [done|]. apply saved_name_file.
Qed.

Lemma adds_disk_any {A} dir (m : io W err A) : adds dir (on_disk m) any.
Proof. eapply adds_any, adds_disk. Qed.
Lemma adds_return {A} dir (a : A) : adds dir (io_ret a) any.
Proof. eapply adds_any, adds_ret. Qed.
Lemma adds_attempt {A} dir (m : M A) : adds dir m any -> adds dir (io_try m) any.
Proof. intros H. eapply adds_any, adds_try, H. Qed.
Lemma adds_SaveAttachments dir sent atts : 0 <= sent -> adds dir (SaveAttachments dir sent atts) any.
Proof. intros Hs s. destruct (SaveAttachments_run dir sent atts s Hs) as (out & s' & -> & Hg & _). done. Qed.
Hint Resolve adds_disk_any adds_return adds_attempt adds_err adds_SaveAttachments : saving.

Lemma adds_sticker dir sticker : adds dir (stickerData sticker) any.
Proof.
  unfold stickerData. assert (Hfetch : adds dir (match StickerReference_Check (mkStickerRef (stk_PackID sticker) (stk_PackKey sticker) (stk_StickerID sticker)) with
      | Some e => io_err (Wrap [e])
      | None => let* data := wrap_disk (on_disk (dl_FetchSticker (mkStickerRef (stk_PackID sticker) (stk_PackKey sticker) (stk_StickerID sticker)))) in io_ret (data, true)
      end) any).
  { destruct (StickerReference_Check _); [apply adds_err|]. apply adds_seq; [eapply adds_any, adds_wrap, adds_disk|auto with saving]. }
  destruct (stk_Image sticker) as [image|]; [|exact Hfetch]. apply adds_seq; [auto with saving|]. intros [data|e]; [auto with saving|].
  destruct (_ || _); [apply adds_err|exact Hfetch].
Qed.
Lemma adds_saveSticker dir sent msg : 0 <= sent -> adds dir (saveSticker dir sent msg) any.
Proof.
  intros Hs. unfold saveSticker. destruct (msg_Sticker msg) as [sticker|]; [|apply adds_err]. apply adds_seq; [eapply adds_any, adds_prepare|].
  intros _. apply adds_seq; [apply adds_sticker|]. intros [data fallback]. apply adds_seq.
  - eapply adds_any, adds_wrap, adds_write. intros i. by constructor.
  - intros path. destruct (stk_Image sticker) as [image|]; [destruct fallback|]; apply adds_return.
Qed.
Lemma adds_story_part dir sent att : 0 <= sent -> adds dir (save_story_part dir sent att) any.
Proof. intros Hs. destruct att as [att|]; [|apply adds_return]. apply adds_seq; auto with saving. Qed.

(** Every way of saving received media, a whole message with its sticker, a story, an attachment or a sticker of the inbox, only ever adds files, and
    only to the directory that was given, under safe names. *)
Theorem saving_only_adds (dir : string) (sent number : Z) (msg : MessageContent) (file : option Attachment) (text : option StoryText) (id : string)
    (Message : string -> io W err (Envelope * MessageContent)) :
  0 <= sent -> (forall w env m w', Message id w = (Ok (env, m), w') -> 0 <= env_Timestamp env) ->
  adds dir (SaveMessageMedia dir sent msg) any /\ adds dir (SaveStoryMedia dir sent file text) any
  /\ adds dir (Inbox_Attachment Message id number dir) any /\ adds dir (Inbox_Sticker Message id dir) any.
Proof.
  intros Hs Hm. split; [|split; [|split]].
  - apply adds_seq; [auto with saving|]. intros atts. destruct (msg_Sticker msg) as [sticker|]; [|auto with saving].
    destruct (_ && _); [auto with saving|]. apply adds_seq; [by apply adds_attempt, adds_saveSticker|]. intros [saved|e]; auto with saving.
  - apply adds_seq; [by apply adds_story_part|]. intros f. apply adds_seq; [by apply adds_story_part|]. auto with saving.
  - eapply adds_bind; [apply adds_try, adds_disk|]. intros [[env m]|e] s s1 Hq _; [|apply (adds_err dir _ any)]. destruct Hq as (_ & w & w' & Hw). apply Hm in Hw.
    destruct (_ || _); [apply (adds_err dir _ any)|]. destruct (_ !! _) as [att|]; [|apply (adds_err dir _ any)].
    revert s1. apply adds_seq; [eapply adds_any, adds_prepare|]. intros _. apply adds_seq; [eapply adds_any, adds_wrap, adds_disk|]. intros data.
    apply adds_seq; [|auto with saving]. eapply adds_any, adds_wrap, adds_write. intros i. by constructor.
  - eapply adds_bind; [apply adds_disk|]. intros [env m] s s1 (_ & w & w' & Hw) _. apply Hm in Hw. by apply (adds_saveSticker dir (env_Timestamp env) m Hw s1).
Qed.
End files.

(** ** At a concrete input *)

Definition demo_tables : NameTables := {| name_ToLower := fun s => s; letter_digit_mark := fun _ => true |}.
#[local] Existing Instance demo_tables.
Definition demo_download (filename : string) : Attachment := mkAttachment "image/png" filename 4 "" (mkRemote 0 0 "" "" "").

(** Paths, hidden names and control characters of senders. *)
Example names_of_senders :
  (fun f => AttachmentFilename 1700 1 (demo_download f)) <$> ["../../etc/passwd"; ".bashrc"; "C:\\temp\\a b?.png"; ""; "---"]%string
  = ["1700-1-passwd"; "1700-1-bashrc"; "1700-1-a_b_.png"; "1700-1-attachment.png"; "1700-1-attachment.png"]%string.
Proof. by vm_compute. Qed.

Lemma AttachmentFilename_safe_witness : file_name (candidate (AttachmentFilename 1700 1 (demo_download "../x.png")) 2).
Proof. apply AttachmentFilename_safe. vm_compute. discriminate. Defined.

(** A server that has every attachment, and a disk that is never full. *)
Definition demo_disk : DownloadEnv unit := {|
  dl_Download := fun att => io_ret (att_Filename att); dl_FetchSticker := fun _ => io_err (Opaque "none"); dl_MkdirAll := fun _ w => (None, w); dl_Stat := fun _ => io_ret true;
  dl_OpenRoot := fun _ w => (None, w); dl_create := fun _ _ w => (Created, w); dl_write := fun data w => ((data, None), w); dl_Remove := fun _ _ w => (None, w) |}.
#[local] Existing Instance demo_disk.
Definition demo_dir : dstate unit := mkDState {[ ("/dl", "1700-1-a.png")%string := "old"%string ]} tt.

Lemma SaveAttachments_spec_witness : exists out s', SaveAttachments "/dl" 1700 [demo_download "a.png"; demo_download "b.png"] demo_dir = (Ok out, s')
  /\ (sav_Path <$> out) = ["/dl/1700-1-a-2.png"; "/dl/1700-2-b.png"]%string /\ ds_files s' !! ("/dl", "1700-1-a.png")%string = Some "old"%string.
Proof.
  destruct (SaveAttachments_spec "/dl" 1700 [demo_download "a.png"; demo_download "b.png"] demo_dir) as (out & s' & E & _ & [Hk _] & _); [vm_compute; discriminate|].
  exists out, s'. split; [exact E|]. split; [|apply Hk; vm_compute; reflexivity].
  assert (Hp : match (SaveAttachments "/dl" 1700 [demo_download "a.png"; demo_download "b.png"] demo_dir).1 with Ok out => sav_Path <$> out | Err _ => [] end
    = ["/dl/1700-1-a-2.png"; "/dl/1700-2-b.png"]%string) by (vm_compute; reflexivity).
  rewrite E in Hp. exact Hp.
Defined.

Definition demo_found (id : string) : io unit err (Envelope * MessageContent) :=
  io_ret (mkEnvelope zeroRecipient (mkChat "" zeroRecipient) 1700 0 false, mkMessage "" [] [demo_download "a.png"] None None None false []).

Lemma saving_only_adds_witness : adds "/dl" (Inbox_Attachment demo_found "7" 1 "/dl") (fun _ _ _ => True).
Proof.
  apply (saving_only_adds "/dl" 1700 1 (mkMessage "" [] [] None None None false []) None None "7" demo_found); [vm_compute; discriminate|].
  intros w env m w' H. injection H as <- _ _. vm_compute. discriminate.
Defined.
