(* ===== verification/McpInbox.v ===== *)
(** * The inbox over MCP (internal/mcp/inbox.go)

    The tools [messages_list], [messages_wait], [attachment_get] and [mark_read], and the inbox's chats as resources
    [signal://chats] and [signal://chat/<key>]. The results are modelled as what is rendered: entries, chats and the names for them; rendering
    itself is not. The tools read from the application, [messages_wait] with the receive loop running meanwhile ([InboxWait]), and
    [attachment_get] writes to the download directory ([Downloads]). *)

From S2P Require Import Prelude Errors Uuid Utf8 Strconv Base64 Types SendCheck Groups GroupInvite Recipients SendFlow Content FilePath Attachments AppSend AppWrite Directory InboxStore InboxEvents PollStore InboxClient InboxApp InboxWait Downloads Confirm McpTools.

Definition chatsURI : string := "signal://chats".
Definition chatURIPrefix : string := "signal://chat/".
Definition maxInlineImage : Z := Z.shiftl 1 20.

(** ** Resource URIs *)

Definition isUnreserved (a : Ascii.ascii) : bool :=
  let b := byte_of a in
  in_range 97 122 b || in_range 65 90 b || in_range 48 57 b || (b =? 45) || (b =? 46) || (b =? 95) || (b =? 126).

(** The escaped key: [%%%02X] for all but the unreserved characters. *)
Fixpoint escaped_key (key : string) : string :=
  match key with
  | EmptyString => EmptyString
  | String a t =>
      if isUnreserved a then String a (escaped_key t)
      else String percent (String (hex_upper (byte_of a / 16)) (String (hex_upper (byte_of a mod 16)) (escaped_key t)))
  end.
Definition chatURI (key : string) : string := (chatURIPrefix ++ escaped_key key)%string.

(** [url.PathUnescape] and [chatKey]. *)
Definition PathUnescape (s : string) : option string := unescape encodePathSegment s.
Definition chatKey (uri : string) : option string :=
  escaped ← cut_prefix chatURIPrefix uri;
  if (escaped == "") || Directory.contains escaped "/" then None else PathUnescape escaped.

(** What the SDK answers for an unknown resource. *)
Class Sdk := { ResourceNotFoundError : string -> err }.

Definition checkSubscription {S : Sdk} (uri : string) : error :=
  if bool_decide (is_Some (chatKey uri)) || (uri == chatsURI) then None else Some (ResourceNotFoundError uri).

(** [Server.notify]: the resources whose subscribers are told about a new entry; failures are logged. *)
Definition notified (entry : InboxEntry) : list string :=
  chatsURI :: (if Chat_Key (ie_Chat entry) != "" then [chatURI (Chat_Key (ie_Chat entry))] else []).

(** ** Inputs and answers *)

Record messagesListInput := mkListInput { mli_Chat : string; mli_Cursor : string; mli_Since : string; mli_Limit : Z }.
Record messagesWaitInput := mkWaitInput { mwi_Chat : string; mwi_Cursor : string; mwi_Limit : Z; mwi_Timeout : Z }.
(** The entries with the names they are rendered with, and the line after the text. *)
Record messagesOutput := mkMessagesOutput { mo_Messages : list InboxEntry; mo_names : Names; mo_Cursor : string; mo_More : bool; mo_line : string }.
Record attachmentGetInput := mkGetInput { agi_Message : string; agi_Attachment : Z }.
(** The content of the result: the text, and the image if it is small. *)
Record attachmentGetOutput := mkGetOutput {
  ago_Path : string; ago_ContentType : string; ago_Filename : string; ago_Size : Z; ago_text : string; ago_image : option (string * string) }.
Record markReadInput := mkMarkInput { mri_Chat : string; mri_Cursor : string }.
Record chatSummaryJSON := mkSummary { cj_URI : string; cj_Chat : Chat; cj_Entries : Z; cj_Unread : Z; cj_Last : InboxEntry }.
Record chatJSON := mkChatJSON { ch_Chat : option Chat; ch_Messages : list InboxEntry; ch_Cursor : string; ch_names : Names }.

Definition cursorLine (page : MessagesPage) : string :=
  match pg_Entries page with
  | [] => "No new messages. cursor: " ++ pg_Cursor page
  | _ => if pg_More page then "cursor: " ++ pg_Cursor page ++ " (more entries follow)" else "cursor: " ++ pg_Cursor page
  end.

(** [time.Parse] with RFC 3339. *)
Class Rfc3339 := { time_Parse : string -> option time }.

(** ** Handlers *)

Section handlers.
Context {U : UuidLib} {W : Type} {C : Client W} {D : DirectoryClient W} {K : Casing} {B : InboxBackend W} {R : Rfc3339} {S : Sdk}.
Notation A := (io (App W) err).

Definition messagesRequest (chat cursor : string) (limit : Z) : A MessagesRequest :=
  if chat == "" then io_ret (mkMessagesRequest "" cursor zero_time limit)
  else let* resolved := ResolveChat chat in io_ret (mkMessagesRequest (Chat_Key resolved) cursor zero_time limit).

Definition messages (page : MessagesPage) : A messagesOutput :=
  let* names := tool_names in io_ret (mkMessagesOutput (pg_Entries page) names (pg_Cursor page) (pg_More page) (cursorLine page)).

Definition messagesList (inp : messagesListInput) : A messagesOutput :=
  let* req := messagesRequest (mli_Chat inp) (mli_Cursor inp) (mli_Limit inp) in
  let* req := (if mli_Since inp == "" then io_ret req
               else match time_Parse (mli_Since inp) with
                    | None => io_err (Wrap [Opaque "time"])
                    | Some t => io_ret (mkMessagesRequest (mr_Chat req) (mr_Cursor req) t (mr_Limit req))
                    end) in
  let* page := List_ req in messages page.

(** [time.Duration(in.Timeout)*time.Second], which wraps around. *)
Definition wait_duration (seconds : Z) : Z := wrap64 (seconds * 1000000000).
Definition messagesWait (opts : InboxOptions) (inp : messagesWaitInput) (turns : Z -> list turn) : io (Inbox W) err messagesOutput :=
  let* req := on_app (messagesRequest (mwi_Chat inp) (mwi_Cursor inp) (mwi_Limit inp)) in
  let* page := Wait opts req (wait_duration (mwi_Timeout inp)) turns in
  on_app (messages page).

Definition markRead (inp : markReadInput) : A MarkReadResult :=
  let* chat := (if mri_Chat inp == "" then io_ret "" else let* chat := ResolveChat (mri_Chat inp) in io_ret (Chat_Key chat)) in
  let* out := MarkRead (mkMarkReadRequest chat (mri_Cursor inp)) in
  match out with (marked, None) => io_ret marked | (_, Some e) => io_err e end.

Definition chat_summary (chat : InboxChat) : chatSummaryJSON :=
  mkSummary (chatURI (Chat_Key (ic_Chat chat))) (ic_Chat chat) (ic_Entries chat) (ic_Unread chat) (ic_Last chat).
Definition readChats : A (list chatSummaryJSON * Names) :=
  let* chats := Chats in
  let* names := tool_names in io_ret (chat_summary <$> chats, names).

Definition readChat (uri : string) : A chatJSON :=
  match chatKey uri with
  | None => io_err (ResourceNotFoundError uri)
  | Some key =>
      let* page := List_ (mkMessagesRequest key "" zero_time 0) in
      let* names := tool_names in
      io_ret (mkChatJSON (ie_Chat <$> head (pg_Entries page)) (pg_Entries page) (pg_Cursor page) names)
  end.
End handlers.

Section attachments.
Context {U : UuidLib} {W : Type} {C : Client W} {B : InboxBackend W} {T : NameTables} {E : DownloadEnv (App W)}.

Definition inlineImage (contentType : string) : bool :=
  bool_decide (name_ToLower contentType ∈ ["image/jpeg"; "image/png"; "image/gif"; "image/webp"]%string).

Definition attachmentGet (dir : string) (inp : attachmentGetInput) : io (dstate (App W)) err attachmentGetOutput :=
  if dir == "" then io_err (Sent errNoDownloadDir)
  else
    let number := if agi_Attachment inp =? 0 then 1 else agi_Attachment inp in
    let* saved := Inbox_Attachment Message_ (agi_Message inp) number dir in
    let att := ar_Attachment saved in
    let text := ("Saved " ++ TrimSpace (att_ContentType att ++ " " ++ att_Filename att) ++ " (" ++ FormatInt (slen (ar_Data saved)) ++ " bytes) to " ++ ar_Path saved)%string in
    io_ret (mkGetOutput (ar_Path saved) (att_ContentType att) (att_Filename att) (slen (ar_Data saved)) text
      (if inlineImage (att_ContentType att) && (slen (ar_Data saved) <=? maxInlineImage) then Some (ar_Data saved, att_ContentType att) else None)).
End attachments.

(** ** Resource URIs *)

Lemma hex_upper_value n : 0 <= n < 16 -> hex_value (hex_upper n) = Some n.
Proof.
  intros H. assert (Hn : n ∈ (Z.of_nat <$> seq 0 16)) by (apply list_elem_of_fmap; exists (Z.to_nat n); split; [lia|apply elem_of_seq; lia]).
  cbn in Hn. by repeat (apply elem_of_cons in Hn as [->|Hn]; [by vm_compute|]); apply elem_of_nil in Hn.
Qed.

Lemma unescape_escaped key : PathUnescape (escaped_key key) = Some key.
Proof.
  unfold PathUnescape. induction key as [|a key IH]; [done|]. cbn [escaped_key]. destruct (isUnreserved a) eqn:Ea; cbn [unescape].
  - rewrite bool_decide_eq_false_2; [by rewrite IH|]. intros ->. by vm_compute in Ea.
  - pose proof (byte_of_range a) as Ha. rewrite bool_decide_eq_true_2 by done.
    rewrite !hex_upper_value by (split; [apply Z.div_pos || apply Z.mod_pos_bound|apply Z.div_lt_upper_bound || apply Z.mod_pos_bound]; lia).
    cbn. rewrite IH. cbn. do 2 f_equal. rewrite <- (ascii_of_byte a) at 3. f_equal. pose proof (Z.div_mod (byte_of a) 16). lia.
Qed.

Lemma hex_upper_byte n : 0 <= n < 16 -> 48 <= byte_of (hex_upper n).
Proof.
  intros H. unfold hex_upper. destruct (n <? 10) eqn:E; [apply Z.ltb_lt in E|apply Z.ltb_ge in E]; rewrite byte_of_ascii; lia.
Qed.

(** Neither the slash nor anything before it in ASCII but [%], [-] and [.] is in an escaped key. *)
Lemma escaped_no_slash key : Directory.contains (escaped_key key) "/" = false.
Proof.
  induction key as [|a key IH]; [done|]. cbn [escaped_key]. assert (Hc : forall b s, byte_of b <> 47 -> Directory.contains s "/" = false -> Directory.contains (String b s) "/" = false).
  { intros b s Hb Hs. cbn [Directory.contains]. rewrite Hs, orb_false_r. unfold HasPrefix. apply bool_decide_eq_false. intros [t Ht%cut_prefix_Some].
    rewrite string_app_cons in Ht. injection Ht as -> _. by apply Hb. }
  pose proof (byte_of_range a) as Ha. destruct (isUnreserved a) eqn:Ea.
  - apply Hc; [|done]. intros E. unfold isUnreserved in Ea. rewrite E in Ea. by vm_compute in Ea.
  - apply Hc; [by vm_compute|]. apply Hc; [|apply Hc; [|done]].
    + assert (48 <= byte_of (hex_upper (byte_of a / 16))); [|lia]. apply hex_upper_byte. split; [apply Z.div_pos; lia|apply Z.div_lt_upper_bound; lia].
    + assert (48 <= byte_of (hex_upper (byte_of a mod 16))); [|lia]. apply hex_upper_byte. apply Z.mod_pos_bound. lia.
Qed.

Lemma escaped_empty key : escaped_key key = ""%string <-> key = ""%string.
Proof. destruct key as [|a key]; [done|]. cbn. split; [by destruct (isUnreserved a)|done]. Qed.

Lemma unescape_empty m s : unescape m s = Some ""%string -> s = ""%string.
Proof.
  destruct s as [|a s]; [done|]. cbn [unescape]. case_bool_decide.
  - destruct s as [|x [|y s]]; [done|done|]. destruct (hex_value x); [|done]. destruct (hex_value y); [|done]. cbn.
    destruct (match m with encodeHost => _ | _ => _ end); [done|]. by destruct (unescape m s).
  - destruct (match m with encodeHost => _ | _ => _ end); [done|]. by destruct (unescape m s).
Qed.

Lemma chatKey_chatURI key : key <> ""%string -> chatKey (chatURI key) = Some key.
Proof.
  intros Hk. unfold chatKey, chatURI. rewrite cut_prefix_app. cbn. rewrite bool_decide_eq_false_2 by by rewrite escaped_empty.
  rewrite escaped_no_slash. apply unescape_escaped.
Qed.

Lemma chatKey_nonempty uri key : chatKey uri = Some key -> key <> ""%string.
Proof.
  unfold chatKey. destruct (cut_prefix _ _) as [escaped|]; [|done]. cbn. case_bool_decide as He; [done|]. cbn. destruct (Directory.contains _ _); [done|].
  intros H ->. by apply unescape_empty in H.
Qed.

(** C28. The URIs of chats: whatever bytes a key has, its URI is read back as the key, so no two chats share one; it stays one path segment; every
    resource that is told about an entry can be subscribed to; and a URI that is read as a key at all has, besides its own spelling, the one the
    server uses for that key. *)
Theorem chatURI_roundtrip {S : Sdk} :
  (forall key, key <> ""%string -> chatKey (chatURI key) = Some key /\ exists segment, chatURI key = (chatURIPrefix ++ segment)%string /\ Directory.contains segment "/" = false)
  /\ (forall k1 k2, chatURI k1 = chatURI k2 -> k1 = k2)
  /\ (forall entry uri, uri ∈ notified entry -> checkSubscription uri = None)
  /\ (forall uri key, chatKey uri = Some key -> chatKey (chatURI key) = chatKey uri).
Proof.
  split; [|split; [|split]].
  - intros key Hk. split; [by apply chatKey_chatURI|]. eexists. split; [reflexivity|]. apply escaped_no_slash.
  - intros k1 k2 H. apply (f_equal (cut_prefix chatURIPrefix)) in H. unfold chatURI in H. rewrite !cut_prefix_app in H. injection H as H.
    apply (f_equal PathUnescape) in H. rewrite !unescape_escaped in H. by injection H.
  - intros entry uri. unfold notified, checkSubscription. rewrite elem_of_cons. intros [->|Hin]; [by rewrite orb_true_r|].
    case_bool_decide as Hk; cbn in Hin; [by apply elem_of_nil in Hin|]. apply list_elem_of_singleton in Hin as ->.
    rewrite (chatKey_chatURI _ Hk). by rewrite bool_decide_eq_true_2 by by eexists.
  - intros uri key H. rewrite H. apply chatKey_chatURI. by apply (chatKey_nonempty uri).
Qed.

(** ** Reading a chat *)

Section reading.
Context {W : Type} {C : Client W} {D : DirectoryClient W} {B : InboxBackend W} {L : InboxLaws W B} {S : Sdk}.

(** The entries of a chat in the inbox. *)
Definition chat_entries (key : string) (s : App W) : list stored_entry := filter (fun x => st_chat x = key) (view_of s).

Lemma List_newest key limit s r s' : inbox_inv (app_world s) -> key <> ""%string -> List_ (mkMessagesRequest key "" zero_time limit) s = (r, s') ->
  inbox_inv (app_world s') /\ match r with
  | Ok page => let newest := lastn (Z.to_nat (page_limit limit)) (chat_entries key s) in
      pg_Entries page = st_entry <$> newest /\ pg_More page = false
      /\ forall x, last newest = Some x -> pg_Cursor page = FormatCursor (ie_ID (st_entry x))
  | Err _ => @store_failed W B L
  end.
Proof.
  intros Hi Hk H. unfold List_, io_bind at 1, io_of in H. cbn [mr_Cursor mr_Since mr_Chat mr_Limit] in H. change (parseCursor "") with (@Ok err Z 0) in H.
  pose proof (page_limit_bounds limit) as Hn. set (n := page_limit limit) in *. cbv zeta in H.
  change (bool_decide (""%string = ""%string) && IsZeroTime zero_time) with true in H. cbv iota in H.
  unfold io_bind at 1 in H. destruct (wrap_inbox _ s) as [[es|e] s1] eqn:E; apply wrap_List in E as (Hi1 & Hv1 & _ & Hes); try done.
  2: { injection H as <- <-. split; [done|]. destruct Hes as [e' Hl]. do 4 eexists. split; [exact Hi|exact Hl]. }
  unfold query_view in Hes. cbn [iq_Limit iq_Newest] in Hes. rewrite (proj2 (Z.ltb_lt _ _)) in Hes by lia.
  assert (Hall : filter (query_selects (mkQuery 0 0 key zero_time false n true)) (view_of s) = chat_entries key s).
  { apply list_filter_iff. intros x. unfold query_selects. cbn. split; [intros (_ & _ & H3 & _); by apply H3|intros Hx; split_and!; try done; lia]. }
  rewrite Hall in Hes. set (newest := lastn (Z.to_nat n) (chat_entries key s)) in *.
  assert (Hlen : (n <? len es) = false).
  { apply Z.ltb_ge. rewrite Hes. unfold len. rewrite length_fmap. unfold newest, lastn. rewrite length_drop. lia. }
  rewrite Hlen in H. rewrite Hes, fmap_last in H. destruct (last newest) as [x|] eqn:El; cbn in H.
  - injection H as <- <-. split; [done|]. cbv zeta. cbn. split; [done|]. split; [done|]. fold newest. rewrite El. by intros y [= <-].
  - change (""%string != ""%string) with false in H. cbv iota in H. unfold latestCursor, io_bind in H.
    match type of H with context [wrap_inbox ?m s1] => destruct (wrap_inbox m s1) as [[es'|e] s2] eqn:E2 end; apply wrap_List in E2 as (Hi2 & _ & _ & Herr); try done.
    + destruct es'; injection H as <- <-; (split; [done|]); cbv zeta; cbn; (split; [done|]); (split; [done|]); fold newest; by rewrite El.
    + injection H as <- <-. split; [done|]. destruct Herr as [e' Hl]. do 4 eexists. split; [exact Hi1|exact Hl].
Qed.

(** The resource of a chat, under the URI that the list of chats and the notifications give it: it has the newest entries of exactly that
    chat, up to 50 and oldest first, and its cursor resumes after them; it fails only if the store does. *)
Theorem readChat_spec key s : inbox_inv (app_world s) -> key <> ""%string ->
  match (readChat (chatURI key) s).1 with
  | Ok out => let newest := lastn 50 (chat_entries key s) in
      ch_Messages out = st_entry <$> newest /\ ch_Chat out = ie_Chat ∘ st_entry <$> head newest
      /\ forall x, last newest = Some x -> ch_Cursor out = FormatCursor (ie_ID (st_entry x))
  | Err _ => @store_failed W B L
  end.
Proof.
  intros Hi Hk. unfold readChat. rewrite chatKey_chatURI by done. unfold io_bind at 1.
  destruct (List_ _ s) as [r s1] eqn:E. apply List_newest in E as [_ H]; try done. destruct r as [page|e]; [|done].
  unfold tool_names, io_try, io_bind. destruct (App_Names s1) as [rn s2]. cbn. cbv zeta in H. destruct H as (He & _ & Hc).
  change (Z.to_nat (page_limit 0)) with 50%nat in He, Hc. rewrite He. split; [done|]. split; [by destruct (lastn 50 _)|done].
Qed.
End reading.

(** ** Saving an attachment *)

Section saved.
Context {U : UuidLib} {W : Type} {C : Client W} {B : InboxBackend W} {T : NameTables} {E : DownloadEnv (App W)}.

(** The tool only adds files, and only to the server's download directory. *)
Lemma attachmentGet_adds dir inp : (forall (s : App W) env m s', Message_ (agi_Message inp) s = (Ok (env, m), s') -> 0 <= env_Timestamp env) ->
  adds dir (attachmentGet dir inp) (fun _ _ _ => True).
Proof.
  intros Hm. unfold attachmentGet. case_bool_decide; [apply adds_err|]. apply adds_seq; [|intros saved; apply adds_return].
  assert (H0 : 0 <= 0) by lia. apply (saving_only_adds dir 0 _ (mkMessage "" [] [] None None None false []) None None _ _ H0 Hm).
Qed.
End saved.

(** ** At concrete inputs *)

(** The seconds are multiplied without a check: a huge timeout waits a third of a second, a larger one the default. *)
Example wait_duration_wraps : wait_duration 60 = MaxWait /\ wait_duration 18446744074 = 290448384 /\ wait_duration 9223372037 < 0.
Proof. by vm_compute. Qed.

(** The spelling of a group's URI, and another one that reads as the same chat. *)
Example group_uri : chatURI "group:a+/=" = "signal://chat/group%3Aa%2B%2F%3D"%string /\ chatKey "signal://chat/%67roup:a+%2F=" = Some "group:a+/="%string.
Proof. by vm_compute. Qed.

Section witnesses.
#[local] Existing Instance InboxApp.demo_encoding.
#[local] Existing Instance InboxApp.demo_poll_encoding.
#[local] Existing Instance InboxApp.demo_backend.
#[local] Existing Instance InboxApp.demo_laws.
#[local] Existing Instance InboxApp.demo_sender_client.
#[local] Instance demo_directory : DirectoryClient mclient := {|
  client_Contacts := io_ret []; client_Contact := fun _ => io_err (Sent ErrUnknownContact); client_GroupTitles := io_ret ∅; client_SetBlocked := fun _ _ => io_ret tt |}.
#[local] Instance demo_sdk : Sdk := {| ResourceNotFoundError := Opaque |}.

Lemma chatURI_roundtrip_witness : chatKey (chatURI "group:a/b=") = Some "group:a/b="%string.
Proof. destruct (@chatURI_roundtrip demo_sdk) as (H & _). apply (H "group:a/b="%string). discriminate. Defined.

Lemma readChat_spec_witness : match (readChat (chatURI "a") InboxApp.demo_app).1 with Ok out => (ie_ID <$> ch_Messages out) = [1; 2; 5] | Err _ => False end.
Proof.
  assert (Hk : "a"%string <> ""%string) by discriminate. pose proof (readChat_spec "a" InboxApp.demo_app InboxApp.demo_inv Hk) as S.
  assert (E : match (readChat (chatURI "a") InboxApp.demo_app).1 with Ok _ => True | Err _ => False end) by (vm_compute; exact I).
  destruct (readChat (chatURI "a") InboxApp.demo_app).1 as [out|e]; [|contradiction E]. destruct S as (-> & _). vm_compute. reflexivity.
Defined.
End witnesses.
