(* ===== verification/McpHook.v ===== *)
(** * Running a program for new messages (internal/mcp/hook.go), and serving (server.go, http.go)

    The receive loop hands every new inbox entry to [offer], which queues it if the program is to run for it; [run] takes the queued entries
    one at a time, on a goroutine of its own. [move] says which of the two acts next, so that the theorem holds for every interleaving. What a
    run of the program gives, and how an entry is encoded for it, is the class [Program]. *)

From S2P Require Import Prelude Errors Uuid Utf8 Strconv Types SendCheck Groups Recipients SendFlow Directory InboxStore InboxEvents PollStore InboxClient InboxApp McpInbox.

Definition hookQueue : nat := 64.
Definition hookOutputLimit : Z := Z.shiftl 64 10.
#[global] Arguments hookQueue : simpl never.

(** ** Output of a run *)

(** [limitedBuffer.Write]: what is kept, and the count that is reported. *)
Definition Write (b p : string) : string * Z :=
  let room := hookOutputLimit - slen b in
  (if 0 <? room then (b ++ String.substring 0 (Z.to_nat (Z.min (slen p) room)) p)%string else b, slen p).
Definition written (parts : list string) : string := foldl (fun b p => (Write b p).1) ""%string parts.

(** [strings.Lines]: every line with its newline. *)
Fixpoint lines_from (line s : string) : list string :=
  match s with
  | EmptyString => if line == "" then [] else [line]
  | String a t => let line := (line ++ String a "")%string in if byte_of a =? 10 then line :: lines_from ""%string t else lines_from line t
  end.
(** [strings.TrimRight] of newlines and carriage returns. *)
Fixpoint trim_newlines (s : string) : string :=
  match s with
  | EmptyString => EmptyString
  | String a t => let rest := trim_newlines t in if (rest == "") && ((byte_of a =? 10) || (byte_of a =? 13)) then ""%string else String a rest
  end.
(** The lines that [logLines] logs. *)
Definition logged_lines (out : string) : list string := filter (fun line => line <> ""%string) (trim_newlines <$> lines_from ""%string out).

(** ** A run *)

Definition senderArg (evt : Event) : string :=
  match evt with
  | EvMessage env _ => if Number (env_Sender env) != "" then Number (env_Sender env) else Recipient_String (env_Sender env)
  | _ => ""
  end.

(** How a run ended: with the state of its context and the error of the program. *)
Inductive ctx_state := Running | DeadlineExceeded | ContextDone.
Inductive verdict := KilledByTimeout | KilledByStop | HookFailed | HookRan.
Definition run_verdict (ctx : ctx_state) (e : error) : verdict :=
  match ctx, e with
  | DeadlineExceeded, _ => KilledByTimeout
  | ContextDone, _ => KilledByStop
  | Running, Some _ => HookFailed
  | Running, None => HookRan
  end.

Class Program (W : Type) := {
  entry_json : InboxEntry -> Names -> option string;
  run_program : string -> list (string * string) -> W -> (ctx_state * error * list string * list string) * W;
}.

(** A finished run: its entry, what it got, and what was logged of it. *)
Record hook_log := mkLog {
  hl_entry : InboxEntry; hl_stdin : string; hl_env : list (string * string); hl_stdout : list string; hl_stderr : list string; hl_verdict : verdict }.

(** The hook and the application it uses. *)
Record hook (W : Type) := mkHook { hk_queue : list InboxEntry; hk_runs : list hook_log; hk_app : App W }.
Arguments mkHook {W}. Arguments hk_queue {W}. Arguments hk_runs {W}. Arguments hk_app {W}.

Definition hook_env (entry : InboxEntry) : list (string * string) :=
  [("GOSIGNAL_ENTRY_ID", FormatCursor (ie_ID entry)); ("GOSIGNAL_CHAT", Chat_Key (ie_Chat entry)); ("GOSIGNAL_SENDER", senderArg (ie_Event entry))]%string.

Section hook.
Context {U : UuidLib} {W : Type} {C : Client W} {D : DirectoryClient W} {P : Program W} (from : option Allowlist).
Notation M := (io (hook W) err).

Definition hook_app {A} (m : io (App W) err A) : M A := fun h => let (r, a) := m (hk_app h) in (r, mkHook (hk_queue h) (hk_runs h) a).

(** An incoming message, and no transcript of our own. *)
Definition wanted (entry : InboxEntry) : bool :=
  match ie_Event entry with EvMessage env _ => negb (env_Sync env) && ie_Unread entry | _ => false end.

Definition offer (entry : InboxEntry) : M unit :=
  if negb (wanted entry) then io_ret tt
  else
    let* allowed := io_try (hook_app (ChatAllowed from (ie_Chat entry))) in
    match allowed with
    | Ok true => fun h => (Ok tt, mkHook (if decide (length (hk_queue h) < hookQueue)%nat then hk_queue h ++ [entry] else hk_queue h) (hk_runs h) (hk_app h))
    | _ => io_ret tt
    end.

Definition hook_exec (entry : InboxEntry) : M unit :=
  let* names := io_try (hook_app App_Names) in
  let names := match names with Ok n => n | Err _ => mkNames "" ∅ ∅ ∅ end in
  match entry_json entry names with
  | None => io_ret tt
  | Some payload =>
      let stdin := (payload ++ String (ascii_of 10) "")%string in
      let* out := hook_app (lift (fun w => let (out, w) := run_program stdin (hook_env entry) w in (Ok out, w))) in
      let '(ctx, e, stdout, stderr) := out : ctx_state * error * list string * list string in
      fun h => (Ok tt, mkHook (hk_queue h)
        (hk_runs h ++ [mkLog entry stdin (hook_env entry) (logged_lines (written stdout)) (logged_lines (written stderr)) (run_verdict ctx e)]) (hk_app h))
  end.

(** One round of [run]; with an empty queue it waits. *)
Definition run_next : M unit := fun h =>
  match hk_queue h with
  | [] => (Ok tt, h)
  | entry :: rest => hook_exec entry (mkHook rest (hk_runs h) (hk_app h))
  end.

(** The receive loop stored an entry, or the goroutine of the hook has its turn. *)
Inductive move := Added (entry : InboxEntry) | Turn.
Definition make_move (m : move) : M unit := match m with Added entry => offer entry | Turn => run_next end.
Fixpoint make_moves (moves : list move) : M unit :=
  match moves with [] => io_ret tt | m :: rest => let* _ := make_move m in make_moves rest end.
End hook.

(** [Server.added]: the subscribers that are told, and the hook's turn if there is one. *)
Definition server_added {W} {U : UuidLib} {C : Client W} (from : option (option Allowlist)) (entry : InboxEntry) : io (hook W) err (list string) :=
  let* _ := (match from with Some from => offer from entry | None => io_ret tt end) in io_ret (notified entry).

(** ** Serving *)

(** What [serve] returns for the errors of [run] and of receiving. *)
Definition serve_result (run_err recv_err : error) : error :=
  match recv_err with
  | Some e => if errIs e ContextCanceled then
                match run_err with None => None | Some e' => if errIs e' ContextCanceled then None else Some (Wrap [e']) end
              else Some (Wrap [e])
  | None => match run_err with None => None | Some e' => if errIs e' ContextCanceled then None else Some (Wrap [e']) end
  end.

(** [ServeHTTP] needs a token and accepts no other. *)
Definition ServeHTTP_check (token : string) : error := if token == "" then Some (Sent ErrNoToken) else None.
Definition verifyToken (token got : string) : bool := got == token.

(** ** Limited output *)

Lemma substring_all (s : string) n : (String.length s <= n)%nat -> String.substring 0 n s = s.
Proof. revert n. induction s as [|a s IH]; intros n Hn; cbn in *; [by destruct n|]. destruct n as [|n]; [lia|]. cbn. by rewrite IH by lia. Qed.
Lemma substring_app_prefix (s t : string) n : (String.length s <= n)%nat -> String.substring 0 n (s ++ t) = (s ++ String.substring 0 (n - String.length s) t)%string.
Proof.
  revert n. induction s as [|a s IH]; intros n Hn; cbn in Hn |- *; [rewrite string_app_nil, Nat.sub_0_r; done|].
  destruct n as [|n]; [lia|]. rewrite !string_app_cons. cbn. by rewrite IH by lia.
Qed.
Lemma substring_full (s t : string) n : (n <= String.length s)%nat -> String.substring 0 n (s ++ t) = String.substring 0 n s.
Proof.
  revert n. induction s as [|a s IH]; intros n Hn; cbn in Hn; [assert (n = O) as -> by lia; by destruct t|].
  destruct n as [|n]; [done|]. rewrite string_app_cons. cbn. by rewrite IH by lia.
Qed.

Definition limit : nat := Z.to_nat hookOutputLimit.
Lemma Write_prefix (s p : string) : (Write (String.substring 0 limit s) p).1 = String.substring 0 limit (s ++ p).
Proof.
  unfold Write. cbn [fst]. assert (Hl : hookOutputLimit = Z.of_nat limit) by (unfold limit; vm_compute; done).
  rewrite Hl. generalize limit as n. intros n. clear Hl. destruct (Nat.le_gt_cases (String.length s) n) as [Hs|Hs].
  - rewrite (substring_all s n Hs), substring_app_prefix by done. unfold slen. destruct (0 <? Z.of_nat n - Z.of_nat (String.length s)) eqn:E.
    + f_equal. destruct (Nat.le_gt_cases (String.length p) (n - String.length s)) as [Hp|Hp].
      * rewrite !substring_all; [done|lia|lia].
      * f_equal. apply Z.ltb_lt in E. lia.
    + apply Z.ltb_ge in E. assert ((n - String.length s)%nat = O) as -> by lia. destruct p; by rewrite string_app_empty.
  - rewrite substring_full by lia. assert (Hn : String.length (String.substring 0 n s) = n).
    { clear p. revert n Hs. induction s as [|a s IH]; intros [|n] Hs; cbn in *; try lia. by rewrite IH by lia. }
    unfold slen. rewrite Hn, Z.sub_diag. done.
Qed.
Lemma written_from parts : forall s, foldl (fun b p => (Write b p).1) (String.substring 0 limit s) parts = String.substring 0 limit (foldl String.append s parts).
Proof. induction parts as [|p parts IH]; intros s; [done|]. cbn [foldl]. by rewrite Write_prefix, IH. Qed.
(** However the output is cut into writes, its first 64 KiB are kept. *)
Lemma written_prefix parts : written parts = String.substring 0 limit (foldl String.append ""%string parts).
Proof. unfold written. pose proof (written_from parts "") as H. change (String.substring 0 limit "") with ""%string in H. exact H. Qed.

(** ** The queue *)

Section queue.
Context {U : UuidLib} {W : Type} {C : Client W} {D : DirectoryClient W} {P : Program W} (from : option Allowlist).

(** An incoming message of a chat that the hook allows. *)
Definition hookable (entry : InboxEntry) : Prop :=
  (exists env m, ie_Event entry = EvMessage env m /\ env_Sync env = false) /\ ie_Unread entry = true
  /\ exists (a a' : App W), ChatAllowed from (ie_Chat entry) a = (Ok true, a').
Definition offered (moves : list move) : list InboxEntry := omap (fun m => match m with Added e => Some e | Turn => None end) moves.

(** What has been run and what is queued comes from the stored entries, in their order. *)
Definition in_order (es : list InboxEntry) (h : hook W) : Prop :=
  (length (hk_queue h) <= hookQueue)%nat
  /\ (hl_entry <$> hk_runs h) ++ hk_queue h `sublist_of` es
  /\ Forall hookable ((hl_entry <$> hk_runs h) ++ hk_queue h)
  /\ Forall (fun l => hl_env l = hook_env (hl_entry l)) (hk_runs h).

Lemma wanted_message entry : wanted entry = true -> (exists env m, ie_Event entry = EvMessage env m /\ env_Sync env = false) /\ ie_Unread entry = true.
Proof.
  unfold wanted. destruct (ie_Event entry); try done. intros [Hs Hu]%andb_true_iff. split; [|done]. do 2 eexists. split; [done|]. by apply negb_true_iff.
Qed.

Lemma in_order_more es es' h : es `sublist_of` es' -> in_order es h -> in_order es' h.
Proof. intros Hs (H1 & H2 & H3). split; [done|]. split; [by etrans|done]. Qed.

Lemma offer_in_order es entry h : in_order es h -> let (r, h') := offer from entry h in r = Ok tt /\ in_order (es ++ [entry]) h'.
Proof.
  intros Hin. assert (Hmore : forall h', hk_queue h' = hk_queue h -> hk_runs h' = hk_runs h -> in_order (es ++ [entry]) h').
  { intros h' Hq Hr. apply (in_order_more es); [by apply sublist_inserts_r|]. unfold in_order. by rewrite Hq, Hr. }
  unfold offer. destruct (wanted entry) eqn:Ew; cbn; [|split; [done|by apply Hmore]]. unfold io_bind, io_try, hook_app.
  destruct (ChatAllowed from (ie_Chat entry) (hk_app h)) as [[[]|e] a] eqn:Ea; cbn; [|split; [done|by apply Hmore]|split; [done|by apply Hmore]].
  split; [done|]. case_decide as Hroom; [|by apply Hmore]. destruct Hin as (H1 & H2 & H3 & H4). split; [cbn; rewrite length_app; cbn; lia|].
  cbn. rewrite app_assoc. split; [by apply sublist_app|]. split; [|done]. apply Forall_app. split; [done|]. constructor; [|done].
  destruct (wanted_message _ Ew). split; [done|]. split; [done|]. by exists (hk_app h), a.
Qed.

Lemma run_in_order es h : in_order es h -> let (r, h') := run_next h in r = Ok tt /\ in_order es h'.
Proof.
  intros Hin. unfold run_next. destruct (hk_queue h) as [|entry rest] eqn:Eq; [done|]. destruct Hin as (H1 & H2 & H3 & H4). rewrite Eq in H1, H2, H3.
  unfold hook_exec, io_bind at 1, io_try, hook_app at 1. cbn [hk_app hk_queue hk_runs]. destruct (App_Names (hk_app h)) as [rn a]. cbn [hk_app hk_queue hk_runs].
  set (names := match rn with Ok n => n | Err _ => _ end). cbn in H1. destruct (entry_json entry names) as [payload|].
  - unfold io_bind, hook_app, lift. cbn [hk_app]. destruct (run_program _ _ _) as [[[[ctx e] out] errs] w]. split; [done|]. split; [cbn; lia|].
    cbn. rewrite fmap_app, <- app_assoc. split; [done|]. split; [done|]. apply Forall_app. split; [done|]. by constructor.
  - split; [done|]. split; [cbn; lia|]. cbn. split; [etrans; [|exact H2]; apply sublist_app; [done|by apply sublist_cons]|]. split; [|done].
    apply Forall_app in H3 as [H3 H5]. apply Forall_cons in H5 as [_ H5]. by apply Forall_app.
Qed.

Lemma moves_in_order moves : forall es h, in_order es h -> let (r, h') := make_moves from moves h in r = Ok tt /\ in_order (es ++ offered moves) h'.
Proof.
  induction moves as [|m moves IH]; intros es h Hin; [cbn; by rewrite app_nil_r|]. cbn [make_moves]. unfold io_bind.
  assert (Hm : let (r, h') := make_move from m h in r = Ok tt /\ in_order (es ++ offered [m]) h').
  { destruct m; [by apply offer_in_order|]. cbn. rewrite app_nil_r. by apply run_in_order. }
  destruct (make_move from m h) as [r h1]. destruct Hm as [-> H1]. specialize (IH _ _ H1). destruct (make_moves from moves h1) as [r2 h2].
  destruct IH as [-> H2]. split; [done|]. rewrite <- app_assoc in H2. by destruct m.
Qed.

(** C29. The program runs, however the receive loop and the runs interleave, only for messages that others sent, that were stored as unread and whose chat the
    allowlist of the hook contained when they were offered; at most once for each and in the order in which they were stored, with the entry's
    own ID, chat and sender in its environment; at most 64 wait. A message that is to be run for and finds room is queued, behind the others. *)
Theorem hook_spec (moves : list move) (a : App W) :
  (let (r, h) := make_moves from moves (mkHook [] [] a) in r = Ok tt /\ in_order (offered moves) h)
  /\ forall (h : hook W) entry a', wanted entry = true -> ChatAllowed from (ie_Chat entry) (hk_app h) = (Ok true, a') -> (length (hk_queue h) < hookQueue)%nat ->
     hk_queue (offer from entry h).2 = hk_queue h ++ [entry].
Proof.
  split.
  - apply (moves_in_order moves [] (mkHook [] [] a)). split; [cbn; lia|]. by repeat split.
  - intros h entry a' Hw Ha Hroom. unfold offer, io_bind, io_try, hook_app. rewrite Hw. cbn. rewrite Ha. cbn. by rewrite decide_True.
Qed.
End queue.

(** ** A witness *)

Section witnesses.
Import DemoUuid.
#[local] Existing Instance McpInbox.demo_directory.
#[local] Existing Instance InboxApp.demo_sender_client.
#[local] Instance demo_program : Program mclient := {| entry_json := fun _ _ => Some "{}"%string; run_program := fun _ _ w => ((Running, None, ["hello"%string], []), w) |}.

Definition demo_entry (n : Z) (sync : bool) : InboxEntry :=
  mkEntry n n n (mkChat "" (ofACI InboxApp.demo_sender))
    (EvMessage (mkEnvelope (ofACI InboxApp.demo_sender) (mkChat "" (ofACI InboxApp.demo_sender)) n 0 sync) (mkMessage "hi" [] [] None None None false [])) true.
Definition demo_all : option Allowlist := match ParseAllowlist 1 ["*"%string] with Ok l => Some l | Err _ => None end.
Definition demo_moves : list move := [Added (demo_entry 1 false); Added (demo_entry 2 true); Turn; Added (demo_entry 3 false); Turn].

Lemma hook_spec_witness :
  (let (r, h) := make_moves demo_all demo_moves (mkHook [] [] InboxApp.demo_app) in r = Ok tt /\ in_order demo_all (offered demo_moves) h)
  /\ (fun l => ie_ID (hl_entry l)) <$> hk_runs (make_moves demo_all demo_moves (mkHook [] [] InboxApp.demo_app)).2 = [1; 3]
  /\ hk_queue (offer demo_all (demo_entry 1 false) (mkHook [] [] InboxApp.demo_app)).2 = [demo_entry 1 false].
Proof.
  destruct (hook_spec demo_all demo_moves InboxApp.demo_app) as [H1 H2]. split; [exact H1|]. split; [vm_compute; reflexivity|].
  apply (H2 (mkHook [] [] InboxApp.demo_app) (demo_entry 1 false) InboxApp.demo_app); vm_compute; [reflexivity|reflexivity|lia].
Defined.
End witnesses.
