(* ===== verification/FileSys.v ===== *)
(** * The data directory as a file system, and programs that may stop anywhere

    A file system maps paths (below the data directory) to files and directories. A program is a
    sequence of primitives: each is carried out, fails without effect, or the process stops before
    it, as a list of outcomes in the world decides. [ctriple] is the program logic: what holds
    after a run that returns, and what holds whenever the process stops. *)

From S2P Require Import Prelude Errors.

Notation path := (list string) (only parsing).

Inductive node := File (data : string) | Directory.
#[export] Instance node_eq_dec : EqDecision node.
Proof. solve_decision. Defined.

Notation filesystem := (gmap (list string) node).

(** ** Operations of package os *)

(** The directory a path is in exists; the data directory itself always does. *)
Definition parent_of (p : path) : path := take (length p - 1) p.
Definition parent_exists (p : path) (fs : filesystem) : bool :=
  match parent_of p with
  | [] => true
  | parent => bool_decide (fs !! parent = Some Directory)
  end.

Definition fs_Lstat (p : path) (fs : filesystem) : res node :=
  match fs !! p with Some n => Ok n | None => Err (Sent fs_ErrNotExist) end.

Definition fs_ReadFile (p : path) (fs : filesystem) : res string :=
  match fs !! p with
  | Some (File data) => Ok data
  | Some Directory => Err (Opaque "is a directory")
  | None => Err (Sent fs_ErrNotExist)
  end.

(** [os.ReadDir]: the names in a directory, sorted. *)
Definition child_of (p q : path) : option string :=
  match drop (length p) q with
  | [name] => if bool_decide (take (length p) q = p) then Some name else None
  | _ => None
  end.
Definition fs_ReadDir (p : path) (fs : filesystem) : res (list string) :=
  match fs !! p with
  | Some Directory => Ok (sort_by String.leb (omap (child_of p) (map_to_list fs).*1))
  | Some (File _) => Err (Opaque "not a directory")
  | None => Err (Sent fs_ErrNotExist)
  end.

(** [os.Mkdir], [os.MkdirAll] one level below an existing directory. *)
Definition fs_Mkdir (p : path) (fs : filesystem) : res unit * filesystem :=
  match fs !! p with
  | Some _ => (Err (Opaque "file exists"), fs)
  | None => if parent_exists p fs then (Ok tt, <[p := Directory]> fs) else (Err (Sent fs_ErrNotExist), fs)
  end.
Definition fs_MkdirAll (p : path) (fs : filesystem) : res unit * filesystem :=
  match fs !! p with Some Directory => (Ok tt, fs) | _ => fs_Mkdir p fs end.

(** [O_CREATE|O_EXCL], and writing a file that is open. *)
Definition fs_Create (p : path) (fs : filesystem) : res unit * filesystem :=
  match fs !! p with
  | Some _ => (Err (Opaque "file exists"), fs)
  | None => if parent_exists p fs then (Ok tt, <[p := File ""]> fs) else (Err (Sent fs_ErrNotExist), fs)
  end.
Definition fs_Write (p : path) (data : string) (fs : filesystem) : res unit * filesystem :=
  match fs !! p with
  | Some (File _) => (Ok tt, <[p := File data]> fs)
  | _ => (Err (Sent fs_ErrNotExist), fs)
  end.

(** [os.Rename] of a file, which replaces a file at the new path. *)
Definition fs_RenameFile (src dst : path) (fs : filesystem) : res unit * filesystem :=
  match fs !! src, fs !! dst with
  | Some (File data), (None | Some (File _)) => (Ok tt, <[dst := File data]> (delete src fs))
  | None, _ => (Err (Sent fs_ErrNotExist), fs)
  | _, _ => (Err (Opaque "rename"), fs)
  end.

(** Exchanging two subtrees; where nothing is at [dst] this moves [src] there. *)
Definition below (p q : path) : option path :=
  if bool_decide (take (length p) q = p) then Some (drop (length p) q) else None.
Definition swap (src dst q : path) : path :=
  match below src q with
  | Some r => dst ++ r
  | None => match below dst q with Some r => src ++ r | None => q end
  end.

(** [renameNoReplace], and [os.Rename] of a directory to a new path. *)
Definition fs_RenameDir (src dst : path) (fs : filesystem) : res unit * filesystem :=
  match fs !! src, fs !! dst with
  | None, _ => (Err (Sent fs_ErrNotExist), fs)
  | _, Some _ => (Err (Opaque "file exists"), fs)
  | Some _, None => (Ok tt, kmap (swap src dst) fs)
  end.

(** [os.Remove]: a file or an empty directory. *)
Definition fs_Remove (p : path) (fs : filesystem) : res unit * filesystem :=
  match fs !! p with
  | None => (Err (Sent fs_ErrNotExist), fs)
  | Some (File _) => (Ok tt, delete p fs)
  | Some Directory =>
      if bool_decide (omap (child_of p) (map_to_list fs).*1 = []) then (Ok tt, delete p fs)
      else (Err (Opaque "directory not empty"), fs)
  end.

(** The paths [os.RemoveAll] removes. *)
Definition paths_below (p : path) (fs : filesystem) : list path :=
  filter (fun q => is_Some (below p q)) (map_to_list fs).*1.

(** ** Lemmas on paths *)

Lemma below_Some p q r : below p q = Some r <-> q = p ++ r.
Proof.
  unfold below. case_bool_decide as H.
  - split; [|intros ->; by rewrite drop_app_length]. intros [= <-]. rewrite <- (take_drop (length p) q) at 1. by rewrite H.
  - split; [done|]. intros ->. destruct H. apply take_app_length.
Qed.

Lemma below_None p q : below p q = None <-> forall r, q <> p ++ r.
Proof.
  split; [intros H r E; apply below_Some in E; congruence|]. intros H. destruct (below p q) as [r|] eqn:E; [|done].
  apply below_Some in E. by destruct (H r).
Qed.

Lemma below_app p r : below p (p ++ r) = Some r.
Proof. by apply below_Some. Qed.

(** Neither path is below the other. *)
Definition apart (p q : path) : Prop := below p q = None /\ below q p = None.

Lemma apart_below p q r : apart p q -> below p (q ++ r) = None.
Proof.
  intros [H1 H2]. apply below_None. intros s E. rewrite below_None in H1, H2.
  destruct (decide (length p <= length q)%nat) as [Hl|Hl].
  - destruct (H1 (drop (length p) q)). apply (f_equal (take (length p))) in E. rewrite take_app_length in E.
    rewrite take_app_le in E by done. rewrite <- E at 1. by rewrite take_drop.
  - destruct (H2 (drop (length q) p)). apply (f_equal (take (length q))) in E. rewrite take_app_length in E.
    rewrite take_app_le in E by lia. rewrite E at 1. by rewrite take_drop.
Qed.

Lemma apart_sym p q : apart p q -> apart q p.
Proof. by intros []. Qed.

Lemma swap_src src dst r : swap src dst (src ++ r) = dst ++ r.
Proof. unfold swap. by rewrite below_app. Qed.
Lemma swap_dst src dst r : apart src dst -> swap src dst (dst ++ r) = src ++ r.
Proof. intros H. unfold swap. rewrite apart_below by done. by rewrite below_app. Qed.
Lemma swap_other src dst q : below src q = None -> below dst q = None -> swap src dst q = q.
Proof. intros H1 H2. unfold swap. by rewrite H1, H2. Qed.

Lemma swap_swap src dst q : apart src dst -> swap src dst (swap src dst q) = q.
Proof.
  intros H. destruct (below src q) as [r|] eqn:E1.
  - apply below_Some in E1 as ->. by rewrite swap_src, swap_dst.
  - destruct (below dst q) as [r|] eqn:E2; [apply below_Some in E2 as ->; by rewrite swap_dst, swap_src|].
    by rewrite !(swap_other src dst q).
Qed.

Lemma lookup_swap (src dst q : path) (fs : filesystem) : apart src dst ->
  (kmap (swap src dst) fs : filesystem) !! q = fs !! swap src dst q.
Proof.
  intros H. assert (Inj (=) (=) (swap src dst)).
  { intros a b E. apply (f_equal (swap src dst)) in E. by rewrite !swap_swap in E. }
  rewrite <- (swap_swap src dst q H) at 1. by rewrite (lookup_kmap (M2:=gmap (list string)) (swap src dst)).
Qed.

Lemma child_of_Some p q name : child_of p q = Some name <-> q = p ++ [name].
Proof.
  unfold child_of. destruct (drop (length p) q) as [|a [|b l]] eqn:E.
  - split; [done|]. intros ->. by rewrite drop_app_length in E.
  - case_bool_decide as H.
    + split; [intros [= <-]; rewrite <- (take_drop (length p) q); by rewrite H, E|]. intros ->. rewrite drop_app_length in E. congruence.
    + split; [done|]. intros ->. destruct H. apply take_app_length.
  - split; [done|]. intros ->. by rewrite drop_app_length in E.
Qed.

Lemma elem_of_children (p : path) (fs : filesystem) (name : string) :
  name ∈ omap (child_of p) (map_to_list fs).*1 <-> is_Some (fs !! (p ++ [name])).
Proof.
  rewrite list_elem_of_omap. split.
  - intros (q & Hq & ->%child_of_Some). apply list_elem_of_fmap in Hq as ([q' n] & -> & Hq). apply elem_of_map_to_list in Hq. by exists n.
  - intros [n Hn]. exists (p ++ [name]). split; [|by apply child_of_Some]. apply list_elem_of_fmap. exists (p ++ [name], n).
    split; [done|]. by apply elem_of_map_to_list.
Qed.

Lemma elem_of_paths_below (p q : path) (fs : filesystem) : q ∈ paths_below p fs <-> is_Some (below p q) /\ is_Some (fs !! q).
Proof.
  unfold paths_below. rewrite list_elem_of_filter, list_elem_of_fmap. split.
  - intros [Hb ([q' n] & -> & Hin)]. apply elem_of_map_to_list in Hin. split; [done|by exists n].
  - intros [Hb [n Hn]]. split; [done|]. exists (q, n). split; [done|]. by apply elem_of_map_to_list.
Qed.

(** ** Programs *)

(** What the next primitive does: it is carried out, it fails without effect, or the process stops
    before it. After the listed outcomes everything is carried out. *)
Inductive fault := Proceed | Failing | Stopping.

(** The data directory, the outcomes to come, the lock files some process holds, random names, and
    the program's own state [X]. *)
Record osworld (X : Type) := mkWorld {
  ow_fs : filesystem; ow_faults : list fault; ow_held : gset (list string); ow_random : list string; ow_state : X }.
Arguments mkWorld {X}.
Arguments ow_fs {X}.
Arguments ow_faults {X}.
Arguments ow_held {X}.
Arguments ow_random {X}.
Arguments ow_state {X}.

Section programs.
Context {X : Type}.
Notation W := (osworld X).

(** [None]: the process has stopped. *)
Definition os (A : Type) : Type := W -> option (res A) * W.

Definition os_ret {A} (a : A) : os A := fun w => (Some (Ok a), w).
Definition os_err {A} (e : err) : os A := fun w => (Some (Err e), w).
Definition os_of {A} (r : res A) : os A := fun w => (Some r, w).
Definition os_bind {A B} (m : os A) (k : A -> os B) : os B := fun w =>
  match m w with
  | (Some (Ok a), w') => k a w'
  | (Some (Err e), w') => (Some (Err e), w')
  | (None, w') => (None, w')
  end.
(** Run [m] and keep its error as a value. *)
Definition os_try {A} (m : os A) : os (res A) := fun w =>
  match m w with (Some r, w') => (Some (Ok r), w') | (None, w') => (None, w') end.

Definition next (w : W) : W := mkWorld (ow_fs w) (tail (ow_faults w)) (ow_held w) (ow_random w) (ow_state w).
Definition with_fs (fs : filesystem) (w : W) : W := mkWorld fs (ow_faults w) (ow_held w) (ow_random w) (ow_state w).
Definition with_held (f : gset (list string) -> gset (list string)) (w : W) : W :=
  mkWorld (ow_fs w) (ow_faults w) (f (ow_held w)) (ow_random w) (ow_state w).

(** A primitive on the file system. *)
Definition prim {A} (f : filesystem -> res A * filesystem) : os A := fun w =>
  match default Proceed (head (ow_faults w)) with
  | Stopping => (None, next w)
  | Failing => (Some (Err (Opaque "i/o")), next w)
  | Proceed => let (r, fs) := f (ow_fs w) in (Some r, with_fs fs (next w))
  end.
Definition query {A} (f : filesystem -> res A) : os A := prim (fun fs => (f fs, fs)).

(** [tryLock] on an open file, and closing it. *)
Definition tryLock (p : path) : os unit := fun w =>
  match default Proceed (head (ow_faults w)) with
  | Stopping => (None, next w)
  | Failing => (Some (Err (Opaque "flock")), next w)
  | Proceed => if bool_decide (p ∈ ow_held w) then (Some (Err (Sent errWouldBlock)), next w)
               else (Some (Ok tt), with_held (fun h => {[p]} ∪ h) (next w))
  end.
Definition unlock (p : path) : os unit := fun w => (Some (Ok tt), with_held (fun h => h ∖ {[p]}) w).

(** A random name ([newToken], the suffix of [os.CreateTemp]). *)
Definition random : os string := fun w =>
  match default Proceed (head (ow_faults w)) with
  | Stopping => (None, next w)
  | Failing => (Some (Err (Opaque "random")), next w)
  | Proceed => (Some (Ok (default ""%string (head (ow_random w)))),
               mkWorld (ow_fs w) (tail (ow_faults w)) (ow_held w) (tail (ow_random w)) (ow_state w))
  end.

Definition os_get : os X := fun w => (Some (Ok (ow_state w)), w).
Definition os_put (x : X) : os unit := fun w =>
  (Some (Ok tt), mkWorld (ow_fs w) (ow_faults w) (ow_held w) (ow_random w) x).

(** ** The logic *)

(** In runs without faults ([nf]) nothing fails for a reason of its own and nothing stops. *)
Definition clean (nf : bool) (w : W) : Prop := nf = true -> ow_faults w = [].

(** From [P], a run that returns [r] satisfies [Q r], one that stops satisfies [I]. *)
Definition ctriple (nf : bool) (P : W -> Prop) {A} (m : os A) (Q : res A -> W -> Prop) (I : W -> Prop) : Prop :=
  forall w, clean nf w -> P w ->
    match m w with
    | (Some r, w') => clean nf w' /\ Q r w'
    | (None, w') => nf = false /\ I w'
    end.

(** The post of a program whose failures are faults. *)
Definition post {A} (nf : bool) (Q : A -> W -> Prop) (I : W -> Prop) (r : res A) (w : W) : Prop :=
  match r with Ok a => Q a w | Err _ => nf = false /\ I w end.

Context {nf : bool} {I : W -> Prop}.

Lemma clean_next w : clean nf w -> clean nf (next w).
Proof. intros H Hn. cbn. by rewrite (H Hn). Qed.

(** In a run without faults the next outcome is to proceed. *)
Lemma clean_proceeds w : clean nf w -> default Proceed (head (ow_faults w)) <> Proceed -> nf = false.
Proof. intros H Hne. destruct nf; [|done]. rewrite (H eq_refl) in Hne. by destruct Hne. Qed.

Lemma ctriple_mono {A} (I' : W -> Prop) (P : W -> Prop) (m : os A) (Q : res A -> W -> Prop) :
  ctriple nf P m Q I' -> (forall w, I' w -> I w) -> ctriple nf P m Q I.
Proof. intros Hm HI w Hc Hw. specialize (Hm w Hc Hw). destruct (m w) as [[r|] w1]; [done|]. destruct Hm. auto. Qed.

Lemma ctriple_ret {A} (P : W -> Prop) (a : A) (Q : res A -> W -> Prop) :
  (forall w, P w -> Q (Ok a) w) -> ctriple nf P (os_ret a) Q I.
Proof. intros H w Hc Hw. split; [done|by apply H]. Qed.

Lemma ctriple_err {A} (P : W -> Prop) e (Q : res A -> W -> Prop) :
  (forall w, P w -> Q (Err e) w) -> ctriple nf P (os_err e) Q I.
Proof. intros H w Hc Hw. split; [done|by apply H]. Qed.

Lemma ctriple_of {A} (P : W -> Prop) (r : res A) (Q : res A -> W -> Prop) :
  (forall w, P w -> Q r w) -> ctriple nf P (os_of r) Q I.
Proof. intros H w Hc Hw. split; [done|by apply H]. Qed.

Lemma ctriple_bind {A B} (P : W -> Prop) (m : os A) (k : A -> os B) (Q' : A -> W -> Prop) (Q : res B -> W -> Prop) :
  ctriple nf P m (fun r w => match r with Ok a => Q' a w | Err e => Q (Err e) w end) I ->
  (forall a, ctriple nf (Q' a) (k a) Q I) -> ctriple nf P (os_bind m k) Q I.
Proof.
  intros Hm Hk w Hc Hw. unfold os_bind. specialize (Hm w Hc Hw). destruct (m w) as [[[a|e]|] w1]; [|done..].
  destruct Hm as [Hc1 Hq]. by apply Hk.
Qed.

Lemma ctriple_try {A} (P : W -> Prop) (m : os A) (Q : res (res A) -> W -> Prop) :
  ctriple nf P m (fun r w => Q (Ok r) w) I -> ctriple nf P (os_try m) Q I.
Proof. intros Hm w Hc Hw. unfold os_try. specialize (Hm w Hc Hw). by destruct (m w) as [[r|] w1]. Qed.

(** An error kept as a value is not an error. *)
Lemma ctriple_try_ok {A} (P : W -> Prop) (m : os A) (Q : res (res A) -> W -> Prop) :
  ctriple nf P (os_try m) Q I -> ctriple nf P (os_try m) (fun r w => match r with Ok a => Q (Ok a) w | Err _ => False end) I.
Proof. intros Hm w Hc Hw. specialize (Hm w Hc Hw). unfold os_try in *. by destruct (m w) as [[r|] w1]. Qed.

Lemma ctriple_weaken {A} (P P' : W -> Prop) (m : os A) (Q Q' : res A -> W -> Prop) :
  ctriple nf P' m Q' I -> (forall w, P w -> P' w) -> (forall r w, Q' r w -> Q r w) -> ctriple nf P m Q I.
Proof. intros Hm HP HQ w Hc Hw. specialize (Hm w Hc (HP w Hw)). destruct (m w) as [[r|] w1]; [|done]. destruct Hm. auto. Qed.

(** A primitive: what it does, and that what holds before it holds in a process that stops there. *)
Lemma ctriple_prim {A} (P : W -> Prop) (f : filesystem -> res A * filesystem) (Q : res A -> W -> Prop) :
  (forall w, P w -> I (next w)) -> (forall w, P w -> nf = false -> Q (Err (Opaque "i/o")) (next w)) ->
  (forall w, P w -> Q (f (ow_fs w)).1 (with_fs (f (ow_fs w)).2 (next w))) -> ctriple nf P (prim f) Q I.
Proof.
  intros HI Hfail Hgo w Hc Hw. unfold prim. pose proof (clean_next w Hc) as Hnext. pose proof (clean_proceeds w Hc) as Hnf.
  destruct (default Proceed (head (ow_faults w))).
  - specialize (Hgo w Hw). by destruct (f (ow_fs w)) as [r fs].
  - split; [done|]. by apply Hfail, Hnf.
  - split; [by apply Hnf|by apply HI].
Qed.

Lemma ctriple_random (P : W -> Prop) (Q : res string -> W -> Prop) :
  (forall w, P w -> I (next w)) -> (forall w, P w -> nf = false -> Q (Err (Opaque "random")) (next w)) ->
  (forall w s rest, P w -> Q (Ok s) (mkWorld (ow_fs w) (tail (ow_faults w)) (ow_held w) rest (ow_state w))) ->
  ctriple nf P random Q I.
Proof.
  intros HI Hfail Hgo w Hc Hw. unfold random. pose proof (clean_next w Hc) as Hnext. pose proof (clean_proceeds w Hc) as Hnf.
  destruct (default Proceed (head (ow_faults w))).
  - split; [exact Hnext|by apply Hgo].
  - split; [done|]. by apply Hfail, Hnf.
  - split; [by apply Hnf|by apply HI].
Qed.

Lemma ctriple_tryLock p (P : W -> Prop) (Q : res unit -> W -> Prop) :
  (forall w, P w -> I (next w)) -> (forall w, P w -> nf = false -> Q (Err (Opaque "flock")) (next w)) ->
  (forall w, P w -> p ∈ ow_held w -> Q (Err (Sent errWouldBlock)) (next w)) ->
  (forall w, P w -> p ∉ ow_held w -> Q (Ok tt) (with_held (fun h => {[p]} ∪ h) (next w))) ->
  ctriple nf P (tryLock p) Q I.
Proof.
  intros HI Hfail Hheld Hgo w Hc Hw. unfold tryLock. pose proof (clean_next w Hc) as Hnext. pose proof (clean_proceeds w Hc) as Hnf.
  destruct (default Proceed (head (ow_faults w))).
  - case_bool_decide; split; auto.
  - split; [done|]. by apply Hfail, Hnf.
  - split; [by apply Hnf|by apply HI].
Qed.
End programs.
Arguments os X A : clear implicits.

Notation "'let!' x := m 'in' k" := (os_bind m (fun x => k))
  (at level 200, x binder, m at level 100, k at level 200, right associativity) : go_scope.
