(* ===== verification/Registry.v ===== *)
(** * The account registry (internal/store/registry.go, accounts.go, recovery.go)

    [accounts.json], the lock around every operation on it, and the recovery that runs first: it
    finishes or removes the import attempts whose process is gone. *)

From S2P Require Import Prelude Errors Utf8 Strconv Types SendCheck FileSys.

Notation path := (list string) (only parsing).

(** ** Data *)

Record AccountEntry := mkEntry {
  ae_Number : string; ae_ACI : string; ae_PNI : string; ae_DeviceID : Z; ae_DeviceName : string;
  ae_LinkedAt : time; ae_UnlinkedAt : time }.
#[export] Instance AccountEntry_eq_dec : EqDecision AccountEntry.
Proof. solve_decision. Defined.

Record importIntent := mkIntent { it_Version : Z; it_Token : string; it_Entry : AccountEntry; it_Digest : string }.

(** [encoding/json] at the two documents, and SHA-256 in hexadecimal. *)
Class StoreEncoding := {
  json_accounts : Z -> list AccountEntry -> string;
  json_parse_accounts : string -> option (Z * list AccountEntry);
  json_intent : importIntent -> string;
  json_parse_intent : string -> option importIntent;
  sha256_hex : string -> string;
}.

(** Documented: what was encoded, with a newline after it, is read back. *)
Class StoreEncodingLaws (E : StoreEncoding) : Prop := {
  accounts_roundtrip : forall v l, json_parse_accounts (json_accounts v l ++ String (ascii_of 10) "") = Some (v, l);
  intent_roundtrip : forall i, json_parse_intent (json_intent i) = Some i;
}.

Definition accountsVersion : Z := 1.
Definition intentVersion : Z := 1.
Definition accountsFile : string := "accounts.json".
Definition dbFile : string := "account.db".
Definition registryLockFile : string := "accounts.lock".
Definition importsDir : string := ".imports".
Definition removedDir : string := ".removed".
Definition intentFile : string := "intent.json".
Definition ownerLockFile : string := "owner.lock".
Definition ownerMarker : string := ".import-owner".
Definition tokenBytes : Z := 16.

Definition isToken (name : string) : bool :=
  match hex_DecodeString name with
  | Some raw => (slen raw =? tokenBytes) && (hex_EncodeToString raw == name)
  | None => false
  end.

Definition AccountDir (aci : string) : path := [aci].
Definition stage_of (token : string) : path := [importsDir; token].

Section registry.
Context {X : Type} {J : StoreEncoding}.
(** The order in which [os.RemoveAll] goes through a directory, and the unused suffix that
    [os.CreateTemp] finds for a name in a directory. *)
Context (order : list (list string) -> list (list string)) (suffix : list string -> string -> filesystem -> string).

Notation M := (os X).

(** [fsync], [close] and the test hook of a publication step: they may fail or be the last thing
    the process does, and change nothing a process can see. *)
Definition device_io : M unit := prim (fun fs => (Ok tt, fs)).
Definition Dir_step : M unit := device_io.

Definition then_close (m : M unit) : M unit :=
  let! r := os_try m in
  let! c := os_try device_io in
  os_of (match r with Ok _ => c | Err e => Err e end).

Definition wrap_os {A} (m : M A) : M A :=
  let! r := os_try m in
  os_of (match r with Ok a => Ok a | Err e => Err (Wrap [e]) end).

(** Unlock whatever happens, as a deferred [Close] does. *)
Definition deferring {A} (p : path) (m : M A) : M A :=
  let! r := os_try m in
  let! _ := unlock p in
  os_of r.

Definition syncDir (p : path) : M unit :=
  wrap_os (let! _ := (match p with [] => os_ret Directory | _ => query (fs_Lstat p) end) in then_close device_io).

Definition syncFile (p : path) : M unit :=
  wrap_os (let! _ := query (fs_ReadFile p) in then_close device_io).

(** [errors.Join] of two calls. *)
Definition joined (m1 m2 : M unit) : M unit :=
  let! a := os_try m1 in
  let! b := os_try m2 in
  os_of (match a, b with
         | Ok _, Ok _ => Ok tt
         | Err e, Ok _ | Ok _, Err e => Err (Wrap [e])
         | Err e, Err e' => Err (Wrap [e; e'])
         end).

Definition CreateTemp (dir : path) (base : string) : M path := prim (fun fs =>
  let tmp := dir ++ [(base ++ "." ++ suffix dir base fs)%string] in
  match fs_Create tmp fs with (Ok _, fs') => (Ok tmp, fs') | (Err e, fs') => (Err e, fs') end).

(** A file in [dir] is replaced through a synced temporary file. *)
Definition replace_file (dir : path) (base data : string) : M unit :=
  let! tmp := CreateTemp dir base in
  let! r := os_try (let! _ := then_close (let! _ := prim (fs_Write tmp data) in device_io) in
                    prim (fs_RenameFile tmp (dir ++ [base]))) in
  match r with
  | Err e => let! _ := os_try (prim (fs_Remove tmp)) in os_err (Wrap [e])
  | Ok _ => os_ret tt
  end.

Definition writeDurable (dir : path) (base data : string) : M unit :=
  let! _ := wrap_os (replace_file dir base data) in syncDir dir.

(** [os.RemoveAll] goes on after a failure and returns the first one. *)
Fixpoint remove_paths (l : list path) (err_ : error) : M unit :=
  match l with
  | [] => match err_ with None => os_ret tt | Some e => os_err e end
  | p :: rest =>
      let! r := os_try (prim (fun fs => (Ok tt, delete p fs))) in
      remove_paths rest (match err_, r with Some e, _ => Some e | None, Err e => Some e | None, Ok _ => None end)
  end.
Definition RemoveAll (p : path) : M unit :=
  let! l := query (fun fs => Ok (paths_below p fs)) in remove_paths (order l) None.

Definition newToken : M string := let! raw := random in os_ret (hex_EncodeToString raw).

(** ** accounts.go *)

Definition parse_accounts (raw : string) : res (list AccountEntry) :=
  match json_parse_accounts raw with
  | None => Err (Opaque "json")
  | Some (version, accounts) => if version != accountsVersion then Err (errorf ErrAccountsVersion) else Ok accounts
  end.

Definition accounts : M (list AccountEntry) :=
  let! r := os_try (query (fs_ReadFile [accountsFile])) in
  match r with
  | Err e => if errIs e fs_ErrNotExist then os_ret [] else os_err (Wrap [e])
  | Ok raw => os_of (parse_accounts raw)
  end.

Definition accounts_raw (l : list AccountEntry) : string := json_accounts accountsVersion l ++ String (ascii_of 10) "".

Definition write (l : list AccountEntry) : M unit :=
  let! _ := wrap_os (replace_file [] accountsFile (accounts_raw l)) in wrap_os (syncDir []).

(** ** recovery.go *)

Definition recoveryError (e : err) : err := Wrap [Sent ErrRecoveryRequired; e].

Definition collides (entry existing : AccountEntry) : bool :=
  (ae_ACI existing == ae_ACI entry)
  || ((ae_Number entry != ""%string) && (ae_Number existing == ae_Number entry))
  || ((ae_PNI entry != ""%string) && (ae_PNI existing == ae_PNI entry)).

Definition collision (l : list AccountEntry) (entry : AccountEntry) : error :=
  if existsb (collides entry) l then Some (errorf ErrImportCollision) else None.

Definition readIntent (stage : path) : M importIntent :=
  let! raw := query (fs_ReadFile (stage ++ [intentFile])) in
  os_of (match json_parse_intent raw with None => Err (Opaque "json") | Some i => Ok i end).

Definition fileDigest (p : path) : M string :=
  wrap_os (let! _ := query (fs_Lstat p) in let! data := query (fs_ReadFile p) in os_ret (sha256_hex data)).

Definition isDir (p : path) : M bool :=
  let! r := os_try (query (fs_Lstat p)) in
  match r with
  | Err e => if errIs e fs_ErrNotExist then os_ret false else os_err (Wrap [e])
  | Ok Directory => os_ret true
  | Ok (File _) => os_err (errorf errEvidence)
  end.

(** Whether the account is still staged, and whether its final path is free. *)
Definition locate (staged final : path) : M (bool * bool) :=
  let! stagedDir := isDir staged in
  let! r := os_try (query (fs_Lstat final)) in
  match r with
  | Err e => if errIs e fs_ErrNotExist then os_ret (stagedDir, true) else os_err (Wrap [e])
  | Ok _ => os_ret (stagedDir, false)
  end.

Definition checkStaged (dir : path) (intent : importIntent) : M unit :=
  let! r := os_try (query (fs_ReadFile (dir ++ [ownerMarker]))) in
  match r with
  | Err e => os_err (Wrap [Sent errEvidence; e])
  | Ok owner =>
      if owner != it_Token intent then os_err (errorf errEvidence)
      else
        let! r := os_try (fileDigest (dir ++ [dbFile])) in
        match r with
        | Err e => os_err (Wrap [Sent errEvidence; e])
        | Ok digest => if digest != it_Digest intent then os_err (errorf errEvidence) else os_ret tt
        end
  end.

Definition moveStaged (stage staged final : path) (intent : importIntent) : M unit :=
  let! _ := checkStaged staged intent in
  let! _ := wrap_os (prim (fs_RenameDir staged final)) in
  let! _ := Dir_step in
  let! _ := joined (syncDir stage) (syncDir []) in
  Dir_step.

Definition publishAccount (stage staged final : path) (intent : importIntent) (l : list AccountEntry) : M unit :=
  match collision l (it_Entry intent) with
  | Some e => os_err e
  | None =>
      let! at_ := locate staged final in
      let (stagedDir, finalMissing) := at_ in
      let! _ := (if stagedDir && finalMissing then moveStaged stage staged final intent
                 else if negb stagedDir && negb finalMissing then checkStaged final intent
                 else os_err (errorf errEvidence)) in
      let! _ := write (l ++ [it_Entry intent]) in
      Dir_step
  end.

Definition removeStage (stage : path) : M unit :=
  let! _ := wrap_os (RemoveAll stage) in syncDir (parent_of stage).

Definition retire (stage final : path) (token : string) : M unit :=
  let! r := os_try (query (fs_ReadFile (final ++ [ownerMarker]))) in
  let! _ := (match r with
             | Ok owner => if owner == token then
                 let! _ := prim (fs_Remove (final ++ [ownerMarker])) in syncDir final
               else os_ret tt
             | Err _ => os_ret tt
             end) in
  let! _ := Dir_step in
  let! r := os_try (prim (fs_Remove (stage ++ [intentFile]))) in
  let! _ := (match r with
             | Err e => if errIs e fs_ErrNotExist then os_ret tt else os_err (Wrap [e])
             | Ok _ => os_ret tt
             end) in
  let! _ := syncDir stage in
  removeStage stage.

Definition rollForward (stage : path) (intent : importIntent) : M unit :=
  let aci := ae_ACI (it_Entry intent) in
  let staged := stage ++ [aci] in
  let final := AccountDir aci in
  let! l := accounts in
  let! _ := (if bool_decide (it_Entry intent ∈ l) then os_ret tt else publishAccount stage staged final intent l) in
  retire stage final (it_Token intent).

(** The owner lock; [errNothingToRecover] if the attempt never got that far. *)
Definition lockOwner (stage : path) : M unit :=
  let owner := stage ++ [ownerLockFile] in
  let! r := os_try (query (fs_ReadFile owner)) in
  match r with
  | Err e =>
      if errIs e fs_ErrNotExist then let! _ := os_try (prim (fs_Remove stage)) in os_err (Sent errNothingToRecover)
      else os_err (recoveryError e)
  | Ok _ =>
      let! r := os_try (tryLock owner) in
      match r with
      | Err e => if errIs e errWouldBlock then os_err e else os_err (recoveryError e)
      | Ok _ => os_ret tt
      end
  end.

Definition recover_locked (stage : path) (name : string) : M unit :=
  let! r := os_try (readIntent stage) in
  match r with
  | Err e => if errIs e fs_ErrNotExist then removeStage stage else os_err (recoveryError e)
  | Ok intent =>
      if (it_Version intent != intentVersion) || (it_Token intent != name) then os_err (recoveryError (errorf errEvidence))
      else
        let! r := os_try (rollForward stage intent) in
        match r with Err e => os_err (recoveryError e) | Ok _ => os_ret tt end
  end.

Definition recoverAttempt (name : string) : M unit :=
  let stage := stage_of name in
  if negb (isToken name) then os_ret tt
  else
    let! r := os_try (lockOwner stage) in
    match r with
    | Err e => if errIs e errWouldBlock || errIs e errNothingToRecover then os_ret tt else os_err e
    | Ok _ => deferring (stage ++ [ownerLockFile]) (recover_locked stage name)
    end.

Fixpoint recover_attempts (names : list string) : M unit :=
  match names with
  | [] => os_ret tt
  | name :: rest => let! _ := recoverAttempt name in recover_attempts rest
  end.

Fixpoint clean_names (names : list string) : M unit :=
  match names with
  | [] => os_ret tt
  | name :: rest => let! _ := os_try (RemoveAll [removedDir; name]) in clean_names rest
  end.

Definition cleanRemoved : M unit :=
  let! r := os_try (query (fs_ReadDir [removedDir])) in
  match r with Err _ => os_ret tt | Ok names => clean_names names end.

Definition recover : M unit :=
  let! _ := cleanRemoved in
  let! r := os_try (query (fs_ReadDir [importsDir])) in
  match r with
  | Err e => if errIs e fs_ErrNotExist then os_ret tt else os_err (Wrap [Sent ErrRecoveryRequired; e])
  | Ok names => recover_attempts names
  end.

(** ** registry.go *)

Definition fs_OpenCreate (p : path) (fs : filesystem) : res unit * filesystem :=
  match fs !! p with
  | Some (File _) => (Ok tt, fs)
  | _ => fs_Create p fs
  end.

(** Under the registry lock: a lock that stays held is [ErrRegistryBusy] after the retries. *)
Definition withRegistry {A} (locked : M A) : M A :=
  let lock := [registryLockFile] in
  let! _ := wrap_os (prim (fs_OpenCreate lock)) in
  let! r := os_try (tryLock lock) in
  match r with
  | Err e => if errIs e errWouldBlock then os_err (errorf ErrRegistryBusy) else os_err (Wrap [e])
  | Ok _ => deferring lock (let! _ := recover in locked)
  end.

(** ** The registry operations *)

Definition Accounts : M (list AccountEntry) := withRegistry accounts.

Definition put_entry (l : list AccountEntry) (entry : AccountEntry) : list AccountEntry :=
  if existsb (fun e => ae_ACI e == ae_ACI entry) l
  then (fun e => if ae_ACI e == ae_ACI entry then entry else e) <$> l
  else l ++ [entry].

Definition PutAccount (entry : AccountEntry) : M unit :=
  withRegistry (let! l := accounts in write (put_entry l entry)).

Definition unlinked_at (e : AccountEntry) (at_ : time) : AccountEntry :=
  mkEntry (ae_Number e) (ae_ACI e) (ae_PNI e) (ae_DeviceID e) (ae_DeviceName e) (ae_LinkedAt e) at_.

(** The first linked entry with the ACI is marked. *)
Fixpoint mark_unlinked (l : list AccountEntry) (aci : string) (at_ : time) : option (list AccountEntry) :=
  match l with
  | [] => None
  | e :: rest =>
      if (ae_ACI e != aci) || negb (IsZeroTime (ae_UnlinkedAt e))
      then match mark_unlinked rest aci at_ with Some rest => Some (e :: rest) | None => None end
      else Some (unlinked_at e at_ :: rest)
  end.

Definition MarkUnlinked (aci : string) (at_ : time) : M unit :=
  withRegistry (let! l := accounts in
    match mark_unlinked l aci at_ with Some l => write l | None => os_ret tt end).

Definition moveAside (p : path) : M (option path) :=
  let! r := os_try (query (fs_Lstat p)) in
  match r with
  | Err e => if errIs e fs_ErrNotExist then os_ret None else os_err (Wrap [e])
  | Ok _ =>
      let! token := newToken in
      let! _ := wrap_os (prim (fs_MkdirAll [removedDir])) in
      let target := [removedDir; token] in
      let! _ := wrap_os (let! _ := prim (fs_RenameDir p target) in syncDir []) in
      os_ret (Some target)
  end.

Definition RemoveAccount (aci : string) : M unit :=
  let! removed := withRegistry (
    let! l := accounts in
    let! _ := write (filter (fun e => ae_ACI e <> aci) l) in
    moveAside (AccountDir aci)) in
  match removed with
  | None => os_ret tt
  | Some p => wrap_os (RemoveAll p)
  end.
End registry.
