(* ===== verification/FileLogic.v ===== *)
(** * Program logic for the account registry

    Rules for programs on the data directory that keep an invariant wherever they fail or stop:
    the general ones, locks, and the registry's own building blocks (durable writes, recursive
    removal, syncs). *)

From S2P Require Import Prelude Errors Strconv FileSys Registry.

Notation path := (list string) (only parsing).
Notation fsp := (filesystem -> Prop) (only parsing).

(** ** A logic for one invariant

    [hoare St held nf Inv P m Q]: from [P], with the locks [held] and a program state in [St], [m]
    returns [a] with [Q a], or fails or stops with the invariant; in a run without faults it does
    return. A program that has not stopped has the locks it had. *)

Section logic.
Context {X : Type} {J : StoreEncoding} (St : X -> Prop) (held : gset (list string)) (nf : bool) (Inv : fsp).
Notation M := (os X).
Notation W := (osworld X).

Definition on (P : fsp) (w : W) : Prop := P (ow_fs w) /\ ow_held w = held /\ St (ow_state w).

Definition hoare {A : Type} (P : fsp) (m : M A) (Q : A -> fsp) : Prop :=
  ctriple nf (on P) m (post nf (fun a => on (Q a)) (on Inv)) (fun w => Inv (ow_fs w)).

Lemma h_bind {A B : Type} (P : fsp) (m : M A) (k : A -> M B) (Q' : A -> fsp) (Q : B -> fsp) :
  hoare P m Q' -> (forall a, hoare (Q' a) (k a) Q) -> hoare P (os_bind m k) Q.
Proof.
  intros Hm Hk. eapply ctriple_bind; [|exact Hk]. eapply ctriple_weaken; [exact Hm|done|]. by intros [a|e] w.
Qed.

Lemma h_ret {A : Type} (P : fsp) (a : A) (Q : A -> fsp) : (forall fs, P fs -> Q a fs) -> hoare P (os_ret a) Q.
Proof. intros H. apply ctriple_ret. intros w [Hp Hh]. split; [by apply H|done]. Qed.

Lemma h_err {A : Type} (P : fsp) (e : err) (Q : A -> fsp) : (forall fs, P fs -> nf = false /\ Inv fs) -> hoare P (os_err e) Q.
Proof. intros H. apply ctriple_err. intros w [Hp Hh]. destruct (H _ Hp). split; [done|]. by split. Qed.

Lemma h_weaken {A : Type} (P P' : fsp) (m : M A) (Q Q' : A -> fsp) :
  hoare P' m Q' -> (forall fs, P fs -> P' fs) -> (forall a fs, Q' a fs -> Q a fs) -> hoare P m Q.
Proof. intros Hm HP HQ. eapply ctriple_weaken; [exact Hm|intros w []; split; auto|]. intros [a|e] w; [intros []; split; auto|done]. Qed.

Lemma h_pre {A : Type} (P P' : fsp) (m : M A) (Q : A -> fsp) : hoare P' m Q -> (forall fs, P fs -> P' fs) -> hoare P m Q.
Proof. intros Hm HP. by eapply h_weaken. Qed.

(** Case analysis on what the precondition knows. *)
Lemma h_pure {A : Type} (P : fsp) (phi : Prop) (m : M A) (Q : A -> fsp) :
  (forall fs, P fs -> phi) -> (phi -> hoare P m Q) -> hoare P m Q.
Proof. intros Hphi H w Hc Hw. apply H; [apply (Hphi (ow_fs w)), Hw|done..]. Qed.

Lemma h_or {A : Type} (P P1 P2 : fsp) (m : M A) (Q : A -> fsp) :
  (forall fs, P fs -> P1 fs \/ P2 fs) -> hoare P1 m Q -> hoare P2 m Q -> hoare P m Q.
Proof. intros HP H1 H2 w Hc Hw. destruct Hw as [Hw Hh]. destruct (HP _ Hw) as [Hp|Hp]; [by apply H1|by apply H2]. Qed.

Lemma h_try {A : Type} (P : fsp) (m : M A) (Q : A -> fsp) :
  hoare P m Q -> hoare P (os_try m) (fun r fs => match r with Ok a => Q a fs | Err _ => nf = false /\ Inv fs end).
Proof. intros Hm. apply ctriple_try. eapply ctriple_weaken; [exact Hm|done|]. intros [a|e] w; [done|]. by intros (Hn & Hi & Hh). Qed.

Lemma h_of {A : Type} (P : fsp) (r : res A) (Q : A -> fsp) :
  (forall fs, P fs -> match r with Ok a => Q a fs | Err _ => nf = false /\ Inv fs end) -> hoare P (os_of r) Q.
Proof. intros H. apply ctriple_of. intros w [Hp Hh]. specialize (H _ Hp). destruct r; cbn; [by split|]. destruct H. split; [done|]. by split. Qed.

Lemma h_get {P : fsp} : hoare P os_get (fun x fs => P fs /\ St x).
Proof. intros w Hc (Hp & Hh & Hs). split; [done|]. by split_and!. Qed.

Lemma h_put {P : fsp} x : St x -> hoare P (os_put x) (fun _ => P).
Proof. intros Hx w Hc (Hp & Hh & Hs). split; [done|]. by split_and!. Qed.

Lemma h_wrap {A : Type} (P : fsp) (m : M A) (Q : A -> fsp) : hoare P m Q -> hoare P (wrap_os m) Q.
Proof.
  intros Hm. unfold wrap_os. eapply h_bind; [by apply h_try|]. intros [a|e]; by apply h_of.
Qed.

Lemma h_prim {A : Type} (P : fsp) (f : filesystem -> res A * filesystem) (Q : A -> fsp) :
  (forall fs, P fs -> Inv fs) ->
  (forall fs, P fs -> match f fs with (Ok a, fs') => Q a fs' | (Err _, fs') => nf = false /\ Inv fs' end) ->
  hoare P (prim f) Q.
Proof.
  intros HI Hf. apply ctriple_prim.
  - intros w [Hw _]. by apply HI.
  - intros w [Hw Hh] Hn. split; [done|]. split; [by apply HI|done].
  - intros w [Hw Hh]. specialize (Hf (ow_fs w) Hw). destruct (f (ow_fs w)) as [[a|e] fs]; [by split|]. destruct Hf. split; [done|]. by split.
Qed.

Lemma h_query {A : Type} (P : fsp) (f : filesystem -> res A) (Q : A -> fsp) :
  (forall fs, P fs -> Inv fs) -> (forall fs, P fs -> exists a, f fs = Ok a /\ Q a fs) -> hoare P (query f) Q.
Proof. intros HI Hf. apply h_prim; [done|]. intros fs Hp. by destruct (Hf fs Hp) as (a & -> & Hq). Qed.

(** A query whose error the code looks at: it is the file system's, or a fault. *)
Lemma h_try_query {A : Type} (P : fsp) (f : filesystem -> res A) :
  (forall fs, P fs -> Inv fs) ->
  hoare P (os_try (query f)) (fun r fs => P fs /\ (r = f fs \/ (nf = false /\ r = Err (Opaque "i/o")))).
Proof.
  intros HI. apply ctriple_try, ctriple_prim.
  - intros w [Hw _]. by apply HI.
  - intros w [Hw Hh] Hn. split; [|done]. split; [exact Hw|]. by right.
  - intros w [Hw Hh]. split; [|done]. split; [exact Hw|]. by left.
Qed.

Lemma h_random (P : fsp) : (forall fs, P fs -> Inv fs) -> hoare P random (fun _ => P).
Proof.
  intros HI. apply ctriple_random.
  - intros w [Hw _]. by apply HI.
  - intros w [Hw Hh] Hn. split; [done|]. split; [by apply HI|exact Hh].
  - intros w s rest [Hw Hh]. by split.
Qed.

Lemma h_io (P : fsp) : (forall fs, P fs -> Inv fs) -> hoare P device_io (fun _ => P).
Proof. intros HI. by apply h_prim. Qed.

Lemma h_then_close (P Q : fsp) (m : M unit) :
  (forall fs, Q fs -> Inv fs) -> hoare P m (fun _ => Q) -> hoare P (then_close m) (fun _ => Q).
Proof.
  intros HI Hm. unfold then_close. eapply h_bind; [by apply h_try|]. intros [[]|e].
  - eapply h_bind; [by apply h_try, h_io|]. intros [[]|e]; by apply h_of.
  - eapply h_bind; [apply (h_try (fun fs => nf = false /\ Inv fs)), h_io; by intros fs [_ ?]|]. intros [[]|e']; by apply h_of.
Qed.

Lemma h_syncDir (P : fsp) (p : path) : (forall fs, P fs -> Inv fs) -> (forall fs, P fs -> p = [] \/ is_Some (fs !! p)) ->
  hoare P (syncDir p) (fun _ => P).
Proof.
  intros HI Hp. unfold syncDir. apply h_wrap. apply (h_bind _ _ _ (fun _ => P)).
  - destruct p as [|a p]; [by apply h_ret|]. apply h_query; [done|]. intros fs Hfs.
    destruct (Hp fs Hfs) as [?|[n Hn]]; [done|]. exists n. split; [|done]. unfold fs_Lstat. by rewrite Hn.
  - intros _. by apply h_then_close, h_io.
Qed.

Lemma h_syncFile (P : fsp) (p : path) : (forall fs, P fs -> Inv fs) -> (forall fs, P fs -> exists d, fs !! p = Some (File d)) ->
  hoare P (syncFile p) (fun _ => P).
Proof.
  intros HI Hp. unfold syncFile. apply h_wrap. apply (h_bind _ _ _ (fun _ => P)).
  - apply h_query; [done|]. intros fs Hfs. destruct (Hp fs Hfs) as [d Hd]. exists d. split; [|done]. unfold fs_ReadFile. by rewrite Hd.
  - intros _. by apply h_then_close, h_io.
Qed.

Lemma h_joined (P : fsp) (m1 m2 : M unit) :
  hoare P m1 (fun _ => P) -> hoare P m2 (fun _ => P) ->
  hoare (fun fs => nf = false /\ Inv fs) m2 (fun _ fs => nf = false /\ Inv fs) ->
  hoare P (joined m1 m2) (fun _ => P).
Proof.
  intros H1 H2 H3. unfold joined. eapply h_bind; [by apply h_try|]. intros [[]|e].
  - eapply h_bind; [by apply h_try|]. intros [[]|e]; by apply h_of.
  - eapply h_bind; [by apply h_try|]. intros [[]|e']; by apply h_of.
Qed.

(** *** Removing and replacing *)

Context (order : list (list string) -> list (list string)) (suffix : list string -> string -> filesystem -> string).
(** [os.RemoveAll] visits every path; [os.CreateTemp] finds a name that is free. *)
Context (order_perm : forall l, order l ≡ₚ l).
Context (suffix_free : forall dir base fs, fs !! (dir ++ [(base ++ "." ++ suffix dir base fs)%string]) = None).

(** A primitive whose error the code keeps: a fault changes nothing. *)
Lemma h_try_prim {A : Type} (P : fsp) (f : filesystem -> res A * filesystem) (Q : res A -> fsp) :
  (forall fs, P fs -> Inv fs) -> (forall fs, P fs -> Q (f fs).1 (f fs).2) ->
  (forall fs, P fs -> nf = false -> Q (Err (Opaque "i/o")) fs) -> hoare P (os_try (prim f)) Q.
Proof.
  intros HI Hgo Hfail. apply ctriple_try, ctriple_prim.
  - intros w [Hw _]. by apply HI.
  - intros w [Hw Hh] Hn. split; [by apply Hfail|done].
  - intros w [Hw Hh]. split; [by apply Hgo|done].
Qed.

(** After one failure the others are still removed, and the result is that failure. *)
Lemma h_remove_failed (P : fsp) (l : list path) (e : err) (Q : unit -> fsp) :
  nf = false -> (forall fs, P fs -> Inv fs) -> (forall q fs, q ∈ l -> P fs -> P (delete q fs)) ->
  hoare P (remove_paths l (Some e)) Q.
Proof.
  intros Hn HI Hdel. induction l as [|q l IH]; cbn [remove_paths].
  - apply h_err. intros fs Hp. split; [done|by apply HI].
  - apply (h_bind _ _ _ (fun _ => P)).
    + apply h_try_prim; [done| |done]. intros fs Hp. apply Hdel; [by left|done].
    + intros r. replace (match r with Ok _ => Some e | Err _ => Some e end) with (Some e) by (by destruct r).
      apply IH. intros q' fs Hq'. apply Hdel. by right.
Qed.

Lemma h_remove_paths (P : fsp) (l : list path) (gone : path -> Prop) :
  (forall fs, P fs -> Inv fs) -> (forall q fs, q ∈ l -> P fs -> P (delete q fs)) ->
  hoare (fun fs => P fs /\ forall q, gone q -> fs !! q = None) (remove_paths l None)
        (fun _ fs => P fs /\ forall q, gone q \/ q ∈ l -> fs !! q = None).
Proof.
  intros HI. revert gone. induction l as [|q l IH]; intros gone Hdel; cbn [remove_paths].
  - apply h_ret. intros fs [Hp Hg]. split; [done|]. intros q [?|?%elem_of_nil]; [by apply Hg|done].
  - assert (Hdel' : forall q fs, q ∈ l -> P fs -> P (delete q fs)) by (intros; apply Hdel; [by right|done]).
    apply (h_bind _ _ _ (fun r fs => P fs /\ match r with
      | Ok _ => forall x, gone x \/ x = q -> fs !! x = None | Err _ => nf = false end)).
    + apply h_try_prim; [by intros fs [Hp _]; apply HI| |by intros fs [Hp _] Hn].
      intros fs [Hp Hg]. cbn. split; [apply Hdel; [by left|done]|]. intros x Hx.
      destruct (decide (x = q)) as [->|Hne]; [apply lookup_delete_eq|].
      rewrite lookup_delete_ne by done. destruct Hx; [by apply Hg|done].
    + intros [[]|e].
      * eapply h_weaken; [exact (IH (fun x => gone x \/ x = q) Hdel')|done|].
        intros _ fs [Hp Hg]. split; [done|]. intros x [?|[->|?]%elem_of_cons]; apply Hg; auto.
      * apply (h_pure _ (nf = false)); [by intros fs [_ ?]|]. intros Hn.
        eapply h_pre; [apply (h_remove_failed P); done|]. by intros fs [? _].
Qed.

(** After [os.RemoveAll] nothing is left at or below the path. *)
Lemma h_RemoveAll (P : fsp) (p : path) :
  (forall fs, P fs -> Inv fs) -> (forall r fs, P fs -> P (delete (p ++ r) fs)) ->
  hoare P (RemoveAll order p) (fun _ fs => P fs /\ forall r, fs !! (p ++ r) = None).
Proof.
  intros HI Hdel. unfold RemoveAll.
  apply (h_bind _ _ _ (fun l fs => P fs /\ (forall q, q ∈ l -> is_Some (below p q)) /\
    forall r, p ++ r ∉ l -> fs !! (p ++ r) = None)).
  - apply h_query; [done|]. intros fs Hp. exists (paths_below p fs). split_and!; try done.
    + intros q Hq%elem_of_paths_below. by destruct Hq.
    + intros r Hr. apply eq_None_not_Some. intros Hs. destruct Hr. apply elem_of_paths_below. rewrite below_app. split; [by eexists|done].
  - intros l. apply (h_pure _ (forall q, q ∈ l -> is_Some (below p q))); [by intros fs (_ & ? & _)|]. intros Hl.
    eapply h_weaken; [apply (h_remove_paths P (order l) (fun q => is_Some (below p q) /\ q ∉ l))| |].
    + done.
    + intros q fs Hq Hp. rewrite (order_perm l) in Hq. destruct (Hl q Hq) as [r ->%below_Some]. by apply Hdel.
    + intros fs (Hp & _ & Hg). split; [done|]. intros q [[r ->%below_Some] Hq]. by apply Hg.
    + intros _ fs [Hp Hg]. split; [done|]. intros r. apply Hg. rewrite (order_perm l), below_app.
      destruct (decide (p ++ r ∈ l)); [by right|left; split; [by eexists|done]].
Qed.
End logic.

Section replacing.
Context {X : Type} {J : StoreEncoding} (St : X -> Prop) (held : gset (list string)) (nf : bool) (Inv : fsp).
Context (suffix : list string -> string -> filesystem -> string).
Context (suffix_free : forall dir base fs, fs !! (dir ++ [(base ++ "." ++ suffix dir base fs)%string]) = None).

(** A program whose failures leave the stronger [I']. *)
Lemma h_try_stronger {A : Type} (I' P : fsp) (m : os X A) (Q : A -> fsp) :
  (forall fs, I' fs -> Inv fs) -> hoare St held nf I' P m Q ->
  hoare St held nf Inv P (os_try m) (fun r fs => match r with Ok a => Q a fs | Err _ => nf = false /\ I' fs end).
Proof.
  intros HI Hm. apply ctriple_try. eapply ctriple_mono; [|intros w; apply HI].
  eapply ctriple_weaken; [exact Hm|done|]. intros [a|e] w; [done|]. by intros (Hn & Hi & Hh).
Qed.

(** [P] does not look at the temporary files of [dir/base]. *)
Definition ignores_temps (dir : path) (base : string) (P : fsp) : Prop :=
  forall s fs, P fs -> (forall d, P (<[dir ++ [(base ++ "." ++ s)%string] := File d]> fs)) /\ P (delete (dir ++ [(base ++ "." ++ s)%string]) fs).

Lemma parent_of_app (dir : path) (x : string) : parent_of (dir ++ [x]) = dir.
Proof. unfold parent_of. rewrite length_app. cbn. replace (length dir + 1 - 1)%nat with (length dir) by lia. apply take_app_length. Qed.

Lemma parent_exists_app (dir : path) (x : string) (fs : filesystem) :
  dir = [] \/ fs !! dir = Some Directory -> parent_exists (dir ++ [x]) fs = true.
Proof. intros H. unfold parent_exists. rewrite parent_of_app. destruct dir as [|a dir]; [done|]. apply bool_decide_eq_true. by destruct H. Qed.

(** The file is there, whole, or nothing has changed. *)
Lemma h_replace_file (P : fsp) (dir : path) (base data : string) (Q : fsp) :
  (forall fs, P fs -> Inv fs) -> ignores_temps dir base P ->
  (forall fs, P fs -> (dir = [] \/ fs !! dir = Some Directory) /\ fs !! (dir ++ [base]) <> Some Directory /\
    Q (<[dir ++ [base] := File data]> fs)) ->
  hoare St held nf Inv P (replace_file suffix dir base data) (fun _ => Q).
Proof.
  intros HI Htmp HP. unfold replace_file.
  set (T d tmp := fun fs : filesystem => P fs /\ exists s, tmp = dir ++ [(base ++ "." ++ s)%string] /\ fs !! tmp = Some (File d)).
  set (Pt tmp := fun fs : filesystem => exists d, T d tmp fs).
  assert (HT : forall d tmp fs, T d tmp fs -> Pt tmp fs) by (intros d tmp fs ?; by exists d).
  assert (HPt : forall tmp fs, Pt tmp fs -> Inv fs) by (intros tmp fs (d & ? & _); by apply HI).
  assert (HTI : forall d tmp fs, T d tmp fs -> Inv fs) by (intros d tmp fs [? _]; by apply HI).
  apply (h_bind _ _ _ _ _ _ _ Pt).
  { apply h_prim; [done|]. intros fs Hp. destruct (HP fs Hp) as (Hdir & _). unfold fs_Create.
    rewrite suffix_free, parent_exists_app by done. exists "". split; [by apply Htmp|]. eexists. split; [done|]. apply lookup_insert_eq. }
  intros tmp. eapply h_bind.
  { apply (h_try_stronger (Pt tmp)); [apply HPt|]. apply (h_bind _ _ _ _ _ _ _ (fun _ => T data tmp)).
    - apply h_then_close; [apply HT|]. apply (h_bind _ _ _ _ _ _ _ (fun _ => T data tmp)); [|intros _; apply h_io, HT].
      apply h_prim; [done|]. intros fs (d & Hp & s & -> & Hs). unfold fs_Write. rewrite Hs. split; [by apply Htmp|].
      eexists. split; [done|]. apply lookup_insert_eq.
    - intros _. apply (h_prim _ _ _ _ _ _ (fun _ => Q)); [by apply HT|]. intros fs (Hp & s & -> & Hs). unfold fs_RenameFile. rewrite Hs.
      apply (Htmp s) in Hp as Hd. destruct Hd as [_ Hd]. destruct (HP _ Hp) as (_ & Hdst & _). destruct (HP _ Hd) as (_ & _ & Hq).
      by destruct (fs !! (dir ++ [base])) as [[|]|]. }
  intros [[]|e]; [by apply h_ret|]. apply (h_bind _ _ _ _ _ _ _ (fun _ fs => nf = false /\ Inv fs)); [|intros _; by apply h_err].
  apply h_try_prim; [by intros fs [_ ?]; apply (HPt tmp)| |].
  - intros fs (Hn & d & Hp & s & -> & Hs). unfold fs_Remove. rewrite Hs. cbn. split; [done|]. by apply HI, Htmp.
  - intros fs [Hn ?] _. split; [done|by apply (HPt tmp)].
Qed.

Lemma h_writeDurable (P : fsp) (dir : path) (base data : string) (Q : fsp) :
  (forall fs, P fs -> Inv fs) -> ignores_temps dir base P -> (forall fs, Q fs -> Inv fs) ->
  (forall fs, P fs -> (dir = [] \/ fs !! dir = Some Directory) /\ fs !! (dir ++ [base]) <> Some Directory /\
    Q (<[dir ++ [base] := File data]> fs)) ->
  (forall fs, Q fs -> dir = [] \/ is_Some (fs !! dir)) ->
  hoare St held nf Inv P (writeDurable suffix dir base data) (fun _ => Q).
Proof.
  intros HI Htmp HQ HP Hdir. unfold writeDurable. apply (h_bind _ _ _ _ _ _ _ (fun _ => Q)).
  - apply h_wrap. by apply (h_replace_file P).
  - intros _. by apply h_syncDir.
Qed.
End replacing.

(** ** Locks *)

Section locking.
Context {X : Type} {J : StoreEncoding} (St : X -> Prop) (held : gset (list string)) (nf : bool) (Inv : fsp).
Notation stopped := (fun w : osworld X => Inv (ow_fs w)).

Lemma h_try_tryLock_held (P : fsp) (p : path) : p ∈ held -> (forall fs, P fs -> Inv fs) ->
  hoare St held nf Inv P (os_try (tryLock p)) (fun r fs =>
    P fs /\ (r = Err (Sent errWouldBlock) \/ (nf = false /\ r = Err (Opaque "flock")))).
Proof.
  intros Hp HI. apply ctriple_try, ctriple_tryLock.
  - intros w [Hw _]. by apply HI.
  - intros w [Hw Hh] Hn. split; [|exact Hh]. split; [exact Hw|]. by right.
  - intros w [Hw Hh] _. split; [|exact Hh]. split; [exact Hw|]. by left.
  - intros w (Hw & Hh & Hs) Hne. destruct Hne. by rewrite Hh.
Qed.

Lemma try_tryLock_free (P : fsp) (p : path) : p ∉ held -> (forall fs, P fs -> Inv fs) ->
  ctriple nf (on St held P) (os_try (tryLock p)) (fun r w => match r with
    | Ok (Ok _) => on St ({[p]} ∪ held) P w
    | Ok (Err e) => nf = false /\ e = Opaque "flock" /\ on St held P w
    | Err _ => False
    end) stopped.
Proof.
  intros Hp HI. apply ctriple_try, ctriple_tryLock.
  - intros w [Hw _]. by apply HI.
  - intros w Hw Hn. by split_and!.
  - intros w (Hw & Hh & Hs) Hin. destruct Hp. by rewrite <- Hh.
  - intros w (Hw & Hh & Hs) Hne. split; [exact Hw|]. split; [|exact Hs]. cbn. by rewrite Hh.
Qed.

Lemma h_deferring {A : Type} (P : fsp) (p : path) (m : os X A) (Q : A -> fsp) :
  p ∉ held -> hoare St ({[p]} ∪ held) nf Inv P m Q ->
  ctriple nf (on St ({[p]} ∪ held) P) (deferring p m) (post nf (fun a => on St held (Q a)) (on St held Inv)) stopped.
Proof.
  intros Hp Hm. unfold deferring. eapply ctriple_bind; [apply ctriple_try, Hm|].
  assert (E : ({[p]} ∪ held) ∖ {[p]} = held) by set_solver.
  intros [a|e] w Hc Hw; cbn in *.
  - destruct Hw as (Hw & Hh & Hs). split; [done|]. split; [exact Hw|]. split; [|exact Hs]. cbn. by rewrite Hh, E.
  - destruct Hw as (Hn & Hw & Hh & Hs). split; [done|]. split; [done|]. split; [exact Hw|]. split; [|exact Hs]. cbn. by rewrite Hh, E.
Qed.

Lemma h_withRegistry {A : Type} (order : list (list string) -> list (list string)) (suffix : list string -> string -> filesystem -> string)
    (P : fsp) (m : os X A) (Q : A -> fsp) :
  [registryLockFile] ∉ held -> (forall fs, P fs -> Inv fs) ->
  (forall fs, P fs -> fs !! [registryLockFile] <> Some Directory /\ P (<[[registryLockFile] := File ""]> fs)) ->
  hoare St ({[[registryLockFile]]} ∪ held) nf Inv P (let! _ := recover order suffix in m)%go Q ->
  hoare St held nf Inv P (withRegistry order suffix m) Q.
Proof.
  intros Hlock HI HP Hm. unfold withRegistry. apply (h_bind _ _ _ _ _ _ _ (fun _ => P)).
  { apply h_wrap, h_prim; [done|]. intros fs Hp. destruct (HP fs Hp) as [Hd Hins]. unfold fs_OpenCreate, fs_Create.
    destruct (fs !! [registryLockFile]) as [[d|]|]; done. }
  intros _. eapply ctriple_bind; [eapply ctriple_weaken; [by apply (try_tryLock_free P)|done|]|].
  - intros [[u|e]|e] w; [|intros (Hn & -> & Hw)|done].
    + intros Hw. instantiate (1 := fun r w => match r with Ok _ => on St ({[[registryLockFile]]} ∪ held) P w
        | Err e => nf = false /\ e = Opaque "flock" /\ on St held P w end). exact Hw.
    + by split_and!.
  - intros [u|e].
    + by apply h_deferring.
    + intros w Hc (Hn & -> & Hw & Hh). split; [done|]. split; [done|]. split; [by apply HI|exact Hh].
Qed.
End locking.
