(* ===== verification/Imports.v ===== *)
(** * Importing an account (internal/store/imports.go)

    An import builds an account in a private attempt directory and publishes it: from the durable
    intent on, the account is published by the importer or by whoever recovers the registry next. *)

From S2P Require Import Prelude Errors Uuid Utf8 Strconv Types SendCheck FileSys Registry.

Notation path := (list string) (only parsing).

(** [Import]; [im_owner] says that the owner lock file is open. *)
Record Import := mkImport { im_token : string; im_owner : bool; im_aci : string; im_digest : string; im_committed : bool }.
Definition zeroImport : Import := mkImport "" false "" "" false.

Section imports.
Context {U : UuidLib} {J : StoreEncoding}.
Context (order : list (list string) -> list (list string)) (suffix : list string -> string -> filesystem -> string).
(** What the caller's callback and SQLite leave in the database file, and whether it reopens
    without a migration and holds the logged-in device of the ACI. *)
Context (build : string -> res string) (check_db : string -> string -> bool).

Notation M := (os Import).
Notation withRegistry := (withRegistry order suffix).
Notation writeDurable := (writeDurable suffix).
Notation RemoveAll := (RemoveAll order).

Definition im_stage (im : Import) : path := stage_of (im_token im).

Definition allocate_owner (stage : path) : M unit :=
  let owner := stage ++ [ownerLockFile] in
  let! _ := prim (fs_Create owner) in
  let! r := os_try (let! _ := tryLock owner in
                    joined (syncDir stage) (syncDir [importsDir])) in
  match r with
  | Err e => let! _ := unlock owner in os_err e
  | Ok _ => os_ret tt
  end.

Definition allocateAttempt : M Import :=
  let! _ := wrap_os (let! _ := prim (fs_MkdirAll [importsDir]) in query (fs_Lstat [importsDir])) in
  let! token := newToken in
  let stage := stage_of token in
  let! _ := wrap_os (prim (fs_Mkdir stage)) in
  let! r := os_try (allocate_owner stage) in
  match r with
  | Err e => let! _ := os_try (RemoveAll stage) in os_err (Wrap [e])
  | Ok _ => os_ret (mkImport token true "" "" false)
  end.

(** [Close]: an attempt that never committed is removed. *)
Definition Close : M unit :=
  let! im := os_get in
  if negb (im_owner im) then os_ret tt
  else
    let! r := os_try (if im_committed im then os_ret tt
                      else let! _ := RemoveAll (im_stage im) in syncDir [importsDir]) in
    let! c := os_try device_io in
    let! _ := unlock (im_stage im ++ [ownerLockFile]) in
    let! _ := os_put (mkImport (im_token im) false (im_aci im) (im_digest im) (im_committed im)) in
    match r, c with
    | Ok _, Ok _ => os_ret tt
    | Err e, Ok _ | Ok _, Err e => os_err (Wrap [e])
    | Err e, Err e' => os_err (Wrap [e; e'])
    end.

Definition BeginImport : M unit :=
  let! im := withRegistry allocateAttempt in
  let! _ := os_put im in
  let! r := os_try Dir_step in
  match r with
  | Ok _ => os_ret tt
  | Err e =>
      let! c := os_try Close in
      os_err (match c with Ok _ => Wrap [e] | Err e' => Wrap [e; e'] end)
  end.

(** ** Building *)

(** The database is created, filled, checkpointed and closed. *)
Definition buildDB (p : path) (aci : string) : M unit :=
  let! _ := wrap_os (let! _ := prim (fs_OpenCreate p) in device_io) in
  let! _ := device_io in
  wrap_os (then_close (let! data := os_of (build aci) in prim (fs_Write p data))).

Definition checkBuilt (p : path) (aci : string) : M unit :=
  let! data := wrap_os (query (fs_ReadFile p)) in
  wrap_os (then_close (if check_db data aci then os_ret tt else os_err (Sent errNotLoggedIn))).

(** The database's files that exist are synced, then the directories. *)
Definition sync_optional (p : path) : M unit :=
  let! r := os_try (syncFile p) in
  match r with
  | Err e => if errIs e fs_ErrNotExist then os_ret tt else os_err e
  | Ok _ => os_ret tt
  end.

Definition syncStaged (dir stage : path) : M unit :=
  let! _ := sync_optional (dir ++ [dbFile]) in
  let! _ := sync_optional (dir ++ [(dbFile ++ "-wal")%string]) in
  let! _ := sync_optional (dir ++ [(dbFile ++ "-shm")%string]) in
  joined (syncDir dir) (syncDir stage).

Definition valid_aci (aci : string) : bool :=
  match uuid_parse aci with Some u => uuid_string u == aci | None => false end.

(** The calls of [Build] that stop at the first error. *)
Definition fill_staged (dir stage : path) (aci : string) : M string :=
  let! _ := buildDB (dir ++ [dbFile]) aci in
  let! _ := checkBuilt (dir ++ [dbFile]) aci in
  let! _ := syncStaged dir stage in
  fileDigest (dir ++ [dbFile]).

Definition Build (aci : string) : M unit :=
  let! im := os_get in
  if im_aci im != ""%string then os_err (errorf errImportState)
  else if negb (valid_aci aci) then os_err (errorf errImportState)
  else
    let dir := im_stage im ++ [aci] in
    let! _ := wrap_os (prim (fs_Mkdir dir)) in
    let! digest := fill_staged dir (im_stage im) aci in
    let! _ := os_put (mkImport (im_token im) (im_owner im) aci digest (im_committed im)) in
    Dir_step.

(** ** Publishing *)

Definition checkFree (entry : AccountEntry) : M unit :=
  let! l := accounts in
  match collision l entry with
  | Some e => os_err e
  | None =>
      let! r := os_try (query (fs_Lstat (AccountDir (ae_ACI entry)))) in
      match r with
      | Err e => if errIs e fs_ErrNotExist then os_ret tt else os_err (Wrap [Sent ErrImportCollision; e])
      | Ok _ => os_err (errorf ErrImportCollision)
      end
  end.

Definition intent_of (im : Import) (entry : AccountEntry) : importIntent :=
  mkIntent intentVersion (im_token im) entry (im_digest im).

Definition commit (entry : AccountEntry) : M unit :=
  let! im := os_get in
  let intent := intent_of im entry in
  let! _ := os_put (mkImport (im_token im) (im_owner im) (im_aci im) (im_digest im) true) in
  let! _ := writeDurable (im_stage im) intentFile (json_intent intent) in
  let! _ := Dir_step in
  rollForward order suffix (im_stage im) intent.

Definition publish_locked (entry : AccountEntry) : M unit :=
  let! _ := checkFree entry in
  let! im := os_get in
  let! _ := writeDurable (im_stage im ++ [ae_ACI entry]) ownerMarker (im_token im) in
  let! _ := Dir_step in
  let! r := os_try (commit entry) in
  match r with Err e => os_err (Wrap [Sent ErrRecoveryRequired; e]) | Ok _ => os_ret tt end.

Definition Publish (entry : AccountEntry) : M unit :=
  let! im := os_get in
  if (im_aci im == ""%string) || (ae_ACI entry != im_aci im) || im_committed im then os_err (errorf errImportState)
  else withRegistry (publish_locked entry).
End imports.
