(* ===== verification/ImportSafety.v ===== *)
(** * An interrupted import is published or not, never in between

    The phases an import goes through on disk. Every primitive of the publication and of a
    recovery keeps the data directory in one of them: wherever the process stops, the next recovery
    finishes the import or finds that it never happened. *)

From S2P Require Import Prelude Errors Uuid Utf8 Strconv Types SendCheck FileSys Registry FileLogic Imports.

Notation path := (list string) (only parsing).
Notation fsp := (filesystem -> Prop) (only parsing).

(** ** Phases *)

Section phases.
Context {J : StoreEncoding} (token : string) (entry : AccountEntry) (data : string) (accs : list AccountEntry) (fs0 : filesystem).

Notation aci := (ae_ACI entry).
Definition p_stage : path := stage_of token.
Definition p_owner : path := [importsDir; token; ownerLockFile].
Definition p_intent : path := [importsDir; token; intentFile].
Definition p_staged : path := [importsDir; token; aci].
Definition p_final : path := [aci].
Definition the_intent : importIntent := mkIntent intentVersion token entry (sha256_hex data).

(** The path of another account. *)
Definition elsewhere (q : path) : Prop := exists a r, q = a :: r /\ string_chars uuid_char a = true /\ a <> aci.

Definition is_file (p : path) : fsp := fun fs => exists d, fs !! p = Some (File d).
Definition no_directory (p : path) : fsp := fun fs => fs !! p <> Some Directory.
Definition absent (p : path) : fsp := fun fs => forall r, fs !! (p ++ r) = None.
Definition has_accounts (l : list AccountEntry) : fsp := fun fs =>
  match fs !! [accountsFile] with
  | None => l = []
  | Some (File raw) => parse_accounts raw = Ok l
  | Some Directory => False
  end.

(** What no phase changes: the only attempt is this one, and every other account is as in [fs0]. *)
Record frame (fs : filesystem) : Prop := {
  fr_imports : fs !! [importsDir] = Some Directory;
  fr_names : forall name, is_Some (fs !! stage_of name) -> name = token \/ isToken name = false;
  fr_owner : no_directory p_owner fs;
  fr_lock : no_directory [registryLockFile] fs;
  fr_others : forall q, elsewhere q -> fs !! q = fs0 !! q }.

(** The database, and the marker that names the attempt. *)
Definition stored_at (p : path) (marker : node -> Prop) : fsp := fun fs =>
  fs !! p = Some Directory /\ fs !! (p ++ [dbFile]) = Some (File data) /\
  forall n, fs !! (p ++ [ownerMarker]) = Some n -> marker n.
Definition marked_at (p : path) : fsp := fun fs =>
  stored_at p (fun n => n = File token) fs /\ fs !! (p ++ [ownerMarker]) = Some (File token).
Definition pending : fsp := fun fs =>
  fs !! p_intent = Some (File (json_intent the_intent)) /\ fs !! p_stage = Some Directory /\ is_file p_owner fs.

(** No intent: the import has not happened. *)
Definition before : fsp := fun fs => frame fs /\ has_accounts accs fs /\ absent p_final fs /\ fs !! p_intent = None.
(** Built and checked, still without an intent. *)
Definition built : fsp := fun fs =>
  before fs /\ fs !! p_stage = Some Directory /\ is_file p_owner fs /\ stored_at p_staged (fun n => n <> Directory) fs.
Definition committed : fsp := fun fs =>
  frame fs /\ has_accounts accs fs /\ pending fs /\ marked_at p_staged fs /\ absent p_final fs.
Definition moved : fsp := fun fs =>
  frame fs /\ has_accounts accs fs /\ pending fs /\ marked_at p_final fs /\ absent p_staged fs.
Definition registered : fsp := fun fs =>
  frame fs /\ has_accounts (accs ++ [entry]) fs /\ pending fs /\ stored_at p_final (fun n => n <> Directory) fs.
Definition published : fsp := fun fs =>
  frame fs /\ has_accounts (accs ++ [entry]) fs /\ fs !! p_intent = None /\ stored_at p_final (fun n => n <> Directory) fs.

(** From the durable intent on. *)
Definition late : fsp := fun fs => committed fs \/ moved fs \/ registered fs \/ published fs.
Definition recoverable : fsp := fun fs => before fs \/ late fs.
End phases.

(** Paths that differ by a component the code chose. *)
Ltac path_neq Haci :=
  let E := fresh in
  intros E; cbn in E; unfold p_stage, p_owner, p_intent, p_staged, p_final, stage_of in E; cbn in E;
  repeat match goal with
  | H : _ :: _ = _ :: _ |- _ => injection H as ?; try discriminate
  | H : [] = _ :: _ |- _ => discriminate H
  | H : _ :: _ = [] |- _ => discriminate H
  end; try done;
  match goal with
  | H : ae_ACI _ = _ |- _ => apply (f_equal (string_chars uuid_char)) in H; rewrite Haci in H; discriminate H
  | H : _ = ae_ACI _ |- _ => symmetry in H; apply (f_equal (string_chars uuid_char)) in H; rewrite Haci in H; discriminate H
  end.

(** ** Steps that a phase does not see *)

Section steps.
Context {J : StoreEncoding} (token : string) (entry : AccountEntry) (data : string) (accs : list AccountEntry) (fs0 : filesystem).
Context (Haci : string_chars uuid_char (ae_ACI entry) = true).

Notation aci := (ae_ACI entry).
Notation frame := (frame token entry fs0).
Notation elsewhere := (elsewhere entry).
Notation staged := (p_staged token entry).
Notation final := (p_final entry).

Lemma not_elsewhere (a : string) (r : path) : string_chars uuid_char a = false \/ a = aci -> ~ elsewhere (a :: r).
Proof. intros H (b & r' & E & Hb & Hne). injection E as <- <-. destruct H; congruence. Qed.

Lemma frame_insert (q : path) (d : string) (fs : filesystem) :
  q <> [importsDir] -> (forall name, q <> stage_of name) -> ~ elsewhere q -> frame fs -> frame (<[q := File d]> fs).
Proof.
  intros H1 H2 H3 [F1 F2 F3 F4 F5]. split.
  - by rewrite lookup_insert_ne.
  - intros name. rewrite lookup_insert_ne by done. apply F2.
  - unfold no_directory in *. destruct (decide (q = p_owner token)) as [->|]; [by rewrite lookup_insert_eq|by rewrite lookup_insert_ne].
  - unfold no_directory in *. destruct (decide (q = [registryLockFile])) as [->|]; [by rewrite lookup_insert_eq|by rewrite lookup_insert_ne].
  - intros q' Hq'. rewrite lookup_insert_ne by (by intros ->). by apply F5.
Qed.

Lemma frame_delete (q : path) (fs : filesystem) : q <> [importsDir] -> ~ elsewhere q -> frame fs -> frame (delete q fs).
Proof.
  intros H1 H3 [F1 F2 F3 F4 F5]. split.
  - by rewrite lookup_delete_ne.
  - intros name [n Hn]. apply lookup_delete_Some in Hn as [_ Hn]. apply F2. by exists n.
  - unfold no_directory in *. intros E. by apply lookup_delete_Some in E as [_ E].
  - unfold no_directory in *. intros E. by apply lookup_delete_Some in E as [_ E].
  - intros q' Hq'. rewrite lookup_delete_ne by (by intros ->). by apply F5.
Qed.

(** The paths the phases look at. *)
Definition looked_at (q : path) : Prop :=
  q = [accountsFile] \/ q = p_intent token \/ q = p_stage token \/ q = p_owner token \/
  (exists r, q = staged ++ r) \/ (exists r, q = final ++ r).

Definition agree (fs fs' : filesystem) : Prop := forall q, looked_at q -> fs' !! q = fs !! q.

Lemma agree_insert (q : path) (n : node) (fs : filesystem) : ~ looked_at q -> agree fs (<[q := n]> fs).
Proof. intros H q' Hq'. by rewrite lookup_insert_ne by (by intros ->). Qed.
Lemma agree_delete (q : path) (fs : filesystem) : ~ looked_at q -> agree fs (delete q fs).
Proof. intros H q' Hq'. by rewrite lookup_delete_ne by (by intros ->). Qed.

Lemma looked_staged r : looked_at (staged ++ r).
Proof. do 4 right. left. by exists r. Qed.
Lemma looked_final r : looked_at (final ++ r).
Proof. do 5 right. by exists r. Qed.

Lemma has_accounts_agree l fs fs' : fs' !! [accountsFile] = fs !! [accountsFile] -> has_accounts l fs -> has_accounts l fs'.
Proof. unfold has_accounts. by intros ->. Qed.

Lemma absent_agree p fs fs' : (forall r, fs' !! (p ++ r) = fs !! (p ++ r)) -> absent p fs -> absent p fs'.
Proof. intros H Ha r. by rewrite H. Qed.

Lemma stored_agree p K fs fs' : (forall r, fs' !! (p ++ r) = fs !! (p ++ r)) -> stored_at data p K fs -> stored_at data p K fs'.
Proof.
  intros H (H1 & H2 & H3). unfold stored_at. rewrite !H. split_and!; [|done..]. specialize (H []). rewrite app_nil_r in H. by rewrite H.
Qed.

Lemma marked_agree p fs fs' : (forall r, fs' !! (p ++ r) = fs !! (p ++ r)) -> marked_at token data p fs -> marked_at token data p fs'.
Proof. intros H [H1 H2]. split; [by eapply stored_agree|]. by rewrite H. Qed.

Lemma pending_agree fs fs' : agree fs fs' -> pending token entry data fs -> pending token entry data fs'.
Proof.
  intros H (H1 & H2 & H3). unfold pending, is_file. rewrite !H by (unfold looked_at; auto 8). by split_and!.
Qed.

Lemma before_agree fs fs' : agree fs fs' -> frame fs' -> before token entry accs fs0 fs -> before token entry accs fs0 fs'.
Proof.
  intros H F (_ & H2 & H3 & H4). split_and!; [done| | |].
  - eapply has_accounts_agree; [|done]. apply H. by left.
  - eapply absent_agree; [|done]. intros r. apply H, looked_final.
  - rewrite H; [done|]. by right; left.
Qed.

Section agreeing.
Context (fs fs' : filesystem) (H : agree fs fs') (F : frame fs').

Lemma agree_accounts : fs' !! [accountsFile] = fs !! [accountsFile].
Proof. apply H. by left. Qed.
Lemma agree_staged r : fs' !! (staged ++ r) = fs !! (staged ++ r).
Proof. apply H, looked_staged. Qed.
Lemma agree_final r : fs' !! (final ++ r) = fs !! (final ++ r).
Proof. apply H, looked_final. Qed.

Hint Resolve agree_accounts agree_staged agree_final : core.
Hint Resolve pending_agree marked_agree absent_agree stored_agree has_accounts_agree : core.

Lemma committed_agree : committed token entry data accs fs0 fs -> committed token entry data accs fs0 fs'.
Proof. intros (_ & ? & ? & ? & ?). split_and!; eauto. Qed.
Lemma moved_agree : moved token entry data accs fs0 fs -> moved token entry data accs fs0 fs'.
Proof. intros (_ & ? & ? & ? & ?). split_and!; eauto. Qed.
Lemma registered_agree : registered token entry data accs fs0 fs -> registered token entry data accs fs0 fs'.
Proof. intros (_ & ? & ? & ?). split_and!; eauto. Qed.
Lemma published_agree : published token entry data accs fs0 fs -> published token entry data accs fs0 fs'.
Proof. intros (_ & ? & ? & ?). split_and!; eauto. rewrite H; [done|]. by right; left. Qed.
Lemma late_agree : late token entry data accs fs0 fs -> late token entry data accs fs0 fs'.
Proof.
  unfold late. intros [?|[?|[?|?]]]; eauto using committed_agree, moved_agree, registered_agree, published_agree.
Qed.
End agreeing.

(** Changes at these paths change nothing the phases look at. *)
Definition unseen (q : path) : Prop :=
  ~ looked_at q /\ q <> [importsDir] /\ (forall name, q <> stage_of name) /\ ~ elsewhere q.

Ltac unseen :=
  split_and!; [intros [?|[?|[?|[?|[[? ?]|[? ?]]]]]]|..| |];
  try (match goal with H : _ = _ |- False => revert H end; path_neq Haci);
  try (intros; path_neq Haci); try (apply not_elsewhere; by left).

Lemma unseen_lock : unseen [registryLockFile].
Proof. unseen. Qed.
Lemma unseen_removed (name : string) (r : path) : unseen ([removedDir; name] ++ r).
Proof. unseen. Qed.
Lemma unseen_accounts_temp (s : string) : unseen [(accountsFile ++ "." ++ s)%string].
Proof. unseen. Qed.
Lemma unseen_intent_temp (s : string) : unseen [importsDir; token; (intentFile ++ "." ++ s)%string].
Proof. unseen. Qed.

Lemma unseen_insert (q : path) (d : string) (fs : filesystem) :
  unseen q -> frame fs -> agree fs (<[q := File d]> fs) /\ frame (<[q := File d]> fs).
Proof. intros (H1 & H2 & H3 & H4) F. split; [by apply agree_insert|by apply frame_insert]. Qed.
Lemma unseen_delete (q : path) (fs : filesystem) :
  unseen q -> frame fs -> agree fs (delete q fs) /\ frame (delete q fs).
Proof. intros (H1 & H2 & H3 & H4) F. split; [by apply agree_delete|by apply frame_delete]. Qed.

(** A property of the directory that changes at such paths keep. *)
Definition stable (P : fsp) : Prop := forall q fs, unseen q -> P fs -> (forall d, P (<[q := File d]> fs)) /\ P (delete q fs).

Lemma stable_agree (P : fsp) : (forall fs, P fs -> frame fs) ->
  (forall fs fs', agree fs fs' -> frame fs' -> P fs -> P fs') -> stable P.
Proof.
  intros HF HP q fs Hq Hp. pose proof (unseen_delete q fs Hq (HF fs Hp)) as [? ?].
  split; [|by eapply HP]. intros d. pose proof (unseen_insert q d fs Hq (HF fs Hp)) as [? ?]. by eapply HP.
Qed.

Lemma stable_before : stable (before token entry accs fs0).
Proof. apply stable_agree; [by intros fs []|apply before_agree]. Qed.
Lemma stable_committed : stable (committed token entry data accs fs0).
Proof. apply stable_agree; [by intros fs []|apply committed_agree]. Qed.
Lemma stable_moved : stable (moved token entry data accs fs0).
Proof. apply stable_agree; [by intros fs []|apply moved_agree]. Qed.
Lemma stable_registered : stable (registered token entry data accs fs0).
Proof. apply stable_agree; [by intros fs []|apply registered_agree]. Qed.
Lemma stable_published : stable (published token entry data accs fs0).
Proof. apply stable_agree; [by intros fs []|apply published_agree]. Qed.
Lemma late_frame fs : late token entry data accs fs0 fs -> frame fs.
Proof. by intros [[]|[[]|[[]|[]]]]. Qed.
Lemma stable_late : stable (late token entry data accs fs0).
Proof. apply stable_agree; [apply late_frame|apply late_agree]. Qed.

(** What the import leaves in its attempt directory matters to no phase without an intent. *)
Lemma stage_not_final (r r' : path) : p_stage token ++ r <> final ++ r'.
Proof. path_neq Haci. Qed.
Lemma stage_not_accounts (r : path) : p_stage token ++ r <> [accountsFile].
Proof. path_neq Haci. Qed.
Lemma stage_not_elsewhere (r : path) : ~ elsewhere (p_stage token ++ r).
Proof. apply not_elsewhere. by left. Qed.
Lemma stage_not_imports (r : path) : p_stage token ++ r <> [importsDir].
Proof. done. Qed.

Lemma before_unstage r fs : before token entry accs fs0 fs -> before token entry accs fs0 (delete (p_stage token ++ r) fs).
Proof.
  intros (F & H2 & H3 & H4). split_and!.
  - apply frame_delete; auto using stage_not_elsewhere, stage_not_imports.
  - eapply has_accounts_agree; [|done]. by rewrite lookup_delete_ne by apply stage_not_accounts.
  - intros r'. rewrite lookup_delete_ne by apply stage_not_final. apply H3.
  - destruct (decide (p_stage token ++ r = p_intent token)) as [->|]; [apply lookup_delete_eq|by rewrite lookup_delete_ne].
Qed.

Lemma published_unstage r fs :
  published token entry data accs fs0 fs -> published token entry data accs fs0 (delete (p_stage token ++ r) fs).
Proof.
  intros (F & H2 & H3 & H4). split_and!.
  - apply frame_delete; auto using stage_not_elsewhere, stage_not_imports.
  - eapply has_accounts_agree; [|done]. by rewrite lookup_delete_ne by apply stage_not_accounts.
  - destruct (decide (p_stage token ++ r = p_intent token)) as [->|]; [apply lookup_delete_eq|by rewrite lookup_delete_ne].
  - eapply stored_agree; [|done]. intros r'. by rewrite lookup_delete_ne by apply stage_not_final.
Qed.
End steps.
