(* ===== verification/ImportRecovery.v ===== *)
(** * Recovering the registry

    Recovery takes an interrupted import from any phase to its end: to [published] once the intent
    was durable, else to [before]; and leaves it in a phase if it is itself interrupted. *)

From S2P Require Import Prelude Errors Uuid Utf8 Strconv Types SendCheck FileSys Registry FileLogic Imports ImportSafety.

Notation path := (list string) (only parsing).
Notation fsp := (filesystem -> Prop) (only parsing).

Section recovery.
Context {X : Type} {J : StoreEncoding} {JL : StoreEncodingLaws J}.
Context (order : list (list string) -> list (list string)) (suffix : list string -> string -> filesystem -> string).
Context (order_perm : forall l, order l ≡ₚ l).
Context (suffix_free : forall dir base fs, fs !! (dir ++ [(base ++ "." ++ suffix dir base fs)%string]) = None).
Context (token : string) (entry : AccountEntry) (data : string) (accs : list AccountEntry) (fs0 : filesystem).
Context (Haci : string_chars uuid_char (ae_ACI entry) = true) (Htoken : isToken token = true).
Context (Hfree : collision accs entry = None).
Context (St : X -> Prop) (nf : bool).

Notation staged := (p_staged token entry).
Notation final := (p_final entry).
Notation stage := (p_stage token).
Notation owner := (p_owner token).
Notation the_intent := (the_intent token entry data).
Notation stable := (stable token entry).
Notation frame := (frame token entry fs0).
Notation before := (before token entry accs fs0).
Notation committed := (committed token entry data accs fs0).
Notation moved := (moved token entry data accs fs0).
Notation registered := (registered token entry data accs fs0).
Notation published := (published token entry data accs fs0).
Notation late := (late token entry data accs fs0).
(** What holds wherever the process stops. *)
Context (Inv : fsp) (late_ok : forall fs, late fs -> Inv fs).

(** *** Steps that keep any stable property *)

Section stable_steps.
Context (held : gset (list string)) (P : fsp) (HI : forall fs, P fs -> Inv fs).
Notation hoare := (hoare St held nf Inv).

Lemma h_cleanRemoved : stable P -> hoare P (cleanRemoved order) (fun _ => P).
Proof.
  intros HP. unfold cleanRemoved. eapply h_bind; [by apply h_try_query|]. intros [names|e].
  - eapply h_pre; [|by intros fs [? _]]. induction names as [|name names IH]; cbn [clean_names]; [by apply h_ret|].
    eapply h_bind; [|intros r; exact IH]. eapply h_weaken; [apply (h_try_stronger _ _ _ _ P P); [done|]|done|].
    + apply h_RemoveAll; [done|done|]. intros r fs Hp. apply HP; [|done]. by apply (unseen_removed token entry Haci).
    + by intros [[]|e] fs [].
  - apply h_ret. by intros fs [? _].
Qed.

Lemma h_accounts l : (forall fs, P fs -> has_accounts l fs) -> hoare P accounts (fun l' fs => P fs /\ l' = l).
Proof.
  intros HP. unfold accounts. eapply h_bind; [by apply h_try_query|]. intros r.
  apply (h_pure _ _ _ _ _ (r = Err (Sent fs_ErrNotExist) /\ l = [] \/ (exists raw, r = Ok raw /\ parse_accounts raw = Ok l) \/
    nf = false /\ r = Err (Opaque "i/o"))).
  { intros fs [Hp [->|?]]; [|auto]. specialize (HP fs Hp). unfold has_accounts in HP. unfold fs_ReadFile.
    destruct (fs !! [accountsFile]) as [[raw|]|]; eauto 6; done. }
  intros [[-> ->]|[(raw & -> & Hraw)|[Hn ->]]].
  - apply h_ret. by intros fs [? _].
  - apply h_of. rewrite Hraw. by intros fs [? _].
  - apply h_err. intros fs [? _]. auto.
Qed.

Lemma h_checkStaged (p : path) :
  (forall fs, P fs -> marked_at token data p fs) -> hoare P (checkStaged p the_intent) (fun _ => P).
Proof.
  intros HP. unfold checkStaged. eapply h_bind.
  { apply h_try, (h_query _ _ _ _ _ _ (fun r fs => P fs /\ r = token)); [done|]. intros fs Hp. exists token. split; [|done].
    destruct (HP fs Hp) as [_ H2]. unfold fs_ReadFile. by rewrite H2. }
  intros [r|e]; [|by apply h_err]. apply (h_pure _ _ _ _ _ (r = token)); [by intros fs [_ ?]|]. intros ->.
  cbn [the_intent it_Token]. rewrite (bool_decide_eq_true_2 (token = token)) by done. cbn [negb].
  eapply h_bind.
  { apply h_try, h_wrap, (h_bind _ _ _ _ _ _ _ (fun _ => P)).
    - apply h_query; [by intros fs [? _]; apply HI|]. intros fs [Hp _]. destruct (HP fs Hp) as [(_ & H2 & _) _].
      exists (File data). split; [|done]. unfold fs_Lstat. by rewrite H2.
    - intros _. apply (h_bind _ _ _ _ _ _ _ (fun d fs => P fs /\ d = data)).
      + apply h_query; [done|]. intros fs Hp. destruct (HP fs Hp) as [(_ & H2 & _) _]. exists data. split; [|done].
        unfold fs_ReadFile. by rewrite H2.
      + intros d. apply (h_ret _ _ _ _ _ _ (fun s fs => P fs /\ s = sha256_hex data)). by intros fs [? ->]. }
  intros [s|e]; [|by apply h_err]. apply (h_pure _ _ _ _ _ (s = sha256_hex data)); [by intros fs [_ ?]|]. intros ->.
  cbn [the_intent it_Digest]. rewrite (bool_decide_eq_true_2 (sha256_hex data = sha256_hex data)) by done. apply h_ret. by intros fs [? _].
Qed.

(** The new account list replaces the old one at once. *)
Lemma h_write (l : list AccountEntry) (Q : fsp) :
  stable P -> (forall fs, Q fs -> Inv fs) -> (forall fs, P fs -> exists l', has_accounts l' fs) ->
  (forall raw fs, parse_accounts raw = Ok l -> P fs -> Q (<[[accountsFile] := File raw]> fs)) ->
  hoare P (write suffix l) (fun _ => Q).
Proof.
  intros HP HQ Hacc Hins. unfold write. apply (h_bind _ _ _ _ _ _ _ (fun _ => Q)).
  - apply h_wrap. apply (h_replace_file _ _ _ _ _ suffix_free P []); [done| |].
    + intros s fs Hp. apply HP; [|done]. by apply (unseen_accounts_temp token entry Haci).
    + intros fs Hp. split_and!; [by left| |].
      * destruct (Hacc fs Hp) as [l' Hl]. unfold has_accounts in Hl. cbn. intros E. by rewrite E in Hl.
      * apply Hins; [|done]. unfold parse_accounts, accounts_raw. rewrite accounts_roundtrip.
        by rewrite (bool_decide_eq_true_2 (accountsVersion = accountsVersion)).
  - intros _. apply h_wrap, h_syncDir; [done|]. by left.
Qed.

Lemma h_step : hoare P Dir_step (fun _ => P).
Proof. by apply h_io. Qed.

Lemma h_removeStage : (forall fs, P fs -> frame fs) -> (forall r fs, P fs -> P (delete (stage ++ r) fs)) ->
  hoare P (removeStage order stage) (fun _ => P).
Proof.
  intros HF HP. unfold removeStage. apply (h_bind _ _ _ _ _ _ _ (fun _ => P)).
  - apply h_wrap. eapply h_weaken; [by apply (h_RemoveAll _ _ _ _ _ order_perm P)|done|]. by intros _ fs [? _].
  - intros _. apply h_syncDir; [done|]. intros fs Hp. right. exists Directory. apply (fr_imports _ _ _ _ (HF fs Hp)).
Qed.
End stable_steps.

(** *** Rolling forward *)

Section rolling.
Context (held : gset (list string)).
Notation hoare := (hoare St held nf Inv).

Lemma committed_ok fs : committed fs -> Inv fs.
Proof. intros ?. apply late_ok. by left. Qed.
Lemma moved_ok fs : moved fs -> Inv fs.
Proof. intros ?. apply late_ok. by right; left. Qed.
Lemma registered_ok fs : registered fs -> Inv fs.
Proof. intros ?. apply late_ok. by right; right; left. Qed.
Lemma published_ok fs : published fs -> Inv fs.
Proof. intros ?. apply late_ok. by do 3 right. Qed.
Hint Resolve committed_ok moved_ok registered_ok published_ok : core.

Lemma staged_final_apart : apart staged final.
Proof. split; apply below_None; intros r; path_neq Haci. Qed.

Lemma rename_other (q : path) (fs : filesystem) : (forall r, q <> staged ++ r) -> (forall r, q <> final ++ r) ->
  (kmap (swap staged final) fs : filesystem) !! q = fs !! q.
Proof. intros H1 H2. rewrite lookup_swap by apply staged_final_apart. by rewrite swap_other by (by apply below_None). Qed.

Lemma rename_frame fs : frame fs -> frame (kmap (swap staged final) fs).
Proof.
  intros [F1 F2 F3 F4 F5]. split.
  - rewrite rename_other; [done|intros r; path_neq Haci..].
  - intros name. rewrite rename_other; [apply F2|intros r; path_neq Haci..].
  - unfold no_directory. rewrite rename_other; [done|intros r; path_neq Haci..].
  - unfold no_directory. rewrite rename_other; [done|intros r; path_neq Haci..].
  - intros q Hq. rewrite rename_other; [by apply F5|intros r ->; revert Hq..].
    + apply (not_elsewhere entry). by left.
    + apply (not_elsewhere entry). by right.
Qed.

Lemma rename_moves fs : committed fs -> moved (kmap (swap staged final) fs).
Proof.
  intros (F & Ha & (P1 & P2 & P3) & [(S1 & S2 & S3) S4] & Hf).
  assert (Hd : forall r, (kmap (swap staged final) fs : filesystem) !! (final ++ r) = fs !! (staged ++ r)).
  { intros r. rewrite lookup_swap by apply staged_final_apart. by rewrite swap_dst by apply staged_final_apart. }
  split_and!.
  - by apply rename_frame.
  - eapply has_accounts_agree; [|exact Ha]. apply rename_other; intros r; path_neq Haci.
  - destruct P3 as [d P3]. unfold pending. rewrite !rename_other by (intros r; path_neq Haci). split_and!; [done..|].
    exists d. rewrite rename_other; [done|intros r; path_neq Haci..].
  - pose proof (Hd []) as Hd0. rewrite !app_nil_r in Hd0. split; [unfold stored_at; rewrite !Hd, Hd0; by split_and!|by rewrite Hd].
  - intros r. rewrite lookup_swap by apply staged_final_apart. rewrite swap_src. apply Hf.
Qed.

Lemma h_moveStaged : hoare committed (moveStaged stage staged final the_intent) (fun _ => moved).
Proof.
  unfold moveStaged. apply (h_bind _ _ _ _ _ _ _ (fun _ => committed)).
  { apply h_checkStaged; [auto|]. by intros fs (_ & _ & _ & ? & _). }
  intros _. apply (h_bind _ _ _ _ _ _ _ (fun _ => moved)).
  { apply h_wrap, h_prim; [auto|]. intros fs Hc. pose proof Hc as (_ & _ & _ & [(H1 & _) _] & H2).
    unfold fs_RenameDir. specialize (H2 []). rewrite app_nil_r in H2. rewrite H1, H2. by apply rename_moves. }
  intros _. apply (h_bind _ _ _ _ _ _ _ (fun _ => moved)); [apply h_step; auto|]. intros _.
  apply (h_bind _ _ _ _ _ _ _ (fun _ => moved)); [|intros _; apply h_step; auto]. apply h_joined.
  - apply h_syncDir; [auto|]. intros fs (_ & _ & (_ & H & _) & _). right. by eexists.
  - apply h_syncDir; [auto|]. by left.
  - apply h_syncDir; [by intros fs []|]. by left.
Qed.

Lemma h_isDir (P : fsp) (p : path) (b : bool) : (forall fs, P fs -> Inv fs) ->
  (forall fs, P fs -> fs !! p = if b then Some Directory else None) -> hoare P (isDir p) (fun r fs => P fs /\ r = b).
Proof.
  intros HI HP. unfold isDir. eapply h_bind; [by apply h_try_query|]. intros r.
  apply (h_pure _ _ _ _ _ (r = (if b then Ok Directory else Err (Sent fs_ErrNotExist)) \/ nf = false /\ r = Err (Opaque "i/o"))).
  { intros fs [Hp [->|?]]; [|auto]. left. unfold fs_Lstat. rewrite (HP fs Hp). by destruct b. }
  intros [->|[Hn ->]]; [destruct b; apply h_ret; by intros fs [? _]|]. apply h_err. intros fs [? _]. auto.
Qed.

(** An account is staged, or it is at its final path. *)
Lemma h_locate (P : fsp) (b : bool) : (forall fs, P fs -> Inv fs) ->
  (forall fs, P fs -> fs !! staged = (if b then Some Directory else None) /\ fs !! final = (if b then None else Some Directory)) ->
  hoare P (locate staged final) (fun r fs => P fs /\ r = (b, b)).
Proof.
  intros HI HP. unfold locate. eapply h_bind; [by apply (h_isDir P _ b); [|apply HP]|]. intros r1.
  apply (h_pure _ _ _ _ _ (r1 = b)); [by intros fs [_ ?]|]. intros ->.
  apply (h_pre _ _ _ _ _ P); [|by intros fs [? _]]. eapply h_bind; [by apply h_try_query|]. intros r.
  apply (h_pure _ _ _ _ _ (r = (if b then Err (Sent fs_ErrNotExist) else Ok Directory) \/ nf = false /\ r = Err (Opaque "i/o"))).
  { intros fs [Hp [->|?]]; [|auto]. left. unfold fs_Lstat. destruct (HP fs Hp) as [_ ->]. by destruct b. }
  intros [->|[Hn ->]]; [destruct b; apply h_ret; by intros fs [? _]|]. apply h_err. intros fs [? _]. auto.
Qed.
Lemma moved_registers raw fs :
  parse_accounts raw = Ok (accs ++ [entry]) -> moved fs -> registered (<[[accountsFile] := File raw]> fs).
Proof.
  intros Hraw (F & _ & (P1 & P2 & [d P3]) & [S _] & _). split_and!.
  - apply frame_insert; [done|done| |done]. apply not_elsewhere. by left.
  - unfold has_accounts. by rewrite lookup_insert_eq.
  - unfold pending. rewrite !lookup_insert_ne by done. split_and!; [done..|]. exists d. by rewrite lookup_insert_ne.
  - eapply stored_agree.
    + intros r. rewrite lookup_insert_ne; [done|]. path_neq Haci.
    + destruct S as (S1 & S2 & S3). split_and!; [done..|]. intros n Hn. by rewrite (S3 n Hn).
Qed.

Lemma h_register (P : fsp) : (forall fs, P fs -> moved fs) ->
  hoare P (let! _ := write suffix (accs ++ [entry]) in Dir_step)%go (fun _ => registered).
Proof.
  intros HP. apply (h_pre _ _ _ _ _ moved); [|done]. apply (h_bind _ _ _ _ _ _ _ (fun _ => registered)).
  - apply h_write; [auto|by apply stable_moved|auto| |by apply moved_registers].
    intros fs (_ & ? & _). by eexists.
  - intros _. apply h_step. auto.
Qed.

Lemma h_publish_committed : hoare committed (publishAccount suffix stage staged final the_intent accs) (fun _ => registered).
Proof.
  unfold publishAccount. cbn [the_intent it_Entry]. rewrite Hfree. eapply h_bind.
  { apply (h_locate committed true); [auto|]. intros fs (_ & _ & _ & [(? & _) _] & Hf). split; [done|].
    specialize (Hf []). by rewrite app_nil_r in Hf. }
  intros at_. apply (h_pure _ _ _ _ _ (at_ = (true, true))); [by intros fs [_ ?]|]. intros ->. cbn [andb].
  apply (h_bind _ _ _ _ _ _ _ (fun _ => moved)); [|intros _; by apply h_register].
  eapply h_pre; [apply h_moveStaged|]. by intros fs [? _].
Qed.

Lemma h_publish_moved : hoare moved (publishAccount suffix stage staged final the_intent accs) (fun _ => registered).
Proof.
  unfold publishAccount. cbn [the_intent it_Entry]. rewrite Hfree. eapply h_bind.
  { apply (h_locate moved false); [auto|]. intros fs (_ & _ & _ & [(? & _) _] & Hs). split; [|done].
    specialize (Hs []). by rewrite app_nil_r in Hs. }
  intros at_. apply (h_pure _ _ _ _ _ (at_ = (false, false))); [by intros fs [_ ?]|]. intros ->. cbn [andb negb].
  apply (h_bind _ _ _ _ _ _ _ (fun _ => moved)); [|intros _; by apply h_register].
  eapply h_pre; [|by intros fs [? _]]. apply h_checkStaged; [auto|]. by intros fs (_ & _ & _ & ? & _).
Qed.

(** *** Retiring the attempt *)

Lemma registered_unmarked fs : registered fs -> registered (delete (final ++ [ownerMarker]) fs).
Proof.
  intros (F & Ha & (P1 & P2 & [d P3]) & (S1 & S2 & S3)). split_and!.
  - apply frame_delete; [path_neq Haci| |done]. apply not_elsewhere. by right.
  - eapply has_accounts_agree; [|exact Ha]. rewrite lookup_delete_ne; [done|]. path_neq Haci.
  - unfold pending. rewrite !lookup_delete_ne by path_neq Haci. split_and!; [done..|].
    exists d. rewrite lookup_delete_ne; [done|]. path_neq Haci.
  - unfold stored_at. rewrite !lookup_delete_ne by path_neq Haci. split_and!; [done..|].
    intros n. by rewrite lookup_delete_eq.
Qed.

Lemma registered_forgets fs : registered fs -> published (delete (p_intent token) fs).
Proof.
  intros (F & Ha & _ & HS). split_and!.
  - apply frame_delete; [done| |done]. apply (not_elsewhere entry). by left.
  - eapply has_accounts_agree; [|exact Ha]. by rewrite lookup_delete_ne.
  - apply lookup_delete_eq.
  - eapply stored_agree; [|exact HS]. intros r. rewrite lookup_delete_ne; [done|]. path_neq Haci.
Qed.

Lemma h_unmark (r : res string) :
  hoare (fun fs => registered fs /\ (r = fs_ReadFile (final ++ [ownerMarker]) fs \/ (nf = false /\ r = Err (Opaque "i/o"))))
    (match r with
     | Ok owner => if owner == token then
         let! _ := prim (fs_Remove (final ++ [ownerMarker])) in syncDir final
       else os_ret tt
     | Err _ => os_ret tt
     end)%go (fun _ => registered).
Proof.
  destruct r as [marker|e]; [|apply h_ret; by intros fs [? _]]. destruct (marker == token); [|apply h_ret; by intros fs [? _]].
  apply (h_bind _ _ _ _ _ _ _ (fun _ => registered)).
  - apply h_prim; [by intros fs [? _]; auto|]. intros fs [Hr [Hm|[_ ?]]]; [|done]. unfold fs_ReadFile, fs_Remove in *.
    destruct (fs !! (final ++ [ownerMarker])) as [[d|]|]; [|done..]. by apply registered_unmarked.
  - intros _. apply h_syncDir; [auto|]. intros fs (_ & _ & _ & ? & _). right. by eexists.
Qed.

Lemma h_retire : hoare registered (retire order stage final token) (fun _ => published).
Proof.
  unfold retire. eapply h_bind; [apply h_try_query; auto|]. intros r.
  apply (h_bind _ _ _ _ _ _ _ (fun _ => registered)); [apply h_unmark|]. intros _.
  apply (h_bind _ _ _ _ _ _ _ (fun _ => registered)); [apply h_step; auto|]. intros _.
  apply (h_bind _ _ _ _ _ _ _ (fun r fs => match r with
    | Ok _ => published fs /\ fs !! stage = Some Directory | Err e => nf = false /\ e = Opaque "i/o" /\ Inv fs end)).
  { apply h_try_prim; [auto| |by intros fs ? ?; auto]. intros fs Hr. pose proof Hr as (_ & _ & (P1 & P2 & _) & _).
    unfold fs_Remove. change (stage ++ [intentFile]) with (p_intent token). rewrite P1. cbn.
    split; [by apply registered_forgets|]. by rewrite lookup_delete_ne. }
  intros [u|e].
  - apply (h_bind _ _ _ _ _ _ _ (fun _ fs => published fs /\ fs !! stage = Some Directory)); [by apply h_ret|]. intros _.
    apply (h_bind _ _ _ _ _ _ _ (fun _ fs => published fs /\ fs !! stage = Some Directory)).
    + apply h_syncDir; [by intros fs [? _]; auto|]. intros fs [_ ?]. right. by eexists.
    + intros _. eapply h_pre; [|by intros fs [? _]]. apply h_removeStage; [auto|by intros fs []|].
      intros q fs. apply published_unstage, Haci.
  - eapply (h_bind _ _ _ _ _ _ _ (fun _ _ => False)); [|intros _ w _ [[] _]].
    apply (h_pure _ _ _ _ _ (e = Opaque "i/o")); [by intros fs (_ & ? & _)|]. intros ->. apply h_err. intros fs (? & _ & ?). done.
Qed.

(** *** One attempt *)

Lemma entry_in_registered : entry ∈ accs ++ [entry].
Proof. apply elem_of_app. right. by left. Qed.

Lemma entry_not_in_accs : entry ∉ accs.
Proof.
  intros Hin. pose proof Hfree as Hc. unfold collision in Hc. case_match eqn:E; [done|].
  rewrite <- not_true_iff_false, existsb_exists in E. apply E. exists entry. split; [by apply list_elem_of_In|]. unfold collides.
  by rewrite (bool_decide_eq_true_2 (ae_ACI entry = ae_ACI entry)).
Qed.

Lemma h_rollForward (P : fsp) (l : list AccountEntry) : (forall fs, P fs -> Inv fs) -> (forall fs, P fs -> has_accounts l fs) ->
  (if bool_decide (entry ∈ l) then forall fs, P fs -> registered fs
   else hoare P (publishAccount suffix stage staged final the_intent l) (fun _ => registered)) ->
  hoare P (rollForward order suffix stage the_intent) (fun _ => published).
Proof.
  intros HI Hl Hpub. unfold rollForward. eapply h_bind; [by apply h_accounts with (l := l)|]. intros l'.
  apply (h_pure _ _ _ _ _ (l' = l)); [by intros fs [_ ?]|]. intros ->. apply (h_pre _ _ _ _ _ P); [|by intros fs [? _]].
  apply (h_bind _ _ _ _ _ _ _ (fun _ => registered)); [|intros _; apply h_retire]. cbn [the_intent it_Entry].
  destruct (bool_decide (entry ∈ l)); [by apply h_ret|exact Hpub].
Qed.

(** From the intent on, rolling forward ends with the account published. *)
Lemma h_rollForward_committed : hoare committed (rollForward order suffix stage the_intent) (fun _ => published).
Proof.
  apply (h_rollForward _ accs); [auto|by intros fs (_ & ? & _)|]. rewrite bool_decide_eq_false_2 by apply entry_not_in_accs.
  apply h_publish_committed.
Qed.
Lemma h_rollForward_moved : hoare moved (rollForward order suffix stage the_intent) (fun _ => published).
Proof.
  apply (h_rollForward _ accs); [auto|by intros fs (_ & ? & _)|]. rewrite bool_decide_eq_false_2 by apply entry_not_in_accs.
  apply h_publish_moved.
Qed.
Lemma h_rollForward_registered : hoare registered (rollForward order suffix stage the_intent) (fun _ => published).
Proof.
  apply (h_rollForward _ (accs ++ [entry])); [auto|by intros fs (_ & ? & _)|]. by rewrite bool_decide_eq_true_2 by apply entry_in_registered.
Qed.
(** *** Recovering one attempt *)

Definition read_intent (fs : filesystem) : res importIntent :=
  match fs_ReadFile (p_intent token) fs with
  | Ok raw => match json_parse_intent raw with None => Err (Opaque "json") | Some i => Ok i end
  | Err e => Err e
  end.

Lemma h_readIntent (P : fsp) : (forall fs, P fs -> Inv fs) ->
  hoare P (os_try (readIntent stage)) (fun r fs => P fs /\ (r = read_intent fs \/ (nf = false /\ r = Err (Opaque "i/o")))).
Proof.
  intros HI. apply ctriple_try. unfold readIntent. eapply ctriple_bind.
  - apply ctriple_prim.
    + intros w [Hp _]. by apply HI.
    + intros w [Hp Hh] Hn. split; [|exact Hh]. split; [exact Hp|]. by right.
    + intros w [Hp Hh]. instantiate (1 := fun raw => on St held (fun fs => P fs /\ fs_ReadFile (p_intent token) fs = Ok raw)).
      cbn [fst snd]. change (stage ++ [intentFile]) with (p_intent token).
      destruct (fs_ReadFile (p_intent token) (ow_fs w)) as [raw|e] eqn:E; [split; [by split|exact Hh]|].
      split; [|exact Hh]. split; [exact Hp|]. left. unfold read_intent. cbn. by rewrite E.
  - intros raw. apply ctriple_of. intros w [[Hp E] Hh]. split; [|exact Hh]. split; [exact Hp|]. left.
    unfold read_intent. by rewrite E.
Qed.

(** Without an intent the attempt is removed. *)
Lemma h_recover_nothing (P : fsp) : (forall fs, P fs -> Inv fs) -> (forall fs, P fs -> fs !! p_intent token = None) ->
  (forall fs, P fs -> frame fs) -> (forall r fs, P fs -> P (delete (stage ++ r) fs)) ->
  hoare P (recover_locked order suffix stage token) (fun _ => P).
Proof.
  intros HI Hnone HF Hdel. unfold recover_locked. eapply h_bind; [by apply h_readIntent|]. intros r.
  apply (h_pure _ _ _ _ _ (r = Err (Sent fs_ErrNotExist) \/ nf = false /\ r = Err (Opaque "i/o"))).
  { intros fs [Hp [->|?]]; [|auto]. left. unfold read_intent, fs_ReadFile. by rewrite (Hnone fs Hp). }
  intros [->|[Hn ->]].
  - eapply h_pre; [|by intros fs [? _]]. by apply h_removeStage.
  - apply h_err. intros fs [? _]. auto.
Qed.

Lemma h_recover_pending (P : fsp) : (forall fs, P fs -> Inv fs) -> (forall fs, P fs -> pending token entry data fs) ->
  hoare P (rollForward order suffix stage the_intent) (fun _ => published) ->
  hoare P (recover_locked order suffix stage token) (fun _ => published).
Proof.
  intros HI Hpend Hroll. unfold recover_locked. eapply h_bind; [by apply h_readIntent|]. intros r.
  apply (h_pure _ _ _ _ _ (r = Ok the_intent \/ nf = false /\ r = Err (Opaque "i/o"))).
  { intros fs [Hp [->|?]]; [|auto]. left. destruct (Hpend fs Hp) as [H _]. unfold read_intent, fs_ReadFile. by rewrite H, intent_roundtrip. }
  intros [->|[Hn ->]]; [|apply h_err; intros fs [? _]; auto]. cbn [the_intent it_Version it_Token].
  rewrite (bool_decide_eq_true_2 (intentVersion = intentVersion)), (bool_decide_eq_true_2 (token = token)) by done. cbn [negb orb].
  eapply h_pre; [|by intros fs [? _]]. eapply h_bind; [by apply h_try|]. intros [u|e]; [by apply h_ret|by apply h_err].
Qed.

Lemma h_recover_before : (forall fs, before fs -> Inv fs) ->
  hoare before (recover_locked order suffix stage token) (fun _ => before).
Proof.
  intros Hbefore. apply h_recover_nothing.
  - done.
  - by intros fs (_ & _ & _ & ?).
  - by intros fs [].
  - intros r fs. apply before_unstage, Haci.
Qed.

Lemma h_recover_late : hoare late (recover_locked order suffix stage token) (fun _ => published).
Proof.
  apply (h_or _ _ _ _ _ committed (fun fs => moved fs \/ registered fs \/ published fs)); [done| |].
  { apply h_recover_pending; [auto|by intros fs (_ & _ & ? & _)|apply h_rollForward_committed]. }
  apply (h_or _ _ _ _ _ moved (fun fs => registered fs \/ published fs)); [done| |].
  { apply h_recover_pending; [auto|by intros fs (_ & _ & ? & _)|apply h_rollForward_moved]. }
  apply (h_or _ _ _ _ _ registered published); [done| |].
  { apply h_recover_pending; [auto|by intros fs (_ & _ & ? & _)|apply h_rollForward_registered]. }
  apply h_recover_nothing; [auto|by intros fs (_ & _ & ? & _)|by intros fs []|]. intros r fs. apply published_unstage, Haci.
Qed.
End rolling.

(** *** From a set of phases to its end *)

Section attempts.
Context (held : gset (list string)) (from to : fsp).
Context (from_ok : forall fs, from fs -> Inv fs) (from_frame : forall fs, from fs -> frame fs) (to_from : forall fs, to fs -> from fs).
Context (unowned : forall fs, from fs -> fs !! owner = None -> to fs) (to_unstage : forall r fs, to fs -> to (delete (stage ++ r) fs)).
Context (recovers : forall held, hoare St held nf Inv from (recover_locked order suffix stage token) (fun _ => to)).
Notation stopped := (fun w : osworld X => Inv (ow_fs w)).
Notation hoare := (hoare St held nf Inv).

(** An attempt without an owner lock never started: its empty directory is removed. *)
Lemma remove_unowned : ctriple nf (on St held to)
  (let! _ := os_try (prim (fs_Remove stage)) in os_err (X:=X) (A:=unit) (Sent errNothingToRecover))%go
  (fun r w => r = Err (Sent errNothingToRecover) /\ on St held to w) stopped.
Proof.
  eapply (ctriple_bind _ _ _ (fun _ => on St held to)); [|by intros r; apply ctriple_err; intros w].
  eapply ctriple_weaken; [apply ctriple_try_ok, (h_try_prim St held nf Inv to _ (fun _ => to))|done|by intros [r|e] w].
  - auto.
  - intros fs Ht. unfold fs_Remove. pose proof (to_unstage [] fs Ht) as Hd. rewrite app_nil_r in Hd.
    destruct (fs !! stage) as [[d|]|]; [done| |done]. by case_bool_decide.
  - done.
Qed.

Definition owner_post (r : res unit) (w : osworld X) : Prop :=
  match r with
  | Ok _ => on St ({[owner]} ∪ held) from w
  | Err e => e = Sent errNothingToRecover /\ on St held to w \/
      nf = false /\ errIs e errWouldBlock || errIs e errNothingToRecover = false /\ on St held Inv w
  end.

Lemma lockOwner_free : owner ∉ held -> ctriple nf (on St held from) (lockOwner stage) owner_post stopped.
Proof.
  intros Hown. unfold lockOwner. change (stage ++ [ownerLockFile]) with owner.
  eapply (ctriple_bind _ _ _ (fun r => on St held (fun fs => from fs /\ (r = fs_ReadFile owner fs \/ nf = false /\ r = Err (Opaque "i/o"))))).
  { eapply ctriple_weaken; [by apply ctriple_try_ok, (h_try_query St held nf Inv from)|done|]. by intros [r|e] w. }
  intros [owned|e].
  - eapply (ctriple_bind _ _ _ (fun r w => match r with
      | Ok _ => on St ({[owner]} ∪ held) from w | Err e => nf = false /\ e = Opaque "flock" /\ on St held from w end)).
    + eapply ctriple_weaken; [by apply (try_tryLock_free St held nf Inv from)| |by intros [[]|] w].
      intros w [[? _] Hh]. by split.
    + intros [u|e]; [by apply ctriple_ret|]. intros w Hc (Hn & -> & Hw & Hh). split; [done|]. right. split_and!; [done..|].
      split; [by apply from_ok|exact Hh].
  - intros w Hc [[Hw He] Hh]. assert (He' : e = Sent fs_ErrNotExist /\ ow_fs w !! owner = None \/ nf = false /\ e = Opaque "i/o").
    { destruct He as [He|[? [= ->]]]; [|auto]. left. pose proof (fr_owner _ _ _ _ (from_frame _ Hw)) as Ho. unfold fs_ReadFile, no_directory in *.
      destruct (ow_fs w !! owner) as [[d|]|]; [done..|]. by injection He as ->. }
    destruct He' as [[-> Hnone]|[Hn ->]].
    + refine (ctriple_weaken _ (on St held to) _ _ _ remove_unowned _ _ w Hc _); [done| |].
      * intros r w' [-> Hw']. by left.
      * split; [by apply unowned|exact Hh].
    + split; [done|]. right. split_and!; [done..|]. split; [by apply from_ok|exact Hh].
Qed.

Lemma h_recoverAttempt : owner ∉ held -> hoare from (recoverAttempt order suffix token) (fun _ => to).
Proof.
  intros Hown. unfold recoverAttempt. rewrite Htoken. cbn [negb]. change (stage_of token) with stage.
  apply (ctriple_bind _ _ _ owner_post).
  { eapply ctriple_weaken; [|done|]; [apply ctriple_try_ok, (ctriple_try _ _ (fun r w => match r with Ok r => owner_post r w | Err _ => False end)), lockOwner_free; done|].
    by intros [r|e] w. }
  intros [u|e].
  - by apply h_deferring.
  - intros w Hc [[-> Hw]|(Hn & He & Hw)]; [split; [done|exact Hw]|].
    rewrite He. by split.
Qed.

End attempts.

(** *** All attempts *)

Section all_attempts.
Context (held : gset (list string)) (from to : fsp).
Context (from_ok : forall fs, from fs -> Inv fs) (from_frame : forall fs, from fs -> frame fs) (to_from : forall fs, to fs -> from fs).
Context (from_stable : stable from).
Notation hoare := (hoare St held nf Inv).
Context (Hfrom : hoare from (recoverAttempt order suffix token) (fun _ => to)).
Context (Hto : hoare to (recoverAttempt order suffix token) (fun _ => to)).
Context (unstaged : forall fs, from fs -> fs !! stage = None -> to fs).

Definition only_token (names : list string) : Prop := forall name, name ∈ names -> name = token \/ isToken name = false.

Lemma h_recover_settled (names : list string) : only_token names -> hoare to (recover_attempts order suffix names) (fun _ => to).
Proof.
  induction names as [|name names IH]; intros Hnames; cbn [recover_attempts]; [by apply h_ret|].
  apply (h_bind _ _ _ _ _ _ _ (fun _ => to)).
  - destruct (Hnames name) as [->|Hno]; [by left|done|]. unfold recoverAttempt. rewrite Hno. by apply h_ret.
  - intros _. apply IH. intros n Hn. apply Hnames. by right.
Qed.

Lemma h_recover_attempts (names : list string) : only_token names ->
  hoare (fun fs => from fs /\ (token ∈ names \/ to fs)) (recover_attempts order suffix names) (fun _ => to).
Proof.
  induction names as [|name names IH]; intros Hnames; cbn [recover_attempts].
  - apply h_ret. by intros fs [_ [?%elem_of_nil|?]].
  - assert (Hrest : only_token names) by (intros n Hn; apply Hnames; by right).
    destruct (Hnames name) as [->|Hno]; [by left| |].
    + apply (h_bind _ _ _ _ _ _ _ (fun _ => to)); [by eapply h_pre; [exact Hfrom|intros fs []]|].
      intros _. by apply h_recover_settled.
    + eapply h_bind; [|intros u; by apply IH]. unfold recoverAttempt. rewrite Hno. apply h_ret.
      intros fs [Hf [[<-|?]%elem_of_cons|?]]; [by rewrite Htoken in Hno|auto..].
Qed.

Lemma h_recover : hoare from (recover order suffix) (fun _ => to).
Proof.
  unfold recover. apply (h_bind _ _ _ _ _ _ _ (fun _ => from)); [by apply h_cleanRemoved|]. intros _.
  eapply h_bind; [by apply h_try_query|]. intros r.
  apply (h_pure _ _ _ _ _ ((exists names, r = Ok names) \/ nf = false /\ r = Err (Opaque "i/o"))).
  { intros fs [Hf [->|?]]; [|auto]. left. unfold fs_ReadDir. rewrite (fr_imports _ _ _ _ (from_frame _ Hf)). by eexists. }
  intros [[names ->]|[Hn ->]]; [|apply h_err; intros fs [? _]; auto].
  assert (Hread : forall fs, from fs -> Ok names = fs_ReadDir [importsDir] fs -> forall name, name ∈ names <-> is_Some (fs !! stage_of name)).
  { intros fs Hf E name. unfold fs_ReadDir in E. rewrite (fr_imports _ _ _ _ (from_frame _ Hf)) in E. injection E as ->.
    rewrite sort_by_perm. apply (elem_of_children [importsDir]). }
  apply (h_pure _ _ _ _ _ (only_token names)).
  { intros fs [Hf [E|[_ E]]]; [|done]. intros name Hname. apply (fr_names _ _ _ _ (from_frame _ Hf)). by apply (Hread fs Hf E). }
  intros Hnames. eapply h_pre; [by apply h_recover_attempts|]. intros fs [Hf [E|[_ E]]]; [|done]. split; [done|].
  destruct (fs !! stage) eqn:Hs; [left; apply (Hread fs Hf E); by eexists|right; by apply unstaged].
Qed.
End all_attempts.

(** *** What recovery does to an import *)

Section outcomes.
Context (held : gset (list string)) (Hown : owner ∉ held).
Notation hoare := (hoare St held nf Inv).

Lemma published_late fs : published fs -> late fs.
Proof. by do 3 right. Qed.
Lemma published_frame fs : published fs -> frame fs.
Proof. by intros []. Qed.
Lemma before_frame fs : before fs -> frame fs.
Proof. by intros []. Qed.

Lemma late_pending fs : late fs -> published fs \/ pending token entry data fs.
Proof. intros [(_ & _ & ? & _)|[(_ & _ & ? & _)|[(_ & _ & ? & _)|?]]]; auto. Qed.

Hint Resolve late_ok published_late published_ok published_frame before_frame late_frame : core.
Hint Resolve before_unstage published_unstage h_recover_before h_recover_late : core.

Lemma h_attempt_published : hoare published (recoverAttempt order suffix token) (fun _ => published).
Proof.
  apply (h_recoverAttempt held published published); auto. intros h. eapply h_pre; [apply h_recover_late|auto].
Qed.

Lemma recover_before : (forall fs, before fs -> Inv fs) -> hoare before (recover order suffix) (fun _ => before).
Proof.
  intros Hbefore. assert (H : hoare before (recoverAttempt order suffix token) (fun _ => before)) by (apply (h_recoverAttempt held before before); auto).
  apply (h_recover held before before); auto. by apply stable_before.
Qed.

Lemma recover_late : hoare late (recover order suffix) (fun _ => published).
Proof.
  apply (h_recover held late published); auto using h_attempt_published.
  - eauto using late_frame.
  - by apply stable_late.
  - apply (h_recoverAttempt held late published); auto; [eauto using late_frame|].
    intros fs [?|(_ & _ & [d Hd])]%late_pending E; [done|]. by rewrite Hd in E.
  - intros fs [?|(_ & Hs & _)]%late_pending E; [done|]. by rewrite Hs in E.
Qed.
End outcomes.

Lemma owned_lock (held : gset (list string)) (P : fsp) : owner ∈ held ->
  (forall fs, P fs -> Inv fs) -> (forall fs, P fs -> is_file owner fs) ->
  hoare St held nf Inv P (os_try (lockOwner stage)) (fun r fs => P fs /\ (r = Err (Sent errWouldBlock) \/
    nf = false /\ exists e, r = Err e /\ errIs e errWouldBlock || errIs e errNothingToRecover = false)).
Proof.
  intros Hown HI Hfile. apply ctriple_try. unfold lockOwner. change (stage ++ [ownerLockFile]) with owner.
  eapply (ctriple_bind _ _ _ (fun r => on St held (fun fs => P fs /\ ((exists d, r = Ok d) \/ nf = false /\ r = Err (Opaque "i/o"))))).
  { eapply ctriple_weaken; [by apply ctriple_try_ok, (h_try_query St held nf Inv P)|done|].
    intros [r|e] w; [|done]. intros [[Hp Hr] Hh]. split; [|exact Hh]. split; [exact Hp|]. destruct Hr as [->|?]; [|auto].
    left. destruct (Hfile _ Hp) as [d Hd]. exists d. unfold fs_ReadFile. by rewrite Hd. }
  intros r w Hc [[Hp Hr] Hh]. destruct Hr as [[d ->]|[Hn ->]].
  - revert w Hc Hp Hh. enough (H : ctriple nf (on St held P) (let! r := os_try (tryLock owner) in match r with
      | Err e => if errIs e errWouldBlock then os_err e else os_err (recoveryError e)
      | Ok _ => os_ret tt end)%go (fun r => on St held (fun fs => P fs /\ (r = Err (Sent errWouldBlock) \/
        nf = false /\ exists e, r = Err e /\ errIs e errWouldBlock || errIs e errNothingToRecover = false)))
      (fun w => Inv (ow_fs w))) by (intros w Hc Hp Hh; exact (H w Hc (conj Hp Hh))).
    eapply ctriple_bind; [eapply ctriple_weaken; [by apply ctriple_try_ok, (h_try_tryLock_held St held nf Inv P)|done|]|].
    + intros [r|e] w; [|done]. intros Hw. exact Hw.
    + intros r w Hc [[Hp [->|[Hn ->]]] Hh]; (split; [done|]; split; [|exact Hh]; split; [exact Hp|]); [by left|].
      right. split; [done|]. by eexists.
  - split; [done|]. split; [|exact Hh]. split; [exact Hp|]. right. split; [done|]. by eexists.
Qed.

(** While its owner holds its lock, an attempt is left alone. *)
Lemma recover_owned (held : gset (list string)) (P : fsp) : owner ∈ held -> stable P ->
  (forall fs, P fs -> Inv fs) -> (forall fs, P fs -> frame fs) -> (forall fs, P fs -> is_file owner fs) ->
  hoare St held nf Inv P (recover order suffix) (fun _ => P).
Proof.
  intros Hown HP HI HF Hfile.
  assert (H : hoare St held nf Inv P (recoverAttempt order suffix token) (fun _ => P)).
  { unfold recoverAttempt. rewrite Htoken. cbn [negb]. unfold lockOwner. change (stage_of token ++ [ownerLockFile]) with owner.
    eapply (ctriple_bind _ _ _ (fun r => on St held (fun fs => P fs /\ (r = Err (Sent errWouldBlock) \/
      nf = false /\ exists e, r = Err e /\ errIs e errWouldBlock || errIs e errNothingToRecover = false)))); [exact (owned_lock _ _ Hown HI Hfile)|].
    intros r. apply (h_pure _ _ _ _ _ (r = Err (Sent errWouldBlock) \/
      nf = false /\ exists e, r = Err e /\ errIs e errWouldBlock || errIs e errNothingToRecover = false)); [by intros fs [_ ?]|].
    intros [->|(Hn & e & -> & He)].
    - apply h_ret. by intros fs [? _].
    - rewrite He. apply h_err. intros fs [? _]. auto. }
  apply (h_recover held P P); auto.
Qed.
End recovery.
