(* ===== verification/RegistryOps.v ===== *)
(** * The registry's own operations

    [Accounts], [PutAccount], [MarkUnlinked] and [RemoveAccount] on a data directory without import
    attempts: the list of accounts is replaced at once or not at all, whatever fails. *)

From S2P Require Import Prelude Errors Uuid Utf8 Strconv Types SendCheck FileSys Registry FileLogic Imports ImportSafety ImportRecovery.

Notation path := (list string) (only parsing).
Notation fsp := (filesystem -> Prop) (only parsing).

(** The path of an account: its name is made of a UUID's characters. *)
Definition account_path (q : path) : Prop := exists a r, q = a :: r /\ string_chars uuid_char a = true.

(** No attempt waits for recovery. *)
Definition no_attempts (fs : filesystem) : Prop :=
  fs !! [importsDir] = None \/
  fs !! [importsDir] = Some Directory /\ forall name, is_Some (fs !! stage_of name) -> isToken name = false.

(** ** The lists the operations write *)

(** The entry of the ACI is replaced, in its place and once, and the others are kept. *)
Definition entry_of (l : list AccountEntry) (aci : string) : list AccountEntry := filter (fun e => ae_ACI e = aci) l.
Definition but (l : list AccountEntry) (aci : string) : list AccountEntry := filter (fun e => ae_ACI e <> aci) l.

Section operations.
Context {X : Type} {J : StoreEncoding} {JL : StoreEncodingLaws J}.
Context (order : list (list string) -> list (list string)) (suffix : list string -> string -> filesystem -> string).
Context (order_perm : forall l, order l ≡ₚ l).
Context (suffix_free : forall dir base fs, fs !! (dir ++ [(base ++ "." ++ suffix dir base fs)%string]) = None).
Context (St : X -> Prop) (fs0 : filesystem).

(** A data directory with these accounts, where [kept] accounts are as they were. *)
Record registry (kept : path -> Prop) (l : list AccountEntry) (fs : filesystem) : Prop := {
  rg_idle : no_attempts fs;
  rg_lock : no_directory [registryLockFile] fs;
  rg_accounts : has_accounts l fs;
  rg_kept : forall q, account_path q -> kept q -> fs !! q = fs0 !! q }.

Definition some_entry : AccountEntry := mkEntry "" "0" "" 0 "" 0 0.

Lemma account_path_looked (token : string) (q : path) : account_path q -> elsewhere some_entry q \/ looked_at token some_entry q.
Proof.
  intros (a & r & -> & Ha). destruct (decide (a = "0"%string)) as [->|Hne]; [right; do 5 right; by exists r|left; by exists a, r].
Qed.

Lemma registry_stable kept l : stable "" some_entry (registry kept l).
Proof.
  assert (H : forall q fs fs', unseen "" some_entry q -> registry kept l fs ->
    (forall q', q' <> q -> fs' !! q' = fs !! q') -> fs' !! q <> Some Directory -> registry kept l fs').
  { intros q fs fs' (H1 & H2 & H3 & H4) [R1 R2 R3 R4] Hq Hn. split.
    - unfold no_attempts. rewrite Hq by auto. destruct R1 as [?|[? R1]]; [by left|right]. split; [done|].
      intros name. rewrite Hq by auto. apply R1.
    - unfold no_directory. destruct (decide (q = [registryLockFile])) as [->|]; [done|]. by rewrite Hq.
    - eapply has_accounts_agree; [|exact R3]. apply Hq. intros <-. apply H1. by left.
    - intros q' Ha Hk. rewrite Hq; [by apply R4|]. intros ->. by destruct (account_path_looked "" q Ha). }
  intros q fs Hq Hr. split; [intros d|]; eapply H; eauto.
  - intros q' Hne. by rewrite lookup_insert_ne.
  - by rewrite lookup_insert_eq.
  - intros q' Hne. by rewrite lookup_delete_ne.
  - by rewrite lookup_delete_eq.
Qed.

Section run.
Context (held : gset (list string)) (nf : bool) (Inv : fsp) (kept : path -> Prop) (l : list AccountEntry) (HI : forall fs, registry kept l fs -> Inv fs).
Notation hoare := (hoare St held nf Inv).
Notation registry := (registry kept).

(** Nothing to recover. *)
Lemma h_recover_idle : hoare (registry l) (recover order suffix) (fun _ => registry l).
Proof.
  unfold recover. apply (h_bind _ _ _ _ _ _ _ (fun _ => registry l)).
  { apply (h_cleanRemoved order order_perm "" some_entry); [done..|]. apply registry_stable. }
  intros _. eapply h_bind; [by apply h_try_query|]. intros r.
  apply (h_pure _ _ _ _ _ (r = Err (Sent fs_ErrNotExist) \/ (exists names, r = Ok names /\ forall name, name ∈ names -> isToken name = false) \/
    nf = false /\ r = Err (Opaque "i/o"))).
  { intros fs [[[E|[E R]] _ _ _] [->|?]]; auto; unfold fs_ReadDir; rewrite E; [by left|]. right; left. eexists. split; [done|].
    intros name. rewrite sort_by_perm. rewrite (elem_of_children [importsDir]). apply R. }
  intros [->|[(names & -> & Hn)|[Hn ->]]].
  - apply h_ret. by intros fs [? _].
  - eapply h_pre; [|by intros fs [? _]]. induction names as [|name names IH]; cbn [recover_attempts]; [by apply h_ret|].
    apply (h_bind _ _ _ _ _ _ _ (fun _ => registry l)).
    + unfold recoverAttempt. rewrite (Hn name) by (by left). by apply h_ret.
    + intros _. apply IH. intros n Hin. apply Hn. by right.
  - apply h_err. intros fs [? _]. auto.
Qed.

Lemma registry_written l' raw fs : parse_accounts raw = Ok l' -> registry l fs -> registry l' (<[[accountsFile] := File raw]> fs).
Proof.
  intros Hraw [R1 R2 R3 R4]. split.
  - unfold no_attempts. rewrite lookup_insert_ne by done. destruct R1 as [?|[? R1]]; [by left|right]. split; [done|].
    intros name. rewrite lookup_insert_ne by done. apply R1.
  - unfold no_directory. by rewrite lookup_insert_ne.
  - unfold has_accounts. by rewrite lookup_insert_eq.
  - intros q Hq Hk. rewrite lookup_insert_ne; [by apply R4|]. by intros <-; destruct Hq as (a & r & [= <- <-] & ?).
Qed.

Lemma h_registry_write l' : (forall fs, registry l' fs -> Inv fs) -> hoare (registry l) (write suffix l') (fun _ => registry l').
Proof.
  intros HI'. apply (h_write suffix suffix_free "" some_entry); try done.
  - apply registry_stable.
  - intros fs [_ _ ? _]. by eexists.
  - intros raw fs. apply registry_written.
Qed.

Lemma h_registry_accounts : hoare (registry l) accounts (fun l' fs => registry l fs /\ l' = l).
Proof. apply h_accounts with (l := l); [done|]. by intros fs []. Qed.
End run.

(** Under the registry's lock. *)
Lemma h_registry {A : Type} (nf : bool) (Inv : fsp) (kept : path -> Prop) (l : list AccountEntry) (m : os X A) (Q : A -> fsp) :
  (forall fs, registry kept l fs -> Inv fs) ->
  hoare St {[[registryLockFile]]} nf Inv (registry kept l) m Q ->
  hoare St ∅ nf Inv (registry kept l) (withRegistry order suffix m) Q.
Proof.
  intros HI Hm. apply (h_withRegistry _ _ _ _ _ _ (registry kept l)); [set_solver|done| |].
  - intros fs Hr. split; [apply Hr|]. apply (registry_stable kept l); [|done]. by apply unseen_lock.
  - rewrite union_empty_r_L. apply (h_bind _ _ _ _ _ _ _ (fun _ => registry kept l)); [by apply h_recover_idle|]. by intros _.
Qed.
End operations.

(** ** Replacing the list *)

Section updates.
Context {X : Type} {J : StoreEncoding} {JL : StoreEncodingLaws J}.
Context (order : list (list string) -> list (list string)) (suffix : list string -> string -> filesystem -> string).
Context (order_perm : forall l, order l ≡ₚ l).
Context (suffix_free : forall dir base fs, fs !! (dir ++ [(base ++ "." ++ suffix dir base fs)%string]) = None).
Notation everywhere := (fun _ : X => True).
Notation everything := (fun _ : path => True).

(** The accounts are [l] in an otherwise idle data directory, every account in its place. *)
Definition listed (fs0 : filesystem) (l : list AccountEntry) : fsp := registry fs0 everything l.

(** An update of the list: done, or, after a failure or a stop, done or not begun. *)
Definition updates (w : osworld X) (l l' : list AccountEntry) (result : option (res unit) * osworld X) : Prop :=
  match result with
  | (Some (Ok _), w') => listed (ow_fs w) l' (ow_fs w')
  | (_, w') => ow_faults w <> [] /\ (listed (ow_fs w) l (ow_fs w') \/ listed (ow_fs w) l' (ow_fs w'))
  end.

Lemma update_atomic (w : osworld X) (l l' : list AccountEntry) (m : list AccountEntry -> os X unit) :
  ow_held w = ∅ -> listed (ow_fs w) l (ow_fs w) -> (m l = write suffix l' \/ l' = l /\ m l = os_ret tt) ->
  updates w l l' (withRegistry order suffix (let! l := accounts in m l)%go w).
Proof.
  intros Hheld Hl Hm. set (nf := bool_decide (ow_faults w = [])).
  set (Inv := fun fs => listed (ow_fs w) l fs \/ listed (ow_fs w) l' fs).
  assert (H : hoare everywhere ∅ nf Inv (listed (ow_fs w) l) (withRegistry order suffix (let! l := accounts in m l)%go)
    (fun _ => listed (ow_fs w) l')).
  { apply h_registry; [done..|by left|].
    apply (h_bind _ _ _ _ _ _ _ (fun l' fs => listed (ow_fs w) l fs /\ l' = l)); [apply h_registry_accounts; by left|].
    intros l1. apply (h_pure _ _ _ _ _ (l1 = l)); [by intros fs [_ ?]|]. intros ->. apply (h_pre _ _ _ _ _ (listed (ow_fs w) l)); [|by intros fs [? _]].
    destruct Hm as [->|[-> ->]]; [|by apply h_ret]. apply h_registry_write; [done|by left|by right]. }
  assert (Hc : clean nf w) by (intros Hn; by apply bool_decide_eq_true in Hn).
  specialize (H w Hc (conj Hl (conj Hheld I))). unfold updates.
  destruct (withRegistry order suffix (let! l := accounts in m l)%go w) as [[[u|e]|] w'].
  - apply H.
  - destruct H as (_ & Hn & Hi & _). split; [by apply bool_decide_eq_false in Hn|done].
  - destruct H as (Hn & Hi). split; [by apply bool_decide_eq_false in Hn|done].
Qed.

(** *** PutAccount *)

Lemma put_entry_others (l : list AccountEntry) (entry : AccountEntry) (aci : string) :
  aci <> ae_ACI entry -> entry_of (put_entry l entry) aci = entry_of l aci.
Proof.
  intros Hne. unfold put_entry, entry_of. destruct (existsb _ l).
  - induction l as [|e l IH]; [done|]. rewrite fmap_cons, !filter_cons, IH. case_bool_decide as He; [|done].
    rewrite decide_False by congruence. by rewrite decide_False by congruence.
  - rewrite filter_app, filter_cons, decide_False by congruence. by rewrite app_nil_r.
Qed.

Lemma put_entry_own (l : list AccountEntry) (entry : AccountEntry) :
  Forall (eq entry) (entry_of (put_entry l entry) (ae_ACI entry)) /\ entry ∈ put_entry l entry.
Proof.
  unfold put_entry, entry_of. destruct (existsb _ l) eqn:E.
  - split.
    + rewrite Forall_forall. intros e He. apply list_elem_of_filter in He as [Ha He]. apply list_elem_of_fmap in He as (e' & -> & _).
      case_bool_decide; congruence.
    + apply existsb_exists in E as (e & He & Hb). apply list_elem_of_fmap. exists e. rewrite Hb. split; [done|by apply list_elem_of_In].
  - split; [|apply elem_of_app; right; by left]. rewrite filter_app, Forall_app. split; [|by rewrite filter_cons, decide_True; [constructor|]].
    rewrite Forall_forall. intros e He. apply list_elem_of_filter in He as [Ha He]. exfalso.
    apply not_true_iff_false in E. apply E, existsb_exists. exists e. split; [by apply list_elem_of_In|by apply bool_decide_eq_true].
Qed.

(** [PutAccount] on a data directory without import attempts: the entry replaces the entries of its
    ACI in their places, or is added at the end, and the entries of every other ACI stay as they
    are; after a failure or wherever the process stops, the list is the old or the new one. *)
Theorem PutAccount_spec (w : osworld X) (l : list AccountEntry) (entry : AccountEntry) :
  ow_held w = ∅ -> listed (ow_fs w) l (ow_fs w) ->
  updates w l (put_entry l entry) (PutAccount order suffix entry w) /\
  entry ∈ put_entry l entry /\ Forall (eq entry) (entry_of (put_entry l entry) (ae_ACI entry)) /\
  (forall aci, aci <> ae_ACI entry -> entry_of (put_entry l entry) aci = entry_of l aci).
Proof.
  intros Hheld Hl. split_and!; [|apply put_entry_own..|apply put_entry_others].
  apply (update_atomic w l _ (fun l => write suffix (put_entry l entry))); [done..|by left].
Qed.

(** *** MarkUnlinked *)

Definition linked (aci : string) (e : AccountEntry) : Prop := ae_ACI e = aci /\ IsZeroTime (ae_UnlinkedAt e) = true.

Lemma mark_unlinked_spec (l : list AccountEntry) (aci : string) (at_ : time) :
  match mark_unlinked l aci at_ with
  | Some l' => exists l1 e l2, l = l1 ++ e :: l2 /\ l' = l1 ++ unlinked_at e at_ :: l2 /\ linked aci e /\ Forall (fun e => ~ linked aci e) l1
  | None => Forall (fun e => ~ linked aci e) l
  end.
Proof.
  induction l as [|e l IH]; cbn [mark_unlinked]; [constructor|].
  destruct ((ae_ACI e != aci) || negb (IsZeroTime (ae_UnlinkedAt e))) eqn:E.
  - assert (Hno : ~ linked aci e) by (intros [Ha Hz]; rewrite Hz, bool_decide_eq_true_2 in E by done; done).
    destruct (mark_unlinked l aci at_) as [l'|]; [|by constructor].
    destruct IH as (l1 & x & l2 & -> & -> & Hx & H1). exists (e :: l1), x, l2. split_and!; [done..|by constructor].
  - apply orb_false_iff in E as [Ha Hz]. exists [], e, l. split_and!; [done..| |constructor].
    split; [by apply negb_false_iff, bool_decide_eq_true in Ha|by apply negb_false_iff in Hz].
Qed.

(** [MarkUnlinked] on a data directory without import attempts sets the time of the first entry of the
    ACI that is still linked, and of no other; where there is none nothing is written. After a
    failure or wherever the process stops, the list is the old or the new one. *)
Theorem MarkUnlinked_spec (w : osworld X) (l : list AccountEntry) (aci : string) (at_ : time) :
  ow_held w = ∅ -> listed (ow_fs w) l (ow_fs w) ->
  exists l', updates w l l' (MarkUnlinked order suffix aci at_ w) /\
    ((exists l1 e l2, l = l1 ++ e :: l2 /\ l' = l1 ++ unlinked_at e at_ :: l2 /\ linked aci e /\ Forall (fun e => ~ linked aci e) l1) \/
     l' = l /\ Forall (fun e => ~ linked aci e) l).
Proof.
  intros Hheld Hl. pose proof (mark_unlinked_spec l aci at_) as H.
  assert (Hup : forall l', match mark_unlinked l aci at_ with Some l1 => l' = l1 | None => l' = l end ->
    updates w l l' (MarkUnlinked order suffix aci at_ w)).
  { intros l' E. apply (update_atomic w l l' (fun l => match mark_unlinked l aci at_ with Some l => write suffix l | None => os_ret tt end)); [done..|].
    destruct (mark_unlinked l aci at_); subst; [by left|by right]. }
  destruct (mark_unlinked l aci at_) as [l'|]; [exists l'; split; [by apply Hup|by left]|exists l; split; [by apply Hup|by right]].
Qed.

(** *** RemoveAccount *)

Section removing.
Context (fs0 : filesystem) (aci : string) (Haci : string_chars uuid_char aci = true) (held : gset (list string)) (Inv : fsp).
Notation hoare := (hoare everywhere held false Inv).

(** Every account but this one is in its place. *)
Definition other_account (q : path) : Prop := forall r, q <> aci :: r.
Notation without l := (registry fs0 other_account l).
Definition gone (l : list AccountEntry) : fsp := fun fs => without l fs /\ fs !! [aci] = None.

Lemma listed_without (l : list AccountEntry) (fs : filesystem) : listed fs0 l fs -> without l fs.
Proof. intros [R1 R2 R3 R4]. split; auto. Qed.

Lemma without_mkdir (l : list AccountEntry) (fs : filesystem) : without l fs -> without l (<[[removedDir] := Directory]> fs).
Proof.
  intros [R1 R2 R3 R4]. split.
  - unfold no_attempts. rewrite lookup_insert_ne by done. destruct R1 as [?|[? R1]]; [by left|right]. split; [done|].
    intros name. rewrite lookup_insert_ne by done. apply R1.
  - unfold no_directory. by rewrite lookup_insert_ne.
  - unfold has_accounts. by rewrite lookup_insert_ne.
  - intros q Hq Hk. rewrite lookup_insert_ne; [by apply R4|]. by intros <-; destruct Hq as (a & r & [= <- <-] & ?).
Qed.

Lemma removed_apart (tok : string) : apart [aci] [removedDir; tok].
Proof.
  split; apply below_None; intros r E; [|by destruct r]. injection E as E _. symmetry in E. by rewrite E in Haci.
Qed.

Lemma without_rename (l : list AccountEntry) (tok : string) (fs : filesystem) : without l fs -> fs !! [removedDir; tok] = None ->
  gone l (kmap (swap [aci] [removedDir; tok]) fs).
Proof.
  intros [R1 R2 R3 R4] Ht.
  assert (H : forall a r, a <> aci -> a <> removedDir -> (kmap (swap [aci] [removedDir; tok]) fs : filesystem) !! (a :: r) = fs !! (a :: r)).
  { intros a r H1 H2. rewrite lookup_swap by apply removed_apart. rewrite swap_other; [done| |]; apply below_None; intros r' [= E _]; done. }
  assert (Hn : forall s, string_chars uuid_char s = false -> s <> aci) by (intros s Hs ->; congruence).
  split; [split|].
  - unfold no_attempts. rewrite H by (by try apply Hn). destruct R1 as [?|[? R1]]; [by left|right]. split; [done|].
    intros name. unfold stage_of. rewrite H by (by try apply Hn). apply R1.
  - unfold no_directory. rewrite H by (by try apply Hn). done.
  - eapply has_accounts_agree; [|exact R3]. by rewrite H by (by try apply Hn).
  - intros q Hq Hk. destruct Hq as (a & r & -> & Ha). rewrite H; [by apply R4; [exists a, r|]|by intros ->; destruct (Hk r)|by intros ->].
  - rewrite lookup_swap by apply removed_apart. pose proof (swap_src [aci] [removedDir; tok] []) as E. by rewrite !app_nil_r in E; rewrite E.
Qed.

Lemma h_moveAside (l : list AccountEntry) : (forall fs, without l fs -> Inv fs) ->
  hoare (without l) (moveAside [aci]) (fun r fs => gone l fs /\ match r with None => True | Some p => exists tok, p = [removedDir; tok] end).
Proof.
  intros HI. unfold moveAside. eapply h_bind; [by apply h_try_query|]. intros r.
  destruct r as [n|e].
  - apply (h_pre _ _ _ _ _ (without l)); [|by intros fs [? _]].
    apply (h_bind _ _ _ _ _ _ _ (fun _ => without l)); [apply (h_bind _ _ _ _ _ _ _ (fun _ => without l)); [by apply h_random|intros; by apply h_ret]|].
    intros tok. apply (h_bind _ _ _ _ _ _ _ (fun _ => without l)).
    { apply h_wrap, h_prim; [done|]. intros fs Hw. unfold fs_MkdirAll, fs_Mkdir.
      destruct (fs !! [removedDir]) as [[]|]; [split; [done|by apply HI]|done|]. by apply without_mkdir. }
    intros _. apply (h_bind _ _ _ _ _ _ _ (fun _ => gone l)).
    { apply h_wrap, (h_bind _ _ _ _ _ _ _ (fun _ => gone l)).
      - apply h_prim; [done|]. intros fs Hw. unfold fs_RenameDir. destruct (fs !! [aci]) eqn:E1; [|by split; [|apply HI]].
        destruct (fs !! [removedDir; tok]) eqn:E2; [by split; [|apply HI]|]. by apply without_rename.
      - intros _. apply h_syncDir; [by intros fs [? _]; apply HI|by left]. }
    intros _. apply h_ret. intros fs Hg. split; [done|by eexists].
  - destruct (errIs e fs_ErrNotExist) eqn:Ee; [apply h_ret|apply h_err; intros fs [? _]; split; [done|by apply HI]].
    intros fs [Hw [He|[_ [= ->]]]]; [|done]. split; [|done]. split; [done|]. unfold fs_Lstat in He. by destruct (fs !! [aci]).
Qed.
End removing.

(** [RemoveAccount] on a data directory without import attempts: when it returns, no entry has the
    ACI and nothing is at its path; the other entries keep their order and the other accounts'
    files are untouched. After a failure or wherever the process stops, either the account is
    still listed with its files in place or it is no longer listed. *)
Theorem RemoveAccount_spec (w : osworld X) (l : list AccountEntry) (aci : string) :
  string_chars uuid_char aci = true -> ow_held w = ∅ -> listed (ow_fs w) l (ow_fs w) ->
  match RemoveAccount order suffix aci w with
  | (Some (Ok _), w') => registry (ow_fs w) (other_account aci) (but l aci) (ow_fs w') /\ ow_fs w' !! [aci] = None
  | (_, w') => listed (ow_fs w) l (ow_fs w') \/ registry (ow_fs w) (other_account aci) (but l aci) (ow_fs w')
  end.
Proof.
  intros Haci Hheld Hl.
  set (Inv := fun fs => listed (ow_fs w) l fs \/ registry (ow_fs w) (other_account aci) (but l aci) fs).
  assert (H : hoare everywhere ∅ false Inv (listed (ow_fs w) l) (RemoveAccount order suffix aci)
    (fun _ => gone (ow_fs w) aci (but l aci))).
  { unfold RemoveAccount. eapply h_bind.
    - apply h_registry; [done..|by left|].
      apply (h_bind _ _ _ _ _ _ _ (fun l' fs => listed (ow_fs w) l fs /\ l' = l)); [apply h_registry_accounts; by left|].
      intros l1. apply (h_pure _ _ _ _ _ (l1 = l)); [by intros fs [_ ?]|]. intros ->.
      apply (h_pre _ _ _ _ _ (listed (ow_fs w) l)); [|by intros fs [? _]].
      apply (h_bind _ _ _ _ _ _ _ (fun _ => listed (ow_fs w) (but l aci))).
      + apply h_registry_write; [done|by left|]. intros fs Hfs. right. by apply listed_without.
      + intros _. eapply h_pre; [apply h_moveAside; [done|by right]|]. intros fs. by apply listed_without.
    - intros [p|]; [|apply h_ret; by intros fs [? _]].
      apply (h_pure _ _ _ _ _ (exists tok, p = [removedDir; tok])); [by intros fs [_ ?]|]. intros [tok ->].
      apply h_wrap. eapply h_weaken; [apply (h_RemoveAll _ _ _ _ _ order_perm (gone (ow_fs w) aci (but l aci)))|by intros fs [? _]|by intros _ fs [? _]].
      + intros fs [? _]. by right.
      + intros r fs [Hr Hg]. split; [|rewrite lookup_delete_ne; [done|by destruct r]].
        apply (registry_stable (ow_fs w) (other_account aci) (but l aci)); [by apply (unseen_removed "" some_entry)|done]. }
  assert (Hc : clean false w) by done. specialize (H w Hc (conj Hl (conj Hheld I))).
  destruct (RemoveAccount order suffix aci w) as [[[u|e]|] w']; [apply H|apply H|apply H].
Qed.
End updates.
