(* ===== verification/ImportCrash.v ===== *)
(** * Publishing, crashing and starting again

    The whole path: an import publishes under any failures, the process stops or gives up, any
    number of later operations on the registry are interrupted in turn, and the first that is not
    finds all of the import or nothing. *)

From S2P Require Import Prelude Errors Uuid Utf8 Strconv Types SendCheck FileSys Registry FileLogic Imports ImportSafety ImportRecovery.

Notation path := (list string) (only parsing).
Notation fsp := (filesystem -> Prop) (only parsing).

Section publishing.
Context {J : StoreEncoding} {JL : StoreEncodingLaws J}.
Context (order : list (list string) -> list (list string)) (suffix : list string -> string -> filesystem -> string).
Context (order_perm : forall l, order l ≡ₚ l).
Context (suffix_free : forall dir base fs, fs !! (dir ++ [(base ++ "." ++ suffix dir base fs)%string]) = None).
Context (token : string) (entry : AccountEntry) (data : string) (accs : list AccountEntry) (fs0 : filesystem).
Context (Haci : string_chars uuid_char (ae_ACI entry) = true) (Htoken : isToken token = true).
Context (Hfree : collision accs entry = None).
Context (nf : bool).

Notation staged := (p_staged token entry).
Notation final := (p_final entry).
Notation stage := (p_stage token).
Notation owner := (p_owner token).
Notation the_intent := (the_intent token entry data).
Notation frame := (frame token entry fs0).
Notation before := (before token entry accs fs0).
Notation built := (built token entry data accs fs0).
Notation committed := (committed token entry data accs fs0).
Notation published := (published token entry data accs fs0).
Notation recoverable := (recoverable token entry data accs fs0).

(** The attempt the importer has in memory. *)
Definition importing (im : Import) : Prop :=
  im_token im = token /\ im_aci im = ae_ACI entry /\ im_digest im = sha256_hex data.

(** Built, and marked with the attempt's token. *)
Definition marked : fsp := fun fs => built fs /\ fs !! (staged ++ [ownerMarker]) = Some (File token).

Section locked.
Context (held : gset (list string)).
Notation hoare := (hoare importing held nf recoverable).

Lemma built_recoverable fs : built fs -> recoverable fs.
Proof. intros [? _]. by left. Qed.
Lemma marked_recoverable fs : marked fs -> recoverable fs.
Proof. intros [? _]. by apply built_recoverable. Qed.
Lemma committed_recoverable fs : committed fs -> recoverable fs.
Proof. by right; left. Qed.
Lemma late_recoverable fs : late token entry data accs fs0 fs -> recoverable fs.
Proof. by right. Qed.
Lemma built_frame fs : built fs -> frame fs.
Proof. by intros [[] _]. Qed.
Hint Resolve late_recoverable built_recoverable marked_recoverable committed_recoverable built_frame : core.

Lemma built_agree fs fs' : agree token entry fs fs' -> frame fs' -> built fs -> built fs'.
Proof.
  intros H F (H1 & H2 & [d H3] & H4). split_and!.
  - by eapply before_agree.
  - rewrite H; [done|]. unfold looked_at. auto.
  - exists d. rewrite H; [done|]. unfold looked_at. auto.
  - eapply stored_agree; [|exact H4]. intros r. apply H, looked_staged.
Qed.

Lemma stable_built : stable token entry built.
Proof. eapply stable_agree; [apply built_frame|apply built_agree]. Qed.

Lemma stable_marked : stable token entry marked.
Proof.
  eapply (stable_agree _ _ fs0); [by intros fs [? _]; auto|]. intros fs fs' H F [H1 H2]. split; [by eapply built_agree|].
  by rewrite H by apply looked_staged.
Qed.

(** Writing beside the database of the staged account. *)
Lemma built_keeps (x : string) (fs : filesystem) (fs' : filesystem) :
  x <> dbFile -> (forall n, fs' !! (staged ++ [ownerMarker]) = Some n -> n <> Directory) ->
  (forall q, q <> staged ++ [x] -> fs' !! q = fs !! q) -> frame fs' -> built fs -> built fs'.
Proof.
  intros Hx Hm Hq F ((_ & B2 & B3 & B4) & H2 & [d H3] & (S1 & S2 & _)). split_and!.
  - split_and!; [done| | |].
    + eapply has_accounts_agree; [|exact B2]. apply Hq. path_neq Haci.
    + eapply absent_agree; [|exact B3]. intros r. apply Hq. path_neq Haci.
    + rewrite Hq; [done|]. path_neq Haci.
  - rewrite Hq; [done|]. path_neq Haci.
  - exists d. rewrite Hq; [done|]. path_neq Haci.
  - unfold stored_at. split_and!; [rewrite Hq; [done|]; path_neq Haci| |exact Hm].
    rewrite Hq; [done|]. intros E. cbn in E. injection E as E. by rewrite E in Hx.
Qed.

Lemma staged_frame_insert (x d : string) fs : frame fs -> frame (<[staged ++ [x] := File d]> fs).
Proof. intros F. apply frame_insert; [done|done| |done]. apply not_elsewhere. by left. Qed.
Lemma staged_frame_delete (x : string) fs : frame fs -> frame (delete (staged ++ [x]) fs).
Proof. intros F. apply frame_delete; [done| |done]. apply not_elsewhere. by left. Qed.

Lemma built_marker_temps : ignores_temps staged ownerMarker built.
Proof.
  intros s fs Hb. pose proof Hb as (_ & _ & _ & (_ & _ & S3)).
  assert (Hne : forall q, q <> staged ++ [(ownerMarker ++ "." ++ s)%string] -> staged ++ [(ownerMarker ++ "." ++ s)%string] <> q) by (intros q Hq E; by apply Hq).
  split; [intros d|]; apply (built_keeps (ownerMarker ++ "." ++ s) fs); try done.
  - intros n. rewrite lookup_insert_ne by path_neq Haci. apply S3.
  - intros q Hq. rewrite lookup_insert_ne by auto. done.
  - apply staged_frame_insert. auto.
  - intros n. rewrite lookup_delete_ne by path_neq Haci. apply S3.
  - intros q Hq. rewrite lookup_delete_ne by auto. done.
  - apply staged_frame_delete. auto.
Qed.

Lemma built_marked fs : built fs -> marked (<[staged ++ [ownerMarker] := File token]> fs).
Proof.
  intros Hb. split; [|apply lookup_insert_eq]. apply (built_keeps ownerMarker fs); try done.
  - intros n. rewrite lookup_insert_eq. by intros [= <-].
  - intros q Hq. rewrite lookup_insert_ne; [done|]. by intros <-.
  - apply staged_frame_insert. auto.
Qed.

(** The intent is what decides. *)
Lemma marked_commits fs : marked fs -> committed (<[p_intent token := File (json_intent the_intent)]> fs).
Proof.
  intros [((F & B2 & B3 & _) & H2 & [d H3] & (S1 & S2 & _)) Hm]. split_and!.
  - apply frame_insert; [done|done| |done]. apply (not_elsewhere entry). by left.
  - eapply has_accounts_agree; [|exact B2]. by rewrite lookup_insert_ne.
  - split_and!; [apply lookup_insert_eq|by rewrite lookup_insert_ne|]. exists d. by rewrite lookup_insert_ne.
  - split; [|rewrite lookup_insert_ne; [done|]; path_neq Haci].
    unfold stored_at. split_and!; [rewrite lookup_insert_ne; [done|]; path_neq Haci..|].
    intros n. rewrite lookup_insert_ne by path_neq Haci. rewrite Hm. by intros [= <-].
  - eapply absent_agree; [|exact B3]. intros r. rewrite lookup_insert_ne; [done|]. path_neq Haci.
Qed.

Lemma h_checkFree : hoare built (checkFree entry) (fun _ => built).
Proof.
  unfold checkFree. eapply h_bind; [apply h_accounts with (l := accs); [auto|]|].
  { by intros fs [(_ & ? & _) _]. }
  intros l. apply (h_pure _ _ _ _ _ (l = accs)); [by intros fs [_ ?]|]. intros ->. rewrite Hfree.
  eapply h_pre; [|by intros fs [H _]; exact H]. eapply h_bind; [apply h_try_query; auto|]. intros r.
  apply (h_pure _ _ _ _ _ (r = Err (Sent fs_ErrNotExist) \/ nf = false /\ r = Err (Opaque "i/o"))).
  { intros fs [[(_ & _ & Hf & _) _] [->|?]]; [|auto]. left. specialize (Hf []). rewrite app_nil_r in Hf. unfold fs_Lstat, AccountDir, p_final in *.
    by rewrite Hf. }
  intros [->|[Hn ->]]; [apply h_ret; by intros fs [? _]|apply h_err; intros fs [? _]; auto].
Qed.

Lemma h_commit : hoare marked (commit order suffix entry) (fun _ => published).
Proof.
  unfold commit. eapply h_bind; [apply h_get|]. intros im.
  apply (h_pure _ _ _ _ _ (importing im)); [by intros fs [_ ?]|]. intros (Ht & Ha & Hd).
  apply (h_pre _ _ _ _ _ marked); [|by intros fs [? _]].
  apply (h_bind _ _ _ _ _ _ _ (fun _ => marked)); [by apply h_put|]. intros _.
  unfold im_stage, intent_of. rewrite Ht, Hd. change (stage_of token) with stage.
  apply (h_bind _ _ _ _ _ _ _ (fun _ => committed)).
  { apply (h_writeDurable _ _ _ _ _ suffix_free marked); [auto| |auto| |].
    - intros s fs Hm. apply stable_marked; [|done]. by apply unseen_intent_temp.
    - intros fs Hm. pose proof Hm as [((_ & _ & _ & B4) & H2 & _) _]. split_and!; [by right| |by apply marked_commits].
      change (stage ++ [intentFile]) with (p_intent token). by rewrite B4.
    - intros fs (_ & _ & (_ & H & _) & _). right. by eexists. }
  intros _. apply (h_bind _ _ _ _ _ _ _ (fun _ => committed)); [apply h_step; auto|]. intros _.
  apply h_rollForward_committed; auto.
Qed.

Lemma h_publish_locked : hoare built (publish_locked order suffix entry) (fun _ => published).
Proof.
  unfold publish_locked. apply (h_bind _ _ _ _ _ _ _ (fun _ => built)); [apply h_checkFree|]. intros _.
  eapply h_bind; [apply h_get|]. intros im. apply (h_pure _ _ _ _ _ (importing im)); [by intros fs [_ ?]|]. intros (Ht & Ha & Hd).
  apply (h_pre _ _ _ _ _ built); [|by intros fs [? _]]. unfold im_stage. rewrite Ht.
  change (stage_of token ++ [ae_ACI entry]) with staged.
  apply (h_bind _ _ _ _ _ _ _ (fun _ => marked)).
  { apply (h_writeDurable _ _ _ _ _ suffix_free built); [auto|apply built_marker_temps|auto| |].
    - intros fs Hb. pose proof Hb as (_ & _ & _ & (S1 & _ & S3)). split_and!; [by right| |by apply built_marked].
      intros E. by destruct (S3 _ E).
    - intros fs [(_ & _ & _ & (S1 & _)) _]. right. by eexists. }
  intros _. apply (h_bind _ _ _ _ _ _ _ (fun _ => marked)); [apply h_step; auto|]. intros _.
  eapply h_bind; [apply h_try, h_commit|]. intros [u|e]; [by apply h_ret|by apply h_err].
Qed.
End locked.

(** [Publish] by the importer, who holds the owner lock. *)
Lemma Publish_safe (w : osworld Import) : ae_ACI entry <> ""%string -> im_committed (ow_state w) = false ->
  clean nf w -> on importing {[owner]} built w ->
  match Publish order suffix entry w with
  | (Some r, w') => clean nf w' /\ post nf (fun _ => on importing {[owner]} published) (on importing {[owner]} recoverable) r w'
  | (None, w') => nf = false /\ recoverable (ow_fs w')
  end.
Proof.
  intros Hne Hcom Hc Hw. pose proof Hw as (_ & _ & (Ht & Ha & Hd)). unfold Publish, os_bind at 1, os_get. cbn iota beta.
  rewrite Hcom, Ha, (bool_decide_eq_false_2 _ Hne), (bool_decide_eq_true_2 (ae_ACI entry = ae_ACI entry)) by done. cbn [orb negb].
  revert w Hc Hw Hcom Ht Ha Hd. enough (H : hoare importing {[owner]} nf recoverable built
    (withRegistry order suffix (publish_locked order suffix entry)) (fun _ => published)) by (intros w Hc Hw _ _ _ _; exact (H w Hc Hw)).
  apply (h_withRegistry _ _ _ _ _ _ built).
  - set_solver.
  - apply built_recoverable.
  - intros fs Hb. split; [apply (fr_lock _ _ _ _ (built_frame fs Hb))|].
    apply stable_built; [|done]. by apply unseen_lock.
  - apply (h_bind _ _ _ _ _ _ _ (fun _ => built)); [|intros _; apply h_publish_locked].
    apply (recover_owned order suffix order_perm token entry fs0); auto using stable_built, late_recoverable, built_recoverable, built_frame; [set_solver|].
    by intros fs (_ & _ & ? & _).
Qed.
End publishing.

(** ** All or nothing *)

Section crashing.
Context {U : UuidLib} {UL : UuidLaws U} {J : StoreEncoding} {JL : StoreEncodingLaws J}.
Context (order : list (list string) -> list (list string)) (suffix : list string -> string -> filesystem -> string).

(** [Accounts] of a process that starts when no other runs. *)
Definition later (faults : list fault) (fs : filesystem) : option (res (list AccountEntry)) * filesystem :=
  let (r, w) := Accounts order suffix (mkWorld fs faults ∅ [] tt) in (r, ow_fs w).

(** Any number of them, each failing or stopping somewhere. *)
Definition restarts (runs : list (list fault)) (fs : filesystem) : filesystem :=
  foldl (fun fs faults => (later faults fs).2) fs runs.

Context (order_perm : forall l, order l ≡ₚ l).
Context (suffix_free : forall dir base fs, fs !! (dir ++ [(base ++ "." ++ suffix dir base fs)%string]) = None).

Lemma valid_aci_chars (aci : string) : valid_aci aci = true -> string_chars uuid_char aci = true /\ aci <> ""%string.
Proof.
  unfold valid_aci. case_match eqn:E; [|done]. intros H. apply bool_decide_eq_true in H. rewrite <- H.
  split; [apply uuid_string_chars|apply uuid_string_nonempty].
Qed.

Section phase.
Context (token : string) (entry : AccountEntry) (data : string) (accs : list AccountEntry) (fs0 : filesystem).
Context (Haci : string_chars uuid_char (ae_ACI entry) = true) (Htoken : isToken token = true) (Hfree : collision accs entry = None).
Notation before := (before token entry accs fs0).
Notation published := (published token entry data accs fs0).
Notation late := (late token entry data accs fs0).
Notation everywhere := (fun _ : unit => True).

(** An operation on the registry recovers it first. *)
Lemma h_Accounts (nf : bool) (from to Inv : fsp) (l : list AccountEntry) :
  (forall fs, from fs -> Inv fs) -> (forall fs, to fs -> Inv fs) -> (forall fs, from fs -> frame token entry fs0 fs) ->
  stable token entry from -> (forall fs, to fs -> has_accounts l fs) ->
  hoare everywhere {[[registryLockFile]]} nf Inv from (recover order suffix) (fun _ => to) ->
  hoare everywhere ∅ nf Inv from (Accounts order suffix) (fun l' fs => to fs /\ l' = l).
Proof.
  intros HI HI' HF Hst Hl Hrec. apply (h_withRegistry _ _ _ _ _ _ from).
  - set_solver.
  - done.
  - intros fs Hf. split; [apply (fr_lock _ _ _ _ (HF fs Hf))|]. apply Hst; [|done]. by apply unseen_lock.
  - rewrite union_empty_r_L. apply (h_bind _ _ _ _ _ _ _ (fun _ => to)); [done|]. intros _.
    by apply h_accounts with (l := l).
Qed.

Lemma Accounts_before (nf : bool) :
  hoare everywhere ∅ nf before before (Accounts order suffix) (fun l fs => before fs /\ l = accs).
Proof.
  apply h_Accounts with (l := accs).
  - done.
  - done.
  - by intros fs [].
  - by apply stable_before.
  - by intros fs (_ & ? & _).
  - apply recover_before; try done.
Qed.

Lemma Accounts_late (nf : bool) :
  hoare everywhere ∅ nf late late (Accounts order suffix) (fun l fs => published fs /\ l = accs ++ [entry]).
Proof.
  apply h_Accounts with (l := accs ++ [entry]).
  - done.
  - by do 3 right.
  - apply late_frame.
  - by apply stable_late.
  - by intros fs (_ & ? & _).
  - apply recover_late; try done.
Qed.

(** An operation that fails or stops leaves the phases it started in; one that does not ends them. *)
Lemma later_keeps (from to : fsp) (l : list AccountEntry) (faults : list fault) (fs : filesystem) :
  (forall fs, to fs -> from fs) ->
  (forall nf, hoare everywhere ∅ nf from from (Accounts order suffix) (fun l' fs => to fs /\ l' = l)) ->
  from fs -> from (later faults fs).2 /\ (faults = [] -> exists fs', later faults fs = (Some (Ok l), fs') /\ to fs').
Proof.
  intros Hto H Hf. set (w := mkWorld fs faults ∅ [] tt). assert (Hw : on everywhere ∅ from w) by (split; [done|by split]).
  unfold later. fold w. split.
  - assert (Hc : clean false w) by done. specialize (H false w Hc Hw).
    destruct (Accounts order suffix w) as [[[l'|e]|] w']; [apply Hto, H|apply H..].
  - intros ->. assert (Hc : clean true w) by done. specialize (H true w Hc Hw).
    destruct (Accounts order suffix w) as [[[l'|e]|] w']; [|by destruct H as (_ & ? & _)|by destruct H].
    destruct H as (_ & [Ht ->] & _). by exists (ow_fs w').
Qed.

Lemma restarts_keep (from to : fsp) (l : list AccountEntry) (runs : list (list fault)) (fs : filesystem) :
  (forall fs, to fs -> from fs) ->
  (forall nf, hoare everywhere ∅ nf from from (Accounts order suffix) (fun l' fs => to fs /\ l' = l)) ->
  from fs -> exists fs', later [] (restarts runs fs) = (Some (Ok l), fs') /\ to fs'.
Proof.
  intros Hto H. unfold restarts. revert fs. induction runs as [|faults runs IH]; intros fs Hf.
  - by apply (later_keeps from to l [] fs).
  - cbn [foldl]. apply IH. by apply (later_keeps from to l faults fs).
Qed.

(** What the first operation that is not interrupted finds. *)
Definition found (all : bool) (fs : filesystem) : Prop := forall runs, exists fs',
  later [] (restarts runs fs) = (Some (Ok (if all then accs ++ [entry] else accs)), fs') /\
  if all then published fs' else before fs'.

Lemma found_late fs : late fs -> found true fs.
Proof. intros Hl runs. apply (restarts_keep late published); [by do 3 right|apply Accounts_late|done]. Qed.
Lemma found_before fs : before fs -> found false fs.
Proof. intros Hb runs. apply (restarts_keep before before); [done|apply Accounts_before|done]. Qed.
Lemma found_recoverable fs : recoverable token entry data accs fs0 fs -> exists all, found all fs.
Proof. intros [Hb|Hl]; [exists false; by apply found_before|exists true; by apply found_late]. Qed.
End phase.

(** C1. Publishing an import is all or nothing. An importer that holds its attempt's lock publishes
    a built account while anything may fail or the process may stop before any primitive; then
    registry operations of later processes fail or stop as they like. Whether the account exists
    is decided once, by the time the importer ends: every later operation that is not itself
    interrupted succeeds and finds the old accounts, or the old accounts followed by the new
    one with its database in place; no intent is left and the other accounts are untouched. If
    [Publish] returned without an error, the account exists; and if nothing fails, it does. *)
Theorem import_all_or_nothing (token : string) (entry : AccountEntry) (data : string) (accs : list AccountEntry)
    (w : osworld Import) :
  valid_aci (ae_ACI entry) = true -> isToken token = true -> collision accs entry = None ->
  importing token entry data (ow_state w) -> im_committed (ow_state w) = false -> ow_held w = {[p_owner token]} ->
  built token entry data accs (ow_fs w) (ow_fs w) ->
  let (outcome, w') := Publish order suffix entry w in
  exists all : bool,
    found token entry data accs (ow_fs w) all (ow_fs w') /\
    (outcome = Some (Ok tt) -> all = true) /\ (ow_faults w = [] -> outcome = Some (Ok tt)).
Proof.
  intros Hv Htoken Hfree Him Hcom Hheld Hb. destruct (valid_aci_chars _ Hv) as [Haci Hne].
  set (nf := bool_decide (ow_faults w = [])).
  assert (Hc : clean nf w) by (intros Hn; by apply bool_decide_eq_true in Hn).
  pose proof (Publish_safe order suffix order_perm suffix_free token entry data accs (ow_fs w) Haci Htoken Hfree nf w Hne Hcom Hc (conj Hb (conj Hheld Him))) as H.
  assert (Hnf : nf = false -> ow_faults w <> []) by apply bool_decide_eq_false.
  pose proof (found_recoverable token entry data accs (ow_fs w) Haci Htoken Hfree) as Hrec.
  destruct (Publish order suffix entry w) as [[[[]|e]|] w'].
  - destruct H as (_ & Hp & _). exists true. split_and!; [|done..]. apply found_late; try done. by do 3 right.
  - destruct H as (_ & Hn & Hr & _). destruct (Hrec _ Hr) as [all Ha]. exists all. split_and!; [done..|]. intros E. by destruct (Hnf Hn).
  - destruct H as [Hn Hr]. destruct (Hrec _ Hr) as [all Ha]. exists all. split_and!; [done..|]. intros E. by destruct (Hnf Hn).
Qed.
End crashing.
