(* ===== verification/ImportBuild.v ===== *)
(** * Building a staged account

    [Build] fills the attempt directory and takes the import to the phase [Publish] starts from;
    where it fails or stops, nothing has happened. *)

From S2P Require Import Prelude Errors Uuid Utf8 Strconv Types SendCheck FileSys Registry FileLogic Imports ImportSafety ImportCrash.

Notation path := (list string) (only parsing).
Notation fsp := (filesystem -> Prop) (only parsing).

Section building.
Context {U : UuidLib} {UL : UuidLaws U} {J : StoreEncoding}.
Context (build : string -> res string) (check_db : string -> string -> bool).
Context (token : string) (entry : AccountEntry) (accs : list AccountEntry) (fs0 : filesystem).
Context (Haci : string_chars uuid_char (ae_ACI entry) = true).

Notation aci := (ae_ACI entry).
Notation staged := (p_staged token entry).
Notation stage := (p_stage token).
Notation owner := (p_owner token).
Notation frame := (frame token entry fs0).
Notation before := (before token entry accs fs0).
Notation built data := (built token entry data accs fs0).

(** An attempt that [BeginImport] allocated, and its account directory made. *)
Definition attempt (P : fsp) : fsp := fun fs => before fs /\ fs !! stage = Some Directory /\ is_file owner fs /\ P fs.
Definition allocated : fsp := attempt (absent staged).
Definition made : fsp := attempt (fun fs => fs !! staged = Some Directory /\ forall x, fs !! (staged ++ [x]) = None).

Context (St : Import -> Prop) (held : gset (list string)).
Notation hoare := (hoare St held false before).

Lemma attempt_before (P : fsp) fs : attempt P fs -> before fs.
Proof. by intros []. Qed.
Lemma built_before data fs : built data fs -> before fs.
Proof. by intros []. Qed.
Hint Resolve attempt_before built_before : core.

(** A change below the account directory. *)
Lemma attempt_keeps (P : fsp) (r : path) (n : node) fs : before fs -> fs !! stage = Some Directory -> is_file owner fs ->
  P (<[staged ++ r := n]> fs) -> attempt P (<[staged ++ r := n]> fs).
Proof.
  intros (F & B2 & B3 & B4) H2 [d H3] HP. split_and!; [| | |done].
  - split_and!.
    + destruct F as [F1 F2 F3 F4 F5]. split.
      * rewrite lookup_insert_ne; [done|]. path_neq Haci.
      * intros name. rewrite lookup_insert_ne by path_neq Haci. apply F2.
      * unfold no_directory. rewrite lookup_insert_ne by path_neq Haci. apply F3.
      * unfold no_directory. rewrite lookup_insert_ne by path_neq Haci. apply F4.
      * intros q Hq. rewrite lookup_insert_ne; [by apply F5|]. intros <-. revert Hq. apply (not_elsewhere entry). by left.
    + eapply has_accounts_agree; [|exact B2]. rewrite lookup_insert_ne; [done|]. path_neq Haci.
    + eapply absent_agree; [|exact B3]. intros r'. rewrite lookup_insert_ne; [done|]. path_neq Haci.
    + rewrite lookup_insert_ne; [done|]. path_neq Haci.
  - rewrite lookup_insert_ne; [done|]. path_neq Haci.
  - exists d. rewrite lookup_insert_ne; [done|]. path_neq Haci.
Qed.

Lemma allocated_makes fs : allocated fs -> fs_Mkdir staged fs = (Ok tt, <[staged := Directory]> fs) /\ made (<[staged := Directory]> fs).
Proof.
  intros (HB & Hs & Ho & Ha). pose proof (Ha []) as Ha0. rewrite app_nil_r in Ha0. split.
  - unfold fs_Mkdir. rewrite Ha0. change staged with (stage ++ [aci]). by rewrite parent_exists_app by auto.
  - change staged with (staged ++ []). apply attempt_keeps; try done. change (staged ++ []) with staged. split; [apply lookup_insert_eq|].
    intros x. rewrite lookup_insert_ne; [done|]. path_neq Haci.
Qed.

Lemma made_opens fs : made fs -> fs_OpenCreate (staged ++ [dbFile]) fs = (Ok tt, <[staged ++ [dbFile] := File ""]> fs) /\
  built "" (<[staged ++ [dbFile] := File ""]> fs).
Proof.
  intros (HB & Hs & Ho & Hd & Hx). split.
  - unfold fs_OpenCreate, fs_Create. rewrite Hx. by rewrite parent_exists_app by auto.
  - apply attempt_keeps; try done. unfold stored_at. split_and!.
    + rewrite lookup_insert_ne; [done|]. path_neq Haci.
    + apply lookup_insert_eq.
    + intros n. rewrite lookup_insert_ne by path_neq Haci. by rewrite Hx.
Qed.

Lemma built_writes data data' fs : built data fs -> fs_Write (staged ++ [dbFile]) data' fs = (Ok tt, <[staged ++ [dbFile] := File data']> fs) /\
  built data' (<[staged ++ [dbFile] := File data']> fs).
Proof.
  intros (HB & Hs & Ho & Hd & Hx & Hm). split; [unfold fs_Write; by rewrite Hx|].
  apply attempt_keeps; try done. unfold stored_at. split_and!.
  - rewrite lookup_insert_ne; [done|]. path_neq Haci.
  - apply lookup_insert_eq.
  - intros n. rewrite lookup_insert_ne by path_neq Haci. apply Hm.
Qed.

(** *** The steps of [Build] *)

(** A query may also fail. *)
Lemma h_query_any {A : Type} (Inv P : fsp) (f : filesystem -> res A) : (forall fs, P fs -> Inv fs) ->
  FileLogic.hoare St held false Inv P (query f) (fun _ => P).
Proof.
  intros HI. apply h_prim; [done|]. intros fs Hp. destruct (f fs); [done|]. split; [done|by apply HI].
Qed.

Lemma h_sync_optional (P : fsp) (p : path) : (forall fs, P fs -> before fs) -> hoare P (sync_optional p) (fun _ => P).
Proof.
  intros HI. unfold sync_optional. eapply h_bind.
  - apply (h_try_stronger _ _ _ _ P); [done|]. unfold syncFile. apply h_wrap, (h_bind _ _ _ _ _ _ _ (fun _ => P)); [by apply h_query_any|].
    intros _. by apply h_then_close, h_io.
  - intros [u|e]; [by apply h_ret|]. destruct (errIs e fs_ErrNotExist); [apply h_ret; by intros fs [_ ?]|apply h_err; intros fs [_ ?]; auto].
Qed.

Lemma h_syncStaged (P : fsp) : (forall fs, P fs -> before fs) -> hoare P (syncStaged staged stage) (fun _ => P).
Proof.
  intros HI. unfold syncStaged.
  do 3 (apply (h_bind _ _ _ _ _ _ _ (fun _ => P)); [by apply h_sync_optional|intros _]).
  assert (Hd : forall (Q : fsp) p, (forall fs, Q fs -> before fs) -> hoare Q (syncDir p) (fun _ => Q)).
  { intros Q p HQ. unfold syncDir. apply h_wrap, (h_bind _ _ _ _ _ _ _ (fun _ => Q)); [destruct p; [by apply h_ret|by apply h_query_any]|].
    intros _. by apply h_then_close, h_io. }
  apply h_joined; apply Hd; [done..|]. by intros fs [_ ?].
Qed.

Lemma h_buildDB : hoare made (buildDB build (staged ++ [dbFile]) aci)
  (fun _ fs => match build aci with Ok data => built data fs | Err _ => False end).
Proof.
  unfold buildDB. apply (h_bind _ _ _ _ _ _ _ (fun _ => built "")).
  { apply h_wrap, (h_bind _ _ _ _ _ _ _ (fun _ => built "")); [|intros _; apply h_io; eauto].
    apply h_prim; [unfold made; eauto|]. intros fs Hm. by destruct (made_opens fs Hm) as [-> ?]. }
  intros _. apply (h_bind _ _ _ _ _ _ _ (fun _ => built "")); [apply h_io; eauto|]. intros _. apply h_wrap, h_then_close.
  { intros fs. destruct (build aci); [eauto|done]. }
  destruct (build aci) as [data|e].
  - apply (h_bind _ _ _ _ _ _ _ (fun d fs => built "" fs /\ d = data)); [apply h_of; by intros fs|]. intros d.
    apply (h_pure _ _ _ _ _ (d = data)); [by intros fs [_ ?]|]. intros ->. apply h_prim; [intros fs [? _]; eauto|].
    intros fs [Hb _]. by destruct (built_writes "" data fs Hb) as [-> ?].
  - eapply (h_bind _ _ _ _ _ _ _ (fun _ _ => False)); [apply h_of; intros fs Hb; split; [done|by destruct Hb]|]. intros d w _ [[] _].
Qed.

Lemma h_checkBuilt data : hoare (built data) (checkBuilt check_db (staged ++ [dbFile]) aci)
  (fun _ fs => check_db data aci = true /\ built data fs).
Proof.
  unfold checkBuilt. apply (h_bind _ _ _ _ _ _ _ (fun d fs => built data fs /\ d = data)).
  - apply h_wrap, h_query; [eauto|]. intros fs Hb. exists data. split; [|done]. unfold fs_ReadFile.
    destruct Hb as (_ & _ & _ & _ & -> & _). done.
  - intros d. apply (h_pure _ _ _ _ _ (d = data)); [by intros fs [_ ?]|]. intros ->. apply h_wrap, h_then_close; [by intros fs [_ []]|].
    destruct (check_db data aci); [apply h_ret; by intros fs [? _]|apply h_err; by intros fs [[] _]].
Qed.

Lemma h_fileDigest data : hoare (built data) (fileDigest (staged ++ [dbFile])) (fun s fs => built data fs /\ s = sha256_hex data).
Proof.
  unfold fileDigest. apply h_wrap, (h_bind _ _ _ _ _ _ _ (fun _ => built data)); [apply h_query_any; eauto|]. intros _.
  apply (h_bind _ _ _ _ _ _ _ (fun d fs => built data fs /\ d = data)).
  - apply h_query; [eauto|]. intros fs Hb. exists data. split; [|done]. unfold fs_ReadFile.
    destruct Hb as (_ & _ & _ & _ & -> & _). done.
  - intros d. apply h_ret. by intros fs [? ->].
Qed.

Lemma h_fill_staged : hoare made (fill_staged build check_db staged stage aci) (fun digest fs =>
  exists data, build aci = Ok data /\ check_db data aci = true /\ digest = sha256_hex data /\ built data fs).
Proof.
  unfold fill_staged. apply (h_bind _ _ _ _ _ _ _ (fun _ fs => match build aci with Ok data => built data fs | Err _ => False end)); [apply h_buildDB|].
  intros _. destruct (build aci) as [data|e] eqn:E; [|by intros w _ [[] _]].
  apply (h_bind _ _ _ _ _ _ _ (fun _ fs => check_db data aci = true /\ built data fs)); [apply h_checkBuilt|]. intros _.
  apply (h_pure _ _ _ _ _ (check_db data aci = true)); [by intros fs [? _]|]. intros Hcheck.
  apply (h_bind _ _ _ _ _ _ _ (fun _ => built data)).
  { eapply h_weaken; [apply (h_syncStaged (built data)); eauto|by intros fs [_ ?]|done]. }
  intros _. eapply h_weaken; [apply h_fileDigest|done|]. intros s fs [Hb ->]. exists data. by split_and!.
Qed.

Lemma h_make : hoare allocated (wrap_os (prim (fs_Mkdir staged))) (fun _ => made).
Proof.
  apply h_wrap, h_prim; [unfold allocated; eauto|]. intros fs Ha. by destruct (allocated_makes fs Ha) as [-> ?].
Qed.
End building.

Section Build.
Context {U : UuidLib} {UL : UuidLaws U} {J : StoreEncoding}.
Context (build : string -> res string) (check_db : string -> string -> bool).

(** A failing program leaves [P]: the others of a sequence are not run. *)
Lemma bind_keeps {A B : Type} (P : fsp) (St : Import -> Prop) (held : gset (list string)) (Pre : osworld Import -> Prop)
    (m : os Import A) (k : A -> os Import B) (Q' : A -> osworld Import -> Prop) (out : res B -> osworld Import -> Prop) :
  (forall e w, P (ow_fs w) -> out (Err e) w) ->
  ctriple false Pre m (post false Q' (on St held P)) (fun w => P (ow_fs w)) ->
  (forall a, ctriple false (Q' a) (k a) out (fun w => P (ow_fs w))) ->
  ctriple false Pre (os_bind m k) out (fun w => P (ow_fs w)).
Proof.
  intros Hout Hm Hk. eapply ctriple_bind; [eapply ctriple_weaken; [exact Hm|done|]|exact Hk].
  intros [a|e] w; [done|]. intros (_ & Hp & _). by apply Hout.
Qed.

(** Building a staged account. An attempt that was allocated and holds no account yet is taken, for a
    canonical ACI, to exactly the state publishing starts from: the account directory holds what
    the callback put into the database, which reopened and was accepted, and the importer
    remembers its digest. Where the callback, the check or any primitive fails, or the process
    stops, the accounts and the final path are as if nothing had happened, and no intent exists. *)
Theorem Build_spec (entry : AccountEntry) (accs : list AccountEntry) (w : osworld Import) :
  let token := im_token (ow_state w) in
  valid_aci (ae_ACI entry) = true -> im_aci (ow_state w) = ""%string -> allocated token entry accs (ow_fs w) (ow_fs w) ->
  match Build build check_db (ae_ACI entry) w with
  | (Some (Ok _), w') => exists data, build (ae_ACI entry) = Ok data /\ check_db data (ae_ACI entry) = true /\
      built token entry data accs (ow_fs w) (ow_fs w') /\ importing token entry data (ow_state w') /\
      im_committed (ow_state w') = im_committed (ow_state w) /\ ow_held w' = ow_held w
  | (_, w') => before token entry accs (ow_fs w) (ow_fs w')
  end.
Proof.
  intros token Hv Haci0 Hal. destruct (valid_aci_chars _ Hv) as [Haci _].
  set (out := fun (r : res unit) (w' : osworld Import) => match r with
    | Ok _ => exists data, build (ae_ACI entry) = Ok data /\ check_db data (ae_ACI entry) = true /\
      built token entry data accs (ow_fs w) (ow_fs w') /\ importing token entry data (ow_state w') /\
      im_committed (ow_state w') = im_committed (ow_state w) /\ ow_held w' = ow_held w
    | Err _ => before token entry accs (ow_fs w) (ow_fs w') end).
  enough (H : ctriple false (on (fun im => im = ow_state w) (ow_held w) (allocated token entry accs (ow_fs w)))
    (Build build check_db (ae_ACI entry)) out (fun w' => before token entry accs (ow_fs w) (ow_fs w'))).
  { assert (Hc : clean false w) by done. assert (Hw : on (fun im => im = ow_state w) (ow_held w) (allocated token entry accs (ow_fs w)) w) by (by split).
    specialize (H w Hc Hw). destruct (Build build check_db (ae_ACI entry) w) as [[[u|e]|] w']; apply H. }
  set (St := fun im => im = ow_state w). set (held := ow_held w). set (P := before token entry accs (ow_fs w)).
  assert (Hout : forall e w', P (ow_fs w') -> out (Err e) w') by done. unfold Build.
  eapply (bind_keeps P St held); [exact Hout|apply h_get|]. intros im w1 Hc1 [[H1 ->] Hw1]. rewrite Haci0, Hv. cbn [negb].
  revert w1 Hc1 H1 Hw1. enough (H : ctriple false (on St held (allocated token entry accs (ow_fs w)))
    (let! _ := wrap_os (prim (fs_Mkdir (p_staged token entry))) in
     let! digest := fill_staged build check_db (p_staged token entry) (p_stage token) (ae_ACI entry) in
     let! _ := os_put (mkImport token (im_owner (ow_state w)) (ae_ACI entry) digest (im_committed (ow_state w))) in Dir_step)%go
    out (fun w' => P (ow_fs w'))) by (intros w1 Hc1 H1 Hw1; exact (H w1 Hc1 (conj H1 Hw1))).
  eapply (bind_keeps P St held _ _ _ (fun _ => on St held (made token entry accs (ow_fs w)))); [exact Hout|by apply h_make|]. intros _.
  eapply (bind_keeps P St held); [exact Hout|by apply h_fill_staged|]. intros digest.
  intros w1 Hc1 ((data & Hb & Hd & -> & HB) & Hh & Hs). unfold os_bind, os_put, Dir_step, device_io, prim. cbn.
  assert (Hbef : P (ow_fs w1)) by apply HB. destruct (default Proceed (head (ow_faults w1))); cbn; [|by split..].
  split; [done|]. exists data. by split_and!.
Qed.
End Build.
