(* ===== verification/ImportDemo.v ===== *)
(** * Witnesses of the registry's theorems

    A concrete encoding of the two documents, a concrete choice of temporary names, and a data
    directory with a staged import on which the theorems' hypotheses hold. *)

From S2P Require Import Prelude Errors Uuid Utf8 Strconv Types SendCheck FileSys Registry FileLogic Imports ImportSafety ImportRecovery RegistryOps ImportCrash ImportBuild.
From stdpp Require Import infinite.

Notation path := (list string) (only parsing).

(** ** Documents as binary numerals *)

Fixpoint bits (p : positive) : string :=
  match p with xH => "" | xO p => String (ascii_of 48) (bits p) | xI p => String (ascii_of 49) (bits p) end.
Fixpoint unbits (s : string) : positive :=
  match s with
  | String a s => if Ascii.eqb a (ascii_of 48) then xO (unbits s) else if Ascii.eqb a (ascii_of 49) then xI (unbits s) else xH
  | _ => xH
  end.

Lemma unbits_bits (p : positive) (s : string) : s = "" \/ (exists t, s = String (ascii_of 10) t) -> unbits (bits p ++ s) = p.
Proof.
  intros Hs. induction p as [p IH|p IH|].
  - change (xI (unbits (bits p ++ s)) = xI p). by rewrite IH.
  - change (xO (unbits (bits p ++ s)) = xO p). by rewrite IH.
  - by destruct Hs as [->|[t ->]].
Qed.

#[local] Instance AccountEntry_countable : Countable AccountEntry.
Proof.
  refine (inj_countable' (fun e => (ae_Number e, ae_ACI e, ae_PNI e, ae_DeviceID e, ae_DeviceName e, ae_LinkedAt e, ae_UnlinkedAt e))
    (fun '(a, b, c, d, e, f, g) => mkEntry a b c d e f g) _).
  by intros [].
Defined.

Definition demo_store : StoreEncoding := {|
  json_accounts v l := bits (countable.encode (v, l));
  json_parse_accounts s := countable.decode (unbits s);
  json_intent i := bits (countable.encode (it_Version i, it_Token i, it_Entry i, it_Digest i));
  json_parse_intent s := (fun '(a, b, c, d) => mkIntent a b c d) <$> countable.decode (unbits s);
  sha256_hex s := s;
|}.
#[local] Existing Instance demo_store.

#[local] Instance demo_store_laws : StoreEncodingLaws demo_store.
Proof.
  split; cbn.
  - intros v l. rewrite unbits_bits by (right; by eexists). apply decode_encode.
  - intros [a b c d]. cbn. pose proof (unbits_bits (countable.encode (a, b, c, d)) "" (or_introl eq_refl)) as H.
    assert (E : forall s, (s ++ "")%string = s) by (intros s; induction s as [|x s IH]; [done|]; change (String x (s ++ "") = String x s); by rewrite IH).
    rewrite E in H. by rewrite H, decode_encode.
Qed.

(** ** A name that is not in use *)

Fixpoint string_drop (n : nat) (s : string) : string :=
  match n, s with S n, String _ s => string_drop n s | _, _ => s end.

Lemma string_drop_app (a b : string) : string_drop (String.length a) (a ++ b) = b.
Proof. induction a as [|x a IH]; [done|]. apply IH. Qed.

Definition demo_suffix (dir : path) (base : string) (fs : filesystem) : string :=
  fresh ((fun p => string_drop (String.length (base ++ ".")) (default "" (last p))) <$> (map_to_list fs).*1).

Lemma demo_suffix_free (dir : path) (base : string) (fs : filesystem) :
  fs !! (dir ++ [(base ++ "." ++ demo_suffix dir base fs)%string]) = None.
Proof.
  destruct (fs !! _) as [n|] eqn:E; [|done]. exfalso. apply elem_of_map_to_list in E.
  apply (infinite_is_fresh ((fun p => string_drop (String.length (base ++ ".")) (default "" (last p))) <$> (map_to_list fs).*1)).
  apply list_elem_of_fmap. eexists. split; [|apply list_elem_of_fmap; eexists; split; [|exact E]; reflexivity].
  cbn. rewrite last_snoc. cbn. fold (demo_suffix dir base fs).
  assert (Ha : forall x y z, ((x ++ y) ++ z = x ++ (y ++ z))%string) by (intros x y z; induction x as [|c x IH]; [done|]; change (String c ((x ++ y) ++ z) = String c (x ++ (y ++ z)))%string; by rewrite IH).
  rewrite <- Ha. by rewrite string_drop_app.
Qed.

Lemma same_order (l : list path) : l ≡ₚ l.
Proof. done. Qed.

(** ** A staged import *)

Definition demo_token : string := "00112233445566778899aabbccddeeff".
Definition demo_aci : string := "11111111-2222-3333-4444-555555555555".
Definition demo_entry : AccountEntry := mkEntry "+4912345" demo_aci "" 2 "laptop" 5 0.
Definition demo_old : AccountEntry := mkEntry "+111" "66666666-2222-3333-4444-555555555555" "" 1 "" 3 0.

(** Without any attempt, and with one that [BeginImport] allocated. *)
Definition demo_idle : filesystem := <[[accountsFile] := File (accounts_raw [demo_old])]> ∅.
Definition demo_allocated : filesystem :=
  <[[importsDir] := Directory]> (<[[importsDir; demo_token] := Directory]>
  (<[[importsDir; demo_token; ownerLockFile] := File ""]> demo_idle)).
Definition demo_built : filesystem :=
  <[[importsDir; demo_token; demo_aci] := Directory]> (<[[importsDir; demo_token; demo_aci; dbFile] := File "data"]> demo_allocated).

Definition demo_import (aci digest : string) : Import := mkImport demo_token true aci digest false.
Definition demo_world (fs : filesystem) (im : Import) : osworld Import :=
  mkWorld fs [Proceed; Proceed; Failing] {[p_owner demo_token]} [] im.

Lemma demo_accounts : parse_accounts (accounts_raw [demo_old]) = Ok [demo_old].
Proof. unfold parse_accounts, accounts_raw. by rewrite accounts_roundtrip. Qed.

Lemma demo_chars : string_chars uuid_char (ae_ACI demo_entry) = true.
Proof. by vm_compute. Qed.

Lemma demo_allocated_lookup (q : path) :
  demo_allocated !! q = if decide ([importsDir] = q) then Some Directory else if decide ([importsDir; demo_token] = q) then Some Directory
    else if decide ([importsDir; demo_token; ownerLockFile] = q) then Some (File "")
    else if decide ([accountsFile] = q) then Some (File (accounts_raw [demo_old])) else None.
Proof. unfold demo_allocated, demo_idle. by rewrite !lookup_insert, lookup_empty. Qed.

Lemma demo_before (fs : filesystem) :
  (forall q, (forall r, q <> p_staged demo_token demo_entry ++ r) -> fs !! q = demo_allocated !! q) -> before demo_token demo_entry [demo_old] fs fs.
Proof.
  intros H. split_and!; [split| | |].
  - by rewrite H.
  - intros name. rewrite H by (by intros r). rewrite demo_allocated_lookup. unfold stage_of. repeat (case_decide; [simplify_eq; auto|]). by intros [].
  - unfold no_directory. by rewrite H by (by intros [|? ?]).
  - unfold no_directory. by rewrite H.
  - done.
  - unfold has_accounts. rewrite H by done. apply demo_accounts.
  - intros r. rewrite H by (by intros r'). rewrite demo_allocated_lookup. repeat (case_decide; [by destruct r|]). done.
  - by rewrite H by (by intros [|? ?]).
Qed.

Lemma demo_allocated_ok : allocated demo_token demo_entry [demo_old] demo_allocated demo_allocated.
Proof.
  split_and!; [by apply demo_before|by rewrite demo_allocated_lookup|by exists ""|].
  intros r. rewrite demo_allocated_lookup. repeat (case_decide; [by destruct r|]). done.
Qed.

Lemma demo_built_ok : built demo_token demo_entry "data" [demo_old] demo_built demo_built.
Proof.
  split_and!; [|done|by exists ""|split_and!; [done..|by intros n]].
  apply demo_before. intros q Hq. unfold demo_built. rewrite !lookup_insert_ne; [done|..].
  - intros <-. by apply (Hq [dbFile]).
  - intros <-. by apply (Hq []).
Qed.

Definition demo_publishing : osworld Import := demo_world demo_built (demo_import demo_aci "data").
Definition demo_building : osworld Import := demo_world demo_allocated (demo_import "" "").

Definition demo_build (aci : string) : res string := Ok "data".
Definition demo_check (data aci : string) : bool := true.

Lemma demo_facts : valid_aci (U:=DemoUuid.lib) (ae_ACI demo_entry) = true /\ isToken demo_token = true /\ collision [demo_old] demo_entry = None.
Proof. split_and!; by vm_compute. Qed.

Lemma import_all_or_nothing_witness :
  built demo_token demo_entry "data" [demo_old] (ow_fs demo_publishing) (ow_fs demo_publishing) /\
  let (outcome, w') := Publish (fun l => l) demo_suffix demo_entry demo_publishing in
  exists all : bool, found (fun l => l) demo_suffix demo_token demo_entry "data" [demo_old] (ow_fs demo_publishing) all (ow_fs w') /\
    (outcome = Some (Ok tt) -> all = true) /\ (ow_faults demo_publishing = [] -> outcome = Some (Ok tt)).
Proof.
  destruct demo_facts as (Hv & Ht & Hc).
  assert (Him : importing demo_token demo_entry "data" (ow_state demo_publishing)) by (split_and!; reflexivity).
  pose proof (import_all_or_nothing (U:=DemoUuid.lib) (UL:=DemoUuid.laws) (fun l => l) demo_suffix same_order demo_suffix_free
    demo_token demo_entry "data" [demo_old] demo_publishing Hv Ht Hc Him) as H.
  specialize (H eq_refl eq_refl demo_built_ok). split; [exact demo_built_ok|exact H].
Defined.

Lemma Build_spec_witness :
  allocated demo_token demo_entry [demo_old] (ow_fs demo_building) (ow_fs demo_building) /\
  match Build (U:=DemoUuid.lib) demo_build demo_check (ae_ACI demo_entry) demo_building with
  | (Some (Ok _), w') => exists data, demo_build (ae_ACI demo_entry) = Ok data /\ demo_check data (ae_ACI demo_entry) = true /\
      built demo_token demo_entry data [demo_old] (ow_fs demo_building) (ow_fs w') /\ importing demo_token demo_entry data (ow_state w') /\
      im_committed (ow_state w') = im_committed (ow_state demo_building) /\ ow_held w' = ow_held demo_building
  | (_, w') => before demo_token demo_entry [demo_old] (ow_fs demo_building) (ow_fs w')
  end.
Proof.
  destruct demo_facts as (Hv & _ & _).
  pose proof (Build_spec (U:=DemoUuid.lib) (UL:=DemoUuid.laws) demo_build demo_check demo_entry [demo_old] demo_building Hv eq_refl demo_allocated_ok) as H.
  split; [exact demo_allocated_ok|exact H].
Defined.

(** ** The registry's operations *)

Definition demo_registry : osworld unit := mkWorld demo_idle [Proceed; Stopping] ∅ [] tt.

Lemma demo_listed : listed (ow_fs demo_registry) [demo_old] (ow_fs demo_registry).
Proof. split; [by left|done| |done]. unfold has_accounts. apply demo_accounts. Qed.

Lemma PutAccount_spec_witness :
  listed (ow_fs demo_registry) [demo_old] (ow_fs demo_registry) /\
  updates demo_registry [demo_old] (put_entry [demo_old] demo_entry) (PutAccount (fun l => l) demo_suffix demo_entry demo_registry) /\
  demo_entry ∈ put_entry [demo_old] demo_entry /\
  Forall (eq demo_entry) (entry_of (put_entry [demo_old] demo_entry) (ae_ACI demo_entry)) /\
  (forall aci, aci <> ae_ACI demo_entry -> entry_of (put_entry [demo_old] demo_entry) aci = entry_of [demo_old] aci).
Proof.
  pose proof (PutAccount_spec (fun l => l) demo_suffix same_order demo_suffix_free demo_registry [demo_old] demo_entry eq_refl demo_listed) as H.
  split; [exact demo_listed|exact H].
Defined.

Lemma MarkUnlinked_spec_witness :
  listed (ow_fs demo_registry) [demo_old] (ow_fs demo_registry) /\
  exists l', updates demo_registry [demo_old] l' (MarkUnlinked (fun l => l) demo_suffix (ae_ACI demo_old) 7 demo_registry) /\
    ((exists l1 e l2, [demo_old] = l1 ++ e :: l2 /\ l' = l1 ++ unlinked_at e 7 :: l2 /\ linked (ae_ACI demo_old) e /\
        Forall (fun e => ~ linked (ae_ACI demo_old) e) l1) \/
     l' = [demo_old] /\ Forall (fun e => ~ linked (ae_ACI demo_old) e) [demo_old]).
Proof.
  pose proof (MarkUnlinked_spec (fun l => l) demo_suffix same_order demo_suffix_free demo_registry [demo_old] (ae_ACI demo_old) 7 eq_refl demo_listed) as H.
  split; [exact demo_listed|exact H].
Defined.

Lemma RemoveAccount_spec_witness :
  string_chars uuid_char (ae_ACI demo_old) = true /\
  match RemoveAccount (fun l => l) demo_suffix (ae_ACI demo_old) demo_registry with
  | (Some (Ok _), w') => registry (ow_fs demo_registry) (other_account (ae_ACI demo_old)) (but [demo_old] (ae_ACI demo_old)) (ow_fs w') /\
      ow_fs w' !! [ae_ACI demo_old] = None
  | (_, w') => listed (ow_fs demo_registry) [demo_old] (ow_fs w') \/
      registry (ow_fs demo_registry) (other_account (ae_ACI demo_old)) (but [demo_old] (ae_ACI demo_old)) (ow_fs w')
  end.
Proof.
  assert (Hc : string_chars uuid_char (ae_ACI demo_old) = true) by (by vm_compute).
  pose proof (RemoveAccount_spec (fun l => l) demo_suffix same_order demo_suffix_free demo_registry [demo_old] (ae_ACI demo_old) Hc eq_refl demo_listed) as H.
  split; [exact Hc|exact H].
Defined.
